(* ===== verification/_CoqProject ===== *)
-Q . S2P
Prelude.v
Mmu.v
Mem.v
Kalloc.v
PageTable.v
Spinlock.v
Resume.v
Kstate.v
Policy.v
Queues.v
Replacement.v
Swap.v
PteBits.v
Uvm.v
Uvmrun.v
PagingInv.v
PageFault.v
Grow.v
FlatStore.v
Demo.v
PagingThms.v
Proc.v
Aging.v
ProcTable.v
ProcThms.v
Wakeup.v
Bio.v
BioSpec.v
Block.v
Log.v
LogSpec.v
LogThms.v
Ulib.v
Grep.v
Ring.v
Pipe.v
Kbd.v
Printf.v
Console.v
ConsoleThms.v
Fs.v
Syscall.v
Trap.v
TrapThms.v
Exec.v
File.v
Sysfile.v
Tx.v
FsInv.v
FsSpec.v
FileSpec.v
FileStore.v
User.v
Shell.v
ShellThms.v
ShellPrint.v
ShellRun.v
SwapCopy.v
Mkfs.v
MkfsSpec.v
MkfsInv.v
MkfsThms.v
Namei.v
MkfsBoot.v
Umalloc.v
UmallocThms.v
Programs.v
ProgramsThms.v
Ide.v
IdeThms.v
Mp.v
Boot.v
BootThms.v
Devices.v
DeviceThms.v
