(* ===== verification/Prelude.v ===== *)
(** * A verification of xv6 with demand paging

    The program (src/) is xv6, a teaching operating system for the x86 in C, extended with demand
    paging: a process may have 32 pages, of which 16 are resident; the others are in a swap file of
    its own, and the page to evict is chosen by one of four schemes (SCFIFO, NFUA, LAPA, AQ; NONE is
    without paging), which the build selects.  This library translates the C code into definitions
    that can be evaluated, one for each function, and proves what the functions do.

    ** How C code is represented

    Kernel code is a function of the state monad [M] of this file, whose outcomes are to return, to
    panic, to dereference a pointer outside of the modelled objects ([Fault]) and to exceed the fuel of
    a loop.  An access of the kernel to a page that is not mapped is a [Fault] too; [in_kernel] of Trap.v
    runs trap() on it, as the processor does.
    [wp m Q s] is total correctness: [m] returns from [s], with [Q].  Integers are in [Z], with [u32]
    and [i32] where the width matters.  Memory is a map from addresses to bytes (Mem.v): page tables,
    the free list of pages, frames, the headers of malloc and the tables of the BIOS are bytes in it.
    Objects of the kernel with an address of their own (entries of the process table, buffers, inodes)
    are entries of lists, and a pointer to one is its index.  Code that switches to another process
    (swtch) is a resumption (Resume.v): it stops at the switch and goes on in a state that others have
    changed.  A user program is the tree of its system calls (User.v).

    What is not under src/ is an argument with laws: drives and other devices (the classes [Ata],
    [AtaSpec] and [Hw]), the layout of the kernel image ([Image]), whether sbrk succeeds.  Every
    theorem with such laws has an instance with a concrete device.

    ** Files and sources

    - Memory: Mmu (mmu.h, memlayout.h), Mem (string.c), Kalloc (kalloc.c), PageTable (walkpgdir and
      mappages of vm.c).
    - Paging: Kstate (proc.h and the state of the kernel), Policy (the replacement schemes of vm.c),
      Swap (the swap files of fs.c, with the interface [FileSys] of the file layer and the laws
      [SwapStore] of it that paging relies on), Uvm (the other operations of vm.c).  Replacement states
      as a class what paging relies on of a scheme; Queues proves it for the linked queues.  PteBits,
      Uvmrun, PagingInv, PageFault, Grow hold the invariant and the proofs; FlatStore and Demo are
      instances; PagingThms has the theorems.
    - Processes: Spinlock (spinlock.c), Resume, Proc (proc.c), with Aging (what the scheduler
      does to the pages of a process), ProcTable, ProcThms and Wakeup (sleep and wakeup interleaved on
      several processors); Syscall
      (syscall.c, sysproc.c), Trap (trap.c) with TrapThms, Exec (exec.c, elf.h).
    - Disk and files: Bio (bio.c, sleeplock.c, memide.c) with BioSpec, Block, Log (log.c) with LogSpec
      and LogThms, Fs (fs.c) with Tx, FsInv, FsSpec and Namei, File (file.c) with FileSpec, Sysfile
      (sysfile.c), FileStore and SwapCopy; Ide (ide.c) with IdeThms.
    - Pipes and the console: Ring, Pipe (pipe.c), Kbd (kbd.c, kbd.h), Console (console.c) with
      ConsoleThms.
    - Hardware and start-up: Mp (mp.c, mp.h), Boot (bootmain.c) with BootThms, Devices (lapic.c,
      ioapic.c, picirq.c, uart.c, date.h) with DeviceThms.
    - The builder of the disk image: Mkfs (mkfs.c) with MkfsSpec, MkfsInv, MkfsThms and MkfsBoot.
    - User programs: Ulib (ulib.c), Printf (printf.c), Umalloc (umalloc.c) with UmallocThms, Grep
      (grep.c), User, Shell (sh.c) with ShellThms, ShellPrint and ShellRun, Programs (cat, echo, wc,
      ls, ln, rm, mkdir, kill, init, zombie) with ProgramsThms.

    ** What the theorems show

    - Paging is transparent: serving a page fault and growing a process keep the contents of all of
      its pages, under every scheme (getPageFromFile_transparent, trap_serves_page_fault,
      allocuvm_grows); the schemes evict the page that their rule says (scfifo_second_chance,
      aq_evicts_oldest_user, nfu_evicts_least, lapa_evicts_least); the file system of the kernel
      fulfils what paging assumes of swap files (real_files_implement_swap).
    - Allocation: frames are given out once (kalloc_exclusive), mappages maps its range
      (mappages_correct), malloc and free keep the heap (malloc_fresh, free_gives_back).
    - Processes: mutual exclusion of spin locks under all interleavings, no lost wake-up when sleep and
      wakeup of several processors interleave (sleep_wakeup), a scheduler that is fair under every
      replacement scheme, fresh processes, exit and wait.
    - Storage: commit is atomic under crashes, the log has space, the cache refines the disk, the IDE
      driver refines the disk in memory as long as the drive reports no error and marks valid a buffer
      that it could not read when it does, path names resolve, and the kernel reads what mkfs wrote.
    - Input and output: pipes deliver, the line discipline, the screen; the boot loader loads the
      kernel from a drive whose reads succeed, mpinit finds the processors, cmostime reads the clock.
    - User programs: the matcher of grep against the meaning of patterns, the parser of the shell
      (termination without a read outside of the buffer, round trip with a printer), the processes that
      runcmd starts, with their files and in their order, under all interleavings (runcmd_wires), and
      what wc, ls, cat and echo print.
    - Errors that the code makes: fetchint_swapped_panics, three_operations_overflow_log,
      copySwapFile_hole_panics and mpinit_unknown_entry_spins state them of the code as it is, and
      so do the lemmas kalloc_fail_miscounts, grep_loses_partial_line, failed_read_is_valid and
      malloc_size_overflows.

    ** Fuel and bounds

    The constants of the source are kept (16 resident pages of 32, 64 processes, 30 buffers, 1000
    blocks and so on).  A loop over a range takes the number of its rounds as fuel (pages of an
    address range, entries of a table); the parser of the shell takes four rounds for each character,
    which parsecmd_terminates shows to be enough.  Loops whose rounds depend on others (waiting for a
    drive, a pipe or a key) take their fuel as an argument: the theorems say how much is enough, and
    that the code then returns.

    ** Not modelled

    - main.c calls the initialisations of the other components in turn and starts the other
      processors, which run machine code that it copies for them; assembly and the linker
      script are outside of C.  What the C code relies on of swtch and of the trap entry is in
      Resume.v and in the trap frame.
    - usertests.c and the other test programs have no behaviour of their own to specify.
    - Descriptor loads (lgdt, lidt, ltr), which change no state of the model.
    - Except for spin locks, sleep and wakeup, the IDE driver, the processes of the shell and the points
      at which processes switch, operations run one after the other: taking a sleep lock that is held ends the run. *)
From Stdlib Require Import ZArith Lia Zify ZifyClasses ZifyInst.
From stdpp Require Import base list numbers strings gmap.
Local Open Scope Z_scope.

(** ** Outcomes of kernel code *)

(** What a piece of kernel code does when it is run from a state: it returns, it
    calls [panic(msg)], it dereferences a pointer outside the objects that are
    modelled, or a loop exceeds the fuel of its definition. *)
Inductive out (S A : Type) : Type :=
| Ret (a : A) (s : S)
| Panic (msg : string) (s : S)
| Fault (s : S)
| NoFuel (s : S).
Arguments Ret {S A} a s.
Arguments Panic {S A} msg s.
Arguments Fault {S A} s.
Arguments NoFuel {S A} s.

Definition M (S A : Type) : Type := S -> out S A.

Definition ret {S A} (a : A) : M S A := fun s => Ret a s.
Definition bind {S A B} (m : M S A) (k : A -> M S B) : M S B := fun s =>
  match m s with
  | Ret a s' => k a s'
  | Panic e s' => Panic e s'
  | Fault s' => Fault s'
  | NoFuel s' => NoFuel s'
  end.
Definition panic {S A} (msg : string) : M S A := fun s => Panic msg s.
Definition fault {S A} : M S A := fun s => Fault s.
Definition nofuel {S A} : M S A := fun s => NoFuel s.
Definition gets {S A} (f : S -> A) : M S A := fun s => Ret (f s) s.
Definition modify {S} (f : S -> S) : M S unit := fun s => Ret tt (f s).
Definition skip {S} : M S unit := ret tt.
Definition when {S} (b : bool) (m : M S unit) : M S unit := if b then m else skip.

Lemma bind_assoc {S A B C} (m : M S A) (f : A -> M S B) (g : B -> M S C) s : bind (bind m f) g s = bind m (fun a => bind (f a) g) s.
Proof. unfold bind. by destruct (m s). Qed.

Declare Scope kernel_scope.
Delimit Scope kernel_scope with kernel.
Notation "'let!' x ':=' m 'in' k" := (bind m (fun x => k))
  (at level 10, x pattern, m at level 100, k at level 200) : kernel_scope.
Notation "m ;;; k" := (bind m (fun _ => k))
  (at level 110, k at level 200, right associativity) : kernel_scope.
Open Scope kernel_scope.

(** [while]-style loop: the body yields the next loop state or the value with
    which the loop is left. *)
Fixpoint loop {S A R} (fuel : nat) (body : A -> M S (A + R)) (a : A) : M S R :=
  match fuel with
  | O => nofuel
  | S n => let! r := body a in
           match r with
           | inl a' => loop n body a'
           | inr v => ret v
           end
  end.

(** [for(i = i0; i < i0+n; i++)] with an optional early exit: [Some r] leaves the
    loop with [r], [None] goes on; the loop yields [None] when it runs to its end. *)
Fixpoint for_range {S R} (n : nat) (i : nat) (body : nat -> M S (option R)) : M S (option R) :=
  match n with
  | O => ret None
  | S n' => let! r := body i in
            match r with
            | Some v => ret (Some v)
            | None => for_range n' (i + 1) body
            end
  end.

(** The same loop without an exit. *)
Fixpoint for_each {S} (n : nat) (i : nat) (body : nat -> M S unit) : M S unit :=
  match n with
  | O => skip
  | S n' => body i ;;; for_each n' (i + 1) body
  end.

(** Running a component's code inside a bigger state. *)
Definition lift {S T A} (get : T -> S) (put : S -> T -> T) (m : M S A) : M T A := fun t =>
  match m (get t) with
  | Ret a s => Ret a (put s t)
  | Panic e s => Panic e (put s t)
  | Fault s => Fault (put s t)
  | NoFuel s => NoFuel (put s t)
  end.

(** ** Total-correctness judgement *)

(** [wp m Q s]: run from [s], [m] returns (no panic, no fault, enough fuel) and the
    result and final state satisfy [Q]. *)
Definition wp {S A} (m : M S A) (Q : A -> S -> Prop) (s : S) : Prop :=
  match m s with Ret a s' => Q a s' | _ => False end.

Section wp.
Context {S : Type}.

Lemma wp_ret {A} (a : A) (Q : A -> S -> Prop) s : Q a s -> wp (ret a) Q s.
Proof. done. Qed.

Lemma wp_bind {A B} (m : M S A) (k : A -> M S B) Q s :
  wp m (fun a s' => wp (k a) Q s') s -> wp (bind m k) Q s.
Proof. unfold wp, bind. by destruct (m s). Qed.

Lemma wp_bind_inv {A B} (m : M S A) (k : A -> M S B) Q s :
  wp (bind m k) Q s -> wp m (fun a s' => wp (k a) Q s') s.
Proof. unfold wp, bind. by destruct (m s). Qed.

Lemma wp_mono {A} (m : M S A) (P Q : A -> S -> Prop) s :
  wp m P s -> (forall a s', P a s' -> Q a s') -> wp m Q s.
Proof. unfold wp. destruct (m s); auto. Qed.

Lemma wp_gets {A} (f : S -> A) (Q : A -> S -> Prop) s : Q (f s) s -> wp (gets f) Q s.
Proof. done. Qed.

Lemma wp_modify (f : S -> S) (Q : unit -> S -> Prop) s : Q tt (f s) -> wp (modify f) Q s.
Proof. done. Qed.

Lemma wp_skip (Q : unit -> S -> Prop) s : Q tt s -> wp skip Q s.
Proof. done. Qed.

Lemma wp_if {A} (b : bool) (m1 m2 : M S A) Q s :
  (b = true -> wp m1 Q s) -> (b = false -> wp m2 Q s) -> wp (if b then m1 else m2) Q s.
Proof. destruct b; auto. Qed.

Lemma wp_when (b : bool) (m : M S unit) Q s :
  (b = true -> wp m Q s) -> (b = false -> Q tt s) -> wp (when b m) Q s.
Proof. destruct b; [auto|]. intros _ H. by apply wp_skip, H. Qed.

Lemma wp_elim {A} (m : M S A) Q s :
  wp m Q s -> exists a s', m s = Ret a s' /\ Q a s'.
Proof. unfold wp. destruct (m s); naive_solver. Qed.

Lemma wp_intro {A} (m : M S A) (Q : A -> S -> Prop) s a s' :
  m s = Ret a s' -> Q a s' -> wp m Q s.
Proof. unfold wp. by intros ->. Qed.

(** Loops: [I n a s] says that [n] more iterations are enough. *)
Lemma wp_loop {A R} (I : nat -> A -> S -> Prop) (body : A -> M S (A + R)) Q :
  (forall n a s, I n a s ->
     wp (body a) (fun r s' => match r with
       | inl a' => exists n', (n' < n)%nat /\ I n' a' s'
       | inr v => Q v s' end) s) ->
  forall fuel n a s, (n < fuel)%nat -> I n a s -> wp (loop fuel body a) Q s.
Proof.
  intros Hbody fuel. induction fuel as [|fuel IH]; intros n a s Hlt HI; [lia|].
  simpl. apply wp_bind. eapply wp_mono; [by apply Hbody|].
  intros [a'|v] s'; simpl.
  - intros (n' & ? & HI'). eapply IH; [|exact HI']. lia.
  - intros. by apply wp_ret.
Qed.

Lemma wp_for_range {R} (I : nat -> S -> Prop) (body : nat -> M S (option R)) Q n i0 s :
  I i0 s ->
  (forall i s, (i0 <= i < i0 + n)%nat -> I i s ->
     wp (body i) (fun r s' => match r with
       | Some v => Q (Some v) s'
       | None => I (i + 1)%nat s' end) s) ->
  (forall s, I (i0 + n)%nat s -> Q None s) ->
  wp (for_range n i0 body) Q s.
Proof.
  revert i0 s. induction n as [|n IH]; intros i0 s HI Hbody Hend; simpl.
  - apply wp_ret, Hend. by rewrite Nat.add_0_r.
  - apply wp_bind. eapply wp_mono; [apply (Hbody i0); [lia|done]|].
    intros [v|] s'; simpl; [intros; by apply wp_ret|].
    intros HI'. apply IH; [done| |].
    + intros i s'' Hi. apply Hbody. lia.
    + intros s'' Hs. apply Hend. by replace (i0 + Datatypes.S n)%nat with (i0 + 1 + n)%nat by lia.
Qed.

Lemma wp_for_each (I : nat -> S -> Prop) (body : nat -> M S unit) Q n i0 s :
  I i0 s ->
  (forall i s, (i0 <= i < i0 + n)%nat -> I i s -> wp (body i) (fun _ s' => I (i + 1)%nat s') s) ->
  (forall s, I (i0 + n)%nat s -> Q tt s) ->
  wp (for_each n i0 body) Q s.
Proof.
  revert i0 s. induction n as [|n IH]; intros i0 s HI Hbody Hend; simpl.
  - apply wp_skip, Hend. by rewrite Nat.add_0_r.
  - apply wp_bind. eapply wp_mono; [apply (Hbody i0); [lia|done]|].
    intros [] s' HI'. apply IH; [done| |].
    + intros i s'' Hi. apply Hbody. lia.
    + intros s'' Hs. apply Hend. by replace (i0 + Datatypes.S n)%nat with (i0 + 1 + n)%nat by lia.
Qed.

End wp.

Lemma wp_assoc {S A B C} (m : M S A) (f : A -> M S B) (g : B -> M S C) Q s :
  wp (bind (bind m f) g) Q s -> wp (bind m (fun a => bind (f a) g)) Q s.
Proof. unfold wp. by rewrite bind_assoc. Qed.

Lemma wp_lift {S T A} (get : T -> S) (put : S -> T -> T) (m : M S A) Q t :
  wp m (fun a s => Q a (put s t)) (get t) -> wp (lift get put m) Q t.
Proof. unfold wp, lift. by destruct (m (get t)). Qed.

(** A search that finds its element at [j] and changes nothing. *)
Lemma for_range_find {S R} n i0 (body : nat -> M S (option R)) s j r :
  (i0 <= j < i0 + n)%nat -> (forall i, (i0 <= i < j)%nat -> body i s = Ret None s) -> body j s = Ret (Some r) s ->
  for_range n i0 body s = Ret (Some r) s.
Proof.
  revert i0. induction n as [|n IH]; intros i0 Hj Hlow Hb; [lia|]. cbn [for_range]. unfold bind.
  destruct (decide (j = i0)) as [->|].
  - by rewrite Hb.
  - rewrite Hlow by lia. apply IH; [lia| |done]. intros i Hi. apply Hlow. lia.
Qed.

Lemma for_range_none {S R} n i0 (body : nat -> M S (option R)) s :
  (forall i, (i0 <= i < i0 + n)%nat -> body i s = Ret None s) -> for_range n i0 body s = Ret None s.
Proof.
  revert i0. induction n as [|n IH]; intros i0 Hb; [done|]. cbn [for_range]. unfold bind.
  rewrite Hb by lia. apply IH. intros i Hi. apply Hb. lia.
Qed.

(** Symbolic execution of straight-line code: one monadic operation at a time. *)
Ltac wp_step :=
  lazymatch goal with
  | |- wp (bind _ _) _ _ => apply wp_bind
  | |- wp (ret _) _ _ => apply wp_ret
  | |- wp (gets _) _ _ => apply wp_gets
  | |- wp (modify _) _ _ => apply wp_modify
  | |- wp skip _ _ => apply wp_skip
  | |- wp (when _ _) _ _ => apply wp_when; intro
  | |- wp (if _ then _ else _) _ _ => apply wp_if; intro
  end.
Ltac wp_run := repeat (wp_step; simpl).

(** Case analysis on the integer comparisons of the goal. *)
Ltac zcase :=
  repeat match goal with
  | |- context [?a <=? ?b] => destruct (Z.leb_spec a b)
  | |- context [?a <? ?b] => destruct (Z.ltb_spec a b)
  | |- context [?a =? ?b] => destruct (Z.eqb_spec a b)
  end; simpl; try done; try lia.

(** ** 32-bit arithmetic *)

Definition u32 (x : Z) : Z := x mod 2 ^ 32.
Definition i32 (x : Z) : Z := let y := u32 x in if y <? 2 ^ 31 then y else y - 2 ^ 32.

Lemma u32_small x : 0 <= x < 2 ^ 32 -> u32 x = x.
Proof. intros. by apply Z.mod_small. Qed.

Lemma u32_range x : 0 <= u32 x < 2 ^ 32.
Proof. apply Z.mod_pos_bound. lia. Qed.

Lemma u32_idemp x : u32 (u32 x) = u32 x.
Proof. apply u32_small, u32_range. Qed.

Lemma i32_range x : - 2 ^ 31 <= i32 x < 2 ^ 31.
Proof. unfold i32. pose proof (u32_range x). destruct (Z.ltb_spec (u32 x) (2 ^ 31)); lia. Qed.

Lemma i32_small x : - 2 ^ 31 <= x < 2 ^ 31 -> i32 x = x.
Proof.
  intros H. unfold i32. destruct (Z_lt_le_dec x 0).
  - replace (u32 x) with (x + 2 ^ 32).
    + destruct (Z.ltb_spec (x + 2 ^ 32) (2 ^ 31)); lia.
    + unfold u32. symmetry. rewrite <- (Z_mod_plus_full x 1). apply Z.mod_small. lia.
  - rewrite u32_small by lia. destruct (Z.ltb_spec x (2 ^ 31)); lia.
Qed.

Lemma u32_i32 x : u32 (i32 x) = u32 x.
Proof.
  unfold i32. destruct (u32 x <? 2 ^ 31); [apply u32_idemp|].
  unfold u32. rewrite <- (Z_mod_plus_full (x mod 2 ^ 32 - 2 ^ 32) 1). replace (x mod 2 ^ 32 - 2 ^ 32 + 1 * 2 ^ 32) with (x mod 2 ^ 32) by lia.
  by rewrite Zmod_mod.
Qed.

(** The size of a page as a length; [lia] knows its value, [simpl] does not unfold it. *)
Definition pgn : nat := Z.to_nat 4096.
#[global] Arguments pgn : simpl never.
Lemma pgn_Z : Z.of_nat pgn = 4096.
Proof. unfold pgn. by rewrite Z2Nat.id. Qed.
#[global] Instance Op_pgn : @CstOp nat Z pgn Inj_nat_Z := mkcst nat Z pgn Inj_nat_Z 4096 pgn_Z.
Add Zify CstOp Op_pgn.

(** ** Bits *)

(** [x & f] is non-zero, for the single-bit masks [f] of mmu.h. *)
Definition has (x f : Z) : bool := negb (Z.land x f =? 0).

Lemma has_testbit x k : 0 <= k -> has x (2 ^ k) = Z.testbit x k.
Proof.
  intros Hk. unfold has. destruct (Z.testbit x k) eqn:E.
  - apply negb_true_iff, Z.eqb_neq. intros H0.
    assert (Z.testbit (Z.land x (2 ^ k)) k = true) as Ht.
    { by rewrite Z.land_spec, E, Z.pow2_bits_true. }
    by rewrite H0, Z.bits_0 in Ht.
  - apply negb_false_iff, Z.eqb_eq. apply Z.bits_inj'. intros n Hn.
    rewrite Z.land_spec, Z.bits_0.
    destruct (Z.eq_dec k n) as [->|]; [by rewrite E|].
    rewrite Z.pow2_bits_false by lia. apply andb_false_r.
Qed.

Lemma testbit_high x n k : 0 <= x < 2 ^ n -> 0 <= n <= k -> Z.testbit x k = false.
Proof.
  intros Hx Hn. rewrite <- (Z.mod_small x (2 ^ n)) by done. apply Z.mod_pow2_bits_high. lia.
Qed.

Lemma land_ones_mod x n : 0 <= n -> Z.land x (Z.ones n) = x mod 2 ^ n.
Proof. apply Z.land_ones. Qed.

(** Clearing the low [n] bits. *)
Lemma ldiff_ones x n : 0 <= n -> Z.ldiff x (Z.ones n) = x / 2 ^ n * 2 ^ n.
Proof. intros. by rewrite Z.ldiff_ones_r, Z.shiftl_mul_pow2, Z.shiftr_div_pow2. Qed.

(** Masking with the 32-bit complement of [2^n-1] is clearing the low bits. *)
Lemma land_himask x n :
  0 <= n <= 32 -> 0 <= x < 2 ^ 32 -> Z.land x (2 ^ 32 - 2 ^ n) = x / 2 ^ n * 2 ^ n.
Proof.
  intros Hn Hx. rewrite <- ldiff_ones by lia. apply Z.bits_inj'. intros k Hk.
  rewrite Z.land_spec, Z.ldiff_spec.
  replace (2 ^ 32 - 2 ^ n) with ((2 ^ (32 - n) - 1) * 2 ^ n)
    by (rewrite Z.mul_sub_distr_r, <- Z.pow_add_r by lia; f_equal; [f_equal; lia|lia]).
  rewrite <- Z.shiftl_mul_pow2, Z.shiftl_spec by lia.
  replace (2 ^ (32 - n) - 1) with (Z.ones (32 - n)) by (rewrite Z.ones_equiv; lia).
  destruct (Z_lt_le_dec k n).
  - rewrite (Z.testbit_neg_r _ (k - n)) by lia. rewrite Z.ones_spec_low by lia.
    simpl. by rewrite !andb_false_r.
  - rewrite (Z.ones_spec_high n k) by lia. simpl. rewrite andb_true_r.
    destruct (Z_lt_le_dec k 32).
    + rewrite Z.ones_spec_low by lia. by rewrite andb_true_r.
    + rewrite (testbit_high x 32) by lia. done.
Qed.

(** A number below [2^n] and a multiple of [2^n] have no common bits. *)
Lemma lor_disjoint_add a b n : 0 <= n -> a mod 2 ^ n = 0 -> 0 <= b < 2 ^ n -> Z.lor a b = a + b.
Proof.
  intros Hn Ha Hb. pose proof (Z.add_lor_land a b).
  assert (Z.land a b = 0) as H0; [|lia].
  apply Z.bits_inj'. intros k Hk. rewrite Z.land_spec, Z.bits_0.
  destruct (Z_lt_le_dec k n).
  - assert (Z.testbit a k = false) as ->; [|done].
    rewrite <- (Z.mod_pow2_bits_low a n) by lia. by rewrite Ha, Z.bits_0.
  - rewrite (testbit_high b n k) by lia. apply andb_false_r.
Qed.

Lemma testbit_mod_pow2_mult a n k :
  0 <= k < n -> a mod 2 ^ n = 0 -> Z.testbit a k = false.
Proof. intros Hk Ha. rewrite <- (Z.mod_pow2_bits_low a n) by lia. by rewrite Ha, Z.bits_0. Qed.

(** 32-bit words are closed under the bit operations. *)
Lemma word_range x n : 0 <= n -> (forall k, n <= k -> Z.testbit x k = false) -> 0 <= x < 2 ^ n.
Proof.
  intros Hn H. assert (x = x mod 2 ^ n) as ->; [|by apply Z.mod_pos_bound; lia].
  apply Z.bits_inj'. intros k Hk. destruct (Z_lt_le_dec k n).
  - by rewrite Z.mod_pow2_bits_low by lia.
  - rewrite Z.mod_pow2_bits_high by lia. by apply H.
Qed.

Lemma land_word e f : 0 <= e < 2 ^ 32 -> 0 <= Z.land e f < 2 ^ 32.
Proof.
  intros He. apply word_range; [lia|]. intros k Hk. rewrite Z.land_spec.
  by rewrite (testbit_high e 32) by lia.
Qed.

Lemma lor_word e f : 0 <= e < 2 ^ 32 -> 0 <= f < 2 ^ 32 -> 0 <= Z.lor e f < 2 ^ 32.
Proof.
  intros He Hf. apply word_range; [lia|]. intros k Hk. rewrite Z.lor_spec.
  by rewrite (testbit_high e 32), (testbit_high f 32) by lia.
Qed.

(** Ranges of 32-bit words: operations on words give words, and constants are unfolded. *)
Create HintDb word.
#[export] Hint Resolve u32_range i32_range land_word lor_word : word.
#[export] Hint Extern 3 (_ <= ?c < _) => (is_const c; unfold c; lia) : word.
#[export] Hint Rewrite u32_idemp u32_i32 : word.
Ltac in_word := solve [auto 8 with word].
