(* ===== verification/Mmu.v ===== *)
(** * The x86 MMU interface: constants and address arithmetic

    Models src/mmu.h and src/memlayout.h: page-table index and rounding macros,
    page-table-entry flags, the kernel's direct map, segment and gate descriptors.
    A [uint] is a [Z] in [0, 2^32); every operation that can leave the range wraps
    with [u32]. *)
From Stdlib Require Import ZArith Lia.
From stdpp Require Import base list numbers.
From S2P Require Import Prelude.
Local Open Scope Z_scope.

(** ** memlayout.h *)

Definition EXTMEM : Z := 0x100000.
Definition PHYSTOP : Z := 0xE000000.
Definition DEVSPACE : Z := 0xFE000000.
Definition KERNBASE : Z := 0x80000000.
Definition KERNLINK : Z := KERNBASE + EXTMEM.

Definition V2P (a : Z) : Z := u32 (u32 a - KERNBASE).
Definition P2V (a : Z) : Z := u32 (a + KERNBASE).
(** [V2P_WO]/[P2V_WO]: the same without casts; on [uint] operands they coincide. *)
Definition V2P_WO (x : Z) : Z := u32 (x - KERNBASE).
Definition P2V_WO (x : Z) : Z := u32 (x + KERNBASE).

(** ** mmu.h: page directory and page table *)

Definition FL_IF : Z := 0x200.

Definition NPDENTRIES : Z := 1024.
Definition NPTENTRIES : Z := 1024.
Definition PGSIZE : Z := 4096.
Definition PTXSHIFT : Z := 12.
Definition PDXSHIFT : Z := 22.

Definition PDX (va : Z) : Z := Z.land (Z.shiftr (u32 va) PDXSHIFT) 0x3FF.
Definition PTX (va : Z) : Z := Z.land (Z.shiftr (u32 va) PTXSHIFT) 0x3FF.
Definition PGADDR (d t o : Z) : Z :=
  u32 (Z.lor (Z.lor (Z.shiftl d PDXSHIFT) (Z.shiftl t PTXSHIFT)) o).

Definition PGROUNDUP (sz : Z) : Z := Z.land (u32 (sz + PGSIZE - 1)) (u32 (Z.lnot (PGSIZE - 1))).
Definition PGROUNDDOWN (a : Z) : Z := Z.land (u32 a) (u32 (Z.lnot (PGSIZE - 1))).

Definition PTE_P : Z := 0x001.
Definition PTE_W : Z := 0x002.
Definition PTE_U : Z := 0x004.
Definition PTE_A : Z := 0x020.
Definition PTE_D : Z := 0x040.
Definition PTE_PS : Z := 0x080.
Definition PTE_PG : Z := 0x200.

Definition PTE_ADDR (pte : Z) : Z := Z.land (u32 pte) (u32 (Z.lnot 0xFFF)).
Definition PTE_FLAGS (pte : Z) : Z := Z.land (u32 pte) 0xFFF.

(** ** mmu.h: segment descriptors, task state, gates *)

Definition SEG_KCODE : Z := 1.
Definition SEG_KDATA : Z := 2.
Definition SEG_UCODE : Z := 3.
Definition SEG_UDATA : Z := 4.
Definition SEG_TSS : Z := 5.
Definition NSEGS : Z := 6.
Definition DPL_USER : Z := 3.
Definition STA_X : Z := 0x8.
Definition STA_W : Z := 0x2.
Definition STA_R : Z := 0x2.
Definition STS_T32A : Z := 0x9.
Definition STS_IG32 : Z := 0xE.
Definition STS_TG32 : Z := 0xF.

Record segdesc := mkSegdesc {
  lim_15_0 : Z; base_15_0 : Z; base_23_16 : Z; sd_type : Z; sd_s : Z; sd_dpl : Z;
  sd_p : Z; lim_19_16 : Z; sd_avl : Z; sd_rsv1 : Z; sd_db : Z; sd_g : Z; base_31_24 : Z }.

Definition SEG (type base lim dpl : Z) : segdesc :=
  mkSegdesc (Z.land (Z.shiftr lim 12) 0xffff) (Z.land (u32 base) 0xffff)
    (Z.land (Z.shiftr (u32 base) 16) 0xff) type 1 dpl 1
    (Z.land (Z.shiftr (u32 lim) 28) 0xf) 0 0 1 1 (Z.land (Z.shiftr (u32 base) 24) 0xff).

Definition SEG16 (type base lim dpl : Z) : segdesc :=
  mkSegdesc (Z.land lim 0xffff) (Z.land (u32 base) 0xffff)
    (Z.land (Z.shiftr (u32 base) 16) 0xff) type 1 dpl 1
    (Z.land (Z.shiftr (u32 lim) 16) 0xf) 0 0 1 0 (Z.land (Z.shiftr (u32 base) 24) 0xff).

Record gatedesc := mkGatedesc {
  off_15_0 : Z; gd_cs : Z; gd_args : Z; gd_rsv1 : Z; gd_type : Z; gd_s : Z; gd_dpl : Z;
  gd_p : Z; off_31_16 : Z }.

Definition SETGATE (istrap : bool) (sel off d : Z) : gatedesc :=
  mkGatedesc (Z.land (u32 off) 0xffff) sel 0 0 (if istrap then STS_TG32 else STS_IG32) 0 d 1
    (Z.shiftr (u32 off) 16).

(** The address the CPU reassembles from a descriptor. *)
Definition gate_offset (g : gatedesc) : Z := Z.lor (off_15_0 g) (Z.shiftl (off_31_16 g) 16).
Definition seg_base (d : segdesc) : Z :=
  Z.lor (base_15_0 d) (Z.lor (Z.shiftl (base_23_16 d) 16) (Z.shiftl (base_31_24 d) 24)).
Definition seg_limit (d : segdesc) : Z :=
  let lim := Z.lor (lim_15_0 d) (Z.shiftl (lim_19_16 d) 16) in
  if sd_g d =? 1 then lim * 4096 + 4095 else lim.

(** ** Arithmetic characterisations *)

Lemma PDX_div va : 0 <= va < 2 ^ 32 -> PDX va = va / 2 ^ 22.
Proof.
  intros H. unfold PDX, PDXSHIFT. rewrite u32_small, Z.shiftr_div_pow2 by lia.
  change 0x3FF with (Z.ones 10). rewrite Z.land_ones by lia.
  apply Z.mod_small. split; [apply Z.div_pos; lia|]. apply Z.div_lt_upper_bound; lia.
Qed.

Lemma PTX_div va : 0 <= va < 2 ^ 32 -> PTX va = (va / 2 ^ 12) mod 2 ^ 10.
Proof.
  intros H. unfold PTX, PTXSHIFT. rewrite u32_small, Z.shiftr_div_pow2 by lia.
  change 0x3FF with (Z.ones 10). by rewrite Z.land_ones by lia.
Qed.

Lemma PDX_range va : 0 <= PDX va < 1024.
Proof.
  unfold PDX. change 0x3FF with (Z.ones 10). rewrite Z.land_ones by lia.
  apply Z.mod_pos_bound. lia.
Qed.

Lemma PTX_range va : 0 <= PTX va < 1024.
Proof.
  unfold PTX. change 0x3FF with (Z.ones 10). rewrite Z.land_ones by lia.
  apply Z.mod_pos_bound. lia.
Qed.

Lemma PGROUNDDOWN_div a : 0 <= a < 2 ^ 32 -> PGROUNDDOWN a = a / 4096 * 4096.
Proof.
  intros H. unfold PGROUNDDOWN. rewrite u32_small by done.
  change (u32 (Z.lnot (PGSIZE - 1))) with (2 ^ 32 - 2 ^ 12).
  by rewrite land_himask by lia.
Qed.

Lemma PGROUNDUP_div a : 0 <= a -> a + 4095 < 2 ^ 32 -> PGROUNDUP a = (a + 4095) / 4096 * 4096.
Proof.
  intros H H'. unfold PGROUNDUP. replace (a + PGSIZE - 1) with (a + 4095) by (unfold PGSIZE; lia).
  rewrite u32_small by lia.
  change (u32 (Z.lnot (PGSIZE - 1))) with (2 ^ 32 - 2 ^ 12).
  by rewrite land_himask by lia.
Qed.

Lemma PTE_ADDR_div x : 0 <= x < 2 ^ 32 -> PTE_ADDR x = x / 4096 * 4096.
Proof. intros H. rewrite <- PGROUNDDOWN_div by done. done. Qed.

Lemma PTE_FLAGS_mod x : 0 <= x < 2 ^ 32 -> PTE_FLAGS x = x mod 4096.
Proof.
  intros. unfold PTE_FLAGS. rewrite u32_small by done. change 0xFFF with (Z.ones 12).
  by rewrite Z.land_ones by lia.
Qed.

Lemma V2P_P2V pa : 0 <= pa < PHYSTOP -> V2P (P2V pa) = pa.
Proof.
  unfold V2P, P2V, PHYSTOP, KERNBASE. intros.
  rewrite (u32_small (pa + _)), (u32_small (pa + _)) by lia. rewrite u32_small; lia.
Qed.

Lemma P2V_V2P v : KERNBASE <= v < 2 ^ 32 -> P2V (V2P v) = v.
Proof.
  unfold V2P, P2V, KERNBASE. intros. rewrite (u32_small v) by lia.
  rewrite (u32_small (v - _)) by lia. rewrite u32_small; lia.
Qed.

(** ** Theorems *)

(** The page-directory index, the page-table index and the page offset of a
    virtual address determine it: [PGADDR] rebuilds every 32-bit address from the
    three parts the MMU splits it into. *)
Theorem PGADDR_split va :
  0 <= va < 2 ^ 32 -> PGADDR (PDX va) (PTX va) (va mod PGSIZE) = va.
Proof.
  intros H. unfold PGADDR, PDXSHIFT, PTXSHIFT, PGSIZE.
  rewrite PDX_div, PTX_div, !Z.shiftl_mul_pow2 by lia.
  rewrite (lor_disjoint_add _ (_ * 2 ^ 12) 22).
  - rewrite (lor_disjoint_add _ _ 12).
    + rewrite u32_small; Z.to_euclidean_division_equations; lia.
    + lia.
    + Z.to_euclidean_division_equations; lia.
    + change (2 ^ 12) with 4096. apply Z.mod_pos_bound; lia.
  - lia.
  - apply Z.mod_mul. lia.
  - change (2 ^ 22) with (2 ^ 10 * 2 ^ 12).
    pose proof (Z.mod_pos_bound (va / 2 ^ 12) (2 ^ 10)). lia.
Qed.
