(* ===== verification/Mem.v ===== *)
(** * Byte memory and string.c

    Memory is a total map from addresses to bytes.  Kernel pointers index it through
    the direct map (KERNBASE + physical address).  Loads reduce modulo 256, so no
    side invariant on the map is needed; 32-bit words are little-endian.  Pointer
    arithmetic is on [Z]: a C pointer never leaves the object it points into, so a
    block never runs past the top of the address space.

    The second half is src/string.c (memset, memcmp, memmove, strncmp, strncpy,
    safestrcpy, strlen) with the x86.h string instructions it uses. *)
From Stdlib Require Import ZArith Lia.
From stdpp Require Import base list numbers.
From S2P Require Import Prelude.
Local Open Scope Z_scope.

Definition mem : Type := Z -> Z.

Definition ld8 (m : mem) (a : Z) : Z := m a mod 256.
Definition st8 (m : mem) (a v : Z) : mem := fun x => if x =? a then v mod 256 else m x.

Definition ld32 (m : mem) (a : Z) : Z :=
  ld8 m a + ld8 m (a + 1) * 2 ^ 8 + ld8 m (a + 2) * 2 ^ 16 + ld8 m (a + 3) * 2 ^ 24.
Definition st32 (m : mem) (a v : Z) : mem :=
  st8 (st8 (st8 (st8 m a v) (a + 1) (v / 2 ^ 8)) (a + 2) (v / 2 ^ 16)) (a + 3) (v / 2 ^ 24).

(** The [n] bytes at [a], and storing a list of bytes at [a]. *)
Fixpoint bytes_at (m : mem) (a : Z) (n : nat) : list Z :=
  match n with
  | O => []
  | S k => ld8 m a :: bytes_at m (a + 1) k
  end.
Fixpoint st_bytes (m : mem) (a : Z) (l : list Z) : mem :=
  match l with
  | [] => m
  | c :: l' => st_bytes (st8 m a c) (a + 1) l'
  end.

(** ** x86.h *)

Fixpoint stosb (m : mem) (addr data : Z) (cnt : nat) : mem :=
  match cnt with
  | O => m
  | S k => stosb (st8 m addr data) (addr + 1) data k
  end.
Fixpoint stosl (m : mem) (addr data : Z) (cnt : nat) : mem :=
  match cnt with
  | O => m
  | S k => stosl (st32 m addr data) (addr + 4) data k
  end.

(** ** string.c *)

Definition memset (m : mem) (dst c n : Z) : mem :=
  if (dst mod 4 =? 0) && (n mod 4 =? 0) then
    let c := Z.land c 0xFF in
    stosl m dst (Z.lor (Z.lor (Z.lor (Z.shiftl c 24) (Z.shiftl c 16)) (Z.shiftl c 8)) c)
      (Z.to_nat (n / 4))
  else stosb m dst c (Z.to_nat n).

Fixpoint memcmp (m : mem) (s1 s2 : Z) (n : nat) : Z :=
  match n with
  | O => 0
  | S k => if negb (ld8 m s1 =? ld8 m s2) then ld8 m s1 - ld8 m s2
           else memcmp m (s1 + 1) (s2 + 1) k
  end.

(** The two copy loops of memmove: [*--d = *--s] and [*d++ = *s++]. *)
Fixpoint copy_down (m : mem) (d s : Z) (n : nat) : mem :=
  match n with
  | O => m
  | S k => copy_down (st8 m (d - 1) (ld8 m (s - 1))) (d - 1) (s - 1) k
  end.
Fixpoint copy_up (m : mem) (d s : Z) (n : nat) : mem :=
  match n with
  | O => m
  | S k => copy_up (st8 m d (ld8 m s)) (d + 1) (s + 1) k
  end.
Definition memmove (m : mem) (dst src n : Z) : mem :=
  if (src <? dst) && (dst <? src + n) then copy_down m (dst + n) (src + n) (Z.to_nat n)
  else copy_up m dst src (Z.to_nat n).
Definition memcpy (m : mem) (dst src n : Z) : mem := memmove m dst src n.

Fixpoint strncmp (m : mem) (p q : Z) (n : nat) : Z :=
  match n with
  | O => 0
  | S k => if negb (ld8 m p =? 0) && (ld8 m p =? ld8 m q) then strncmp m (p + 1) (q + 1) k
           else ld8 m p - ld8 m q
  end.

(** [while(n-- > 0) *s++ = 0;] *)
Fixpoint zero_fill (m : mem) (s : Z) (n : nat) : mem :=
  match n with
  | O => m
  | S k => zero_fill (st8 m s 0) (s + 1) k
  end.
Fixpoint strncpy (m : mem) (s t : Z) (n : nat) : mem :=
  match n with
  | O => m
  | S k => let c := ld8 m t in
           let m := st8 m s c in
           if c =? 0 then zero_fill m (s + 1) k else strncpy m (s + 1) (t + 1) k
  end.

Fixpoint safestrcpy (m : mem) (s t : Z) (n : nat) : mem :=
  match n with
  | O => m
  | S k =>
    match k with
    | O => st8 m s 0
    | S _ => let c := ld8 m t in
             let m := st8 m s c in
             if c =? 0 then st8 m (s + 1) 0 else safestrcpy m (s + 1) (t + 1) k
    end
  end.

(** [strlen] scans an unbounded string; the fuel bounds the scan. *)
Fixpoint strlen (fuel : nat) (m : mem) (s : Z) : option Z :=
  match fuel with
  | O => None
  | S k => if ld8 m s =? 0 then Some 0 else option_map Z.succ (strlen k m (s + 1))
  end.

(** ** Loads and stores *)

Lemma ld8_range m a : 0 <= ld8 m a < 256.
Proof. apply Z.mod_pos_bound. lia. Qed.

Lemma ld8_st8 m a v x : ld8 (st8 m a v) x = if x =? a then v mod 256 else ld8 m x.
Proof. unfold ld8, st8. destruct (x =? a); [|done]. by rewrite Zmod_mod. Qed.

Lemma ld32_range m a : 0 <= ld32 m a < 2 ^ 32.
Proof.
  unfold ld32. pose proof (ld8_range m a). pose proof (ld8_range m (a + 1)).
  pose proof (ld8_range m (a + 2)). pose proof (ld8_range m (a + 3)). lia.
Qed.

Lemma ld8_st32 m a v x :
  ld8 (st32 m a v) x =
    if (a <=? x) && (x <? a + 4) then (v / 2 ^ (8 * (x - a))) mod 256 else ld8 m x.
Proof.
  unfold st32. rewrite !ld8_st8.
  destruct (Z.eqb_spec x (a + 3)) as [->|]; [|destruct (Z.eqb_spec x (a + 2)) as [->|];
    [|destruct (Z.eqb_spec x (a + 1)) as [->|]; [|destruct (Z.eqb_spec x a) as [->|]]]].
  - rewrite (proj2 (Z.leb_le _ _)), (proj2 (Z.ltb_lt _ _)) by lia. simpl.
    do 2 f_equal. f_equal. lia.
  - rewrite (proj2 (Z.leb_le _ _)), (proj2 (Z.ltb_lt _ _)) by lia. simpl.
    do 2 f_equal. f_equal. lia.
  - rewrite (proj2 (Z.leb_le _ _)), (proj2 (Z.ltb_lt _ _)) by lia. simpl.
    do 2 f_equal. f_equal. lia.
  - rewrite (proj2 (Z.leb_le _ _)), (proj2 (Z.ltb_lt _ _)) by lia. simpl.
    rewrite Z.sub_diag, Z.mul_0_r, Z.pow_0_r, Z.div_1_r. done.
  - zcase.
Qed.

Lemma ld32_ext m m' a : (forall x, a <= x < a + 4 -> ld8 m' x = ld8 m x) -> ld32 m' a = ld32 m a.
Proof. intros H. unfold ld32. rewrite !H by lia. done. Qed.

Lemma ld32_st32_eq m a v : ld32 (st32 m a v) a = u32 v.
Proof.
  unfold ld32. rewrite !ld8_st32.
  assert (forall k, 0 <= k < 4 -> (a <=? a + k) && (a + k <? a + 4) = true) as Hin.
  { intros. apply andb_true_iff. rewrite Z.leb_le, Z.ltb_lt. lia. }
  assert ((a <=? a) && (a <? a + 4) = true) as Hin0 by (rewrite <- (Hin 0) by lia; f_equal; f_equal; lia).
  rewrite Hin0, !Hin by lia.
  replace (a - a) with 0 by lia. replace (a + 1 - a) with 1 by lia.
  replace (a + 2 - a) with 2 by lia. replace (a + 3 - a) with 3 by lia.
  change (2 ^ (8 * 0)) with 1. change (2 ^ (8 * 1)) with 256.
  change (2 ^ (8 * 2)) with 65536. change (2 ^ (8 * 3)) with 16777216.
  rewrite Z.div_1_r. unfold u32. change (2 ^ 8) with 256. change (2 ^ 16) with 65536.
  change (2 ^ 24) with 16777216. change (2 ^ 32) with 4294967296.
  Z.to_euclidean_division_equations; lia.
Qed.

(** A word store does not disturb a word that does not overlap it. *)
Lemma ld32_st32_ne m a b v : b + 4 <= a \/ a + 4 <= b -> ld32 (st32 m a v) b = ld32 m b.
Proof.
  intros H. apply ld32_ext. intros x Hx. rewrite ld8_st32.
  zcase.
Qed.

Lemma ld8_st32_out m a v x : x < a \/ a + 4 <= x -> ld8 (st32 m a v) x = ld8 m x.
Proof.
  intros. rewrite ld8_st32.
  zcase.
Qed.

Lemma length_bytes_at m a n : length (bytes_at m a n) = n.
Proof. revert a. induction n as [|n IH]; intros a; simpl; [done|]. by rewrite IH. Qed.

Lemma bytes_at_ext m m' a n :
  (forall x, a <= x < a + Z.of_nat n -> ld8 m' x = ld8 m x) -> bytes_at m' a n = bytes_at m a n.
Proof.
  revert a. induction n as [|n IH]; intros a H; simpl; [done|].
  rewrite H by lia. f_equal. apply IH. intros. apply H. lia.
Qed.

Lemma lookup_bytes_at m a n i : (i < n)%nat -> bytes_at m a n !! i = Some (ld8 m (a + Z.of_nat i)).
Proof.
  revert a i. induction n as [|n IH]; intros a [|i] H; simpl; try lia.
  - by rewrite Z.add_0_r.
  - rewrite IH by lia. do 2 f_equal. lia.
Qed.

Lemma bytes_at_range m a n : Forall (fun c => 0 <= c < 256) (bytes_at m a n).
Proof.
  revert a. induction n as [|n IH]; intros a; simpl; constructor; [apply ld8_range|apply IH].
Qed.

Lemma ld8_st_bytes_out m a l x : x < a \/ a + Z.of_nat (length l) <= x ->
  ld8 (st_bytes m a l) x = ld8 m x.
Proof.
  revert m a. induction l as [|c l IH]; intros m a H; simpl in *; [done|].
  rewrite IH by lia. rewrite ld8_st8. destruct (Z.eqb_spec x a); [lia|done].
Qed.

Lemma bytes_at_st_bytes m a l :
  Forall (fun c => 0 <= c < 256) l -> bytes_at (st_bytes m a l) a (length l) = l.
Proof.
  revert m a. induction l as [|c l IH]; intros m a H; simpl; [done|].
  inversion_clear H. f_equal; [|by apply IH].
  rewrite ld8_st_bytes_out by lia. rewrite ld8_st8, Z.eqb_refl. by apply Z.mod_small.
Qed.

(** ** string.c: what the routines compute *)

Lemma ld8_stosb m a c n x :
  ld8 (stosb m a c n) x =
    if (a <=? x) && (x <? a + Z.of_nat n) then c mod 256 else ld8 m x.
Proof.
  revert m a. induction n as [|n IH]; intros m a; cbn [stosb].
  - zcase.
  - rewrite IH, ld8_st8. zcase.
Qed.

Lemma zero_fill_stosb m s n : zero_fill m s n = stosb m s 0 n.
Proof. revert m s. induction n as [|n IH]; intros m s; simpl; [done|]. apply IH. Qed.

(** The word that memset stores repeats its byte four times. *)
Lemma memset_word c k : 0 <= k < 4 ->
  let c' := Z.land c 0xFF in
  (Z.lor (Z.lor (Z.lor (Z.shiftl c' 24) (Z.shiftl c' 16)) (Z.shiftl c' 8)) c' / 2 ^ (8 * k)) mod 256
  = c mod 256.
Proof.
  intros Hk c'. assert (0 <= c' < 2 ^ 8 /\ c' = c mod 256) as [Hc Hc'].
  { unfold c'. change 0xFF with (Z.ones 8). rewrite Z.land_ones by lia.
    split; [apply Z.mod_pos_bound; lia|done]. }
  rewrite <- Hc'. clearbody c'. clear Hc'. rewrite !Z.shiftl_mul_pow2 by lia.
  rewrite (lor_disjoint_add _ (c' * 2 ^ 16) 24) by (try apply Z.mod_mul; lia).
  rewrite (lor_disjoint_add _ (c' * 2 ^ 8) 16); [|lia| |lia].
  2:{ replace (c' * 2 ^ 24 + c' * 2 ^ 16) with ((c' * 2 ^ 8 + c') * 2 ^ 16) by lia.
      apply Z.mod_mul. lia. }
  rewrite (lor_disjoint_add _ c' 8); [|lia| |lia].
  2:{ replace (c' * 2 ^ 24 + c' * 2 ^ 16 + c' * 2 ^ 8)
        with ((c' * 2 ^ 16 + c' * 2 ^ 8 + c') * 2 ^ 8) by lia. apply Z.mod_mul. lia. }
  assert (k = 0 \/ k = 1 \/ k = 2 \/ k = 3) as [-> | [-> | [-> | ->]]] by lia;
    [change (2 ^ (8 * 0)) with 1 | change (2 ^ (8 * 1)) with 256
    | change (2 ^ (8 * 2)) with 65536 | change (2 ^ (8 * 3)) with 16777216];
    change (2 ^ 24) with 16777216; change (2 ^ 16) with 65536; change (2 ^ 8) with 256 in *;
    Z.to_euclidean_division_equations; lia.
Qed.

Lemma ld8_stosl m a w c n x :
  (forall k, 0 <= k < 4 -> (w / 2 ^ (8 * k)) mod 256 = c) ->
  ld8 (stosl m a w n) x = if (a <=? x) && (x <? a + 4 * Z.of_nat n) then c else ld8 m x.
Proof.
  intros Hw. revert m a. induction n as [|n IH]; intros m a; cbn [stosl].
  - zcase.
  - rewrite IH, ld8_st32. zcase; apply Hw; lia.
Qed.

(** Both paths of memset (the word-wise and the byte-wise one) do the same thing. *)
Lemma ld8_memset m dst c n x :
  0 <= n ->
  ld8 (memset m dst c n) x = if (dst <=? x) && (x <? dst + n) then c mod 256 else ld8 m x.
Proof.
  intros Hn. unfold memset. destruct ((dst mod 4 =? 0) && (n mod 4 =? 0)) eqn:E.
  - apply andb_true_iff in E as [_ E%Z.eqb_eq].
    rewrite (ld8_stosl _ _ _ (c mod 256)) by (intros; by apply memset_word).
    rewrite Z2Nat.id by (apply Z.div_pos; lia).
    replace (4 * (n / 4)) with n by (Z.to_euclidean_division_equations; lia). done.
  - rewrite ld8_stosb. by rewrite Z2Nat.id by lia.
Qed.

Lemma ld8_copy_up m d s n x :
  ~ (s < d < s + Z.of_nat n) ->
  ld8 (copy_up m d s n) x =
    if (d <=? x) && (x <? d + Z.of_nat n) then ld8 m (s + (x - d)) else ld8 m x.
Proof.
  revert m d s. induction n as [|n IH]; intros m d s H; cbn [copy_up].
  - zcase.
  - rewrite IH by lia. rewrite !ld8_st8, (Z.mod_small (ld8 m s)) by apply ld8_range.
    zcase; f_equal; lia.
Qed.

Lemma ld8_copy_down m d s n x :
  s < d ->
  ld8 (copy_down m d s n) x =
    if (d - Z.of_nat n <=? x) && (x <? d) then ld8 m (s + (x - d)) else ld8 m x.
Proof.
  revert m d s. induction n as [|n IH]; intros m d s H; cbn [copy_down].
  - zcase.
  - rewrite IH by lia. rewrite !ld8_st8, (Z.mod_small (ld8 m (s - 1))) by apply ld8_range.
    zcase; f_equal; lia.
Qed.

Lemma ld8_memmove m dst src n x :
  0 <= n ->
  ld8 (memmove m dst src n) x =
    if (dst <=? x) && (x <? dst + n) then ld8 m (src + (x - dst)) else ld8 m x.
Proof.
  intros Hn. unfold memmove. destruct ((src <? dst) && (dst <? src + n)) eqn:E.
  - apply andb_true_iff in E as [E1%Z.ltb_lt E2%Z.ltb_lt].
    rewrite ld8_copy_down by lia. rewrite Z2Nat.id by lia.
    replace (dst + n - n) with dst by lia.
    replace (src + n + (x - (dst + n))) with (src + (x - dst)) by lia. done.
  - apply andb_false_iff in E. rewrite Z.ltb_ge, Z.ltb_ge in E.
    rewrite ld8_copy_up by lia. by rewrite Z2Nat.id by lia.
Qed.

(** The bytes of a C string as strncmp and strncpy see it: up to the first NUL, at
    most [n] of them. *)
Fixpoint cstr (m : mem) (p : Z) (n : nat) : list Z :=
  match n with
  | O => []
  | S k => if ld8 m p =? 0 then [] else ld8 m p :: cstr m (p + 1) k
  end.

Lemma strncmp_zero_iff m p q n : strncmp m p q n = 0 <-> cstr m p n = cstr m q n.
Proof.
  revert p q. induction n as [|n IH]; intros p q; simpl; [done|].
  destruct (Z.eqb_spec (ld8 m p) 0) as [Hp|Hp]; simpl.
  - destruct (Z.eqb_spec (ld8 m q) 0); split; intros; (done || lia).
  - destruct (Z.eqb_spec (ld8 m p) (ld8 m q)) as [Hpq|Hpq].
    + rewrite <- Hpq. rewrite (proj2 (Z.eqb_neq _ _)) by done. rewrite IH.
      split; intros H; [by rewrite H|by injection H].
    + destruct (Z.eqb_spec (ld8 m q) 0); split; intros H; (done || lia || congruence).
Qed.

Lemma length_cstr m p n : (length (cstr m p n) <= n)%nat.
Proof.
  revert p. induction n as [|n IH]; intros p; simpl; [lia|].
  destruct (_ =? 0); simpl; [lia|]. specialize (IH (p + 1)). lia.
Qed.

Lemma cstr_ext m m' p n :
  (forall x, p <= x < p + Z.of_nat n -> ld8 m' x = ld8 m x) -> cstr m' p n = cstr m p n.
Proof.
  revert p. induction n as [|n IH]; intros p H; simpl; [done|].
  rewrite H by lia. destruct (_ =? 0); [done|]. f_equal. apply IH. intros. apply H. lia.
Qed.

Lemma bytes_at_stosb m a c n : bytes_at (stosb m a c n) a n = replicate n (c mod 256).
Proof.
  apply list_eq. intros i. destruct (decide (i < n)%nat).
  - rewrite lookup_bytes_at, lookup_replicate_2 by lia. rewrite ld8_stosb.
    zcase.
  - rewrite !lookup_ge_None_2; [done|rewrite length_replicate|rewrite length_bytes_at]; lia.
Qed.

Lemma ld8_strncpy_out m s t n x : x < s \/ s + Z.of_nat n <= x -> ld8 (strncpy m s t n) x = ld8 m x.
Proof.
  revert m s t. induction n as [|n IH]; intros m s t H; simpl; [done|].
  destruct (_ =? 0).
  - rewrite zero_fill_stosb, ld8_stosb, ld8_st8.
    zcase.
  - rewrite IH by lia. rewrite ld8_st8. destruct (Z.eqb_spec x s); [lia|done].
Qed.

(** ** Theorems *)

(** memmove copies correctly even when source and destination overlap: each byte
    of the destination range gets the byte the source range held before the call, and
    no other byte changes. *)
Theorem memmove_correct m dst src n x :
  0 <= n ->
  ld8 (memmove m dst src n) x =
    (if (dst <=? x) && (x <? dst + n) then ld8 m (src + (x - dst)) else ld8 m x).
Proof. apply ld8_memmove. Qed.

(** memset fills exactly the range [dst, dst+n) with the low byte of [c], whether it
    takes the word-wise path (aligned) or the byte-wise one. *)
Theorem memset_correct m dst c n x :
  0 <= n ->
  ld8 (memset m dst c n) x = (if (dst <=? x) && (x <? dst + n) then c mod 256 else ld8 m x).
Proof. apply ld8_memset. Qed.

(** strncpy(s, t, n), on non-overlapping buffers, writes the string at [t] (cut at its
    NUL or at [n] bytes) followed by NULs, exactly [n] bytes, and strncmp then finds the copy
    equal to the original: what dirlink stores is what dirlookup compares. *)
Lemma strncpy_roundtrip m s t n :
  s + Z.of_nat n <= t \/ t + Z.of_nat n <= s ->
  bytes_at (strncpy m s t n) s n = cstr m t n ++ replicate (n - length (cstr m t n)) 0 /\
  strncmp (strncpy m s t n) t s n = 0.
Proof.
  intros Hdisj.
  assert (bytes_at (strncpy m s t n) s n = cstr m t n ++ replicate (n - length (cstr m t n)) 0) as Hb.
  { revert m s t Hdisj. induction n as [|n IH]; intros m s t Hdisj; [done|].
    cbn [strncpy cstr bytes_at]. destruct (Z.eqb_spec (ld8 m t) 0) as [Ht|Ht].
    - rewrite zero_fill_stosb. rewrite bytes_at_stosb, ld8_stosb, ld8_st8, Z.eqb_refl.
      destruct (Z.leb_spec (s + 1) s); [lia|]. simpl. by rewrite Ht.
    - rewrite ld8_strncpy_out, ld8_st8, Z.eqb_refl by lia.
      rewrite Z.mod_small by apply ld8_range. simpl. f_equal.
      rewrite IH by lia. rewrite (cstr_ext m); [done|].
      intros x Hx. rewrite ld8_st8. destruct (Z.eqb_spec x s); [lia|done]. }
  split; [done|]. apply strncmp_zero_iff.
  rewrite (cstr_ext m) by (intros; apply ld8_strncpy_out; lia).
  revert Hb. generalize (strncpy m s t n). intros m' Hb. clear Hdisj.
  revert s t Hb. induction n as [|n IH]; intros s t Hb; [done|].
  cbn [cstr bytes_at] in *. destruct (Z.eqb_spec (ld8 m t) 0) as [Ht|Ht]; simpl in Hb.
  - injection Hb as Hs _. by rewrite Hs.
  - injection Hb as Hs Hb. rewrite Hs. rewrite (proj2 (Z.eqb_neq _ _)) by done.
    f_equal. by apply IH.
Qed.

