(* ===== verification/Kalloc.v ===== *)
(** * The physical page allocator (src/kalloc.c)

    The free list is intrusive: the first word of a free page holds the address of the
    next one, so the allocator's state is the byte memory together with [kmem] and the
    two counters of the file.  The linker symbols [end] and [data] are parameters. *)
From Stdlib Require Import ZArith Lia.
From stdpp Require Import base list numbers strings sets relations.
From S2P Require Import Prelude Mmu Mem.
Local Open Scope Z_scope.

(** What kernel.ld promises about the symbols the C code refers to: the kernel is linked
    at KERNLINK, [data] starts a page, [end] is the first address after the image and the
    image fits in the 4 MB that entrypgdir maps.  [kbuff] is the address of the static page
    buffer [buff] of vm.c, one of the objects of the image. *)
Class Image := {
  kend : Z;
  kdata : Z;
  kbuff : Z;
  kdata_page : kdata mod 4096 = 0;
  kdata_lo : KERNLINK < kdata;
  kdata_kend : kdata <= kend;
  kbuff_lo : kdata <= kbuff;
  kbuff_hi : kbuff + 4096 <= kend;
  kend_hi : kend < KERNBASE + 0x400000 }.

Record kmem := mkKmem {
  km_mem : mem;              (* physical memory, through the direct map *)
  use_lock : bool;
  km_locked : bool;          (* kmem.lock is held *)
  freelist : Z;              (* struct run *, 0 when empty *)
  page_counter : Z;
  total_free_pages : Z }.

Definition set_km_mem (m : mem) (s : kmem) : kmem :=
  mkKmem m (use_lock s) (km_locked s) (freelist s) (page_counter s) (total_free_pages s).
Definition set_use_lock (b : bool) (s : kmem) : kmem :=
  mkKmem (km_mem s) b (km_locked s) (freelist s) (page_counter s) (total_free_pages s).
Definition set_km_locked (b : bool) (s : kmem) : kmem :=
  mkKmem (km_mem s) (use_lock s) b (freelist s) (page_counter s) (total_free_pages s).
Definition set_freelist (r : Z) (s : kmem) : kmem :=
  mkKmem (km_mem s) (use_lock s) (km_locked s) r (page_counter s) (total_free_pages s).
Definition set_page_counter (n : Z) (s : kmem) : kmem :=
  mkKmem (km_mem s) (use_lock s) (km_locked s) (freelist s) n (total_free_pages s).
Definition set_total_free_pages (n : Z) (s : kmem) : kmem :=
  mkKmem (km_mem s) (use_lock s) (km_locked s) (freelist s) (page_counter s) n.

Section kalloc.
Context {img : Image}.

(** acquire(&kmem.lock) and release(&kmem.lock) on the CPU that runs the allocator. *)
Definition kmem_acquire : M kmem unit :=
  let! l := gets km_locked in
  if l then panic "acquire" else modify (set_km_locked true).
Definition kmem_release : M kmem unit :=
  let! l := gets km_locked in
  if l then modify (set_km_locked false) else panic "release".

Definition getfreepages (s : kmem) : Z := page_counter s.
Definition getTotalPageskernel : Z := PGROUNDDOWN (u32 (PHYSTOP - V2P kend)) / PGSIZE.
Definition getTotalfreePages (s : kmem) : Z := total_free_pages s.

Definition kfree (v : Z) : M kmem unit :=
  if negb (v mod PGSIZE =? 0) || (v <? kend) || (PHYSTOP <=? V2P v) then panic "kfree"
  else
    modify (fun s => set_km_mem (memset (km_mem s) v 1 PGSIZE) s) ;;;
    let! ul := gets use_lock in
    when ul kmem_acquire ;;;
    modify (fun s => set_page_counter (page_counter s + 1) s) ;;;
    modify (fun s => set_km_mem (st32 (km_mem s) v (freelist s)) s) ;;;
    modify (set_freelist v) ;;;
    when ul kmem_release.

Definition kalloc : M kmem Z :=
  let! ul := gets use_lock in
  when ul kmem_acquire ;;;
  let! r := gets freelist in
  modify (fun s => set_page_counter (page_counter s - 1) s) ;;;
  when (negb (r =? 0)) (modify (fun s => set_freelist (ld32 (km_mem s) r) s)) ;;;
  when ul kmem_release ;;;
  ret r.

(** [for(; p + PGSIZE <= vend; p += PGSIZE) kfree(p);] — the fuel is the number of pages
    between the bounds plus one, for the last test. *)
Definition freerange (vstart vend : Z) : M kmem unit :=
  let p := PGROUNDUP (u32 vstart) in
  loop (S (Z.to_nat ((vend - p) / PGSIZE)))
    (fun p => if p + PGSIZE <=? vend then kfree p ;;; ret (inl (p + PGSIZE)) else ret (inr tt)) p.

(** initlock resets the lock word. *)
Definition kinit1 (vstart vend : Z) : M kmem unit :=
  modify (set_km_locked false) ;;;
  modify (set_use_lock false) ;;;
  freerange vstart vend ;;;
  modify (fun s => set_total_free_pages
    (i32 (total_free_pages s + u32 (PGROUNDDOWN (u32 vend) - PGROUNDUP (u32 vstart)) / PGSIZE)) s).

Definition kinit2 (vstart vend : Z) : M kmem unit :=
  freerange vstart vend ;;;
  modify (set_use_lock true) ;;;
  modify (fun s => set_total_free_pages
    (i32 (total_free_pages s + u32 (PGROUNDDOWN (u32 vend) - PGROUNDUP (u32 vstart)) / PGSIZE)) s).

(** ** Well-formedness *)

(** A page frame the allocator manages: what kfree does not reject. *)
Definition kpage (v : Z) : Prop :=
  v mod 4096 = 0 /\ kend <= v /\ v + 4096 <= KERNBASE + PHYSTOP.

Lemma kpage_dec_kfree v :
  0 <= v < 2 ^ 32 ->
  negb (v mod PGSIZE =? 0) || (v <? kend) || (PHYSTOP <=? V2P v) = false <-> kpage v.
Proof.
  intros Hv. unfold kpage, PGSIZE. pose proof kdata_lo. pose proof kdata_kend.
  rewrite !orb_false_iff, negb_false_iff, Z.eqb_eq, Z.ltb_ge, Z.leb_gt.
  unfold V2P, KERNLINK, KERNBASE, PHYSTOP, EXTMEM in *. rewrite (u32_small v) by lia.
  split.
  - intros [[E1 E2] E3]. rewrite u32_small in E3 by lia. repeat split; try lia.
    Z.to_euclidean_division_equations; lia.
  - intros (E1 & E2 & E3). rewrite u32_small by lia. repeat split; lia.
Qed.

(** The free list starting at [hd] visits exactly the pages [l]. *)
Fixpoint free_chain (m : mem) (hd : Z) (l : list Z) : Prop :=
  match l with
  | [] => hd = 0
  | p :: l' => hd = p /\ kpage p /\ free_chain m (ld32 m p) l'
  end.

Definition kmem_wf (s : kmem) (l : list Z) : Prop :=
  free_chain (km_mem s) (freelist s) l /\ NoDup l /\ km_locked s = false.

Lemma kpage_pos v : kpage v -> KERNBASE < v /\ v + 4096 <= KERNBASE + PHYSTOP /\ v mod 4096 = 0.
Proof.
  intros (? & ? & ?). pose proof kdata_lo. pose proof kdata_kend.
  unfold KERNLINK, EXTMEM, KERNBASE in *. lia.
Qed.

(** Distinct pages do not overlap. *)
Lemma pages_disjoint p q : p mod 4096 = 0 -> q mod 4096 = 0 -> p <> q -> p + 4096 <= q \/ q + 4096 <= p.
Proof. intros. Z.to_euclidean_division_equations; lia. Qed.

Lemma free_chain_ext m m' hd l :
  (forall p x, p ∈ l -> p <= x < p + 4 -> ld8 m' x = ld8 m x) ->
  free_chain m hd l -> free_chain m' hd l.
Proof.
  revert hd. induction l as [|p l IH]; intros hd Hext; simpl; [done|].
  intros (-> & Hp & Hc). split; [done|]. split; [done|].
  rewrite (ld32_ext m) by (intros; apply (Hext p); [constructor|done]).
  apply IH; [|done]. intros q x Hq. apply Hext. by constructor.
Qed.

Lemma free_chain_kpage m hd l p : free_chain m hd l -> p ∈ l -> kpage p.
Proof.
  revert hd. induction l as [|q l IH]; intros hd Hc Hp; [by apply not_elem_of_nil in Hp|].
  destruct Hc as (-> & Hq & Hc). apply elem_of_cons in Hp as [->|Hp]; eauto.
Qed.

(** ** The operations on a well-formed free list *)

Lemma kalloc_cons s p l :
  kmem_wf s (p :: l) ->
  kalloc s = Ret p (set_freelist (ld32 (km_mem s) p) (set_page_counter (page_counter s - 1) s)) /\
  kmem_wf (set_freelist (ld32 (km_mem s) p) (set_page_counter (page_counter s - 1) s)) l /\
  kpage p /\ p ∉ l.
Proof.
  intros ((Hhd & Hp & Hc) & Hnd & Hl). inversion_clear Hnd.
  assert (freelist s <> 0). { rewrite Hhd. apply kpage_pos in Hp. unfold KERNBASE in Hp. lia. }
  split; [|done].
  destruct s as [m ul lk fl pc tf]; simpl in *. subst fl lk.
  unfold kalloc, kmem_acquire, kmem_release, when, bind, gets, modify, skip, ret, set_freelist,
    set_page_counter, set_km_locked; simpl.
  destruct ul; simpl; (rewrite (proj2 (Z.eqb_neq p 0)) by done); done.
Qed.

Lemma kalloc_nil s :
  kmem_wf s [] ->
  kalloc s = Ret 0 (set_page_counter (page_counter s - 1) s) /\
  kmem_wf (set_page_counter (page_counter s - 1) s) [].
Proof.
  intros (Hhd & Hnd & Hl). split; [|done].
  destruct s as [m ul lk fl pc tf]; simpl in *. subst fl lk. by destruct ul.
Qed.

(** The memory after kfree(v): junk everywhere in the page but in its first word. *)
Definition kfree_mem (m : mem) (v fl : Z) : mem := st32 (memset m v 1 PGSIZE) v fl.

Lemma ld8_kfree_mem_out m v fl x : x < v \/ v + 4096 <= x -> ld8 (kfree_mem m v fl) x = ld8 m x.
Proof.
  intros. unfold kfree_mem. rewrite ld8_st32_out by lia. rewrite ld8_memset by done.
  unfold PGSIZE. zcase.
Qed.

Lemma ld32_kfree_mem m v fl : ld32 (kfree_mem m v fl) v = u32 fl.
Proof. apply ld32_st32_eq. Qed.

Lemma kfree_eval s v :
  kpage v -> km_locked s = false ->
  kfree v s = Ret tt (set_freelist v (set_km_mem (kfree_mem (km_mem s) v (freelist s))
                       (set_page_counter (page_counter s + 1) s))).
Proof.
  intros Hv Hl. pose proof (kpage_pos _ Hv).
  unfold kfree. rewrite (proj2 (kpage_dec_kfree v ltac:(unfold KERNBASE, PHYSTOP in *; lia))) by done.
  destruct s as [m ul lk fl pc tf]; simpl in *. subst lk. by destruct ul.
Qed.

Lemma free_chain_kfree m hd l v fl :
  kpage v -> v ∉ l -> free_chain m hd l -> free_chain (kfree_mem m v fl) hd l.
Proof.
  intros Hv Hnin Hc. eapply free_chain_ext; [|done]. intros p x Hp Hx.
  apply ld8_kfree_mem_out. pose proof (free_chain_kpage _ _ _ _ Hc Hp) as Hk.
  destruct (kpage_pos _ Hv) as (? & ? & ?), (kpage_pos _ Hk) as (? & ? & ?).
  destruct (pages_disjoint v p); [done|done|by intros ->| |]; lia.
Qed.

Lemma kfree_cons s v l :
  kpage v -> v ∉ l -> kmem_wf s l ->
  exists s', kfree v s = Ret tt s' /\ kmem_wf s' (v :: l) /\
    page_counter s' = page_counter s + 1 /\ use_lock s' = use_lock s /\
    total_free_pages s' = total_free_pages s /\
    km_mem s' = kfree_mem (km_mem s) v (freelist s).
Proof.
  intros Hv Hnin (Hc & Hnd & Hl). eexists. split; [by apply kfree_eval|].
  split; [|done]. split; [|by split; [constructor|]]. simpl. split; [done|]. split; [done|].
  rewrite ld32_kfree_mem.
  assert (u32 (freelist s) = freelist s) as ->.
  { destruct l as [|p l]; simpl in Hc; [by rewrite Hc|]. destruct Hc as (-> & Hp & _).
    apply kpage_pos in Hp. apply u32_small. unfold KERNBASE, PHYSTOP in Hp. lia. }
  by apply free_chain_kfree.
Qed.

(** The [n] consecutive page addresses from [p] on. *)
Fixpoint page_range (p : Z) (n : nat) : list Z :=
  match n with
  | O => []
  | S k => p :: page_range (p + 4096) k
  end.

Lemma elem_of_page_range q p n :
  q ∈ page_range p n -> exists i, 0 <= i < Z.of_nat n /\ q = p + 4096 * i.
Proof.
  revert p. induction n as [|n IH]; intros p Hq; [by apply not_elem_of_nil in Hq|].
  apply elem_of_cons in Hq as [->|Hq].
  - exists 0. lia.
  - apply IH in Hq as (i & ? & ->). exists (i + 1). lia.
Qed.

Lemma page_range_intro p n i : 0 <= i < Z.of_nat n -> p + 4096 * i ∈ page_range p n.
Proof.
  revert p i. induction n as [|n IH]; intros p i Hi; [lia|]. simpl. apply elem_of_cons.
  destruct (Z.eq_dec i 0) as [->|]; [left; lia|right].
  replace (p + 4096 * i) with (p + 4096 + 4096 * (i - 1)) by lia. apply IH. lia.
Qed.

Lemma page_range_iff p n q :
  p mod 4096 = 0 ->
  q ∈ page_range p n <-> q mod 4096 = 0 /\ p <= q < p + 4096 * Z.of_nat n.
Proof.
  intros Hp. split.
  - intros (i & Hi & ->)%elem_of_page_range. split; [|lia].
    by rewrite (Z.mul_comm 4096), Z_mod_plus_full.
  - intros [Hq Hr]. replace q with (p + 4096 * ((q - p) / 4096)).
    + apply page_range_intro. split; [apply Z.div_pos; lia|]. apply Z.div_lt_upper_bound; lia.
    + rewrite <- Z_div_exact_full_2; [lia|lia|]. rewrite Zminus_mod, Hp, Hq. done.
Qed.

(** Pages freed by the two calls of main(): below and above the 4 MB mark. *)
Lemma kpage_split q n1 n2 P1 :
  P1 = PGROUNDUP kend -> 0x80400000 - P1 = 4096 * Z.of_nat n1 -> Z.of_nat n2 = 56320 ->
  kpage q <-> q ∈ page_range 0x80400000 n2 \/ q ∈ page_range P1 n1.
Proof.
  pose proof kdata_lo. pose proof kdata_kend. pose proof kend_hi.
  unfold kpage, KERNLINK, KERNBASE, EXTMEM, PHYSTOP in *. intros HP1 Hn1 Hn2.
  rewrite PGROUNDUP_div in HP1 by lia.
  assert (P1 mod 4096 = 0) by (subst; apply Z.mod_mul; lia).
  assert (kend <= P1 < kend + 4096) by (subst; Z.to_euclidean_division_equations; lia).
  rewrite !page_range_iff by done. split.
  - intros (Hq & Hlo & Hhi). assert (P1 <= q) by (Z.to_euclidean_division_equations; lia). lia.
  - intros [[Hq Hr]|[Hq Hr]]; (split; [done|]); Z.to_euclidean_division_equations; lia.
Qed.

Lemma length_page_range p n : length (page_range p n) = n.
Proof. revert p. induction n as [|n IH]; intros p; simpl; [done|]. by rewrite IH. Qed.

Lemma freerange_loop n fuel vend p s l :
  (n < fuel)%nat -> p mod 4096 = 0 -> kend <= p -> vend <= KERNBASE + PHYSTOP ->
  4096 * Z.of_nat n <= vend - p < 4096 * (Z.of_nat n + 1) ->
  kmem_wf s l -> (forall q, q ∈ page_range p n -> q ∉ l) ->
  exists s', loop fuel (fun p => if p + PGSIZE <=? vend then kfree p ;;; ret (inl (p + PGSIZE))
                                 else ret (inr tt)) p s = Ret tt s' /\
    kmem_wf s' (rev (page_range p n) ++ l) /\ page_counter s' = page_counter s + Z.of_nat n /\
    use_lock s' = use_lock s /\ total_free_pages s' = total_free_pages s.
Proof.
  revert fuel p s l. induction n as [|n IH]; intros fuel p s l Hf Hp Hlo Hhi Hn Hwf Hdis;
    (destruct fuel as [|fuel]; [lia|]); cbn [loop]; unfold PGSIZE.
  - destruct (Z.leb_spec (p + 4096) vend); [lia|]. exists s. simpl. rewrite Z.add_0_r. done.
  - destruct (Z.leb_spec (p + 4096) vend); [|lia].
    destruct (kfree_cons s p l) as (s1 & E & Hwf1 & Hc1 & Hu1 & Ht1 & _);
      [by repeat split; lia|apply Hdis; constructor|done|].
    unfold bind at 1 2. rewrite E. cbn [ret].
    destruct (IH fuel (p + 4096) s1 (p :: l)) as (s2 & E2 & Hwf2 & Hc2 & Hu2 & Ht2);
      [lia|rewrite <- (Z.mul_1_l 4096) at 1; by rewrite Z_mod_plus_full|lia|done|lia|done| |].
    + intros q Hq Hin. apply elem_of_cons in Hin as [->|Hin].
      * apply elem_of_page_range in Hq as (i & ? & ?). lia.
      * eapply Hdis; [|done]. by constructor.
    + exists s2. unfold ret. split; [exact E2|]. simpl. rewrite <- app_assoc. simpl.
      split; [done|]. split; [lia|]. by rewrite Hu2, Hu1, Ht2, Ht1.
Qed.

Lemma freerange_spec vstart vend s l :
  kend <= vstart -> vstart <= vend -> vend <= KERNBASE + PHYSTOP -> kmem_wf s l ->
  let p := PGROUNDUP vstart in
  let n := Z.to_nat ((vend - p) / 4096) in
  (forall q, q ∈ page_range p n -> q ∉ l) ->
  exists s', freerange vstart vend s = Ret tt s' /\
    kmem_wf s' (rev (page_range p n) ++ l) /\ page_counter s' = page_counter s + Z.of_nat n /\
    use_lock s' = use_lock s /\ total_free_pages s' = total_free_pages s.
Proof.
  intros Hlo Hle Hhi Hwf p n Hdis. pose proof kdata_lo. pose proof kdata_kend.
  unfold freerange. assert (0 <= vstart /\ vstart + 4095 < 2 ^ 32) as [Hv0 Hv1].
  { unfold KERNLINK, KERNBASE, EXTMEM, PHYSTOP in *. lia. }
  rewrite u32_small by lia. fold p. change PGSIZE with 4096. fold n.
  pose proof (PGROUNDUP_div vstart Hv0 Hv1) as Hup. fold p in Hup.
  destruct (Z_le_gt_dec p vend).
  - apply freerange_loop; try done; [lia|rewrite Hup; apply Z.mod_mul; lia| |].
    { rewrite Hup. Z.to_euclidean_division_equations; lia. }
    unfold n. rewrite Z2Nat.id by (apply Z.div_pos; lia).
    Z.to_euclidean_division_equations; lia.
  - assert (n = O) as Hn0.
    { unfold n.
      assert ((vend - p) / 4096 < 0) by (apply Z.div_lt_upper_bound; lia). lia. }
    rewrite Hn0 in *. cbn [loop].
    destruct (Z.leb_spec (p + 4096) vend); [lia|]. exists s. simpl. rewrite Z.add_0_r. done.
Qed.

(** ** The allocator and its clients *)

(** Clients allocate, free pages they own, and write anything into pages they own.  The
    second component lists the pages that are handed out. *)
Inductive client_step : kmem * list Z -> kmem * list Z -> Prop :=
| cs_alloc s s' own p : kalloc s = Ret p s' -> p <> 0 -> client_step (s, own) (s', p :: own)
| cs_alloc_fail s s' own : kalloc s = Ret 0 s' -> client_step (s, own) (s', own)
| cs_free s s' own1 p own2 :
    kfree p s = Ret tt s' -> client_step (s, own1 ++ p :: own2) (s', own1 ++ own2)
| cs_write s own p x v :
    p ∈ own -> p <= x < p + 4096 -> client_step (s, own) (set_km_mem (st8 (km_mem s) x v) s, own).

Definition alloc_inv (n : nat) (c : kmem * list Z) : Prop :=
  exists l, kmem_wf c.1 l /\ NoDup (l ++ c.2) /\ Forall kpage c.2 /\ (length l + length c.2 = n)%nat.

Lemma alloc_inv_step n c c' : client_step c c' -> alloc_inv n c -> alloc_inv n c'.
Proof.
  intros Hst (l & Hwf & Hnd & Hown & Hlen). destruct Hst as [s s' own p E Hp|s s' own E|s s' own1 p own2 E|s own p x v Hp Hx];
    simpl in *.
  - destruct l as [|q l].
    + destruct (kalloc_nil s Hwf) as [E' _]. rewrite E' in E. by injection E.
    + destruct (kalloc_cons s q l Hwf) as (E' & Hwf' & Hq & Hnin). rewrite E' in E.
      injection E as <- <-. exists l. split; [done|]. split.
      * simpl in *. by rewrite <- Permutation_middle.
      * split; [by constructor|]. simpl in *. lia.
  - destruct l as [|q l].
    + destruct (kalloc_nil s Hwf) as [E' Hwf']. rewrite E' in E. injection E as <-. by exists [].
    + destruct (kalloc_cons s q l Hwf) as (E' & Hwf' & Hq & Hnin). rewrite E' in E.
      injection E as E0 _. apply kpage_pos in Hq. unfold KERNBASE in Hq. lia.
  - apply Forall_app in Hown as [Hown1 Hown]. inversion_clear Hown as [|?? Hp Hown2].
    assert ((p ∉ l) /\ (p ∉ own1 ++ own2) /\ NoDup (l ++ own1 ++ own2)) as (Hpl & Hpo & Hnd').
    { rewrite <- Permutation_middle in Hnd. rewrite <- Permutation_middle in Hnd.
      apply NoDup_cons in Hnd as [Hnin Hnd]. rewrite elem_of_app in Hnin. tauto. }
    destruct (kfree_cons s p l Hp Hpl Hwf) as (s1 & E1 & Hwf1 & _). rewrite E1 in E.
    injection E as <-. exists (p :: l). split; [done|]. split.
    + simpl. apply NoDup_cons. split; [|done]. rewrite elem_of_app. tauto.
    + split; [by apply Forall_app|]. simpl. rewrite length_app in *. simpl in *. lia.
  - exists l. split; [|done]. destruct Hwf as (Hc & Hndl & Hlk). split; [|done]. simpl.
    eapply free_chain_ext; [|exact Hc]. intros q y Hq Hy. rewrite ld8_st8.
    destruct (Z.eqb_spec y x) as [->|]; [|done]. exfalso.
    pose proof (kpage_pos _ (free_chain_kpage _ _ _ _ Hc Hq)) as (? & ? & ?).
    rewrite Forall_forall in Hown. pose proof (kpage_pos _ (Hown _ Hp)) as (? & ? & ?).
    assert (p <> q) as Hpq. { intros ->. rewrite NoDup_app in Hnd. by eapply Hnd. }
    destruct (pages_disjoint p q); lia.
Qed.

Lemma alloc_inv_reachable n c c' : rtc client_step c c' -> alloc_inv n c -> alloc_inv n c'.
Proof. induction 1; eauto using alloc_inv_step. Qed.

End kalloc.

(** A concrete kernel image, for the witnesses. *)
Definition demo_image : Image.
Proof.
  refine {| kend := 0x80115000; kdata := 0x80108000; kbuff := 0x80110000 |}; (reflexivity || (unfold KERNLINK, KERNBASE, EXTMEM; lia)).
Defined.

(** ** Theorems *)

(** C16: pages are never handed out twice.  However clients allocate, free and overwrite the
    pages they own, a page returned by kalloc is a valid frame that no client owns, and no page
    is lost: free and owned pages always add up to the initial free list. *)
Theorem kalloc_exclusive `{Image} s0 l0 s own p s' :
  kmem_wf s0 l0 -> rtc client_step (s0, []) (s, own) -> kalloc s = Ret p s' -> p <> 0 ->
  (p ∉ own) /\ kpage p /\ exists l, kmem_wf s' l /\ (length l + length (p :: own) = length l0)%nat.
Proof.
  intros Hwf0 Hreach E Hp.
  destruct (alloc_inv_reachable (length l0) (s0, []) (s, own)) as (l & Hwf & Hnd & Hown & Hlen).
  - done.
  - exists l0. destruct Hwf0 as (? & ? & ?). simpl. rewrite app_nil_r. split; [done|]. split; [done|].
    split; [constructor|lia].
  - simpl in *. destruct l as [|q l].
    + destruct (kalloc_nil s Hwf) as [E' _]. rewrite E' in E. by injection E.
    + destruct (kalloc_cons s q l Hwf) as (E' & Hwf' & Hq & Hnin). rewrite E' in E.
      injection E as <- <-. split; [|split; [done|]].
      * simpl in Hnd. inversion_clear Hnd. set_solver.
      * exists l. split; [done|]. simpl in *. lia.
Qed.

(** A small state with two free pages, to run the allocator on. *)
Definition demo_kmem : kmem :=
  mkKmem (st32 (st32 (fun _ => 0) 0x80200000 0x80201000) 0x80201000 0) true false 0x80200000 2 2.

Lemma demo_kmem_wf : @kmem_wf demo_image demo_kmem [0x80200000; 0x80201000].
Proof.
  split; [|split; [|done]].
  - simpl. repeat split; try (unfold kend, KERNBASE, PHYSTOP; simpl; lia); vm_compute; reflexivity.
  - apply NoDup_cons. split; [set_solver|]. apply NoDup_singleton.
Qed.

Lemma kalloc_exclusive_witness :
  (0x80200000 ∉ ([] : list Z)) /\ @kpage demo_image 0x80200000 /\
  exists l, @kmem_wf demo_image
    (set_freelist 0x80201000 (set_page_counter 1 demo_kmem)) l /\ (length l + 1 = 2)%nat.
Proof.
  apply (@kalloc_exclusive demo_image demo_kmem [0x80200000; 0x80201000] demo_kmem []).
  - apply demo_kmem_wf.
  - apply rtc_refl.
  - vm_compute. reflexivity.
  - lia.
Defined.

(** Booting the allocator.  From a zeroed kmem, kinit1(end, P2V(4MB)) followed by
    kinit2(P2V(4MB), P2V(PHYSTOP)) returns with every page from PGROUNDUP(end) up to PHYSTOP on
    the free list, once, and with both counters of the file equal to its length. *)
Lemma kinit_all_pages `{Image} s0 :
  freelist s0 = 0 -> page_counter s0 = 0 -> total_free_pages s0 = 0 ->
  exists s l, (kinit1 kend (P2V 0x400000) ;;; kinit2 (P2V 0x400000) (P2V PHYSTOP)) s0 = Ret tt s /\
    kmem_wf s l /\ (forall p, kpage p <-> p ∈ l) /\
    getfreepages s = Z.of_nat (length l) /\ getTotalfreePages s = Z.of_nat (length l).
Proof.
  intros Hfl Hpc Htf. pose proof kdata_lo. pose proof kdata_kend. pose proof kend_hi.
  change (P2V 0x400000) with 0x80400000. change (P2V PHYSTOP) with 0x8E000000.
  unfold KERNLINK, KERNBASE, EXTMEM in *.
  set (P1 := PGROUNDUP kend). assert (P1 = (kend + 4095) / 4096 * 4096) as HP1.
  { apply PGROUNDUP_div; lia. }
  assert (kend <= P1 <= 0x80400000 /\ P1 mod 4096 = 0) as [HP1r HP1m].
  { rewrite HP1. split; [Z.to_euclidean_division_equations; lia|apply Z.mod_mul; lia]. }
  set (s1 := set_use_lock false (set_km_locked false s0)).
  destruct (freerange_spec kend 0x80400000 s1 []) as (s2 & E2 & Hwf2 & Hc2 & Hu2 & Ht2).
  { lia. } { lia. } { unfold KERNBASE, PHYSTOP; lia. }
  { split; [done|]. split; [constructor|done]. } { intros. apply not_elem_of_nil. }
  fold P1 in E2, Hwf2, Hc2. set (n1 := Z.to_nat ((0x80400000 - P1) / 4096)) in *.
  rewrite app_nil_r in Hwf2.
  set (s3 := set_total_free_pages (Z.of_nat n1) s2).
  destruct (freerange_spec 0x80400000 0x8E000000 s3 (rev (page_range P1 n1)))
    as (s4 & E4 & Hwf4 & Hc4 & Hu4 & Ht4).
  { lia. } { lia. } { unfold KERNBASE, PHYSTOP; lia. } { done. }
  { intros q Hq Hin. apply list_elem_of_In, in_rev, list_elem_of_In in Hin.
    apply page_range_iff in Hq as [_ Hq]; [|done]. apply page_range_iff in Hin as [_ Hin]; [|done].
    change (PGROUNDUP 0x80400000) with 0x80400000 in Hq. unfold n1 in Hin.
    rewrite Z2Nat.id in Hin by (apply Z.div_pos; lia).
    pose proof (Z.mul_div_le (0x80400000 - P1) 4096). lia. }
  change (PGROUNDUP 0x80400000) with 0x80400000 in *.
  set (n2 := Z.to_nat ((0x8E000000 - 0x80400000) / 4096)) in *.
  exists (set_total_free_pages (Z.of_nat n1 + Z.of_nat n2) (set_use_lock true s4)),
    (rev (page_range 0x80400000 n2) ++ rev (page_range P1 n1)).
  assert (Z.of_nat n2 = 56320) as Hn2. { unfold n2. rewrite Z2Nat.id; done. }
  assert (Z.of_nat n1 = (0x80400000 - P1) / 4096) as Hn1.
  { unfold n1. rewrite Z2Nat.id; [done|]. apply Z.div_pos; lia. }
  assert (P1 = 0x80400000 - 4096 * Z.of_nat n1) as HP1n.
  { rewrite Hn1. Z.to_euclidean_division_equations; lia. }
  split; [|split; [done|split]].
  - unfold kinit1, kinit2, bind, modify. fold s1. rewrite E2.
    rewrite (u32_small kend) by lia. fold P1. rewrite Ht2. simpl (total_free_pages s1). rewrite Htf.
    assert (i32 (0 + u32 (PGROUNDDOWN (u32 0x80400000) - P1) / PGSIZE) = Z.of_nat n1) as ->.
    { change (PGROUNDDOWN (u32 0x80400000)) with 0x80400000. rewrite u32_small by lia.
      unfold PGSIZE. rewrite Z.add_0_l, <- Hn1. apply i32_small. lia. }
    fold s3. rewrite E4. f_equal. f_equal. simpl. rewrite Ht4. simpl.
    change (u32 (PGROUNDDOWN (u32 0x8E000000) - PGROUNDUP (u32 0x80400000)) / PGSIZE) with 56320.
    rewrite <- Hn2. apply i32_small. lia.
  - intros q. rewrite elem_of_app, !list_elem_of_In, <- !in_rev, <- !list_elem_of_In.
    apply kpage_split; [done|lia|done].
  - rewrite length_app, !length_rev, !length_page_range, Nat2Z.inj_add.
    unfold getfreepages, getTotalfreePages. simpl. rewrite Hc4. simpl. rewrite Hc2. simpl. lia.
Qed.

(** A failed kalloc miscounts.  With the free list empty kalloc returns 0 but still
    decrements page_counter, so getfreepages() then reports one page less than the free list
    holds: -1, and 0 again once a page has been freed. *)
Lemma kalloc_fail_miscounts `{Image} s p :
  kmem_wf s [] -> page_counter s = 0 -> kpage p ->
  exists s1 s2, kalloc s = Ret 0 s1 /\ getfreepages s1 = -1 /\
    kfree p s1 = Ret tt s2 /\ kmem_wf s2 [p] /\ getfreepages s2 = 0.
Proof.
  intros Hwf Hpc Hp. destruct (kalloc_nil s Hwf) as [E Hwf1].
  destruct (kfree_cons (set_page_counter (page_counter s - 1) s) p [] Hp
    ltac:(apply not_elem_of_nil) Hwf1) as (s2 & E2 & Hwf2 & Hc2 & _).
  eexists _, s2. split; [exact E|]. split; [unfold getfreepages; simpl; lia|].
  split; [done|]. split; [done|]. unfold getfreepages. rewrite Hc2. simpl. lia.
Qed.
