(* ===== verification/PageTable.v ===== *)
(** * Two-level page tables in memory (walkpgdir, mappages of src/vm.c)

    A page directory is a page of memory; a present entry points to a page table, another
    page of memory.  The operations are translated over the allocator's state [kmem], so a
    page-table page that walkpgdir creates comes from the same free list as user pages.

    The second half gives the structural invariant [pt_wf] (the directory and the tables it
    points to are distinct frames), the view [pte_val] of a page table as a map from pages to
    entries, and what each operation does to that view. *)
From Stdlib Require Import ZArith Lia.
From stdpp Require Import base list numbers strings sets.
From S2P Require Import Prelude Mmu Mem Kalloc.
Local Open Scope Z_scope.

(** ** vm.c *)

Section vm.
Context {img : Image}.

Definition walkpgdir (pgdir va : Z) (alloc : bool) : M kmem Z :=
  let pde := pgdir + 4 * PDX va in
  let! e := gets (fun s => ld32 (km_mem s) pde) in
  if has e PTE_P then ret (P2V (PTE_ADDR e) + 4 * PTX va)
  else if negb alloc then ret 0
  else
    let! pgtab := kalloc in
    if pgtab =? 0 then ret 0
    else
      modify (fun s => set_km_mem (memset (km_mem s) pgtab 0 PGSIZE) s) ;;;
      modify (fun s => set_km_mem (st32 (km_mem s) pde
        (Z.lor (Z.lor (Z.lor (V2P pgtab) PTE_P) PTE_W) PTE_U)) s) ;;;
      ret (pgtab + 4 * PTX va).

(** proc.c and trap.c carry line-for-line copies of walkpgdir. *)
Definition proc_walkpagedir (pgdir va : Z) (alloc : bool) : M kmem Z := walkpgdir pgdir va alloc.
Definition callwalkpgdir (pgdir va : Z) (alloc : bool) : M kmem Z := walkpgdir pgdir va alloc.

(** The loop runs from PGROUNDDOWN(va) to [last] in steps of a page; the fuel is the number
    of pages in between, plus one. *)
Definition mappages_body (pgdir last perm : Z) '(a, pa) : M kmem (Z * Z + Z) :=
  let! pte := walkpgdir pgdir a true in
  if pte =? 0 then ret (inr (-1))
  else
    let! e := gets (fun s => ld32 (km_mem s) pte) in
    if has e PTE_P then panic "remap"
    else
      modify (fun s => set_km_mem (st32 (km_mem s) pte (Z.lor (Z.lor pa perm) PTE_P)) s) ;;;
      if a =? last then ret (inr 0)
      else ret (inl (u32 (a + PGSIZE), u32 (pa + PGSIZE))).

Definition mappages (pgdir va size pa perm : Z) : M kmem Z :=
  let a := PGROUNDDOWN va in
  let last := PGROUNDDOWN (u32 (va + size - 1)) in
  loop (S (Z.to_nat (u32 (last - a) / PGSIZE))) (mappages_body pgdir last perm) (a, pa).

(** getPagePAddr: the frame address in the entry of [userPageVAddr], -1 if there is no table. *)
Definition getPagePAddr (userPageVAddr pgdir : Z) : M kmem Z :=
  let! pte := walkpgdir pgdir userPageVAddr false in
  if pte =? 0 then ret (-1)
  else let! e := gets (fun s => ld32 (km_mem s) pte) in ret (PTE_ADDR e).

(** The kernel's mappings, present in every page table. *)
Record kmap_entry := mkKmap { virt : Z; phys_start : Z; phys_end : Z; kperm : Z }.
Definition kmap : list kmap_entry :=
  [ mkKmap KERNBASE 0 EXTMEM PTE_W;
    mkKmap KERNLINK (V2P KERNLINK) (V2P kdata) 0;
    mkKmap kdata (V2P kdata) PHYSTOP PTE_W;
    mkKmap DEVSPACE DEVSPACE 0 PTE_W ].

(** ** The shape of a page table *)

Definition pde_val (m : mem) (pgdir i : Z) : Z := ld32 m (pgdir + 4 * i).
Definition table (m : mem) (pgdir i : Z) : Z := P2V (PTE_ADDR (pde_val m pgdir i)).
Definition present (m : mem) (pgdir i : Z) : Prop :=
  0 <= i < 1024 /\ has (pde_val m pgdir i) PTE_P = true.

Definition pt_wf (m : mem) (pgdir : Z) : Prop :=
  kpage pgdir /\
  (forall i, present m pgdir i -> kpage (table m pgdir i) /\ table m pgdir i <> pgdir) /\
  (forall i j, present m pgdir i -> present m pgdir j ->
     table m pgdir i = table m pgdir j -> i = j).

(** The frames the page table itself occupies. *)
Definition pt_page (m : mem) (pgdir q : Z) : Prop :=
  q = pgdir \/ exists i, present m pgdir i /\ q = table m pgdir i.

Definition pte_addr (m : mem) (pgdir va : Z) : option Z :=
  if has (pde_val m pgdir (PDX va)) PTE_P then Some (table m pgdir (PDX va) + 4 * PTX va) else None.

(** The entry of the page of [va]: 0 when its table does not exist. *)
Definition pte_val (m : mem) (pgdir va : Z) : Z :=
  match pte_addr m pgdir va with Some a => ld32 m a | None => 0 end.

(** A page table together with an allocator whose free pages it does not use. *)
Definition vm_wf (s : kmem) (pgdir : Z) (l : list Z) : Prop :=
  kmem_wf s l /\ pt_wf (km_mem s) pgdir /\ (forall q, q ∈ l -> ~ pt_page (km_mem s) pgdir q).

(** Two memories that agree on the pages in [P]. *)
Definition same_on (P : Z -> Prop) (m m' : mem) : Prop :=
  forall q x, P q -> q <= x < q + 4096 -> ld8 m' x = ld8 m x.

(** ** Elementary facts *)

Lemma page_word_in p i x : p mod 4096 = 0 -> 0 <= i < 1024 ->
  p + 4 * i <= x < p + 4 * i + 4 -> p <= x < p + 4096.
Proof. lia. Qed.

Lemma pte_addr_range m pgdir va a : pte_addr m pgdir va = Some a ->
  exists t, t = table m pgdir (PDX va) /\ present m pgdir (PDX va) /\ a = t + 4 * PTX va.
Proof.
  unfold pte_addr, present. pose proof (PDX_range va).
  destruct (has _ _) eqn:E; intros; simplify_eq. eexists; split; [done|]. split; done.
Qed.

Lemma pte_val_range m pgdir va : 0 <= pte_val m pgdir va < 2 ^ 32.
Proof. unfold pte_val. destruct (pte_addr _ _ _); [apply ld32_range|lia]. Qed.

(** The entry address depends on the page only. *)
Lemma PDX_PTX_page va va' : 0 <= va < 2 ^ 32 -> 0 <= va' < 2 ^ 32 ->
  va / 4096 = va' / 4096 <-> PDX va = PDX va' /\ PTX va = PTX va'.
Proof.
  intros H H'. rewrite !PDX_div, !PTX_div by done.
  change (2 ^ 22) with (4096 * 1024). rewrite <- !Z.div_div by lia.
  change (2 ^ 12) with 4096. change (2 ^ 10) with 1024. split.
  - by intros ->.
  - intros [H1 H2]. rewrite (Z.div_mod (va / 4096) 1024), (Z.div_mod (va' / 4096) 1024) by lia.
    by rewrite H1, H2.
Qed.

Lemma walkpgdir_noalloc pgdir va s :
  walkpgdir pgdir va false s =
    Ret (match pte_addr (km_mem s) pgdir va with Some a => a | None => 0 end) s.
Proof.
  unfold walkpgdir, pte_addr, table, pde_val, bind, gets, ret. simpl. by destruct (has _ _).
Qed.

Lemma walkpgdir_present pgdir va alloc s a :
  pte_addr (km_mem s) pgdir va = Some a -> walkpgdir pgdir va alloc s = Ret a s.
Proof.
  unfold walkpgdir, pte_addr, table, pde_val, bind, gets, ret. simpl.
  destruct (has _ _); [|done]. by intros [= <-].
Qed.

Lemma pt_page_kpage m pgdir q : pt_wf m pgdir -> pt_page m pgdir q -> kpage q.
Proof. intros (H1 & H2 & _) [->|(i & Hi & ->)]; [done|by apply H2]. Qed.

Lemma pte_addr_nonzero m pgdir va a :
  pt_wf m pgdir -> pte_addr m pgdir va = Some a -> a <> 0 /\ KERNBASE < a.
Proof.
  intros (_ & H2 & _) Ha. apply pte_addr_range in Ha as (t & -> & Hp & ->).
  destruct (H2 _ Hp) as [Hk _]. apply kpage_pos in Hk. pose proof (PTX_range va).
  unfold KERNBASE in *. lia.
Qed.

(** ** Framing: a memory that agrees on the page-table pages *)

Section frame.
Variables (m m' : mem) (pgdir : Z).
Hypothesis Hwf : pt_wf m pgdir.
Hypothesis Hsame : same_on (pt_page m pgdir) m m'.

Lemma pde_val_frame i : 0 <= i < 1024 -> pde_val m' pgdir i = pde_val m pgdir i.
Proof.
  intros Hi. apply ld32_ext. intros x Hx. apply (Hsame pgdir); [by left|lia].
Qed.

Lemma table_frame i : 0 <= i < 1024 -> table m' pgdir i = table m pgdir i.
Proof. intros Hi. unfold table. by rewrite pde_val_frame. Qed.

Lemma present_frame i : present m' pgdir i <-> present m pgdir i.
Proof.
  unfold present. split; intros [Hi Hp]; (split; [done|]).
  - by rewrite pde_val_frame in Hp.
  - by rewrite pde_val_frame.
Qed.

Lemma pt_wf_frame : pt_wf m' pgdir.
Proof.
  destruct Hwf as (H1 & H2 & H3). split; [done|]. split.
  - intros i Hi%present_frame. rewrite table_frame by apply Hi. by apply H2.
  - intros i j Hi%present_frame Hj%present_frame.
    rewrite !table_frame by (apply Hi || apply Hj). by apply H3.
Qed.

Lemma pt_page_frame q : pt_page m' pgdir q <-> pt_page m pgdir q.
Proof.
  unfold pt_page. split; (intros [->|(i & Hi & ->)]; [by left|right]); exists i.
  - apply present_frame in Hi. split; [done|]. rewrite table_frame; [done|apply Hi].
  - split; [by apply present_frame|]. rewrite table_frame; [done|apply Hi].
Qed.

Lemma pte_addr_frame va : pte_addr m' pgdir va = pte_addr m pgdir va.
Proof.
  unfold pte_addr. pose proof (PDX_range va). by rewrite pde_val_frame, table_frame.
Qed.

Lemma pte_val_frame va : pte_val m' pgdir va = pte_val m pgdir va.
Proof.
  unfold pte_val. rewrite pte_addr_frame. destruct (pte_addr m pgdir va) as [a|] eqn:E; [|done].
  apply pte_addr_range in E as (t & Ht & Hp & ->). apply ld32_ext. intros x Hx.
  pose proof (PTX_range va). apply (Hsame t); [|lia]. right. by exists (PDX va).
Qed.
End frame.

(** ** Writing one entry *)

Section write.
Variables (m : mem) (pgdir va a v : Z).
Hypothesis Hwf : pt_wf m pgdir.
Hypothesis Ha : pte_addr m pgdir va = Some a.

Lemma pte_page : kpage (table m pgdir (PDX va)) /\ table m pgdir (PDX va) <> pgdir /\
  present m pgdir (PDX va) /\ a = table m pgdir (PDX va) + 4 * PTX va.
Proof.
  destruct Hwf as (_ & H2 & _). apply pte_addr_range in Ha as (t & -> & Hp & ->).
  destruct (H2 _ Hp). done.
Qed.

Lemma pde_val_write i : 0 <= i < 1024 -> pde_val (st32 m a v) pgdir i = pde_val m pgdir i.
Proof.
  intros Hi. destruct pte_page as (Hk & Hne & _ & ->). apply ld32_st32_ne.
  destruct Hwf as (Hk' & _). pose proof (PTX_range va).
  destruct Hk as [Hk _], Hk' as [Hk' _].
  destruct (pages_disjoint _ _ Hk Hk' Hne); lia.
Qed.

Lemma table_write i : 0 <= i < 1024 -> table (st32 m a v) pgdir i = table m pgdir i.
Proof. intros Hi. unfold table. by rewrite pde_val_write. Qed.

Lemma present_write i : present (st32 m a v) pgdir i <-> present m pgdir i.
Proof. unfold present. split; intros [Hi Hp]; (split; [done|]); by rewrite pde_val_write in *. Qed.

Lemma pt_wf_write : pt_wf (st32 m a v) pgdir.
Proof.
  destruct Hwf as (H1 & H2 & H3). split; [done|]. split.
  - intros i Hi%present_write. rewrite table_write by apply Hi. by apply H2.
  - intros i j Hi%present_write Hj%present_write.
    rewrite !table_write by (apply Hi || apply Hj). by apply H3.
Qed.

Lemma pt_page_write q : pt_page (st32 m a v) pgdir q <-> pt_page m pgdir q.
Proof.
  unfold pt_page. split; (intros [->|(i & Hi & ->)]; [by left|right]); exists i.
  - apply present_write in Hi. split; [done|]. rewrite table_write; [done|apply Hi].
  - split; [by apply present_write|]. rewrite table_write; [done|apply Hi].
Qed.

Lemma pte_addr_write va' : pte_addr (st32 m a v) pgdir va' = pte_addr m pgdir va'.
Proof. unfold pte_addr. pose proof (PDX_range va'). by rewrite pde_val_write, table_write. Qed.

Lemma pte_val_write_eq va' :
  0 <= va < 2 ^ 32 -> 0 <= va' < 2 ^ 32 -> va' / 4096 = va / 4096 ->
  pte_val (st32 m a v) pgdir va' = u32 v.
Proof.
  intros Hva Hva' [Hd Ht]%PDX_PTX_page; [|done..].
  unfold pte_val. rewrite pte_addr_write.
  assert (pte_addr m pgdir va' = Some a) as ->.
  { rewrite <- Ha. unfold pte_addr. by rewrite Hd, Ht. }
  apply ld32_st32_eq.
Qed.

Lemma pte_val_write_ne va' :
  0 <= va < 2 ^ 32 -> 0 <= va' < 2 ^ 32 -> va' / 4096 <> va / 4096 ->
  pte_val (st32 m a v) pgdir va' = pte_val m pgdir va'.
Proof.
  intros Hva Hva' Hne. unfold pte_val. rewrite pte_addr_write.
  destruct (pte_addr m pgdir va') as [b|] eqn:Hb; [|done].
  destruct pte_page as ([Hk _] & _ & Hp & ->). destruct Hwf as (_ & H2 & H3).
  apply pte_addr_range in Hb as (t & -> & Hp' & ->). destruct (H2 _ Hp') as [[Hk' _] _].
  pose proof (PTX_range va). pose proof (PTX_range va'). apply ld32_st32_ne.
  destruct (Z.eq_dec (PDX va') (PDX va)) as [Hd|Hd].
  - rewrite Hd. assert (PTX va' <> PTX va); [|lia].
    intros Ht. apply Hne. by apply PDX_PTX_page.
  - assert (table m pgdir (PDX va) <> table m pgdir (PDX va')) as Hnt.
    { intros E. apply Hd. symmetry. by apply H3. }
    destruct (pages_disjoint _ _ Hk Hk' Hnt); lia.
Qed.

(** The entry lies in a page-table page, so nothing outside those changes. *)
Lemma ld8_pte_write q x : ~ pt_page m pgdir q -> q mod 4096 = 0 -> q <= x < q + 4096 ->
  ld8 (st32 m a v) x = ld8 m x.
Proof.
  intros Hq Hqm Hx. destruct pte_page as ([Hk _] & _ & Hp & ->). pose proof (PTX_range va).
  apply ld8_st32_out.
  assert (table m pgdir (PDX va) <> q) as Hne.
  { intros <-. apply Hq. right. by exists (PDX va). }
  destruct (pages_disjoint _ _ Hk Hqm Hne); lia.
Qed.

Lemma free_chain_pte_write hd l :
  free_chain m hd l -> (forall q, q ∈ l -> ~ pt_page m pgdir q) -> free_chain (st32 m a v) hd l.
Proof.
  intros Hc Hl. eapply free_chain_ext; [|exact Hc]. intros p x Hp Hx.
  apply (ld8_pte_write p); [by apply Hl| |lia].
  by destruct (free_chain_kpage _ _ _ _ Hc Hp).
Qed.
End write.

Lemma vm_wf_write s pgdir l va a v :
  vm_wf s pgdir l -> pte_addr (km_mem s) pgdir va = Some a ->
  vm_wf (set_km_mem (st32 (km_mem s) a v) s) pgdir l.
Proof.
  intros ((Hc & Hnd & Hlk) & Hpt & Hdis) Ha. split; [|split].
  - split; [|done]. by eapply free_chain_pte_write.
  - by eapply pt_wf_write.
  - intros q Hq. simpl. rewrite pt_page_write by done. by apply Hdis.
Qed.

(** ** walkpgdir with allocation *)

(** The memory after a new table [t] has been entered for directory slot [i]. *)
Definition add_table_mem (m : mem) (pgdir i t : Z) : mem :=
  st32 (memset m t 0 PGSIZE) (pgdir + 4 * i) (Z.lor (Z.lor (Z.lor (V2P t) PTE_P) PTE_W) PTE_U).

Lemma pde_flags t : kpage t ->
  let e := Z.lor (Z.lor (Z.lor (V2P t) PTE_P) PTE_W) PTE_U in
  0 <= e < 2 ^ 32 /\ e = V2P t + 7 /\ has e PTE_P = true /\ P2V (PTE_ADDR e) = t.
Proof.
  intros Hk e. destruct (kpage_pos _ Hk) as (Hlo & Hhi & Hm). destruct Hk as (Hal & _).
  unfold KERNBASE, PHYSTOP in *.
  assert (V2P t = t - KERNBASE) as HV.
  { unfold V2P, KERNBASE. rewrite (u32_small t) by lia. apply u32_small. lia. }
  assert (V2P t mod 4096 = 0) as HVm.
  { rewrite HV. unfold KERNBASE. rewrite Zminus_mod, Hal. done. }
  assert (e = V2P t + 7) as He.
  { unfold e. rewrite <- !Z.lor_assoc. change (Z.lor PTE_P (Z.lor PTE_W PTE_U)) with 7.
    apply (lor_disjoint_add _ _ 12); [lia|done|lia]. }
  assert (0 <= e < 2 ^ 32) as Hr. { rewrite He, HV. unfold KERNBASE. lia. }
  split; [done|]. split; [done|]. split.
  - unfold has, e. apply negb_true_iff, Z.eqb_neq. intros E.
    assert (Z.testbit (Z.land (Z.lor (Z.lor (Z.lor (V2P t) PTE_P) PTE_W) PTE_U) PTE_P) 0 = true) as Hb.
    { rewrite Z.land_spec, !Z.lor_spec. simpl. by rewrite orb_true_r. }
    by rewrite E in Hb.
  - rewrite PTE_ADDR_div by done. rewrite He.
    replace ((V2P t + 7) / 4096 * 4096) with (V2P t) by (Z.to_euclidean_division_equations; lia).
    apply P2V_V2P. unfold KERNBASE. lia.
Qed.

Section add_table.
Variables (m : mem) (pgdir i t : Z).
Hypothesis Hwf : pt_wf m pgdir.
Hypothesis Hi : 0 <= i < 1024.
Hypothesis Habs : has (pde_val m pgdir i) PTE_P = false.
Hypothesis Ht : kpage t.
Hypothesis Hfresh : ~ pt_page m pgdir t.

Let m' := add_table_mem m pgdir i t.

Lemma ld8_add_table_out x :
  ~ (pgdir + 4 * i <= x < pgdir + 4 * i + 4) -> ~ (t <= x < t + 4096) -> ld8 m' x = ld8 m x.
Proof.
  intros H1 H2. unfold m', add_table_mem. rewrite ld8_st32_out by lia.
  rewrite ld8_memset by done. unfold PGSIZE. zcase.
Qed.

Lemma add_table_ne : t <> pgdir.
Proof. intros ->. apply Hfresh. by left. Qed.

Lemma pde_val_add_eq : pde_val m' pgdir i = V2P t + 7.
Proof.
  unfold pde_val, m', add_table_mem. rewrite ld32_st32_eq.
  destruct (pde_flags t Ht) as (Hr & He & _). rewrite u32_small by done. done.
Qed.

Lemma pde_val_add_ne j : 0 <= j < 1024 -> j <> i -> pde_val m' pgdir j = pde_val m pgdir j.
Proof.
  intros Hj Hne. apply ld32_ext. intros x Hx. apply ld8_add_table_out; [lia|].
  destruct Hwf as ([Hk _] & _), Ht as [Hk' _].
  destruct (pages_disjoint _ _ Hk Hk' (not_eq_sym add_table_ne)); lia.
Qed.

Lemma table_add_eq : table m' pgdir i = t.
Proof.
  unfold table. rewrite pde_val_add_eq. destruct (pde_flags t Ht) as (_ & He & _ & Hp).
  by rewrite <- He.
Qed.

Lemma present_add j : present m' pgdir j <-> j = i \/ present m pgdir j.
Proof.
  unfold present. destruct (Z.eq_dec j i) as [->|Hne].
  - rewrite pde_val_add_eq. destruct (pde_flags t Ht) as (_ & He & Hp & _).
    rewrite <- He. tauto.
  - split.
    + intros [Hj Hp]. right. by rewrite pde_val_add_ne in Hp.
    + intros [->|[Hj Hp]]; [done|]. by rewrite pde_val_add_ne.
Qed.

Lemma table_add_ne j : 0 <= j < 1024 -> j <> i -> table m' pgdir j = table m pgdir j.
Proof. intros Hj Hne. unfold table. by rewrite pde_val_add_ne. Qed.

Lemma pt_wf_add : pt_wf m' pgdir.
Proof.
  destruct Hwf as (H1 & H2 & H3). split; [done|].
  assert (forall j, present m' pgdir j -> j <> i ->
    table m' pgdir j = table m pgdir j /\ present m pgdir j) as Hold.
  { intros j Hj Hne. pose proof (proj1 Hj). apply present_add in Hj as [->|Hj]; [done|].
    by rewrite table_add_ne. }
  assert (forall j, present m' pgdir j -> j <> i -> table m' pgdir j <> t) as Hnt.
  { intros j Hj Hne E. destruct (Hold j Hj Hne) as [Et Hp]. apply Hfresh. right.
    exists j. split; [done|]. by rewrite <- E, Et. }
  split.
  - intros j Hj. destruct (Z.eq_dec j i) as [->|Hne].
    + rewrite table_add_eq. split; [done|apply add_table_ne].
    + destruct (Hold j Hj Hne) as [-> Hp]. by apply H2.
  - intros j k Hj Hk E. destruct (Z.eq_dec j i) as [->|Hne], (Z.eq_dec k i) as [->|Hne']; [done|..].
    + rewrite table_add_eq in E. by destruct (Hnt k Hk Hne').
    + rewrite table_add_eq in E. by destruct (Hnt j Hj Hne).
    + destruct (Hold j Hj Hne) as [Ej Hpj], (Hold k Hk Hne') as [Ek Hpk].
      apply H3; [done..|]. by rewrite <- Ej, <- Ek.
Qed.

Lemma pt_page_add q : pt_page m' pgdir q <-> q = t \/ pt_page m pgdir q.
Proof.
  unfold pt_page. split.
  - intros [->|(j & Hj & ->)]; [tauto|]. pose proof (proj1 Hj).
    destruct (Z.eq_dec j i) as [->|Hne]; [left; apply table_add_eq|right; right].
    apply present_add in Hj as [->|Hj]; [done|]. exists j. by rewrite table_add_ne.
  - intros [->|[->|(j & Hj & ->)]]; [right|by left|right].
    + exists i. split; [apply present_add; by left|]. by rewrite table_add_eq.
    + assert (j <> i). { intros ->. destruct Hj as [_ Hj]. congruence. }
      exists j. split; [apply present_add; by right|]. rewrite table_add_ne; [done|apply Hj|done].
Qed.

(** The new table is empty, so the view of the page table does not change. *)
Lemma pte_val_add va : pte_val m' pgdir va = pte_val m pgdir va.
Proof.
  unfold pte_val, pte_addr. pose proof (PDX_range va). pose proof (PTX_range va).
  destruct (Z.eq_dec (PDX va) i) as [Hd|Hd].
  - rewrite Hd, Habs, pde_val_add_eq, table_add_eq.
    destruct (pde_flags t Ht) as (_ & He & Hp & _). rewrite <- He, Hp.
    assert (forall x, t <= x < t + 4096 -> ld8 m' x = 0) as Hz.
    { intros x Hx. unfold m', add_table_mem. rewrite ld8_st32_out.
      - rewrite ld8_memset by done. unfold PGSIZE. zcase.
      - destruct Hwf as ([Hk _] & _), Ht as [Hk' _].
        destruct (pages_disjoint _ _ Hk Hk' (not_eq_sym add_table_ne)); lia. }
    unfold ld32. rewrite !Hz by lia. done.
  - rewrite pde_val_add_ne, table_add_ne by done.
    destruct (has (pde_val m pgdir (PDX va)) PTE_P) eqn:E; [|reflexivity].
    apply ld32_ext. intros x Hx. assert (present m pgdir (PDX va)) as Hp by done.
    destruct Hwf as ([Hk _] & H2 & _). destruct (H2 _ Hp) as [[Hk1 _] Hne1]. destruct Ht as [Hk2 _].
    assert (table m pgdir (PDX va) <> t) as Hne2.
    { intros E'. apply Hfresh. right. exists (PDX va). split; [exact Hp|by symmetry]. }
    apply ld8_add_table_out.
    + destruct (pages_disjoint _ _ Hk1 Hk Hne1); lia.
    + destruct (pages_disjoint _ _ Hk1 Hk2 Hne2); lia.
Qed.

End add_table.

(** ** What walkpgdir and mappages do to the view *)

(** From [s] to [s'], nothing changed outside the free pages [l] and the page-table pages of
    [pgdir], and the free list shrank to its suffix [l']. *)
Definition vm_grow (pgdir : Z) (s : kmem) (l : list Z) (s' : kmem) (l' : list Z) : Prop :=
  vm_wf s' pgdir l' /\
  (exists taken, l = taken ++ l' /\
     forall q, pt_page (km_mem s') pgdir q <-> q ∈ taken \/ pt_page (km_mem s) pgdir q) /\
  (forall q x, q mod 4096 = 0 -> (q ∉ l) -> ~ pt_page (km_mem s) pgdir q -> q <= x < q + 4096 ->
     ld8 (km_mem s') x = ld8 (km_mem s) x).

Lemma vm_grow_refl pgdir s l : vm_wf s pgdir l -> vm_grow pgdir s l s l.
Proof.
  intros Hwf. split; [done|]. split; [|done]. exists []. split; [done|]. intros q. split; [tauto|].
  intros [Hq|Hq]; [by apply not_elem_of_nil in Hq|done].
Qed.

Lemma vm_grow_trans pgdir s l s1 l1 s2 l2 :
  vm_grow pgdir s l s1 l1 -> vm_grow pgdir s1 l1 s2 l2 -> vm_grow pgdir s l s2 l2.
Proof.
  intros (Hwf1 & (tk1 & -> & Hp1) & Hf1) (Hwf2 & (tk2 & -> & Hp2) & Hf2).
  split; [done|]. split.
  - exists (tk1 ++ tk2). split; [by rewrite app_assoc|]. intros q. rewrite Hp2, Hp1, elem_of_app. tauto.
  - intros q x Hm Hnin Hnp Hx. rewrite !elem_of_app in Hnin. rewrite (Hf2 q); [|done| |  |done].
    + apply (Hf1 q); [done| |done|done]. rewrite !elem_of_app. tauto.
    + rewrite elem_of_app. tauto.
    + rewrite Hp1. tauto.
Qed.

Lemma vm_grow_write pgdir s l va a v :
  vm_wf s pgdir l -> pte_addr (km_mem s) pgdir va = Some a ->
  vm_grow pgdir s l (set_km_mem (st32 (km_mem s) a v) s) l.
Proof.
  intros Hwf Ha. split; [by eapply vm_wf_write|]. destruct Hwf as (_ & Hpt & _). split.
  - exists []. split; [done|]. intros q. simpl. rewrite pt_page_write by done.
    split; [tauto|]. intros [Hq|Hq]; [by apply not_elem_of_nil in Hq|done].
  - intros q x Hm _ Hnp Hx. simpl. by eapply ld8_pte_write.
Qed.

Lemma walkpgdir_alloc pgdir va s l :
  vm_wf s pgdir l ->
  exists r s' l', walkpgdir pgdir va true s = Ret r s' /\ vm_grow pgdir s l s' l' /\
    (forall va', pte_val (km_mem s') pgdir va' = pte_val (km_mem s) pgdir va') /\
    (length l <= S (length l'))%nat /\
    (r = 0 /\ l = [] /\ l' = [] /\ pte_addr (km_mem s) pgdir va = None \/
     r <> 0 /\ pte_addr (km_mem s') pgdir va = Some r).
Proof.
  intros Hwf. pose proof Hwf as (Hkm & Hpt & Hdis).
  destruct (pte_addr (km_mem s) pgdir va) as [a|] eqn:Ha.
  { exists a, s, l. split; [by apply walkpgdir_present|]. split; [by apply vm_grow_refl|].
    split; [done|]. split; [lia|]. right. split; [|done]. by eapply pte_addr_nonzero. }
  assert (has (pde_val (km_mem s) pgdir (PDX va)) PTE_P = false) as Habs.
  { unfold pte_addr in Ha. by destruct (has _ _). }
  pose proof (PDX_range va). unfold walkpgdir, bind, gets. fold (pde_val (km_mem s) pgdir (PDX va)).
  rewrite Habs. simpl. destruct l as [|t l].
  - destruct (kalloc_nil s Hkm) as [E Hkm']. rewrite E. simpl.
    eexists 0, _, []. split; [done|]. split; [|split; [done|split; [simpl; lia|tauto]]]. split; [done|]. split; [|done].
    exists []. split; [done|]. intros q. simpl. split; [tauto|].
    intros [Hq|Hq]; [by apply not_elem_of_nil in Hq|done].
  - destruct (kalloc_cons s t l Hkm) as (E & Hkm' & Ht & Htl). rewrite E.
    destruct (kpage_pos _ Ht) as (? & ? & ?). unfold KERNBASE in *.
    rewrite (proj2 (Z.eqb_neq t 0)) by lia. unfold modify. simpl.
    assert (~ pt_page (km_mem s) pgdir t) as Hfresh by (apply Hdis; constructor).
    fold (add_table_mem (km_mem s) pgdir (PDX va) t).
    eexists (t + 4 * PTX va), _, l. split; [done|]. simpl. split; [split; [split; [|split]|split]|split; [|split; [lia|]]].
    + destruct Hkm' as (Hc & Hnd & Hlk). split; [|done]. simpl in *.
      eapply free_chain_ext; [|exact Hc]. intros p x Hp Hx.
      pose proof (free_chain_kpage _ _ _ _ Hc Hp) as [Hkp _].
      destruct Hpt as ([Hkd _] & _). apply ld8_add_table_out.
      * assert (p <> pgdir) as Hne. { intros ->. apply (Hdis pgdir); [by constructor|by left]. }
        destruct (pages_disjoint _ _ Hkp Hkd Hne); lia.
      * assert (p <> t) as Hne by (by intros ->). destruct Ht as [Hkt _].
        destruct (pages_disjoint _ _ Hkp Hkt Hne); lia.
    + by apply pt_wf_add.
    + intros q Hq. simpl. rewrite pt_page_add by done. intros [->|Hp]; [done|].
      apply (Hdis q); [by constructor|done].
    + exists [t]. split; [done|]. intros q. simpl. rewrite pt_page_add by done.
      by rewrite list_elem_of_singleton.
    + intros q x Hm Hnin Hnp Hx. apply not_elem_of_cons in Hnin as [Hqt _].
      destruct Hpt as ([Hkd _] & _), Ht as [Hkt _]. apply ld8_add_table_out.
      * assert (q <> pgdir) as Hne by (intros ->; apply Hnp; by left).
        destruct (pages_disjoint _ _ Hm Hkd Hne); lia.
      * destruct (pages_disjoint _ _ Hm Hkt Hqt); lia.
    + intros va'. by apply pte_val_add.
    + right. pose proof (PTX_range va). split; [lia|]. unfold pte_addr.
      rewrite pde_val_add_eq, table_add_eq by done.
      destruct (pde_flags t Ht) as (_ & He & Hp & _). by rewrite <- He, Hp.
Qed.

(** The entry mappages writes for the [k]-th page of the range. *)
Definition map_entry (pa perm k : Z) : Z := u32 (Z.lor (Z.lor (u32 (pa + 4096 * k)) perm) PTE_P).

Lemma map_entry_shift pa perm k : map_entry (u32 (pa + 4096)) perm k = map_entry pa perm (k + 1).
Proof.
  unfold map_entry. do 3 f_equal. unfold u32. rewrite Zplus_mod_idemp_l. f_equal. lia.
Qed.

(** One iteration: either the free list is exhausted and a table is missing, or the page of
    [a] is mapped and no other entry changes. *)
Lemma mappages_body_spec pgdir last perm a pa s l :
  vm_wf s pgdir l -> 0 <= a < 2 ^ 32 -> 0 <= pa < 2 ^ 32 ->
  has (pte_val (km_mem s) pgdir a) PTE_P = false ->
  exists s' l', vm_grow pgdir s l s' l' /\ (length l <= S (length l'))%nat /\
    (mappages_body pgdir last perm (a, pa) s = Ret (inr (-1)) s' /\ (l = [] /\ l' = []) /\
       (forall va, pte_val (km_mem s') pgdir va = pte_val (km_mem s) pgdir va) \/
     mappages_body pgdir last perm (a, pa) s =
       Ret (if a =? last then inr 0 else inl (u32 (a + PGSIZE), u32 (pa + PGSIZE))) s' /\
       forall va, 0 <= va < 2 ^ 32 -> pte_val (km_mem s') pgdir va =
         if va / 4096 =? a / 4096 then map_entry pa perm 0 else pte_val (km_mem s) pgdir va).
Proof.
  intros Hwf Ha Hpa Hnp.
  destruct (walkpgdir_alloc pgdir a s l Hwf) as (pte & s1 & l1 & E & Hg1 & Hv1 & Hll & Hr).
  destruct Hr as [(-> & -> & -> & _)|[Hne Hpte]].
  { exists s1, []. split; [done|]. split; [done|]. left. split; [|done]. unfold mappages_body, bind. by rewrite E. }
  assert (ld32 (km_mem s1) pte = pte_val (km_mem s1) pgdir a) as Hld by (unfold pte_val; by rewrite Hpte).
  exists (set_km_mem (st32 (km_mem s1) pte (Z.lor (Z.lor pa perm) PTE_P)) s1), l1.
  split; [eapply vm_grow_trans; [exact Hg1|]; eapply vm_grow_write; [apply Hg1|exact Hpte]|].
  split; [done|]. right. split.
  { unfold mappages_body, bind, gets, modify. rewrite E, (proj2 (Z.eqb_neq pte 0)), Hld, Hv1, Hnp by done.
    by destruct (a =? last). }
  intros va Hva. simpl.
  assert (pt_wf (km_mem s1) pgdir) as Hpt1 by apply Hg1.
  destruct (Z.eqb_spec (va / 4096) (a / 4096)).
  - rewrite (pte_val_write_eq _ _ a) by done. unfold map_entry.
    by rewrite Z.mul_0_r, Z.add_0_r, (u32_small pa).
  - rewrite (pte_val_write_ne _ _ a) by done. apply Hv1.
Qed.

Lemma mappages_loop_spec pgdir last perm n fuel a pa s l :
  (n < fuel)%nat -> vm_wf s pgdir l -> a mod 4096 = 0 -> 0 <= a -> last = a + 4096 * Z.of_nat n ->
  last < 2 ^ 32 -> 0 <= pa < 2 ^ 32 ->
  (forall va, a <= va < last + 4096 -> has (pte_val (km_mem s) pgdir va) PTE_P = false) ->
  exists r s' l' j,
    loop fuel (mappages_body pgdir last perm) (a, pa) s = Ret r s' /\
    vm_grow pgdir s l s' l' /\ 0 <= j <= Z.of_nat n + 1 /\
    (r = 0 /\ j = Z.of_nat n + 1 \/ r = -1 /\ l' = []) /\
    forall va, 0 <= va < 2 ^ 32 -> pte_val (km_mem s') pgdir va =
      (if (a <=? va) && (va <? a + 4096 * j) then map_entry pa perm ((va - a) / 4096)
       else pte_val (km_mem s) pgdir va).
Proof.
  revert fuel a pa s l. induction n as [|n IH]; intros fuel a pa s l Hf Hwf Ham Ha0 Hlast Hlh Hpa Hnp;
    (destruct fuel as [|fuel]; [lia|]); cbn [loop]; unfold bind at 1;
    (destruct (mappages_body_spec pgdir last perm a pa s l) as (s1 & l1 & Hg & _ & [(E & [_ ->] & Hv)|[E Hv]]);
      [done|lia|done|apply Hnp; lia| |]); rewrite E.
  1,3: exists (-1), s1, [], 0; split; [done|]; split; [done|]; split; [lia|]; split; [by right|];
    intros va Hva; rewrite Hv; zcase.
  - rewrite (proj2 (Z.eqb_eq a _)) by lia.
    exists 0, s1, l1, 1. split; [done|]. split; [done|]. split; [lia|]. split; [left; lia|].
    intros va Hva. rewrite Hv by done. destruct (Z.eqb_spec (va / 4096) (a / 4096)) as [Hp|Hp].
    + assert (a <= va < a + 4096) by (Z.to_euclidean_division_equations; lia).
      rewrite (Z.div_small (va - a)) by lia. zcase.
    + assert (~ (a <= va < a + 4096)) by (Z.to_euclidean_division_equations; lia). zcase.
  - rewrite (proj2 (Z.eqb_neq a _)) by lia. change PGSIZE with 4096. rewrite (u32_small (a + 4096)) by lia.
    destruct (IH fuel (a + 4096) (u32 (pa + 4096)) s1 l1) as (r & s3 & l3 & j & E3 & Hg3 & Hj & Hr & Hv3);
      [lia|apply Hg|rewrite <- (Z.mul_1_l 4096) at 1; by rewrite Z_mod_plus_full|lia|lia|done|
       apply u32_range| |].
    { intros va Hva. destruct (Z_lt_le_dec va (2 ^ 32)).
      - rewrite Hv by lia. destruct (Z.eqb_spec (va / 4096) (a / 4096)).
        + exfalso. Z.to_euclidean_division_equations; lia.
        + apply Hnp; lia.
      - exfalso. Z.to_euclidean_division_equations; lia. }
    exists r, s3, l3, (j + 1). split; [exact E3|]. split; [by eapply vm_grow_trans|].
    split; [lia|]. split; [destruct Hr; [left; lia|by right]|]. intros va Hva. rewrite Hv3, Hv, map_entry_shift by done.
    destruct (Z.eqb_spec (va / 4096) (a / 4096)) as [Hp|Hp].
    + assert (a <= va < a + 4096) by (Z.to_euclidean_division_equations; lia).
      rewrite (Z.div_small (va - a)) by lia. zcase.
    + assert (~ (a <= va < a + 4096)) by (Z.to_euclidean_division_equations; lia).
      replace (va - a) with (va - (a + 4096) + 1 * 4096) by lia. rewrite Z.div_add by lia. zcase.
Qed.

Lemma mappages_spec pgdir va size pa perm s l :
  vm_wf s pgdir l -> 0 <= va -> 0 < size -> va + size <= 2 ^ 32 -> 0 <= pa < 2 ^ 32 ->
  let a := va / 4096 * 4096 in
  let last := (va + size - 1) / 4096 * 4096 in
  (forall v, a <= v < last + 4096 -> has (pte_val (km_mem s) pgdir v) PTE_P = false) ->
  exists r s' l' e,
    mappages pgdir va size pa perm s = Ret r s' /\ vm_grow pgdir s l s' l' /\ a <= e <= last + 4096 /\
    (r = 0 /\ e = last + 4096 \/ r = -1 /\ l' = []) /\
    forall v, 0 <= v < 2 ^ 32 -> pte_val (km_mem s') pgdir v =
      (if (a <=? v) && (v <? e) then map_entry pa perm ((v - a) / 4096)
       else pte_val (km_mem s) pgdir v).
Proof.
  intros Hwf Hva Hsz Hend Hpa a last Hnp. unfold mappages.
  rewrite (u32_small (va + size - 1)), !PGROUNDDOWN_div by lia. fold a last.
  assert (a mod 4096 = 0 /\ last mod 4096 = 0) as [Ham Hlm] by (split; apply Z.mod_mul; lia).
  assert (0 <= a <= last /\ last < 2 ^ 32) as [Hal Hlh].
  { unfold a, last. Z.to_euclidean_division_equations; lia. }
  assert (last = a + 4096 * Z.of_nat (Z.to_nat ((last - a) / 4096))) as Hlast.
  { rewrite Z2Nat.id by (apply Z.div_pos; lia). rewrite <- Z_div_exact_full_2; [lia|lia|].
    by rewrite Zminus_mod, Hlm, Ham. }
  destruct (mappages_loop_spec pgdir last perm (Z.to_nat ((last - a) / 4096))
    (S (Z.to_nat (u32 (last - a) / PGSIZE))) a pa s l) as (r & s' & l' & j & E & Hg & Hj & Hr & Hv);
    [rewrite u32_small by lia; unfold PGSIZE; lia|done|done|lia|done|done|done|done|].
  exists r, s', l', (a + 4096 * j). split; [exact E|]. split; [done|]. split; [lia|].
  split; [|done]. destruct Hr as [[-> ->]|[-> ->]]; [left|right]; split; (done || lia).
Qed.

(** One page, with a frame left for a page table. *)
Lemma mappages_one pgdir a pa perm s l :
  vm_wf s pgdir l -> l <> [] -> a mod 4096 = 0 -> 0 <= a -> a + 4096 <= 2 ^ 32 -> 0 <= pa < 2 ^ 32 ->
  has (pte_val (km_mem s) pgdir a) PTE_P = false ->
  exists s' l', mappages pgdir a PGSIZE pa perm s = Ret 0 s' /\ vm_grow pgdir s l s' l' /\
    (length l <= S (length l'))%nat /\
    forall v, 0 <= v < 2 ^ 32 -> pte_val (km_mem s') pgdir v =
      if v / 4096 =? a / 4096 then map_entry pa perm 0 else pte_val (km_mem s) pgdir v.
Proof.
  intros Hwf Hl Hm Ha Hhi Hpa Hnp. unfold mappages, PGSIZE.
  rewrite (u32_small (a + 4096 - 1)), !PGROUNDDOWN_div by lia.
  assert (a / 4096 * 4096 = a) as Ea by (Z.to_euclidean_division_equations; lia).
  assert ((a + 4096 - 1) / 4096 * 4096 = a) as -> by (Z.to_euclidean_division_equations; lia). rewrite Ea.
  replace ((a - a) / 4096) with 0 by (by rewrite Z.sub_diag). cbn [Z.to_nat loop]. unfold bind.
  destruct (mappages_body_spec pgdir a perm a pa s l) as (s' & l' & Hg & Hll & [(_ & [? _] & _)|[E Hv]]);
    [done|lia|done|done|done|]. rewrite E, Z.eqb_refl. by exists s', l'.
Qed.

(** Mapping over a present entry is refused. *)
Lemma mappages_remap pgdir va size pa perm s a :
  pte_addr (km_mem s) pgdir (PGROUNDDOWN va) = Some a -> a <> 0 ->
  has (pte_val (km_mem s) pgdir (PGROUNDDOWN va)) PTE_P = true ->
  mappages pgdir va size pa perm s = Panic "remap" s.
Proof.
  intros Ha Hne Hp. unfold mappages. cbn [loop]. unfold bind at 1, mappages_body, bind at 1.
  rewrite (walkpgdir_present _ _ _ _ _ Ha), (proj2 (Z.eqb_neq a 0)) by done.
  unfold pte_val in Hp. rewrite Ha in Hp. unfold bind, gets. by rewrite Hp.
Qed.

End vm.

(** ** Theorems *)

(** C17: mappages maps exactly its range.  With no page of the range mapped before, it returns 0
    with the k-th page of the range mapped to pa + k*PGSIZE with the given permissions and PTE_P,
    or -1 when a page table could not be allocated (then the free list is empty and a prefix of
    the range is mapped); every other virtual page keeps its entry, the page-table structure stays
    well formed, and no memory outside free and page-table pages changes. *)
Theorem mappages_correct `{Image} pgdir va size pa perm s l :
  vm_wf s pgdir l -> 0 <= va -> 0 < size -> va + size <= 2 ^ 32 -> 0 <= pa < 2 ^ 32 ->
  let a := va / 4096 * 4096 in
  let last := (va + size - 1) / 4096 * 4096 in
  (forall v, a <= v < last + 4096 -> has (pte_val (km_mem s) pgdir v) PTE_P = false) ->
  exists r s' l' e,
    mappages pgdir va size pa perm s = Ret r s' /\ vm_grow pgdir s l s' l' /\ a <= e <= last + 4096 /\
    (r = 0 /\ e = last + 4096 \/ r = -1 /\ l' = []) /\
    forall v, 0 <= v < 2 ^ 32 -> pte_val (km_mem s') pgdir v =
      (if (a <=? v) && (v <? e) then map_entry pa perm ((v - a) / 4096)
       else pte_val (km_mem s) pgdir v).
Proof. apply mappages_spec. Qed.

(** A page directory with no tables, and two free pages. *)
Definition demo_vm : kmem :=
  mkKmem (st32 (st32 (fun _ => 0) 0x80200000 0x80201000) 0x80201000 0) true false 0x80200000 2 2.

Lemma demo_vm_wf : @vm_wf demo_image demo_vm 0x80300000 [0x80200000; 0x80201000].
Proof.
  assert (forall i, 0 <= i < 1024 -> pde_val (km_mem demo_vm) 0x80300000 i = 0) as Hz.
  { intros i Hi. unfold pde_val. simpl. rewrite !ld32_st32_ne by lia. done. }
  assert (forall i, ~ present (km_mem demo_vm) 0x80300000 i) as Hnp.
  { intros i [Hi Hp]. by rewrite Hz in Hp. }
  split; [apply demo_kmem_wf|]. split; [split; [|split]|].
  - repeat split; unfold kend, KERNBASE, PHYSTOP; simpl; lia.
  - intros i Hi. by destruct (Hnp i).
  - intros i j Hi. by destruct (Hnp i).
  - intros q Hq [->|(i & Hi & _)]; [|by destruct (Hnp i)]. set_solver by lia.
Qed.

Lemma mappages_correct_witness :
  exists r s' l' e,
    @mappages 0x80300000 0x1000 0x2000 0x5000 6 demo_vm = Ret r s' /\
    @vm_grow demo_image 0x80300000 demo_vm [0x80200000; 0x80201000] s' l' /\ 0x1000 <= e <= 0x3000 /\
    (r = 0 /\ e = 0x3000 \/ r = -1 /\ l' = []) /\
    forall v, 0 <= v < 2 ^ 32 -> pte_val (km_mem s') 0x80300000 v =
      (if (0x1000 <=? v) && (v <? e) then map_entry 0x5000 6 ((v - 0x1000) / 4096)
       else pte_val (km_mem demo_vm) 0x80300000 v).
Proof.
  apply (@mappages_correct demo_image 0x80300000 0x1000 0x2000 0x5000 6 demo_vm
    [0x80200000; 0x80201000]); try lia.
  - apply demo_vm_wf.
  - intros v Hv. unfold pte_val, pte_addr. pose proof (PDX_range v).
    assert (pde_val (km_mem demo_vm) 0x80300000 (PDX v) = 0) as ->.
    { unfold pde_val. simpl. rewrite !ld32_st32_ne by lia. done. }
    done.
Defined.
