(* ===== verification/Spinlock.v ===== *)
(** * Spin locks (src/spinlock.c; mycpu of src/proc.c)

    The state is shared by several processors: the interrupt flag of each one (by its local APIC
    id), the array [cpus], and an array of spin locks.  Operations take the APIC id of the
    processor that runs them.  [acquire] and [release] are also split at their writes to the lock
    ([acquire_begin], [acquire_try], [acquire_end], [release_begin], [release_end]); the step
    relation interleaves these pieces, and its invariant gives mutual exclusion. *)
From Stdlib Require Import ZArith Lia.
From stdpp Require Import base list numbers strings sets relations.
From S2P Require Import Prelude Mmu Mem.
Local Open Scope Z_scope.

(** The fields of struct cpu that this file uses. *)
Record cpu := mkCpu {
  c_apicid : Z;
  c_ncli : Z;  (* depth of pushcli nesting *)
  c_intena : bool }.  (* were interrupts enabled before pushcli? *)

Record spinlock := mkSpinlock {
  lk_locked : Z;
  lk_name : string;
  lk_cpu : option nat;  (* index in cpus *)
  lk_pcs : list Z }.

Record smp := mkSmp {
  s_if : Z -> bool;  (* EFLAGS.IF of the processor with a given APIC id *)
  s_cpus : list cpu;
  s_locks : list spinlock;
  s_out : list (string * string) }.

Definition set_s_if (id : Z) (b : bool) (s : smp) : smp :=
  mkSmp (fun i => if i =? id then b else s_if s i) (s_cpus s) (s_locks s) (s_out s).
Definition set_s_cpus (cs : list cpu) (s : smp) : smp := mkSmp (s_if s) cs (s_locks s) (s_out s).
Definition set_s_locks (ls : list spinlock) (s : smp) : smp := mkSmp (s_if s) (s_cpus s) ls (s_out s).
Definition set_s_out (o : list (string * string)) (s : smp) : smp := mkSmp (s_if s) (s_cpus s) (s_locks s) o.

(** ** Operations *)

Definition readeflags (id : Z) : M smp bool := gets (fun s => s_if s id).
Definition cli (id : Z) : M smp unit := modify (set_s_if id false).
Definition sti (id : Z) : M smp unit := modify (set_s_if id true).

Definition getcpu (i : nat) : M smp cpu := fun s =>
  match s_cpus s !! i with Some c => Ret c s | None => Fault s end.
Definition putcpu (i : nat) (c : cpu) : M smp unit := modify (fun s => set_s_cpus (<[i := c]> (s_cpus s)) s).
Definition getlk (l : nat) : M smp spinlock := fun s =>
  match s_locks s !! l with Some k => Ret k s | None => Fault s end.
Definition putlk (l : nat) (k : spinlock) : M smp unit := modify (fun s => set_s_locks (<[l := k]> (s_locks s)) s).

Definition mycpu (id : Z) : M smp nat :=
  let! f := readeflags id in
  if (f : bool) then panic "mycpu called with interrupts enabled"
  else
    let! cs := gets s_cpus in
    let! r := for_range (length cs) 0 (fun i =>
      let! c := getcpu i in
      if c_apicid c =? id then ret (Some i) else ret None) in
    match r with Some i => ret i | None => panic "unknown apicid" end.

Definition initlock (l : nat) (name : string) : M smp unit :=
  let! k := getlk l in
  putlk l (mkSpinlock 0 name None (lk_pcs k)).

Definition holding (id : Z) (l : nat) : M smp bool :=
  let! k := getlk l in
  if lk_locked k =? 0 then ret false
  else let! me := mycpu id in ret (bool_decide (lk_cpu k = Some me)).

Definition pushcli (id : Z) : M smp unit :=
  let! eflags := readeflags id in
  cli id ;;;
  let! i := mycpu id in
  let! c := getcpu i in
  when (c_ncli c =? 0) (putcpu i (mkCpu (c_apicid c) (c_ncli c) eflags)) ;;;
  let! c := getcpu i in
  putcpu i (mkCpu (c_apicid c) (c_ncli c + 1) (c_intena c)).

Definition popcli (id : Z) : M smp unit :=
  let! f := readeflags id in
  if (f : bool) then panic "popcli - interruptible"
  else
    let! i := mycpu id in
    let! c := getcpu i in
    let c := mkCpu (c_apicid c) (c_ncli c - 1) (c_intena c) in
    putcpu i c ;;;
    if c_ncli c <? 0 then panic "popcli"
    else when ((c_ncli c =? 0) && c_intena c) (sti id).

(** [xchg(&lk->locked, v)] *)
Definition xchg (l : nat) (v : Z) : M smp Z :=
  let! k := getlk l in
  putlk l (mkSpinlock v (lk_name k) (lk_cpu k) (lk_pcs k)) ;;;
  ret (lk_locked k).

Definition acquire_begin (id : Z) (l : nat) : M smp unit :=
  pushcli id ;;;
  let! h := holding id l in
  if (h : bool) then
    let! k := getlk l in
    modify (fun s => set_s_out ((" %s ", lk_name k) :: s_out s) s) ;;; panic "acquire"
  else skip.
Definition acquire_try (l : nat) : M smp bool :=
  let! old := xchg l 1 in ret (old =? 0).
(** [callers] is what getcallerpcs finds on the stack. *)
Definition acquire_end (id : Z) (l : nat) (callers : list Z) : M smp unit :=
  let! me := mycpu id in
  let! k := getlk l in
  putlk l (mkSpinlock (lk_locked k) (lk_name k) (Some me) callers).

(** [fuel] bounds the attempts: run by itself, a lock that is free is taken at the first. *)
Definition acquire (fuel : nat) (id : Z) (l : nat) (callers : list Z) : M smp unit :=
  acquire_begin id l ;;;
  loop fuel (fun _ : unit => let! ok := acquire_try l in ret (if (ok : bool) then inr tt else inl tt)) tt ;;;
  acquire_end id l callers.

Definition release_begin (id : Z) (l : nat) : M smp unit :=
  let! h := holding id l in
  if negb h then panic "release"
  else
    let! k := getlk l in
    putlk l (mkSpinlock (lk_locked k) (lk_name k) (lk_cpu k) (<[0%nat := 0]> (lk_pcs k))) ;;;
    let! k := getlk l in
    putlk l (mkSpinlock (lk_locked k) (lk_name k) None (lk_pcs k)).
Definition release_end (id : Z) (l : nat) : M smp unit :=
  let! k := getlk l in
  putlk l (mkSpinlock 0 (lk_name k) (lk_cpu k) (lk_pcs k)) ;;;
  popcli id.
Definition release (id : Z) (l : nat) : M smp unit := release_begin id l ;;; release_end id l.

(** [n] more program counters of the %ebp chain. *)
Fixpoint ebp_chain (m : mem) (ebp : Z) (n : nat) : list Z :=
  match n with
  | O => []
  | S k => if (ebp =? 0) || (ebp <? KERNBASE) || (ebp =? 0xffffffff) then replicate n 0
           else ld32 m (u32 (ebp + 4)) :: ebp_chain m (ld32 m ebp) k
  end.
Definition getcallerpcs (m : mem) (v : Z) : list Z := ebp_chain m (u32 (v - 8)) 10.

(** ** Processors running locked code *)

(** Where a processor is: between calls, spinning, past the exchange but not yet recorded as the
    holder, or about to clear the lock. *)
Inductive lpc := Idle | Spin (l : nat) | Won (l : nat) | Rel (l : nat).

(** [th_intr]: the interrupt flag outside of locked code. *)
Record thread := mkThread { th_pc : lpc; th_held : list nat; th_intr : bool }.

Definition cfg : Type := smp * list thread.

(** The processor [k] has APIC id [ids k]. *)
Inductive lstep (ids : nat -> Z) : cfg -> cfg -> Prop :=
| step_intr s ths k t b : ths !! k = Some t -> th_pc t = Idle -> th_held t = [] ->
    lstep ids (s, ths) (set_s_if (ids k) b s, <[k := mkThread Idle [] b]> ths)
| step_begin s s' ths k t l : ths !! k = Some t -> th_pc t = Idle ->
    acquire_begin (ids k) l s = Ret tt s' ->
    lstep ids (s, ths) (s', <[k := mkThread (Spin l) (th_held t) (th_intr t)]> ths)
| step_try s s' ths k t l ok : ths !! k = Some t -> th_pc t = Spin l -> acquire_try l s = Ret ok s' ->
    lstep ids (s, ths) (s', <[k := mkThread (if (ok : bool) then Won l else Spin l) (th_held t) (th_intr t)]> ths)
| step_end s s' ths k t l pcs : ths !! k = Some t -> th_pc t = Won l -> acquire_end (ids k) l pcs s = Ret tt s' ->
    lstep ids (s, ths) (s', <[k := mkThread Idle (l :: th_held t) (th_intr t)]> ths)
| step_release s s' ths k t l : ths !! k = Some t -> th_pc t = Idle -> release_begin (ids k) l s = Ret tt s' ->
    lstep ids (s, ths) (s', <[k := mkThread (Rel l) (filter (fun x => x <> l) (th_held t)) (th_intr t)]> ths)
| step_clear s s' ths k t l : ths !! k = Some t -> th_pc t = Rel l -> release_end (ids k) l s = Ret tt s' ->
    lstep ids (s, ths) (s', <[k := mkThread Idle (th_held t) (th_intr t)]> ths).

(** ** What the operations do *)

Definition cpus_ok (ids : nat -> Z) (s : smp) : Prop :=
  (forall k c, s_cpus s !! k = Some c -> c_apicid c = ids k) /\
  (forall i j, (i < length (s_cpus s))%nat -> (j < length (s_cpus s))%nat -> ids i = ids j -> i = j).

Section ops.
Context (ids : nat -> Z) (k : nat) (c : cpu).
Implicit Types (s : smp).

Lemma mycpu_run s : cpus_ok ids s -> s_cpus s !! k = Some c -> s_if s (ids k) = false -> mycpu (ids k) s = Ret k s.
Proof.
  intros [Hid Hinj] Hk Hif. unfold mycpu, readeflags, bind at 1, gets at 1. rewrite Hif. unfold bind at 1, gets, bind at 1.
  pose proof (lookup_lt_Some _ _ _ Hk) as Hlt. rewrite (for_range_find _ _ _ _ k k); [done|lia| |].
  - intros i Hi. assert (is_Some (s_cpus s !! i)) as [ci Hci] by (apply lookup_lt_is_Some; lia).
    unfold bind, getcpu. rewrite Hci, (Hid _ _ Hci). rewrite (proj2 (Z.eqb_neq _ _)); [done|].
    intros E. apply Hinj in E; lia.
  - unfold bind, getcpu. by rewrite Hk, (Hid _ _ Hk), Z.eqb_refl.
Qed.

Definition pushed (s : smp) : smp :=
  set_s_cpus (<[k := mkCpu (c_apicid c) (c_ncli c + 1) (if c_ncli c =? 0 then s_if s (ids k) else c_intena c)]> (s_cpus s))
    (set_s_if (ids k) false s).

Lemma pushcli_run s : cpus_ok ids s -> s_cpus s !! k = Some c -> pushcli (ids k) s = Ret tt (pushed s).
Proof.
  intros Hok Hk. unfold pushcli, readeflags, cli, bind, gets, modify.
  rewrite mycpu_run; [|done|done|simpl; by rewrite Z.eqb_refl]. unfold getcpu. simpl. rewrite Hk.
  pose proof (lookup_lt_Some _ _ _ Hk) as Hlt. unfold when, pushed. destruct (c_ncli c =? 0).
  - unfold putcpu, modify. simpl. rewrite list_lookup_insert_eq by done. simpl.
    unfold set_s_cpus, set_s_if. simpl. by rewrite list_insert_insert_eq.
  - unfold skip, ret. simpl. by rewrite Hk.
Qed.

Definition popped (s : smp) : smp :=
  let s' := set_s_cpus (<[k := mkCpu (c_apicid c) (c_ncli c - 1) (c_intena c)]> (s_cpus s)) s in
  if (c_ncli c =? 1) && c_intena c then set_s_if (ids k) true s' else s'.

Lemma popcli_run s : cpus_ok ids s -> s_cpus s !! k = Some c -> s_if s (ids k) = false -> 1 <= c_ncli c ->
  popcli (ids k) s = Ret tt (popped s).
Proof.
  intros Hok Hk Hif Hn. unfold popcli, readeflags, bind, gets. rewrite Hif, mycpu_run by done.
  unfold getcpu. rewrite Hk. unfold putcpu, modify. simpl. rewrite (proj2 (Z.ltb_ge _ _)) by lia.
  unfold popped. replace (c_ncli c - 1 =? 0) with (c_ncli c =? 1) by zcase. by destruct (_ && _).
Qed.

Lemma holding_run s l lk : cpus_ok ids s -> s_cpus s !! k = Some c -> s_if s (ids k) = false -> s_locks s !! l = Some lk ->
  holding (ids k) l s = Ret (negb (lk_locked lk =? 0) && bool_decide (lk_cpu lk = Some k)) s.
Proof.
  intros Hok Hk Hif Hl. unfold holding, bind, getlk. rewrite Hl. destruct (lk_locked lk =? 0); [done|].
  by rewrite mycpu_run.
Qed.

End ops.
(** ** The invariant *)

(** A processor owns a lock from the exchange that wins it to the write that clears it. *)
Definition owns (t : thread) (l : nat) : Prop := l ∈ th_held t \/ th_pc t = Won l \/ th_pc t = Rel l.

Definition depth (t : thread) : Z :=
  Z.of_nat (length (th_held t)) + match th_pc t with Idle => 0 | _ => 1 end.

Record cpu_ok (s : smp) (ids : nat -> Z) (k : nat) (c : cpu) (t : thread) : Prop := {
  co_ncli : c_ncli c = depth t;
  co_nodup : NoDup (th_held t);
  co_fresh l : th_pc t = Won l \/ th_pc t = Rel l -> l ∉ th_held t;
  co_spin l : th_pc t = Spin l -> l ∉ th_held t;
  co_out : depth t = 0 -> s_if s (ids k) = th_intr t;
  co_in : depth t <> 0 -> s_if s (ids k) = false /\ c_intena c = th_intr t }.

Record lock_ok (ths : list thread) (l : nat) (lk : spinlock) : Prop := {
  lo_locked k t : ths !! k = Some t -> owns t l -> lk_locked lk <> 0;
  lo_excl k k' t t' : ths !! k = Some t -> ths !! k' = Some t' -> owns t l -> owns t' l -> k = k';
  lo_cpu k : lk_cpu lk = Some k <-> exists t, ths !! k = Some t /\ l ∈ th_held t }.

Record linv (ids : nat -> Z) (sc : cfg) : Prop := {
  li_cpus : cpus_ok ids sc.1;
  li_len : length (s_cpus sc.1) = length sc.2;
  li_cpu k c t : s_cpus sc.1 !! k = Some c -> sc.2 !! k = Some t -> cpu_ok sc.1 ids k c t;
  li_lock l lk : s_locks sc.1 !! l = Some lk -> lock_ok sc.2 l lk }.

Lemma linv_cpu ids s ths k t : linv ids (s, ths) -> ths !! k = Some t ->
  exists c, s_cpus s !! k = Some c /\ cpu_ok s ids k c t.
Proof.
  intros [_ Hlen Hc _] Ht. simpl in *. pose proof (lookup_lt_Some _ _ _ Ht) as Hlt. rewrite <- Hlen in Hlt.
  apply lookup_lt_is_Some in Hlt as [c Hk]. eauto.
Qed.

Lemma depth_pos t : th_pc t <> Idle -> depth t <> 0.
Proof. unfold depth. destruct (th_pc t); [done|lia..]. Qed.

Lemma depth_held t l : l ∈ th_held t -> depth t <> 0.
Proof. unfold depth. destruct (th_held t); [by intros ?%not_elem_of_nil|]. simpl. destruct (th_pc t); lia. Qed.

(** Writing the entry of one processor. *)
Lemma cpus_ok_update ids s k c c' : cpus_ok ids s -> s_cpus s !! k = Some c -> c_apicid c' = c_apicid c ->
  forall s', s_cpus s' = <[k := c']> (s_cpus s) -> cpus_ok ids s'.
Proof.
  intros [Hid Hinj] Hk Hc s' E. unfold cpus_ok. rewrite E, length_insert. split; [|done].
  intros i ci. rewrite list_lookup_insert. case_decide as Hi; [|apply Hid]. intros [= <-].
  destruct Hi as [<- _]. rewrite Hc. by apply Hid.
Qed.

(** A step of processor [k]: what has to be shown. *)
Lemma linv_update ids s ths s' k t t' c c' :
  linv ids (s, ths) -> ths !! k = Some t -> s_cpus s !! k = Some c -> c_apicid c' = c_apicid c ->
  s_cpus s' = <[k := c']> (s_cpus s) -> (forall i, i <> ids k -> s_if s' i = s_if s i) ->
  cpu_ok s' ids k c' t' ->
  (forall l lk', s_locks s' !! l = Some lk' -> lock_ok (<[k := t']> ths) l lk') ->
  linv ids (s', <[k := t']> ths).
Proof.
  intros [Hok Hlen Hcpu _] Ht Hk Hid Ecs Hif Hck Hlk. simpl in *. constructor; simpl; [..|done].
  - by eapply cpus_ok_update.
  - rewrite Ecs, !length_insert. done.
  - intros i ci ti. rewrite Ecs. pose proof (lookup_lt_Some _ _ _ Ht). pose proof (lookup_lt_Some _ _ _ Hk).
    destruct (decide (i = k)) as [->|Hne].
    + rewrite !list_lookup_insert_eq by done. intros [= <-] [= <-]. done.
    + rewrite !list_lookup_insert_ne by done. intros Hci Hti. destruct (Hcpu i ci ti Hci Hti).
      assert (s_if s' (ids i) = s_if s (ids i)) as Ei.
      { apply Hif. intros E. apply Hne. apply Hok; [by eapply lookup_lt_Some|done..]. }
      constructor; rewrite ?Ei; done.
Qed.

(** A lock that [k] neither gains nor loses. *)
Lemma lock_ok_same ths k t t' l lk lk' :
  lock_ok ths l lk -> ths !! k = Some t -> (l ∈ th_held t' <-> l ∈ th_held t) -> (owns t' l <-> owns t l) ->
  (lk_locked lk <> 0 -> lk_locked lk' <> 0) -> lk_cpu lk' = lk_cpu lk ->
  lock_ok (<[k := t']> ths) l lk'.
Proof.
  intros [H1 H2 H3] Ht Hh Ho Hl Hc.
  assert (forall i ti, <[k:=t']> ths !! i = Some ti -> exists ti', ths !! i = Some ti' /\
    (l ∈ th_held ti <-> l ∈ th_held ti') /\ (owns ti l <-> owns ti' l)) as Hi.
  { intros i ti. rewrite list_lookup_insert. case_decide as Hd; [|by eauto]. intros [= <-]. destruct Hd as [<- _]. eauto. }
  constructor.
  - intros i ti Hti Hown. destruct (Hi i ti Hti) as (ti' & ? & _ & Ho'). apply Hl, (H1 i ti'); [done|by apply Ho'].
  - intros i j ti tj Hti Htj Hoi Hoj. destruct (Hi i ti Hti) as (ti' & ? & _ & Ho1), (Hi j tj Htj) as (tj' & ? & _ & Ho2).
    apply (H2 i j ti' tj'); [done|done|by apply Ho1|by apply Ho2].
  - intros i. rewrite Hc, H3. pose proof (lookup_lt_Some _ _ _ Ht). split.
    + intros (ti & Hti & Hin). destruct (decide (i = k)) as [->|].
      * exists t'. rewrite list_lookup_insert_eq by done. split; [done|]. apply Hh. congruence.
      * exists ti. by rewrite list_lookup_insert_ne.
    + intros (ti & Hti & Hin). destruct (Hi i ti Hti) as (ti' & ? & E & _). exists ti'. by rewrite <- E.
Qed.

Lemma filter_absent (l : nat) (h : list nat) : (l ∉ h) -> filter (fun x => x <> l) h = h.
Proof.
  induction h as [|x h IH]; [done|]. intros [Hx Hh]%not_elem_of_cons. rewrite filter_cons, decide_True by done.
  by rewrite IH.
Qed.

Lemma length_filter_ne (l : nat) (h : list nat) : NoDup h -> l ∈ h -> length h = S (length (filter (fun x => x <> l) h)).
Proof.
  induction 1 as [|x h Hx Hnd IH]; [by intros ?%not_elem_of_nil|]. rewrite filter_cons. intros Hin.
  destruct (decide (x <> l)) as [Hne|Hne].
  - apply elem_of_cons in Hin as [->|Hin]; [done|]. simpl. f_equal. by apply IH.
  - apply dec_stable in Hne. subst x. by rewrite filter_absent.
Qed.

(** ** Every step keeps the invariant *)

Section steps.
Context (ids : nat -> Z) (s : smp) (ths : list thread) (k : nat) (t : thread) (c : cpu).
Hypothesis (Hinv : linv ids (s, ths)) (Ht : ths !! k = Some t) (Hk : s_cpus s !! k = Some c).

Lemma inv_cpu_ok : cpu_ok s ids k c t.
Proof. exact (li_cpu _ _ Hinv k c t Hk Ht). Qed.

Lemma inv_lock l lk : s_locks s !! l = Some lk -> lock_ok ths l lk.
Proof. exact (li_lock _ _ Hinv l lk). Qed.

(** Only the holder is recorded in the lock. *)
Lemma holder_iff l lk : s_locks s !! l = Some lk ->
  negb (lk_locked lk =? 0) && bool_decide (lk_cpu lk = Some k) = true <-> l ∈ th_held t.
Proof.
  intros Hl. destruct (inv_lock l lk Hl) as [H1 _ H3]. rewrite andb_true_iff, negb_true_iff, Z.eqb_neq, bool_decide_eq_true, H3.
  split.
  - intros [_ (t' & Ht' & Hin)]. congruence.
  - intros Hin. split; [apply (H1 k t); [done|by left]|eauto].
Qed.

Lemma inv_intr b : th_pc t = Idle -> th_held t = [] ->
  linv ids (set_s_if (ids k) b s, <[k := mkThread Idle [] b]> ths).
Proof.
  intros Hpc Hh. destruct inv_cpu_ok. eapply (linv_update ids s ths _ k t _ c c); try done.
  - simpl. by rewrite list_insert_id.
  - intros i Hi. simpl. by rewrite (proj2 (Z.eqb_neq _ _) Hi).
  - constructor; simpl; try done.
    + unfold depth in *. by rewrite co_ncli0, Hpc, Hh.
    + constructor.
    + intros l _. apply not_elem_of_nil.
    + by rewrite Z.eqb_refl.
  - intros l lk Hl. eapply (lock_ok_same ths k t _ l lk); try done; [by apply inv_lock|by rewrite Hh|].
    unfold owns. simpl. by rewrite Hh, Hpc.
Qed.

Lemma inv_begin l s' : th_pc t = Idle -> acquire_begin (ids k) l s = Ret tt s' ->
  linv ids (s', <[k := mkThread (Spin l) (th_held t) (th_intr t)]> ths).
Proof.
  intros Hpc E. pose proof (li_cpus _ _ Hinv) as Hok. pose proof inv_cpu_ok as [H1 H2 H3 H4 H5 H6].
  pose proof (lookup_lt_Some _ _ _ Hk) as Hlt.
  unfold acquire_begin, bind in E. rewrite (pushcli_run ids k c) in E by done.
  destruct (s_locks s !! l) as [lk|] eqn:Hl; [|unfold holding, bind, getlk in E; simpl in E; by rewrite Hl in E].
  rewrite (holding_run ids k (mkCpu (c_apicid c) (c_ncli c + 1) (if c_ncli c =? 0 then s_if s (ids k) else c_intena c))
    _ l lk) in E.
  2: { eapply (cpus_ok_update ids s k c); [done|done| |reflexivity]. done. }
  2: { simpl. by rewrite list_lookup_insert_eq. }
  2: { simpl. by rewrite Z.eqb_refl. }
  2: { done. }
  destruct (_ && _) eqn:Hh; [unfold getlk in E; simpl in E; by rewrite Hl in E|]. injection E as <-.
  assert (l ∉ th_held t) as Hnl by (rewrite <- (holder_iff l lk Hl), Hh; done).
  assert (depth t = Z.of_nat (length (th_held t))) as Hd by (unfold depth; rewrite Hpc; lia).
  eapply (linv_update ids s ths _ k t _ c
    (mkCpu (c_apicid c) (c_ncli c + 1) (if c_ncli c =? 0 then s_if s (ids k) else c_intena c))); [done..| | |].
  - intros i Hi. simpl. by rewrite (proj2 (Z.eqb_neq _ _) Hi).
  - constructor; simpl; try done.
    + unfold depth. simpl. lia.
    + by intros l' [?|?].
    + by intros l' [= <-].
    + unfold depth. simpl. lia.
    + intros _. rewrite Z.eqb_refl. split; [done|]. rewrite H1, Hd in *. destruct (Z.eqb_spec (Z.of_nat (length (th_held t))) 0) as [E0|E0].
      * by apply H5.
      * by apply H6.
  - intros l' lk' Hl'. eapply (lock_ok_same ths k t _ l' lk'); try done; [by apply inv_lock|].
    unfold owns. simpl. rewrite Hpc. naive_solver.
Qed.

Lemma inv_try l ok s' : th_pc t = Spin l -> acquire_try l s = Ret ok s' ->
  linv ids (s', <[k := mkThread (if (ok : bool) then Won l else Spin l) (th_held t) (th_intr t)]> ths).
Proof.
  intros Hpc E. pose proof inv_cpu_ok as [H1 H2 H3 H4 H5 H6].
  unfold acquire_try, xchg, bind, getlk, putlk, modify, ret in E.
  destruct (s_locks s !! l) as [lk|] eqn:Hl; [|done]. injection E as <- <-.
  assert (l ∉ th_held t) as Hnl by (by apply H4).
  eapply (linv_update ids s ths _ k t _ c c); [done..|simpl; by rewrite list_insert_id|done| |].
  - assert (forall b : bool, depth (mkThread (if b then Won l else Spin l) (th_held t) (th_intr t)) = depth t) as Ed.
    { intros b. unfold depth. rewrite Hpc. by destruct b. }
    constructor; rewrite ?Ed; try done; simpl.
    + by destruct (lk_locked lk =? 0); intros l' [[= <-]|?].
    + by destruct (lk_locked lk =? 0); intros l' [= <-].
  - intros l' lk'. simpl. rewrite list_lookup_insert. case_decide as Hd.
    2: { intros Hl'. assert (l' <> l) as Hne by (intros ->; apply Hd; split; [done|by eapply lookup_lt_Some]).
      eapply (lock_ok_same ths k t _ l' lk'); try done; [by apply inv_lock|].
      unfold owns. simpl. rewrite Hpc. destruct (lk_locked lk =? 0); naive_solver. }
    intros [= <-]. destruct Hd as [<- _]. pose proof (inv_lock l lk Hl) as Hlk.
    destruct (Z.eqb_spec (lk_locked lk) 0) as [E0|E0].
    2: { eapply (lock_ok_same ths k t _ l lk); try done. unfold owns. simpl. rewrite Hpc. naive_solver. }
    destruct Hlk as [L1 L2 L3].
    assert (forall i ti, <[k:=mkThread (Won l) (th_held t) (th_intr t)]> ths !! i = Some ti -> owns ti l -> i = k) as Honly.
    { intros i ti. destruct (decide (i = k)); [done|]. rewrite list_lookup_insert_ne by done.
      intros Hti Hown. by destruct (L1 i ti Hti Hown). }
    constructor.
    + simpl. lia.
    + intros i j ti tj Hti Htj Hoi Hoj. by rewrite (Honly i ti), (Honly j tj).
    + intros i. simpl. rewrite L3. destruct (decide (i = k)) as [->|].
      * rewrite list_lookup_insert_eq by (by eapply lookup_lt_Some). split; intros (ti & Hti & Hin); eexists; (split; [done|]); simplify_eq; done.
      * by rewrite list_lookup_insert_ne.
Qed.

Lemma inv_end l pcs s' : th_pc t = Won l -> acquire_end (ids k) l pcs s = Ret tt s' ->
  linv ids (s', <[k := mkThread Idle (l :: th_held t) (th_intr t)]> ths).
Proof.
  intros Hpc E. pose proof inv_cpu_ok as [H1 H2 H3 H4 H5 H6]. pose proof (li_cpus _ _ Hinv) as Hok.
  destruct H6 as [Hif Hie]; [apply depth_pos; by rewrite Hpc|].
  unfold acquire_end, bind in E. rewrite (mycpu_run ids k c) in E by done. unfold getlk, putlk, modify in E.
  destruct (s_locks s !! l) as [lk|] eqn:Hl; [|done]. injection E as <-.
  assert (l ∉ th_held t) as Hnl by (apply H3; by left).
  eapply (linv_update ids s ths _ k t _ c c); [done..|simpl; by rewrite list_insert_id|done| |].
  - constructor; simpl; try done.
    + rewrite H1. unfold depth. rewrite Hpc. simpl. lia.
    + by constructor.
    + by intros l' [?|?].
  - intros l' lk'. simpl. rewrite list_lookup_insert. case_decide as Hd.
    2: { intros Hl'. assert (l' <> l) as Hne by (intros ->; apply Hd; split; [done|by eapply lookup_lt_Some]).
      eapply (lock_ok_same ths k t _ l' lk'); try done; [by apply inv_lock| |].
      - simpl. rewrite elem_of_cons. naive_solver.
      - unfold owns. simpl. rewrite Hpc, elem_of_cons. naive_solver. }
    intros [= <-]. destruct Hd as [<- _]. destruct (inv_lock l lk Hl) as [L1 L2 L3].
    assert (owns t l) as Hown by (right; by left).
    assert (forall i ti, <[k:=mkThread Idle (l :: th_held t) (th_intr t)]> ths !! i = Some ti -> owns ti l -> i = k) as Honly.
    { intros i ti. destruct (decide (i = k)); [done|]. rewrite list_lookup_insert_ne by done.
      intros Hti Ho. by apply (L2 i k ti t). }
    constructor.
    + simpl. intros i ti _ _. by apply (L1 k t).
    + intros i j ti tj Hti Htj Hoi Hoj. by rewrite (Honly i ti), (Honly j tj).
    + intros i. simpl. split.
      * intros [= <-]. eexists. rewrite list_lookup_insert_eq by (by eapply lookup_lt_Some). split; [done|]. constructor.
      * intros (ti & Hti & Hin). f_equal. symmetry. apply (Honly i ti); [done|by left].
Qed.

Lemma inv_release l s' : th_pc t = Idle -> release_begin (ids k) l s = Ret tt s' ->
  linv ids (s', <[k := mkThread (Rel l) (filter (fun x => x <> l) (th_held t)) (th_intr t)]> ths) /\ l ∈ th_held t.
Proof.
  intros Hpc E. pose proof inv_cpu_ok as [H1 H2 H3 H4 H5 H6]. pose proof (li_cpus _ _ Hinv) as Hok.
  unfold release_begin, bind in E.
  destruct (s_locks s !! l) as [lk|] eqn:Hl; [|unfold holding, bind, getlk in E; by rewrite Hl in E].
  pose proof (lookup_lt_Some _ _ _ Hl) as Hll.
  destruct (s_if s (ids k)) eqn:Hif.
  { unfold holding, bind, getlk in E. rewrite Hl in E. destruct (lk_locked lk =? 0); [done|].
    unfold mycpu, bind, readeflags, gets in E. by rewrite Hif in E. }
  rewrite (holding_run ids k c _ l lk) in E by done.
  destruct (_ && _) eqn:Hh; [|done]. apply (holder_iff l lk Hl) in Hh. split; [|done]. simpl in E.
  unfold getlk, putlk, modify in E. rewrite Hl in E. simpl in E. rewrite list_lookup_insert_eq in E by done.
  injection E as <-. destruct H6 as [_ Hie]; [by eapply depth_held|].
  assert (length (th_held t) = S (length (filter (fun x => x <> l) (th_held t)))) as Hlen.
  { by apply length_filter_ne. }
  eapply (linv_update ids s ths _ k t _ c c); [done..|simpl; by rewrite list_insert_id|done| |].
  - constructor; simpl; try done.
    + rewrite H1. unfold depth. rewrite Hpc. simpl. lia.
    + by apply NoDup_filter.
    + intros l' [?|[= <-]]; [done|]. rewrite list_elem_of_filter. tauto.
    + unfold depth. simpl. lia.
  - intros l' lk'. simpl. rewrite list_insert_insert_eq, list_lookup_insert. case_decide as Hd.
    2: { intros Hl'. assert (l' <> l) as Hne by (intros ->; by apply Hd).
      eapply (lock_ok_same ths k t _ l' lk'); try done; [by apply inv_lock| |].
      - simpl. rewrite list_elem_of_filter. naive_solver.
      - unfold owns. simpl. rewrite Hpc, list_elem_of_filter. naive_solver. }
    intros [= <-]. destruct Hd as [<- _]. destruct (inv_lock l lk Hl) as [L1 L2 L3].
    assert (owns t l) as Hown by (by left). pose proof (lookup_lt_Some _ _ _ Ht) as Htl.
    set (t' := mkThread _ _ _).
    assert (forall i ti, <[k:=t']> ths !! i = Some ti -> owns ti l -> i = k) as Honly.
    { intros i ti. destruct (decide (i = k)); [done|]. rewrite list_lookup_insert_ne by done.
      intros Hti Ho. by apply (L2 i k ti t). }
    constructor.
    + simpl. intros i ti _ _. by apply (L1 k t).
    + intros i j ti tj Hti Htj Hoi Hoj. by rewrite (Honly i ti), (Honly j tj).
    + intros i. simpl. split; [done|]. intros (ti & Hti & Hin).
      assert (i = k) as -> by (apply (Honly i ti); [done|by left]). rewrite list_lookup_insert_eq in Hti by done.
      injection Hti as <-. simpl in Hin. apply list_elem_of_filter in Hin as [? _]. done.
Qed.

Lemma inv_clear l s' : th_pc t = Rel l -> release_end (ids k) l s = Ret tt s' ->
  linv ids (s', <[k := mkThread Idle (th_held t) (th_intr t)]> ths).
Proof.
  intros Hpc E. pose proof inv_cpu_ok as [H1 H2 H3 H4 H5 H6]. pose proof (li_cpus _ _ Hinv) as Hok.
  destruct H6 as [Hif Hie]; [apply depth_pos; by rewrite Hpc|].
  assert (depth t = Z.of_nat (length (th_held t)) + 1) as Hd by (unfold depth; by rewrite Hpc).
  unfold release_end, bind, getlk, putlk, modify in E. destruct (s_locks s !! l) as [lk|] eqn:Hl; [|done].
  rewrite (popcli_run ids k c) in E by (done || lia). injection E as <-.
  assert (l ∉ th_held t) as Hnl by (apply H3; by right).
  set (t' := mkThread _ _ _). set (s1 := set_s_locks _ _).
  assert (s_cpus (popped ids k c s1) = <[k := mkCpu (c_apicid c) (c_ncli c - 1) (c_intena c)]> (s_cpus s) /\
    s_locks (popped ids k c s1) = s_locks s1) as [Ec El] by (unfold popped; by destruct (_ && _)).
  eapply (linv_update ids s ths _ k t _ c (mkCpu (c_apicid c) (c_ncli c - 1) (c_intena c))); [done|done|done|done|done| | |].
  - intros i Hi. unfold popped. destruct (_ && _); simpl; [|done]. by rewrite (proj2 (Z.eqb_neq _ _) Hi).
  - assert (depth t' = c_ncli c - 1) as Hd' by (unfold depth; simpl; lia).
    constructor; simpl; try done.
    + by intros l' [?|?].
    + rewrite Hd'. intros E0. unfold popped. rewrite (proj2 (Z.eqb_eq (c_ncli c) 1)) by lia. rewrite Hie. simpl.
      destruct (th_intr t); simpl; [by rewrite Z.eqb_refl|done].
    + rewrite Hd'. intros E0. unfold popped. rewrite (proj2 (Z.eqb_neq (c_ncli c) 1)) by lia. done.
  - rewrite El. intros l' lk'. simpl. rewrite list_lookup_insert. case_decide as Hdl.
    2: { intros Hl'. assert (l' <> l) as Hne by (intros ->; apply Hdl; split; [done|by eapply lookup_lt_Some]).
      eapply (lock_ok_same ths k t _ l' lk'); try done; [by apply inv_lock|].
      unfold owns. simpl. rewrite Hpc. naive_solver. }
    intros [= <-]. destruct Hdl as [<- _]. destruct (inv_lock l lk Hl) as [L1 L2 L3].
    assert (forall i ti, <[k:=t']> ths !! i = Some ti -> ~ owns ti l) as Hnone.
    { intros i ti. destruct (decide (i = k)) as [->|Hne].
      - rewrite list_lookup_insert_eq by (by eapply lookup_lt_Some). intros [= <-]. unfold owns. simpl. naive_solver.
      - rewrite list_lookup_insert_ne by done. intros Hti Ho. apply Hne. apply (L2 i k ti t); [done|done|done|].
        right. by right. }
    constructor.
    + intros i ti Hti Ho. by destruct (Hnone i ti).
    + intros i j ti tj Hti _ Ho _. by destruct (Hnone i ti).
    + intros i. simpl. rewrite L3. split; intros (ti & Hti & Hin).
      * destruct (decide (i = k)) as [->|]; [by simplify_eq|]. exists ti. by rewrite list_lookup_insert_ne.
      * exfalso. apply (Hnone i ti); [done|by left].
Qed.

End steps.

Lemma lstep_inv ids sc sc' : linv ids sc -> lstep ids sc sc' -> linv ids sc'.
Proof.
  intros Hinv Hs. destruct Hs as [s ths k t b Ht Hpc Hh|s s' ths k t l Ht Hpc E|s s' ths k t l ok Ht Hpc E|
    s s' ths k t l pcs Ht Hpc E|s s' ths k t l Ht Hpc E|s s' ths k t l Ht Hpc E];
    destruct (linv_cpu _ _ _ _ _ Hinv Ht) as (c & Hk & _).
  - by eapply inv_intr.
  - by eapply inv_begin.
  - by eapply inv_try.
  - by eapply inv_end.
  - by eapply inv_release.
  - by eapply inv_clear.
Qed.

(** All processors outside of locked code, all locks free. *)
Definition quiescent (ids : nat -> Z) (s : smp) (ths : list thread) : Prop :=
  cpus_ok ids s /\ length (s_cpus s) = length ths /\
  (forall k c t, s_cpus s !! k = Some c -> ths !! k = Some t ->
     c_ncli c = 0 /\ t = mkThread Idle [] (s_if s (ids k))) /\
  (forall l lk, s_locks s !! l = Some lk -> lk_cpu lk = None).

Lemma quiescent_inv ids s ths : quiescent ids s ths -> linv ids (s, ths).
Proof.
  intros (Hok & Hlen & Hc & Hl).
  assert (forall k t, ths !! k = Some t -> t = mkThread Idle [] (s_if s (ids k))) as Hth.
  { intros k t Ht. pose proof (lookup_lt_Some _ _ _ Ht) as Hlt. rewrite <- Hlen in Hlt.
    apply lookup_lt_is_Some in Hlt as [c Hk]. by eapply Hc. }
  constructor; [done|done| |].
  - intros k c t Hk Ht. destruct (Hc k c t Hk Ht) as [H0 ->]. constructor; simpl; try done; [constructor|].
    intros l _. apply not_elem_of_nil.
  - intros l lk Hlk.
    assert (forall k t, ths !! k = Some t -> ~ owns t l) as Hno.
    { intros k t ->%Hth. unfold owns. simpl. intros [?%not_elem_of_nil|[?|?]]; done. }
    constructor; simpl.
    + intros k t Ht Ho. by destruct (Hno k t).
    + intros k k' t t' Ht _ Ho. by destruct (Hno k t).
    + intros k. rewrite (Hl l lk Hlk). split; [done|]. intros (t & Ht & Hin). destruct (Hno k t); [done|by left].
Qed.

Lemma reachable_inv ids s ths sc : quiescent ids s ths -> rtc (lstep ids) (s, ths) sc -> linv ids sc.
Proof.
  intros Hq%quiescent_inv Hr. revert Hq. induction Hr as [|sc1 sc2 sc3 Hs _ IH]; [done|].
  intros Hq. apply IH. by eapply lstep_inv.
Qed.

(** ** One processor by itself

    [ready held intr s]: processor [k] holds exactly the locks [held], no other lock is taken, and
    its interrupt flag was [intr] before it took the first one. *)
Record ready (ids : nat -> Z) (k : nat) (held : list nat) (intr : bool) (s : smp) : Prop := {
  rd_cpus : cpus_ok ids s;
  rd_cpu : exists c, s_cpus s !! k = Some c /\ c_ncli c = Z.of_nat (length held) /\
    (held <> [] -> c_intena c = intr);
  rd_if : s_if s (ids k) = match held with [] => intr | _ => false end;
  rd_nodup : NoDup held;
  rd_locks l lk : s_locks s !! l = Some lk ->
    if decide (l ∈ held) then lk_locked lk <> 0 /\ lk_cpu lk = Some k else lk_locked lk = 0;
  rd_held l : l ∈ held -> (l < length (s_locks s))%nat }.

Section ready.
Context (ids : nat -> Z) (k : nat).
Implicit Types (s : smp) (held : list nat) (intr : bool).

Lemma ready_mycpu held intr s : ready ids k held intr s -> s_if s (ids k) = false -> mycpu (ids k) s = Ret k s.
Proof. intros [Hok (c & Hc & _) _ _ _ _] Hif. by apply (mycpu_run ids k c). Qed.

Lemma ready_holding held intr s l : ready ids k held intr s -> l ∈ held -> holding (ids k) l s = Ret true s.
Proof.
  intros [Hok (c & Hc & _) Hif Hnd Hlk Hlt] Hl. destruct (lookup_lt_is_Some_2 _ _ (Hlt l Hl)) as [lk Hlk'].
  rewrite (holding_run ids k c s l lk); [|done|done| |done].
  - specialize (Hlk l lk Hlk'). rewrite decide_True in Hlk by done. destruct Hlk as [H1 H2].
    rewrite bool_decide_eq_true_2 by done. by rewrite (proj2 (Z.eqb_neq _ _) H1).
  - rewrite Hif. by destruct held; [apply not_elem_of_nil in Hl|].
Qed.

Lemma ready_acquire held intr s l pcs : ready ids k held intr s -> l ∉ held -> (l < length (s_locks s))%nat ->
  exists s', acquire 1 (ids k) l pcs s = Ret tt s' /\ ready ids k (l :: held) intr s' /\
    length (s_locks s') = length (s_locks s).
Proof.
  intros [Hok (c & Hc & Hn & Hi) Hif Hnd Hlk Hlt] Hl [lk Hl']%lookup_lt_is_Some.
  pose proof (lookup_lt_Some _ _ _ Hc) as Hkl. pose proof (lookup_lt_Some _ _ _ Hl') as Hll.
  set (c1 := mkCpu (c_apicid c) (c_ncli c + 1) (if c_ncli c =? 0 then s_if s (ids k) else c_intena c)).
  assert (forall s', s_cpus s' = <[k := c1]> (s_cpus s) -> cpus_ok ids s') as Hok'.
  { intros s' E. by apply (cpus_ok_update ids s k c c1 Hok Hc). }
  assert (forall s', s_cpus s' = <[k := c1]> (s_cpus s) -> s_cpus s' !! k = Some c1) as Hk'.
  { intros s' ->. by apply list_lookup_insert_eq. }
  pose proof (Hlk l lk Hl') as H0. rewrite decide_False in H0 by done.
  unfold acquire, acquire_begin. unfold bind at 1 2 3. rewrite (pushcli_run ids k c) by done.
  rewrite (holding_run ids k c1 _ l lk); [|by apply Hok'|by apply Hk'|simpl; by rewrite Z.eqb_refl|done].
  rewrite H0. simpl. unfold bind, acquire_try, xchg, acquire_end, bind, getlk, putlk, modify. simpl. rewrite Hl'. simpl.
  rewrite H0. simpl. rewrite (mycpu_run ids k c1); [|by apply Hok'|by apply Hk'|simpl; by rewrite Z.eqb_refl].
  simpl. rewrite list_lookup_insert_eq by done. simpl. eexists. split; [reflexivity|].
  split; [|simpl; by rewrite !length_insert]. constructor; simpl.
  - by apply Hok'.
  - exists c1. split; [by apply list_lookup_insert_eq|]. split; [simpl; lia|]. intros _. simpl.
    destruct (Z.eqb_spec (c_ncli c) 0) as [E|E]; [destruct held; [done|simpl in *; lia]|].
    apply Hi. intros ->. simpl in *. lia.
  - by rewrite Z.eqb_refl.
  - by constructor.
  - intros l' lk'. rewrite list_insert_insert_eq. destruct (decide (l' = l)) as [->|Hne].
    + rewrite list_lookup_insert_eq by done. intros [= <-]. by rewrite decide_True by (by left).
    + rewrite list_lookup_insert_ne by done. intros E%Hlk. destruct (decide (l' ∈ held)).
      * by rewrite decide_True by (by right).
      * by rewrite decide_False by (by intros [?|?]%elem_of_cons).
  - intros l' [->|H]%elem_of_cons; rewrite !length_insert; auto.
Qed.

Lemma ready_release held intr s l : ready ids k held intr s -> l ∈ held ->
  exists s', release (ids k) l s = Ret tt s' /\ ready ids k (filter (.≠ l) held) intr s' /\
    length (s_locks s') = length (s_locks s).
Proof.
  intros Hr Hl. pose proof (ready_holding _ _ _ _ Hr Hl) as Hh.
  destruct Hr as [Hok (c & Hc & Hn & Hi) Hif Hnd Hlk Hlt].
  destruct (lookup_lt_is_Some_2 _ _ (Hlt l Hl)) as [lk Hl']. pose proof (Hlt l Hl) as Hll.
  pose proof (lookup_lt_Some _ _ _ Hc) as Hkl.
  assert (held <> []) as Hne by (intros ->; by apply not_elem_of_nil in Hl).
  assert (s_if s (ids k) = false) as Hif' by (rewrite Hif; by destruct held).
  pose proof (length_filter_ne l held Hnd Hl) as Hlen.
  unfold release, release_begin, release_end. unfold bind at 1 2. rewrite Hh. simpl.
  unfold bind, getlk, putlk, modify. rewrite Hl'. simpl. rewrite list_lookup_insert_eq by done. simpl.
  rewrite list_lookup_insert_eq by (by rewrite length_insert). simpl.
  rewrite (popcli_run ids k c); [|done|done|done|lia]. eexists. split; [reflexivity|].
  set (b := (c_ncli c =? 1) && c_intena c). unfold popped. fold b.
  assert (s_if s (ids k) = false) by done.
  split; [|destruct b; simpl; by rewrite !length_insert]. constructor.
  - apply (cpus_ok_update ids s k c (mkCpu (c_apicid c) (c_ncli c - 1) (c_intena c)) Hok Hc); [done|by destruct b].
  - exists (mkCpu (c_apicid c) (c_ncli c - 1) (c_intena c)). split; [|split; [simpl; lia|simpl; auto]].
    destruct b; simpl; by apply list_lookup_insert_eq.
  - unfold b. rewrite Hi by done. destruct (filter (.≠ l) held) as [|x r] eqn:E; simpl in *.
    + rewrite (proj2 (Z.eqb_eq _ _)) by lia. destruct intr; simpl; [by rewrite Z.eqb_refl|done].
    + by rewrite (proj2 (Z.eqb_neq _ _)) by lia.
  - by apply NoDup_filter.
  - intros l' lk' E. assert (<[l := mkSpinlock 0 (lk_name lk) None (<[0%nat:=0]> (lk_pcs lk))]> (s_locks s) !! l' = Some lk') as E'.
    { destruct b; simpl in E; by rewrite !list_insert_insert_eq in E. }
    destruct (decide (l' = l)) as [->|Hne'].
    + rewrite list_lookup_insert_eq in E' by done. injection E' as <-.
      rewrite decide_False; [done|]. by intros [? _]%list_elem_of_filter.
    + rewrite list_lookup_insert_ne in E' by done. apply Hlk in E'. destruct (decide (l' ∈ held)).
      * by rewrite decide_True by (by apply list_elem_of_filter).
      * by rewrite decide_False by (by intros [_ ?]%list_elem_of_filter).
  - intros l' [_ ?]%list_elem_of_filter. destruct b; simpl; rewrite !length_insert; auto.
Qed.

(** A pushcli/popcli section. *)
Lemma ready_push_pop held intr s : ready ids k held intr s ->
  exists s1 s2, pushcli (ids k) s = Ret tt s1 /\ mycpu (ids k) s1 = Ret k s1 /\
    popcli (ids k) s1 = Ret tt s2 /\ ready ids k held intr s2 /\ s_locks s2 = s_locks s.
Proof.
  intros [Hok (c & Hc & Hn & Hi) Hif Hnd Hlk Hlt]. pose proof (lookup_lt_Some _ _ _ Hc) as Hkl.
  set (c1 := mkCpu (c_apicid c) (c_ncli c + 1) (if c_ncli c =? 0 then s_if s (ids k) else c_intena c)).
  assert (cpus_ok ids (pushed ids k c s)) as Hok1 by (by apply (cpus_ok_update ids s k c c1 Hok Hc)).
  assert (s_cpus (pushed ids k c s) !! k = Some c1) as Hc1 by (simpl; by apply list_lookup_insert_eq).
  assert (s_if (pushed ids k c s) (ids k) = false) as Hif1 by (simpl; by rewrite Z.eqb_refl).
  exists (pushed ids k c s), (popped ids k c1 (pushed ids k c s)).
  split; [by apply pushcli_run|]. split; [by apply (mycpu_run ids k c1)|].
  split; [apply popcli_run; [done|done|done|simpl; lia]|].
  split; [|unfold popped; by destruct (_ && _)].
  assert (c_intena c1 = intr) as Hi1.
  { simpl. destruct (Z.eqb_spec (c_ncli c) 0) as [E|E]; [rewrite Hif; destruct held; [done|simpl in Hn; lia]|].
    apply Hi. intros ->. simpl in *. lia. }
  unfold popped. rewrite Hi1. set (b := (c_ncli c1 =? 1) && intr). constructor.
  - apply (cpus_ok_update ids _ k c1 (mkCpu (c_apicid c1) (c_ncli c1 - 1) intr) Hok1 Hc1); [done|by destruct b].
  - exists (mkCpu (c_apicid c1) (c_ncli c1 - 1) intr). split; [|split; [simpl; lia|done]].
    destruct b; simpl; apply list_lookup_insert_eq; by rewrite length_insert.
  - unfold b. simpl. destruct held as [|l held]; simpl in *.
    + rewrite (proj2 (Z.eqb_eq _ _)) by lia. destruct intr; simpl; by rewrite ?Z.eqb_refl.
    + rewrite (proj2 (Z.eqb_neq _ _)) by lia. simpl. by rewrite Z.eqb_refl.
  - done.
  - intros l lk E. apply Hlk. by destruct b.
  - intros l Hl. replace (s_locks _) with (s_locks s) by (by destruct b). by apply Hlt.
Qed.

End ready.

(** ** Theorems *)

(** The next piece that a processor runs does not panic: of release of a lock it holds or acquire of
    one it does not hold, when it is between calls, and of the call it is in otherwise. *)
Definition can_go (ids : nat -> Z) (s : smp) (k : nat) (t : thread) : Prop :=
  match th_pc t with
  | Idle => forall l, is_Some (s_locks s !! l) ->
      (l ∈ th_held t -> exists s', release_begin (ids k) l s = Ret tt s') /\
      (l ∉ th_held t -> exists s', acquire_begin (ids k) l s = Ret tt s')
  | Spin l => is_Some (s_locks s !! l) -> exists ok s', acquire_try l s = Ret ok s'
  | Won l => is_Some (s_locks s !! l) -> forall pcs, exists s', acquire_end (ids k) l pcs s = Ret tt s'
  | Rel l => is_Some (s_locks s !! l) -> exists s', release_end (ids k) l s = Ret tt s'
  end.

Lemma inv_can_go ids s ths k t : linv ids (s, ths) -> ths !! k = Some t -> can_go ids s k t.
Proof.
  intros Hinv Ht. destruct (linv_cpu _ _ _ _ _ Hinv Ht) as (c & Hk & Hok). pose proof (li_cpus _ _ Hinv) as Hcs.
  simpl in Hcs. unfold can_go. destruct (th_pc t) as [|l|l|l] eqn:Hpc.
  - intros l [lk Hl]. split; intros Hh.
    + destruct Hok. destruct co_in0 as [Hif _]; [by eapply depth_held|].
      unfold release_begin, bind. rewrite (holding_run ids k c _ l lk) by done.
      rewrite (proj2 (holder_iff ids s ths k t Hinv Ht l lk Hl) Hh). simpl.
      unfold getlk, putlk, modify. rewrite Hl. simpl. rewrite list_lookup_insert_eq by (by eapply lookup_lt_Some). eauto.
    + unfold acquire_begin, bind. rewrite (pushcli_run ids k c) by done.
      erewrite (holding_run ids k _ _ l lk); [| | |simpl; by rewrite Z.eqb_refl|exact Hl].
      * destruct (_ && _) eqn:Hb; [|eauto]. by apply (holder_iff ids s ths k t Hinv Ht l lk Hl) in Hb.
      * eapply (cpus_ok_update ids s k c _ Hcs Hk); [|reflexivity]. done.
      * simpl. by rewrite list_lookup_insert_eq by (by eapply lookup_lt_Some).
  - intros [lk Hl]. unfold acquire_try, xchg, bind, getlk. rewrite Hl. simpl. eauto.
  - intros [lk Hl] pcs. destruct Hok. destruct co_in0 as [Hif _]; [apply depth_pos; by rewrite Hpc|].
    unfold acquire_end, bind. rewrite (mycpu_run ids k c) by done. unfold getlk. rewrite Hl. eexists. reflexivity.
  - intros [lk Hl]. destruct Hok. destruct co_in0 as [Hif _]; [apply depth_pos; by rewrite Hpc|].
    unfold release_end, bind, getlk. rewrite Hl. unfold putlk, modify.
    rewrite (popcli_run ids k c); [eauto|done|done|done|]. rewrite co_ncli0. unfold depth. rewrite Hpc. lia.
Qed.

(** C11: spin locks exclude.  From a state in which all processors are outside of locked code and all
    locks are free, however the processors interleave the pieces of acquire and release: no two hold
    the same lock; a processor that holds a lock has its interrupts off; when it holds none, its
    interrupt flag is what it was before its first acquire; and no piece of acquire of a lock that the
    processor does not hold, nor of release of a lock it holds, panics. *)
Theorem spinlock_mutual_exclusion ids s ths s' ths' :
  quiescent ids s ths -> rtc (lstep ids) (s, ths) (s', ths') ->
  (forall l k1 k2 t1 t2, ths' !! k1 = Some t1 -> ths' !! k2 = Some t2 -> is_Some (s_locks s' !! l) ->
     l ∈ th_held t1 -> l ∈ th_held t2 -> k1 = k2) /\
  (forall k t l, ths' !! k = Some t -> l ∈ th_held t -> s_if s' (ids k) = false) /\
  (forall k t, ths' !! k = Some t -> th_pc t = Idle -> th_held t = [] -> s_if s' (ids k) = th_intr t) /\
  (forall k t, ths' !! k = Some t -> can_go ids s' k t).
Proof.
  intros Hq Hr. pose proof (reachable_inv _ _ _ _ Hq Hr) as Hinv. split; [|split; [|split]].
  - intros l k1 k2 t1 t2 H1 H2 [lk Hl] Hh1 Hh2. destruct (li_lock _ _ Hinv l lk Hl) as [_ He _].
    apply (He k1 k2 t1 t2); try done; by left.
  - intros k t l Ht Hl. destruct (linv_cpu _ _ _ _ _ Hinv Ht) as (c & _ & []). apply co_in0. by eapply depth_held.
  - intros k t Ht Hpc Hh. destruct (linv_cpu _ _ _ _ _ Hinv Ht) as (c & _ & []). apply co_out0.
    unfold depth. by rewrite Hpc, Hh.
  - intros k t Ht. by apply (inv_can_go ids s' ths').
Qed.

(** Two processors with interrupts on and two locks; the first acquires lock 0. *)
Definition demo_smp : smp :=
  mkSmp (fun _ => true) [mkCpu 0 0 false; mkCpu 1 0 false]
    [mkSpinlock 0 "a" None []; mkSpinlock 0 "b" None []] [].
Definition demo_threads : list thread := [mkThread Idle [] true; mkThread Idle [] true].

Lemma spinlock_mutual_exclusion_witness :
  exists s', rtc (lstep Z.of_nat) (demo_smp, demo_threads) (s', [mkThread Idle [0%nat] true; mkThread Idle [] true]) /\
    s_if s' 0 = false.
Proof.
  assert (exists s', rtc (lstep Z.of_nat) (demo_smp, demo_threads)
    (s', [mkThread Idle [0%nat] true; mkThread Idle [] true])) as [s' Hs'].
  { eexists. eapply rtc_l; [eapply (step_begin Z.of_nat demo_smp _ demo_threads 0%nat (mkThread Idle [] true) 0%nat); reflexivity|].
    eapply rtc_l; [eapply (step_try Z.of_nat _ _ _ 0%nat (mkThread (Spin 0%nat) [] true) 0%nat); reflexivity|]. simpl.
    eapply rtc_l; [eapply (step_end Z.of_nat _ _ _ 0%nat (mkThread (Won 0%nat) [] true) 0%nat []); reflexivity|].
    apply rtc_refl. }
  exists s'. split; [exact Hs'|].
  refine (proj1 (proj2 (spinlock_mutual_exclusion Z.of_nat demo_smp demo_threads s' _ _ Hs')) 0%nat (mkThread Idle [0%nat] true) 0%nat _ _).
  - split; [|split; [done|split]].
    + split; [|lia]. intros [|[|k]] c Hc; simplify_eq/=; done.
    + intros [|[|k]] c t Hc Ht; simplify_eq/=; done.
    + intros [|[|l]] lk Hl; simplify_eq/=; done.
  - reflexivity.
  - constructor.
Defined.

(** acquire and release are inverse.  A processor that acquires a lock nobody holds and releases
    it again returns from both; the lock is free, its nesting depth and its interrupt flag are what
    they were, and the other processors' states are untouched. *)
Lemma acquire_release_inverse ids s k c l lk pcs :
  cpus_ok ids s -> s_cpus s !! k = Some c -> 0 <= c_ncli c -> (0 < c_ncli c -> s_if s (ids k) = false) ->
  s_locks s !! l = Some lk -> lk_locked lk = 0 ->
  exists s', (acquire 1 (ids k) l pcs ;;; release (ids k) l) s = Ret tt s' /\
    s_locks s' !! l = Some (mkSpinlock 0 (lk_name lk) None (<[0%nat := 0]> pcs)) /\
    (forall i, s_if s' i = s_if s i) /\
    (exists b, s_cpus s' = <[k := mkCpu (c_apicid c) (c_ncli c) b]> (s_cpus s)) /\
    (forall l', l' <> l -> s_locks s' !! l' = s_locks s !! l').
Proof.
  intros Hok Hk Hn Hif Hl H0. pose proof (lookup_lt_Some _ _ _ Hk) as Hkl. pose proof (lookup_lt_Some _ _ _ Hl) as Hll.
  pose proof (proj1 Hok k c Hk) as Hid.
  set (c1 := mkCpu (c_apicid c) (c_ncli c + 1) (if c_ncli c =? 0 then s_if s (ids k) else c_intena c)).
  assert (forall s', s_cpus s' = <[k := c1]> (s_cpus s) -> cpus_ok ids s') as Hok'.
  { intros s' E. by apply (cpus_ok_update ids s k c c1 Hok Hk). }
  assert (forall s', s_cpus s' = <[k := c1]> (s_cpus s) -> s_cpus s' !! k = Some c1) as Hk'.
  { intros s' ->. by apply list_lookup_insert_eq. }
  unfold acquire, acquire_begin, release, release_begin, release_end. unfold bind at 1 2 3 4.
  rewrite (pushcli_run ids k c) by done.
  rewrite (holding_run ids k c1 _ l lk); [|by apply Hok'|by apply Hk'|simpl; by rewrite Z.eqb_refl|done].
  rewrite H0. simpl. unfold bind, acquire_try, xchg, acquire_end, bind, getlk, putlk, modify. simpl. rewrite Hl. simpl.
  rewrite H0. simpl. rewrite (mycpu_run ids k c1); [|by apply Hok'|by apply Hk'|simpl; by rewrite Z.eqb_refl].
  simpl. rewrite list_lookup_insert_eq by done. simpl.
  erewrite (holding_run ids k c1 _ l); [|by apply Hok'|by apply Hk'|simpl; by rewrite Z.eqb_refl|
    simpl; rewrite list_lookup_insert_eq by (by rewrite length_insert); reflexivity].
  simpl. rewrite bool_decide_eq_true_2 by done. simpl.
  do 3 (rewrite list_lookup_insert_eq by (rewrite ?length_insert; done); simpl).
  rewrite (popcli_run ids k c1); [|by apply Hok'|by apply Hk'|simpl; by rewrite Z.eqb_refl|simpl; lia].
  eexists. split; [reflexivity|]. unfold popped. rewrite !list_insert_insert_eq.
  simpl. replace (c_ncli c + 1 =? 1) with (c_ncli c =? 0) by zcase.
  replace (c_ncli c + 1 - 1) with (c_ncli c) by lia.
  destruct (Z.eqb_spec (c_ncli c) 0) as [E0|E0]; simpl.
  - destruct (s_if s (ids k)) eqn:Ei; simpl; rewrite !list_insert_insert_eq, list_lookup_insert_eq by done;
      (split; [done|]; split; [intros i; destruct (Z.eqb_spec i (ids k)); congruence|]; split; [eauto|];
       intros l' Hl'; by rewrite list_lookup_insert_ne).
  - rewrite !list_insert_insert_eq, list_lookup_insert_eq by done. split; [done|]. split; [|split; [eauto|]].
    + intros i. destruct (Z.eqb_spec i (ids k)) as [->|]; [|done]. symmetry. apply Hif. lia.
    + intros l' Hl'. by rewrite list_lookup_insert_ne.
Qed.

