(* ===== verification/Resume.v ===== *)
(** * Kernel code that switches contexts

    swtch() suspends the code that calls it; it goes on, in a state that others have changed in
    the meantime, when somebody switches back.  [prog] is code with such points: actions on the
    kernel state, sequenced, and switches.  [run_until] runs a program to its next switch,
    [run_with] runs it to its end, with the rest of the system ([env]) running at each switch, and
    logs an observation of the state there. *)
From stdpp Require Import base list.
From S2P Require Import Prelude.

Inductive prog (S A : Type) : Type :=
| PRet (a : A)
| PAct (B : Type) (m : M S B) (k : B -> prog S A)
| PSwtch (k : prog S A).
Arguments PRet {S A} a.
Arguments PAct {S A B} m k.
Arguments PSwtch {S A} k.

Fixpoint pbind {S A B} (p : prog S A) (f : A -> prog S B) : prog S B :=
  match p with
  | PRet a => f a
  | PAct m k => PAct m (fun b => pbind (k b) f)
  | PSwtch k => PSwtch (pbind k f)
  end.

Definition act {S A} (m : M S A) : prog S A := PAct m PRet.
Definition swtch {S} : prog S unit := PSwtch (PRet tt).

Notation "'do!' x ':=' p 'in' k" := (pbind p (fun x => k))
  (at level 10, x pattern, p at level 100, k at level 200) : kernel_scope.
Notation "p ;;? k" := (pbind p (fun _ => k))
  (at level 110, k at level 200, right associativity) : kernel_scope.

(** Up to the next switch: the rest of the program, or its result. *)
Fixpoint run_until {S A} (p : prog S A) (s : S) : out S (A + prog S A) :=
  match p with
  | PRet a => Ret (inl a) s
  | PAct m k => match m s with
                | Ret b s' => run_until (k b) s'
                | Panic e s' => Panic e s'
                | Fault s' => Fault s'
                | NoFuel s' => NoFuel s'
                end
  | PSwtch k => Ret (inr k) s
  end.

Fixpoint run_with {S A X} (obs : S -> X) (env : M S unit) (p : prog S A) (s : S) : out S (A * list X) :=
  match p with
  | PRet a => Ret (a, []) s
  | PAct m k => match m s with
                | Ret b s' => run_with obs env (k b) s'
                | Panic e s' => Panic e s'
                | Fault s' => Fault s'
                | NoFuel s' => NoFuel s'
                end
  | PSwtch k => match env s with
                | Ret _ s' => match run_with obs env k s' with
                              | Ret (a, log) s'' => Ret (a, obs s :: log) s''
                              | Panic e s'' => Panic e s''
                              | Fault s'' => Fault s''
                              | NoFuel s'' => NoFuel s''
                              end
                | Panic e s' => Panic e s'
                | Fault s' => Fault s'
                | NoFuel s' => NoFuel s'
                end
  end.

(** ** Weakest preconditions *)

(** [rwp p Q s]: run with [env], [p] ends with a result, a log and a state in [Q]. *)
Definition rwp {S A X} (obs : S -> X) (env : M S unit) (p : prog S A) (Q : A -> list X -> S -> Prop) (s : S) : Prop :=
  wp (run_with obs env p) (fun r s' => Q r.1 r.2 s') s.

Section rwp.
Context {S X : Type} (obs : S -> X) (env : M S unit).

Lemma rwp_mono {A} (p : prog S A) (P Q : A -> list X -> S -> Prop) s :
  rwp obs env p P s -> (forall a l s', P a l s' -> Q a l s') -> rwp obs env p Q s.
Proof. intros H HPQ. eapply wp_mono; [exact H|]. intros [a l] s'. apply HPQ. Qed.

Lemma rwp_ret {A} (a : A) (Q : A -> list X -> S -> Prop) s : Q a [] s -> rwp obs env (PRet a) Q s.
Proof. done. Qed.

Lemma rwp_bind {A B} (p : prog S A) (f : A -> prog S B) (Q : B -> list X -> S -> Prop) s :
  rwp obs env p (fun a l s' => rwp obs env (f a) (fun b l' => Q b (l ++ l')) s') s -> rwp obs env (pbind p f) Q s.
Proof.
  revert Q s. unfold rwp. induction p as [a|B' m k IH|k IH]; intros Q s; unfold wp in *; simpl.
  - done.
  - destruct (m s); [apply IH|done..].
  - destruct (env s) as [[] s'|?|?|?]; [|done..]. specialize (IH (fun b l => Q b (obs s :: l)) s').
    destruct (run_with obs env k s') as [[a l] s''|?|?|?]; simpl in *; [|done..].
    intros H. specialize (IH H). destruct (run_with obs env (pbind k f) s') as [[b l'] s3|?|?|?]; done.
Qed.

Lemma rwp_act {A} (m : M S A) (Q : A -> list X -> S -> Prop) s :
  wp m (fun a s' => Q a [] s') s -> rwp obs env (act m) Q s.
Proof. unfold rwp, wp. simpl. by destruct (m s). Qed.

Lemma rwp_swtch (Q : unit -> list X -> S -> Prop) s :
  wp env (fun _ s' => Q tt [obs s] s') s -> rwp obs env swtch Q s.
Proof. unfold rwp, wp. simpl. by destruct (env s). Qed.

End rwp.

(** Sequencing, for a run to the next switch. *)
Lemma run_until_bind {S A B} (p : prog S A) (f : A -> prog S B) s :
  run_until (pbind p f) s =
  match run_until p s with
  | Ret (inl a) s' => run_until (f a) s'
  | Ret (inr k) s' => Ret (inr (pbind k f)) s'
  | Panic e s' => Panic e s'
  | Fault s' => Fault s'
  | NoFuel s' => NoFuel s'
  end.
Proof. revert s. induction p as [a|B' m k IH|k IH]; intros s; simpl; [done| |done]. destruct (m s); auto. Qed.

Lemma run_until_act {S A} (m : M S A) s a s' : m s = Ret a s' -> run_until (act m) s = Ret (inl a) s'.
Proof. simpl. by intros ->. Qed.
