(* ===== verification/Kstate.v ===== *)
(** * Kernel data structures (src/proc.h, src/x86.h) and the kernel state

    The structures of proc.h as records, with one setter per field that the code writes, and the
    state [kst] that the virtual-memory and process code runs on: memory and page allocator, the
    active page directory, the process table, and a file system whose representation [F] is a
    parameter.  A pointer into an array is the index of the element, the null pointer is [None].
    The spin locks and the state of the processors are those of [Spinlock]. *)
From Stdlib Require Import ZArith Lia.
From stdpp Require Import base list numbers strings.
From S2P Require Import Prelude Mmu Mem Kalloc PageTable Spinlock.
Local Open Scope Z_scope.

Definition MAX_PSYC_PAGES : nat := 16.
Definition MAX_TOTAL_PAGES : Z := 32.
Definition NPROC : nat := 64.
Definition KSTACKSIZE : Z := 4096.
Definition NOFILE : nat := 16.

(** [(char* )-1]: the mark of an unused slot. *)
Definition NOVA : Z := 0xFFFFFFFF.

(** The page-replacement scheme chosen when the kernel is built (Makefile: -D$(SELECTION)). *)
Inductive selection := SCFIFO | NFUA | LAPA | AQ | NONE.
#[export] Instance selection_eq_dec : EqDecision selection.
Proof. solve_decision. Defined.

Inductive procstate := UNUSED | EMBRYO | SLEEPING | RUNNABLE | RUNNING | ZOMBIE.
#[export] Instance procstate_eq_dec : EqDecision procstate.
Proof. solve_decision. Defined.

(** Sleep channels are addresses used only for equality: the objects the kernel sleeps on. *)
Inductive chan :=
| NoChan | ChanTicks | ChanProc (i : nat) | ChanLog | ChanBuf (i : nat) | ChanSleeplock (i : nat)
| ChanPipeRead (i : nat) | ChanPipeWrite (i : nat) | ChanInput.
#[export] Instance chan_eq_dec : EqDecision chan.
Proof. solve_decision. Defined.

(** ** Structures *)

Record free_page := mkFreePage {
  fp_next : option nat;  (* struct free_page *next *)
  fp_prev : option nat;  (* struct free_page *prev *)
  fp_va : Z;
  fp_age : Z }.  (* uint *)

Definition set_fp_next (v : option nat) (r : free_page) : free_page :=
  mkFreePage v (fp_prev r) (fp_va r) (fp_age r).
Definition set_fp_prev (v : option nat) (r : free_page) : free_page :=
  mkFreePage (fp_next r) v (fp_va r) (fp_age r).
Definition set_fp_va (v : Z) (r : free_page) : free_page :=
  mkFreePage (fp_next r) (fp_prev r) v (fp_age r).
Definition set_fp_age (v : Z) (r : free_page) : free_page :=
  mkFreePage (fp_next r) (fp_prev r) (fp_va r) v.

Record disk_info := mkDiskInfo {
  di_va : Z;
  di_location : Z }.

Definition set_di_va (v : Z) (r : disk_info) : disk_info :=
  mkDiskInfo v (di_location r).
Definition set_di_location (v : Z) (r : disk_info) : disk_info :=
  mkDiskInfo (di_va r) v.

Record trapframe := mkTrapframe {
  tf_edi : Z;
  tf_esi : Z;
  tf_ebp : Z;
  tf_oesp : Z;
  tf_ebx : Z;
  tf_edx : Z;
  tf_ecx : Z;
  tf_eax : Z;
  tf_gs : Z;
  tf_fs : Z;
  tf_es : Z;
  tf_ds : Z;
  tf_trapno : Z;
  tf_err : Z;
  tf_eip : Z;
  tf_cs : Z;
  tf_eflags : Z;
  tf_esp : Z;
  tf_ss : Z }.

Definition set_tf_eax (v : Z) (r : trapframe) : trapframe :=
  mkTrapframe (tf_edi r) (tf_esi r) (tf_ebp r) (tf_oesp r) (tf_ebx r) (tf_edx r) (tf_ecx r) v
    (tf_gs r) (tf_fs r) (tf_es r) (tf_ds r) (tf_trapno r) (tf_err r) (tf_eip r) (tf_cs r)
    (tf_eflags r) (tf_esp r) (tf_ss r).
Definition set_tf_es (v : Z) (r : trapframe) : trapframe :=
  mkTrapframe (tf_edi r) (tf_esi r) (tf_ebp r) (tf_oesp r) (tf_ebx r) (tf_edx r) (tf_ecx r)
    (tf_eax r) (tf_gs r) (tf_fs r) v (tf_ds r) (tf_trapno r) (tf_err r) (tf_eip r) (tf_cs r)
    (tf_eflags r) (tf_esp r) (tf_ss r).
Definition set_tf_ds (v : Z) (r : trapframe) : trapframe :=
  mkTrapframe (tf_edi r) (tf_esi r) (tf_ebp r) (tf_oesp r) (tf_ebx r) (tf_edx r) (tf_ecx r)
    (tf_eax r) (tf_gs r) (tf_fs r) (tf_es r) v (tf_trapno r) (tf_err r) (tf_eip r) (tf_cs r)
    (tf_eflags r) (tf_esp r) (tf_ss r).
Definition set_tf_eip (v : Z) (r : trapframe) : trapframe :=
  mkTrapframe (tf_edi r) (tf_esi r) (tf_ebp r) (tf_oesp r) (tf_ebx r) (tf_edx r) (tf_ecx r)
    (tf_eax r) (tf_gs r) (tf_fs r) (tf_es r) (tf_ds r) (tf_trapno r) (tf_err r) v (tf_cs r)
    (tf_eflags r) (tf_esp r) (tf_ss r).
Definition set_tf_cs (v : Z) (r : trapframe) : trapframe :=
  mkTrapframe (tf_edi r) (tf_esi r) (tf_ebp r) (tf_oesp r) (tf_ebx r) (tf_edx r) (tf_ecx r)
    (tf_eax r) (tf_gs r) (tf_fs r) (tf_es r) (tf_ds r) (tf_trapno r) (tf_err r) (tf_eip r) v
    (tf_eflags r) (tf_esp r) (tf_ss r).
Definition set_tf_eflags (v : Z) (r : trapframe) : trapframe :=
  mkTrapframe (tf_edi r) (tf_esi r) (tf_ebp r) (tf_oesp r) (tf_ebx r) (tf_edx r) (tf_ecx r)
    (tf_eax r) (tf_gs r) (tf_fs r) (tf_es r) (tf_ds r) (tf_trapno r) (tf_err r) (tf_eip r)
    (tf_cs r) v (tf_esp r) (tf_ss r).
Definition set_tf_esp (v : Z) (r : trapframe) : trapframe :=
  mkTrapframe (tf_edi r) (tf_esi r) (tf_ebp r) (tf_oesp r) (tf_ebx r) (tf_edx r) (tf_ecx r)
    (tf_eax r) (tf_gs r) (tf_fs r) (tf_es r) (tf_ds r) (tf_trapno r) (tf_err r) (tf_eip r)
    (tf_cs r) (tf_eflags r) v (tf_ss r).
Definition set_tf_ss (v : Z) (r : trapframe) : trapframe :=
  mkTrapframe (tf_edi r) (tf_esi r) (tf_ebp r) (tf_oesp r) (tf_ebx r) (tf_edx r) (tf_ecx r)
    (tf_eax r) (tf_gs r) (tf_fs r) (tf_es r) (tf_ds r) (tf_trapno r) (tf_err r) (tf_eip r)
    (tf_cs r) (tf_eflags r) (tf_esp r) v.

Record context := mkContext {
  c_edi : Z;
  c_esi : Z;
  c_ebx : Z;
  c_ebp : Z;
  c_eip : Z }.

Definition set_c_eip (v : Z) (r : context) : context :=
  mkContext (c_edi r) (c_esi r) (c_ebx r) (c_ebp r) v.

Record proc := mkProc {
  p_sz : Z;  (* size of process memory (bytes) *)
  p_pgdir : Z;  (* page table *)
  p_kstack : Z;  (* bottom of kernel stack *)
  p_state : procstate;
  p_pid : Z;
  p_parent : option nat;  (* index in ptable.proc *)
  p_tf : trapframe;  (* *p->tf *)
  p_context : context;  (* *p->context *)
  p_retaddr : Z;  (* the word above the context: where forkret returns to *)
  p_chan : chan;
  p_killed : bool;
  p_ofile : list (option nat);  (* indices in ftable.file *)
  p_cwd : option nat;  (* index in icache.inode *)
  p_name : list Z;  (* 16 bytes *)
  p_swapFile : option nat;  (* index in ftable.file *)
  p_pages_in_memory_counter : Z;
  p_pages_in_swapfile_counter : Z;
  p_pagedout : Z;
  p_fault_counter : Z;
  p_disk_pg_arr : list disk_info;
  p_memory_pg_arr : list free_page;
  p_head : option nat;  (* index in memory_pg_arr *)
  p_tail : option nat }.

Definition set_p_sz (v : Z) (r : proc) : proc :=
  mkProc v (p_pgdir r) (p_kstack r) (p_state r) (p_pid r) (p_parent r) (p_tf r) (p_context r)
    (p_retaddr r) (p_chan r) (p_killed r) (p_ofile r) (p_cwd r) (p_name r) (p_swapFile r)
    (p_pages_in_memory_counter r) (p_pages_in_swapfile_counter r) (p_pagedout r)
    (p_fault_counter r) (p_disk_pg_arr r) (p_memory_pg_arr r) (p_head r) (p_tail r).
Definition set_p_pgdir (v : Z) (r : proc) : proc :=
  mkProc (p_sz r) v (p_kstack r) (p_state r) (p_pid r) (p_parent r) (p_tf r) (p_context r)
    (p_retaddr r) (p_chan r) (p_killed r) (p_ofile r) (p_cwd r) (p_name r) (p_swapFile r)
    (p_pages_in_memory_counter r) (p_pages_in_swapfile_counter r) (p_pagedout r)
    (p_fault_counter r) (p_disk_pg_arr r) (p_memory_pg_arr r) (p_head r) (p_tail r).
Definition set_p_kstack (v : Z) (r : proc) : proc :=
  mkProc (p_sz r) (p_pgdir r) v (p_state r) (p_pid r) (p_parent r) (p_tf r) (p_context r)
    (p_retaddr r) (p_chan r) (p_killed r) (p_ofile r) (p_cwd r) (p_name r) (p_swapFile r)
    (p_pages_in_memory_counter r) (p_pages_in_swapfile_counter r) (p_pagedout r)
    (p_fault_counter r) (p_disk_pg_arr r) (p_memory_pg_arr r) (p_head r) (p_tail r).
Definition set_p_state (v : procstate) (r : proc) : proc :=
  mkProc (p_sz r) (p_pgdir r) (p_kstack r) v (p_pid r) (p_parent r) (p_tf r) (p_context r)
    (p_retaddr r) (p_chan r) (p_killed r) (p_ofile r) (p_cwd r) (p_name r) (p_swapFile r)
    (p_pages_in_memory_counter r) (p_pages_in_swapfile_counter r) (p_pagedout r)
    (p_fault_counter r) (p_disk_pg_arr r) (p_memory_pg_arr r) (p_head r) (p_tail r).
Definition set_p_pid (v : Z) (r : proc) : proc :=
  mkProc (p_sz r) (p_pgdir r) (p_kstack r) (p_state r) v (p_parent r) (p_tf r) (p_context r)
    (p_retaddr r) (p_chan r) (p_killed r) (p_ofile r) (p_cwd r) (p_name r) (p_swapFile r)
    (p_pages_in_memory_counter r) (p_pages_in_swapfile_counter r) (p_pagedout r)
    (p_fault_counter r) (p_disk_pg_arr r) (p_memory_pg_arr r) (p_head r) (p_tail r).
Definition set_p_parent (v : option nat) (r : proc) : proc :=
  mkProc (p_sz r) (p_pgdir r) (p_kstack r) (p_state r) (p_pid r) v (p_tf r) (p_context r)
    (p_retaddr r) (p_chan r) (p_killed r) (p_ofile r) (p_cwd r) (p_name r) (p_swapFile r)
    (p_pages_in_memory_counter r) (p_pages_in_swapfile_counter r) (p_pagedout r)
    (p_fault_counter r) (p_disk_pg_arr r) (p_memory_pg_arr r) (p_head r) (p_tail r).
Definition set_p_tf (v : trapframe) (r : proc) : proc :=
  mkProc (p_sz r) (p_pgdir r) (p_kstack r) (p_state r) (p_pid r) (p_parent r) v (p_context r)
    (p_retaddr r) (p_chan r) (p_killed r) (p_ofile r) (p_cwd r) (p_name r) (p_swapFile r)
    (p_pages_in_memory_counter r) (p_pages_in_swapfile_counter r) (p_pagedout r)
    (p_fault_counter r) (p_disk_pg_arr r) (p_memory_pg_arr r) (p_head r) (p_tail r).
Definition set_p_context (v : context) (r : proc) : proc :=
  mkProc (p_sz r) (p_pgdir r) (p_kstack r) (p_state r) (p_pid r) (p_parent r) (p_tf r) v
    (p_retaddr r) (p_chan r) (p_killed r) (p_ofile r) (p_cwd r) (p_name r) (p_swapFile r)
    (p_pages_in_memory_counter r) (p_pages_in_swapfile_counter r) (p_pagedout r)
    (p_fault_counter r) (p_disk_pg_arr r) (p_memory_pg_arr r) (p_head r) (p_tail r).
Definition set_p_retaddr (v : Z) (r : proc) : proc :=
  mkProc (p_sz r) (p_pgdir r) (p_kstack r) (p_state r) (p_pid r) (p_parent r) (p_tf r)
    (p_context r) v (p_chan r) (p_killed r) (p_ofile r) (p_cwd r) (p_name r) (p_swapFile r)
    (p_pages_in_memory_counter r) (p_pages_in_swapfile_counter r) (p_pagedout r)
    (p_fault_counter r) (p_disk_pg_arr r) (p_memory_pg_arr r) (p_head r) (p_tail r).
Definition set_p_chan (v : chan) (r : proc) : proc :=
  mkProc (p_sz r) (p_pgdir r) (p_kstack r) (p_state r) (p_pid r) (p_parent r) (p_tf r)
    (p_context r) (p_retaddr r) v (p_killed r) (p_ofile r) (p_cwd r) (p_name r) (p_swapFile r)
    (p_pages_in_memory_counter r) (p_pages_in_swapfile_counter r) (p_pagedout r)
    (p_fault_counter r) (p_disk_pg_arr r) (p_memory_pg_arr r) (p_head r) (p_tail r).
Definition set_p_killed (v : bool) (r : proc) : proc :=
  mkProc (p_sz r) (p_pgdir r) (p_kstack r) (p_state r) (p_pid r) (p_parent r) (p_tf r)
    (p_context r) (p_retaddr r) (p_chan r) v (p_ofile r) (p_cwd r) (p_name r) (p_swapFile r)
    (p_pages_in_memory_counter r) (p_pages_in_swapfile_counter r) (p_pagedout r)
    (p_fault_counter r) (p_disk_pg_arr r) (p_memory_pg_arr r) (p_head r) (p_tail r).
Definition set_p_ofile (v : list (option nat)) (r : proc) : proc :=
  mkProc (p_sz r) (p_pgdir r) (p_kstack r) (p_state r) (p_pid r) (p_parent r) (p_tf r)
    (p_context r) (p_retaddr r) (p_chan r) (p_killed r) v (p_cwd r) (p_name r) (p_swapFile r)
    (p_pages_in_memory_counter r) (p_pages_in_swapfile_counter r) (p_pagedout r)
    (p_fault_counter r) (p_disk_pg_arr r) (p_memory_pg_arr r) (p_head r) (p_tail r).
Definition set_p_cwd (v : option nat) (r : proc) : proc :=
  mkProc (p_sz r) (p_pgdir r) (p_kstack r) (p_state r) (p_pid r) (p_parent r) (p_tf r)
    (p_context r) (p_retaddr r) (p_chan r) (p_killed r) (p_ofile r) v (p_name r) (p_swapFile r)
    (p_pages_in_memory_counter r) (p_pages_in_swapfile_counter r) (p_pagedout r)
    (p_fault_counter r) (p_disk_pg_arr r) (p_memory_pg_arr r) (p_head r) (p_tail r).
Definition set_p_name (v : list Z) (r : proc) : proc :=
  mkProc (p_sz r) (p_pgdir r) (p_kstack r) (p_state r) (p_pid r) (p_parent r) (p_tf r)
    (p_context r) (p_retaddr r) (p_chan r) (p_killed r) (p_ofile r) (p_cwd r) v (p_swapFile r)
    (p_pages_in_memory_counter r) (p_pages_in_swapfile_counter r) (p_pagedout r)
    (p_fault_counter r) (p_disk_pg_arr r) (p_memory_pg_arr r) (p_head r) (p_tail r).
Definition set_p_swapFile (v : option nat) (r : proc) : proc :=
  mkProc (p_sz r) (p_pgdir r) (p_kstack r) (p_state r) (p_pid r) (p_parent r) (p_tf r)
    (p_context r) (p_retaddr r) (p_chan r) (p_killed r) (p_ofile r) (p_cwd r) (p_name r) v
    (p_pages_in_memory_counter r) (p_pages_in_swapfile_counter r) (p_pagedout r)
    (p_fault_counter r) (p_disk_pg_arr r) (p_memory_pg_arr r) (p_head r) (p_tail r).
Definition set_p_pages_in_memory_counter (v : Z) (r : proc) : proc :=
  mkProc (p_sz r) (p_pgdir r) (p_kstack r) (p_state r) (p_pid r) (p_parent r) (p_tf r)
    (p_context r) (p_retaddr r) (p_chan r) (p_killed r) (p_ofile r) (p_cwd r) (p_name r)
    (p_swapFile r) v (p_pages_in_swapfile_counter r) (p_pagedout r) (p_fault_counter r)
    (p_disk_pg_arr r) (p_memory_pg_arr r) (p_head r) (p_tail r).
Definition set_p_pages_in_swapfile_counter (v : Z) (r : proc) : proc :=
  mkProc (p_sz r) (p_pgdir r) (p_kstack r) (p_state r) (p_pid r) (p_parent r) (p_tf r)
    (p_context r) (p_retaddr r) (p_chan r) (p_killed r) (p_ofile r) (p_cwd r) (p_name r)
    (p_swapFile r) (p_pages_in_memory_counter r) v (p_pagedout r) (p_fault_counter r)
    (p_disk_pg_arr r) (p_memory_pg_arr r) (p_head r) (p_tail r).
Definition set_p_pagedout (v : Z) (r : proc) : proc :=
  mkProc (p_sz r) (p_pgdir r) (p_kstack r) (p_state r) (p_pid r) (p_parent r) (p_tf r)
    (p_context r) (p_retaddr r) (p_chan r) (p_killed r) (p_ofile r) (p_cwd r) (p_name r)
    (p_swapFile r) (p_pages_in_memory_counter r) (p_pages_in_swapfile_counter r) v
    (p_fault_counter r) (p_disk_pg_arr r) (p_memory_pg_arr r) (p_head r) (p_tail r).
Definition set_p_fault_counter (v : Z) (r : proc) : proc :=
  mkProc (p_sz r) (p_pgdir r) (p_kstack r) (p_state r) (p_pid r) (p_parent r) (p_tf r)
    (p_context r) (p_retaddr r) (p_chan r) (p_killed r) (p_ofile r) (p_cwd r) (p_name r)
    (p_swapFile r) (p_pages_in_memory_counter r) (p_pages_in_swapfile_counter r) (p_pagedout r) v
    (p_disk_pg_arr r) (p_memory_pg_arr r) (p_head r) (p_tail r).
Definition set_p_disk_pg_arr (v : list disk_info) (r : proc) : proc :=
  mkProc (p_sz r) (p_pgdir r) (p_kstack r) (p_state r) (p_pid r) (p_parent r) (p_tf r)
    (p_context r) (p_retaddr r) (p_chan r) (p_killed r) (p_ofile r) (p_cwd r) (p_name r)
    (p_swapFile r) (p_pages_in_memory_counter r) (p_pages_in_swapfile_counter r) (p_pagedout r)
    (p_fault_counter r) v (p_memory_pg_arr r) (p_head r) (p_tail r).
Definition set_p_memory_pg_arr (v : list free_page) (r : proc) : proc :=
  mkProc (p_sz r) (p_pgdir r) (p_kstack r) (p_state r) (p_pid r) (p_parent r) (p_tf r)
    (p_context r) (p_retaddr r) (p_chan r) (p_killed r) (p_ofile r) (p_cwd r) (p_name r)
    (p_swapFile r) (p_pages_in_memory_counter r) (p_pages_in_swapfile_counter r) (p_pagedout r)
    (p_fault_counter r) (p_disk_pg_arr r) v (p_head r) (p_tail r).
Definition set_p_head (v : option nat) (r : proc) : proc :=
  mkProc (p_sz r) (p_pgdir r) (p_kstack r) (p_state r) (p_pid r) (p_parent r) (p_tf r)
    (p_context r) (p_retaddr r) (p_chan r) (p_killed r) (p_ofile r) (p_cwd r) (p_name r)
    (p_swapFile r) (p_pages_in_memory_counter r) (p_pages_in_swapfile_counter r) (p_pagedout r)
    (p_fault_counter r) (p_disk_pg_arr r) (p_memory_pg_arr r) v (p_tail r).
Definition set_p_tail (v : option nat) (r : proc) : proc :=
  mkProc (p_sz r) (p_pgdir r) (p_kstack r) (p_state r) (p_pid r) (p_parent r) (p_tf r)
    (p_context r) (p_retaddr r) (p_chan r) (p_killed r) (p_ofile r) (p_cwd r) (p_name r)
    (p_swapFile r) (p_pages_in_memory_counter r) (p_pages_in_swapfile_counter r) (p_pagedout r)
    (p_fault_counter r) (p_disk_pg_arr r) (p_memory_pg_arr r) (p_head r) v.

(** The fields of struct taskstate that the kernel sets. *)
Record taskstate := mkTaskstate { ts_esp0 : Z; ts_ss0 : Z; ts_iomb : Z }.

Record kst (F : Type) := mkKst {
  k_mem : kmem;  (* memory and page allocator *)
  k_cr3 : Z;  (* physical address of the active page directory *)
  k_procs : list proc;  (* ptable.proc *)
  k_cur : option nat;  (* mycpu()->proc *)
  k_nextpid : Z;
  k_initproc : option nat;
  k_smp : smp;  (* interrupt flags, cpus and spin locks; ptable.lock is lock 0 *)
  k_gdt : list segdesc;  (* mycpu()->gdt *)
  k_ts : taskstate;  (* mycpu()->ts *)
  k_tr : Z;  (* task register *)
  k_kpgdir : Z;  (* the page directory of the scheduler *)
  k_ticks : Z;
  k_first : bool;  (* forkret: first *)
  k_out : list (string * list Z);  (* calls of cprintf, latest first *)
  k_fs : F }.  (* the file system *)

Arguments mkKst {F}.
Arguments k_mem {F}.
Arguments k_cr3 {F}.
Arguments k_procs {F}.
Arguments k_cur {F}.
Arguments k_nextpid {F}.
Arguments k_initproc {F}.
Arguments k_smp {F}.
Arguments k_gdt {F}.
Arguments k_ts {F}.
Arguments k_tr {F}.
Arguments k_kpgdir {F}.
Arguments k_ticks {F}.
Arguments k_first {F}.
Arguments k_out {F}.
Arguments k_fs {F}.

Definition set_k_mem {F : Type} (v : kmem) (r : kst F) : kst F :=
  mkKst v (k_cr3 r) (k_procs r) (k_cur r) (k_nextpid r) (k_initproc r) (k_smp r) (k_gdt r)
    (k_ts r) (k_tr r) (k_kpgdir r) (k_ticks r) (k_first r) (k_out r) (k_fs r).
Definition set_k_cr3 {F : Type} (v : Z) (r : kst F) : kst F :=
  mkKst (k_mem r) v (k_procs r) (k_cur r) (k_nextpid r) (k_initproc r) (k_smp r) (k_gdt r)
    (k_ts r) (k_tr r) (k_kpgdir r) (k_ticks r) (k_first r) (k_out r) (k_fs r).
Definition set_k_procs {F : Type} (v : list proc) (r : kst F) : kst F :=
  mkKst (k_mem r) (k_cr3 r) v (k_cur r) (k_nextpid r) (k_initproc r) (k_smp r) (k_gdt r) (k_ts
    r) (k_tr r) (k_kpgdir r) (k_ticks r) (k_first r) (k_out r) (k_fs r).
Definition set_k_cur {F : Type} (v : option nat) (r : kst F) : kst F :=
  mkKst (k_mem r) (k_cr3 r) (k_procs r) v (k_nextpid r) (k_initproc r) (k_smp r) (k_gdt r)
    (k_ts r) (k_tr r) (k_kpgdir r) (k_ticks r) (k_first r) (k_out r) (k_fs r).
Definition set_k_nextpid {F : Type} (v : Z) (r : kst F) : kst F :=
  mkKst (k_mem r) (k_cr3 r) (k_procs r) (k_cur r) v (k_initproc r) (k_smp r) (k_gdt r) (k_ts
    r) (k_tr r) (k_kpgdir r) (k_ticks r) (k_first r) (k_out r) (k_fs r).
Definition set_k_initproc {F : Type} (v : option nat) (r : kst F) : kst F :=
  mkKst (k_mem r) (k_cr3 r) (k_procs r) (k_cur r) (k_nextpid r) v (k_smp r) (k_gdt r) (k_ts r)
    (k_tr r) (k_kpgdir r) (k_ticks r) (k_first r) (k_out r) (k_fs r).
Definition set_k_smp {F : Type} (v : smp) (r : kst F) : kst F :=
  mkKst (k_mem r) (k_cr3 r) (k_procs r) (k_cur r) (k_nextpid r) (k_initproc r) v (k_gdt r)
    (k_ts r) (k_tr r) (k_kpgdir r) (k_ticks r) (k_first r) (k_out r) (k_fs r).
Definition set_k_gdt {F : Type} (v : list segdesc) (r : kst F) : kst F :=
  mkKst (k_mem r) (k_cr3 r) (k_procs r) (k_cur r) (k_nextpid r) (k_initproc r) (k_smp r) v
    (k_ts r) (k_tr r) (k_kpgdir r) (k_ticks r) (k_first r) (k_out r) (k_fs r).
Definition set_k_ts {F : Type} (v : taskstate) (r : kst F) : kst F :=
  mkKst (k_mem r) (k_cr3 r) (k_procs r) (k_cur r) (k_nextpid r) (k_initproc r) (k_smp r)
    (k_gdt r) v (k_tr r) (k_kpgdir r) (k_ticks r) (k_first r) (k_out r) (k_fs r).
Definition set_k_tr {F : Type} (v : Z) (r : kst F) : kst F :=
  mkKst (k_mem r) (k_cr3 r) (k_procs r) (k_cur r) (k_nextpid r) (k_initproc r) (k_smp r)
    (k_gdt r) (k_ts r) v (k_kpgdir r) (k_ticks r) (k_first r) (k_out r) (k_fs r).
Definition set_k_kpgdir {F : Type} (v : Z) (r : kst F) : kst F :=
  mkKst (k_mem r) (k_cr3 r) (k_procs r) (k_cur r) (k_nextpid r) (k_initproc r) (k_smp r)
    (k_gdt r) (k_ts r) (k_tr r) v (k_ticks r) (k_first r) (k_out r) (k_fs r).
Definition set_k_ticks {F : Type} (v : Z) (r : kst F) : kst F :=
  mkKst (k_mem r) (k_cr3 r) (k_procs r) (k_cur r) (k_nextpid r) (k_initproc r) (k_smp r)
    (k_gdt r) (k_ts r) (k_tr r) (k_kpgdir r) v (k_first r) (k_out r) (k_fs r).
Definition set_k_first {F : Type} (v : bool) (r : kst F) : kst F :=
  mkKst (k_mem r) (k_cr3 r) (k_procs r) (k_cur r) (k_nextpid r) (k_initproc r) (k_smp r)
    (k_gdt r) (k_ts r) (k_tr r) (k_kpgdir r) (k_ticks r) v (k_out r) (k_fs r).
Definition set_k_out {F : Type} (v : list (string * list Z)) (r : kst F) : kst F :=
  mkKst (k_mem r) (k_cr3 r) (k_procs r) (k_cur r) (k_nextpid r) (k_initproc r) (k_smp r)
    (k_gdt r) (k_ts r) (k_tr r) (k_kpgdir r) (k_ticks r) (k_first r) v (k_fs r).
Definition set_k_fs {F : Type} (v : F) (r : kst F) : kst F :=
  mkKst (k_mem r) (k_cr3 r) (k_procs r) (k_cur r) (k_nextpid r) (k_initproc r) (k_smp r)
    (k_gdt r) (k_ts r) (k_tr r) (k_kpgdir r) (k_ticks r) (k_first r) (k_out r) v.

(** ** Operations on the state *)

Section state.
Context {F : Type}.

Definition myproc : M (kst F) (option nat) := gets k_cur.

Definition getp (i : nat) : M (kst F) proc := fun s =>
  match k_procs s !! i with Some p => Ret p s | None => Fault s end.
Definition updp (i : nat) (f : proc -> proc) : M (kst F) unit := fun s =>
  match k_procs s !! i with
  | Some p => Ret tt (set_k_procs (<[i := f p]> (k_procs s)) s)
  | None => Fault s
  end.

(** Code of the allocator and of the page-table functions, run inside the kernel state. *)
Definition inmem {A} (m : M kmem A) : M (kst F) A := lift k_mem set_k_mem m.
Definition getmem : M (kst F) mem := gets (fun s => km_mem (k_mem s)).
Definition putmem (f : mem -> mem) : M (kst F) unit :=
  modify (fun s => set_k_mem (set_km_mem (f (km_mem (k_mem s))) (k_mem s)) s).
Definition infs {A} (m : M F A) : M (kst F) A := lift k_fs set_k_fs m.

Definition lcr3 (v : Z) : M (kst F) unit := modify (set_k_cr3 v).
Definition cprintf (fmt : string) (args : list Z) : M (kst F) unit :=
  modify (fun s => set_k_out ((fmt, args) :: k_out s) s).

(** ** Kernel accesses to virtual addresses

    Above KERNBASE the direct map applies.  Below, the address goes through the active page
    table; an access without a present entry (or a write without PTE_W: entry.S sets CR0_WP) is a
    page fault in kernel mode ([Fault]); what trap() does with it is modelled in Trap.v.  A null
    pointer is the user address 0, not an error in itself. *)
Definition user_addr (m : mem) (pgdir va : Z) (w : bool) : option Z :=
  let e := pte_val m pgdir va in
  if has e PTE_P && (negb w || has e PTE_W) then Some (P2V (PTE_ADDR e) + va mod 4096) else None.
Definition kaddr (s : kst F) (va : Z) (w : bool) : option Z :=
  if KERNBASE <=? va then Some va else user_addr (km_mem (k_mem s)) (P2V (k_cr3 s)) va w.

Definition kld32 (va : Z) : M (kst F) Z := fun s =>
  match kaddr s va false with
  | Some a => Ret (ld32 (km_mem (k_mem s)) a) s
  | None => Fault s
  end.
Definition kst32 (va v : Z) : M (kst F) unit := fun s =>
  match kaddr s va true with
  | Some a => putmem (fun m => st32 m a v) s
  | None => Fault s
  end.

(** The [n] bytes at a virtual address, and storing bytes there. *)
Fixpoint kbytes (s : kst F) (va : Z) (n : nat) : option (list Z) :=
  match n with
  | O => Some []
  | S k => match kaddr s va false, kbytes s (va + 1) k with
           | Some a, Some l => Some (ld8 (km_mem (k_mem s)) a :: l)
           | _, _ => None
           end
  end.
Definition kread (va : Z) (n : nat) : M (kst F) (list Z) := fun s =>
  match kbytes s va n with Some l => Ret l s | None => Fault s end.
Fixpoint kwrite (va : Z) (l : list Z) : M (kst F) unit :=
  match l with
  | [] => skip
  | c :: l' => (fun s => match kaddr s va true with
                         | Some a => putmem (fun m => st8 m a c) s
                         | None => Fault s
                         end) ;;;
               kwrite (va + 1) l'
  end.

(** ** Pointers to struct free_page

    Fields of [p->memory_pg_arr[i]] through a pointer.  The null pointer designates the user
    words at 0 (next), 4 (prev), 8 (va), 12 (age). *)
Definition fp_read (p : nat) (i : nat) : M (kst F) free_page :=
  let! pr := getp p in
  match p_memory_pg_arr pr !! i with Some f => ret f | None => fault end.
Definition fp_modify (p : nat) (i : nat) (g : free_page -> free_page) : M (kst F) unit :=
  let! pr := getp p in
  match p_memory_pg_arr pr !! i with
  | Some f => updp p (fun pr => set_p_memory_pg_arr (<[i := g f]> (p_memory_pg_arr pr)) pr)
  | None => fault
  end.

(** A pointer read through the null pointer is whatever word the user page holds; only null
    is representable. *)
Definition null_ptr_read (off : Z) : M (kst F) (option nat) :=
  let! w := kld32 off in if w =? 0 then ret None else fault.
Definition null_ptr_write (off : Z) (v : option nat) : M (kst F) unit :=
  match v with None => kst32 off 0 | Some _ => fault end.

Definition get_next (p : nat) (q : option nat) : M (kst F) (option nat) :=
  match q with Some i => let! f := fp_read p i in ret (fp_next f) | None => null_ptr_read 0 end.
Definition get_prev (p : nat) (q : option nat) : M (kst F) (option nat) :=
  match q with Some i => let! f := fp_read p i in ret (fp_prev f) | None => null_ptr_read 4 end.
Definition get_va (p : nat) (q : option nat) : M (kst F) Z :=
  match q with Some i => let! f := fp_read p i in ret (fp_va f) | None => kld32 8 end.
Definition get_age (p : nat) (q : option nat) : M (kst F) Z :=
  match q with Some i => let! f := fp_read p i in ret (fp_age f) | None => kld32 12 end.
Definition put_next (p : nat) (q v : option nat) : M (kst F) unit :=
  match q with Some i => fp_modify p i (set_fp_next v) | None => null_ptr_write 0 v end.
Definition put_prev (p : nat) (q v : option nat) : M (kst F) unit :=
  match q with Some i => fp_modify p i (set_fp_prev v) | None => null_ptr_write 4 v end.
Definition put_va (p : nat) (q : option nat) (v : Z) : M (kst F) unit :=
  match q with Some i => fp_modify p i (set_fp_va v) | None => kst32 8 v end.
Definition put_age (p : nat) (q : option nat) (v : Z) : M (kst F) unit :=
  match q with Some i => fp_modify p i (set_fp_age v) | None => kst32 12 v end.

End state.

(** ** Symbolic execution on one process

    [setp p pr s] is [s] with process [p] replaced; the operations on a process are run on
    states of this form. *)
Definition setp {F} (p : nat) (pr : proc) (s : kst F) : kst F :=
  set_k_procs (<[p := pr]> (k_procs s)) s.
Definition setm {F} (km : kmem) (s : kst F) : kst F := set_k_mem km s.
Definition upd_mem {F} (m : mem) (s : kst F) : kst F := setm (set_km_mem m (k_mem s)) s.
Definition kmm {F} (s : kst F) : mem := km_mem (k_mem s).

Section runs.
Context {F : Type}.
Implicit Types (s : kst F) (p : nat) (pr : proc).

Lemma setp_id p pr s : k_procs s !! p = Some pr -> setp p pr s = s.
Proof. intros H. unfold setp. rewrite list_insert_id by done. by destruct s. Qed.

Lemma setp_setp p pr pr' s : setp p pr' (setp p pr s) = setp p pr' s.
Proof. unfold setp, set_k_procs. simpl. by rewrite list_insert_insert_eq. Qed.

Lemma lookup_setp p pr s : (p < length (k_procs s))%nat -> k_procs (setp p pr s) !! p = Some pr.
Proof. intros. simpl. by apply list_lookup_insert_eq. Qed.

Lemma wp_getp p pr s (Q : proc -> kst F -> Prop) :
  k_procs s !! p = Some pr -> Q pr s -> wp (getp p) Q s.
Proof. intros H. unfold wp, getp. by rewrite H. Qed.

Lemma wp_updp p pr f s (Q : unit -> kst F -> Prop) :
  k_procs s !! p = Some pr -> Q tt (setp p (f pr) s) -> wp (updp p f) Q s.
Proof. intros H. unfold wp, updp. by rewrite H. Qed.

Lemma wp_fp_read p pr i f s (Q : free_page -> kst F -> Prop) :
  k_procs s !! p = Some pr -> p_memory_pg_arr pr !! i = Some f -> Q f s -> wp (fp_read p i) Q s.
Proof. intros H Hi HQ. unfold fp_read, wp, bind, getp. by rewrite H, Hi. Qed.

Lemma wp_fp_modify p pr i f g s (Q : unit -> kst F -> Prop) :
  k_procs s !! p = Some pr -> p_memory_pg_arr pr !! i = Some f ->
  Q tt (setp p (set_p_memory_pg_arr (<[i := g f]> (p_memory_pg_arr pr)) pr) s) ->
  wp (fp_modify p i g) Q s.
Proof. intros H Hi HQ. unfold fp_modify, wp, bind, getp, updp. by rewrite H, Hi, H. Qed.

Lemma wp_kld32_kern a s (Q : Z -> kst F -> Prop) :
  KERNBASE <= a -> Q (ld32 (km_mem (k_mem s)) a) s -> wp (kld32 a) Q s.
Proof. intros H. unfold wp, kld32, kaddr. by rewrite (proj2 (Z.leb_le _ _) H). Qed.

Lemma wp_kst32_kern a v s (Q : unit -> kst F -> Prop) :
  KERNBASE <= a ->
  Q tt (setm (set_km_mem (st32 (km_mem (k_mem s)) a v) (k_mem s)) s) -> wp (kst32 a v) Q s.
Proof. intros H. unfold wp, kst32, kaddr. by rewrite (proj2 (Z.leb_le _ _) H). Qed.

Lemma wp_inmem {A} (m : M kmem A) (a : A) km s (Q : A -> kst F -> Prop) :
  m (k_mem s) = Ret a km -> Q a (setm km s) -> wp (inmem m) Q s.
Proof. intros H. unfold wp, inmem, lift. by rewrite H. Qed.

End runs.

(** Slots of [memory_pg_arr] as functions of the index. *)
Definition nxt (arr : list free_page) (i : nat) : option nat := arr !! i ≫= fp_next.
Definition prv (arr : list free_page) (i : nat) : option nat := arr !! i ≫= fp_prev.

Lemma nxt_alter_next arr i v j : (i < length arr)%nat ->
  nxt (alter (set_fp_next v) i arr) j = if decide (j = i) then v else nxt arr j.
Proof.
  intros Hi. unfold nxt. rewrite list_lookup_alter. destruct (decide (j = i)) as [->|].
  - rewrite decide_True by done. apply lookup_lt_is_Some in Hi as [f ->]. done.
  - by rewrite decide_False by congruence.
Qed.

Lemma prv_alter_prev arr i v j : (i < length arr)%nat ->
  prv (alter (set_fp_prev v) i arr) j = if decide (j = i) then v else prv arr j.
Proof.
  intros Hi. unfold prv. rewrite list_lookup_alter. destruct (decide (j = i)) as [->|].
  - rewrite decide_True by done. apply lookup_lt_is_Some in Hi as [f ->]. done.
  - by rewrite decide_False by congruence.
Qed.

(** Updates of the other fields are invisible. *)
Lemma nxt_alter_other g arr i j : (forall f, fp_next (g f) = fp_next f) -> nxt (alter g i arr) j = nxt arr j.
Proof.
  intros Hg. unfold nxt. rewrite list_lookup_alter. case_decide; [subst|done].
  destruct (arr !! j) as [f|]; simpl; [apply Hg|done].
Qed.
Lemma prv_alter_other g arr i j : (forall f, fp_prev (g f) = fp_prev f) -> prv (alter g i arr) j = prv arr j.
Proof.
  intros Hg. unfold prv. rewrite list_lookup_alter. case_decide; [subst|done].
  destruct (arr !! j) as [f|]; simpl; [apply Hg|done].
Qed.

(** The pages in the slots. *)
Definition vas (arr : list free_page) : list Z := map fp_va arr.

Lemma vas_alter_other g arr i : (forall f, fp_va (g f) = fp_va f) -> vas (alter g i arr) = vas arr.
Proof.
  intros Hg. apply list_eq. intros j. unfold vas. rewrite !list_lookup_fmap, list_lookup_alter.
  case_decide; [subst|done]. destruct (arr !! j) as [f|]; simpl; [by rewrite Hg|done].
Qed.

Section on_proc.
Context {F : Type} (p : nat) (s : kst F).
Hypothesis Hlen : (p < length (k_procs s))%nat.

Lemma on_getp pr (Q : proc -> kst F -> Prop) : Q pr (setp p pr s) -> wp (getp p) Q (setp p pr s).
Proof. apply wp_getp. by apply lookup_setp. Qed.

Lemma on_updp pr f (Q : unit -> kst F -> Prop) :
  Q tt (setp p (f pr) s) -> wp (updp p f) Q (setp p pr s).
Proof. intros. eapply wp_updp; [by apply lookup_setp|]. by rewrite setp_setp. Qed.

Lemma on_fp_read pr i f (Q : free_page -> kst F -> Prop) :
  p_memory_pg_arr pr !! i = Some f -> Q f (setp p pr s) -> wp (fp_read p i) Q (setp p pr s).
Proof. intros. eapply wp_fp_read; [by apply lookup_setp|done..]. Qed.

Lemma on_fp_modify pr i g (Q : unit -> kst F -> Prop) :
  (i < length (p_memory_pg_arr pr))%nat ->
  Q tt (setp p (set_p_memory_pg_arr (alter g i (p_memory_pg_arr pr)) pr) s) ->
  wp (fp_modify p i g) Q (setp p pr s).
Proof.
  intros [f Hf]%lookup_lt_is_Some HQ. eapply wp_fp_modify; [by apply lookup_setp|done|].
  rewrite setp_setp. assert (<[i:=g f]> (p_memory_pg_arr pr) = alter g i (p_memory_pg_arr pr)) as ->; [|done].
  apply list_eq. intros j. rewrite list_lookup_alter, list_lookup_insert.
  apply lookup_lt_Some in Hf as Hlt. destruct (decide (i = j)) as [->|].
  - rewrite decide_True by done. by rewrite Hf.
  - rewrite decide_False by (intros [? ?]; done). done.
Qed.

Lemma on_get_next pr i (Q : option nat -> kst F -> Prop) :
  (i < length (p_memory_pg_arr pr))%nat ->
  Q (nxt (p_memory_pg_arr pr) i) (setp p pr s) -> wp (get_next p (Some i)) Q (setp p pr s).
Proof.
  intros [f Hf]%lookup_lt_is_Some HQ. unfold nxt in HQ. rewrite Hf in HQ. simpl.
  apply wp_bind. by eapply on_fp_read.
Qed.

Lemma on_get_prev pr i (Q : option nat -> kst F -> Prop) :
  (i < length (p_memory_pg_arr pr))%nat ->
  Q (prv (p_memory_pg_arr pr) i) (setp p pr s) -> wp (get_prev p (Some i)) Q (setp p pr s).
Proof.
  intros [f Hf]%lookup_lt_is_Some HQ. unfold prv in HQ. rewrite Hf in HQ. simpl.
  apply wp_bind. by eapply on_fp_read.
Qed.

Lemma on_get_va pr i va (Q : Z -> kst F -> Prop) :
  vas (p_memory_pg_arr pr) !! i = Some va ->
  Q va (setp p pr s) -> wp (get_va p (Some i)) Q (setp p pr s).
Proof.
  unfold vas. rewrite list_lookup_fmap_Some. intros (f & -> & Hf) HQ. simpl.
  apply wp_bind. by eapply on_fp_read.
Qed.

Lemma on_put_next pr i v (Q : unit -> kst F -> Prop) :
  (i < length (p_memory_pg_arr pr))%nat ->
  Q tt (setp p (set_p_memory_pg_arr (alter (set_fp_next v) i (p_memory_pg_arr pr)) pr) s) ->
  wp (put_next p (Some i) v) Q (setp p pr s).
Proof. apply on_fp_modify. Qed.

Lemma on_put_prev pr i v (Q : unit -> kst F -> Prop) :
  (i < length (p_memory_pg_arr pr))%nat ->
  Q tt (setp p (set_p_memory_pg_arr (alter (set_fp_prev v) i (p_memory_pg_arr pr)) pr) s) ->
  wp (put_prev p (Some i) v) Q (setp p pr s).
Proof. apply on_fp_modify. Qed.

End on_proc.

(** One step of straight-line code on a process: side conditions are left as goals. *)
Ltac kstep :=
  cbv beta iota;
  lazymatch goal with
  | |- wp (getp _) _ (setp _ _ _) => apply on_getp
  | |- wp (updp _ _) _ (setp _ _ _) => apply on_updp
  | |- wp (fp_modify _ _ _) _ (setp _ _ _) => apply on_fp_modify
  | |- wp (get_next _ (Some _)) _ (setp _ _ _) => apply on_get_next
  | |- wp (get_prev _ (Some _)) _ (setp _ _ _) => apply on_get_prev
  | |- wp (get_va _ (Some _)) _ (setp _ _ _) => eapply on_get_va
  | |- wp (put_next _ (Some _) _) _ (setp _ _ _) => apply on_put_next
  | |- wp (put_prev _ (Some _) _) _ (setp _ _ _) => apply on_put_prev
  | |- wp (bind _ _) _ _ => apply wp_bind
  | |- wp (ret _) _ _ => apply wp_ret
  | |- wp (gets _) _ _ => apply wp_gets
  | |- wp skip _ _ => apply wp_skip
  end.
