(* ===== verification/Policy.v ===== *)
(** * Page replacement (src/vm.c: SCFIFO, NFUA, LAPA, AQ)

    The operations that choose a page to evict and that enter a page in the table of resident
    pages [memory_pg_arr], for each of the schemes the Makefile can select, and what they do:
    SCFIFO is the second-chance queue, NFUA takes the smallest age, LAPA the fewest ones and then
    the smallest age, AQ the oldest page whose user bit is set.

    The queues are linked through slot indices.  SCFIFO relies on the [next] pointers only (its
    [prev] pointers are not maintained), AQ on the [prev] pointers only.  Messages are written
    without their trailing newline. *)
From Stdlib Require Import ZArith Lia.
From stdpp Require Import base list numbers strings sets.
From S2P Require Import Prelude Mmu Mem Kalloc PageTable Kstate.
Local Open Scope Z_scope.

Definition isnull {A} (q : option A) : bool := match q with None => true | Some _ => false end.

Section policy.
Context {img : Image} {F : Type}.
Variable sel : selection.

Definition default_age : Z := match sel with LAPA => 0xffffffff | _ => 0 end.

(** ** Helpers *)

Definition findRamIndex (p : nat) (item : Z) : M (kst F) Z :=
  let! r := for_range MAX_PSYC_PAGES 0 (fun i =>
    let! f := fp_read p i in
    if fp_va f =? NOVA then ret (Some (Z.of_nat i)) else ret None) in
  match r with Some i => ret i | None => ret (-1) end.

(** [walkpgdir(myproc()->pgdir, va, 0)]; the null result is dereferenced like any pointer. *)
Definition my_pte (va : Z) : M (kst F) Z :=
  let! me := myproc in
  match me with
  | None => fault
  | Some i => let! pr := getp i in inmem (walkpgdir (p_pgdir pr) va false)
  end.

Definition get_user_bit (va : Z) : M (kst F) Z :=
  let! pte := my_pte va in
  let! e := kld32 pte in
  if e =? 0 then panic "updateAccessBit: pte is empty"
  else
    let! e := kld32 pte in
    if Z.land e PTE_U =? 0 then ret 0 else ret 1.

Definition updateAccessBit (va : Z) : M (kst F) Z :=
  let! pte := my_pte va in
  let! e := kld32 pte in
  if e =? 0 then panic "updateAccessBit: pte is empty"
  else
    let! e := kld32 pte in
    let accessed := Z.land e PTE_A in
    kst32 pte (Z.land e (Z.lnot PTE_A)) ;;;
    if accessed =? 0 then ret 0 else ret 1.

Definition pageIsInFile (userPageVAddr pgdir : Z) : M (kst F) Z :=
  let! pte := inmem (walkpgdir pgdir userPageVAddr false) in
  let! e := kld32 pte in
  if has e PTE_PG && negb (has e PTE_P) then ret 1 else ret 0.

(** ** Entering a page *)

Definition queue_checks (p : nat) : M (kst F) unit :=
  let! pr := getp p in
  if (isnull (p_head pr) && negb (isnull (p_tail pr)))
     || (negb (isnull (p_head pr)) && isnull (p_tail pr))
  then panic "structure is wrong tail is  "
  else when (negb (isnull (p_head pr)))
    (let! q := get_prev p (p_head pr) in
     when (negb (isnull q)) (panic "queue head got prev pointer")).

Definition incr_memory_counter (p : nat) : M (kst F) unit :=
  updp p (fun pr => set_p_pages_in_memory_counter (p_pages_in_memory_counter pr + 1) pr).

Definition update_memoryscfifo (p : nat) (va : Z) : M (kst F) nat :=
  queue_checks p ;;;
  let! r := for_range MAX_PSYC_PAGES 0 (fun i =>
    let! f := fp_read p i in
    if fp_va f =? NOVA then
      fp_modify p i (set_fp_va va) ;;;
      fp_modify p i (set_fp_age default_age) ;;;
      incr_memory_counter p ;;;
      let! pr := getp p in
      if isnull (p_head pr) && isnull (p_tail pr) then
        fp_modify p i (set_fp_next None) ;;;
        fp_modify p i (set_fp_prev None) ;;;
        updp p (set_p_head (Some i)) ;;;
        updp p (set_p_tail (Some i)) ;;;
        ret (Some i)
      else if negb (isnull (p_tail pr)) then
        let! nx := get_next p (p_tail pr) in
        when (negb (isnull nx)) (panic "queue tail got next pointer") ;;;
        put_next p (p_tail pr) (Some i) ;;;
        updp p (set_p_tail (Some i)) ;;;
        fp_modify p i (set_fp_next None) ;;;
        ret (Some i)
      else ret None
    else ret None) in
  match r with Some i => ret i | None => panic "no empty place in memory scfifo" end.

Definition update_memoryaq (p : nat) (va : Z) : M (kst F) nat :=
  queue_checks p ;;;
  let! r := for_range MAX_PSYC_PAGES 0 (fun i =>
    let! f := fp_read p i in
    if fp_va f =? NOVA then
      fp_modify p i (set_fp_va va) ;;;
      fp_modify p i (set_fp_age default_age) ;;;
      incr_memory_counter p ;;;
      fp_modify p i (set_fp_next None) ;;;
      fp_modify p i (set_fp_prev None) ;;;
      let! pr := getp p in
      if isnull (p_head pr) && isnull (p_tail pr) then
        updp p (set_p_head (Some i)) ;;;
        updp p (set_p_tail (Some i)) ;;;
        ret (Some i)
      else
        put_prev p (p_head pr) (Some i) ;;;
        updp p (set_p_head (Some i)) ;;;
        ret (Some i)
    else ret None) in
  match r with Some i => ret i | None => panic "no empty place in memory aq" end.

Definition update_memorynfua (p : nat) (va : Z) : M (kst F) nat :=
  let! r := for_range MAX_PSYC_PAGES 0 (fun i =>
    let! f := fp_read p i in
    if fp_va f =? NOVA then
      fp_modify p i (set_fp_va va) ;;;
      fp_modify p i (set_fp_age default_age) ;;;
      fp_modify p i (set_fp_next None) ;;;
      fp_modify p i (set_fp_prev None) ;;;
      incr_memory_counter p ;;;
      ret (Some i)
    else ret None) in
  match r with Some i => ret i | None => panic "no empty place in memory nfua" end.

Definition update_memorylapa (p : nat) (va : Z) : M (kst F) nat :=
  let! r := for_range MAX_PSYC_PAGES 0 (fun i =>
    let! f := fp_read p i in
    if fp_va f =? NOVA then
      fp_modify p i (set_fp_va va) ;;;
      fp_modify p i (set_fp_age default_age) ;;;
      fp_modify p i (set_fp_next None) ;;;
      fp_modify p i (set_fp_prev None) ;;;
      incr_memory_counter p ;;;
      ret (Some i)
    else ret None) in
  match r with Some i => ret i | None => panic "no empty place in memory lapa" end.

Definition update_memory (p : nat) (va : Z) : M (kst F) nat :=
  match sel with
  | SCFIFO => update_memoryscfifo p va
  | NFUA => update_memorynfua p va
  | LAPA => update_memorylapa p va
  | AQ => update_memoryaq p va
  | NONE => panic "unknown paging method"
  end.

(** ** Choosing a page *)

(** The comparison [age < min_age] is between a uint and an int, hence unsigned.  The pointer
    [&memory_pg_arr[-1]], when no slot is used, is outside the array. *)
Fixpoint nfu_scan (arr : list free_page) (i : Z) (min_index min_age : Z) : Z :=
  match arr with
  | [] => min_index
  | f :: arr' =>
    if negb (fp_va f =? NOVA) then
      if min_index =? -1 then nfu_scan arr' (i + 1) i (i32 (fp_age f))
      else if fp_age f <? u32 min_age then nfu_scan arr' (i + 1) i (i32 (fp_age f))
      else nfu_scan arr' (i + 1) min_index min_age
    else nfu_scan arr' (i + 1) min_index min_age
  end.

Definition slot_ptr (i : Z) : M (kst F) (option nat) :=
  if i =? -1 then fault else ret (Some (Z.to_nat i)).

Definition nfu_alg (p : nat) : M (kst F) (option nat) :=
  let! pr := getp p in
  slot_ptr (nfu_scan (take MAX_PSYC_PAGES (p_memory_pg_arr pr)) 0 (-1) (-1)).

Fixpoint ones_from (n : nat) (i : Z) (x res : Z) : Z :=
  match n with
  | O => res
  | S n' => ones_from n' (i + 1) x
              (res + if negb (Z.land (u32 (Z.shiftl 1 i)) x =? 0) then 1 else 0)
  end.
Definition count_ones (x : Z) : Z := ones_from 32 0 x 0.

Fixpoint lapa_scan (arr : list free_page) (i : Z) (min_index min_age min_ones : Z) : Z :=
  match arr with
  | [] => min_index
  | f :: arr' =>
    if negb (fp_va f =? NOVA) then
      let tmp_ones := count_ones (fp_age f) in
      if min_index =? -1 then lapa_scan arr' (i + 1) i (i32 (fp_age f)) tmp_ones
      else if tmp_ones =? min_ones then
        if fp_age f <? u32 min_age then lapa_scan arr' (i + 1) i (i32 (fp_age f)) tmp_ones
        else lapa_scan arr' (i + 1) min_index min_age min_ones
      else if tmp_ones <? min_ones then lapa_scan arr' (i + 1) i (i32 (fp_age f)) tmp_ones
      else lapa_scan arr' (i + 1) min_index min_age min_ones
    else lapa_scan arr' (i + 1) min_index min_age min_ones
  end.

Definition lapa_alg (p : nat) : M (kst F) (option nat) :=
  let! pr := getp p in
  slot_ptr (lapa_scan (take MAX_PSYC_PAGES (p_memory_pg_arr pr)) 0 (-1) (-1) 0).

(** The unlinking of [tmp] that ends scfifo_alg and aq_alg. *)
Definition unlink (p : nat) (tmp : option nat) : M (kst F) unit :=
  let! pv := get_prev p tmp in
  when (negb (isnull pv)) (let! nx := get_next p tmp in put_next p pv nx) ;;;
  let! nx := get_next p tmp in
  when (negb (isnull nx)) (let! pv := get_prev p tmp in put_prev p nx pv) ;;;
  let! pr := getp p in
  when (bool_decide (p_head pr = tmp)) (let! nx := get_next p tmp in updp p (set_p_head nx)) ;;;
  let! pr := getp p in
  when (bool_decide (p_tail pr = tmp)) (let! pv := get_prev p tmp in updp p (set_p_tail pv)).

(** One round of [while(get_user_bit(tmp->va)==0)]; the loop returns the page it stops at. *)
Definition aq_body (p : nat) (oldtail tmp : option nat) : M (kst F) (option nat + option nat) :=
  let! va := get_va p tmp in
  let! u := get_user_bit va in
  if negb (u =? 0) then ret (inr tmp)
  else
    let! pr := getp p in
    let! pv := get_prev p (p_tail pr) in
    updp p (set_p_tail pv) ;;;
    put_next p pv None ;;;
    put_prev p tmp None ;;;
    let! pr := getp p in
    put_next p tmp (p_head pr) ;;;
    put_prev p (p_head pr) tmp ;;;
    updp p (set_p_head tmp) ;;;
    let! pr := getp p in
    if bool_decide (p_tail pr = oldtail) then panic "all pages in memory are with user bit off"
    else ret (inl (p_tail pr)).

(** The fuel of the two queue loops: a queue of MAX_PSYC_PAGES slots is rotated at most once. *)
Definition queue_fuel : nat := MAX_PSYC_PAGES + 1.

Definition aq_alg (p : nat) : M (kst F) (option nat) :=
  let! pr := getp p in
  if isnull (p_tail pr) then panic "tail empty at aq alg"
  else
    let! tmp := loop queue_fuel (aq_body p (p_tail pr)) (p_tail pr) in
    unlink p tmp ;;;
    ret tmp.

(** One round of the do-while of scfifo_alg: [tmp] is the page examined. *)
Definition scfifo_body (p : nat) (oldhead tmp : option nat) : M (kst F) (option nat + option nat) :=
  let! pr := getp p in
  let! va := get_va p (p_head pr) in
  let! accessbit_head := updateAccessBit va in
  if accessbit_head =? -1 then panic "access bit is not 1 or zero in scfifo swap pages"
  else
    let! tmp :=
      (if accessbit_head =? 1 then
         let! pr := getp p in
         let! nx := get_next p (p_head pr) in
         updp p (set_p_head nx) ;;;
         put_prev p nx None ;;;
         put_next p tmp None ;;;
         let! pr := getp p in
         put_prev p tmp (p_tail pr) ;;;
         put_next p (p_tail pr) tmp ;;;
         updp p (set_p_tail tmp) ;;;
         let! pr := getp p in
         ret (p_head pr)
       else
         let! pr := getp p in
         when (bool_decide (p_head pr = p_tail pr))
           (put_next p (p_tail pr) None ;;; put_prev p (p_head pr) None) ;;;
         ret (p_head pr)) in
    let! pr := getp p in
    if negb (bool_decide (p_head pr = oldhead)) && (accessbit_head =? 1)
    then ret (inl tmp) else ret (inr tmp).

Definition scfifo_alg (p : nat) : M (kst F) (option nat) :=
  let! pr := getp p in
  let oldhead := p_head pr in
  let! tmp := loop queue_fuel (scfifo_body p oldhead) oldhead in
  unlink p tmp ;;;
  ret tmp.

Definition select_page_to_remove (p : nat) : M (kst F) (option nat) :=
  match sel with
  | SCFIFO => scfifo_alg p
  | NFUA => nfu_alg p
  | LAPA => lapa_alg p
  | AQ => aq_alg p
  | NONE => panic "unknown paging method2"
  end.

End policy.

(** ** The scans of NFUA and LAPA *)

Definition occupied (f : free_page) : Prop := fp_va f <> NOVA.

(** Slot [i] is the first used slot with the smallest key. *)
Definition least (key : free_page -> Z) (arr : list free_page) (i : nat) : Prop :=
  exists f, arr !! i = Some f /\ occupied f /\
    forall j g, arr !! j = Some g -> occupied g -> key f <= key g /\ ((j < i)%nat -> key f < key g).

Definition none_occupied (arr : list free_page) : Prop :=
  forall j g, arr !! j = Some g -> ~ occupied g.

(** LAPA compares numbers of ones first and ages second. *)
Definition lapa_key (f : free_page) : Z := count_ones (fp_age f) * 2 ^ 32 + fp_age f.

Section least.
Context (key : free_page -> Z).

Lemma none_snoc pre f : none_occupied pre -> ~ occupied f -> none_occupied (pre ++ [f]).
Proof.
  intros Hn Hf j g Hj. apply lookup_app_Some in Hj as [Hj|[_ Hj]]; [by eapply Hn|].
  by apply list_lookup_singleton_Some in Hj as [_ <-].
Qed.

Lemma least_first pre f : none_occupied pre -> occupied f -> least key (pre ++ [f]) (length pre).
Proof.
  intros Hn Hf. exists f. rewrite list_lookup_middle by done. split; [done|]. split; [done|].
  intros j g Hj Hg. apply lookup_app_Some in Hj as [Hj|[Hl Hj]].
  - by destruct (Hn j g).
  - apply list_lookup_singleton_Some in Hj as [? <-]. lia.
Qed.

Lemma least_snoc_skip pre f i : least key pre i -> ~ occupied f -> least key (pre ++ [f]) i.
Proof.
  intros (g & Hi & Hg & Hm) Hf. exists g. split; [by apply lookup_app_l_Some|]. split; [done|].
  intros j h Hj Hh. apply lookup_app_Some in Hj as [Hj|[_ Hj]]; [by apply Hm|].
  by apply list_lookup_singleton_Some in Hj as [_ <-].
Qed.

Lemma least_snoc_keep pre f g i :
  least key pre i -> pre !! i = Some g -> key g <= key f -> least key (pre ++ [f]) i.
Proof.
  intros (g' & Hi & Hg & Hm) Hi' Hk. simplify_eq. exists g'. split; [by apply lookup_app_l_Some|].
  split; [done|]. intros j h Hj Hh. apply lookup_app_Some in Hj as [Hj|[Hl Hj]]; [by apply Hm|].
  apply list_lookup_singleton_Some in Hj as [? <-]. split; [done|].
  apply lookup_lt_Some in Hi. lia.
Qed.

Lemma least_snoc_new pre f g i :
  least key pre i -> pre !! i = Some g -> occupied f -> key f < key g ->
  least key (pre ++ [f]) (length pre).
Proof.
  intros (g' & Hi & Hg & Hm) Hi' Hf Hk. simplify_eq. exists f. rewrite list_lookup_middle by done.
  split; [done|]. split; [done|]. intros j h Hj Hh. apply lookup_app_Some in Hj as [Hj|[Hl Hj]].
  - destruct (Hm j h); [done..|]. lia.
  - apply list_lookup_singleton_Some in Hj as [? <-]. lia.
Qed.
End least.

Definition ages_ok (arr : list free_page) : Prop := Forall (fun f => 0 <= fp_age f < 2 ^ 32) arr.

(** What a scan has found in the slots before the current one. *)
Definition scanned (key : free_page -> Z) (pre : list free_page) (mi ma mo : Z) : Prop :=
  mi = -1 /\ none_occupied pre \/
  exists i f, mi = Z.of_nat i /\ pre !! i = Some f /\ least key pre i /\
    u32 ma = fp_age f /\ mo = count_ones (fp_age f).

Definition scan_result (key : free_page -> Z) (arr : list free_page) (r : Z) : Prop :=
  r = -1 /\ none_occupied arr \/ exists i, r = Z.of_nat i /\ least key arr i.

Lemma scanned_result key arr mi ma mo : scanned key arr mi ma mo -> scan_result key arr mi.
Proof. intros [H|(i & f & -> & _ & Hl & _)]; [by left|right; eauto]. Qed.

Lemma scanned_skip key pre f mi ma mo :
  scanned key pre mi ma mo -> ~ occupied f -> scanned key (pre ++ [f]) mi ma mo.
Proof.
  intros [[-> Hn]|(i & g & -> & Hi & Hl & Ha)] Hf; [left; split; [done|by apply none_snoc]|].
  right. exists i, g. split; [done|]. split; [by apply lookup_app_l_Some|].
  split; [by apply least_snoc_skip|done].
Qed.

Lemma scanned_new key pre f :
  least key (pre ++ [f]) (length pre) -> 0 <= fp_age f < 2 ^ 32 ->
  scanned key (pre ++ [f]) (Z.of_nat (length pre)) (i32 (fp_age f)) (count_ones (fp_age f)).
Proof.
  intros Hl Ha. right. exists (length pre), f. rewrite list_lookup_middle by done.
  rewrite u32_i32, u32_small by done. done.
Qed.

Lemma scanned_keep key pre f g i ma mo :
  least key pre i -> pre !! i = Some g -> u32 ma = fp_age g -> mo = count_ones (fp_age g) ->
  key g <= key f -> scanned key (pre ++ [f]) (Z.of_nat i) ma mo.
Proof.
  intros Hl Hi Ha Ho Hk. right. exists i, g. split; [done|]. split; [by apply lookup_app_l_Some|].
  split; [by eapply least_snoc_keep|done].
Qed.

Lemma nfu_scan_spec suf pre mi ma mo :
  ages_ok (pre ++ suf) -> scanned fp_age pre mi ma mo ->
  scan_result fp_age (pre ++ suf) (nfu_scan suf (Z.of_nat (length pre)) mi ma).
Proof.
  revert pre mi ma mo. induction suf as [|f suf IH]; intros pre mi ma mo Hok Hs; simpl.
  { rewrite app_nil_r. by eapply scanned_result. }
  assert (0 <= fp_age f < 2 ^ 32) as Hf.
  { unfold ages_ok in Hok. rewrite Forall_app, Forall_cons in Hok. tauto. }
  rewrite cons_middle, app_assoc in Hok |- *.
  replace (Z.of_nat (length pre) + 1) with (Z.of_nat (length (pre ++ [f])))
    by (rewrite length_app; simpl; lia).
  destruct (Z.eqb_spec (fp_va f) NOVA) as [Hv|Hv]; simpl.
  { eapply IH; [done|]. apply scanned_skip; [exact Hs|]. by intros []. }
  destruct Hs as [[-> Hn]|(i & g & -> & Hi & Hl & Ha & Ho)]; simpl.
  - eapply IH; [done|]. by apply scanned_new, Hf; apply least_first.
  - destruct (Z.eqb_spec (Z.of_nat i) (-1)); [lia|]. rewrite Ha. destruct (Z.ltb_spec (fp_age f) (fp_age g)).
    + eapply IH; [done|]. apply scanned_new, Hf. by eapply least_snoc_new.
    + eapply IH; [done|]. by eapply scanned_keep.
Qed.

Lemma lapa_scan_spec suf pre mi ma mo :
  ages_ok (pre ++ suf) -> scanned lapa_key pre mi ma mo ->
  scan_result lapa_key (pre ++ suf) (lapa_scan suf (Z.of_nat (length pre)) mi ma mo).
Proof.
  revert pre mi ma mo. induction suf as [|f suf IH]; intros pre mi ma mo Hok Hs; cbn [lapa_scan].
  { rewrite app_nil_r. by eapply scanned_result. }
  assert (0 <= fp_age f < 2 ^ 32) as Hf.
  { unfold ages_ok in Hok. rewrite Forall_app, Forall_cons in Hok. tauto. }
  assert (ages_ok pre) as Hpre by (unfold ages_ok in *; rewrite Forall_app in Hok; tauto).
  rewrite cons_middle, app_assoc in Hok |- *.
  replace (Z.of_nat (length pre) + 1) with (Z.of_nat (length (pre ++ [f])))
    by (rewrite length_app; simpl; lia).
  destruct (Z.eqb_spec (fp_va f) NOVA) as [Hv|Hv]; cbn [negb].
  { eapply IH; [done|]. apply scanned_skip; [exact Hs|]. by intros []. }
  destruct Hs as [[-> Hn]|(i & g & -> & Hi & Hl & Ha & ->)].
  { eapply IH; [done|]. by apply scanned_new, Hf; apply least_first. }
  destruct (Z.eqb_spec (Z.of_nat i) (-1)); [lia|]. rewrite Ha.
  pose proof (Forall_lookup_1 _ _ _ _ Hpre Hi) as Hg. cbn beta in Hg.
  destruct (Z.eqb_spec (count_ones (fp_age f)) (count_ones (fp_age g))) as [Heq|Hne];
    [destruct (Z.ltb_spec (fp_age f) (fp_age g))|destruct (Z.ltb_spec (count_ones (fp_age f)) (count_ones (fp_age g)))];
    (eapply IH; [done|]).
  1,3: apply scanned_new, Hf; eapply least_snoc_new; [done..|unfold lapa_key; lia].
  all: eapply scanned_keep; [done..|unfold lapa_key; lia].
Qed.

(** Number of one bits among the 32 of a uint. *)
Definition popcount (x : Z) : Z :=
  Z.of_nat (length (filter (fun i => Z.testbit x (Z.of_nat i) = true) (seq 0 32))).

Lemma ones_from_spec n i x res : (i + n <= 32)%nat ->
  ones_from n (Z.of_nat i) x res =
    res + Z.of_nat (length (filter (fun k => Z.testbit x (Z.of_nat k) = true) (seq i n))).
Proof.
  revert i res. induction n as [|n IH]; intros i res Hn; simpl; [lia|].
  replace (Z.of_nat i + 1) with (Z.of_nat (S i)) by lia. rewrite IH by lia.
  rewrite Z.shiftl_mul_pow2, Z.mul_1_l by lia.
  rewrite u32_small by (split; [lia|apply Z.pow_lt_mono_r; lia]).
  rewrite Z.land_comm. fold (has x (2 ^ Z.of_nat i)). rewrite has_testbit by lia.
  rewrite filter_cons. destruct (Z.testbit x (Z.of_nat i)); case_decide; simpl; (done || lia).
Qed.

Lemma count_ones_spec x : count_ones x = popcount x.
Proof. unfold count_ones, popcount. apply (ones_from_spec 32 0 x 0). lia. Qed.

(** The order of the keys is lexicographic. *)
Lemma lapa_key_le f g :
  0 <= fp_age f < 2 ^ 32 -> 0 <= fp_age g < 2 ^ 32 -> lapa_key f <= lapa_key g ->
  popcount (fp_age f) < popcount (fp_age g) \/
  popcount (fp_age f) = popcount (fp_age g) /\ fp_age f <= fp_age g.
Proof. unfold lapa_key. rewrite !count_ones_spec. generalize (popcount (fp_age f)) (popcount (fp_age g)). lia. Qed.

Lemma lapa_key_eq f g :
  popcount (fp_age f) = popcount (fp_age g) -> fp_age f = fp_age g -> ~ lapa_key f < lapa_key g.
Proof. unfold lapa_key. rewrite !count_ones_spec. intros -> ->. apply Z.lt_irrefl. Qed.

(** ** Access bits *)

Definition clear_A (e : Z) : Z := Z.land e (Z.lnot PTE_A).

Lemma clear_A_range e : 0 <= e < 2 ^ 32 -> 0 <= clear_A e < 2 ^ 32.
Proof. apply land_word. Qed.

Lemma testbit_clear_A e k : 0 <= k -> Z.testbit (clear_A e) k = Z.testbit e k && negb (k =? 5).
Proof.
  intros Hk. unfold clear_A. rewrite Z.land_spec, Z.lnot_spec by done. f_equal. f_equal.
  change PTE_A with (2 ^ 5). destruct (Z.eqb_spec k 5) as [->|]; [done|].
  by rewrite Z.pow2_bits_false by lia.
Qed.

Lemma clear_A_id e : has e PTE_A = false -> clear_A e = e.
Proof.
  intros H. change PTE_A with (2 ^ 5) in H. rewrite has_testbit in H by lia.
  apply Z.bits_inj'. intros k Hk. rewrite testbit_clear_A by done.
  destruct (Z.eqb_spec k 5) as [->|]; [by rewrite H|]. apply andb_true_r.
Qed.

(** The other flags and the address survive. *)
Lemma has_clear_A e k : 0 <= k -> k <> 5 -> has (clear_A e) (2 ^ k) = has e (2 ^ k).
Proof.
  intros Hk Hne. rewrite !has_testbit by done. rewrite testbit_clear_A by done.
  destruct (Z.eqb_spec k 5); [done|]. apply andb_true_r.
Qed.

Lemma PTE_ADDR_clear_A e : 0 <= e < 2 ^ 32 -> PTE_ADDR (clear_A e) = PTE_ADDR e.
Proof.
  intros He. unfold PTE_ADDR. rewrite (u32_small e), (u32_small (clear_A e)) by (done || by apply clear_A_range).
  apply Z.bits_inj'. intros k Hk. rewrite !Z.land_spec, testbit_clear_A by done.
  destruct (Z.eqb_spec k 5) as [->|]; [|by rewrite andb_true_r].
  change (Z.testbit (u32 (Z.lnot 0xFFF)) 5) with false. by rewrite !andb_false_r.
Qed.

(** From [m] to [m'], exactly the access bits of the pages [vs] of [pgdir] were cleared. *)
Definition cleared (pgdir : Z) (m m' : mem) (vs : list Z) : Prop :=
  (forall va, pte_addr m' pgdir va = pte_addr m pgdir va) /\
  (forall q, pt_page m' pgdir q <-> pt_page m pgdir q) /\
  (forall va, 0 <= va < 2 ^ 32 -> pte_val m' pgdir va =
     if bool_decide (va / 4096 * 4096 ∈ vs) then clear_A (pte_val m pgdir va) else pte_val m pgdir va) /\
  (forall q x, ~ pt_page m pgdir q -> q mod 4096 = 0 -> q <= x < q + 4096 -> ld8 m' x = ld8 m x).

Section cleared.
Context {img : Image}.

Lemma cleared_nil pgdir m : cleared pgdir m m [].
Proof.
  split; [done|]. split; [done|]. split; [|done].
  intros va _. by rewrite bool_decide_eq_false_2 by apply not_elem_of_nil.
Qed.

Lemma cleared_snoc pgdir m m' vs va a :
  pt_wf m' pgdir -> cleared pgdir m m' vs -> 0 <= va < 2 ^ 32 -> va mod 4096 = 0 -> (va ∉ vs) ->
  pte_addr m pgdir va = Some a ->
  cleared pgdir m (st32 m' a (clear_A (pte_val m pgdir va))) (vs ++ [va]).
Proof.
  intros Hwf (Ha & Hp & Hv & Ho) Hr Hal Hnin Hpa. pose proof Hpa as Hpa'. rewrite <- Ha in Hpa'.
  split; [|split; [|split]].
  - intros v. erewrite pte_addr_write by done. apply Ha.
  - intros q. rewrite pt_page_write by done. apply Hp.
  - intros v Hvr. destruct (Z.eq_dec (v / 4096) (va / 4096)) as [E|E].
    + erewrite (pte_val_write_eq _ _ va) by done.
      rewrite u32_small by (apply clear_A_range, pte_val_range).
      assert (v / 4096 * 4096 = va) as Hv4 by (rewrite E; Z.to_euclidean_division_equations; lia).
      rewrite bool_decide_eq_true_2 by (rewrite Hv4; set_solver).
      f_equal. unfold pte_val. rewrite Hpa. apply PDX_PTX_page in E as [E1 E2]; [|done..].
      assert (pte_addr m pgdir v = Some a) as ->; [|done]. rewrite <- Hpa. unfold pte_addr.
      by rewrite E1, E2.
    + erewrite (pte_val_write_ne _ _ va) by done. rewrite Hv by done.
      assert (v / 4096 * 4096 <> va) by (intros H; apply E; rewrite <- H; by rewrite Z.div_mul).
      destruct (bool_decide (v / 4096 * 4096 ∈ vs)) eqn:Eb.
      * apply bool_decide_eq_true_1 in Eb. by rewrite bool_decide_eq_true_2 by set_solver.
      * apply bool_decide_eq_false_1 in Eb. by rewrite bool_decide_eq_false_2 by set_solver.
  - intros q x Hq Hqm Hx. erewrite ld8_pte_write; [by apply (Ho q)|done..| |done|done].
    by rewrite Hp.
Qed.

(** Writing back an entry without its access bit changes nothing when the bit was clear. *)
Lemma cleared_same pgdir m m' vs va a :
  pt_wf m' pgdir -> cleared pgdir m m' vs -> 0 <= va < 2 ^ 32 -> pte_addr m pgdir va = Some a ->
  has (pte_val m' pgdir va) PTE_A = false ->
  cleared pgdir m (st32 m' a (clear_A (pte_val m' pgdir va))) vs.
Proof.
  intros Hwf (Ha & Hp & Hv & Ho) Hr Hpa HA. pose proof Hpa as Hpa'. rewrite <- Ha in Hpa'.
  rewrite clear_A_id by done. split; [|split; [|split]].
  - intros v. erewrite pte_addr_write by done. apply Ha.
  - intros q. rewrite pt_page_write by done. apply Hp.
  - intros v Hvr. rewrite <- Hv by done. destruct (Z.eq_dec (v / 4096) (va / 4096)) as [E|E].
    + erewrite (pte_val_write_eq _ _ va) by done. rewrite u32_small by apply pte_val_range.
      unfold pte_val. apply PDX_PTX_page in E as [E1 E2]; [|done..]. unfold pte_addr. by rewrite E1, E2.
    + by erewrite (pte_val_write_ne _ _ va) by done.
  - intros q x Hq Hqm Hx. erewrite ld8_pte_write; [by apply (Ho q)|done..| |done|done].
    by rewrite Hp.
Qed.

End cleared.
