(* ===== verification/Queues.v ===== *)
(** * The page queues of SCFIFO and AQ

    SCFIFO: the [next] pointers from [head] list the resident pages in the order in which they
    were entered, and scfifo_alg implements the second-chance rule on that list.  AQ: the [prev]
    pointers from [tail] list them from oldest to newest, and aq_alg takes the oldest whose user
    bit is set, moving the others to the new end. *)
From Stdlib Require Import ZArith Lia.
From stdpp Require Import base list numbers strings sets.
From S2P Require Import Prelude Mmu Mem Kalloc PageTable Kstate Policy.
Local Open Scope Z_scope.

(** Following [nx] from [hd] visits [q] and ends in the null pointer. *)
Fixpoint chain (nx : nat -> option nat) (hd : option nat) (q : list nat) : Prop :=
  match q with
  | [] => hd = None
  | i :: q' => hd = Some i /\ chain nx (nx i) q'
  end.

Lemma chain_ext nx nx' hd q :
  (forall i, i ∈ q -> nx' i = nx i) -> chain nx hd q -> chain nx' hd q.
Proof.
  revert hd. induction q as [|i q IH]; intros hd Hext; simpl; [done|]. intros [-> Hc].
  split; [done|]. rewrite Hext by constructor. apply IH; [|done]. intros j Hj. apply Hext. by constructor.
Qed.

Lemma chain_last nx hd q t : chain nx hd (q ++ [t]) -> nx t = None.
Proof. revert hd. induction q as [|i q IH]; intros hd; simpl; [tauto|]. intros [_ Hc]. eauto. Qed.

(** Appending a node after the last one. *)
Lemma chain_snoc nx nx' hd q t i :
  chain nx hd (q ++ [t]) -> NoDup (q ++ [t]) -> nx' t = Some i -> nx' i = None ->
  (forall j, j ∈ q -> nx' j = nx j) -> chain nx' hd (q ++ [t; i]).
Proof.
  revert hd. induction q as [|k q IH]; intros hd Hc Hnd Ht Hi Hext; simpl in *.
  - destruct Hc as [-> _]. rewrite Ht. auto.
  - destruct Hc as [-> Hc]. split; [done|]. rewrite Hext by constructor. inversion_clear Hnd.
    apply IH; auto. intros j Hj. apply Hext. by constructor.
Qed.

Lemma chain_hd nx hd q : chain nx hd q -> hd = head q.
Proof. destruct q; simpl; [done|]. by intros [-> _]. Qed.

(** The queue of SCFIFO: [h] and [t] are the head and tail pointers. *)
Definition fifo (arr : list free_page) (h t : option nat) (q : list nat) : Prop :=
  chain (nxt arr) h q /\ t = last q /\ NoDup q /\ Forall (fun i => (i < length arr)%nat) q /\
  (forall i, h = Some i -> prv arr i = None).

(** Normalise reads of slots that were just written. *)
Ltac slots :=
  repeat first
    [ rewrite length_alter
    | rewrite nxt_alter_next by (rewrite ?length_alter; done)
    | rewrite prv_alter_prev by (rewrite ?length_alter; done)
    | rewrite nxt_alter_other by done
    | rewrite prv_alter_other by done
    | rewrite vas_alter_other by done
    | rewrite decide_True by done
    | rewrite decide_False by done ].

Section fifo.
Implicit Types (arr : list free_page) (q : list nat).

Lemma fifo_lt arr h t q i : fifo arr h t q -> i ∈ q -> (i < length arr)%nat.
Proof. intros (_ & _ & _ & Hf & _) Hi. rewrite Forall_forall in Hf. by apply Hf. Qed.

(** The head moves to the tail. *)
Lemma fifo_rotate arr t i j q :
  fifo arr (Some i) (Some t) (i :: j :: q) ->
  fifo (alter (set_fp_next (Some i)) t (alter (set_fp_prev (Some t)) i
         (alter (set_fp_next None) i (alter (set_fp_prev None) j arr))))
       (Some j) (Some i) (j :: q ++ [i]).
Proof.
  intros Hq. pose proof Hq as ((_ & Hj & Hc) & Ht & Hnd & Hf & Hp).
  assert ((i < length arr)%nat /\ (j < length arr)%nat) as [Hi Hjl].
  { split; eapply fifo_lt; try exact Hq; set_solver. }
  apply NoDup_cons in Hnd as [Hni Hnd].
  rewrite last_cons_cons in Ht.
  destruct (exists_last (l := j :: q)) as (q' & t' & Eq); [done|]. rewrite Eq in *.
  rewrite last_snoc in Ht. injection Ht as ->.
  assert (i <> t') as Hit by set_solver.
  assert (t' < length arr)%nat as Htl. { eapply fifo_lt; [exact Hq|]. set_solver. }
  split; [|split; [|split; [|split]]].
  - replace (j :: q ++ [i]) with (q' ++ [t'; i])
      by (rewrite app_comm_cons, Eq, <- app_assoc; done).
    eapply (chain_snoc (nxt arr)); [|exact Hnd|slots; done|slots; done|].
    + rewrite <- Eq. simpl. auto.
    + intros k Hk. apply NoDup_app in Hnd as (_ & Hd & _). specialize (Hd _ Hk).
      assert (k <> t') by set_solver. assert (k <> i) by set_solver. by slots.
  - by rewrite app_comm_cons, last_snoc.
  - rewrite app_comm_cons, Eq. apply NoDup_app. split; [done|]. split; [set_solver|apply NoDup_singleton].
  - rewrite app_comm_cons, Eq. rewrite !length_alter.
    inversion_clear Hf. apply Forall_app. split; [done|]. by constructor.
  - intros k [= <-]. assert (j <> i). { intros ->. apply Hni. rewrite <- Eq. constructor. } by slots.
Qed.

(** The head leaves the queue. *)
Lemma fifo_pop arr t i j q :
  fifo arr (Some i) (Some t) (i :: j :: q) ->
  fifo (alter (set_fp_prev None) j arr) (Some j) (Some t) (j :: q).
Proof.
  intros Hq. pose proof Hq as ((_ & Hj & Hc) & Ht & Hnd & Hf & Hp).
  assert (j < length arr)%nat as Hjl. { eapply fifo_lt; [exact Hq|]. set_solver. }
  inversion_clear Hnd. inversion_clear Hf. split; [|split; [|split; [|split]]].
  - split; [done|]. slots. eapply chain_ext; [|exact Hc]. intros k Hk. by slots.
  - by rewrite Ht, last_cons_cons.
  - done.
  - by rewrite length_alter.
  - intros k [= <-]. by slots.
Qed.

End fifo.

(** ** Second chance *)

(** The specification: pages at the front whose access bit is set are passed over; the first
    other page is the victim, or the front page when all bits are set. *)
Fixpoint sc_pass (acc : nat -> bool) (q : list nat) : list nat :=
  match q with [] => [] | i :: q' => if acc i then i :: sc_pass acc q' else [] end.
Fixpoint sc_rest (acc : nat -> bool) (q : list nat) : list nat :=
  match q with [] => [] | i :: q' => if acc i then sc_rest acc q' else q end.

Definition second_chance (acc : nat -> bool) (q : list nat) : option (nat * list nat) :=
  match sc_rest acc q ++ sc_pass acc q with
  | [] => None
  | v :: q' => Some (v, q')
  end.

Lemma sc_split acc q : q = sc_pass acc q ++ sc_rest acc q.
Proof. induction q as [|i q IH]; simpl; [done|]. destruct (acc i); simpl; [by f_equal|done]. Qed.

Lemma sc_app acc pass rest :
  Forall (fun i => acc i = true) pass ->
  sc_pass acc (pass ++ rest) = pass ++ sc_pass acc rest /\ sc_rest acc (pass ++ rest) = sc_rest acc rest.
Proof.
  induction 1 as [|i pass Hi _ [IH1 IH2]]; simpl; [done|]. rewrite Hi. by rewrite IH1, IH2.
Qed.

(** [pr'] is [pr] up to the links between the slots. *)
Definition relinked (pr pr' : proc) : Prop :=
  pr' = set_p_tail (p_tail pr') (set_p_head (p_head pr') (set_p_memory_pg_arr (p_memory_pg_arr pr') pr)) /\
  vas (p_memory_pg_arr pr') = vas (p_memory_pg_arr pr) /\
  map fp_age (p_memory_pg_arr pr') = map fp_age (p_memory_pg_arr pr).

Lemma ages_alter_other g arr i : (forall f, fp_age (g f) = fp_age f) ->
  map fp_age (alter g i arr) = map fp_age arr.
Proof.
  intros Hg. apply list_eq. intros j. rewrite !list_lookup_fmap, list_lookup_alter.
  case_decide; [subst|done]. destruct (arr !! j) as [f|]; simpl; [by rewrite Hg|done].
Qed.

Definition fifo_proc (pr : proc) (q : list nat) : Prop :=
  fifo (p_memory_pg_arr pr) (p_head pr) (p_tail pr) q.

(** The page in slot [i], and whether the hardware has seen an access to it. *)
Definition slot_va (pr : proc) (i : nat) : Z := default NOVA (vas (p_memory_pg_arr pr) !! i).
Definition accessed (m : mem) (pr : proc) (i : nat) : bool :=
  has (pte_val m (p_pgdir pr) (slot_va pr i)) PTE_A.

(** The slots of [q] hold distinct pages that are mapped in the page table of the process. *)
Definition queue_pages (m : mem) (pr : proc) (q : list nat) : Prop :=
  NoDup (map (slot_va pr) q) /\
  Forall (fun i => let va := slot_va pr i in
    vas (p_memory_pg_arr pr) !! i = Some va /\ va mod 4096 = 0 /\ 0 <= va < 2 ^ 32 /\
    has (pte_val m (p_pgdir pr) va) PTE_P = true) q.

Lemma has_mapped m pgdir va f : has (pte_val m pgdir va) f = true ->
  exists a, pte_addr m pgdir va = Some a.
Proof. unfold pte_val. destruct (pte_addr m pgdir va); [eauto|]. done. Qed.

Section runs.
Context {img : Image} {F : Type} (p : nat).
Implicit Types (s : kst F) (pr : proc).

Lemma on_my_pte s pr va a (Q : Z -> kst F -> Prop) :
  (p < length (k_procs s))%nat -> k_cur s = Some p -> pte_addr (kmm s) (p_pgdir pr) va = Some a ->
  Q a (setp p pr s) -> wp (my_pte va) Q (setp p pr s).
Proof.
  intros Hlen Hcur Ha HQ. unfold my_pte, myproc. kstep. kstep. simpl. rewrite Hcur. kstep.
  apply on_getp; [done|]. eapply wp_inmem; [|exact HQ].
  by apply walkpgdir_present.
Qed.

Lemma on_updateAccessBit s pr va a (Q : Z -> kst F -> Prop) :
  (p < length (k_procs s))%nat -> k_cur s = Some p -> pt_wf (kmm s) (p_pgdir pr) ->
  pte_addr (kmm s) (p_pgdir pr) va = Some a -> has (pte_val (kmm s) (p_pgdir pr) va) PTE_P = true ->
  Q (if has (pte_val (kmm s) (p_pgdir pr) va) PTE_A then 1 else 0)
    (setp p pr (upd_mem (st32 (kmm s) a (clear_A (pte_val (kmm s) (p_pgdir pr) va))) s)) ->
  wp (updateAccessBit va) Q (setp p pr s).
Proof.
  intros Hlen Hcur Hwf Ha HP HQ. unfold updateAccessBit. kstep. eapply on_my_pte; [done..|].
  destruct (pte_addr_nonzero _ _ _ _ Hwf Ha) as [_ Hk].
  assert (ld32 (km_mem (k_mem (setp p pr s))) a = pte_val (kmm s) (p_pgdir pr) va) as He.
  { unfold pte_val. by rewrite Ha. }
  kstep. apply wp_kld32_kern; [lia|]. rewrite He.
  destruct (Z.eqb_spec (pte_val (kmm s) (p_pgdir pr) va) 0) as [E|E]; [by rewrite E in HP|].
  kstep. apply wp_kld32_kern; [lia|]. rewrite He. kstep. apply wp_kst32_kern; [lia|].
  unfold has in HQ. destruct (Z.land _ PTE_A =? 0) eqn:EA; kstep; exact HQ.
Qed.

Lemma on_get_user_bit s pr va a (Q : Z -> kst F -> Prop) :
  (p < length (k_procs s))%nat -> k_cur s = Some p -> pt_wf (kmm s) (p_pgdir pr) ->
  pte_addr (kmm s) (p_pgdir pr) va = Some a -> has (pte_val (kmm s) (p_pgdir pr) va) PTE_P = true ->
  Q (if has (pte_val (kmm s) (p_pgdir pr) va) PTE_U then 1 else 0) (setp p pr s) ->
  wp (get_user_bit va) Q (setp p pr s).
Proof.
  intros Hlen Hcur Hwf Ha HP HQ. unfold get_user_bit. kstep. eapply on_my_pte; [done..|].
  destruct (pte_addr_nonzero _ _ _ _ Hwf Ha) as [_ Hk].
  assert (ld32 (km_mem (k_mem (setp p pr s))) a = pte_val (kmm s) (p_pgdir pr) va) as He.
  { unfold pte_val. by rewrite Ha. }
  kstep. apply wp_kld32_kern; [lia|]. rewrite He.
  destruct (Z.eqb_spec (pte_val (kmm s) (p_pgdir pr) va) 0) as [E|E]; [by rewrite E in HP|].
  kstep. apply wp_kld32_kern; [lia|]. rewrite He.
  unfold has in HQ. destruct (Z.land _ PTE_U =? 0) eqn:EA; kstep; exact HQ.
Qed.

(** One round of the loop: the head is passed over, or the loop stops at it. *)
Lemma scfifo_body_pass s pr i j q t oldhead a (Q : option nat + option nat -> kst F -> Prop) :
  (p < length (k_procs s))%nat -> k_cur s = Some p -> pt_wf (kmm s) (p_pgdir pr) ->
  p_head pr = Some i -> p_tail pr = Some t -> fifo_proc pr (i :: j :: q) ->
  vas (p_memory_pg_arr pr) !! i = Some (slot_va pr i) ->
  pte_addr (kmm s) (p_pgdir pr) (slot_va pr i) = Some a ->
  has (pte_val (kmm s) (p_pgdir pr) (slot_va pr i)) PTE_P = true ->
  accessed (kmm s) pr i = true ->
  (forall pr', relinked pr pr' -> fifo_proc pr' (j :: q ++ [i]) ->
    Q (if decide (Some j = oldhead) then inr (Some j) else inl (Some j))
      (setp p pr' (upd_mem (st32 (kmm s) a (clear_A (pte_val (kmm s) (p_pgdir pr) (slot_va pr i)))) s))) ->
  wp (scfifo_body p oldhead (Some i)) Q (setp p pr s).
Proof.
  intros Hlen Hcur Hwf Hh Ht Hq Hva Ha HP Hacc HQ.
  pose proof Hq as ((_ & Hnx & _) & Htl & Hnd & _ & _).
  assert (i < length (p_memory_pg_arr pr) /\ j < length (p_memory_pg_arr pr) /\
          t < length (p_memory_pg_arr pr))%nat as (Hil & Hjl & Htll).
  { split; [|split]; eapply fifo_lt; try exact Hq; [constructor|by do 2 constructor|].
    apply last_Some_elem_of. congruence. }
  unfold scfifo_body. kstep. apply on_getp; [done|]. rewrite Hh. kstep.
  eapply on_get_va; [done|done|]. kstep. eapply on_updateAccessBit; [done..|].
  unfold accessed in Hacc. rewrite Hacc. simpl. set (s1 := upd_mem _ s).
  assert (p < length (k_procs s1))%nat as Hlen1 by done.
  do 2 kstep. apply on_getp; [done|]. rewrite Hh. kstep. apply on_get_next; [done|done|]. rewrite Hnx.
  kstep. apply on_updp; [done|]. kstep. apply on_put_prev; [done|done|].
  kstep. apply on_put_next; [done|simpl; by rewrite length_alter|]. kstep. apply on_getp; [done|].
  cbn [p_tail set_p_tail set_p_head set_p_memory_pg_arr]. rewrite Ht.
  kstep. apply on_put_prev; [done|simpl; by rewrite !length_alter|]. kstep.
  apply on_put_next; [done|simpl; by rewrite !length_alter|]. kstep. apply on_updp; [done|].
  kstep. apply on_getp; [done|]. kstep. kstep. apply on_getp; [done|].
  cbn [p_head set_p_tail set_p_head set_p_memory_pg_arr p_memory_pg_arr].
  set (pr' := set_p_tail _ _).
  assert (relinked pr pr') as Hrel.
  { split; [reflexivity|]. simpl. rewrite !vas_alter_other, !ages_alter_other by done. done. }
  assert (fifo_proc pr' (j :: q ++ [i])) as Hq'.
  { unfold fifo_proc in *. rewrite Hh, Ht in Hq. apply (fifo_rotate _ _ _ _ _ Hq). }
  specialize (HQ pr' Hrel Hq'). case_decide as Hd; simpl.
  - rewrite bool_decide_eq_true_2 by done. cbn [negb andb]. kstep. exact HQ.
  - rewrite bool_decide_eq_false_2 by done. cbn [negb andb]. kstep. exact HQ.
Qed.

Lemma scfifo_body_stop s pr i q oldhead a (Q : option nat + option nat -> kst F -> Prop) :
  (p < length (k_procs s))%nat -> k_cur s = Some p -> pt_wf (kmm s) (p_pgdir pr) ->
  fifo_proc pr (i :: q) ->
  vas (p_memory_pg_arr pr) !! i = Some (slot_va pr i) ->
  pte_addr (kmm s) (p_pgdir pr) (slot_va pr i) = Some a ->
  has (pte_val (kmm s) (p_pgdir pr) (slot_va pr i)) PTE_P = true ->
  accessed (kmm s) pr i = false ->
  (forall pr', relinked pr pr' -> fifo_proc pr' (i :: q) ->
    Q (inr (Some i))
      (setp p pr' (upd_mem (st32 (kmm s) a (clear_A (pte_val (kmm s) (p_pgdir pr) (slot_va pr i)))) s))) ->
  wp (scfifo_body p oldhead (Some i)) Q (setp p pr s).
Proof.
  intros Hlen Hcur Hwf Hq Hva Ha HP Hacc HQ.
  pose proof Hq as ((Hh & Hnx) & Htl & Hnd & _ & Hpv).
  assert (i < length (p_memory_pg_arr pr))%nat as Hil by (eapply fifo_lt; [exact Hq|constructor]).
  unfold scfifo_body. kstep. apply on_getp; [done|]. rewrite Hh. kstep.
  eapply on_get_va; [done|done|]. kstep. eapply on_updateAccessBit; [done..|].
  unfold accessed in Hacc. rewrite Hacc. simpl. set (s1 := upd_mem _ s).
  assert (p < length (k_procs s1))%nat as Hlen1 by done.
  do 2 kstep. apply on_getp; [done|]. rewrite Hh, Htl.
  destruct q as [|j q].
  - simpl. rewrite bool_decide_eq_true_2 by done. simpl. kstep. kstep.
    apply on_put_next; [done|done|]. apply on_put_prev; [done|simpl; by rewrite length_alter|].
    do 2 kstep. apply on_getp; [done|]. rewrite andb_false_r. kstep.
    apply HQ.
    + split; [reflexivity|]. simpl. rewrite !vas_alter_other, !ages_alter_other by done. done.
    + unfold fifo_proc in *. simpl. split; [|split; [done|split; [done|split]]].
      * split; [done|]. by slots.
      * rewrite !length_alter. by constructor.
      * intros k Hk. assert (k = i) as -> by congruence. by slots.
  - rewrite bool_decide_eq_false_2.
    2: { rewrite last_cons_cons. intros E. symmetry in E. apply last_Some_elem_of in E.
         by inversion_clear Hnd. }
    simpl. kstep. kstep. kstep. kstep. apply on_getp; [done|]. rewrite andb_false_r. kstep.
    apply HQ; [|done]. split; [|done]. destruct pr; reflexivity.
Qed.

Lemma on_unlink_head s pr i q (Q : unit -> kst F -> Prop) :
  (p < length (k_procs s))%nat -> fifo_proc pr (i :: q) ->
  (forall pr', relinked pr pr' -> fifo_proc pr' q -> Q tt (setp p pr' s)) ->
  wp (unlink p (Some i)) Q (setp p pr s).
Proof.
  intros Hlen Hq HQ. pose proof Hq as ((Hh & Hnx) & Htl & Hnd & _ & Hpv).
  assert (i < length (p_memory_pg_arr pr))%nat as Hil by (eapply fifo_lt; [exact Hq|constructor]).
  unfold unlink. kstep. apply on_get_prev; [done|done|]. rewrite (Hpv i Hh). simpl. kstep. kstep.
  kstep. apply on_get_next; [done|done|]. rewrite (chain_hd _ _ _ Hnx).
  destruct q as [|j q]; simpl.
  - kstep. kstep. kstep. apply on_getp; [done|]. rewrite Hh, bool_decide_eq_true_2 by done. simpl.
    kstep. kstep. apply on_get_next; [done|done|]. simpl in Hnx. rewrite Hnx. apply on_updp; [done|].
    kstep. apply on_getp; [done|]. simpl. rewrite bool_decide_eq_true_2 by done. simpl.
    kstep. apply on_get_prev; [done|done|]. simpl. rewrite (Hpv i Hh). apply on_updp; [done|].
    apply HQ.
    + by split.
    + split; [done|]. split; [done|]. split; [constructor|]. split; [constructor|done].
  - assert (j < length (p_memory_pg_arr pr))%nat as Hjl by (eapply fifo_lt; [exact Hq|by do 2 constructor]).
    destruct Hnx as [Hnx Hc]. kstep. kstep. apply on_get_prev; [done|done|]. rewrite (Hpv i Hh).
    apply on_put_prev; [done|done|]. kstep. apply on_getp; [done|]. cbn [p_head set_p_memory_pg_arr].
    rewrite Hh, bool_decide_eq_true_2 by done. simpl.
    kstep. kstep. apply on_get_next; [done|simpl; by rewrite length_alter|]. simpl. slots. rewrite Hnx.
    apply on_updp; [done|]. kstep. apply on_getp; [done|]. simpl.
    rewrite bool_decide_eq_false_2.
    2: { rewrite Htl, last_cons_cons. intros E. apply last_Some_elem_of in E.
         by inversion_clear Hnd. }
    simpl. kstep. apply HQ.
    + split; [destruct pr; reflexivity|]. simpl. rewrite vas_alter_other, ages_alter_other by done. done.
    + unfold fifo_proc in *. simpl. rewrite Hh, Htl in Hq. rewrite last_cons_cons in *.
      destruct (last (j :: q)) as [t|] eqn:El; [|by apply last_None in El].
      rewrite Htl. by eapply fifo_pop.
Qed.

End runs.

Section relinked.
Implicit Types (pr : proc).

Lemma relinked_refl pr : relinked pr pr.
Proof. split; [by destruct pr|done]. Qed.

Lemma relinked_trans pr1 pr2 pr3 : relinked pr1 pr2 -> relinked pr2 pr3 -> relinked pr1 pr3.
Proof.
  intros (E1 & V1 & A1) (E2 & V2 & A2). split; [|by rewrite V2, V1, A2, A1].
  rewrite E2 at 1. rewrite E1. reflexivity.
Qed.

Lemma slot_va_relinked pr pr' i : relinked pr pr' -> slot_va pr' i = slot_va pr i.
Proof. intros (_ & V & _). unfold slot_va. by rewrite V. Qed.

Lemma pgdir_relinked pr pr' : relinked pr pr' -> p_pgdir pr' = p_pgdir pr.
Proof. intros (-> & _). reflexivity. Qed.
End relinked.

(** What is known in the middle of scfifo_alg: the pages [pass] were passed over. *)
Section scfifo.
Context {img : Image} {F : Type} (p : nat) (s0 : kst F) (pr0 : proc) (q0 : list nat).
Hypothesis Hlen : (p < length (k_procs s0))%nat.
Hypothesis Hcur : k_cur s0 = Some p.
Hypothesis Hpt : pt_wf (kmm s0) (p_pgdir pr0).
Hypothesis Hpages : queue_pages (kmm s0) pr0 q0.

Let acc := accessed (kmm s0) pr0.

Definition sc_state (pass rest : list nat) (pr : proc) (m : mem) : Prop :=
  q0 = pass ++ rest /\ Forall (fun i => acc i = true) pass /\ relinked pr0 pr /\
  fifo_proc pr (rest ++ pass) /\ pt_wf m (p_pgdir pr0) /\
  cleared (p_pgdir pr0) (kmm s0) m (map (slot_va pr0) pass).

(** The entry of a page that has not been examined yet is unchanged. *)
Lemma sc_state_page pass i rest pr m :
  sc_state pass (i :: rest) pr m ->
  let va := slot_va pr0 i in
  slot_va pr i = va /\ vas (p_memory_pg_arr pr) !! i = Some va /\ (va ∉ map (slot_va pr0) pass) /\
  va mod 4096 = 0 /\ 0 <= va < 2 ^ 32 /\
  pte_val m (p_pgdir pr0) va = pte_val (kmm s0) (p_pgdir pr0) va /\
  has (pte_val (kmm s0) (p_pgdir pr0) va) PTE_P = true /\
  exists a, pte_addr m (p_pgdir pr0) va = Some a /\ pte_addr (kmm s0) (p_pgdir pr0) va = Some a.
Proof.
  intros (Eq & _ & Hrel & _ & _ & Ha & _ & Hv & _) va. destruct Hpages as [Hnd Hf].
  rewrite Eq in Hnd, Hf. rewrite map_app in Hnd. apply NoDup_app in Hnd as (_ & Hd & Hnd).
  apply Forall_app in Hf as [_ Hf]. inversion_clear Hf as [|?? (Hl & Hm & Hr & HP) _].
  assert (va ∉ map (slot_va pr0) pass) as Hnin.
  { intros Hin. apply (Hd _ Hin). simpl. by constructor. }
  destruct (has_mapped _ _ _ _ HP) as [a Hpa].
  split; [by apply slot_va_relinked|]. split; [by rewrite (proj1 (proj2 Hrel))|].
  do 3 (split; [done|]). split; [|split; [done|exists a; by rewrite Ha]].
  rewrite Hv by done. rewrite bool_decide_eq_false_2; [done|].
  assert (va / 4096 * 4096 = va) as -> by (fold va in Hm; Z.to_euclidean_division_equations; lia). done.
Qed.

Lemma NoDup_q0 pass rest pr m : sc_state pass rest pr m -> NoDup (pass ++ rest).
Proof.
  intros (_ & _ & _ & (_ & _ & Hnd & _) & _). by rewrite (Permutation_app_comm pass rest).
Qed.

Lemma accessed_sc pass i rest pr m :
  sc_state pass (i :: rest) pr m -> accessed (kmm (upd_mem m s0)) pr i = acc i.
Proof.
  intros Hst. destruct (sc_state_page _ _ _ _ _ Hst) as (Hsv & _ & _ & _ & _ & Hpv & _).
  destruct Hst as (_ & _ & Hrel & _). unfold acc, accessed. rewrite Hsv, (pgdir_relinked _ _ Hrel).
  by rewrite <- Hpv.
Qed.

Lemma sc_stop pass i rest pr m oh :
  sc_state pass (i :: rest) pr m -> acc i = false ->
  wp (scfifo_body p oh (Some i))
    (fun r (st : kst F) => exists pr' m', r = inr (Some i) /\ st = setp p pr' (upd_mem m' s0) /\
       sc_state pass (i :: rest) pr' m') (setp p pr (upd_mem m s0)).
Proof.
  intros Hst Hi. pose proof (accessed_sc _ _ _ _ _ Hst) as Eacc. rewrite Hi in Eacc.
  pose proof (sc_state_page _ _ _ _ _ Hst) as (Hsv & Hva & Hnin & Hal & Hr & Hpv & HP & a & Ha & Ha0).
  destruct Hst as (Eq & Hacc & Hrel & Hq & Hwf & Hcl). pose proof (pgdir_relinked _ _ Hrel) as Epd.
  eapply (scfifo_body_stop p (upd_mem m s0)); [exact Hlen|exact Hcur|..].
  all: rewrite ?Hsv, ?Epd; try done.
  { change (kmm (upd_mem m s0)) with m. by rewrite Hpv. }
  intros pr' Hrel' Hq'. change (kmm (upd_mem m s0)) with m. eexists pr', _.
  split; [done|]. split; [reflexivity|]. do 2 (split; [done|]).
  split; [by eapply relinked_trans|]. split; [done|]. split; [by eapply pt_wf_write|].
  eapply cleared_same; try done. rewrite <- Eacc. unfold accessed. rewrite Hsv, Epd. done.
Qed.

Lemma sc_step pass i rest pr m j r :
  sc_state pass (i :: rest) pr m -> acc i = true -> rest ++ pass = j :: r ->
  wp (scfifo_body p (head q0) (Some i))
    (fun r (st : kst F) => exists pr' m', r = (if decide (Some j = head q0) then inr (Some j) else inl (Some j)) /\
       st = setp p pr' (upd_mem m' s0) /\ sc_state (pass ++ [i]) rest pr' m') (setp p pr (upd_mem m s0)).
Proof.
  intros Hst Hi Hj. pose proof (accessed_sc _ _ _ _ _ Hst) as Eacc. rewrite Hi in Eacc.
  pose proof (sc_state_page _ _ _ _ _ Hst) as (Hsv & Hva & Hnin & Hal & Hr & Hpv & HP & a & Ha & Ha0).
  destruct Hst as (Eq & Hacc & Hrel & Hq & Hwf & Hcl). pose proof (pgdir_relinked _ _ Hrel) as Epd.
  simpl in Hq. rewrite Hj in Hq. pose proof Hq as ((Hh & _) & Ht & _).
  assert (exists t, p_tail pr = Some t) as [t Htl].
  { rewrite Ht. apply last_is_Some. done. }
  eapply (scfifo_body_pass p (upd_mem m s0) pr i j r t); [exact Hlen|exact Hcur|..].
  all: rewrite ?Hsv, ?Epd; try done.
  { change (kmm (upd_mem m s0)) with m. by rewrite Hpv. }
  intros pr' Hrel' Hq'. change (kmm (upd_mem m s0)) with m. eexists pr', _.
  split; [done|]. split; [reflexivity|]. split; [by rewrite <- app_assoc|].
  split; [by apply Forall_app_2; [|constructor]|]. split; [by eapply relinked_trans|].
  split; [by rewrite app_assoc, Hj|]. split; [by eapply pt_wf_write|].
  rewrite map_app, Hpv. by apply cleared_snoc.
Qed.

Definition sc_done (tmp : option nat) (st : kst F) : Prop :=
  exists v q' pr' m', tmp = Some v /\ second_chance acc q0 = Some (v, q') /\
    st = setp p pr' (upd_mem m' s0) /\ relinked pr0 pr' /\ fifo_proc pr' (v :: q') /\
    cleared (p_pgdir pr0) (kmm s0) m' (map (slot_va pr0) (sc_pass acc q0)) /\ pt_wf m' (p_pgdir pr0).

Lemma sc_stop_done pass i rest pr m :
  sc_state pass (i :: rest) pr m -> acc i = false -> sc_done (Some i) (setp p pr (upd_mem m s0)).
Proof.
  intros (Eq & Hacc & Hrel & Hq & Hwf & Hcl) Ei. destruct (sc_app acc pass (i :: rest) Hacc) as [E1 E2].
  rewrite <- Eq in E1, E2. simpl in E1, E2. rewrite Ei in E1, E2. rewrite app_nil_r in E1.
  exists i, (rest ++ pass), pr, m. unfold second_chance. rewrite E1, E2. done.
Qed.

Lemma scfifo_loop fuel pass i rest pr m :
  (length (i :: rest) <= fuel)%nat -> sc_state pass (i :: rest) pr m ->
  (2 <= length q0)%nat \/ acc i = false ->
  wp (loop fuel (scfifo_body p (head q0)) (Some i)) sc_done (setp p pr (upd_mem m s0)).
Proof.
  revert fuel pass i pr m. induction rest as [|i' rest IH]; intros fuel pass i pr m Hf Hst H2;
    (destruct fuel as [|fuel]; [simpl in Hf; lia|]); simpl loop; kstep;
    pose proof (NoDup_q0 _ _ _ _ Hst) as Hnd; pose proof Hst as (Eq & Hacc & _);
    (destruct (acc i) eqn:Ei;
     [|eapply wp_mono; [by apply sc_stop|]; intros r st (pr' & m' & -> & -> & Hst');
       kstep; by eapply sc_stop_done]).
  - destruct H2 as [H2|]; [|done]. rewrite Eq, length_app in H2. simpl in H2.
    destruct pass as [|j pass]; [simpl in H2; lia|].
    eapply wp_mono; [by eapply sc_step|]. intros r st (pr' & m' & -> & -> & Eq' & Hacc' & Hrel & Hq & Hwf & Hcl).
    rewrite decide_True by (by rewrite Eq). kstep. rewrite app_nil_r in Eq'.
    destruct (sc_app acc ((j :: pass) ++ [i]) [] Hacc') as [E1 E2]. rewrite app_nil_r, <- Eq' in E1, E2.
    exists j, (pass ++ [i]), pr', m'. split; [done|]. unfold second_chance. rewrite E1, E2.
    rewrite app_nil_r, Eq'. done.
  - eapply wp_mono; [by eapply sc_step|]. intros r st (pr' & m' & -> & -> & Hst').
    rewrite decide_False.
    + apply IH with (pass ++ [i]); [simpl in *; lia|done|]. left. rewrite Eq, length_app. simpl. lia.
    + rewrite Eq. intros E. rewrite Permutation_app_comm in Hnd. destruct pass as [|k pass]; simpl in *.
      * injection E as ->. inversion_clear Hnd. set_solver.
      * injection E as ->. inversion_clear Hnd as [|?? _ Hnd']. inversion_clear Hnd'. set_solver.
Qed.

Lemma scfifo_alg_spec i rest :
  q0 = i :: rest -> (length q0 <= MAX_PSYC_PAGES)%nat -> fifo_proc pr0 q0 ->
  (2 <= length q0)%nat \/ acc i = false ->
  exists v q' pr' m', second_chance acc q0 = Some (v, q') /\
    scfifo_alg p (setp p pr0 s0) = Ret (Some v) (setp p pr' (upd_mem m' s0)) /\
    relinked pr0 pr' /\ fifo_proc pr' q' /\ pt_wf m' (p_pgdir pr0) /\
    cleared (p_pgdir pr0) (kmm s0) m' (map (slot_va pr0) (sc_pass acc q0)).
Proof.
  intros Eq Hmax Hq H2.
  assert (wp (scfifo_alg p) (fun r (st : kst F) => exists v q' pr' m', r = Some v /\
    second_chance acc q0 = Some (v, q') /\ st = setp p pr' (upd_mem m' s0) /\ relinked pr0 pr' /\
    fifo_proc pr' q' /\ pt_wf m' (p_pgdir pr0) /\
    cleared (p_pgdir pr0) (kmm s0) m' (map (slot_va pr0) (sc_pass acc q0)))
    (setp p pr0 (upd_mem (kmm s0) s0))) as H.
  - unfold scfifo_alg. kstep. apply on_getp; [done|]. kstep.
    assert (p_head pr0 = head q0) as -> by (destruct Hq as (Hc & _); by apply chain_hd in Hc).
    replace (head q0) with (Some i) at 2 by (by rewrite Eq).
    eapply wp_mono.
    + apply (scfifo_loop queue_fuel [] i rest); [unfold queue_fuel; rewrite <- Eq; lia| |done].
      split; [done|]. split; [constructor|]. split; [apply relinked_refl|].
      rewrite app_nil_r, <- Eq. split; [done|]. split; [done|]. apply cleared_nil.
    + intros tmp st (v & q' & pr' & m' & -> & Esc & -> & Hrel & Hq' & Hcl & Hwf).
      kstep. eapply on_unlink_head; [done|exact Hq'|]. intros pr'' Hrel' Hq''. kstep.
      exists v, q', pr'', m'. do 3 (split; [done|]). split; [by eapply relinked_trans|done].
  - assert (upd_mem (kmm s0) s0 = s0) as Es by (destruct s0 as [[] ]; done). rewrite Es in H.
    apply wp_elim in H as (r & st & E & v & q' & pr' & m' & -> & Esc & -> & H). exists v, q', pr', m'. auto.
Qed.

End scfifo.

(** ** Entering a page *)

(** Slot [i] is the first unused one. *)
Definition first_free (pr : proc) (i : nat) : Prop :=
  vas (p_memory_pg_arr pr) !! i = Some NOVA /\
  forall j, (j < i)%nat -> exists va, vas (p_memory_pg_arr pr) !! j = Some va /\ va <> NOVA.

Lemma first_free_lt pr i : first_free pr i -> (i < length (p_memory_pg_arr pr))%nat.
Proof. intros [H _]. apply lookup_lt_Some in H. unfold vas in H. by rewrite length_map in H. Qed.

Lemma slot_read pr i va : vas (p_memory_pg_arr pr) !! i = Some va ->
  exists f, p_memory_pg_arr pr !! i = Some f /\ fp_va f = va.
Proof. unfold vas. rewrite list_lookup_fmap_Some. intros (f & -> & Hf). eauto. Qed.

(** [pr'] is [pr] with the page [va] entered in slot [i], up to links. *)
Definition entered (i : nat) (va age : Z) (pr pr' : proc) : Prop :=
  vas (p_memory_pg_arr pr') = <[i := va]> (vas (p_memory_pg_arr pr)) /\
  map fp_age (p_memory_pg_arr pr') = <[i := age]> (map fp_age (p_memory_pg_arr pr)) /\
  pr' = set_p_pages_in_memory_counter (p_pages_in_memory_counter pr + 1)
          (set_p_tail (p_tail pr') (set_p_head (p_head pr') (set_p_memory_pg_arr (p_memory_pg_arr pr') pr))).

Lemma vas_alter_va arr i va : vas (alter (set_fp_va va) i arr) = <[i := va]> (vas arr).
Proof.
  apply list_eq. intros j. unfold vas. rewrite list_lookup_fmap, list_lookup_alter, list_lookup_insert, length_map.
  destruct (decide (i = j)) as [->|Hne].
  - destruct (arr !! j) as [f|] eqn:E; simpl.
    + rewrite decide_True; [done|]. apply lookup_lt_Some in E. done.
    + rewrite decide_False; [by rewrite list_lookup_fmap, E|]. apply lookup_ge_None in E. lia.
  - rewrite decide_False by (intros [? _]; done). by rewrite list_lookup_fmap.
Qed.

Lemma ages_alter_age arr i a : map fp_age (alter (set_fp_age a) i arr) = <[i := a]> (map fp_age arr).
Proof.
  apply list_eq. intros j. rewrite list_lookup_fmap, list_lookup_alter, list_lookup_insert, length_map.
  destruct (decide (i = j)) as [->|Hne].
  - destruct (arr !! j) as [f|] eqn:E; simpl.
    + rewrite decide_True; [done|]. apply lookup_lt_Some in E. done.
    + rewrite decide_False; [by rewrite list_lookup_fmap, E|]. apply lookup_ge_None in E. lia.
  - rewrite decide_False by (intros [? _]; done). by rewrite list_lookup_fmap.
Qed.

(** Prove the [entered] facts about a record built by setters. *)
Ltac entered_tac :=
  split; [|split; [|reflexivity]]; simpl;
  repeat first [ rewrite vas_alter_va | rewrite ages_alter_age
               | rewrite vas_alter_other by done | rewrite ages_alter_other by done ]; done.

Section enter.
Context {img : Image} {F : Type} (p : nat) (sel : selection).
Implicit Types (s : kst F) (pr : proc).

Lemma for_first_free s pr i body (Q : option nat -> kst F -> Prop) :
  (p < length (k_procs s))%nat -> length (p_memory_pg_arr pr) = MAX_PSYC_PAGES -> first_free pr i ->
  wp (body i) (fun r st => match r with Some v => Q (Some v) st | None => False end) (setp p pr s) ->
  wp (for_range MAX_PSYC_PAGES 0 (fun k => let! f := fp_read p k in
        if fp_va f =? NOVA then body k else ret None)) Q (setp p pr s).
Proof.
  intros Hlen H16 Hi Hbody. pose proof (first_free_lt _ _ Hi) as Hlt. destruct Hi as [Hi Hj].
  apply (wp_for_range (fun k st => (k <= i)%nat /\ st = setp p pr s)).
  - split; [lia|done].
  - intros k st Hk [Hki ->]. destruct (decide (k = i)) as [->|Hne].
    + destruct (slot_read _ _ _ Hi) as (f & Hf & E). kstep. eapply on_fp_read; [done..|].
      rewrite E, Z.eqb_refl. eapply wp_mono; [exact Hbody|]. by intros [v|] st'.
    + destruct (Hj k ltac:(lia)) as (va & Hva & Hn). destruct (slot_read _ _ _ Hva) as (f & Hf & E).
      kstep. eapply on_fp_read; [done..|]. rewrite E, (proj2 (Z.eqb_neq _ _) Hn). kstep. split; [lia|done].
  - intros st [Hle _]. lia.
Qed.

Lemma update_memorynfua_spec s pr i va :
  (p < length (k_procs s))%nat -> length (p_memory_pg_arr pr) = MAX_PSYC_PAGES -> first_free pr i ->
  exists pr', update_memorynfua sel p va (setp p pr s) = Ret i (setp p pr' s) /\
    entered i va (default_age sel) pr pr'.
Proof.
  intros Hlen H16 Hi. pose proof (first_free_lt _ _ Hi) as Hlt.
  assert (wp (update_memorynfua sel p va) (fun r (st : kst F) => r = i /\
    exists pr', st = setp p pr' s /\ entered i va (default_age sel) pr pr') (setp p pr s)) as H.
  - unfold update_memorynfua. kstep. apply (for_first_free _ _ i); [done..|].
    do 4 (kstep; apply on_fp_modify; [done|simpl; by rewrite ?length_alter|]).
    kstep. unfold incr_memory_counter. apply on_updp; [done|]. kstep. kstep. split; [done|].
    eexists. split; [reflexivity|]. entered_tac.
  - apply wp_elim in H as (r & st & E & -> & pr' & -> & He). eauto.
Qed.

Lemma update_memorylapa_spec s pr i va :
  (p < length (k_procs s))%nat -> length (p_memory_pg_arr pr) = MAX_PSYC_PAGES -> first_free pr i ->
  exists pr', update_memorylapa sel p va (setp p pr s) = Ret i (setp p pr' s) /\
    entered i va (default_age sel) pr pr'.
Proof.
  intros Hlen H16 Hi. pose proof (first_free_lt _ _ Hi) as Hlt.
  assert (wp (update_memorylapa sel p va) (fun r (st : kst F) => r = i /\
    exists pr', st = setp p pr' s /\ entered i va (default_age sel) pr pr') (setp p pr s)) as H.
  - unfold update_memorylapa. kstep. apply (for_first_free _ _ i); [done..|].
    do 4 (kstep; apply on_fp_modify; [done|simpl; by rewrite ?length_alter|]).
    kstep. unfold incr_memory_counter. apply on_updp; [done|]. kstep. kstep. split; [done|].
    eexists. split; [reflexivity|]. entered_tac.
  - apply wp_elim in H as (r & st & E & -> & pr' & -> & He). eauto.
Qed.

(** The two checks of a well-formed queue pass. *)
Lemma on_queue_checks s pr (Q : unit -> kst F -> Prop) :
  (p < length (k_procs s))%nat -> isnull (p_head pr) = isnull (p_tail pr) ->
  (forall i, p_head pr = Some i -> (i < length (p_memory_pg_arr pr))%nat /\ prv (p_memory_pg_arr pr) i = None) ->
  Q tt (setp p pr s) -> wp (queue_checks p) Q (setp p pr s).
Proof.
  intros Hlen Hn Hh HQ. unfold queue_checks. kstep. apply on_getp; [done|]. rewrite <- Hn.
  destruct (p_head pr) as [i|] eqn:E; simpl; [|by kstep].
  destruct (Hh i eq_refl) as [Hl Hp]. kstep. apply on_get_prev; [done|done|]. rewrite Hp. simpl. by kstep.
Qed.

End enter.

(** ** SCFIFO: a new page goes to the tail *)

Lemma chain_snoc_empty nx i : nx i = None -> chain nx (Some i) [i].
Proof. by intros H. Qed.

Section fifo_enter.
Context {img : Image} {F : Type} (p : nat) (sel : selection).
Implicit Types (s : kst F) (pr : proc).

Lemma fifo_ends pr q : fifo_proc pr q -> isnull (p_head pr) = isnull (p_tail pr).
Proof.
  intros (Hc & Ht & _). rewrite (chain_hd _ _ _ Hc), Ht. destruct q as [|i q]; [done|].
  destruct (last (i :: q)) eqn:E; [done|]. by apply last_None in E.
Qed.

Lemma update_memoryscfifo_spec s pr i va q :
  (p < length (k_procs s))%nat -> length (p_memory_pg_arr pr) = MAX_PSYC_PAGES -> first_free pr i ->
  fifo_proc pr q -> (i ∉ q) ->
  exists pr', update_memoryscfifo sel p va (setp p pr s) = Ret i (setp p pr' s) /\
    entered i va (default_age sel) pr pr' /\ fifo_proc pr' (q ++ [i]).
Proof.
  intros Hlen H16 Hi Hq Hnin. pose proof (first_free_lt _ _ Hi) as Hlt.
  assert (wp (update_memoryscfifo sel p va) (fun r (st : kst F) => r = i /\
    exists pr', st = setp p pr' s /\ entered i va (default_age sel) pr pr' /\ fifo_proc pr' (q ++ [i]))
    (setp p pr s)) as H.
  - pose proof Hq as (Hc & Ht & Hnd & Hf & Hp).
    unfold update_memoryscfifo. kstep. apply on_queue_checks; [done|by eapply fifo_ends| |].
    { intros k Hk. split; [|by apply Hp]. eapply fifo_lt; [exact Hq|].
      rewrite (chain_hd _ _ _ Hc) in Hk. destruct q; [done|]. injection Hk as ->. constructor. }
    kstep. apply (for_first_free _ _ _ i); [done..|].
    do 2 (kstep; apply on_fp_modify; [done|simpl; by rewrite ?length_alter|]).
    kstep. unfold incr_memory_counter. apply on_updp; [done|]. kstep. apply on_getp; [done|]. simpl.
    rewrite (chain_hd _ _ _ Hc), Ht. destruct (decide (q = [])) as [->|Hne]; simpl.
    + do 2 (kstep; apply on_fp_modify; [done|simpl; by rewrite ?length_alter|]).
      do 2 (kstep; apply on_updp; [done|]). kstep. kstep. split; [done|]. eexists. split; [reflexivity|].
      split; [entered_tac|]. simpl. split; [|split; [done|split; [apply NoDup_singleton|split]]]; simpl.
      * split; [done|]. by slots.
      * constructor; [by rewrite !length_alter|constructor].
      * intros k [= <-]. by slots.
    + destruct (exists_last Hne) as (q' & t & ->). rewrite last_snoc, andb_false_r. simpl.
      rewrite last_snoc in Ht. assert (t < length (p_memory_pg_arr pr))%nat as Htl.
      { eapply fifo_lt; [exact Hq|]. set_solver. }
      kstep. apply on_get_next; [done|simpl; by rewrite !length_alter|]. simpl. slots.
      rewrite (chain_last _ _ _ _ Hc). simpl. kstep. kstep. kstep.
      apply on_put_next; [done|simpl; by rewrite !length_alter|]. kstep. apply on_updp; [done|].
      kstep. apply on_fp_modify; [done|simpl; by rewrite !length_alter|]. kstep. kstep. split; [done|].
      eexists. split; [reflexivity|]. split; [entered_tac|].
      assert (t <> i) by set_solver. assert (i <> t) by done.
      split; [|split; [by rewrite last_snoc|split; [|split]]]; simpl.
      * rewrite <- app_assoc. eapply (chain_snoc (nxt (p_memory_pg_arr pr))); [done|done|by slots|by slots|].
        intros k Hk. apply NoDup_app in Hnd as (_ & Hd & _). specialize (Hd _ Hk).
        assert (k <> t) by set_solver. assert (k <> i) by set_solver. by slots.
      * apply NoDup_app. split; [done|]. split; [set_solver|apply NoDup_singleton].
      * rewrite !length_alter. apply Forall_app. split; [done|]. by constructor.
      * intros k Hk. slots. by apply Hp.
  - apply wp_elim in H as (r & st & E & -> & pr' & -> & He). eauto.
Qed.

End fifo_enter.

(** ** AQ *)

(** The queue of AQ, oldest page first: the [prev] pointers from the tail. *)
Definition aqueue (arr : list free_page) (h t : option nat) (q : list nat) : Prop :=
  chain (prv arr) t q /\ h = last q /\ NoDup q /\ Forall (fun i => (i < length arr)%nat) q /\
  (forall i, t = Some i -> nxt arr i = None).

Definition aq_proc (pr : proc) (q : list nat) : Prop :=
  aqueue (p_memory_pg_arr pr) (p_head pr) (p_tail pr) q.

Section aq.
Implicit Types (arr : list free_page) (q : list nat).

Lemma aqueue_lt arr h t q i : aqueue arr h t q -> i ∈ q -> (i < length arr)%nat.
Proof. intros (_ & _ & _ & Hf & _) Hi. rewrite Forall_forall in Hf. by apply Hf. Qed.

(** The oldest page becomes the newest. *)
Lemma aqueue_rotate arr h i j q :
  aqueue arr (Some h) (Some i) (i :: j :: q) ->
  aqueue (alter (set_fp_prev (Some i)) h (alter (set_fp_next (Some h)) i
         (alter (set_fp_prev None) i (alter (set_fp_next None) j arr))))
       (Some i) (Some j) (j :: q ++ [i]).
Proof.
  intros Hq. pose proof Hq as ((_ & Hj & Hc) & Ht & Hnd & Hf & Hp).
  assert ((i < length arr)%nat /\ (j < length arr)%nat) as [Hi Hjl].
  { split; eapply aqueue_lt; try exact Hq; set_solver. }
  apply NoDup_cons in Hnd as [Hni Hnd].
  rewrite last_cons_cons in Ht.
  destruct (exists_last (l := j :: q)) as (q' & t' & Eq); [done|]. rewrite Eq in *.
  rewrite last_snoc in Ht. injection Ht as ->.
  assert (i <> t') as Hit by set_solver.
  assert (t' < length arr)%nat as Htl. { eapply aqueue_lt; [exact Hq|]. set_solver. }
  split; [|split; [|split; [|split]]].
  - replace (j :: q ++ [i]) with (q' ++ [t'; i])
      by (rewrite app_comm_cons, Eq, <- app_assoc; done).
    eapply (chain_snoc (prv arr)); [|exact Hnd|by slots|by slots|].
    + rewrite <- Eq. simpl. auto.
    + intros k Hk. apply NoDup_app in Hnd as (_ & Hd & _). specialize (Hd _ Hk).
      assert (k <> t') by set_solver. assert (k <> i) by set_solver. by slots.
  - by rewrite app_comm_cons, last_snoc.
  - rewrite app_comm_cons, Eq. apply NoDup_app. split; [done|]. split; [set_solver|apply NoDup_singleton].
  - rewrite app_comm_cons, Eq. rewrite !length_alter.
    inversion_clear Hf. apply Forall_app. split; [done|]. by constructor.
  - intros k [= <-]. assert (j <> i). { intros ->. apply Hni. rewrite <- Eq. constructor. } by slots.
Qed.
End aq.

Section aq_enter.
Context {img : Image} {F : Type} (p : nat) (sel : selection).
Implicit Types (s : kst F) (pr : proc).

Lemma aq_ends pr q : aq_proc pr q -> isnull (p_head pr) = isnull (p_tail pr).
Proof.
  intros (Hc & Ht & _). rewrite (chain_hd _ _ _ Hc), Ht. destruct q as [|i q]; [done|].
  destruct (last (i :: q)) eqn:E; [done|]. by apply last_None in E.
Qed.

Lemma aq_head_prev pr q i :
  aq_proc pr q -> p_head pr = Some i ->
  (i < length (p_memory_pg_arr pr))%nat /\ prv (p_memory_pg_arr pr) i = None.
Proof.
  intros Hq Hi. pose proof Hq as (Hc & Hh & _). rewrite Hh in Hi.
  split; [eapply aqueue_lt; [exact Hq|by apply last_Some_elem_of]|].
  destruct (decide (q = [])) as [->|Hne]; [done|]. destruct (exists_last Hne) as (q' & t & ->).
  rewrite last_snoc in Hi. injection Hi as ->. by eapply chain_last.
Qed.

Lemma update_memoryaq_spec s pr i va q :
  (p < length (k_procs s))%nat -> length (p_memory_pg_arr pr) = MAX_PSYC_PAGES -> first_free pr i ->
  aq_proc pr q -> (i ∉ q) ->
  exists pr', update_memoryaq sel p va (setp p pr s) = Ret i (setp p pr' s) /\
    entered i va (default_age sel) pr pr' /\ aq_proc pr' (q ++ [i]).
Proof.
  intros Hlen H16 Hi Hq Hnin. pose proof (first_free_lt _ _ Hi) as Hlt.
  assert (wp (update_memoryaq sel p va) (fun r (st : kst F) => r = i /\
    exists pr', st = setp p pr' s /\ entered i va (default_age sel) pr pr' /\ aq_proc pr' (q ++ [i]))
    (setp p pr s)) as H.
  - pose proof Hq as (Hc & Ht & Hnd & Hf & Hp).
    unfold update_memoryaq. kstep. apply on_queue_checks; [done|by eapply aq_ends| |].
    { intros k Hk. by eapply aq_head_prev. }
    kstep. apply (for_first_free _ _ _ i); [done..|].
    do 2 (kstep; apply on_fp_modify; [done|simpl; by rewrite ?length_alter|]).
    kstep. unfold incr_memory_counter. apply on_updp; [done|].
    do 2 (kstep; apply on_fp_modify; [done|simpl; by rewrite ?length_alter|]).
    kstep. apply on_getp; [done|]. simpl.
    rewrite (chain_hd _ _ _ Hc), Ht. destruct (decide (q = [])) as [->|Hne]; simpl.
    + do 2 (kstep; apply on_updp; [done|]). kstep. kstep. split; [done|]. eexists. split; [reflexivity|].
      split; [entered_tac|]. simpl. split; [|split; [done|split; [apply NoDup_singleton|split]]]; simpl.
      * split; [done|]. by slots.
      * constructor; [by rewrite !length_alter|constructor].
      * intros k [= <-]. by slots.
    + destruct (exists_last Hne) as (q' & t & ->). rewrite last_snoc. simpl.
      rewrite last_snoc in Ht. assert (t < length (p_memory_pg_arr pr))%nat as Htl.
      { eapply aqueue_lt; [exact Hq|]. set_solver. }
      kstep. apply on_put_prev; [done|simpl; by rewrite !length_alter|]. kstep. apply on_updp; [done|].
      kstep. kstep. split; [done|].
      eexists. split; [reflexivity|]. split; [entered_tac|].
      assert (t <> i) by set_solver. assert (i <> t) by done.
      split; [|split; [by rewrite last_snoc|split; [|split]]]; simpl.
      * rewrite <- app_assoc. eapply (chain_snoc (prv (p_memory_pg_arr pr))); [done|done|by slots|by slots|].
        intros k Hk. apply NoDup_app in Hnd as (_ & Hd & _). specialize (Hd _ Hk).
        assert (k <> t) by set_solver. assert (k <> i) by set_solver. by slots.
      * apply NoDup_app. split; [done|]. split; [set_solver|apply NoDup_singleton].
      * rewrite !length_alter. apply Forall_app. split; [done|]. by constructor.
      * intros k Hk. slots. case_decide; [done|]. by apply Hp.
  - apply wp_elim in H as (r & st & E & -> & pr' & -> & He). eauto.
Qed.

Lemma on_unlink_tail s pr i q (Q : unit -> kst F -> Prop) :
  (p < length (k_procs s))%nat -> aq_proc pr (i :: q) ->
  (forall pr', relinked pr pr' -> aq_proc pr' q -> Q tt (setp p pr' s)) ->
  wp (unlink p (Some i)) Q (setp p pr s).
Proof.
  intros Hlen Hq HQ. pose proof Hq as ((Ht & Hpv) & Hhd & Hnd & _ & Hnx).
  assert (i < length (p_memory_pg_arr pr))%nat as Hil by (eapply aqueue_lt; [exact Hq|constructor]).
  unfold unlink. kstep. apply on_get_prev; [done|done|]. rewrite (chain_hd _ _ _ Hpv).
  destruct q as [|j q]; simpl.
  - kstep. kstep. kstep. apply on_get_next; [done|done|]. rewrite (Hnx i Ht). simpl.
    kstep. kstep. kstep. apply on_getp; [done|]. rewrite Hhd, bool_decide_eq_true_2 by done. simpl.
    kstep. kstep. apply on_get_next; [done|done|]. rewrite (Hnx i Ht). apply on_updp; [done|].
    kstep. apply on_getp; [done|]. simpl. rewrite Ht, bool_decide_eq_true_2 by done. simpl.
    kstep. apply on_get_prev; [done|done|]. simpl in Hpv |- *. rewrite Hpv. apply on_updp; [done|].
    apply HQ; [by split|].
    split; [done|]. split; [done|]. split; [constructor|]. split; [constructor|done].
  - assert (j < length (p_memory_pg_arr pr))%nat as Hjl by (eapply aqueue_lt; [exact Hq|by do 2 constructor]).
    destruct Hpv as [Hpv Hc]. inversion_clear Hnd as [|?? Hnin Hnd'].
    assert (i <> j) as Hij by set_solver.
    kstep. kstep. apply on_get_next; [done|done|]. rewrite (Hnx i Ht).
    apply on_put_next; [done|done|]. kstep. apply on_get_next; [done|simpl; by rewrite length_alter|].
    simpl. slots. rewrite (Hnx i Ht). simpl. kstep. kstep. kstep. apply on_getp; [done|].
    cbn [p_head set_p_memory_pg_arr]. rewrite Hhd, bool_decide_eq_false_2.
    2: { rewrite last_cons_cons. intros E. by apply last_Some_elem_of in E. }
    kstep. cbn [when]. kstep. kstep. apply on_getp; [done|]. cbn [p_tail set_p_memory_pg_arr].
    rewrite Ht, bool_decide_eq_true_2 by done. cbn [when].
    kstep. apply on_get_prev; [done|simpl; by rewrite length_alter|]. simpl. slots. rewrite Hpv.
    apply on_updp; [done|]. apply HQ.
    + split; [destruct pr; reflexivity|]. simpl. rewrite vas_alter_other, ages_alter_other by done. done.
    + split; [|split; [|split; [done|split]]]; simpl.
      * split; [done|]. slots. eapply chain_ext; [|exact Hc]. intros k Hk. by slots.
      * by rewrite Hhd, last_cons_cons.
      * rewrite length_alter. rewrite Forall_forall. intros k Hk. eapply aqueue_lt; [exact Hq|by constructor].
      * intros k [= <-]. by slots.
Qed.

End aq_enter.

(** Pages whose user bit is clear are passed over, as accessed pages are by SCFIFO. *)
Definition no_user (m : mem) (pr : proc) (i : nat) : bool :=
  negb (has (pte_val m (p_pgdir pr) (slot_va pr i)) PTE_U).

Section aq_alg.
Context {img : Image} {F : Type} (p : nat) (s : kst F) (pr0 : proc) (q0 : list nat).
Hypothesis Hlen : (p < length (k_procs s))%nat.
Hypothesis Hcur : k_cur s = Some p.
Hypothesis Hpt : pt_wf (kmm s) (p_pgdir pr0).
Hypothesis Hpages : queue_pages (kmm s) pr0 q0.

Let skipped := no_user (kmm s) pr0.

Lemma aq_body_step pr i q oldtail (Q : option nat + option nat -> kst F -> Prop) :
  i ∈ q0 -> relinked pr0 pr -> aq_proc pr (i :: q) ->
  (skipped i = true -> exists j q', q = j :: q' /\ Some j <> oldtail /\
     forall pr', relinked pr0 pr' -> aq_proc pr' (q ++ [i]) -> Q (inl (Some j)) (setp p pr' s)) ->
  (skipped i = false -> Q (inr (Some i)) (setp p pr s)) ->
  wp (aq_body p oldtail (Some i)) Q (setp p pr s).
Proof.
  intros Hi Hrel Hq Hskip Hstop. pose proof Hq as ((Ht & Hpv) & Hhd & Hnd & _ & Hnx).
  pose proof (pgdir_relinked _ _ Hrel) as Epd.
  destruct Hpages as [_ Hf]. rewrite Forall_forall in Hf. destruct (Hf i Hi) as (Hva & _ & _ & HP).
  rewrite <- (proj1 (proj2 Hrel)) in Hva. destruct (has_mapped _ _ _ _ HP) as [a Ha].
  assert (i < length (p_memory_pg_arr pr))%nat as Hil by (eapply aqueue_lt; [exact Hq|constructor]).
  unfold aq_body. kstep. eapply on_get_va; [done|exact Hva|]. kstep.
  eapply on_get_user_bit; [done|done|by rewrite Epd|by rewrite Epd|by rewrite Epd|].
  rewrite Epd. unfold skipped, no_user in Hskip, Hstop.
  destruct (has (pte_val (kmm s) (p_pgdir pr0) (slot_va pr0 i)) PTE_U); simpl.
  { kstep. by apply Hstop. }
  destruct (Hskip eq_refl) as (j & q' & -> & Hne & HQ). clear Hskip Hstop.
  destruct Hpv as [Hpv Hc].
  assert (j < length (p_memory_pg_arr pr))%nat as Hjl by (eapply aqueue_lt; [exact Hq|by do 2 constructor]).
  assert (exists h, p_head pr = Some h) as [h Hh].
  { rewrite Hhd. apply last_is_Some. done. }
  assert (h < length (p_memory_pg_arr pr))%nat as Hhl.
  { eapply aqueue_lt; [exact Hq|]. apply last_Some_elem_of. congruence. }
  kstep. apply on_getp; [done|]. rewrite Ht. kstep. apply on_get_prev; [done|done|]. rewrite Hpv.
  kstep. apply on_updp; [done|]. kstep. apply on_put_next; [done|done|].
  kstep. apply on_put_prev; [done|simpl; by rewrite !length_alter|]. kstep. apply on_getp; [done|].
  cbn [p_head set_p_tail set_p_memory_pg_arr]. rewrite Hh.
  kstep. apply on_put_next; [done|simpl; by rewrite !length_alter|].
  kstep. apply on_put_prev; [done|simpl; by rewrite !length_alter|].
  kstep. apply on_updp; [done|]. kstep. apply on_getp; [done|].
  cbn [p_tail set_p_head set_p_tail set_p_memory_pg_arr].
  rewrite bool_decide_eq_false_2 by done. kstep. apply HQ.
  - eapply relinked_trans; [exact Hrel|]. split; [destruct pr; reflexivity|]. simpl.
    rewrite !vas_alter_other, !ages_alter_other by done. done.
  - unfold aq_proc in *. rewrite Ht, Hh in Hq. by apply aqueue_rotate.
Qed.

Definition aq_done (tmp : option nat) (st : kst F) : Prop :=
  exists v q' pr', tmp = Some v /\ skipped v = false /\ second_chance skipped q0 = Some (v, q') /\
    st = setp p pr' s /\ relinked pr0 pr' /\ aq_proc pr' (v :: q').

Lemma aq_stop_done pass i rest pr :
  q0 = pass ++ i :: rest -> Forall (fun k => skipped k = true) pass -> skipped i = false ->
  relinked pr0 pr -> aq_proc pr ((i :: rest) ++ pass) -> aq_done (Some i) (setp p pr s).
Proof.
  intros Eq Hpass Hi Hrel Hq. destruct (sc_app skipped pass (i :: rest) Hpass) as [E1 E2].
  rewrite <- Eq in E1, E2. simpl in E1, E2. rewrite Hi in E1, E2. rewrite app_nil_r in E1.
  exists i, (rest ++ pass), pr. unfold second_chance. rewrite E1, E2. done.
Qed.

Lemma aq_loop fuel pass i rest pr :
  (length (i :: rest) <= fuel)%nat -> NoDup q0 -> q0 = pass ++ i :: rest ->
  Forall (fun k => skipped k = true) pass -> Exists (fun k => skipped k = false) (i :: rest) ->
  relinked pr0 pr -> aq_proc pr ((i :: rest) ++ pass) ->
  wp (loop fuel (aq_body p (head q0)) (Some i)) aq_done (setp p pr s).
Proof.
  revert fuel pass i pr. induction rest as [|i' rest IH]; intros fuel pass i pr Hf Hnd Eq Hpass Hex Hrel Hq;
    (destruct fuel as [|fuel]; [simpl in Hf; lia|]); cbn [loop]; kstep; simpl in Hq.
  - apply (aq_body_step pr i pass); [by rewrite Eq; set_solver|done|done|..]; intros Hi.
    + apply Exists_cons in Hex as [Hex|Hex]; [congruence|]. by apply Exists_nil in Hex.
    + kstep. by eapply aq_stop_done.
  - apply (aq_body_step pr i (i' :: rest ++ pass)); [by rewrite Eq; set_solver|done|done|..]; intros Hi.
    + exists i', (rest ++ pass). split; [done|]. split.
      { rewrite Eq in Hnd |- *. intros E. rewrite Permutation_app_comm in Hnd.
        inversion_clear Hnd as [|?? Hi1 Hnd']. inversion_clear Hnd' as [|?? Hi2 _].
        destruct pass as [|k pass]; simpl in E; injection E as ->; set_solver. }
      intros pr' Hrel' Hq'. apply IH with (pass ++ [i]); try done.
      * simpl in *; lia.
      * by rewrite <- app_assoc.
      * apply Forall_app. split; [done|]. by constructor.
      * apply Exists_cons in Hex as [Hex|Hex]; [congruence|done].
      * by rewrite <- app_comm_cons, app_assoc in *.
    + kstep. by eapply aq_stop_done.
Qed.

Lemma aq_alg_spec :
  (length q0 <= MAX_PSYC_PAGES)%nat -> aq_proc pr0 q0 -> Exists (fun k => skipped k = false) q0 ->
  exists v q' pr', second_chance skipped q0 = Some (v, q') /\ skipped v = false /\
    aq_alg p (setp p pr0 s) = Ret (Some v) (setp p pr' s) /\ relinked pr0 pr' /\ aq_proc pr' q'.
Proof.
  intros Hmax Hq Hex. pose proof Hq as (Hc & _ & Hnd & _). apply chain_hd in Hc.
  assert (exists i rest, q0 = i :: rest) as (i & rest & Eq0).
  { clear -Hex. destruct q0; [by apply Exists_nil in Hex|eauto]. }
  assert (wp (aq_alg p) (fun r (st : kst F) => exists v q' pr', r = Some v /\ skipped v = false /\
    second_chance skipped q0 = Some (v, q') /\ st = setp p pr' s /\ relinked pr0 pr' /\
    aq_proc pr' q') (setp p pr0 s)) as H.
  - unfold aq_alg. kstep. apply on_getp; [done|]. rewrite Eq0 in Hc. rewrite Hc. cbn [isnull head]. kstep.
    eapply wp_mono.
    + replace (Some i) with (head q0) at 1 by (by rewrite Eq0).
      apply (aq_loop queue_fuel [] i rest); try exact Eq0;
        [unfold queue_fuel; rewrite <- Eq0; lia|done|constructor|by rewrite <- Eq0|apply relinked_refl|by rewrite app_nil_r, <- Eq0].
    + intros tmp st (v & q' & pr' & -> & Hv & Esc & -> & Hrel & Hq').
      kstep. eapply on_unlink_tail; [done|exact Hq'|]. intros pr'' Hrel' Hq''. kstep.
      exists v, q', pr''. do 4 (split; [done|]). split; [by eapply relinked_trans|done].
  - apply wp_elim in H as (r & st & E & v & q' & pr' & -> & Hv & Esc & -> & H).
    exists v, q', pr'. auto.
Qed.

End aq_alg.
