(* ===== verification/Replacement.v ===== *)
(** * What the paging code relies on: the interface of a replacement scheme

    select_page_to_remove and update_memory are the two operations that allocuvm and
    getPageFromFile call.  [Replacement] states what a scheme promises about them, with an
    invariant of its own on the process; each of SCFIFO, NFUA, LAPA and AQ is an instance. *)
From Stdlib Require Import ZArith Lia.
From stdpp Require Import base list numbers strings sets.
From S2P Require Import Prelude Mmu Mem Kalloc PageTable Kstate Policy Queues.
Local Open Scope Z_scope.

(** Every used slot holds a page of its own that is mapped. *)
Definition resident_pages (m : mem) (pr : proc) : Prop :=
  (forall i, slot_va pr i <> NOVA ->
     slot_va pr i mod 4096 = 0 /\ 0 <= slot_va pr i < 2 ^ 32 /\
     has (pte_val m (p_pgdir pr) (slot_va pr i)) PTE_P = true) /\
  (forall i j, slot_va pr i <> NOVA -> slot_va pr i = slot_va pr j -> i = j).

(** Slot [v] is given up: [to_remove->va = -1; p->pages_in_memory_counter--]. *)
Definition vacate (v : nat) (pr : proc) : proc :=
  set_p_pages_in_memory_counter (p_pages_in_memory_counter pr - 1)
    (set_p_memory_pg_arr (alter (set_fp_va NOVA) v (p_memory_pg_arr pr)) pr).

Class Replacement (sel : selection) := {
  rp_inv : proc -> Prop;
  rp_inv_fields pr pr' :
    p_memory_pg_arr pr' = p_memory_pg_arr pr -> p_head pr' = p_head pr -> p_tail pr' = p_tail pr ->
    rp_inv pr -> rp_inv pr';
  (* moveram_to_disk checks the ends of the SCFIFO queue. *)
  rp_queue pr i : sel = SCFIFO -> rp_inv pr -> slot_va pr i <> NOVA ->
    (exists h, p_head pr = Some h) /\ (exists t, p_tail pr = Some t);
  (* Asked with all slots in use, the scheme returns one of them and unlinks it; nothing but
     access bits and links change. *)
  rp_select `{Image} {F} p (s : kst F) pr :
    (p < length (k_procs s))%nat -> k_cur s = Some p -> pt_wf (kmm s) (p_pgdir pr) ->
    length (p_memory_pg_arr pr) = MAX_PSYC_PAGES ->
    rp_inv pr -> resident_pages (kmm s) pr ->
    (forall i, (i < MAX_PSYC_PAGES)%nat -> slot_va pr i <> NOVA) ->
    (exists i, (i < MAX_PSYC_PAGES)%nat /\ has (pte_val (kmm s) (p_pgdir pr) (slot_va pr i)) PTE_U = true) ->
    exists v pr' m' vs,
      select_page_to_remove sel p (setp p pr s) = Ret (Some v) (setp p pr' (upd_mem m' s)) /\
      (v < MAX_PSYC_PAGES)%nat /\ relinked pr pr' /\ pt_wf m' (p_pgdir pr) /\
      cleared (p_pgdir pr) (kmm s) m' vs /\ rp_inv (vacate v pr');
  (* A page is entered in the first unused slot. *)
  rp_enter `{Image} {F} p (s : kst F) pr i va :
    (p < length (k_procs s))%nat -> length (p_memory_pg_arr pr) = MAX_PSYC_PAGES ->
    rp_inv pr -> first_free pr i -> va <> NOVA ->
    exists pr', update_memory sel p va (setp p pr s) = Ret i (setp p pr' s) /\
      entered i va (default_age sel) pr pr' /\ rp_inv pr' }.

Lemma slot_va_lt pr i : slot_va pr i <> NOVA -> (i < length (p_memory_pg_arr pr))%nat.
Proof.
  unfold slot_va, vas. intros H. destruct (decide (i < length (p_memory_pg_arr pr))%nat); [done|].
  rewrite lookup_ge_None_2 in H by (rewrite length_map; lia). done.
Qed.

Lemma slot_va_lookup pr i : slot_va pr i <> NOVA ->
  vas (p_memory_pg_arr pr) !! i = Some (slot_va pr i).
Proof. unfold slot_va. destruct (vas (p_memory_pg_arr pr) !! i); done. Qed.

Lemma slot_va_vacate v pr i : slot_va (vacate v pr) i = if decide (i = v) then NOVA else slot_va pr i.
Proof.
  unfold slot_va, vacate. simpl. rewrite vas_alter_va. destruct (decide (i = v)) as [->|].
  - destruct (decide (v < length (vas (p_memory_pg_arr pr)))%nat).
    + by rewrite list_lookup_insert_eq.
    + rewrite list_insert_ge by lia. by rewrite lookup_ge_None_2 by lia.
  - by rewrite list_lookup_insert_ne.
Qed.

Lemma slot_va_entered i va age pr pr' k :
  (i < length (p_memory_pg_arr pr))%nat -> entered i va age pr pr' ->
  slot_va pr' k = if decide (k = i) then va else slot_va pr k.
Proof.
  intros Hi (Hv & _). unfold slot_va. rewrite Hv. destruct (decide (k = i)) as [->|].
  - rewrite list_lookup_insert_eq; [done|]. unfold vas. by rewrite length_map.
  - by rewrite list_lookup_insert_ne.
Qed.

(** A list of distinct slots is no longer than the table. *)
Lemma slots_length q n : NoDup q -> Forall (fun i => (i < n)%nat) q -> (length q <= n)%nat.
Proof.
  intros Hnd Hf. rewrite <- (length_seq n 0). apply submseteq_length, NoDup_submseteq; [done|].
  intros i Hi. rewrite Forall_forall in Hf. apply elem_of_seq. specialize (Hf i Hi). lia.
Qed.

(** ** Queues of the used slots *)

Definition lists_used (pr : proc) (q : list nat) : Prop := forall i, i ∈ q <-> slot_va pr i <> NOVA.

Lemma NoDup_map_inj {A B} (f : A -> B) l :
  NoDup l -> (forall x y, x ∈ l -> y ∈ l -> f x = f y -> x = y) -> NoDup (map f l).
Proof.
  induction 1 as [|x l Hx Hnd IH]; intros Hf; simpl; [constructor|]. constructor.
  - intros Hin. apply list_elem_of_fmap in Hin as (y & E & Hy).
    apply Hx. rewrite (Hf x y); [done|by constructor|by constructor|done].
  - apply IH. intros y z Hy Hz. apply Hf; by constructor.
Qed.

Lemma queue_pages_used m pr q :
  NoDup q -> lists_used pr q -> resident_pages m pr -> queue_pages m pr q.
Proof.
  intros Hnd Hq [Hr Hd]. split.
  - apply NoDup_map_inj; [done|]. intros i j Hi Hj. apply Hd. by apply Hq.
  - apply Forall_forall. intros i Hi%Hq. destruct (Hr i Hi) as (? & ? & ?).
    split; [by apply slot_va_lookup|done].
Qed.

Lemma second_chance_elem acc q v q' : second_chance acc q = Some (v, q') -> q ≡ₚ v :: q'.
Proof.
  intros H. rewrite (sc_split acc q). unfold second_chance in H. rewrite Permutation_app_comm.
  destruct (sc_rest acc q ++ sc_pass acc q); simplify_eq. done.
Qed.

(** After the victim [v] has left the queue, the queue lists the used slots again. *)
Lemma lists_used_vacate pr pr' q v q' :
  NoDup q -> lists_used pr q -> relinked pr pr' -> q ≡ₚ v :: q' -> lists_used (vacate v pr') q'.
Proof.
  intros Hnd Hq Hrel Hp i. rewrite slot_va_vacate, (slot_va_relinked _ _ _ Hrel).
  rewrite Hp in Hnd. inversion_clear Hnd. destruct (decide (i = v)) as [->|Hne].
  - split; [done|]. by intros [].
  - rewrite <- (Hq i), Hp, elem_of_cons. tauto.
Qed.

Lemma lists_used_enter i va age pr pr' q :
  (i < length (p_memory_pg_arr pr))%nat -> lists_used pr q -> entered i va age pr pr' -> va <> NOVA ->
  lists_used pr' (q ++ [i]).
Proof.
  intros Hi Hq He Hva k. rewrite (slot_va_entered _ _ _ _ _ _ Hi He), elem_of_app, list_elem_of_singleton.
  destruct (decide (k = i)) as [->|]; [tauto|]. rewrite (Hq k). tauto.
Qed.

Lemma first_free_unused pr i : first_free pr i -> slot_va pr i = NOVA.
Proof. intros [H _]. unfold slot_va. by rewrite H. Qed.

Lemma fifo_vacate v pr q : fifo_proc pr q -> fifo_proc (vacate v pr) q.
Proof.
  intros (Hc & Ht & Hnd & Hf & Hp). unfold fifo_proc, vacate. simpl.
  split; [|split; [done|split; [done|split]]].
  - eapply chain_ext; [|exact Hc]. intros. by apply nxt_alter_other.
  - by rewrite length_alter.
  - intros i Hi. rewrite prv_alter_other by done. by apply Hp.
Qed.

Lemma aq_vacate v pr q : aq_proc pr q -> aq_proc (vacate v pr) q.
Proof.
  intros (Hc & Ht & Hnd & Hf & Hp). unfold aq_proc, vacate. simpl.
  split; [|split; [done|split; [done|split]]].
  - eapply chain_ext; [|exact Hc]. intros. by apply prv_alter_other.
  - by rewrite length_alter.
  - intros i Hi. rewrite nxt_alter_other by done. by apply Hp.
Qed.

(** With the table full the queue has all the slots. *)
Lemma full_length pr q :
  NoDup q -> lists_used pr q -> (forall i, (i < MAX_PSYC_PAGES)%nat -> slot_va pr i <> NOVA) ->
  (MAX_PSYC_PAGES <= length q)%nat.
Proof.
  intros Hnd Hq Hfull. rewrite <- (length_seq MAX_PSYC_PAGES 0).
  apply submseteq_length, NoDup_submseteq; [apply NoDup_seq|].
  intros i Hi%elem_of_seq. apply Hq, Hfull. lia.
Qed.

Lemma upd_mem_id {F} (s : kst F) : upd_mem (kmm s) s = s.
Proof. destruct s as [[] ?]. done. Qed.

(** ** The instances *)

#[export] Program Instance scfifo_replacement : Replacement SCFIFO := {|
  rp_inv pr := exists q, fifo_proc pr q /\ lists_used pr q |}.
Next Obligation.
  intros pr pr' Em Eh Et (q & Hq & Hu). exists q. unfold fifo_proc, lists_used, slot_va in *.
  by rewrite Em, Eh, Et.
Qed.
Next Obligation.
  intros pr i _ (q & (Hc & Ht & _) & Hu) Hi%Hu. destruct q as [|h q]; [by apply not_elem_of_nil in Hi|].
  destruct Hc as [Hh _]. split; [by exists h|]. rewrite Ht. apply last_is_Some. done.
Qed.
Next Obligation.
  intros img F p s pr Hlen Hcur Hpt H16 (q & Hq & Hu) Hres Hfull _.
  pose proof Hq as (_ & _ & Hnd & Hf & _). rewrite H16 in Hf.
  pose proof (slots_length _ _ Hnd Hf) as Hle. pose proof (full_length _ _ Hnd Hu Hfull) as Hge.
  destruct q as [|i rest] eqn:Eq; [unfold MAX_PSYC_PAGES in Hge; simpl in Hge; lia|].
  destruct (scfifo_alg_spec p s pr q Hlen Hcur Hpt) with i rest
    as (v & q' & pr' & m' & Esc & E & Hrel & Hq' & Hwf & Hcl); subst q; try done.
  { by apply queue_pages_used. }
  { left. unfold MAX_PSYC_PAGES in Hge. lia. }
  apply second_chance_elem in Esc. exists v, pr', m'. eexists. split; [exact E|].
  split; [rewrite Forall_forall in Hf; apply Hf; rewrite Esc; by constructor|].
  split; [done|]. split; [done|]. split; [exact Hcl|]. exists q'.
  split; [by apply fifo_vacate|by eapply lists_used_vacate].
Qed.
Next Obligation.
  intros img F p s pr i va Hlen H16 (q & Hq & Hu) Hi Hva.
  destruct (update_memoryscfifo_spec p SCFIFO s pr i va q) as (pr' & E & He & Hq'); try done.
  { rewrite (Hu i), (first_free_unused _ _ Hi). tauto. }
  exists pr'. split; [exact E|]. split; [done|]. exists (q ++ [i]). split; [done|].
  eapply lists_used_enter; [by apply first_free_lt|done..].
Qed.

#[export] Program Instance aq_replacement : Replacement AQ := {|
  rp_inv pr := exists q, aq_proc pr q /\ lists_used pr q |}.
Next Obligation.
  intros pr pr' Em Eh Et (q & Hq & Hu). exists q. unfold aq_proc, lists_used, slot_va in *.
  by rewrite Em, Eh, Et.
Qed.
Next Obligation. done. Qed.
Next Obligation.
  intros img F p s pr Hlen Hcur Hpt H16 (q & Hq & Hu) Hres Hfull (iu & Hiu & Hus).
  pose proof Hq as (_ & _ & Hnd & Hf & _). rewrite H16 in Hf.
  pose proof (slots_length _ _ Hnd Hf) as Hle.
  destruct (aq_alg_spec p s pr q Hlen Hcur Hpt) as (v & q' & pr' & Esc & Hv & E & Hrel & Hq'); try done.
  { by apply queue_pages_used. }
  { apply Exists_exists. exists iu. split; [by apply Hu, Hfull|]. unfold no_user. by rewrite Hus. }
  apply second_chance_elem in Esc. exists v, pr', (kmm s), []. rewrite upd_mem_id. split; [exact E|].
  split; [rewrite Forall_forall in Hf; apply Hf; rewrite Esc; by constructor|].
  split; [done|]. split; [done|]. split; [apply cleared_nil|]. exists q'.
  split; [by apply aq_vacate|by eapply lists_used_vacate].
Qed.
Next Obligation.
  intros img F p s pr i va Hlen H16 (q & Hq & Hu) Hi Hva.
  destruct (update_memoryaq_spec p AQ s pr i va q) as (pr' & E & He & Hq'); try done.
  { rewrite (Hu i), (first_free_unused _ _ Hi). tauto. }
  exists pr'. split; [exact E|]. split; [done|]. exists (q ++ [i]). split; [done|].
  eapply lists_used_enter; [by apply first_free_lt|done..].
Qed.

(** NFUA and LAPA keep no order; they need the ages to be 32-bit values. *)
Definition proc_ages_ok (pr : proc) : Prop := ages_ok (p_memory_pg_arr pr).

Lemma ages_ok_map arr : ages_ok arr <-> Forall (fun a => 0 <= a < 2 ^ 32) (map fp_age arr).
Proof. unfold ages_ok. by rewrite Forall_fmap. Qed.

Lemma ages_ok_entered i va age pr pr' :
  0 <= age < 2 ^ 32 -> proc_ages_ok pr -> entered i va age pr pr' -> proc_ages_ok pr'.
Proof.
  unfold proc_ages_ok. rewrite !ages_ok_map. intros Ha Hok (_ & -> & _). by apply Forall_insert.
Qed.

Lemma ages_ok_vacate v pr : proc_ages_ok pr -> proc_ages_ok (vacate v pr).
Proof.
  unfold proc_ages_ok. rewrite !ages_ok_map. unfold vacate. simpl. by rewrite ages_alter_other.
Qed.

Lemma least_lt key arr i : least key arr i -> (i < length arr)%nat.
Proof. intros (f & Hf & _). by eapply lookup_lt_Some. Qed.

Lemma nfu_alg_least {F} p (s : kst F) pr :
  (p < length (k_procs s))%nat -> length (p_memory_pg_arr pr) = MAX_PSYC_PAGES -> proc_ages_ok pr ->
  (exists i, slot_va pr i <> NOVA) ->
  exists i, nfu_alg p (setp p pr s) = Ret (Some i) (setp p pr s) /\ least fp_age (p_memory_pg_arr pr) i.
Proof.
  intros Hlen H16 Hok (k & Hk). unfold nfu_alg, bind, getp. rewrite lookup_setp by done.
  rewrite take_ge by lia.
  pose proof (nfu_scan_spec (p_memory_pg_arr pr) [] (-1) (-1) 0 Hok) as [[_ Hn]|(i & E & Hi)].
  { left. split; [done|]. intros j g Hj. by rewrite lookup_nil in Hj. }
  { apply slot_va_lookup in Hk as Hl. destruct (slot_read _ _ _ Hl) as (f & Hf & Ef).
    destruct (Hn _ _ Hf). unfold occupied. by rewrite Ef. }
  change (Z.of_nat (length [])) with 0 in E. rewrite app_nil_l in *. rewrite E. exists i.
  split; [|done]. unfold slot_ptr.
  destruct (Z.eqb_spec (Z.of_nat i) (-1)); [lia|]. by rewrite Nat2Z.id.
Qed.

Lemma lapa_alg_least {F} p (s : kst F) pr :
  (p < length (k_procs s))%nat -> length (p_memory_pg_arr pr) = MAX_PSYC_PAGES -> proc_ages_ok pr ->
  (exists i, slot_va pr i <> NOVA) ->
  exists i, lapa_alg p (setp p pr s) = Ret (Some i) (setp p pr s) /\ least lapa_key (p_memory_pg_arr pr) i.
Proof.
  intros Hlen H16 Hok (k & Hk). unfold lapa_alg, bind, getp. rewrite lookup_setp by done.
  rewrite take_ge by lia.
  pose proof (lapa_scan_spec (p_memory_pg_arr pr) [] (-1) (-1) 0 Hok) as [[_ Hn]|(i & E & Hi)].
  { left. split; [done|]. intros j g Hj. by rewrite lookup_nil in Hj. }
  { apply slot_va_lookup in Hk as Hl. destruct (slot_read _ _ _ Hl) as (f & Hf & Ef).
    destruct (Hn _ _ Hf). unfold occupied. by rewrite Ef. }
  change (Z.of_nat (length [])) with 0 in E. rewrite app_nil_l in *. rewrite E. exists i.
  split; [|done]. unfold slot_ptr.
  destruct (Z.eqb_spec (Z.of_nat i) (-1)); [lia|]. by rewrite Nat2Z.id.
Qed.

#[export] Program Instance nfua_replacement : Replacement NFUA := {| rp_inv := proc_ages_ok |}.
Next Obligation. intros pr pr' Em _ _. unfold proc_ages_ok. by rewrite Em. Qed.
Next Obligation. done. Qed.
Next Obligation.
  intros img F p s pr Hlen Hcur Hpt H16 Hok Hres Hfull _.
  destruct (nfu_alg_least p s pr) as (i & E & Hi); [done..| |].
  { exists O. apply Hfull. unfold MAX_PSYC_PAGES. lia. }
  exists i, pr, (kmm s), []. rewrite upd_mem_id. split; [exact E|].
  split; [rewrite <- H16; by eapply least_lt|]. split; [apply relinked_refl|].
  split; [done|]. split; [apply cleared_nil|]. by apply ages_ok_vacate.
Qed.
Next Obligation.
  intros img F p s pr i va Hlen H16 Hok Hi Hva.
  destruct (update_memorynfua_spec p NFUA s pr i va) as (pr' & E & He); [done..|].
  exists pr'. split; [exact E|]. split; [done|]. eapply ages_ok_entered; [|done..]. unfold default_age. lia.
Qed.

#[export] Program Instance lapa_replacement : Replacement LAPA := {| rp_inv := proc_ages_ok |}.
Next Obligation. intros pr pr' Em _ _. unfold proc_ages_ok. by rewrite Em. Qed.
Next Obligation. done. Qed.
Next Obligation.
  intros img F p s pr Hlen Hcur Hpt H16 Hok Hres Hfull _.
  destruct (lapa_alg_least p s pr) as (i & E & Hi); [done..| |].
  { exists O. apply Hfull. unfold MAX_PSYC_PAGES. lia. }
  exists i, pr, (kmm s), []. rewrite upd_mem_id. split; [exact E|].
  split; [rewrite <- H16; by eapply least_lt|]. split; [apply relinked_refl|].
  split; [done|]. split; [apply cleared_nil|]. by apply ages_ok_vacate.
Qed.
Next Obligation.
  intros img F p s pr i va Hlen H16 Hok Hi Hva.
  destruct (update_memorylapa_spec p LAPA s pr i va) as (pr' & E & He); [done..|].
  exists pr'. split; [exact E|]. split; [done|]. eapply ages_ok_entered; [|done..]. unfold default_age. lia.
Qed.
