(* ===== verification/Swap.v ===== *)
(** * The swap file of a process (end of src/fs.c) and the interface of the file system

    [FileSys] lists the operations of the file layer that the virtual-memory and process code
    calls; the representation [F] of the file system is abstract here.  [SwapStore] adds what the
    paging code relies on: an open swap file is a sequence of bytes that filewrite and fileread
    access at the offset that was set, and a write that starts beyond the end fails. *)
From Stdlib Require Import ZArith Lia.
From stdpp Require Import base list numbers strings gmap.
From S2P Require Import Prelude Mmu Mem Kalloc PageTable Kstate.
Local Open Scope Z_scope.

Class FileSys (F : Type) := {
  (* struct file: f->off = v; fileread, filewrite, filedup, fileclose *)
  fs_setoff : nat -> Z -> M F unit;
  fs_fileread : nat -> Z -> M F (Z * list Z);
  fs_filewrite : nat -> list Z -> M F Z;
  fs_filedup : nat -> M F nat;
  (* the page of a pipe that the last close of it gives back is freed by the caller *)
  fs_fileclose : nat -> M F (option Z);
  (* inodes and the log *)
  (* with myproc()->cwd *)
  fs_namei : option nat -> list Z -> M F (option nat);
  fs_idup : nat -> M F nat;
  fs_iput : nat -> M F unit;
  fs_ilock : nat -> M F unit;
  fs_iunlockput : nat -> M F unit;
  fs_readi : nat -> Z -> Z -> M F (Z * list Z);
  fs_begin_op : M F unit;
  fs_end_op : M F unit;
  fs_iinit : Z -> M F unit;
  fs_initlog : Z -> M F unit;
  (* create(path, T_FILE, 0, 0) and filealloc() of createSwapFile; the unlinking of
     removeSwapFile, by the pid in the path *)
  fs_swap_create : Z -> M F nat;
  fs_swap_unlink : Z -> M F Z }.

(** [dst[off .. off+length l)] replaced by [l], extending [dst] when it is too short. *)
Definition splice (off : nat) (l dst : list Z) : list Z :=
  take off dst ++ l ++ drop (off + length l) dst.

(** Pages by which writing page [k] extends the file [c]. *)
Definition page_growth (k : nat) (c : list Z) : nat := if decide (pgn * k + pgn <= length c)%nat then 0 else 1.

Class SwapStore (F : Type) `{FileSys F} := {
  (* the swap files that are open, on different inodes, with their bytes *)
  stored : F -> gmap nat (list Z) -> Prop;
  (* room fs n: there are disk blocks for n more pages *)
  room : F -> nat -> Prop;
  swap_write_ok fs m f k l c :
    stored fs m -> m !! f = Some c -> (exists j, length c = (pgn * j)%nat) ->
    (k < MAX_PSYC_PAGES)%nat -> (pgn * k <= length c)%nat -> length l = pgn -> room fs (page_growth k c) ->
    exists fs', (fs_setoff f (PGSIZE * Z.of_nat k) ;;; fs_filewrite f l) fs = Ret PGSIZE fs' /\
      stored fs' (<[f := splice (pgn * k) l c]> m) /\
      (forall n, room fs (page_growth k c + n) -> room fs' n);
  swap_write_hole fs m f k l c :
    stored fs m -> m !! f = Some c -> (k < MAX_PSYC_PAGES)%nat -> (length c < pgn * k)%nat -> length l = pgn ->
    exists fs', (fs_setoff f (PGSIZE * Z.of_nat k) ;;; fs_filewrite f l) fs = Ret (-1) fs' /\ stored fs' m;
  swap_read_ok fs m f k c :
    stored fs m -> m !! f = Some c -> (pgn * k + pgn <= length c)%nat ->
    exists fs', (fs_setoff f (PGSIZE * Z.of_nat k) ;;; fs_fileread f PGSIZE) fs
        = Ret (PGSIZE, take pgn (drop (pgn * k) c)) fs' /\
      stored fs' m /\ (forall n, room fs n -> room fs' n);
  room_0 fs : room fs 0;
  room_mono fs n m : (m <= n)%nat -> room fs n -> room fs m }.

(** ** A swap file of whole pages *)

Section content.
Context {F : Type} `{SwapStore F}.

Definition content (fs : F) (f : nat) (c : list Z) : Prop :=
  (exists m, stored fs m /\ m !! f = Some c) /\ exists j, length c = (pgn * j)%nat.

Lemma length_splice (off : nat) (l c : list Z) : (off <= length c)%nat -> length (splice off l c) = Nat.max (length c) (off + length l).
Proof. intros Ho. unfold splice. rewrite !length_app, length_take, length_drop. lia. Qed.

Lemma splice_pages k l c : (pgn * k <= length c)%nat -> length l = pgn -> (exists j, length c = (pgn * j)%nat) ->
  exists j, length (splice (pgn * k) l c) = (pgn * j)%nat.
Proof.
  intros Hk Hl [j Hj]. rewrite length_splice by done. rewrite Hl, Hj. exists (Nat.max j (k + 1)). lia.
Qed.

Lemma content_write fs f k l c : content fs f c -> (k < MAX_PSYC_PAGES)%nat -> (pgn * k <= length c)%nat -> length l = pgn ->
  room fs (page_growth k c) ->
  exists fs', (fs_setoff f (PGSIZE * Z.of_nat k) ;;; fs_filewrite f l) fs = Ret PGSIZE fs' /\
    content fs' f (splice (pgn * k) l c) /\ (forall n, room fs (page_growth k c + n) -> room fs' n).
Proof.
  intros [(m & Hs & Hf) Ha] Hk Hc Hl Hr. destruct (swap_write_ok fs m f k l c Hs Hf Ha Hk Hc Hl Hr) as (fs' & E & Hs' & Hr').
  exists fs'. split; [done|]. split; [|done]. split; [|by apply splice_pages]. exists (<[f := splice (pgn * k) l c]> m). split; [done|].
  by rewrite lookup_insert_eq.
Qed.

Lemma content_read fs f k c : content fs f c -> (pgn * k + pgn <= length c)%nat ->
  exists fs', (fs_setoff f (PGSIZE * Z.of_nat k) ;;; fs_fileread f PGSIZE) fs = Ret (PGSIZE, take pgn (drop (pgn * k) c)) fs' /\
    content fs' f c /\ (forall n, room fs n -> room fs' n).
Proof.
  intros [(m & Hs & Hf) Ha] Hc. destruct (swap_read_ok fs m f k c Hs Hf Hc) as (fs' & E & Hs' & Hr).
  exists fs'. split; [done|]. split; [|done]. split; [by exists m|done].
Qed.

Lemma page_growth_in k c : (pgn * k + pgn <= length c)%nat -> page_growth k c = 0%nat.
Proof. intros. unfold page_growth. by rewrite decide_True. Qed.

(** Room for the file to grow to MAX_PSYC_PAGES pages. *)
Definition swap_room (fs : F) (c : list Z) : Prop := room fs (MAX_PSYC_PAGES - length c / pgn).

Lemma swap_room_growth fs k c : swap_room fs c -> (k < MAX_PSYC_PAGES)%nat -> room fs (page_growth k c).
Proof.
  intros Hr Hk. eapply room_mono; [|exact Hr]. unfold page_growth. case_decide as Hd; [lia|].
  assert (length c / pgn < k + 1)%nat by (apply Nat.Div0.div_lt_upper_bound; lia). lia.
Qed.

Lemma swap_room_write fs fs' k b c :
  swap_room fs c -> (k < MAX_PSYC_PAGES)%nat -> (pgn * k <= length c)%nat -> length b = pgn ->
  (forall n, room fs (page_growth k c + n) -> room fs' n) -> swap_room fs' (splice (pgn * k) b c).
Proof.
  unfold swap_room. intros Hr Hk Hkc Hb Hn. apply Hn. eapply room_mono; [|exact Hr]. rewrite length_splice, Hb by done.
  unfold page_growth. case_decide as Hd; [rewrite Nat.max_l by lia; lia|]. rewrite Nat.max_r by lia.
  replace (pgn * k + pgn)%nat with ((k + 1) * pgn)%nat by lia. rewrite Nat.div_mul by lia.
  assert (length c / pgn < k + 1)%nat by (apply Nat.Div0.div_lt_upper_bound; lia). lia.
Qed.

End content.

Section swap.
Context {img : Image} {F : Type} `{FileSys F}.

Definition writeToSwapFile (p : nat) (buffer placeOnFile size : Z) : M (kst F) Z :=
  let! pr := getp p in
  match p_swapFile pr with
  | None => fault
  | Some f =>
    let! l := kread buffer (Z.to_nat size) in
    infs (fs_setoff f placeOnFile ;;; fs_filewrite f l)
  end.

Definition readFromSwapFile (p : nat) (buffer placeOnFile size : Z) : M (kst F) Z :=
  let! pr := getp p in
  match p_swapFile pr with
  | None => fault
  | Some f =>
    let! rl := infs (fs_setoff f placeOnFile ;;; fs_fileread f size) in
    kwrite buffer rl.2 ;;;
    ret rl.1
  end.

Definition createSwapFile (p : nat) : M (kst F) Z :=
  let! pr := getp p in
  let! f := infs (fs_swap_create (p_pid pr)) in
  updp p (set_p_swapFile (Some f)) ;;;
  ret 0.

Definition fileclose (f : nat) : M (kst F) unit :=
  let! page := infs (fs_fileclose f) in
  match page with Some a => inmem (kfree a) | None => skip end.

Definition removeSwapFile (p : nat) : M (kst F) Z :=
  let! pr := getp p in
  match p_swapFile pr with
  | None => ret (-1)
  | Some f => fileclose f ;;; infs (fs_swap_unlink (p_pid pr))
  end.

(** Entries of disk_pg_arr. *)
Definition di_read (p i : nat) : M (kst F) disk_info :=
  let! pr := getp p in
  match p_disk_pg_arr pr !! i with Some d => ret d | None => fault end.
Definition di_modify (p i : nat) (g : disk_info -> disk_info) : M (kst F) unit :=
  let! d := di_read p i in
  updp p (fun pr => set_p_disk_pg_arr (alter g i (p_disk_pg_arr pr)) pr).

(** The local buffer of copySwapFile lives on the kernel stack: its contents are passed on. *)
Definition copySwapFile (fromP toP : nat) : M (kst F) unit :=
  let! fr := getp fromP in
  if p_pid fr <? 3 then skip
  else for_each MAX_PSYC_PAGES 0 (fun i =>
    let! d := di_read fromP i in
    when (negb (di_va d =? NOVA))
      (let! fr := getp fromP in
       let! tr := getp toP in
       match p_swapFile fr, p_swapFile tr with
       | Some f, Some g =>
         let! rl := infs (fs_setoff f (PGSIZE * Z.of_nat i) ;;; fs_fileread f PGSIZE) in
         if negb (rl.1 =? PGSIZE) then panic "CopySwapFile error"
         else
           let! w := infs (fs_setoff g (PGSIZE * Z.of_nat i) ;;; fs_filewrite g rl.2) in
           when (negb (w =? PGSIZE)) (panic "CopySwapFile error")
       | _, _ => fault
       end)).

End swap.
