(* ===== verification/PteBits.v ===== *)
(** * The entries that paging writes

    The bit arithmetic of fixPagedInPTE and fixPagedOutPTE on 32-bit page-table entries, and
    changes of a page table described by their effect on the entries. *)
From Stdlib Require Import ZArith Lia.
From stdpp Require Import base list numbers strings sets.
From S2P Require Import Prelude Mmu Mem Kalloc PageTable Kstate Policy.
Local Open Scope Z_scope.

(** ** Entries *)

Definition paged_in (e pa : Z) : Z :=
  Z.lor (Z.land (Z.lor e (Z.lor (Z.lor PTE_P PTE_W) PTE_U)) (Z.lnot PTE_PG)) pa.
Definition paged_out (e : Z) : Z :=
  let e' := Z.land (Z.lor e PTE_PG) (Z.lnot PTE_P) in Z.land e' (PTE_FLAGS e').

Lemma testbit_PTE_ADDR x k : 0 <= x < 2 ^ 32 -> 0 <= k ->
  Z.testbit (PTE_ADDR x) k = Z.testbit x k && (12 <=? k).
Proof.
  intros Hx Hk. rewrite PTE_ADDR_div by done. change 4096 with (2 ^ 12).
  rewrite <- Z.shiftr_div_pow2, <- Z.shiftl_mul_pow2, Z.shiftl_spec by lia.
  destruct (Z.leb_spec 12 k).
  - rewrite Z.shiftr_spec by lia. rewrite andb_true_r. f_equal. lia.
  - rewrite Z.testbit_neg_r by lia. by rewrite andb_false_r.
Qed.

Lemma testbit_PTE_FLAGS x k : 0 <= x < 2 ^ 32 -> 0 <= k ->
  Z.testbit (PTE_FLAGS x) k = Z.testbit x k && (k <? 12).
Proof.
  intros Hx Hk. rewrite PTE_FLAGS_mod by done. change 4096 with (2 ^ 12).
  destruct (Z.ltb_spec k 12).
  - by rewrite Z.mod_pow2_bits_low, andb_true_r by lia.
  - by rewrite Z.mod_pow2_bits_high, andb_false_r by lia.
Qed.

Lemma testbit_pow2 n k : 0 <= n -> 0 <= k -> Z.testbit (2 ^ n) k = (k =? n).
Proof.
  intros Hn Hk. destruct (Z.eqb_spec k n) as [->|].
  - by apply Z.pow2_bits_true.
  - apply Z.pow2_bits_false. lia.
Qed.

Lemma testbit_lnot_pow2 n k : 0 <= n -> 0 <= k -> Z.testbit (Z.lnot (2 ^ n)) k = negb (k =? n).
Proof. intros. rewrite Z.lnot_spec, testbit_pow2 by done. done. Qed.

Lemma testbit_paged_in e pa k : 0 <= k ->
  Z.testbit (paged_in e pa) k =
    (Z.testbit e k || (k =? 0) || (k =? 1) || (k =? 2)) && negb (k =? 9) || Z.testbit pa k.
Proof.
  intros Hk. unfold paged_in. rewrite !Z.lor_spec, Z.land_spec, !Z.lor_spec.
  change PTE_PG with (2 ^ 9). change PTE_P with (2 ^ 0). change PTE_W with (2 ^ 1).
  change PTE_U with (2 ^ 2). rewrite testbit_lnot_pow2, !testbit_pow2 by lia. by rewrite !orb_assoc.
Qed.

Lemma testbit_paged_out e k : 0 <= e < 2 ^ 32 -> 0 <= k ->
  Z.testbit (paged_out e) k = (Z.testbit e k || (k =? 9)) && negb (k =? 0) && (k <? 12).
Proof.
  intros He Hk. unfold paged_out. rewrite Z.land_spec, testbit_PTE_FLAGS.
  - rewrite Z.land_spec, Z.lor_spec. change PTE_PG with (2 ^ 9). change PTE_P with (2 ^ 0).
    rewrite testbit_lnot_pow2, testbit_pow2 by lia. rewrite andb_assoc. by rewrite andb_diag.
  - in_word.
  - done.
Qed.

Lemma paged_in_spec e pa :
  0 <= e < 2 ^ 32 -> PTE_ADDR e = 0 -> pa mod 4096 = 0 -> 0 <= pa < 2 ^ 32 ->
  0 <= paged_in e pa < 2 ^ 32 /\ PTE_ADDR (paged_in e pa) = pa /\
  has (paged_in e pa) PTE_P = true /\ has (paged_in e pa) PTE_W = true /\
  has (paged_in e pa) PTE_U = true /\ has (paged_in e pa) PTE_PG = false.
Proof.
  intros He Ha Hpm Hp.
  assert (forall k, 0 <= k < 12 -> Z.testbit pa k = false) as Hlow.
  { intros k Hk. apply (testbit_mod_pow2_mult pa 12); [lia|done]. }
  assert (0 <= paged_in e pa < 2 ^ 32) as Hr.
  { unfold paged_in. in_word. }
  split; [done|]. split.
  - apply Z.bits_inj'. intros k Hk. rewrite testbit_PTE_ADDR, testbit_paged_in by done.
    destruct (Z.leb_spec 12 k).
    + assert (Z.testbit e k = false) as ->.
      { pose proof (testbit_PTE_ADDR e k He Hk) as E. rewrite Ha, Z.bits_0 in E.
        rewrite (proj2 (Z.leb_le 12 k)) in E by lia. by rewrite andb_true_r in E. }
      rewrite andb_true_r. zcase.
    + rewrite andb_false_r. symmetry. apply Hlow. lia.
  - change PTE_P with (2 ^ 0). change PTE_W with (2 ^ 1). change PTE_U with (2 ^ 2).
    change PTE_PG with (2 ^ 9). rewrite !has_testbit, !testbit_paged_in, !Hlow by lia. simpl.
    by rewrite !orb_true_r, andb_false_r.
Qed.

Lemma paged_out_spec e : 0 <= e < 2 ^ 32 ->
  0 <= paged_out e < 2 ^ 32 /\ PTE_ADDR (paged_out e) = 0 /\
  has (paged_out e) PTE_P = false /\ has (paged_out e) PTE_PG = true.
Proof.
  intros He. assert (0 <= paged_out e < 2 ^ 32) as Hr.
  { unfold paged_out. in_word. }
  split; [done|]. split.
  - apply Z.bits_inj'. intros k Hk. rewrite testbit_PTE_ADDR, testbit_paged_out, Z.bits_0 by done.
    destruct (Z.leb_spec 12 k); [|by rewrite andb_false_r].
    destruct (Z.ltb_spec k 12); [lia|]. by rewrite andb_false_r.
  - change PTE_P with (2 ^ 0). change PTE_PG with (2 ^ 9).
    rewrite !has_testbit, !testbit_paged_out by lia. simpl. by rewrite andb_false_r, orb_true_r.
Qed.

(** ** Changes of a page table *)

Section view.
Context {img : Image}.

(** From [m] to [m'] only entries of existing tables of [pgdir] were written. *)
Definition view_change (pgdir : Z) (m m' : mem) : Prop :=
  pt_wf m' pgdir /\
  (forall va, pte_addr m' pgdir va = pte_addr m pgdir va) /\
  (forall q, pt_page m' pgdir q <-> pt_page m pgdir q) /\
  (forall q x, ~ pt_page m pgdir q -> q mod 4096 = 0 -> q <= x < q + 4096 -> ld8 m' x = ld8 m x).

(** The entry of the page of [va] became [e], the others are unchanged. *)
Definition pte_updated (pgdir : Z) (m m' : mem) (va e : Z) : Prop :=
  view_change pgdir m m' /\
  forall v, 0 <= v < 2 ^ 32 -> pte_val m' pgdir v =
    if v / 4096 =? va / 4096 then e else pte_val m pgdir v.

Lemma cleared_view pgdir m m' vs : pt_wf m' pgdir -> cleared pgdir m m' vs -> view_change pgdir m m'.
Proof. intros Hwf (Ha & Hp & _ & Ho). done. Qed.

Lemma pte_updated_write pgdir m va a e :
  pt_wf m pgdir -> pte_addr m pgdir va = Some a -> 0 <= va < 2 ^ 32 -> 0 <= e < 2 ^ 32 ->
  pte_updated pgdir m (st32 m a e) va e.
Proof.
  intros Hwf Ha Hva He. split; [split; [by eapply pt_wf_write|split; [|split]]|].
  - intros v. by erewrite pte_addr_write.
  - intros q. by rewrite pt_page_write.
  - intros q x Hq Hm Hx. by eapply ld8_pte_write.
  - intros v Hv. destruct (Z.eqb_spec (v / 4096) (va / 4096)).
    + erewrite (pte_val_write_eq _ _ va) by done. by apply u32_small.
    + by erewrite (pte_val_write_ne _ _ va).
Qed.

Lemma view_change_trans pgdir m1 m2 m3 :
  view_change pgdir m1 m2 -> view_change pgdir m2 m3 -> view_change pgdir m1 m3.
Proof.
  intros (_ & A1 & P1 & O1) (W2 & A2 & P2 & O2). split; [done|]. split; [|split].
  - intros va. by rewrite A2, A1.
  - intros q. by rewrite P2, P1.
  - intros q x Hq Hm Hx. rewrite (O2 q); [by apply (O1 q)| |done|done]. by rewrite P1.
Qed.

(** Two writes of the same entry. *)
Lemma pte_updated_again pgdir m1 m2 m3 va e e' :
  pte_updated pgdir m1 m2 va e -> pte_updated pgdir m2 m3 va e' -> pte_updated pgdir m1 m3 va e'.
Proof.
  intros [V1 E1] [V2 E2]. split; [by eapply view_change_trans|].
  intros v Hv. rewrite E2, E1 by done. by destruct (v / 4096 =? va / 4096).
Qed.

Lemma pte_updated_val pgdir m m' va e : 0 <= va < 2 ^ 32 ->
  pte_updated pgdir m m' va e -> pte_val m' pgdir va = e.
Proof. intros Hva [_ E]. rewrite E by done. by rewrite Z.eqb_refl. Qed.

Lemma vm_wf_view km pgdir l m' :
  vm_wf km pgdir l -> view_change pgdir (km_mem km) m' -> vm_wf (set_km_mem m' km) pgdir l.
Proof.
  intros ((Hc & Hnd & Hlk) & Hpt & Hd) (W & A & P & O). split; [|split; [done|]].
  - split; [|done]. simpl. eapply free_chain_ext; [|exact Hc]. intros q x Hq Hx.
    apply (O q); [by apply Hd| |lia]. by destruct (free_chain_kpage _ _ _ _ Hc Hq).
  - intros q Hq. simpl. rewrite P. by apply Hd.
Qed.

(** A page that belongs neither to the free list nor to the page table may be overwritten. *)
Lemma vm_wf_frame km pgdir l m' :
  vm_wf km pgdir l ->
  (forall q x, q ∈ l \/ pt_page (km_mem km) pgdir q -> q <= x < q + 4096 -> ld8 m' x = ld8 (km_mem km) x) ->
  vm_wf (set_km_mem m' km) pgdir l.
Proof.
  intros ((Hc & Hnd & Hlk) & Hpt & Hd) Hs.
  assert (same_on (pt_page (km_mem km) pgdir) (km_mem km) m') as Hso.
  { intros q x Hq Hx. apply (Hs q); [by right|done]. }
  split; [|split].
  - split; [|done]. simpl. eapply free_chain_ext; [|exact Hc]. intros q x Hq Hx.
    apply (Hs q); [by left|lia].
  - by eapply pt_wf_frame.
  - intros q Hq. simpl. rewrite (pt_page_frame _ _ _ Hso). by apply Hd.
Qed.

End view.
