(* ===== verification/Uvm.v ===== *)
(** * User address spaces (src/vm.c)

    The operations of vm.c on top of the page tables: paging a page in and out
    (getPageFromFile, moveram_to_disk and what they call), growing, shrinking, copying and freeing
    an address space, and the kernel's accesses to it.  The definitions follow the C functions
    statement by statement; [p->pgdir] is read once per function. *)
From Stdlib Require Import ZArith Lia.
From stdpp Require Import base list numbers strings.
From S2P Require Import Prelude Mmu Mem Kalloc PageTable Kstate Policy Swap.
Local Open Scope Z_scope.

Section uvm.
Context {img : Image} {F : Type} `{FileSys F}.
Variable sel : selection.

(** memset and memmove on virtual addresses; below KERNBASE every byte is translated. *)
Definition kmemset (dst c n : Z) : M (kst F) unit :=
  if KERNBASE <=? dst then putmem (fun m => memset m dst c n)
  else kwrite dst (replicate (Z.to_nat n) c).
Definition kmemmove (dst src n : Z) : M (kst F) unit :=
  if (KERNBASE <=? dst) && (KERNBASE <=? src) then putmem (fun m => memmove m dst src n)
  else let! l := kread src (Z.to_nat n) in kwrite dst l.

(** [lcr3(V2P(myproc()->pgdir))] *)
Definition reload_cr3 : M (kst F) unit :=
  let! me := myproc in
  match me with
  | None => fault
  | Some i => let! pr := getp i in lcr3 (V2P (p_pgdir pr))
  end.

(** ** Paging *)

Definition readPageFromFile (p : nat) (user_address buffer : Z) : M (kst F) Z :=
  let! r := for_range MAX_PSYC_PAGES 0 (fun i =>
    let! d := di_read p i in
    if di_va d =? user_address then
      let! read := readFromSwapFile p buffer (Z.of_nat i * PGSIZE) PGSIZE in
      di_modify p i (set_di_va NOVA) ;;;
      updp p (fun pr => set_p_pages_in_swapfile_counter (p_pages_in_swapfile_counter pr - 1) pr) ;;;
      if read =? -1 then panic "failled to read from  swapfile"
      else
        update_memory sel p user_address ;;;
        ret (Some read)
    else ret None) in
  match r with Some v => ret v | None => ret (-2) end.

Definition writePageToFile (p : nat) (userPageVAddr pgdir : Z) : M (kst F) Z :=
  let! r := for_range MAX_PSYC_PAGES 0 (fun i =>
    let! d := di_read p i in
    if di_va d =? NOVA then
      let! res := writeToSwapFile p userPageVAddr (PGSIZE * Z.of_nat i) PGSIZE in
      if res =? -1 then ret (Some (-1))
      else
        di_modify p i (set_di_va userPageVAddr) ;;;
        updp p (fun pr => set_p_pages_in_swapfile_counter (p_pages_in_swapfile_counter pr + 1) pr) ;;;
        updp p (fun pr => set_p_pagedout (u32 (p_pagedout pr + 1)) pr) ;;;
        ret (Some res)
    else ret None) in
  match r with Some v => ret v | None => ret (-2) end.

Definition fixPagedInPTE (userPageVAddr pagePAddr pgdir : Z) : M (kst F) unit :=
  let! pte := inmem (walkpgdir pgdir userPageVAddr false) in
  if pte =? 0 then panic "PTE of swapped page is missing"
  else
    let! e := kld32 pte in
    if has e PTE_P then panic "REMAP!"
    else
      let! e := kld32 pte in
      kst32 pte (Z.lor e (Z.lor (Z.lor PTE_P PTE_W) PTE_U)) ;;;
      let! e := kld32 pte in
      kst32 pte (Z.land e (Z.lnot PTE_PG)) ;;;
      let! e := kld32 pte in
      kst32 pte (Z.lor e pagePAddr) ;;;
      reload_cr3.

Definition fixPagedOutPTE (pgdir va : Z) (walkpgdirmode : bool) : M (kst F) unit :=
  let! pte := inmem (walkpgdir pgdir va walkpgdirmode) in
  if pte =? 0 then panic "PTE of swapped page is missing"
  else
    let! e := kld32 pte in
    kst32 pte (Z.lor e PTE_PG) ;;;
    let! e := kld32 pte in
    kst32 pte (Z.land e (Z.lnot PTE_P)) ;;;
    let! e := kld32 pte in
    kst32 pte (Z.land e (PTE_FLAGS e)) ;;;
    reload_cr3.

Definition getPageFromFile (fault_address : Z) : M (kst F) Z :=
  let! me := myproc in
  match me with
  | None => ret 0
  | Some p =>
    let userPageVAddr := PGROUNDDOWN (u32 fault_address) in
    let! newPg := inmem kalloc in
    kmemset newPg 0 PGSIZE ;;;
    reload_cr3 ;;;
    let! pr := getp p in
    let pgdir := p_pgdir pr in
    if Z.of_nat MAX_PSYC_PAGES <=? p_pages_in_memory_counter pr then
      let! to_remove := select_page_to_remove sel p in
      let! va := get_va p to_remove in
      put_va p to_remove NOVA ;;;
      updp p (fun pr => set_p_pages_in_memory_counter (p_pages_in_memory_counter pr - 1) pr) ;;;
      fixPagedInPTE userPageVAddr (V2P newPg) pgdir ;;;
      readPageFromFile p userPageVAddr kbuff ;;;
      let! outPagePAddr := inmem (getPagePAddr va pgdir) in
      kmemmove newPg kbuff PGSIZE ;;;
      writePageToFile p va pgdir ;;;
      fixPagedOutPTE pgdir va false ;;;
      inmem (kfree (P2V outPagePAddr)) ;;;
      ret 1
    else
      fixPagedInPTE userPageVAddr (V2P newPg) pgdir ;;;
      readPageFromFile p userPageVAddr userPageVAddr ;;;
      ret 1
  end.

Definition insert_to_disk (p i : nat) (tmp : option nat) : M (kst F) unit :=
  let! va := get_va p tmp in
  di_modify p i (set_di_va va) ;;;
  updp p (fun pr => set_p_pages_in_swapfile_counter (p_pages_in_swapfile_counter pr + 1) pr) ;;;
  updp p (fun pr => set_p_pagedout (u32 (p_pagedout pr + 1)) pr) ;;;
  let! w := writeToSwapFile p (PTE_ADDR va) (Z.of_nat i * PGSIZE) PGSIZE in
  if w <=? 0 then panic "failled to write to swapfile"
  else
    let! pr := getp p in
    let! pte1 := inmem (walkpgdir (p_pgdir pr) va false) in
    let! e := kld32 pte1 in
    if e =? 0 then panic "pte1 is empty"
    else
      put_va p tmp NOVA ;;;
      updp p (fun pr => set_p_pages_in_memory_counter (p_pages_in_memory_counter pr - 1) pr) ;;;
      let! e := kld32 pte1 in
      inmem (kfree (PTE_ADDR (P2V_WO e))) ;;;
      kst32 pte1 (Z.lor (Z.lor PTE_W PTE_U) PTE_PG) ;;;
      lcr3 (V2P (p_pgdir pr)).

Definition moveram_to_disk (p : nat) : M (kst F) unit :=
  let! r := for_range MAX_PSYC_PAGES 0 (fun i =>
    let! d := di_read p i in
    if di_va d =? NOVA then ret (Some i) else ret None) in
  match r with
  | None => panic "disk full"
  | Some i =>
    let! pr := getp p in
    if bool_decide (sel = SCFIFO) && (isnull (p_head pr) || isnull (p_tail pr))
    then panic "head or tail null"
    else
      let! tmp := select_page_to_remove sel p in
      insert_to_disk p i tmp
  end.

(** ** Freeing *)

(** The search in memory_pg_arr: every slot that holds [a] is unlinked and emptied. *)
Definition dealloc_resident (p : nat) (pgdir a : Z) (found : Z) : M (kst F) Z :=
  let body i found :=
    let! f := fp_read p i in
    if fp_va f =? a then
      when (negb (isnull (fp_next f))) (put_prev p (fp_next f) (fp_prev f)) ;;;
      let! f := fp_read p i in
      when (negb (isnull (fp_prev f))) (put_next p (fp_prev f) (fp_next f)) ;;;
      let! pr := getp p in
      when (bool_decide (Some i = p_head pr))
        (let! nx := get_next p (p_head pr) in updp p (set_p_head nx)) ;;;
      let! pr := getp p in
      when (bool_decide (Some i = p_tail pr))
        (let! pv := get_prev p (p_tail pr) in updp p (set_p_tail pv)) ;;;
      fp_modify p i (set_fp_next None) ;;;
      fp_modify p i (set_fp_prev None) ;;;
      fp_modify p i (set_fp_age (default_age sel)) ;;;
      fp_modify p i (set_fp_va NOVA) ;;;
      let! pr := getp p in
      when (p_pgdir pr =? pgdir)
        (updp p (fun pr => set_p_pages_in_memory_counter (p_pages_in_memory_counter pr - 1) pr)) ;;;
      ret (found + 1)
    else ret found in
  (fix go n i found :=
     match n with
     | O => ret found
     | S n' => let! found := body i found in go n' (i + 1)%nat found
     end) MAX_PSYC_PAGES 0%nat found.

Definition dealloc_swapped (p : nat) (pgdir a : Z) (found : Z) : M (kst F) Z :=
  let body i found :=
    let! d := di_read p i in
    if di_va d =? a then
      di_modify p i (set_di_va NOVA) ;;;
      di_modify p i (set_di_location (-1)) ;;;
      let! pr := getp p in
      when (p_pgdir pr =? pgdir)
        (updp p (fun pr => set_p_pages_in_swapfile_counter (p_pages_in_swapfile_counter pr - 1) pr)) ;;;
      ret (found + 1)
    else ret found in
  (fix go n i found :=
     match n with
     | O => ret found
     | S n' => let! found := body i found in go n' (i + 1)%nat found
     end) MAX_PSYC_PAGES 0%nat found.

(** [struct proc* p = myproc()], dereferenced only when paging is compiled in. *)
Definition with_me (k : nat -> M (kst F) Z) : M (kst F) Z :=
  let! me := myproc in
  match me with None => fault | Some p => k p end.

Definition deallocuvm_body (pgdir oldsz newsz : Z) (a : Z) : M (kst F) (Z + Z) :=
  if negb (a <? oldsz) then ret (inr newsz)
  else
    let! pte := inmem (walkpgdir pgdir a false) in
    if pte =? 0 then
      ret (inl (u32 (u32 (PGADDR (PDX a + 1) 0 0 - PGSIZE) + PGSIZE)))
    else
      let! e := kld32 pte in
      let! found :=
        (if has e PTE_P then
           let pa := PTE_ADDR e in
           if pa =? 0 then panic "kfree_deallocuvm"
           else
             let! found := (if bool_decide (sel = NONE) then ret 0
                            else with_me (fun p => dealloc_resident p pgdir a 0)) in
             inmem (kfree (P2V pa)) ;;;
             kst32 pte 0 ;;;
             ret found
         else if negb (bool_decide (sel = NONE)) && has e PTE_PG then
           kst32 pte 0 ;;;
           with_me (fun p => dealloc_swapped p pgdir a 0)
         else ret 0) in
      if 1 <? found then
        cprintf "found= %d " [found] ;;;
        panic "found same virtual address more then once in the data strucure"
      else ret (inl (u32 (a + PGSIZE))).

(** The fuel is the number of pages up to [oldsz], plus one for the last test. *)
Definition deallocuvm (pgdir oldsz newsz : Z) : M (kst F) Z :=
  if oldsz <=? newsz then ret oldsz
  else
    let a := PGROUNDUP newsz in
    loop (S (Z.to_nat ((oldsz - a + PGSIZE - 1) / PGSIZE))) (deallocuvm_body pgdir oldsz newsz) a.

Definition freevm (pgdir : Z) : M (kst F) unit :=
  if pgdir =? 0 then panic "freevm: no pgdir"
  else
    deallocuvm pgdir KERNBASE 0 ;;;
    for_each (Z.to_nat NPDENTRIES) 0 (fun i =>
      let! e := kld32 (pgdir + 4 * Z.of_nat i) in
      when (has e PTE_P) (inmem (kfree (P2V (PTE_ADDR e))))) ;;;
    inmem (kfree pgdir).

(** ** Growing *)

Definition oldallocuvm_body (pgdir oldsz newsz : Z) (a : Z) : M (kst F) (Z + Z) :=
  if negb (a <? newsz) then ret (inr newsz)
  else
    let! mem := inmem kalloc in
    if mem =? 0 then
      cprintf "allocuvm out of memory" [] ;;;
      deallocuvm pgdir newsz oldsz ;;;
      ret (inr 0)
    else
      kmemset mem 0 PGSIZE ;;;
      let! r := inmem (mappages pgdir a PGSIZE (V2P mem) (Z.lor PTE_W PTE_U)) in
      if r <? 0 then
        cprintf "allocuvm out of memory (2)" [] ;;;
        deallocuvm pgdir newsz oldsz ;;;
        inmem (kfree mem) ;;;
        ret (inr 0)
      else ret (inl (u32 (a + PGSIZE))).

Definition oldallocuvm (pgdir oldsz newsz : Z) : M (kst F) Z :=
  if KERNBASE <=? newsz then ret 0
  else if newsz <? oldsz then ret oldsz
  else
    let a := PGROUNDUP oldsz in
    loop (S (Z.to_nat ((newsz - a + PGSIZE - 1) / PGSIZE))) (oldallocuvm_body pgdir oldsz newsz) a.

Definition allocuvm_body (p : nat) (pgdir oldsz newsz : Z) (a : Z) : M (kst F) (Z + Z) :=
  if negb (a <? newsz) then ret (inr newsz)
  else
    let! mem := inmem kalloc in
    if mem =? 0 then
      cprintf "allocuvm out of memory" [] ;;;
      deallocuvm pgdir newsz oldsz ;;;
      ret (inr 0)
    else
      kmemset mem 0 PGSIZE ;;;
      let! r := inmem (mappages pgdir a PGSIZE (V2P mem) (Z.lor PTE_W PTE_U)) in
      if r <? 0 then
        cprintf "allocuvm out of memory (2)" [] ;;;
        deallocuvm pgdir newsz oldsz ;;;
        inmem (kfree mem) ;;;
        ret (inr 0)
      else
        let! pr := getp p in
        (if Z.of_nat MAX_PSYC_PAGES <=? p_pages_in_memory_counter pr then
           if Z.of_nat MAX_PSYC_PAGES <=? p_pages_in_swapfile_counter pr then
             cprintf "pages in swap file counter is %d  pages in memory counter is %d "
               [p_pages_in_swapfile_counter pr; p_pages_in_memory_counter pr] ;;;
             panic "swap file and ram full should have detected before starting to allocate memmory"
           else
             moveram_to_disk p ;;;
             update_memory sel p a ;;; skip
         else update_memory sel p a ;;; skip) ;;;
        ret (inl (u32 (a + PGSIZE))).

(** [myproc()->parent->pid]: through a null parent this reads the user word at the offset of
    pid, 16. *)
Definition parent_pid (pr : proc) : M (kst F) Z :=
  match p_parent pr with
  | Some j => let! par := getp j in ret (p_pid par)
  | None => kld32 16
  end.

Definition allocuvm (pgdir oldsz newsz : Z) : M (kst F) Z :=
  if bool_decide (sel = NONE) then oldallocuvm pgdir oldsz newsz
  else
    let! me := myproc in
    let! exempt :=
      (match me with
       | None => ret false
       | Some p => let! pr := getp p in
                   if p_pid pr =? 1 then ret true
                   else let! pp := parent_pid pr in ret (pp =? 1)
       end) in
    if exempt then oldallocuvm pgdir oldsz newsz
    else if KERNBASE <=? newsz then ret 0
    else if newsz <? oldsz then ret oldsz
    else if MAX_TOTAL_PAGES <? PGROUNDUP newsz / PGSIZE then
      cprintf "proc is too big" [PGROUNDUP newsz / PGSIZE] ;;; ret 0
    else
      let a := PGROUNDUP oldsz in
      match me with
      | Some p =>
        loop (S (Z.to_nat ((newsz - a + PGSIZE - 1) / PGSIZE))) (allocuvm_body p pgdir oldsz newsz) a
      | None => if a <? newsz then fault else ret newsz
      end.

(** ** Kernel mappings *)

Fixpoint map_kernel (pgdir : Z) (ks : list kmap_entry) : M (kst F) Z :=
  match ks with
  | [] => ret pgdir
  | k :: ks' =>
    let! r := inmem (mappages pgdir (virt k) (u32 (phys_end k - phys_start k)) (phys_start k) (kperm k)) in
    if r <? 0 then freevm pgdir ;;; ret 0 else map_kernel pgdir ks'
  end.

Definition setupkvm : M (kst F) Z :=
  let! pgdir := inmem kalloc in
  if pgdir =? 0 then ret 0
  else
    kmemset pgdir 0 PGSIZE ;;;
    if DEVSPACE <? P2V PHYSTOP then panic "PHYSTOP too high"
    else map_kernel pgdir kmap.

(** Load the initcode into address 0; [init] are the bytes of _binary_initcode_start. *)
Definition inituvm (pgdir : Z) (init : list Z) : M (kst F) unit :=
  if PGSIZE <=? Z.of_nat (length init) then panic "inituvm: more than a page"
  else
    let! mem := inmem kalloc in
    kmemset mem 0 PGSIZE ;;;
    inmem (mappages pgdir 0 PGSIZE (V2P mem) (Z.lor PTE_W PTE_U)) ;;;
    kwrite mem init.

Definition loaduvm_body (pgdir addr : Z) (ip : nat) (offset sz : Z) (i : Z) : M (kst F) (Z + Z) :=
  if negb (i <? sz) then ret (inr 0)
  else
    let! pte := inmem (walkpgdir pgdir (addr + i) false) in
    if pte =? 0 then panic "loaduvm: address should exist"
    else
      let! e := kld32 pte in
      let pa := PTE_ADDR e in
      let n := if u32 (sz - i) <? PGSIZE then u32 (sz - i) else PGSIZE in
      let! rl := infs (fs_readi ip (u32 (offset + i)) n) in
      kwrite (P2V pa) rl.2 ;;;
      if negb (u32 rl.1 =? n) then ret (inr (-1)) else ret (inl (u32 (i + PGSIZE))).

Definition loaduvm (pgdir addr : Z) (ip : nat) (offset sz : Z) : M (kst F) Z :=
  if negb (addr mod PGSIZE =? 0) then panic "loaduvm: addr must be page aligned"
  else loop (S (Z.to_nat ((sz + PGSIZE - 1) / PGSIZE))) (loaduvm_body pgdir addr ip offset sz) 0.

Definition clearpteu (pgdir uva : Z) : M (kst F) unit :=
  let! pte := inmem (walkpgdir pgdir uva false) in
  if pte =? 0 then panic "clearpteu"
  else let! e := kld32 pte in kst32 pte (Z.land e (Z.lnot PTE_U)).

(** ** Copying *)

Definition copyuvm_body (d pgdir sz : Z) (i : Z) : M (kst F) (Z + Z) :=
  if negb (i <? sz) then ret (inr d)
  else
    let! pte := inmem (walkpgdir pgdir i false) in
    if pte =? 0 then panic "copyuvm: pte should exist"
    else
      let! e := kld32 pte in
      if negb (has e PTE_P) && negb (has e PTE_PG) then panic "copyuvm: page not present"
      else if has e PTE_PG then
        fixPagedOutPTE d i false ;;;
        ret (inl (u32 (i + PGSIZE)))
      else
        let pa := PTE_ADDR e in
        let flags := PTE_FLAGS e in
        let! mem := inmem kalloc in
        if mem =? 0 then freevm d ;;; ret (inr 0)
        else
          kmemmove mem (P2V pa) PGSIZE ;;;
          let! r := inmem (mappages d i PGSIZE (V2P mem) flags) in
          if r <? 0 then freevm d ;;; ret (inr 0)
          else ret (inl (u32 (i + PGSIZE))).

Definition copyuvm (pgdir sz : Z) : M (kst F) Z :=
  let! d := setupkvm in
  if d =? 0 then ret 0
  else loop (S (Z.to_nat ((sz + PGSIZE - 1) / PGSIZE))) (copyuvm_body d pgdir sz) 0.

Definition uva2ka (pgdir uva : Z) : M (kst F) Z :=
  let! pte := inmem (walkpgdir pgdir uva false) in
  let! e := kld32 pte in
  if negb (has e PTE_P) then ret 0
  else if negb (has e PTE_U) then ret 0
  else ret (P2V (PTE_ADDR e)).

(** The source bytes are passed as a list; [buf += n] drops what has been copied. *)
Definition copyout_body (pgdir : Z) (st : Z * list Z) : M (kst F) (Z * list Z + Z) :=
  let va := st.1 in
  let len := Z.of_nat (length st.2) in
  if len <=? 0 then ret (inr 0)
  else
    let va0 := PGROUNDDOWN va in
    let! pa0 := uva2ka pgdir va0 in
    if pa0 =? 0 then ret (inr (-1))
    else
      let n := if len <? PGSIZE - (va - va0) then len else PGSIZE - (va - va0) in
      kwrite (pa0 + (va - va0)) (take (Z.to_nat n) st.2) ;;;
      ret (inl (u32 (va0 + PGSIZE), drop (Z.to_nat n) st.2)).

Definition copyout (pgdir va : Z) (bytes : list Z) : M (kst F) Z :=
  loop (S (length bytes)) (copyout_body pgdir) (va, bytes).

End uvm.
