(* ===== verification/Uvmrun.v ===== *)
(** * Running the paging operations (src/vm.c)

    What readPageFromFile, writePageToFile, fixPagedInPTE and fixPagedOutPTE do on a state with a
    well-formed page table, and the kernel's accesses to a page through the active page table. *)
From Stdlib Require Import ZArith Lia.
From stdpp Require Import base list numbers strings sets.
From S2P Require Import Prelude Mmu Mem Kalloc PageTable Kstate Policy Queues Replacement Swap PteBits Uvm.
Local Open Scope Z_scope.

(** ** Running the operations *)

Lemma wp_for_search {S R} n (body : nat -> M S (option R)) Q s j :
  (j < n)%nat ->
  (forall i, (i < j)%nat -> wp (body i) (fun r st => r = None /\ st = s) s) ->
  wp (body j) (fun r st => match r with Some v => Q (Some v) st | None => False end) s ->
  wp (for_range n 0 body) Q s.
Proof.
  intros Hj Hlow Hhit. apply (wp_for_range (fun k st => (k <= j)%nat /\ st = s)).
  - split; [lia|done].
  - intros i st Hi [Hij ->]. destruct (decide (i = j)) as [->|Hne].
    + eapply wp_mono; [exact Hhit|]. by intros [v|].
    + eapply wp_mono; [apply Hlow; lia|]. intros r st [-> ->]. split; [lia|done].
  - intros st [Hle _]. lia.
Qed.

(** The page in entry [i] of disk_pg_arr. *)
Definition disk_vas (pr : proc) : list Z := map di_va (p_disk_pg_arr pr).
Definition disk_va (pr : proc) (i : nat) : Z := default NOVA (disk_vas pr !! i).

Lemma disk_vas_alter pr i va :
  disk_vas (set_p_disk_pg_arr (alter (set_di_va va) i (p_disk_pg_arr pr)) pr) = <[i := va]> (disk_vas pr).
Proof.
  apply list_eq. intros j. unfold disk_vas. simpl.
  rewrite list_lookup_fmap, list_lookup_alter, list_lookup_insert, length_map, list_lookup_fmap.
  destruct (decide (i = j)) as [->|Hne].
  - destruct (p_disk_pg_arr pr !! j) as [f|] eqn:E; simpl.
    + rewrite decide_True; [done|]. apply lookup_lt_Some in E. done.
    + rewrite decide_False; [done|]. apply lookup_ge_None in E. lia.
  - by rewrite decide_False by (intros [? _]; done).
Qed.

Section ops.
Context {img : Image} {F : Type} {fsy : FileSys F} (p : nat).
Implicit Types (s : kst F) (pr : proc).

Lemma on_di_read s pr i (Q : disk_info -> kst F -> Prop) :
  (p < length (k_procs s))%nat -> (i < length (p_disk_pg_arr pr))%nat ->
  (forall d, p_disk_pg_arr pr !! i = Some d -> di_va d = disk_va pr i -> Q d (setp p pr s)) ->
  wp (di_read p i) Q (setp p pr s).
Proof.
  intros Hlen [d Hd]%lookup_lt_is_Some HQ. unfold di_read. kstep. apply on_getp; [done|].
  rewrite Hd. kstep. apply HQ; [done|]. unfold disk_va, disk_vas. by rewrite list_lookup_fmap, Hd.
Qed.

Lemma on_di_modify s pr i g (Q : unit -> kst F -> Prop) :
  (p < length (k_procs s))%nat -> (i < length (p_disk_pg_arr pr))%nat ->
  Q tt (setp p (set_p_disk_pg_arr (alter g i (p_disk_pg_arr pr)) pr) s) ->
  wp (di_modify p i g) Q (setp p pr s).
Proof.
  intros Hlen Hi HQ. unfold di_modify. kstep. apply on_di_read; [done..|]. intros d _ _.
  by apply on_updp.
Qed.

Lemma on_reload_cr3 s pr (Q : unit -> kst F -> Prop) :
  (p < length (k_procs s))%nat -> k_cur s = Some p ->
  Q tt (setp p pr (set_k_cr3 (V2P (p_pgdir pr)) s)) -> wp reload_cr3 Q (setp p pr s).
Proof.
  intros Hlen Hcur HQ. unfold reload_cr3, myproc. kstep. kstep. simpl. rewrite Hcur.
  kstep. apply on_getp; [done|]. by apply wp_modify.
Qed.

(** A load or store of an existing entry. *)
Lemma on_pte_load s pr pgdir va a (Q : Z -> kst F -> Prop) :
  pt_wf (kmm s) pgdir -> pte_addr (kmm s) pgdir va = Some a ->
  Q (pte_val (kmm s) pgdir va) (setp p pr s) -> wp (kld32 a) Q (setp p pr s).
Proof.
  intros Hwf Ha HQ. destruct (pte_addr_nonzero _ _ _ _ Hwf Ha). apply wp_kld32_kern; [lia|].
  unfold pte_val in HQ. by rewrite Ha in HQ.
Qed.

Lemma on_pte_store s pr pgdir va a e (Q : unit -> kst F -> Prop) :
  pt_wf (kmm s) pgdir -> pte_addr (kmm s) pgdir va = Some a -> 0 <= va < 2 ^ 32 -> 0 <= e < 2 ^ 32 ->
  (forall m', pte_updated pgdir (kmm s) m' va e -> Q tt (setp p pr (upd_mem m' s))) ->
  wp (kst32 a e) Q (setp p pr s).
Proof.
  intros Hwf Ha Hva He HQ. destruct (pte_addr_nonzero _ _ _ _ Hwf Ha). apply wp_kst32_kern; [lia|].
  apply (HQ (st32 (kmm s) a e)). by apply pte_updated_write.
Qed.

Lemma pte_updated_wf pgdir m m' va e a :
  pte_updated pgdir m m' va e -> pte_addr m pgdir va = Some a ->
  pt_wf m' pgdir /\ pte_addr m' pgdir va = Some a.
Proof. intros [(W & A & _) _] Ha. split; [done|]. by rewrite A. Qed.

Lemma on_walk s pr pgdir va a alloc (Q : Z -> kst F -> Prop) :
  pte_addr (kmm s) pgdir va = Some a -> Q a (setp p pr s) ->
  wp (inmem (walkpgdir pgdir va alloc)) Q (setp p pr s).
Proof. intros Ha HQ. eapply wp_inmem; [by apply walkpgdir_present|exact HQ]. Qed.

Lemma on_fixPagedInPTE s pr va pa a (Q : unit -> kst F -> Prop) :
  (p < length (k_procs s))%nat -> k_cur s = Some p ->
  pt_wf (kmm s) (p_pgdir pr) -> pte_addr (kmm s) (p_pgdir pr) va = Some a -> 0 <= va < 2 ^ 32 ->
  has (pte_val (kmm s) (p_pgdir pr) va) PTE_P = false -> 0 <= pa < 2 ^ 32 ->
  (forall m', pte_updated (p_pgdir pr) (kmm s) m' va (paged_in (pte_val (kmm s) (p_pgdir pr) va) pa) ->
    Q tt (setp p pr (set_k_cr3 (V2P (p_pgdir pr)) (upd_mem m' s)))) ->
  wp (fixPagedInPTE va pa (p_pgdir pr)) Q (setp p pr s).
Proof.
  intros Hlen Hcur Hwf Ha Hva HP Hpa HQ. pose proof (pte_val_range (kmm s) (p_pgdir pr) va) as He.
  destruct (pte_addr_nonzero _ _ _ _ Hwf Ha) as [Hnz _].
  unfold fixPagedInPTE. kstep. eapply on_walk; [done|]. cbv beta. rewrite (proj2 (Z.eqb_neq a 0)) by done.
  kstep. eapply on_pte_load; [done..|]. cbv beta. rewrite HP.
  kstep. eapply on_pte_load; [done..|]. kstep.
  eapply on_pte_store; [done..|in_word|]. intros m1 U1.
  destruct (pte_updated_wf _ _ _ _ _ _ U1 Ha) as [W1 A1].
  kstep. eapply on_pte_load; [exact W1|exact A1|]. cbv beta.
  change (kmm (upd_mem m1 s)) with m1. rewrite (pte_updated_val _ _ _ _ _ Hva U1).
  kstep. eapply on_pte_store; [exact W1|exact A1|done|in_word|]. intros m2 U2.
  destruct (pte_updated_wf _ _ _ _ _ _ U2 A1) as [W2 A2].
  kstep. eapply on_pte_load; [exact W2|exact A2|]. cbv beta.
  change (kmm (upd_mem m2 (upd_mem m1 s))) with m2. rewrite (pte_updated_val _ _ _ _ _ Hva U2).
  kstep. eapply on_pte_store; [exact W2|exact A2|done|in_word|].
  intros m3 U3. apply on_reload_cr3; [done|done|].
  apply (HQ m3). eapply pte_updated_again; [exact U1|]. eapply pte_updated_again; [exact U2|exact U3].
Qed.

Lemma on_fixPagedOutPTE s pr va a (Q : unit -> kst F -> Prop) :
  (p < length (k_procs s))%nat -> k_cur s = Some p ->
  pt_wf (kmm s) (p_pgdir pr) -> pte_addr (kmm s) (p_pgdir pr) va = Some a -> 0 <= va < 2 ^ 32 ->
  (forall m', pte_updated (p_pgdir pr) (kmm s) m' va (paged_out (pte_val (kmm s) (p_pgdir pr) va)) ->
    Q tt (setp p pr (set_k_cr3 (V2P (p_pgdir pr)) (upd_mem m' s)))) ->
  wp (fixPagedOutPTE (p_pgdir pr) va false) Q (setp p pr s).
Proof.
  intros Hlen Hcur Hwf Ha Hva HQ. pose proof (pte_val_range (kmm s) (p_pgdir pr) va) as He.
  destruct (pte_addr_nonzero _ _ _ _ Hwf Ha) as [Hnz _].
  assert (0 <= PTE_PG < 2 ^ 32) as HPG by (unfold PTE_PG; lia).
  unfold fixPagedOutPTE. kstep. eapply on_walk; [done|]. cbv beta. rewrite (proj2 (Z.eqb_neq a 0)) by done.
  kstep. eapply on_pte_load; [done..|]. kstep.
  eapply on_pte_store; [done..|in_word|]. intros m1 U1.
  destruct (pte_updated_wf _ _ _ _ _ _ U1 Ha) as [W1 A1].
  kstep. eapply on_pte_load; [exact W1|exact A1|]. cbv beta.
  change (kmm (upd_mem m1 s)) with m1. rewrite (pte_updated_val _ _ _ _ _ Hva U1).
  kstep. eapply on_pte_store; [exact W1|exact A1|done|in_word|]. intros m2 U2.
  destruct (pte_updated_wf _ _ _ _ _ _ U2 A1) as [W2 A2].
  kstep. eapply on_pte_load; [exact W2|exact A2|]. cbv beta.
  change (kmm (upd_mem m2 (upd_mem m1 s))) with m2. rewrite (pte_updated_val _ _ _ _ _ Hva U2).
  kstep. eapply on_pte_store; [exact W2|exact A2|done|in_word|].
  intros m3 U3. apply on_reload_cr3; [done|done|].
  apply (HQ m3). eapply pte_updated_again; [exact U1|]. eapply pte_updated_again; [exact U2|exact U3].
Qed.

End ops.

(** ** Accesses through the active page table *)

Section access.
Context {img : Image} {F : Type}.
Implicit Types (s : kst F).

(** The frame of the page of [va]. *)
Definition frame (m : mem) (pgdir va : Z) : Z := P2V (PTE_ADDR (pte_val m pgdir va)).

Lemma pte_val_page m pgdir va k :
  0 <= va -> va mod 4096 = 0 -> 0 <= k < 4096 -> va + k < 2 ^ 32 ->
  pte_val m pgdir (va + k) = pte_val m pgdir va.
Proof.
  intros H0 Hm Hk Hhi. unfold pte_val, pte_addr.
  destruct (proj1 (PDX_PTX_page (va + k) va ltac:(lia) ltac:(lia))) as [-> ->]; [|done].
  Z.to_euclidean_division_equations; lia.
Qed.

Lemma P2V_V2P_kpage pgdir : kpage pgdir -> P2V (V2P pgdir) = pgdir.
Proof.
  intros Hk. apply kpage_pos in Hk. unfold KERNBASE, PHYSTOP in Hk. apply P2V_V2P. unfold KERNBASE. lia.
Qed.

Lemma kaddr_page s pgdir va k w :
  k_cr3 s = V2P pgdir -> kpage pgdir -> va mod 4096 = 0 -> 0 <= va < KERNBASE -> 0 <= k < 4096 ->
  has (pte_val (kmm s) pgdir va) PTE_P = true -> (w = true -> has (pte_val (kmm s) pgdir va) PTE_W = true) ->
  kaddr s (va + k) w = Some (frame (kmm s) pgdir va + k).
Proof.
  intros Hcr Hk Hm Hva Hkk HP HW. unfold kaddr. unfold KERNBASE in *.
  assert (va + k < 0x80000000) by (Z.to_euclidean_division_equations; lia).
  rewrite (proj2 (Z.leb_gt _ _)) by lia. unfold user_addr. rewrite Hcr, P2V_V2P_kpage by done.
  rewrite pte_val_page by lia. fold (kmm s). rewrite HP. destruct w; simpl.
  - rewrite HW by done. f_equal. unfold frame. Z.to_euclidean_division_equations; lia.
  - f_equal. unfold frame. Z.to_euclidean_division_equations; lia.
Qed.

Lemma kbytes_page s pgdir va k n :
  k_cr3 s = V2P pgdir -> kpage pgdir -> va mod 4096 = 0 -> 0 <= va < KERNBASE ->
  0 <= k -> k + Z.of_nat n <= 4096 -> has (pte_val (kmm s) pgdir va) PTE_P = true ->
  kbytes s (va + k) n = Some (bytes_at (kmm s) (frame (kmm s) pgdir va + k) n).
Proof.
  intros Hcr Hk Hm Hva. revert k. induction n as [|n IH]; intros k Hk0 Hn HP; [done|].
  cbn [kbytes bytes_at]. rewrite (kaddr_page s pgdir) by (done || lia).
  rewrite <- !Z.add_assoc. rewrite IH by (done || lia). done.
Qed.

Lemma kbytes_kern s va n : KERNBASE <= va -> kbytes s va n = Some (bytes_at (kmm s) va n).
Proof.
  revert va. induction n as [|n IH]; intros va Hva; [done|]. cbn [kbytes bytes_at].
  unfold kaddr. rewrite (proj2 (Z.leb_le _ _) Hva), IH by lia. done.
Qed.

Lemma kwrite_kern s va l : KERNBASE <= va ->
  kwrite va l s = Ret tt (upd_mem (st_bytes (kmm s) va l) s).
Proof.
  revert s va. induction l as [|c l IH]; intros s va Hva; cbn [kwrite st_bytes].
  - destruct s as [[] ?]; done.
  - unfold bind, kaddr. rewrite (proj2 (Z.leb_le _ _) Hva). unfold putmem, modify.
    rewrite IH by lia. done.
Qed.

(** Writing to a page whose frame is not part of the page table. *)
Lemma kwrite_page s pgdir va k l :
  k_cr3 s = V2P pgdir -> pt_wf (kmm s) pgdir -> va mod 4096 = 0 -> 0 <= va < KERNBASE ->
  0 <= k -> k + Z.of_nat (length l) <= 4096 ->
  has (pte_val (kmm s) pgdir va) PTE_P = true -> has (pte_val (kmm s) pgdir va) PTE_W = true ->
  frame (kmm s) pgdir va mod 4096 = 0 -> ~ pt_page (kmm s) pgdir (frame (kmm s) pgdir va) ->
  kwrite (va + k) l s = Ret tt (upd_mem (st_bytes (kmm s) (frame (kmm s) pgdir va + k) l) s).
Proof.
  intros Hcr Hwf Hm Hva. revert s k Hcr Hwf. induction l as [|c l IH]; intros s k Hcr Hwf Hk0 Hn HP HW Hfm Hnp.
  { cbn [kwrite st_bytes]. destruct s as [[] ?]; done. }
  simpl length in Hn. cbn [kwrite st_bytes]. unfold bind.
  rewrite (kaddr_page s pgdir) by (done || lia || apply Hwf). unfold putmem, modify.
  set (m1 := st8 (kmm s) (frame (kmm s) pgdir va + k) c).
  assert (same_on (pt_page (kmm s) pgdir) (kmm s) m1) as Hso.
  { intros q x Hq Hx. unfold m1. rewrite ld8_st8. destruct (Z.eqb_spec x (frame (kmm s) pgdir va + k)); [|done].
    exfalso. pose proof (proj1 (pt_page_kpage _ _ _ Hwf Hq)) as Hqm.
    assert (q <> frame (kmm s) pgdir va) as Hne by (by intros ->).
    destruct (pages_disjoint _ _ Hqm Hfm Hne); lia. }
  assert (pte_val m1 pgdir va = pte_val (kmm s) pgdir va) as Epv by (by apply pte_val_frame).
  assert (frame m1 pgdir va = frame (kmm s) pgdir va) as Ef by (unfold frame; by rewrite Epv).
  change (set_k_mem _ s) with (upd_mem m1 s).
  replace (va + k + 1) with (va + (k + 1)) by lia.
  rewrite IH; change (kmm (upd_mem m1 s)) with m1; rewrite ?Epv, ?Ef; try done; try lia.
  - by replace (frame (kmm s) pgdir va + k + 1) with (frame (kmm s) pgdir va + (k + 1)) by lia.
  - by apply (pt_wf_frame (kmm s)).
  - by rewrite (pt_page_frame _ _ _ Hso).
Qed.

End access.

(** Pages of the allocator and the static buffer do not overlap. *)
Lemma kpage_kbuff `{Image} q : kpage q -> KERNBASE <= kbuff /\ kbuff + 4096 <= q.
Proof.
  intros (_ & Hq & _). pose proof kbuff_hi. pose proof kbuff_lo. pose proof kdata_lo.
  unfold KERNLINK, KERNBASE, EXTMEM in *. lia.
Qed.

(** ** Reading from and writing to the swap file *)

(** Entry [j] of the table of swapped pages is given up, or filled. *)
Definition disk_removed (j : nat) (pr : proc) : proc :=
  set_p_pages_in_swapfile_counter (p_pages_in_swapfile_counter pr - 1)
    (set_p_disk_pg_arr (alter (set_di_va NOVA) j (p_disk_pg_arr pr)) pr).
Definition disk_added (j : nat) (va : Z) (pr : proc) : proc :=
  set_p_pagedout (u32 (p_pagedout pr + 1))
    (set_p_pages_in_swapfile_counter (p_pages_in_swapfile_counter pr + 1)
      (set_p_disk_pg_arr (alter (set_di_va va) j (p_disk_pg_arr pr)) pr)).

(** Slot [j] of a swap file. *)
Definition swap_slot (c : list Z) (j : nat) : list Z := take pgn (drop (pgn * j) c).

Section swapping.
Context {img : Image} {F : Type} {fsy : FileSys F} {sst : SwapStore F}.
Context (p : nat) {sel : selection} {rep : Replacement sel}.
Implicit Types (s : kst F) (pr : proc).

Lemma wp_infs {A} (m : M F A) (a : A) fs s (Q : A -> kst F -> Prop) :
  m (k_fs s) = Ret a fs -> Q a (set_k_fs fs s) -> wp (infs m) Q s.
Proof. intros E. unfold wp, infs, lift. by rewrite E. Qed.

Lemma on_readPageFromFile s pr va buffer dst j i f c (Q : Z -> kst F -> Prop) :
  (p < length (k_procs s))%nat -> length (p_disk_pg_arr pr) = MAX_PSYC_PAGES ->
  length (p_memory_pg_arr pr) = MAX_PSYC_PAGES ->
  (j < MAX_PSYC_PAGES)%nat -> disk_va pr j = va -> (forall k, (k < j)%nat -> disk_va pr k <> va) ->
  va <> NOVA -> p_swapFile pr = Some f -> content (k_fs s) f c -> (pgn * j + pgn <= length c)%nat ->
  rp_inv pr -> first_free pr i ->
  (forall fs pr', kwrite buffer (swap_slot c j) (setp p pr' (set_k_fs fs s)) =
     Ret tt (setp p pr' (set_k_fs fs (upd_mem (st_bytes (kmm s) dst (swap_slot c j)) s)))) ->
  (forall fs' pr', content fs' f c ->
     entered i va (default_age sel) (disk_removed j pr) pr' -> rp_inv pr' ->
     Q 4096 (setp p pr' (set_k_fs fs' (upd_mem (st_bytes (kmm s) dst (swap_slot c j)) s)))) ->
  wp (readPageFromFile sel p va buffer) Q (setp p pr s).
Proof.
  intros Hlen Hd16 Hm16 Hj Hva Hlow Hn Hsf Hc Hlc Hinv Hfree Hkw HQ.
  unfold readPageFromFile. kstep. apply (wp_for_search _ _ _ _ j); [done| |].
  { intros k Hk. kstep. apply on_di_read; [done|rewrite Hd16; unfold MAX_PSYC_PAGES in *; lia|].
    intros d _ ->. rewrite (proj2 (Z.eqb_neq _ _) (Hlow k Hk)). by kstep. }
  kstep. apply on_di_read; [done|by rewrite Hd16|]. intros d _ ->. rewrite Hva, Z.eqb_refl.
  kstep. unfold readFromSwapFile. kstep. apply on_getp; [done|]. rewrite Hsf.
  destruct (content_read (k_fs s) f j c Hc Hlc) as (fs' & E & Hcs & _).
  kstep. eapply wp_infs; [rewrite Z.mul_comm; exact E|].
  kstep. cbn [fst snd]. eapply wp_intro; [apply Hkw|]. kstep. cbn [fst].
  kstep.
  apply on_di_modify; [done|by rewrite Hd16|]. kstep. apply on_updp; [done|].
  cbv beta. change (PGSIZE =? -1) with false. kstep.
  destruct (rp_enter p (set_k_fs fs' (upd_mem (st_bytes (kmm s) dst (swap_slot c j)) s))
    (disk_removed j pr) i va) as (pr' & Eu & He & Hinv'); [done|done| |done|done|].
  { eapply rp_inv_fields; [..|exact Hinv]; reflexivity. }
  eapply wp_intro; [exact Eu|]. kstep. kstep. by apply HQ.
Qed.

(** Writing [b], a page in memory at [va], to slot [k] of the swap file. *)
Lemma on_writeToSwapFile s pr va k off f c b (Q : Z -> kst F -> Prop) :
  (p < length (k_procs s))%nat -> (k < MAX_PSYC_PAGES)%nat -> off = 4096 * Z.of_nat k ->
  p_swapFile pr = Some f -> content (k_fs s) f c -> (pgn * k <= length c)%nat ->
  room (k_fs s) (page_growth k c) ->
  kbytes (setp p pr s) va pgn = Some b -> length b = pgn ->
  (forall fs', content fs' f (splice (pgn * k) b c) -> (forall n, room (k_fs s) (page_growth k c + n) -> room fs' n) ->
     Q 4096 (setp p pr (set_k_fs fs' s))) ->
  wp (writeToSwapFile p va off PGSIZE) Q (setp p pr s).
Proof.
  intros Hlen Hk -> Hsf Hc Hlc Hroom Hb Hlb HQ. unfold writeToSwapFile. kstep.
  apply on_getp; [done|]. rewrite Hsf. kstep. unfold kread. eapply wp_intro.
  { change (Z.to_nat PGSIZE) with pgn. by rewrite Hb. }
  destruct (content_write (k_fs s) f k b c Hc Hk Hlc Hlb Hroom) as (fs' & E & Hc' & Hr).
  eapply wp_infs; [exact E|]. by apply HQ.
Qed.

Lemma on_writePageToFile s pr va pgdir k f c b (Q : Z -> kst F -> Prop) :
  (p < length (k_procs s))%nat -> length (p_disk_pg_arr pr) = MAX_PSYC_PAGES ->
  (k < MAX_PSYC_PAGES)%nat -> disk_va pr k = NOVA -> (forall i, (i < k)%nat -> disk_va pr i <> NOVA) ->
  p_swapFile pr = Some f -> content (k_fs s) f c -> (pgn * k <= length c)%nat ->
  room (k_fs s) (page_growth k c) ->
  kbytes (setp p pr s) va pgn = Some b -> length b = pgn ->
  (forall fs', content fs' f (splice (pgn * k) b c) ->
     Q 4096 (setp p (disk_added k va pr) (set_k_fs fs' s))) ->
  wp (writePageToFile p va pgdir) Q (setp p pr s).
Proof.
  intros Hlen Hd16 Hk Hfree Hlow Hsf Hc Hlc Hroom Hb Hlb HQ.
  unfold writePageToFile. kstep. apply (wp_for_search _ _ _ _ k); [done| |].
  { intros i Hi. kstep. apply on_di_read; [done|rewrite Hd16; unfold MAX_PSYC_PAGES in *; lia|].
    intros d _ ->. rewrite (proj2 (Z.eqb_neq _ _) (Hlow i Hi)). by kstep. }
  kstep. apply on_di_read; [done|by rewrite Hd16|]. intros d _ ->. rewrite Hfree, Z.eqb_refl.
  kstep. eapply (on_writeToSwapFile s pr va k); [done..|]. intros fs' Hc' _.
  change (4096 =? -1) with false. kstep.
  apply on_di_modify; [done|by rewrite Hd16|]. kstep. apply on_updp; [done|].
  kstep. apply on_updp; [done|]. kstep. kstep. by apply HQ.
Qed.

End swapping.

