(* ===== verification/PagingInv.v ===== *)
(** * The paging invariant

    A process with paging has every page either in a frame of its own, listed in memory_pg_arr, or
    in a slot of the swap file, listed in disk_pg_arr; [paging_inv] says so, and the lemmas show
    that it survives a page leaving the table, coming in from the swap file and going out to it. *)
From Stdlib Require Import ZArith Lia.
From stdpp Require Import base list numbers strings sets.
From S2P Require Import Prelude Mmu Mem Kalloc PageTable Kstate Policy Queues Replacement Swap PteBits Uvm Uvmrun.
Local Open Scope Z_scope.

(** ** Counting used slots *)

Definition used (l : list Z) : nat := length (filter (fun v => v <> NOVA) l).
Definition used1 (v : Z) : nat := if decide (v <> NOVA) then 1 else 0.

Lemma used_cons v l : used (v :: l) = (used1 v + used l)%nat.
Proof. unfold used, used1. rewrite filter_cons. by destruct (decide _). Qed.

Lemma used_app l1 l2 : used (l1 ++ l2) = (used l1 + used l2)%nat.
Proof. unfold used. by rewrite filter_app, length_app. Qed.

Lemma used_insert l i x y : l !! i = Some x -> (used (<[i := y]> l) + used1 x = used l + used1 y)%nat.
Proof.
  intros Hi. pose proof (lookup_lt_Some _ _ _ Hi) as Hlt.
  rewrite insert_take_drop by done. rewrite <- (take_drop_middle l i x Hi) at 3.
  rewrite !used_app, !used_cons. lia.
Qed.

Lemma used_le l : (used l <= length l)%nat.
Proof. apply length_filter. Qed.

Lemma used_full l i : used l = length l -> (i < length l)%nat -> default NOVA (l !! i) <> NOVA.
Proof.
  intros Hu Hi. destruct (lookup_lt_is_Some_2 l i Hi) as [x Hx]. rewrite Hx. simpl. intros ->.
  pose proof (used_insert l i NOVA 0 Hx) as E. pose proof (used_le (<[i := 0]> l)) as Hle.
  rewrite length_insert in Hle. unfold used1 in E. simpl in E. lia.
Qed.

Lemma used_free l : (used l < length l)%nat ->
  exists i, l !! i = Some NOVA /\ forall j, (j < i)%nat -> exists v, l !! j = Some v /\ v <> NOVA.
Proof.
  induction l as [|v l IH]; intros Hu; [simpl in Hu; lia|]. rewrite used_cons in Hu. unfold used1 in Hu.
  destruct (decide (v = NOVA)) as [->|Hv].
  - exists 0%nat. split; [done|]. intros j Hj. lia.
  - rewrite decide_True in Hu by done. simpl in Hu. destruct IH as (i & Hi & Hlow); [lia|].
    exists (S i). split; [done|]. intros [|j] Hj; simpl; [eauto|]. apply Hlow. lia.
Qed.

(** ** Memories that differ in given pages only *)

Section evolves.
Context {img : Image}.

(** The page table has the same shape, and of the other page frames only those in [ws] changed. *)
Definition evolves (pgdir : Z) (ws : list Z) (m m' : mem) : Prop :=
  pt_wf m' pgdir /\
  (forall va, pte_addr m' pgdir va = pte_addr m pgdir va) /\
  (forall q, pt_page m' pgdir q <-> pt_page m pgdir q) /\
  (forall q x, kpage q -> ~ pt_page m pgdir q -> (q ∉ ws) -> q <= x < q + 4096 -> ld8 m' x = ld8 m x).

Lemma evolves_trans pgdir ws1 ws2 m1 m2 m3 :
  evolves pgdir ws1 m1 m2 -> evolves pgdir ws2 m2 m3 -> evolves pgdir (ws1 ++ ws2) m1 m3.
Proof.
  intros (_ & A1 & P1 & O1) (W2 & A2 & P2 & O2). split; [done|]. split; [|split].
  - intros va. by rewrite A2, A1.
  - intros q. by rewrite P2, P1.
  - intros q x Hk Hq Hn Hx. rewrite elem_of_app in Hn.
    rewrite (O2 q); [apply (O1 q); tauto|done| |tauto|done]. by rewrite P1.
Qed.

Lemma evolves_view pgdir m m' : view_change pgdir m m' -> evolves pgdir [] m m'.
Proof. intros (W & A & P & O). do 3 (split; [done|]). intros q x [Hk _] Hq _. by apply O. Qed.

(** A write to a range [a, a+n) that meets no page-table page. *)
Lemma evolves_write pgdir ws m m' a :
  pt_wf m pgdir ->
  (forall x, ~ (a <= x < a + 4096) -> ld8 m' x = ld8 m x) ->
  (forall q, pt_page m pgdir q -> a + 4096 <= q \/ q + 4096 <= a) ->
  (forall q, kpage q -> (q ∉ ws) -> a + 4096 <= q \/ q + 4096 <= a) ->
  evolves pgdir ws m m' /\ forall va, pte_val m' pgdir va = pte_val m pgdir va.
Proof.
  intros Hwf Ho Hpt Hk.
  assert (same_on (pt_page m pgdir) m m') as Hso.
  { intros q x Hq Hx. apply Ho. destruct (Hpt q Hq); lia. }
  split; [split; [by eapply pt_wf_frame|split; [|split]]|].
  - intros va. by apply pte_addr_frame.
  - intros q. by apply pt_page_frame.
  - intros q x Hq _ Hn Hx. apply Ho. destruct (Hk q Hq Hn); lia.
  - intros va. by apply pte_val_frame.
Qed.

(** The two cases that occur: a frame of its own, and the static buffer. *)
Lemma evolves_page pgdir m m' g :
  pt_wf m pgdir -> kpage g -> ~ pt_page m pgdir g ->
  (forall x, ~ (g <= x < g + 4096) -> ld8 m' x = ld8 m x) ->
  evolves pgdir [g] m m' /\ forall va, pte_val m' pgdir va = pte_val m pgdir va.
Proof.
  intros Hwf [Hg _] Hn Ho. apply (evolves_write _ _ _ _ g); [done..| |].
  - intros q Hq. pose proof (proj1 (pt_page_kpage _ _ _ Hwf Hq)) as Hqm.
    destruct (pages_disjoint g q Hg Hqm); [by intros ->|tauto..].
  - intros q [Hqm _] Hq. destruct (pages_disjoint g q Hg Hqm); [set_solver|tauto..].
Qed.

Lemma evolves_buff pgdir m m' :
  pt_wf m pgdir -> (forall x, ~ (kbuff <= x < kbuff + 4096) -> ld8 m' x = ld8 m x) ->
  evolves pgdir [] m m' /\ forall va, pte_val m' pgdir va = pte_val m pgdir va.
Proof.
  intros Hwf Ho. apply (evolves_write _ _ _ _ kbuff); [done..| |].
  - intros q Hq. pose proof (kpage_kbuff q (pt_page_kpage _ _ _ Hwf Hq)). lia.
  - intros q Hq _. pose proof (kpage_kbuff q Hq). lia.
Qed.

Lemma vm_wf_evolves km pgdir l ws m' :
  vm_wf km pgdir l -> evolves pgdir ws (km_mem km) m' -> (forall q, q ∈ l -> q ∉ ws) ->
  vm_wf (set_km_mem m' km) pgdir l.
Proof.
  intros ((Hc & Hnd & Hlk) & Hpt & Hd) (W & A & P & O) Hws. split; [|split; [done|]].
  - split; [|done]. simpl. eapply free_chain_ext; [|exact Hc]. intros q x Hq Hx.
    apply (O q); [by eapply free_chain_kpage|by apply Hd|by apply Hws|lia].
  - intros q Hq. simpl. rewrite P. by apply Hd.
Qed.

End evolves.

(** ** The invariant *)

Section inv.
Context {img : Image} {F : Type} {fsy : FileSys F} {sst : SwapStore F}.
Context {sel : selection} {rep : Replacement sel}.

Definition user_va (va : Z) : Prop := va mod 4096 = 0 /\ 0 <= va < KERNBASE.

(** A page in memory: present, writable, in a frame that is neither free nor part of the page
    table.  A page in the swap file: not present, marked PG, with no address. *)
Definition resident (m : mem) (pgdir : Z) (l : list Z) (va : Z) : Prop :=
  user_va va /\ has (pte_val m pgdir va) PTE_P = true /\ has (pte_val m pgdir va) PTE_W = true /\
  kpage (frame m pgdir va) /\ (frame m pgdir va ∉ l) /\ ~ pt_page m pgdir (frame m pgdir va).
Definition swapped (m : mem) (pgdir va : Z) : Prop :=
  user_va va /\ (exists a, pte_addr m pgdir va = Some a) /\ has (pte_val m pgdir va) PTE_P = false /\
  has (pte_val m pgdir va) PTE_PG = true /\ PTE_ADDR (pte_val m pgdir va) = 0.

(** The pages in memory: those of the table, and [tr], pages in transit: mapped, but not (or no
    longer) in the table. *)
Definition in_mem (pr : proc) (tr : list Z) (va : Z) : Prop :=
  va <> NOVA /\ ((exists i, slot_va pr i = va) \/ va ∈ tr).

(** [l] are the free frames, [f] the open swap file and [c] its contents. *)
Record paging_inv (km : kmem) (fs : F) (pr : proc) (tr : list Z) (f : nat) (l : list Z) (c : list Z) :
    Prop := {
  pi_vm : vm_wf km (p_pgdir pr) l;
  pi_swapfile : p_swapFile pr = Some f;
  pi_content : content fs f c;
  pi_bytes : Forall (fun b => 0 <= b < 256) c;
  pi_mem_len : length (p_memory_pg_arr pr) = MAX_PSYC_PAGES;
  pi_disk_len : length (p_disk_pg_arr pr) = MAX_PSYC_PAGES;
  pi_mem_count : p_pages_in_memory_counter pr = Z.of_nat (used (vas (p_memory_pg_arr pr)));
  pi_disk_count : p_pages_in_swapfile_counter pr = Z.of_nat (used (disk_vas pr));
  pi_rp : rp_inv pr;
  pi_tr va : va ∈ tr -> va <> NOVA /\ forall i, slot_va pr i <> va;
  pi_res va : in_mem pr tr va -> resident (km_mem km) (p_pgdir pr) l va;
  pi_res_inj i j : slot_va pr i <> NOVA -> slot_va pr i = slot_va pr j -> i = j;
  pi_frames va va' : in_mem pr tr va -> in_mem pr tr va' ->
    frame (km_mem km) (p_pgdir pr) va = frame (km_mem km) (p_pgdir pr) va' -> va = va';
  pi_swp j : disk_va pr j <> NOVA ->
    swapped (km_mem km) (p_pgdir pr) (disk_va pr j) /\ (pgn * j + pgn <= length c)%nat;
  pi_swp_inj i j : disk_va pr i <> NOVA -> disk_va pr i = disk_va pr j -> i = j }.

(** The contents of a user page, wherever it is. *)
Definition page_is (m : mem) (pr : proc) (tr : list Z) (c : list Z) (va : Z) (b : list Z) : Prop :=
  in_mem pr tr va /\ b = bytes_at m (frame m (p_pgdir pr) va) pgn \/
  va <> NOVA /\ exists j, disk_va pr j = va /\ b = swap_slot c j.

(** A frame that is not in use: it can be handed to a page. *)
Definition fresh_frame (m : mem) (pr : proc) (tr : list Z) (l : list Z) (n : Z) : Prop :=
  kpage n /\ (n ∉ l) /\ ~ pt_page m (p_pgdir pr) n /\
  forall va, in_mem pr tr va -> frame m (p_pgdir pr) va <> n.

(** *** kalloc *)
Lemma inv_kalloc km fs pr tr f n l c :
  paging_inv km fs pr tr f (n :: l) c ->
  exists km', kalloc km = Ret n km' /\ km_mem km' = km_mem km /\
    paging_inv km' fs pr tr f l c /\ fresh_frame (km_mem km') pr tr l n.
Proof.
  intros []. destruct pi_vm0 as (Hkm & Hpt & Hd).
  destruct (kalloc_cons km n l Hkm) as (E & Hkm' & Hn & Hnl). eexists. split; [exact E|].
  split; [done|]. split.
  - constructor; simpl; try done.
    + split; [done|]. split; [done|]. intros q Hq. apply Hd. by constructor.
    + intros va Hva. destruct (pi_res0 va Hva) as (H1 & H2 & H3 & H4 & H5 & H6).
      do 4 (split; [done|]). split; [|done]. intros Hin. apply H5. by constructor.
  - split; [done|]. split; [done|]. split; [apply Hd; by constructor|].
    intros va Hva En. destruct (pi_res0 va Hva) as (_ & _ & _ & _ & H5 & _).
    simpl in En. rewrite En in H5. apply H5. by constructor.
Qed.

(** *** Writes to memory that no page of the process occupies *)
Lemma frame_evolves pgdir m m' va :
  pte_val m' pgdir va = pte_val m pgdir va -> frame m' pgdir va = frame m pgdir va.
Proof. unfold frame. by intros ->. Qed.

Lemma bytes_at_evolves pgdir ws m m' q :
  evolves pgdir ws m m' -> kpage q -> ~ pt_page m pgdir q -> (q ∉ ws) ->
  bytes_at m' q pgn = bytes_at m q pgn.
Proof. intros (_ & _ & _ & O) Hk Hn Hq. apply bytes_at_ext. intros x Hx. by apply (O q). Qed.

(** Entries change at most in their access bit; [ws] are frames that are not in use. *)
Definition quiet (pr : proc) (tr : list Z) (ws : list Z) (m m' : mem) : Prop :=
  evolves (p_pgdir pr) ws m m' /\
  (forall va, 0 <= va < 2 ^ 32 -> pte_val m' (p_pgdir pr) va = pte_val m (p_pgdir pr) va \/
     pte_val m' (p_pgdir pr) va = clear_A (pte_val m (p_pgdir pr) va)) /\
  (forall va, in_mem pr tr va -> frame m (p_pgdir pr) va ∉ ws).

Lemma quiet_pte pr tr ws m m' va : quiet pr tr ws m m' -> 0 <= va < 2 ^ 32 ->
  frame m' (p_pgdir pr) va = frame m (p_pgdir pr) va /\
  PTE_ADDR (pte_val m' (p_pgdir pr) va) = PTE_ADDR (pte_val m (p_pgdir pr) va) /\
  (forall g, g = PTE_P \/ g = PTE_W \/ g = PTE_U \/ g = PTE_PG ->
     has (pte_val m' (p_pgdir pr) va) g = has (pte_val m (p_pgdir pr) va) g).
Proof.
  intros (_ & Hv & _) Hva. unfold frame. destruct (Hv va Hva) as [->| ->]; [done|].
  rewrite PTE_ADDR_clear_A by apply pte_val_range. split; [done|]. split; [done|].
  intros g [->|[->|[->| ->]]]; [apply (has_clear_A _ 0)|apply (has_clear_A _ 1)|apply (has_clear_A _ 2)|
    apply (has_clear_A _ 9)]; lia.
Qed.

Lemma user_va_range va : user_va va -> 0 <= va < 2 ^ 32 /\ va <> NOVA.
Proof. unfold user_va, KERNBASE, NOVA. lia. Qed.

Lemma inv_quiet km fs fs' pr tr f l c ws m' :
  paging_inv km fs pr tr f l c -> quiet pr tr ws (km_mem km) m' -> (forall q, q ∈ l -> q ∉ ws) ->
  content fs' f c ->
  paging_inv (set_km_mem m' km) fs' pr tr f l c /\
  (forall va b, page_is (km_mem km) pr tr c va b -> page_is m' pr tr c va b).
Proof.
  intros [] Hq Hws Hc. pose proof Hq as (Hev & _ & Hfr). pose proof Hev as (W & A & P & O).
  assert (forall va, in_mem pr tr va -> frame m' (p_pgdir pr) va = frame (km_mem km) (p_pgdir pr) va) as Ef.
  { intros va Hva. destruct (pi_res0 va Hva) as (Hu & _). apply user_va_range in Hu as [Hu _].
    by destruct (quiet_pte _ _ _ _ _ va Hq Hu). }
  split; [constructor; simpl; try done|].
  - by eapply vm_wf_evolves.
  - intros va Hva. destruct (pi_res0 va Hva) as (Hu & HP & HW & Hk & Hl & Hn).
    pose proof (proj1 (user_va_range _ Hu)) as Hr. destruct (quiet_pte _ _ _ _ _ va Hq Hr) as (E & _ & Hb).
    unfold resident. rewrite !Hb, E by tauto. rewrite P. done.
  - intros va va' Hva Hva'. rewrite !Ef by done. by apply pi_frames0.
  - intros j Hj. destruct (pi_swp0 j Hj) as [(Hu & (a & Ha) & HP & HG & Had) Hl]. split; [|done].
    pose proof (proj1 (user_va_range _ Hu)) as Hr. destruct (quiet_pte _ _ _ _ _ _ Hq Hr) as (E & Ea & Hb).
    split; [done|]. split; [exists a; by rewrite A|]. rewrite !Hb, Ea by tauto. done.
  - intros va b [[Hva ->]|H]; [|by right]. left. split; [done|]. rewrite Ef by done.
    destruct (pi_res0 va Hva) as (_ & _ & _ & Hk & _ & Hn). symmetry.
    eapply bytes_at_evolves; [done..|by apply Hfr].
Qed.

End inv.

(** ** Contents of the swap file *)

Lemma swap_slot_splice_eq k b c : (pgn * k <= length c)%nat -> length b = pgn ->
  swap_slot (splice (pgn * k) b c) k = b.
Proof.
  intros Hk Hb. unfold swap_slot, splice.
  rewrite drop_app_le by (rewrite length_take; lia). rewrite drop_ge by (rewrite length_take; lia).
  rewrite app_nil_l, take_app_le by lia. apply take_ge. lia.
Qed.

Lemma swap_slot_splice_ne k j b c :
  (pgn * k <= length c)%nat -> length b = pgn -> j <> k -> (pgn * j + pgn <= length c)%nat ->
  swap_slot (splice (pgn * k) b c) j = swap_slot c j.
Proof.
  intros Hk Hb Hne Hj. unfold swap_slot, splice. apply list_eq. intros i.
  destruct (Nat.lt_ge_cases i pgn) as [Hi|Hi].
  2: { rewrite !lookup_take_ge by lia. done. }
  rewrite !lookup_take_lt, !lookup_drop by lia.
  destruct (Nat.lt_ge_cases (pgn * j + i) (pgn * k)).
  - rewrite lookup_app_l by (rewrite length_take; lia). by rewrite lookup_take_lt by lia.
  - rewrite lookup_app_r by (rewrite length_take; lia). rewrite length_take.
    rewrite lookup_app_r by lia. rewrite lookup_drop. f_equal. lia.
Qed.

Lemma splice_bytes off b c :
  Forall (fun x => 0 <= x < 256) b -> Forall (fun x => 0 <= x < 256) c ->
  Forall (fun x => 0 <= x < 256) (splice off b c).
Proof.
  intros Hb Hc. unfold splice. repeat apply Forall_app_2; [by apply Forall_take|done|by apply Forall_drop].
Qed.

Lemma disk_va_insert pr pr' i va k :
  disk_vas pr' = <[i := va]> (disk_vas pr) -> (i < length (p_disk_pg_arr pr))%nat ->
  disk_va pr' k = if decide (k = i) then va else disk_va pr k.
Proof.
  intros E Hi. unfold disk_va. rewrite E. destruct (decide (k = i)) as [->|].
  - rewrite list_lookup_insert_eq; [done|]. unfold disk_vas. by rewrite length_map.
  - by rewrite list_lookup_insert_ne.
Qed.

Lemma disk_va_lt pr i : disk_va pr i <> NOVA -> (i < length (p_disk_pg_arr pr))%nat.
Proof.
  unfold disk_va, disk_vas. intros H. destruct (decide (i < length (p_disk_pg_arr pr))%nat); [done|].
  rewrite lookup_ge_None_2 in H by (rewrite length_map; lia). done.
Qed.

Lemma disk_va_lookup pr i : (i < length (p_disk_pg_arr pr))%nat -> disk_vas pr !! i = Some (disk_va pr i).
Proof.
  intros Hi. unfold disk_va. destruct (disk_vas pr !! i) eqn:E; [done|].
  apply lookup_ge_None in E. unfold disk_vas in E. rewrite length_map in E. lia.
Qed.

Lemma vas_lookup pr i : (i < length (p_memory_pg_arr pr))%nat ->
  vas (p_memory_pg_arr pr) !! i = Some (slot_va pr i).
Proof.
  intros Hi. unfold slot_va. destruct (vas (p_memory_pg_arr pr) !! i) eqn:E; [done|].
  apply lookup_ge_None in E. unfold vas in E. rewrite length_map in E. lia.
Qed.

Section moves.
Context {img : Image} {F : Type} {fsy : FileSys F} {sst : SwapStore F}.
Context {sel : selection} {rep : Replacement sel}.

(** *** A page leaves the table *)
Lemma in_mem_vacate pr pr' v tr va : relinked pr pr' -> slot_va pr v <> NOVA ->
  in_mem (vacate v pr') (slot_va pr v :: tr) va <-> in_mem pr tr va.
Proof.
  intros Hrel Hv. unfold in_mem. split; intros [Hn H]; (split; [done|]).
  - destruct H as [[i Hi]|[->|?]%elem_of_cons]; [left|left; by exists v|by right].
    rewrite slot_va_vacate, (slot_va_relinked _ _ _ Hrel) in Hi. case_decide; [congruence|eauto].
  - destruct H as [[i Hi]|?]; [|right; by constructor]. destruct (decide (i = v)) as [->|]; [right; subst; constructor|].
    left. exists i. by rewrite slot_va_vacate, (slot_va_relinked _ _ _ Hrel), decide_False.
Qed.

Lemma inv_vacate km (fs : F) pr pr' v tr f l c :
  paging_inv km fs pr tr f l c -> relinked pr pr' -> slot_va pr v <> NOVA -> rp_inv (vacate v pr') ->
  paging_inv km fs (vacate v pr') (slot_va pr v :: tr) f l c /\
  (forall va b, page_is (km_mem km) pr tr c va b ->
     page_is (km_mem km) (vacate v pr') (slot_va pr v :: tr) c va b).
Proof.
  intros [] Hrel Hv Hrp. pose proof Hrel as (Epr & Evas & _).
  assert (forall i, slot_va (vacate v pr') i = if decide (i = v) then NOVA else slot_va pr i) as Esl.
  { intros i. by rewrite slot_va_vacate, (slot_va_relinked _ _ _ Hrel). }
  assert (forall va, in_mem (vacate v pr') (slot_va pr v :: tr) va <-> in_mem pr tr va) as Ein.
  { intros va. by apply in_mem_vacate. }
  assert (p_pgdir (vacate v pr') = p_pgdir pr) as Epd by (simpl; by eapply pgdir_relinked).
  assert (p_disk_pg_arr pr' = p_disk_pg_arr pr) as Ed by (rewrite Epr; reflexivity).
  assert (forall j, disk_va (vacate v pr') j = disk_va pr j) as Edv.
  { intros j. unfold disk_va, disk_vas. simpl. by rewrite Ed. }
  assert (length (p_memory_pg_arr pr') = MAX_PSYC_PAGES) as Hl16.
  { rewrite <- pi_mem_len0. apply (f_equal length) in Evas. unfold vas in Evas. by rewrite !length_map in Evas. }
  split; [constructor|]; rewrite ?Epd; try done.
  - simpl. rewrite Epr. done.
  - simpl. by rewrite length_alter.
  - simpl. by rewrite Ed.
  - simpl. rewrite vas_alter_va, Evas. rewrite Epr. simpl. rewrite pi_mem_count0.
    apply slot_va_lt in Hv as Hlt. pose proof (used_insert _ v _ NOVA (vas_lookup _ _ Hlt)) as E.
    unfold used1 in E. rewrite decide_True in E by done. simpl in E. lia.
  - unfold disk_vas. simpl. rewrite Ed. rewrite Epr. done.
  - intros va [->|Hva]%elem_of_cons.
    + split; [done|]. intros i. rewrite Esl. case_decide as Hd; [congruence|].
      intros E. apply Hd. symmetry. by apply pi_res_inj0.
    + destruct (pi_tr0 va Hva) as [? Hs]. split; [done|]. intros i. rewrite Esl. case_decide; [congruence|apply Hs].
  - intros va Hva%Ein. by apply pi_res0.
  - intros i j. rewrite !Esl. destruct (decide (i = v)), (decide (j = v)); intros Hi E; try congruence.
    by apply pi_res_inj0.
  - intros va va' Hva%Ein Hva'%Ein. by apply pi_frames0.
  - intros j. rewrite Edv. apply pi_swp0.
  - intros i j. rewrite !Edv. apply pi_swp_inj0.
  - intros va b [[Hva ->]|[Hn (j & Hj & ->)]]; [left|right].
    + rewrite Ein, Epd. done.
    + split; [done|]. exists j. by rewrite Edv.
Qed.

(** *** A page comes in *)
Lemma V2P_kpage n : kpage n -> 0 <= V2P n < 2 ^ 32 /\ V2P n mod 4096 = 0 /\ P2V (V2P n) = n.
Proof.
  intros Hn. split; [|split; [|by apply P2V_V2P_kpage]].
  all: destruct (kpage_pos _ Hn) as (? & ? & Hm); unfold KERNBASE, PHYSTOP in *.
  - apply u32_range.
  - unfold V2P, KERNBASE. rewrite (u32_small n), u32_small by lia. by rewrite Zminus_mod, Hm.
Qed.

Lemma paged_in_frame e n : 0 <= e < 2 ^ 32 -> PTE_ADDR e = 0 -> kpage n ->
  P2V (PTE_ADDR (paged_in e (V2P n))) = n /\ has (paged_in e (V2P n)) PTE_P = true /\
  has (paged_in e (V2P n)) PTE_W = true.
Proof.
  intros He Ha Hn. destruct (V2P_kpage n Hn) as (Hr & Hm & HP).
  destruct (paged_in_spec e (V2P n) He Ha Hm Hr) as (_ & -> & ? & ? & _). done.
Qed.

(** Two different user pages have different page numbers. *)
Lemma user_va_page va w : user_va va -> user_va w -> w <> va -> (w / 4096 =? va / 4096) = false.
Proof.
  intros [Hv _] [Hw _] Hne. apply Z.eqb_neq. intros E. apply Hne. Z.to_euclidean_division_equations; lia.
Qed.

(** The tables of the process after [va] moved from entry [j] of the swap table to slot [i]. *)
Lemma page_in_tables i j va age pr pr' tr :
  (i < length (p_memory_pg_arr pr))%nat -> slot_va pr i = NOVA -> (j < length (p_disk_pg_arr pr))%nat ->
  va <> NOVA -> entered i va age (disk_removed j pr) pr' ->
  p_pgdir pr' = p_pgdir pr /\ p_swapFile pr' = p_swapFile pr /\
  (forall k, slot_va pr' k = if decide (k = i) then va else slot_va pr k) /\
  (forall k, disk_va pr' k = if decide (k = j) then NOVA else disk_va pr k) /\
  (forall w, in_mem pr' tr w <-> w = va \/ in_mem pr tr w) /\
  length (p_memory_pg_arr pr') = length (p_memory_pg_arr pr) /\
  length (p_disk_pg_arr pr') = length (p_disk_pg_arr pr) /\
  p_pages_in_memory_counter pr' = p_pages_in_memory_counter pr + 1 /\
  p_pages_in_swapfile_counter pr' = p_pages_in_swapfile_counter pr - 1 /\
  vas (p_memory_pg_arr pr') = <[i := va]> (vas (p_memory_pg_arr pr)) /\
  disk_vas pr' = <[j := NOVA]> (disk_vas pr).
Proof.
  intros Hil Hfu Hjl Hva He. pose proof He as (Evas & _ & Epr).
  assert (forall k, slot_va pr' k = if decide (k = i) then va else slot_va pr k) as Esl.
  { intros k. by rewrite (slot_va_entered i va age (disk_removed j pr) pr' k). }
  assert (disk_vas pr' = <[j := NOVA]> (disk_vas pr)) as Edvs.
  { unfold disk_vas. rewrite Epr. simpl. apply disk_vas_alter. }
  split; [by rewrite Epr|]. split; [by rewrite Epr|]. split; [done|].
  split; [intros k; by apply disk_va_insert|]. split; [|split; [|split; [|split; [|split]]]].
  - intros w. unfold in_mem. split.
    + intros [Hw [[k Hk]|Ht]]; [|tauto]. rewrite Esl in Hk. case_decide; [left; congruence|right; eauto].
    + intros [->|[Hw [[k Hk]|Ht]]]; [| |tauto].
      * split; [done|]. left. exists i. by rewrite Esl, decide_True.
      * split; [done|]. left. exists k. rewrite Esl, decide_False; [done|]. intros ->. congruence.
  - apply (f_equal length) in Evas. unfold vas in Evas. by rewrite length_insert, !length_map in Evas.
  - apply (f_equal length) in Edvs. unfold disk_vas in Edvs. by rewrite length_insert, !length_map in Edvs.
  - by rewrite Epr.
  - by rewrite Epr.
  - done.
Qed.

Lemma inv_page_in km (fs fs' : F) pr pr' tr f l c j i n va age m' :
  paging_inv km fs pr tr f l c -> disk_va pr j = va -> va <> NOVA ->
  fresh_frame (km_mem km) pr tr l n -> first_free pr i ->
  evolves (p_pgdir pr) [n] (km_mem km) m' ->
  (forall v, 0 <= v < 2 ^ 32 -> pte_val m' (p_pgdir pr) v =
     if v / 4096 =? va / 4096 then paged_in (pte_val (km_mem km) (p_pgdir pr) va) (V2P n)
     else pte_val (km_mem km) (p_pgdir pr) v) ->
  bytes_at m' n pgn = swap_slot c j ->
  entered i va age (disk_removed j pr) pr' -> rp_inv pr' -> content fs' f c ->
  paging_inv (set_km_mem m' km) fs' pr' tr f l c /\
  (forall w b, page_is (km_mem km) pr tr c w b -> page_is m' pr' tr c w b).
Proof.
  intros [] Hj Hva (Hnk & Hnl & Hnp & Hnf) Hff Hev Hpv Hbytes He Hrp Hcont.
  pose proof Hev as (W & A & P & O). pose proof (first_free_lt _ _ Hff) as Hil.
  assert (disk_va pr j <> NOVA) as Hdj by congruence. pose proof (disk_va_lt _ _ Hdj) as Hjl.
  destruct (pi_swp0 j Hdj) as [(Hu & (a & Ha) & HP & HG & Had) Hjc]. rewrite Hj in *.
  destruct (page_in_tables i j va age pr pr' tr Hil (first_free_unused _ _ Hff) Hjl Hva He)
    as (Epd & Esf & Esl & Edv & Ein & El1 & El2 & Ec1 & Ec2 & Evas & Edvs).
  assert (forall w, in_mem pr tr w \/ swapped (km_mem km) (p_pgdir pr) w /\ w <> va ->
    pte_val m' (p_pgdir pr) w = pte_val (km_mem km) (p_pgdir pr) w) as Epw.
  { intros w Hw. assert (user_va w /\ w <> va) as [Hwu Hne].
    { destruct Hw as [Hw|[[? _] ?]]; [|done]. destruct (pi_res0 w Hw) as (? & HwP & _).
      split; [done|]. intros ->. congruence. }
    rewrite Hpv by (by apply user_va_range). by rewrite user_va_page. }
  assert (pte_val m' (p_pgdir pr) va = paged_in (pte_val (km_mem km) (p_pgdir pr) va) (V2P n)) as Epva.
  { rewrite Hpv by (by apply user_va_range). by rewrite Z.eqb_refl. }
  destruct (paged_in_frame _ n (pte_val_range (km_mem km) (p_pgdir pr) va) Had Hnk) as (Fn & FP & FW).
  rewrite <- Epva in Fn, FP, FW.
  assert (forall w, in_mem pr tr w -> frame m' (p_pgdir pr) w = frame (km_mem km) (p_pgdir pr) w) as Efw.
  { intros w Hw. unfold frame. rewrite Epw; tauto. }
  split; [constructor|]; simpl; rewrite ?Epd; try done.
  - eapply vm_wf_evolves; [done..|]. intros q Hq ->%list_elem_of_singleton. done.
  - by rewrite Esf.
  - by rewrite El1.
  - by rewrite El2.
  - rewrite Ec1, Evas, pi_mem_count0. pose proof (used_insert _ i _ va (vas_lookup _ _ Hil)) as E.
    rewrite (first_free_unused _ _ Hff) in E. unfold used1 in E. rewrite (decide_True _ _ Hva) in E. simpl in E. lia.
  - rewrite Ec2, Edvs, pi_disk_count0. pose proof (used_insert _ j _ NOVA (disk_va_lookup _ _ Hjl)) as E.
    rewrite Hj in E. unfold used1 in E. rewrite (decide_True _ _ Hva) in E. simpl in E. lia.
  - intros w Hw. destruct (pi_tr0 w Hw) as [Hwn Hws]. split; [done|]. intros k. rewrite Esl.
    case_decide; [|apply Hws]. intros <-. destruct (pi_res0 va) as (_ & HvP & _); [by split; [|right]|congruence].
  - intros w [->|Hw]%Ein.
    + do 3 (split; [done|]). unfold frame. rewrite Fn, P. done.
    + destruct (pi_res0 w Hw) as (H1 & H2 & H3 & H4 & H5 & H6). unfold resident.
      rewrite Efw, Epw, P by tauto. done.
  - intros k1 k2. rewrite !Esl. destruct (decide (k1 = i)) as [->|], (decide (k2 = i)) as [->|]; intros Hk E; try done.
    + destruct (pi_res0 va) as (_ & HvP & _); [split; [done|left; by exists k2]|congruence].
    + destruct (pi_res0 va) as (_ & HvP & _); [split; [done|left; by exists k1]|congruence].
    + by apply pi_res_inj0.
  - intros w w' [->|Hw]%Ein [->|Hw']%Ein; [done|..].
    + rewrite (Efw w') by done. unfold frame at 1. rewrite Fn. intros E. by destruct (Hnf w' Hw').
    + rewrite (Efw w) by done. unfold frame at 2. rewrite Fn. intros E. by destruct (Hnf w Hw).
    + rewrite !Efw by done. by apply pi_frames0.
  - intros k. rewrite Edv. case_decide as Hk; [done|]. intros Hd. destruct (pi_swp0 k Hd) as [Hs Hl].
    split; [|done]. assert (disk_va pr k <> va) as Hne.
    { intros E. apply Hk. apply pi_swp_inj0; congruence. }
    pose proof Hs as (H1 & (a' & H2) & H3 & H4 & H5). split; [done|]. split; [exists a'; by rewrite A|].
    rewrite !Epw by tauto. done.
  - intros k1 k2. rewrite !Edv. repeat case_decide; try congruence. by apply pi_swp_inj0.
  - intros w b [[Hw ->]|[Hw (k & Hk & ->)]].
    + left. split; [apply Ein; by right|]. rewrite Epd, Efw by done.
      destruct (pi_res0 w Hw) as (_ & _ & _ & Hkp & _ & Hpt). symmetry. eapply bytes_at_evolves; try done.
      intros E%list_elem_of_singleton. by destruct (Hnf w Hw).
    + destruct (decide (k = j)) as [->|Hne].
      * left. assert (w = va) as -> by congruence. split; [apply Ein; by left|]. rewrite Epd.
        unfold frame. by rewrite Fn.
      * right. split; [done|]. exists k. by rewrite Edv, decide_False.
Qed.

(** *** A page goes out *)

(** Freeing the frame of a page that is no longer mapped. *)
Lemma kfree_evolves km pgdir l m' g :
  vm_wf km pgdir l -> view_change pgdir (km_mem km) m' -> kpage g -> (g ∉ l) -> ~ pt_page (km_mem km) pgdir g ->
  exists km', kfree g (set_km_mem m' km) = Ret tt km' /\ vm_wf km' pgdir (g :: l) /\
    evolves pgdir [g] (km_mem km) (km_mem km') /\
    (forall va, pte_val (km_mem km') pgdir va = pte_val m' pgdir va).
Proof.
  intros Hvm Hvc Hg Hgl Hgp. pose proof (vm_wf_view _ _ _ _ Hvm Hvc) as (Hkm & Hpt & Hd).
  pose proof Hvc as (W & A & P & O).
  destruct (kfree_cons (set_km_mem m' km) g l Hg Hgl Hkm) as (km' & E & Hkm' & _ & _ & _ & Em).
  destruct (evolves_page pgdir m' (km_mem km') g) as [Hev Hpv]; [done|done|by rewrite P| |].
  { intros x Hx. rewrite Em. apply ld8_kfree_mem_out. lia. }
  pose proof (evolves_trans _ _ _ _ _ _ (evolves_view _ _ _ Hvc) Hev) as Hev'. simpl in Hev'.
  exists km'. split; [done|]. split; [|done]. split; [done|]. split; [apply Hev|].
  intros q Hq. destruct Hev' as (_ & _ & P' & _). rewrite P'.
  apply elem_of_cons in Hq as [->|Hq]; [done|]. simpl in Hd. specialize (Hd q Hq). by rewrite P in Hd.
Qed.

Lemma page_out_tables kd w pr :
  (kd < length (p_disk_pg_arr pr))%nat -> disk_va pr kd = NOVA -> w <> NOVA ->
  (forall k, disk_va (disk_added kd w pr) k = if decide (k = kd) then w else disk_va pr k) /\
  used (disk_vas (disk_added kd w pr)) = S (used (disk_vas pr)).
Proof.
  intros Hkl Hkd Hw.
  assert (disk_vas (disk_added kd w pr) = <[kd := w]> (disk_vas pr)) as Ed by apply disk_vas_alter.
  split; [intros k; by apply disk_va_insert|]. rewrite Ed.
  pose proof (used_insert _ kd _ w (disk_va_lookup _ _ Hkl)) as E. rewrite Hkd in E.
  unfold used1 in E. rewrite (decide_True _ _ Hw) in E. simpl in E. lia.
Qed.

Lemma inv_page_out km km' (fs fs' : F) pr tr f l c kd w :
  paging_inv km fs pr (w :: tr) f l c -> (w ∉ tr) ->
  (kd < MAX_PSYC_PAGES)%nat -> disk_va pr kd = NOVA -> (pgn * kd <= length c)%nat ->
  let g := frame (km_mem km) (p_pgdir pr) w in
  let c' := splice (pgn * kd) (bytes_at (km_mem km) g pgn) c in
  content fs' f c' ->
  vm_wf km' (p_pgdir pr) (g :: l) -> evolves (p_pgdir pr) [g] (km_mem km) (km_mem km') ->
  (forall v, user_va v -> v <> w ->
     pte_val (km_mem km') (p_pgdir pr) v = pte_val (km_mem km) (p_pgdir pr) v) ->
  has (pte_val (km_mem km') (p_pgdir pr) w) PTE_P = false ->
  has (pte_val (km_mem km') (p_pgdir pr) w) PTE_PG = true ->
  PTE_ADDR (pte_val (km_mem km') (p_pgdir pr) w) = 0 ->
  paging_inv km' fs' (disk_added kd w pr) tr f (g :: l) c' /\
  (forall va b, page_is (km_mem km) pr (w :: tr) c va b ->
     page_is (km_mem km') (disk_added kd w pr) tr c' va b).
Proof.
  intros [] Hwt Hk16 Hkd Hkc g c' Hc' Hvm' Hev Epw OP OG Oa. destruct (pi_tr0 w) as [Hwn Hws]; [by constructor|].
  assert (in_mem pr (w :: tr) w) as Hwin by (split; [done|right; by constructor]).
  destruct (pi_res0 w Hwin) as (Hwu & HwP & HwW & Hgk & Hgl & Hgp). fold g in Hgk, Hgl, Hgp.
  pose proof (proj1 (user_va_range _ Hwu)) as Hwr. pose proof Hev as (W & A & P & O).
  destruct (page_out_tables kd w pr) as [Edv Eu]; [by rewrite pi_disk_len0|done|done|].
  assert (length (bytes_at (km_mem km) g pgn) = pgn) as Hlb by apply length_bytes_at.
  assert (forall v, in_mem (disk_added kd w pr) tr v -> in_mem pr (w :: tr) v /\ v <> w) as Ein.
  { intros v [Hn [[i Hi]|Ht]].
    - split; [split; [done|left; by exists i]|]. intros ->. by apply (Hws i).
    - split; [split; [done|right; by constructor]|]. by intros ->. }
  assert (forall v, in_mem (disk_added kd w pr) tr v ->
    frame (km_mem km') (p_pgdir pr) v = frame (km_mem km) (p_pgdir pr) v) as Ef.
  { intros v Hv. destruct (Ein v Hv) as [Hv' Hne]. apply frame_evolves, Epw; [by apply pi_res0|done]. }
  assert ((length c <= length c')%nat /\ (pgn * kd + pgn <= length c')%nat) as [Hcc Hcc'].
  { unfold c'. rewrite length_splice, Hlb by done. lia. }
  assert (swap_slot c' kd = bytes_at (km_mem km) g pgn) as Hs1 by (by apply swap_slot_splice_eq).
  assert (forall j, j <> kd -> (pgn * j + pgn <= length c)%nat -> swap_slot c' j = swap_slot c j) as Hs2.
  { intros j Hj Hl. by apply swap_slot_splice_ne. }
  assert (Forall (fun x => 0 <= x < 256) c') as Hcb by (apply splice_bytes; [apply bytes_at_range|done]).
  clearbody c'. clear Hlb.
  split; [constructor|]; cbn [p_pgdir p_swapFile p_memory_pg_arr p_disk_pg_arr p_pages_in_memory_counter
    p_pages_in_swapfile_counter disk_added set_p_pagedout set_p_pages_in_swapfile_counter set_p_disk_pg_arr]; try done.
  - by rewrite length_alter.
  - rewrite Eu, pi_disk_count0. lia.
  - by eapply rp_inv_fields; [..|exact pi_rp0].
  - intros v Hv. apply (pi_tr0 v). by constructor.
  - intros v Hv. destruct (Ein v Hv) as [Hv' Hne]. destruct (pi_res0 v Hv') as (H1 & H2 & H3 & H4 & H5 & H6).
    unfold resident. rewrite Ef, Epw, P by done. do 4 (split; [done|]). split; [|done].
    intros [Eg|?]%elem_of_cons; [|done]. apply Hne. by apply pi_frames0.
  - intros v v' Hv Hv'. rewrite !Ef by done. apply pi_frames0; by apply Ein.
  - intros j. rewrite Edv. case_decide as Hj.
    + intros _. rewrite Hj. split; [|exact Hcc']. split; [exact Hwu|].
      destruct (has_mapped _ _ _ _ HwP) as [a Ha].
      split; [exists a; rewrite A; exact Ha|exact (conj OP (conj OG Oa))].
    + intros Hd. destruct (pi_swp0 j Hd) as [(H1 & (a & H2) & H3 & H4 & H5) Hl]. split; [|lia].
      assert (disk_va pr j <> w) as Hne by (intros Ew; rewrite Ew in H3; congruence).
      split; [done|]. split; [exists a; by rewrite A|]. rewrite !Epw by done. done.
  - intros i j. rewrite !Edv. destruct (decide (i = kd)) as [->|], (decide (j = kd)) as [->|]; intros Hi Ej; try done.
    + destruct (pi_swp0 j) as [(_ & _ & H3 & _) _]; [congruence|]. rewrite <- Ej in H3. congruence.
    + destruct (pi_swp0 i) as [(_ & _ & H3 & _) _]; [congruence|]. rewrite Ej in H3. congruence.
    + by apply pi_swp_inj0.
  - intros v b [[Hv ->]|[Hn (j & Hj & ->)]].
    + destruct (decide (v = w)) as [->|Hne].
      * right. split; [done|]. exists kd. rewrite Edv, decide_True by done. split; [done|].
        by rewrite Hs1.
      * left. assert (in_mem (disk_added kd w pr) tr v) as Hv'.
        { destruct Hv as [Hn [Hs|[?|Ht]%elem_of_cons]]; [by split; [|left]|done|by split; [|right]]. }
        split; [done|]. cbn [p_pgdir disk_added set_p_pagedout set_p_pages_in_swapfile_counter set_p_disk_pg_arr].
        rewrite Ef by done. destruct (pi_res0 v Hv) as (_ & _ & _ & Hvk & _ & Hvp).
        symmetry. eapply bytes_at_evolves; try done. intros Eg%list_elem_of_singleton. apply Hne.
        by apply pi_frames0.
    + right. split; [done|]. exists j. assert (j <> kd) by congruence.
      rewrite Edv, decide_False by done. split; [done|]. rewrite Hs2; [done|done|].
      apply pi_swp0. congruence.
Qed.

End moves.

