(* ===== verification/PageFault.v ===== *)
(** * Demand paging is transparent (src/vm.c: getPageFromFile)

    The page-fault handler keeps the paging invariant, and leaves every page of the process,
    resident or swapped, with its contents, whatever the replacement scheme. *)
From Stdlib Require Import ZArith Lia.
From stdpp Require Import base list numbers strings sets.
From S2P Require Import Prelude Mmu Mem Kalloc PageTable Kstate Policy Queues Replacement Swap PteBits Uvm Uvmrun PagingInv.
Local Open Scope Z_scope.

(** ** Servicing a page fault *)

Lemma PGROUNDDOWN_page va fa : user_va va -> va <= fa < va + 4096 -> PGROUNDDOWN (u32 fa) = va.
Proof.
  intros [Hm Hr] Hfa. unfold KERNBASE in Hr.
  assert (0 <= fa < 2 ^ 32) by (Z.to_euclidean_division_equations; lia).
  rewrite u32_small, PGROUNDDOWN_div by done. Z.to_euclidean_division_equations; lia.
Qed.

Lemma length_swap_slot c j : (pgn * j + pgn <= length c)%nat -> length (swap_slot c j) = pgn.
Proof. intros H. unfold swap_slot. rewrite length_take, length_drop. lia. Qed.

Lemma swap_slot_bytes c j : Forall (fun b => 0 <= b < 256) c -> Forall (fun b => 0 <= b < 256) (swap_slot c j).
Proof. intros H. by apply Forall_take, Forall_drop. Qed.

Section fault.
Context {img : Image} {F : Type} {fsy : FileSys F} {sst : SwapStore F}.
Context {sel : selection} {rep : Replacement sel} (p : nat).
Implicit Types (s : kst F) (pr : proc).

Lemma fresh_quiet m m' pr tr l n ws :
  (forall va, in_mem pr tr va -> user_va va) ->
  fresh_frame m pr tr l n -> quiet pr tr ws m m' -> fresh_frame m' pr tr l n.
Proof.
  intros Hu (Hk & Hl & Hp & Hf) Hq. pose proof Hq as ((_ & _ & P & _) & _).
  split; [done|]. split; [done|]. split; [by rewrite P|]. intros va Hva.
  destruct (quiet_pte _ _ _ _ _ va Hq) as [-> _]; [by apply user_va_range, Hu|]. by apply Hf.
Qed.

Lemma inv_user_va km (fs : F) pr tr f l c va :
  paging_inv km fs pr tr f l c -> in_mem pr tr va -> user_va va.
Proof. intros Hi Hva. by destruct (pi_res _ _ _ _ _ _ _ Hi va Hva). Qed.

Lemma first_free_exists km (fs : F) pr tr f l c :
  paging_inv km fs pr tr f l c -> p_pages_in_memory_counter pr < 16 -> exists i, first_free pr i.
Proof.
  intros [] Hc. rewrite pi_mem_count in Hc. destruct (used_free (vas (p_memory_pg_arr pr))) as (i & Hi & Hlow).
  { unfold vas at 2. rewrite length_map, pi_mem_len. unfold MAX_PSYC_PAGES. lia. }
  exists i. by split.
Qed.

(** What is known of a page that is in the swap file. *)
Lemma inv_swapped_pte km (fs : F) pr tr f l c j :
  paging_inv km fs pr tr f l c -> disk_va pr j <> NOVA ->
  exists a, user_va (disk_va pr j) /\ pte_addr (km_mem km) (p_pgdir pr) (disk_va pr j) = Some a /\
    has (pte_val (km_mem km) (p_pgdir pr) (disk_va pr j)) PTE_P = false /\
    PTE_ADDR (pte_val (km_mem km) (p_pgdir pr) (disk_va pr j)) = 0 /\
    (j < MAX_PSYC_PAGES)%nat /\ (pgn * j + pgn <= length c)%nat /\ pt_wf (km_mem km) (p_pgdir pr).
Proof.
  intros [] Hj. destruct (pi_swp j Hj) as [(Hu & (a & Ha) & HP & _ & Had) Hl]. exists a.
  do 4 (split; [done|]). split; [rewrite <- pi_disk_len; by apply disk_va_lt|]. split; [done|]. apply pi_vm.
Qed.

(** The frame of the page that [m'] maps at [va] after fixPagedInPTE. *)
Lemma paged_in_mapped m m' pgdir va n :
  user_va va -> PTE_ADDR (pte_val m pgdir va) = 0 -> kpage n ->
  pte_updated pgdir m m' va (paged_in (pte_val m pgdir va) (V2P n)) ->
  has (pte_val m' pgdir va) PTE_P = true /\ has (pte_val m' pgdir va) PTE_W = true /\ frame m' pgdir va = n.
Proof.
  intros Hu Ha Hn U. destruct (paged_in_frame _ n (pte_val_range m pgdir va) Ha Hn) as (Fn & FP & FW).
  unfold frame. rewrite (pte_updated_val _ _ _ _ _ (proj1 (user_va_range _ Hu)) U). done.
Qed.

(** What a process keeps when its pages move *)
Definition proc_kept (pr pr' : proc) : Prop :=
  p_pgdir pr' = p_pgdir pr /\ p_sz pr' = p_sz pr /\ p_state pr' = p_state pr /\ p_pid pr' = p_pid pr /\
  p_killed pr' = p_killed pr /\ p_tf pr' = p_tf pr /\ p_fault_counter pr' = p_fault_counter pr.

(** The state after the fault: the page is resident, all pages have their contents. *)
Definition fault_done (pr : proc) (f : nat) (c : list Z) (va : Z) (m : mem) (st : kst F) : Prop :=
  exists pr' l' c', k_procs st !! p = Some pr' /\ paging_inv (k_mem st) (k_fs st) pr' [] f l' c' /\
    (exists i, slot_va pr' i = va) /\ (proc_kept pr pr' /\ k_cur st = Some p) /\ k_cr3 st = V2P (p_pgdir pr) /\
    (forall w b, page_is m pr [] c w b -> page_is (kmm st) pr' [] c' w b).

(** With a free slot, the page is read straight to its address. *)
Lemma page_in_direct s pr f l c n j :
  (p < length (k_procs s))%nat -> k_cur s = Some p ->
  paging_inv (k_mem s) (k_fs s) pr [] f l c -> fresh_frame (kmm s) pr [] l n ->
  disk_va pr j <> NOVA -> p_pages_in_memory_counter pr < 16 ->
  wp (fixPagedInPTE (disk_va pr j) (V2P n) (p_pgdir pr) ;;;
      readPageFromFile sel p (disk_va pr j) (disk_va pr j) ;;; ret 1)
    (fun r st => r = 1 /\ fault_done pr f c (disk_va pr j) (kmm s) st) (setp p pr s).
Proof.
  intros Hlen Hcur Hinv Hfr Hj Hcnt. pose proof Hfr as (Hnk & _ & Hnp & _).
  destruct (inv_swapped_pte _ _ _ _ _ _ _ _ Hinv Hj) as (a & Hu & Ha & HP & Had & Hj16 & Hjc & Hwf).
  destruct (first_free_exists _ _ _ _ _ _ _ Hinv Hcnt) as [i Hi].
  pose proof (proj1 (user_va_range _ Hu)) as Hur. pose proof (pi_swp_inj _ _ _ _ _ _ _ Hinv) as Hinj.
  set (va := disk_va pr j) in *. kstep.
  eapply on_fixPagedInPTE; [done|done|done|exact Ha|done|done|by apply V2P_kpage|].
  intros m3 U. pose proof U as [(W3 & A3 & P3 & O3) _].
  destruct (paged_in_mapped _ _ _ _ n Hu Had Hnk U) as (FP & FW & Fn).
  set (s3 := set_k_cr3 _ _). assert (kmm s3 = m3) as Em by done.
  kstep. eapply (on_readPageFromFile p s3 pr va va n j i f c); try done.
  - apply (pi_disk_len _ _ _ _ _ _ _ Hinv).
  - apply (pi_mem_len _ _ _ _ _ _ _ Hinv).
  - intros k Hk E. assert (j = k) by (apply Hinj; [done|by symmetry]). lia.
  - apply (pi_swapfile _ _ _ _ _ _ _ Hinv).
  - apply (pi_content _ _ _ _ _ _ _ Hinv).
  - apply (pi_rp _ _ _ _ _ _ _ Hinv).
  - intros fs pr'. replace va with (va + 0) at 1 by lia.
    rewrite (kwrite_page _ (p_pgdir pr)); [|done|done|apply Hu|apply Hu|lia| |done|done| |].
    + change (kmm (setp p pr' (set_k_fs fs s3))) with m3. rewrite Fn, Z.add_0_r, Em. done.
    + rewrite length_swap_slot by done. lia.
    + change (kmm (setp p pr' (set_k_fs fs s3))) with m3. rewrite Fn. by destruct Hnk.
    + change (kmm (setp p pr' (set_k_fs fs s3))) with m3. by rewrite Fn, P3.
  - intros fs' pr' Hcs He Hrp. kstep. split; [done|]. rewrite Em.
    assert (length (swap_slot c j) = pgn) as Hls by (by apply length_swap_slot).
    destruct (evolves_page (p_pgdir pr) m3 (st_bytes m3 n (swap_slot c j)) n) as [Hev Hpv];
      [done|done|by rewrite P3| |].
    { intros x Hx. apply ld8_st_bytes_out. rewrite Hls. lia. }
    pose proof (evolves_trans _ _ _ _ _ _ (evolves_view _ _ _ (proj1 U)) Hev) as Hev'. simpl in Hev'.
    destruct (inv_page_in (k_mem s) (k_fs s) fs' pr pr' [] f l c j i n va (default_age sel)
      (st_bytes m3 n (swap_slot c j))) as [Hinv' Hpg]; try done.
    { intros v Hv. rewrite Hpv. by apply U. }
    { rewrite <- Hls. apply bytes_at_st_bytes, swap_slot_bytes, (pi_bytes _ _ _ _ _ _ _ Hinv). }
    exists pr', l, c. pose proof He as (_ & _ & Epr).
    split; [by apply lookup_setp|]. split; [exact Hinv'|]. split.
    { exists i. rewrite (slot_va_entered i va (default_age sel) (disk_removed j pr) pr' i); [|by apply first_free_lt|done].
      by rewrite decide_True. }
    split; [split; [rewrite Epr; by repeat split|done]|]. split; [done|]. exact Hpg.
Qed.

Lemma fresh_vacate m pr pr' v tr l n : relinked pr pr' -> slot_va pr v <> NOVA ->
  fresh_frame m pr tr l n -> fresh_frame m (vacate v pr') (slot_va pr v :: tr) l n.
Proof.
  intros Hrel Hv (Hk & Hl & Hp & Hf). pose proof (pgdir_relinked _ _ Hrel) as Epd.
  unfold fresh_frame. simpl. rewrite Epd. do 3 (split; [done|]).
  intros va Hva. apply Hf. by eapply in_mem_vacate.
Qed.

Lemma cleared_quiet pr tr m m' vs : pt_wf m' (p_pgdir pr) -> cleared (p_pgdir pr) m m' vs -> quiet pr tr [] m m'.
Proof.
  intros W Hcl. split; [by apply evolves_view, (cleared_view _ _ _ vs)|]. split.
  - intros va Hva. destruct Hcl as (_ & _ & Hv & _). rewrite Hv by done.
    destruct (bool_decide _); [by right|by left].
  - intros va _. apply not_elem_of_nil.
Qed.

Lemma inv_full km (fs : F) pr tr f l c i :
  paging_inv km fs pr tr f l c -> 16 <= p_pages_in_memory_counter pr -> (i < MAX_PSYC_PAGES)%nat ->
  slot_va pr i <> NOVA.
Proof.
  intros [] Hc Hi. pose proof (used_le (vas (p_memory_pg_arr pr))) as Hle.
  assert (length (vas (p_memory_pg_arr pr)) = MAX_PSYC_PAGES) as El by (unfold vas; by rewrite length_map).
  apply used_full; [|by rewrite El]. unfold MAX_PSYC_PAGES in *. lia.
Qed.

Lemma inv_resident_pages km (fs : F) pr tr f l c :
  paging_inv km fs pr tr f l c -> resident_pages (km_mem km) pr.
Proof.
  intros []. split; [|done]. intros i Hi. destruct (pi_res (slot_va pr i)) as (Hu & HP & _).
  { split; [done|left; by exists i]. }
  split; [apply Hu|]. split; [by apply user_va_range|done].
Qed.

(** The slot given up by the victim is the only free one. *)
Lemma first_free_vacate pr pr' v :
  relinked pr pr' -> (v < MAX_PSYC_PAGES)%nat -> length (p_memory_pg_arr pr) = MAX_PSYC_PAGES ->
  (forall i, (i < MAX_PSYC_PAGES)%nat -> slot_va pr i <> NOVA) -> first_free (vacate v pr') v.
Proof.
  intros Hrel Hv H16 Hfull. assert (length (p_memory_pg_arr (vacate v pr')) = MAX_PSYC_PAGES) as Hl.
  { simpl. rewrite length_alter, <- H16. destruct Hrel as (_ & E & _). apply (f_equal length) in E.
    unfold vas in E. by rewrite !length_map in E. }
  split.
  - rewrite vas_lookup by lia. by rewrite slot_va_vacate, decide_True.
  - intros j Hj. exists (slot_va (vacate v pr') j). split; [apply vas_lookup; lia|].
    rewrite slot_va_vacate, decide_False, (slot_va_relinked _ _ _ Hrel) by lia. apply Hfull. lia.
Qed.

Lemma first_free_disk pr j :
  length (p_disk_pg_arr pr) = MAX_PSYC_PAGES -> (j < MAX_PSYC_PAGES)%nat -> disk_va pr j = NOVA ->
  exists k, (k <= j)%nat /\ disk_va pr k = NOVA /\ forall i, (i < k)%nat -> disk_va pr i <> NOVA.
Proof.
  intros H16 Hj Hd. destruct (used_free (disk_vas pr)) as (k & Hk & Hlow).
  { pose proof (used_insert (disk_vas pr) j NOVA 0) as E. rewrite <- Hd in E at 1.
    specialize (E (disk_va_lookup pr j ltac:(lia))). unfold used1 in E. simpl in E.
    pose proof (used_le (<[j := 0]> (disk_vas pr))) as Hle. rewrite length_insert in Hle. lia. }
  assert (forall i, (i < k)%nat -> disk_va pr i <> NOVA) as Hlow'.
  { intros i Hi. destruct (Hlow i Hi) as (x & Hx & Hn). unfold disk_va. by rewrite Hx. }
  exists k. split; [|split; [unfold disk_va; by rewrite Hk|done]].
  destruct (Nat.le_gt_cases k j); [done|]. by destruct (Hlow' j).
Qed.

(** memmove from the buffer to a frame. *)
Lemma bytes_at_memmove m n src : 
  bytes_at (memmove m n src PGSIZE) n pgn = bytes_at m src pgn.
Proof.
  apply list_eq. intros i. destruct (Nat.lt_ge_cases i pgn).
  - rewrite !lookup_bytes_at, ld8_memmove by done. unfold PGSIZE. zcase. do 2 f_equal. lia.
  - rewrite !lookup_ge_None_2 by (rewrite length_bytes_at; lia). done.
Qed.

(** The page in transit is written to the swap file and its frame freed. *)
Lemma page_swap_out s pr f l c w j :
  (p < length (k_procs s))%nat -> k_cur s = Some p ->
  paging_inv (k_mem s) (k_fs s) pr [w] f l c -> k_cr3 s = V2P (p_pgdir pr) ->
  (j < MAX_PSYC_PAGES)%nat -> disk_va pr j = NOVA -> (pgn * j + pgn <= length c)%nat ->
  wp (writePageToFile p w (p_pgdir pr) ;;; fixPagedOutPTE (p_pgdir pr) w false ;;;
      inmem (kfree (frame (kmm s) (p_pgdir pr) w)) ;;; ret 1)
    (fun r st => r = 1 /\ exists pr' l' c', k_procs st !! p = Some pr' /\
       paging_inv (k_mem st) (k_fs st) pr' [] f l' c' /\ (forall i, slot_va pr' i = slot_va pr i) /\
       (proc_kept pr pr' /\ k_cur st = Some p) /\ k_cr3 st = V2P (p_pgdir pr) /\
       (forall v b, page_is (kmm s) pr [w] c v b -> page_is (kmm st) pr' [] c' v b))
    (setp p pr s).
Proof.
  intros Hlen Hcur Hinv Hcr Hj Hdj Hjc.
  destruct (pi_tr _ _ _ _ _ _ _ Hinv w) as [Hwn _]; [by constructor|].
  assert (in_mem pr [w] w) as Hwin by (split; [done|right; by constructor]).
  destruct (pi_res _ _ _ _ _ _ _ Hinv w Hwin) as (Hwu & HwP & _ & Hgk & _).
  pose proof (pi_vm _ _ _ _ _ _ _ Hinv) as (_ & Hwf & _).
  pose proof (proj1 (user_va_range _ Hwu)) as Hwr. destruct (has_mapped _ _ _ _ HwP) as [a Ha].
  destruct (first_free_disk pr j (pi_disk_len _ _ _ _ _ _ _ Hinv) Hj Hdj) as (k & Hkj & Hdk & Hlow).
  set (g := frame (kmm s) (p_pgdir pr) w). kstep.
  assert (kbytes (setp p pr s) w pgn = Some (bytes_at (kmm s) g pgn)) as Hkb.
  { rewrite <- (Z.add_0_r w), (kbytes_page (setp p pr s) (p_pgdir pr));
      [by rewrite !Z.add_0_r|exact Hcr|apply Hwf|apply Hwu|apply Hwu|lia|lia|exact HwP]. }
  eapply (on_writePageToFile p s pr w (p_pgdir pr) k f c (bytes_at (kmm s) g pgn));
    [done|apply (pi_disk_len _ _ _ _ _ _ _ Hinv)|lia|exact Hdk|exact Hlow|
     apply (pi_swapfile _ _ _ _ _ _ _ Hinv)|apply (pi_content _ _ _ _ _ _ _ Hinv)|lia|
     rewrite page_growth_in by lia; apply room_0|exact Hkb|apply length_bytes_at|].
  intros fs' Hc'. set (pr4 := disk_added k w pr).
  kstep. eapply (on_fixPagedOutPTE p (set_k_fs fs' s) pr4); [done|done|exact Hwf|exact Ha|done|].
  intros m6 [Hvc Hpv]. destruct (pi_res _ _ _ _ _ _ _ Hinv w Hwin) as (_ & _ & _ & _ & Hgl & Hgp).
  destruct (kfree_evolves (k_mem s) (p_pgdir pr) l m6 g (pi_vm _ _ _ _ _ _ _ Hinv) Hvc Hgk Hgl Hgp)
    as (km' & Ek & Hvm' & Hev & Hpv').
  destruct (paged_out_spec _ (pte_val_range (kmm s) (p_pgdir pr) w)) as (_ & Oa & OP & OG).
  assert (pte_val (km_mem km') (p_pgdir pr) w = paged_out (pte_val (kmm s) (p_pgdir pr) w)) as Epww.
  { rewrite Hpv', Hpv by done. by rewrite Z.eqb_refl. }
  destruct (inv_page_out (k_mem s) km' (k_fs s) fs' pr [] f l c k w) as [Hinv' Hpg];
    [done|apply not_elem_of_nil|lia|done|lia|exact Hc'|exact Hvm'|exact Hev| |by rewrite Epww..|].
  { intros v Hv Hne. rewrite Hpv', Hpv by (by apply user_va_range). by rewrite user_va_page. }
  kstep. eapply wp_inmem; [exact Ek|]. kstep. split; [done|].
  exists pr4, (g :: l), (splice (pgn * k) (bytes_at (kmm s) g pgn) c).
  split; [by apply lookup_setp|]. split; [exact Hinv'|]. split; [done|]. split; [done|]. split; [done|].
  exact Hpg.
Qed.

Lemma getPagePAddr_mapped va pgdir km a :
  pt_wf (km_mem km) pgdir -> pte_addr (km_mem km) pgdir va = Some a ->
  getPagePAddr va pgdir km = Ret (PTE_ADDR (pte_val (km_mem km) pgdir va)) km.
Proof.
  intros Hwf Ha. destruct (pte_addr_nonzero _ _ _ _ Hwf Ha) as [Hnz _].
  unfold getPagePAddr, bind, gets, pte_val. rewrite (walkpgdir_present _ _ _ _ _ Ha).
  by rewrite (proj2 (Z.eqb_neq a 0) Hnz), Ha.
Qed.

(** The page is read into the buffer, entered in the free slot and copied to its frame; [k] is
    what follows. *)
Lemma page_swap_in {A} s pr w f l c n j i (k : Z -> M (kst F) A) (Q : A -> kst F -> Prop) :
  (p < length (k_procs s))%nat -> k_cur s = Some p ->
  paging_inv (k_mem s) (k_fs s) pr [w] f l c -> fresh_frame (kmm s) pr [w] l n ->
  disk_va pr j <> NOVA -> first_free pr i ->
  (forall m5 fs' pr', paging_inv (set_km_mem m5 (k_mem s)) fs' pr' [w] f l c ->
     entered i (disk_va pr j) (default_age sel) (disk_removed j pr) pr' ->
     (forall v b, page_is (kmm s) pr [w] c v b -> page_is m5 pr' [w] c v b) ->
     wp (k (PTE_ADDR (pte_val m5 (p_pgdir pr) w))) Q
       (setp p pr' (set_k_fs fs' (upd_mem m5 (set_k_cr3 (V2P (p_pgdir pr)) s))))) ->
  wp (fixPagedInPTE (disk_va pr j) (V2P n) (p_pgdir pr) ;;;
      readPageFromFile sel p (disk_va pr j) kbuff ;;;
      let! out := inmem (getPagePAddr w (p_pgdir pr)) in
      kmemmove n kbuff PGSIZE ;;; k out) Q (setp p pr s).
Proof.
  intros Hlen Hcur Hinv Hfr Hj Hi HQ. pose proof Hfr as (Hnk & _ & Hnp & _).
  destruct (inv_swapped_pte _ _ _ _ _ _ _ _ Hinv Hj) as (a & Hu & Ha & HP & Had & Hj16 & Hjc & Hwf).
  pose proof (proj1 (user_va_range _ Hu)) as Hur. pose proof (pi_swp_inj _ _ _ _ _ _ _ Hinv) as Hinj.
  destruct (kpage_kbuff n Hnk) as [Hkb _]. pose proof (proj1 (kpage_pos _ Hnk)) as Hnpos.
  set (va := disk_va pr j) in *. kstep.
  eapply on_fixPagedInPTE; [done|done|done|exact Ha|done|done|by apply V2P_kpage|].
  intros m3 U. pose proof U as [(W3 & A3 & P3 & O3) E3]. set (s3 := set_k_cr3 _ _).
  assert (length (swap_slot c j) = pgn) as Hls by (by apply length_swap_slot).
  kstep. eapply (on_readPageFromFile p s3 pr va kbuff kbuff j i f c); [done|
    apply (pi_disk_len _ _ _ _ _ _ _ Hinv)|apply (pi_mem_len _ _ _ _ _ _ _ Hinv)|done|done| |done|
    apply (pi_swapfile _ _ _ _ _ _ _ Hinv)|apply (pi_content _ _ _ _ _ _ _ Hinv)|done|
    apply (pi_rp _ _ _ _ _ _ _ Hinv)|done| |].
  { intros k' Hk E. assert (j = k') by (apply Hinj; [done|by symmetry]). lia. }
  { intros fs pr'. by rewrite kwrite_kern. }
  intros fs' pr' Hcs He Hrp. change (kmm s3) with m3. set (m4 := st_bytes m3 kbuff (swap_slot c j)).
  destruct (evolves_buff (p_pgdir pr) m3 m4) as [Hev4 Hpv4]; [done| |].
  { intros x Hx. apply ld8_st_bytes_out. rewrite Hls. lia. }
  pose proof Hev4 as (W4 & A4 & P4 & _).
  destruct (evolves_page (p_pgdir pr) m4 (memmove m4 n kbuff PGSIZE) n) as [Hev5 Hpv5];
    [done|done|by rewrite P4, P3| |].
  { intros x Hx. rewrite ld8_memmove by done. unfold PGSIZE. zcase. }
  pose proof (evolves_trans _ _ _ _ _ _ (evolves_trans _ _ _ _ _ _ (evolves_view _ _ _ (proj1 U)) Hev4) Hev5) as Hev.
  assert (bytes_at (memmove m4 n kbuff PGSIZE) n pgn = swap_slot c j) as Hb.
  { rewrite bytes_at_memmove. rewrite <- Hls at 1. apply bytes_at_st_bytes, swap_slot_bytes,
      (pi_bytes _ _ _ _ _ _ _ Hinv). }
  assert (in_mem pr [w] w) as Hwin.
  { destruct (pi_tr _ _ _ _ _ _ _ Hinv w); [by constructor|]. split; [done|right; by constructor]. }
  destruct (pi_res _ _ _ _ _ _ _ Hinv w Hwin) as (Hwu & HwP & _).
  destruct (has_mapped _ _ _ _ HwP) as [aw Haw].
  assert (pte_addr m4 (p_pgdir pr) w = Some aw) as Haw4 by (by rewrite A4, A3).
  kstep. eapply wp_inmem; [apply (getPagePAddr_mapped _ _ (set_km_mem m4 (k_mem s)) aw); [exact W4|exact Haw4]|].
  kstep. unfold kmemmove. rewrite (proj2 (Z.leb_le _ _)) by lia. rewrite (proj2 (Z.leb_le _ _)) by lia.
  cbn [andb]. apply wp_modify.
  destruct (inv_page_in (k_mem s) (k_fs s) fs' pr pr' [w] f l c j i n va (default_age sel)
    (memmove m4 n kbuff PGSIZE)) as [Hinv' Hpg]; [done|done|done|done|done|exact Hev| |exact Hb|done|done|apply Hcs|].
  { intros v Hv. rewrite Hpv5, Hpv4. by apply E3. }
  cbn [km_mem set_km_mem]. rewrite <- Hpv5.
  apply (HQ (memmove m4 n kbuff PGSIZE) fs' pr'); [exact Hinv'|done|exact Hpg].
Qed.

(** With all slots in use, a victim is exchanged for the page. *)
Lemma page_exchange s pr f l c n j :
  (p < length (k_procs s))%nat -> k_cur s = Some p ->
  paging_inv (k_mem s) (k_fs s) pr [] f l c -> fresh_frame (kmm s) pr [] l n ->
  disk_va pr j <> NOVA -> 16 <= p_pages_in_memory_counter pr ->
  (exists i, (i < MAX_PSYC_PAGES)%nat /\ has (pte_val (kmm s) (p_pgdir pr) (slot_va pr i)) PTE_U = true) ->
  wp (let! to_remove := select_page_to_remove sel p in
      let! va := get_va p to_remove in
      put_va p to_remove NOVA ;;;
      updp p (fun pr => set_p_pages_in_memory_counter (p_pages_in_memory_counter pr - 1) pr) ;;;
      fixPagedInPTE (disk_va pr j) (V2P n) (p_pgdir pr) ;;;
      readPageFromFile sel p (disk_va pr j) kbuff ;;;
      let! outPagePAddr := inmem (getPagePAddr va (p_pgdir pr)) in
      kmemmove n kbuff PGSIZE ;;;
      writePageToFile p va (p_pgdir pr) ;;;
      fixPagedOutPTE (p_pgdir pr) va false ;;;
      inmem (kfree (P2V outPagePAddr)) ;;;
      ret 1)
    (fun r st => r = 1 /\ fault_done pr f c (disk_va pr j) (kmm s) st) (setp p pr s).
Proof.
  intros Hlen Hcur Hinv Hfr Hj Hcnt HU. pose proof (pi_vm _ _ _ _ _ _ _ Hinv) as (_ & Hwf & _).
  pose proof (pi_mem_len _ _ _ _ _ _ _ Hinv) as H16.
  assert (forall i, (i < MAX_PSYC_PAGES)%nat -> slot_va pr i <> NOVA) as Hfull.
  { intros i Hi. by eapply inv_full. }
  destruct (inv_swapped_pte _ _ _ _ _ _ _ _ Hinv Hj) as (_ & _ & _ & _ & _ & Hj16 & Hjc & _).
  destruct (rp_select p s pr Hlen Hcur Hwf H16 (pi_rp _ _ _ _ _ _ _ Hinv) (inv_resident_pages _ _ _ _ _ _ _ Hinv)
    Hfull HU) as (v & pr1 & m1 & vs & Esel & Hv & Hrel & Hwf1 & Hcl & Hrp).
  pose proof (Hfull v Hv) as Hvn. pose proof (cleared_quiet pr [] (kmm s) m1 vs Hwf1 Hcl) as Hq.
  destruct (inv_quiet _ _ (k_fs s) _ _ _ _ _ _ m1 Hinv Hq) as [Hinv1 Hpg1]; [intros ? _; apply not_elem_of_nil|apply (pi_content _ _ _ _ _ _ _ Hinv)|].
  destruct (inv_vacate _ _ _ _ v _ _ _ _ Hinv1 Hrel Hvn Hrp) as [Hinv2 Hpg2].
  assert (fresh_frame m1 (vacate v pr1) [slot_va pr v] l n) as Hfr2.
  { apply fresh_vacate; [done..|]. eapply fresh_quiet; [|exact Hfr|exact Hq].
    intros ? Hin. exact (inv_user_va _ _ _ _ _ _ _ _ Hinv Hin). }
  pose proof (first_free_vacate _ _ v Hrel Hv H16 Hfull) as Hff.
  set (pr2 := vacate v pr1) in *. assert (p_pgdir pr2 = p_pgdir pr) as Epd by apply (pgdir_relinked _ _ Hrel).
  assert (disk_va pr2 j = disk_va pr j) as Edj.
  { unfold disk_va, disk_vas. simpl. destruct Hrel as (-> & _). done. }
  assert (v < length (p_memory_pg_arr pr1))%nat as Hvl.
  { destruct Hrel as (_ & E & _). apply (f_equal length) in E. unfold vas in E. rewrite !length_map in E. lia. }
  kstep. eapply wp_intro; [exact Esel|]. kstep. eapply (on_get_va p (upd_mem m1 s)); [done| |].
  { rewrite (proj1 (proj2 Hrel)). by apply slot_va_lookup. }
  set (w := slot_va pr v) in *. kstep. eapply (on_fp_modify p (upd_mem m1 s)); [done|done|]. kstep. apply on_updp; [done|].
  change (set_p_pages_in_memory_counter _ _) with pr2. rewrite <- Epd, <- Edj in *. cbv beta.
  eapply (page_swap_in (upd_mem m1 s) pr2 w f l c n j v
    (fun out => writePageToFile p w (p_pgdir pr2) ;;; fixPagedOutPTE (p_pgdir pr2) w false ;;;
       inmem (kfree (P2V out)) ;;; ret 1)); [done|done|done|done|done|done|].
  intros m5 fs' pr3 Hinv3 He Hpg3. pose proof He as (_ & _ & Epr3).
  assert (p_pgdir pr3 = p_pgdir pr2) as Epd3 by (rewrite Epr3; reflexivity). rewrite <- Epd3.
  eapply wp_mono; [eapply (page_swap_out (set_k_fs fs' (upd_mem m5 (set_k_cr3 (V2P (p_pgdir pr3)) s))) pr3 f l c w j);
    [done|done|exact Hinv3|done|done| |done]|].
  { destruct (page_in_tables v j (disk_va pr2 j) (default_age sel) pr2 pr3 [w]) as (_ & _ & _ & Edv & _);
      [by apply first_free_lt|by apply first_free_unused|by apply disk_va_lt|done|done|].
    by rewrite Edv, decide_True. }
  intros r st (-> & pr' & l' & c' & Hp' & Hinv' & Esl & Epd' & Hcr & Hpg'). split; [done|].
  exists pr', l', c'. split; [done|]. split; [done|]. split; [|split; [|split]].
  - exists v. rewrite Esl, (slot_va_entered v (disk_va pr2 j) (default_age sel) (disk_removed j pr2) pr3 v); [|by apply first_free_lt|done].
    by rewrite decide_True.
  - destruct Epd' as [Hk Hc']. split; [|done]. rewrite Epr3 in Hk. destruct Hrel as (Er & _). unfold pr2 in Hk. rewrite Er in Hk. exact Hk.
  - rewrite Hcr. f_equal. congruence.
  - intros x b Hx. by apply Hpg', Hpg3, Hpg2, Hpg1.
Qed.

(** A frame is taken and zeroed. *)
Lemma inv_zero_frame km (fs : F) pr tr f n l c :
  paging_inv km fs pr tr f (n :: l) c ->
  exists km1, kalloc km = Ret n km1 /\ KERNBASE <= n /\
    let m2 := memset (km_mem km1) n 0 PGSIZE in
    paging_inv (set_km_mem m2 km1) fs pr tr f l c /\ fresh_frame m2 pr tr l n /\
    (forall va b, page_is (km_mem km) pr tr c va b -> page_is m2 pr tr c va b) /\
    (forall va, pte_val m2 (p_pgdir pr) va = pte_val (km_mem km) (p_pgdir pr) va) /\
    bytes_at m2 n pgn = replicate pgn 0.
Proof.
  intros Hinv. destruct (inv_kalloc _ _ _ _ _ _ _ _ Hinv) as (km1 & Ek & Em1 & Hinv1 & Hfr1).
  pose proof Hfr1 as (Hnk & Hnl & Hnp & Hnf). pose proof (proj1 (kpage_pos _ Hnk)) as Hnpos.
  pose proof (pi_vm _ _ _ _ _ _ _ Hinv1) as (_ & Hwf1 & _).
  exists km1. split; [exact Ek|]. split; [lia|]. intros m2.
  destruct (evolves_page (p_pgdir pr) (km_mem km1) m2 n) as [Hev Hpv]; [done..| |].
  { intros x Hx. unfold m2. rewrite ld8_memset by done. unfold PGSIZE. zcase. }
  assert (quiet pr tr [n] (km_mem km1) m2) as Hq.
  { split; [done|]. split; [intros; left; apply Hpv|].
    intros v Hv E%list_elem_of_singleton. by apply (Hnf v). }
  destruct (inv_quiet _ _ fs _ _ _ _ _ _ m2 Hinv1 Hq) as [Hinv2 Hpg2];
    [by intros q Hql ->%list_elem_of_singleton|apply (pi_content _ _ _ _ _ _ _ Hinv1)|].
  rewrite Em1 in *. split; [exact Hinv2|]. split; [|split; [exact Hpg2|split; [exact Hpv|]]].
  - eapply fresh_quiet; [|exact Hfr1|exact Hq]. intros ? Hin. exact (inv_user_va _ _ _ _ _ _ _ _ Hinv Hin).
  - apply list_eq. intros i. destruct (Nat.lt_ge_cases i pgn).
    + rewrite lookup_bytes_at, lookup_replicate_2 by done. unfold m2. rewrite ld8_memset by done. unfold PGSIZE. zcase.
    + rewrite !lookup_ge_None_2 by (rewrite ?length_bytes_at, ?length_replicate; lia). done.
Qed.

Lemma getPageFromFile_spec s pr f n l c j fa :
  k_procs s !! p = Some pr -> k_cur s = Some p ->
  paging_inv (k_mem s) (k_fs s) pr [] f (n :: l) c ->
  disk_va pr j <> NOVA -> disk_va pr j <= fa < disk_va pr j + 4096 ->
  (16 <= p_pages_in_memory_counter pr -> exists i, (i < MAX_PSYC_PAGES)%nat /\
     has (pte_val (kmm s) (p_pgdir pr) (slot_va pr i)) PTE_U = true) ->
  wp (getPageFromFile sel fa) (fun r st => r = 1 /\ fault_done pr f c (disk_va pr j) (kmm s) st) s.
Proof.
  intros Hpr Hcur Hinv Hj Hfa HU. pose proof (lookup_lt_Some _ _ _ Hpr) as Hlen.
  destruct (inv_swapped_pte _ _ _ _ _ _ _ _ Hinv Hj) as (_ & Hu & _).
  destruct (inv_zero_frame _ _ _ _ _ _ _ _ Hinv) as (km1 & Ek & Hnpos & Hinv2 & Hfr2 & Hpg2 & Hpv & _).
  set (m2 := memset (km_mem km1) n 0 PGSIZE) in *.
  set (s2 := set_k_cr3 (V2P (p_pgdir pr)) (set_k_mem (set_km_mem m2 km1) s)).
  unfold getPageFromFile, myproc. kstep. kstep. cbn [gets]. rewrite Hcur. rewrite (PGROUNDDOWN_page _ _ Hu Hfa).
  kstep. eapply wp_inmem; [exact Ek|]. kstep. unfold kmemset. rewrite (proj2 (Z.leb_le _ _)) by lia.
  apply wp_modify. kstep. rewrite <- (setp_id p pr s Hpr).
  eapply (on_reload_cr3 p (set_k_mem (set_km_mem m2 km1) s)); [done|done|].
  kstep. apply on_getp; [done|].
  assert (forall st, fault_done pr f c (disk_va pr j) m2 st -> fault_done pr f c (disk_va pr j) (kmm s) st) as Hmono.
  { intros st (pr' & l' & c' & H1 & H2 & H3 & H4 & H5 & H6). exists pr', l', c'. do 5 (split; [done|]).
    intros w b Hb. by apply H6, Hpg2. }
  change (Z.of_nat MAX_PSYC_PAGES) with 16. destruct (Z.leb_spec 16 (p_pages_in_memory_counter pr)) as [H16|H16].
  - eapply wp_mono; [apply (page_exchange s2 pr f l c n j); try done|].
    + destruct (HU H16) as (i & Hi & Hub). exists i. split; [done|]. change (kmm s2) with m2.
      rewrite Hpv. exact Hub.
    + intros r st [-> H]. split; [done|]. by apply Hmono.
  - eapply wp_mono; [apply (page_in_direct s2 pr f l c n j); done|].
    intros r st [-> H]. split; [done|]. by apply Hmono.
Qed.

End fault.
