(* ===== verification/Grow.v ===== *)
(** * Growing a process that pages (src/vm.c: allocuvm, moveram_to_disk, insert_to_disk)

    allocuvm maps zeroed pages at the end of the address space; when the table of resident pages
    is full it first moves a page to the swap file.  The paging invariant is kept, the pages of
    the process keep their contents and the new ones are zero. *)
From Stdlib Require Import ZArith Lia.
From stdpp Require Import base list numbers strings sets.
From S2P Require Import Prelude Mmu Mem Kalloc PageTable Kstate Policy Queues Replacement Swap PteBits Uvm.
From S2P Require Import Uvmrun PagingInv PageFault.
Local Open Scope Z_scope.

(** ** A new page is mapped *)

Section map_page.
Context {img : Image} {F : Type} {fsy : FileSys F} {sst : SwapStore F}.
Context {sel : selection} {rep : Replacement sel}.

Definition PTE_WU : Z := Z.lor PTE_W PTE_U.

Lemma map_entry_paged_in n : kpage n -> map_entry (V2P n) PTE_WU 0 = paged_in 0 (V2P n).
Proof.
  intros Hn. destruct (V2P_kpage n Hn) as (Hr & _). unfold map_entry, paged_in.
  rewrite Z.mul_0_r, Z.add_0_r, (u32_small (V2P n)) by done. rewrite <- Z.lor_assoc.
  change (Z.lor PTE_WU PTE_P) with 7. rewrite u32_small by (apply lor_word; lia). by rewrite Z.lor_comm.
Qed.

Lemma pte_val_nonzero m pgdir va : pte_val m pgdir va <> 0 -> exists a, pte_addr m pgdir va = Some a.
Proof. unfold pte_val. destruct (pte_addr m pgdir va); [eauto|done]. Qed.

(** What a growing page table leaves alone: the entries of the pages of the process, and frames
    that are neither free nor part of the table. *)
Lemma grow_bytes pgdir km l km' l' q :
  vm_grow pgdir km l km' l' -> kpage q -> (q ∉ l) -> ~ pt_page (km_mem km) pgdir q ->
  bytes_at (km_mem km') q pgn = bytes_at (km_mem km) q pgn /\ (q ∉ l') /\ ~ pt_page (km_mem km') pgdir q.
Proof.
  intros (_ & (tk & -> & P) & O) [Hm _] Hl Hp. rewrite elem_of_app in Hl. split; [|split; [tauto|]].
  - apply bytes_at_ext. intros x Hx. apply (O q); [done| |done|lia]. rewrite elem_of_app. tauto.
  - rewrite P. tauto.
Qed.

Lemma inv_map_page km km' (fs : F) pr tr f l l' c a n :
  paging_inv km fs pr tr f l c -> vm_grow (p_pgdir pr) km l km' l' -> user_va a ->
  pte_val (km_mem km) (p_pgdir pr) a = 0 -> fresh_frame (km_mem km) pr tr l n ->
  (forall v, 0 <= v < 2 ^ 32 -> pte_val (km_mem km') (p_pgdir pr) v =
     if v / 4096 =? a / 4096 then map_entry (V2P n) PTE_WU 0 else pte_val (km_mem km) (p_pgdir pr) v) ->
  paging_inv km' fs pr (a :: tr) f l' c /\
  (forall va b, page_is (km_mem km) pr tr c va b -> page_is (km_mem km') pr (a :: tr) c va b) /\
  page_is (km_mem km') pr (a :: tr) c a (bytes_at (km_mem km) n pgn) /\ (a ∉ tr) /\
  has (pte_val (km_mem km') (p_pgdir pr) a) PTE_U = true.
Proof.
  intros [] Hg Hu Hz (Hnk & Hnl & Hnp & Hnf) Hpv. destruct (user_va_range _ Hu) as [Hr Hn].
  assert (pte_val (km_mem km') (p_pgdir pr) a = paged_in 0 (V2P n)) as Ea.
  { rewrite Hpv, Z.eqb_refl by done. by apply map_entry_paged_in. }
  destruct (paged_in_frame 0 n ltac:(lia) eq_refl Hnk) as (Fn & FP & FW).
  destruct (V2P_kpage n Hnk) as (Hvr & Hvm & _).
  destruct (paged_in_spec 0 (V2P n) ltac:(lia) eq_refl Hvm Hvr) as (_ & _ & _ & _ & FU & _).
  rewrite <- Ea in Fn, FP, FW, FU.
  destruct (grow_bytes _ _ _ _ _ n Hg Hnk Hnl Hnp) as (Hbn & Hnl' & Hnp').
  assert (forall va, in_mem pr tr va -> va <> a) as Hne.
  { intros va Hva ->. destruct (pi_res a Hva) as (_ & HP & _). by rewrite Hz in HP. }
  assert (forall v, user_va v -> v <> a ->
    pte_val (km_mem km') (p_pgdir pr) v = pte_val (km_mem km) (p_pgdir pr) v) as Epv.
  { intros v Hv Hva. rewrite Hpv by (by apply user_va_range). by rewrite user_va_page. }
  assert (forall v, in_mem pr tr v -> pte_val (km_mem km') (p_pgdir pr) v = pte_val (km_mem km) (p_pgdir pr) v) as Epm.
  { intros v Hv. apply Epv; [by apply pi_res|by apply Hne]. }
  assert (forall v, in_mem pr tr v -> frame (km_mem km') (p_pgdir pr) v = frame (km_mem km) (p_pgdir pr) v) as Ef.
  { intros v Hv. by apply frame_evolves, Epm. }
  assert (forall v, in_mem pr (a :: tr) v -> v = a \/ in_mem pr tr v) as Hin.
  { intros v [Hvn [Hs|[->|Ht]%elem_of_cons]]; [right; by split; [|left]|by left|right; by split; [|right]]. }
  assert (a ∉ tr) as Hat. { intros Ht. by apply (Hne a); [split; [done|by right]|]. }
  split; [constructor; [apply Hg|exact pi_swapfile|exact pi_content|exact pi_bytes|exact pi_mem_len|exact pi_disk_len|
    exact pi_mem_count|exact pi_disk_count|exact pi_rp| | |exact pi_res_inj| | |exact pi_swp_inj]|split; [|split; [|exact (conj Hat FU)]]].
  - intros v [->|Hv]%elem_of_cons; [|by apply pi_tr]. split; [done|]. intros i E.
    apply (Hne (slot_va pr i)); [|done]. rewrite E. split; [done|]. left. eauto.
  - intros v [->|Hv]%Hin.
    + split; [exact Hu|]. split; [exact FP|]. split; [exact FW|]. unfold frame. rewrite Fn. exact (conj Hnk (conj Hnl' Hnp')).
    + destruct (pi_res v Hv) as (H1 & H2 & H3 & H4 & H5 & H6). unfold resident. rewrite Ef, Epm by done.
      destruct (grow_bytes _ _ _ _ _ _ Hg H4 H5 H6) as (_ & H5' & H6').
      exact (conj H1 (conj H2 (conj H3 (conj H4 (conj H5' H6'))))).
  - intros v v' [->|Hv]%Hin [->|Hv']%Hin; [done|..].
    + rewrite (Ef v') by done. unfold frame at 1. rewrite Fn. intros E. by destruct (Hnf v' Hv').
    + rewrite (Ef v) by done. unfold frame at 2. rewrite Fn. intros E. by destruct (Hnf v Hv).
    + rewrite !Ef by done. by apply pi_frames.
  - intros j Hj. destruct (pi_swp j Hj) as [(H1 & H2 & H3 & H4 & H5) Hl]. split; [|done].
    assert (disk_va pr j <> a) as Hja by (intros E; rewrite E, Hz in H4; done).
    unfold swapped. rewrite !Epv by done. split; [exact H1|]. split; [|exact (conj H3 (conj H4 H5))].
    apply pte_val_nonzero. rewrite Epv by done. intros E. by rewrite E in H4.
  - intros v b [[Hv ->]|Hv]; [left|by right]. split.
    { destruct Hv as [Hvn [Hs|Ht]]; (split; [done|]); [by left|right; by constructor]. }
    rewrite Ef by done. destruct (pi_res v Hv) as (_ & _ & _ & H4 & H5 & H6). symmetry.
    apply (grow_bytes _ _ _ _ _ _ Hg H4 H5 H6).
  - left. split; [split; [done|right; constructor]|]. unfold frame. by rewrite Fn.
Qed.

End map_page.

(** ** The new page is entered in the table *)

Section enter.
Context {img : Image} {F : Type} {fsy : FileSys F} {sst : SwapStore F}.
Context {sel : selection} {rep : Replacement sel}.

Lemma inv_enter km (fs : F) pr pr' tr f l c i a age :
  paging_inv km fs pr (a :: tr) f l c -> (a ∉ tr) -> first_free pr i -> entered i a age pr pr' -> rp_inv pr' ->
  paging_inv km fs pr' tr f l c /\
  (forall v, in_mem pr' tr v <-> in_mem pr (a :: tr) v) /\
  (forall va b, page_is (km_mem km) pr (a :: tr) c va b -> page_is (km_mem km) pr' tr c va b) /\
  p_pgdir pr' = p_pgdir pr.
Proof.
  intros [] Hat Hff He Hrp. destruct (pi_tr a) as [Han Has]; [by constructor|].
  pose proof He as (Evas & _ & Epr). pose proof (first_free_lt _ _ Hff) as Hil.
  pose proof (first_free_unused _ _ Hff) as Hun.
  assert (forall k, slot_va pr' k = if decide (k = i) then a else slot_va pr k) as Esl.
  { intros k. by apply (slot_va_entered i a age). }
  assert (p_pgdir pr' = p_pgdir pr) as Epd by (by rewrite Epr).
  assert (forall j, disk_va pr' j = disk_va pr j) as Edv.
  { intros j. unfold disk_va, disk_vas. by rewrite Epr. }
  assert (forall v, in_mem pr' tr v <-> in_mem pr (a :: tr) v) as Ein.
  { intros v. unfold in_mem. rewrite elem_of_cons. split; intros [Hn H]; (split; [done|]).
    - destruct H as [[k Hk]|?]; [|tauto]. rewrite Esl in Hk. case_decide; [subst; tauto|left; eauto].
    - destruct H as [[k Hk]|[->|?]]; [left|left|by right].
      + exists k. rewrite Esl, decide_False; [done|]. intros ->. congruence.
      + exists i. by rewrite Esl, decide_True. }
  split; [|split; [exact Ein|split; [|exact Epd]]].
  - constructor; rewrite ?Epd; try assumption.
    + by rewrite Epr.
    + rewrite <- pi_mem_len. apply (f_equal length) in Evas. unfold vas in Evas. by rewrite length_insert, !length_map in Evas.
    + by rewrite Epr.
    + rewrite Evas, Epr. simpl. rewrite pi_mem_count. pose proof (used_insert _ i _ a (vas_lookup _ _ Hil)) as E.
      rewrite Hun in E. unfold used1 in E. rewrite (decide_True _ _ Han) in E. simpl in E. lia.
    + unfold disk_vas. rewrite Epr. exact pi_disk_count.
    + intros v Hv. destruct (pi_tr v) as [Hvn Hvs]; [by constructor|]. split; [done|]. intros k. rewrite Esl.
      case_decide; [by intros <-|apply Hvs].
    + intros v Hv%Ein. by apply pi_res.
    + intros k1 k2. rewrite !Esl. destruct (decide (k1 = i)) as [->|], (decide (k2 = i)) as [->|]; intros Hk E; try done.
      * by destruct (Has k2).
      * by destruct (Has k1).
      * by apply pi_res_inj.
    + intros v v' Hv%Ein Hv'%Ein. by apply pi_frames.
    + intros j. rewrite Edv. apply pi_swp.
    + intros j k. rewrite !Edv. apply pi_swp_inj.
  - intros v b [[Hv%Ein ->]|[Hn (j & Hj & ->)]]; [left; by rewrite Epd|right].
    split; [done|]. exists j. by rewrite Edv.
Qed.

End enter.

(** ** A page is moved to the swap file *)

Section evict.
Context {img : Image} {F : Type} {fsy : FileSys F} {sst : SwapStore F}.
Context {sel : selection} {rep : Replacement sel} (p : nat).
Implicit Types (s : kst F) (pr : proc).

(** The entry insert_to_disk leaves behind. *)
Definition PTE_swapped : Z := Z.lor (Z.lor PTE_W PTE_U) PTE_PG.

Lemma PTE_ADDR_P2V_WO e : 0 <= e < 2 ^ 32 -> kpage (P2V (PTE_ADDR e)) -> PTE_ADDR (P2V_WO e) = P2V (PTE_ADDR e).
Proof.
  intros He Hk. destruct (kpage_pos _ Hk) as (Hlo & Hhi & _). unfold P2V_WO, P2V in *.
  rewrite !PTE_ADDR_div in * by (try apply u32_range; done). unfold u32, KERNBASE, PHYSTOP in *.
  Z.to_euclidean_division_equations; lia.
Qed.

Lemma PTE_ADDR_user va : user_va va -> PTE_ADDR va = va.
Proof.
  intros [Hm Hr]. unfold KERNBASE in Hr. rewrite PTE_ADDR_div by lia. Z.to_euclidean_division_equations; lia.
Qed.

(** Freeing the frame of the page that is still mapped at [w], then marking the entry. *)
Lemma evict_frame km pgdir l w a g :
  vm_wf km pgdir l -> 0 <= w < 2 ^ 32 -> pte_addr (km_mem km) pgdir w = Some a ->
  kpage g -> (g ∉ l) -> ~ pt_page (km_mem km) pgdir g ->
  exists km1, kfree g km = Ret tt km1 /\
    let km' := set_km_mem (st32 (km_mem km1) a PTE_swapped) km1 in
    vm_wf km' pgdir (g :: l) /\ evolves pgdir [g] (km_mem km) (km_mem km') /\
    (forall v, 0 <= v < 2 ^ 32 -> pte_val (km_mem km') pgdir v =
       if v / 4096 =? w / 4096 then PTE_swapped else pte_val (km_mem km) pgdir v).
Proof.
  intros Hvm Hw Ha Hg Hgl Hgp.
  destruct (kfree_evolves km pgdir l (km_mem km) g Hvm) as (km1 & E & Hvm1 & Hev & Hpv); [|done..|].
  { split; [apply Hvm|]. done. }
  assert (set_km_mem (km_mem km) km = km) as Ekm by (by destruct km). rewrite Ekm in E.
  exists km1. split; [done|]. intros km'.
  assert (pte_addr (km_mem km1) pgdir w = Some a) as Ha1.
  { destruct Hev as (_ & A & _). by rewrite A. }
  pose proof Hvm1 as (_ & Hwf1 & _).
  assert (pte_updated pgdir (km_mem km1) (km_mem km') w PTE_swapped) as [Hvc Hup].
  { apply pte_updated_write; [done|done|done|by vm_compute]. }
  split; [by apply vm_wf_view|]. split.
  - pose proof (evolves_trans _ _ _ _ _ _ Hev (evolves_view _ _ _ Hvc)) as Hev'. exact Hev'.
  - intros v Hv. rewrite Hup by done. by rewrite Hpv.
Qed.

Lemma on_insert_to_disk s pr v i tr f l c (Q : unit -> kst F -> Prop) :
  let w := slot_va pr v in
  let pr' := disk_added i w (vacate v pr) in
  let g := frame (kmm s) (p_pgdir pr) w in
  let c' := splice (pgn * i) (bytes_at (kmm s) g pgn) c in
  (p < length (k_procs s))%nat -> k_cr3 s = V2P (p_pgdir pr) -> w <> NOVA ->
  paging_inv (k_mem s) (k_fs s) (vacate v pr) (w :: tr) f l c -> (w ∉ tr) -> swap_room (k_fs s) c ->
  (i < MAX_PSYC_PAGES)%nat -> disk_va pr i = NOVA -> (pgn * i <= length c)%nat ->
  (forall km' fs', paging_inv km' fs' pr' tr f (g :: l) c' -> swap_room fs' c' ->
     (forall va b, page_is (kmm s) (vacate v pr) (w :: tr) c va b -> page_is (km_mem km') pr' tr c' va b) ->
     (forall va, user_va va -> va <> w ->
        pte_val (km_mem km') (p_pgdir pr) va = pte_val (kmm s) (p_pgdir pr) va) ->
     Q tt (setp p pr' (set_k_cr3 (V2P (p_pgdir pr)) (set_k_fs fs' (setm km' s))))) ->
  wp (insert_to_disk p i (Some v)) Q (setp p pr s).
Proof.
  intros w pr' g c' Hlen Hcr Hwn Hinv Hwt Hroom Hi Hdi Hic HQ.
  assert (in_mem (vacate v pr) (w :: tr) w) as Hwin by (split; [done|right; by constructor]).
  destruct (pi_res _ _ _ _ _ _ _ Hinv w Hwin) as (Hwu & HwP & _ & Hgk & Hgl & Hgp).
  change (p_pgdir (vacate v pr)) with (p_pgdir pr) in *. change (frame (km_mem (k_mem s)) (p_pgdir pr) w) with g in *.
  pose proof (pi_vm _ _ _ _ _ _ _ Hinv) as Hvm. change (p_pgdir (vacate v pr)) with (p_pgdir pr) in Hvm.
  pose proof (proj1 (user_va_range _ Hwu)) as Hwr. destruct (has_mapped _ _ _ _ HwP) as [a Ha].
  assert (length (p_disk_pg_arr pr) = MAX_PSYC_PAGES) as Hd16 by apply (pi_disk_len _ _ _ _ _ _ _ Hinv).
  pose proof (slot_va_lt pr v Hwn) as Hvl.
  assert (pte_val (kmm s) (p_pgdir pr) w <> 0) as Hnz by (intros E; unfold kmm in E; by rewrite E in HwP).
  destruct (evict_frame (k_mem s) (p_pgdir pr) l w a g Hvm Hwr Ha Hgk Hgl Hgp) as (km1 & Ek & Hvm' & Hev & Hpv).
  unfold insert_to_disk. kstep. eapply on_get_va; [done|by apply slot_va_lookup|]. fold w.
  kstep. apply on_di_modify; [done|lia|]. kstep. apply on_updp; [done|]. kstep. apply on_updp; [done|].
  kstep. rewrite PTE_ADDR_user by done.
  eapply (on_writeToSwapFile p s _ w i _ f c (bytes_at (kmm s) g pgn)); [done|done|unfold PGSIZE; lia|
    apply (pi_swapfile _ _ _ _ _ _ _ Hinv)|apply (pi_content _ _ _ _ _ _ _ Hinv)|done| | |apply length_bytes_at|].
  { by apply swap_room_growth. }
  { rewrite <- (Z.add_0_r w), (kbytes_page _ (p_pgdir pr));
      [by rewrite !Z.add_0_r|exact Hcr|apply Hvm|apply Hwu|apply Hwu|lia|lia|exact HwP]. }
  intros fs' Hc' Hr. change (4096 <=? 0) with false. kstep. apply on_getp; [done|].
  change (p_pgdir _) with (p_pgdir pr). kstep. eapply (on_walk p (set_k_fs fs' s)); [exact Ha|].
  kstep. eapply (on_pte_load p (set_k_fs fs' s) _ (p_pgdir pr) w); [apply Hvm|exact Ha|].
  change (kmm (set_k_fs fs' s)) with (kmm s). cbv beta. rewrite (proj2 (Z.eqb_neq _ _) Hnz).
  kstep. eapply (on_fp_modify p (set_k_fs fs' s)); [done|exact Hvl|]. kstep. apply on_updp; [done|].
  change (set_p_pages_in_memory_counter _ _) with pr'.
  kstep. eapply (on_pte_load p (set_k_fs fs' s) _ (p_pgdir pr) w); [apply Hvm|exact Ha|].
  change (kmm (set_k_fs fs' s)) with (kmm s). cbv beta.
  rewrite PTE_ADDR_P2V_WO by (apply pte_val_range || exact Hgk). change (P2V _) with g.
  kstep. eapply wp_inmem; [exact Ek|]. kstep.
  destruct (pte_addr_nonzero _ _ _ _ (proj1 (proj2 Hvm)) Ha) as [_ Hak].
  apply wp_kst32_kern; [lia|]. apply wp_modify.
  set (km' := set_km_mem (st32 (km_mem km1) a PTE_swapped) km1) in *.
  assert (forall va, user_va va -> va <> w -> pte_val (km_mem km') (p_pgdir pr) va = pte_val (kmm s) (p_pgdir pr) va) as Epw.
  { intros va Hv Hne. rewrite Hpv by (by apply user_va_range). by rewrite user_va_page. }
  assert (pte_val (km_mem km') (p_pgdir pr) w = PTE_swapped) as Eww by (rewrite Hpv, Z.eqb_refl; done).
  destruct (inv_page_out (k_mem s) km' (k_fs s) fs' (vacate v pr) tr f l c i w) as [Hinv' Hpg];
    [done|done|done|done|done|exact Hc'|exact Hvm'|exact Hev|exact Epw|change (p_pgdir (vacate v pr)) with (p_pgdir pr); by rewrite Eww..|].
  apply (HQ km' fs'); [exact Hinv'| |exact Hpg|exact Epw].
  eapply swap_room_write; [exact Hroom|done|done|apply length_bytes_at|exact Hr].
Qed.

End evict.

(** ** One page more *)

Section grow.
Context {img : Image} {F : Type} {fsy : FileSys F} {sst : SwapStore F}.
Context {sel : selection} {rep : Replacement sel} (p : nat).
Implicit Types (s : kst F) (pr : proc).

(** At most one resident page (the guard page below the stack) is not accessible to the user. *)
Definition usable (m : mem) (pr : proc) : Prop :=
  exists g, forall i, slot_va pr i <> NOVA -> slot_va pr i <> g ->
    has (pte_val m (p_pgdir pr) (slot_va pr i)) PTE_U = true.

(** Process [p] runs, its pages are in order and its swap file can grow. *)
Record paged (s : kst F) (pr : proc) (tr : list Z) (f : nat) (l c : list Z) : Prop := {
  pg_len : (p < length (k_procs s))%nat;
  pg_cur : k_cur s = Some p;
  pg_cr3 : k_cr3 s = V2P (p_pgdir pr);
  pg_inv : paging_inv (k_mem s) (k_fs s) pr tr f l c;
  pg_room : swap_room (k_fs s) c;
  pg_usable : usable (kmm s) pr }.

(** No page is lost or changed, and of the pages that are not mapped at most those in [new] become
    mapped. *)
Definition keeps (m : mem) (pr : proc) (tr c new : list Z) (m' : mem) (pr' : proc) (tr' c' : list Z) : Prop :=
  p_pgdir pr' = p_pgdir pr /\
  (forall va b, page_is m pr tr c va b -> page_is m' pr' tr' c' va b) /\
  (forall v, user_va v -> pte_val m (p_pgdir pr) v = 0 -> (v ∉ new) -> pte_val m' (p_pgdir pr) v = 0).

Lemma keeps_trans m1 pr1 tr1 c1 n1 m2 pr2 tr2 c2 n2 m3 pr3 tr3 c3 :
  keeps m1 pr1 tr1 c1 n1 m2 pr2 tr2 c2 -> keeps m2 pr2 tr2 c2 n2 m3 pr3 tr3 c3 ->
  keeps m1 pr1 tr1 c1 (n1 ++ n2) m3 pr3 tr3 c3.
Proof.
  intros (E1 & P1 & Z1) (E2 & P2 & Z2). split; [congruence|]. split; [intros va b Hb; by apply P2, P1|].
  intros v Hv H0. rewrite elem_of_app. intros Hn. rewrite <- E1. apply Z2; [done|rewrite E1; apply Z1; tauto|tauto].
Qed.

Lemma usable_two m pr i j : usable m pr -> slot_va pr i <> NOVA -> slot_va pr j <> NOVA ->
  slot_va pr i <> slot_va pr j ->
  exists k, (k = i \/ k = j) /\ has (pte_val m (p_pgdir pr) (slot_va pr k)) PTE_U = true.
Proof.
  intros [g Hg] Hi Hj Hne. destruct (decide (slot_va pr i = g)) as [E|].
  - exists j. split; [tauto|]. apply Hg; [done|congruence].
  - exists i. split; [tauto|]. by apply Hg.
Qed.

(** The first free entry of the swap table; the swap file reaches up to it. *)
Lemma paged_disk_slot s pr tr f l c :
  paged s pr tr f l c -> p_pages_in_swapfile_counter pr < 16 ->
  exists i, (i < MAX_PSYC_PAGES)%nat /\ disk_va pr i = NOVA /\ (pgn * i <= length c)%nat /\
    forall j, (j < i)%nat -> disk_va pr j <> NOVA.
Proof.
  intros [_ _ _ Hinv _ _] Hs. pose proof (pi_disk_len _ _ _ _ _ _ _ Hinv) as Hd16.
  destruct (used_free (disk_vas pr)) as (i & Hi & Hlow).
  { unfold disk_vas at 2. rewrite length_map, Hd16. rewrite (pi_disk_count _ _ _ _ _ _ _ Hinv) in Hs.
    unfold MAX_PSYC_PAGES. lia. }
  assert (forall j, (j < i)%nat -> disk_va pr j <> NOVA) as Hdl.
  { intros j Hj. destruct (Hlow j Hj) as (x & Hx & ?). unfold disk_va. by rewrite Hx. }
  exists i. split; [|split; [unfold disk_va; by rewrite Hi|split; [|exact Hdl]]].
  - apply lookup_lt_Some in Hi. unfold disk_vas in Hi. by rewrite length_map, Hd16 in Hi.
  - destruct i as [|i]; [lia|]. destruct (pi_swp _ _ _ _ _ _ _ Hinv i) as [_ ?]; [apply Hdl; lia|lia].
Qed.

(** With all slots in use a victim is chosen; it is then in transit. *)
Lemma paged_select s pr tr f l c :
  paged s pr tr f l c -> 16 <= p_pages_in_memory_counter pr ->
  exists v pr1 m1,
    select_page_to_remove sel p (setp p pr s) = Ret (Some v) (setp p pr1 (upd_mem m1 s)) /\
    slot_va pr v <> NOVA /\ relinked pr pr1 /\ quiet pr tr [] (kmm s) m1 /\ (slot_va pr v ∉ tr) /\
    paging_inv (set_km_mem m1 (k_mem s)) (k_fs s) (vacate v pr1) (slot_va pr v :: tr) f l c /\
    (forall va b, page_is (kmm s) pr tr c va b -> page_is m1 (vacate v pr1) (slot_va pr v :: tr) c va b).
Proof.
  intros [Hlen Hcur Hcr Hinv Hroom Hus] Hm. pose proof (pi_vm _ _ _ _ _ _ _ Hinv) as (_ & Hwf & _).
  assert (forall i, (i < MAX_PSYC_PAGES)%nat -> slot_va pr i <> NOVA) as Hfull by (intros i Hi; by eapply inv_full).
  destruct (rp_select p s pr Hlen Hcur Hwf (pi_mem_len _ _ _ _ _ _ _ Hinv) (pi_rp _ _ _ _ _ _ _ Hinv)
    (inv_resident_pages _ _ _ _ _ _ _ Hinv) Hfull) as (v & pr1 & m1 & vs & Esel & Hv & Hrel & Hwf1 & Hcl & Hrp).
  { destruct (usable_two (kmm s) pr 0 1 Hus) as (k & Hk & HU); [apply Hfull; unfold MAX_PSYC_PAGES; lia..| |].
    - intros E. apply (pi_res_inj _ _ _ _ _ _ _ Hinv) in E; [done|apply Hfull; unfold MAX_PSYC_PAGES; lia].
    - exists k. split; [unfold MAX_PSYC_PAGES; lia|done]. }
  pose proof (Hfull v Hv) as Hvn. pose proof (cleared_quiet pr tr (kmm s) m1 vs Hwf1 Hcl) as Hq.
  destruct (inv_quiet _ _ (k_fs s) _ _ _ _ _ _ m1 Hinv Hq) as [Hinv1 Hpg1]; [intros ? _; apply not_elem_of_nil|apply (pi_content _ _ _ _ _ _ _ Hinv)|].
  destruct (inv_vacate _ _ _ _ v _ _ _ _ Hinv1 Hrel Hvn Hrp) as [Hinv2 Hpg2].
  exists v, pr1, m1. do 4 (split; [done|]). split; [|split; [exact Hinv2|]].
  - intros Ht. by destruct (pi_tr _ _ _ _ _ _ _ Hinv _ Ht) as [_ H]; destruct (H v).
  - intros va b Hb. by apply Hpg2, Hpg1.
Qed.

Lemma usable_out m m' pr pr1 v i w tr :
  usable m pr -> relinked pr pr1 -> quiet pr tr [] m m' -> (forall k, in_mem pr tr k -> user_va k) ->
  usable m' (disk_added i w (vacate v pr1)).
Proof.
  intros [g Hg] Hrel Hq Hu. exists g. intros k Hk Hkg.
  assert (slot_va (disk_added i w (vacate v pr1)) k = slot_va pr k) as E.
  { change (slot_va (disk_added i w (vacate v pr1)) k) with (slot_va (vacate v pr1) k) in *.
    rewrite slot_va_vacate, (slot_va_relinked _ _ _ Hrel) in *. by case_decide. }
  rewrite E in *. change (p_pgdir (disk_added i w (vacate v pr1))) with (p_pgdir pr1).
  rewrite (pgdir_relinked _ _ Hrel). destruct (quiet_pte _ _ _ _ _ (slot_va pr k) Hq) as (_ & _ & Hb).
  - apply user_va_range, Hu. split; [done|]. left. by exists k.
  - rewrite Hb by tauto. by apply Hg.
Qed.

Lemma on_moveram_to_disk s pr tr f l c (Q : unit -> kst F -> Prop) :
  paged s pr tr f l c -> 16 <= p_pages_in_memory_counter pr -> p_pages_in_swapfile_counter pr < 16 ->
  (forall s' pr' g c', paged s' pr' tr f (g :: l) c' -> keeps (kmm s) pr tr c [] (kmm s') pr' tr c' ->
     p_pages_in_memory_counter pr' = p_pages_in_memory_counter pr - 1 ->
     p_pages_in_swapfile_counter pr' = p_pages_in_swapfile_counter pr + 1 ->
     (forall k, k ∈ tr -> has (pte_val (kmm s') (p_pgdir pr) k) PTE_U = has (pte_val (kmm s) (p_pgdir pr) k) PTE_U) ->
     Q tt (setp p pr' s')) ->
  wp (moveram_to_disk sel p) Q (setp p pr s).
Proof.
  intros Hpg Hm Hs HQ. pose proof Hpg as [Hlen Hcur Hcr Hinv Hroom Hus].
  destruct (paged_disk_slot _ _ _ _ _ _ Hpg Hs) as (i & Hi16 & Hdi & Hic & Hdl).
  destruct (paged_select _ _ _ _ _ _ Hpg Hm) as (v & pr1 & m1 & Esel & Hvn & Hrel & Hq & Hwt & Hinv2 & Hpg2).
  pose proof (pgdir_relinked _ _ Hrel) as Epd. pose proof (slot_va_relinked _ _ v Hrel) as Esv.
  pose proof (pi_disk_len _ _ _ _ _ _ _ Hinv) as Hd16.
  unfold moveram_to_disk. kstep. apply (wp_for_search _ _ _ _ i); [done| |].
  { intros k Hk. kstep. apply on_di_read; [done|rewrite Hd16; unfold MAX_PSYC_PAGES in *; lia|].
    intros d _ ->. rewrite (proj2 (Z.eqb_neq _ _) (Hdl k Hk)). by kstep. }
  kstep. apply on_di_read; [done|by rewrite Hd16|]. intros d _ ->. rewrite Hdi, Z.eqb_refl.
  kstep. cbv beta iota. kstep. apply on_getp; [done|].
  assert (bool_decide (sel = SCFIFO) && (isnull (p_head pr) || isnull (p_tail pr)) = false) as ->.
  { case_bool_decide as Hsel; [|done].
    by destruct (rp_queue pr v Hsel (pi_rp _ _ _ _ _ _ _ Hinv) Hvn) as [[h ->] [t ->]]. }
  kstep. eapply wp_intro; [exact Esel|]. rewrite <- Esv in Hwt, Hinv2, Hpg2, Hvn.
  eapply (on_insert_to_disk p (upd_mem m1 s) pr1 v i tr f l c);
    [done|rewrite Epd; exact Hcr|exact Hvn|exact Hinv2|exact Hwt|exact Hroom|exact Hi16| |exact Hic|].
  { unfold disk_va, disk_vas in *. by destruct Hrel as (-> & _). }
  intros km' fs' Hinv' Hroom' Hpg' Hpv'.
  set (pr' := disk_added i (slot_va pr1 v) (vacate v pr1)) in *.
  assert (forall k, in_mem pr tr k -> user_va k) as Huv by (intros k Hk; exact (inv_user_va _ _ _ _ _ _ _ _ Hinv Hk)).
  assert (user_va (slot_va pr1 v) /\ pte_val (kmm s) (p_pgdir pr) (slot_va pr1 v) <> 0) as [Hwu Hwnz].
  { destruct (pi_res _ _ _ _ _ _ _ Hinv (slot_va pr1 v)) as (? & HP & _).
    - split; [done|]. left. exists v. by rewrite Esv.
    - split; [done|]. intros E. unfold kmm in E. by rewrite E in HP. }
  change (kmm (upd_mem m1 s)) with m1 in *.
  apply (HQ _ pr' (frame m1 (p_pgdir pr1) (slot_va pr1 v)) (splice (pgn * i) (bytes_at m1 (frame m1 (p_pgdir pr1) (slot_va pr1 v)) pgn) c)).
  - constructor; [done|done|done|exact Hinv'|exact Hroom'|].
    destruct (usable_out _ _ _ _ v i (slot_va pr1 v) _ Hus Hrel Hq Huv) as [g Hg]. exists g.
    fold pr' in Hg. intros k Hk Hkg. change (p_pgdir pr') with (p_pgdir pr1) in *. 
    change (slot_va pr' k) with (slot_va (vacate v pr1) k) in *.
    assert (in_mem (vacate v pr1) (slot_va pr1 v :: tr) (slot_va (vacate v pr1) k)) as Hin by (split; [done|left; by exists k]).
    change (kmm (set_k_cr3 _ _)) with (km_mem km'). rewrite Hpv'; [by apply Hg|exact (inv_user_va _ _ _ _ _ _ _ _ Hinv2 Hin)|].
    apply (pi_tr _ _ _ _ _ _ _ Hinv2). by constructor.
  - split; [exact Epd|]. split; [intros va b Hb; by apply Hpg', Hpg2|]. intros va Hva H0 _.
    change (kmm (set_k_cr3 _ _)) with (km_mem km'). rewrite <- Epd, Hpv'; [|done|by intros ->].
    rewrite Epd. destruct Hq as (_ & Hq & _). destruct (Hq va) as [->| ->]; [by apply user_va_range|done|by rewrite H0].
  - unfold pr'. simpl. by destruct Hrel as (-> & _).
  - unfold pr'. simpl. by destruct Hrel as (-> & _).
  - intros k Hk. destruct (pi_tr _ _ _ _ _ _ _ Hinv k Hk) as [Hkn Hks].
    assert (user_va k) as Hku by (apply Huv; by split; [|right]).
    change (kmm (set_k_cr3 _ _)) with (km_mem km'). rewrite <- Epd, Hpv', Epd; [|done|rewrite Esv; by intros ->; apply (Hks v)].
    destruct (quiet_pte _ _ _ _ _ k Hq) as (_ & _ & Hb); [by apply user_va_range|]. apply Hb. tauto.
Qed.

(** The number of pages of the process. *)
Definition pages (pr : proc) : Z := p_pages_in_memory_counter pr + p_pages_in_swapfile_counter pr.

(** The page in transit is entered in the table, after a victim has been moved out if need be. *)
Lemma on_enter_new s pr a f l c (Q : unit -> kst F -> Prop) :
  paged s pr [a] f l c -> has (pte_val (kmm s) (p_pgdir pr) a) PTE_U = true -> p_pages_in_memory_counter pr < 16 ->
  (forall pr', paged s pr' [] f l c -> keeps (kmm s) pr [a] c [] (kmm s) pr' [] c ->
     pages pr' = pages pr + 1 -> Q tt (setp p pr' s)) ->
  wp (update_memory sel p a ;;; skip) Q (setp p pr s).
Proof.
  intros [Hlen Hcur Hcr Hinv Hroom [g Hg]] HaU Hm HQ.
  destruct (first_free_exists _ _ _ _ _ _ _ Hinv Hm) as [i Hi].
  destruct (pi_tr _ _ _ _ _ _ _ Hinv a) as [Han _]; [by constructor|].
  destruct (rp_enter p s pr i a Hlen (pi_mem_len _ _ _ _ _ _ _ Hinv) (pi_rp _ _ _ _ _ _ _ Hinv) Hi Han)
    as (pr' & E & He & Hrp).
  destruct (inv_enter _ _ _ _ _ _ _ _ _ _ _ Hinv (not_elem_of_nil a) Hi He Hrp) as (Hinv' & Hin & Hpg & Epd).
  kstep. eapply wp_intro; [exact E|]. kstep. apply HQ.
  - constructor; [done|done|by rewrite Epd|done|done|]. exists g. intros k. rewrite Epd.
    rewrite (slot_va_entered i a (default_age sel) pr pr' k); [|by apply first_free_lt|done].
    case_decide; [done|apply Hg].
  - split; [done|]. split; [exact Hpg|]. by intros.
  - unfold pages. destruct He as (_ & _ & ->). simpl. lia.
Qed.

Lemma on_table_new s pr a f l c (Q : unit -> kst F -> Prop) :
  paged s pr [a] f l c -> has (pte_val (kmm s) (p_pgdir pr) a) PTE_U = true -> pages pr < 32 ->
  (forall s' pr' l' c', paged s' pr' [] f l' c' -> keeps (kmm s) pr [a] c [] (kmm s') pr' [] c' ->
     pages pr' = pages pr + 1 -> (length l <= length l')%nat -> Q tt (setp p pr' s')) ->
  wp (if Z.of_nat MAX_PSYC_PAGES <=? p_pages_in_memory_counter pr then
        if Z.of_nat MAX_PSYC_PAGES <=? p_pages_in_swapfile_counter pr then
          cprintf "pages in swap file counter is %d  pages in memory counter is %d "
            [p_pages_in_swapfile_counter pr; p_pages_in_memory_counter pr] ;;;
          panic "swap file and ram full should have detected before starting to allocate memmory"
        else
          moveram_to_disk sel p ;;;
          update_memory sel p a ;;; skip
      else update_memory sel p a ;;; skip) Q (setp p pr s).
Proof.
  intros Hpg HU Hpages HQ. change (Z.of_nat MAX_PSYC_PAGES) with 16. unfold pages in Hpages.
  destruct (Z.leb_spec 16 (p_pages_in_memory_counter pr)) as [Hm|Hm].
  - rewrite (proj2 (Z.leb_gt 16 _)) by lia. kstep. eapply on_moveram_to_disk; [exact Hpg|done|lia|].
    intros s' pr' g c' Hpg' Hk Em Es HU'. pose proof Hk as (Epd & _).
    pose proof (pi_mem_count _ _ _ _ _ _ _ (pg_inv _ _ _ _ _ _ Hpg)) as Hcnt.
    pose proof (used_le (vas (p_memory_pg_arr pr))) as Hle. unfold vas in Hle at 2.
    rewrite length_map, (pi_mem_len _ _ _ _ _ _ _ (pg_inv _ _ _ _ _ _ Hpg)) in Hle. unfold MAX_PSYC_PAGES in Hle.
    eapply on_enter_new; [exact Hpg'|rewrite Epd, HU'; [done|constructor]|lia|].
    intros pr'' Hpg'' Hk'' Hp''. eapply HQ; [exact Hpg''|by apply (keeps_trans _ _ _ _ _ _ _ _ _ _ _ _ _ _ Hk Hk'')| |simpl; lia].
    rewrite Hp''. unfold pages. lia.
  - eapply on_enter_new; [exact Hpg|done|lia|]. intros pr' Hpg' Hk Hp. by eapply HQ.
Qed.

(** A frame is taken, zeroed and mapped at [a]. *)
Lemma paged_new_page s pr f n t l c a :
  paged s pr [] f (n :: t :: l) c -> user_va a -> pte_val (kmm s) (p_pgdir pr) a = 0 ->
  exists km1 km3 l3, kalloc (k_mem s) = Ret n km1 /\ KERNBASE <= n /\
    mappages (p_pgdir pr) a PGSIZE (V2P n) PTE_WU (set_km_mem (memset (km_mem km1) n 0 PGSIZE) km1) = Ret 0 km3 /\
    paged (setm km3 s) pr [a] f l3 c /\ keeps (kmm s) pr [] c [a] (km_mem km3) pr [a] c /\ (length l <= length l3)%nat /\
    page_is (km_mem km3) pr [a] c a (replicate pgn 0) /\ has (pte_val (km_mem km3) (p_pgdir pr) a) PTE_U = true.
Proof.
  intros [Hlen Hcur Hcr Hinv Hroom Hus] Hu Hz.
  destruct (inv_zero_frame _ _ _ _ _ _ _ _ Hinv) as (km1 & Ek & Hnpos & Hinv2 & Hfr2 & Hpg2 & Hpv2 & Hzero).
  set (m2 := memset (km_mem km1) n 0 PGSIZE) in *. pose proof Hfr2 as (Hnk & _).
  destruct (mappages_one (p_pgdir pr) a (V2P n) PTE_WU (set_km_mem m2 km1) (t :: l)) as (km3 & l3 & Emp & Hgrow & Hll & Hpv3);
    [apply (pi_vm _ _ _ _ _ _ _ Hinv2)|done|apply Hu|apply Hu|destruct Hu as [_ Hu]; unfold KERNBASE in Hu; lia|
     by apply V2P_kpage|simpl; rewrite Hpv2; unfold kmm in Hz; by rewrite Hz|].
  destruct (inv_map_page _ _ _ _ _ _ _ _ _ _ _ Hinv2 Hgrow Hu (eq_trans (Hpv2 a) Hz) Hfr2 Hpv3)
    as (Hinv3 & Hpg3 & Hpa & _ & HaU). cbn [km_mem set_km_mem] in *. rewrite Hzero in Hpa.
  exists km1, km3, l3. split; [exact Ek|]. split; [exact Hnpos|]. split; [exact Emp|]. split; [|split; [|split; [|exact (conj Hpa HaU)]]].
  - constructor; [done|done|done|exact Hinv3|done|]. destruct Hus as [g Hg]. exists g. intros k Hk Hkg.
    assert (in_mem pr [] (slot_va pr k)) as Hin by (split; [done|left; by exists k]).
    change (kmm (setm km3 s)) with (km_mem km3). rewrite Hpv3 by apply user_va_range, (inv_user_va _ _ _ _ _ _ _ _ Hinv Hin).
    destruct (pi_res _ _ _ _ _ _ _ Hinv _ Hin) as (Huk & HP & _).
    rewrite user_va_page; [rewrite Hpv2; by apply Hg|done|done|]. intros E. unfold kmm in Hz. rewrite E, Hz in HP. done.
  - split; [done|]. split; [intros va b Hb; by apply Hpg3, Hpg2|]. intros v Hv H0 [Hva _]%not_elem_of_cons.
    rewrite Hpv3 by (by apply user_va_range). rewrite (user_va_page a v Hu Hv Hva), Hpv2. exact H0.
  - simpl in Hll. lia.
Qed.

(** What the loop establishes. *)
Definition grown (s : kst F) (pr : proc) (f : nat) (l c : list Z) (new : list Z) (st : kst F) : Prop :=
  exists pr' l' c', k_procs st !! p = Some pr' /\ paged st pr' [] f l' c' /\ keeps (kmm s) pr [] c new (kmm st) pr' [] c' /\
    pages pr' = pages pr + Z.of_nat (length new) /\ (length l <= length l' + 2 * length new)%nat /\
    (forall a, a ∈ new -> page_is (kmm st) pr' [] c' a (replicate pgn 0)).

Lemma allocuvm_body_ok s pr f n t l c a oldsz newsz :
  paged s pr [] f (n :: t :: l) c -> user_va a -> a < newsz -> pte_val (kmm s) (p_pgdir pr) a = 0 -> pages pr < 32 ->
  wp (allocuvm_body sel p (p_pgdir pr) oldsz newsz a)
    (fun r st => r = inl (a + 4096) /\ grown s pr f (n :: t :: l) c [a] st) (setp p pr s).
Proof.
  intros Hpg Hu Hlt Hz Hpages.
  destruct (paged_new_page _ _ _ _ _ _ _ _ Hpg Hu Hz) as (km1 & km3 & l3 & Ek & Hnpos & Emp & Hpg3 & Hk3 & Hl3 & Hpa & HaU).
  unfold allocuvm_body. rewrite (proj2 (Z.ltb_lt _ _) Hlt). cbn [negb].
  kstep. eapply wp_inmem; [exact Ek|]. rewrite (proj2 (Z.eqb_neq n 0)) by (unfold KERNBASE in Hnpos; lia).
  kstep. unfold kmemset. rewrite (proj2 (Z.leb_le _ _) Hnpos). apply wp_modify.
  kstep. eapply wp_inmem; [exact Emp|]. change (0 <? 0) with false.
  change (setm km3 _) with (setp p pr (setm km3 s)). kstep. apply on_getp; [apply (pg_len _ _ _ _ _ _ Hpg)|].
  kstep. eapply on_table_new; [exact Hpg3|exact HaU|exact Hpages|].
  intros s' pr' l' c' Hpg' Hk' Hp' Hl'. kstep. split.
  { destruct Hu as [_ Hu]. unfold KERNBASE in Hu. by rewrite u32_small by (unfold PGSIZE; lia). }
  exists pr', l', c'. split; [apply lookup_setp, (pg_len _ _ _ _ _ _ Hpg')|]. split.
  { destruct Hpg' as [H1 H2 H3 H4 H5 H6]. constructor; [|done..]. simpl. by rewrite length_insert. }
  split; [exact (keeps_trans _ _ _ _ _ _ _ _ _ _ _ _ _ _ Hk3 Hk')|]. split; [simpl; lia|]. split; [simpl; lia|].
  intros v Hv%list_elem_of_singleton. subst v. by apply Hk'.
Qed.

Lemma allocuvm_loop fuel m s pr f l c a oldsz newsz :
  (m < fuel)%nat -> k_procs s !! p = Some pr -> paged s pr [] f l c ->
  a mod 4096 = 0 -> 0 <= a -> a + 4096 * (Z.of_nat m - 1) < newsz <= a + 4096 * Z.of_nat m -> newsz < KERNBASE ->
  (forall v, v ∈ page_range a m -> pte_val (kmm s) (p_pgdir pr) v = 0) ->
  pages pr + Z.of_nat m <= 32 -> (2 * m <= length l)%nat ->
  wp (loop fuel (allocuvm_body sel p (p_pgdir pr) oldsz newsz) a)
    (fun r st => r = newsz /\ grown s pr f l c (page_range a m) st) s.
Proof.
  revert fuel s pr l c a. induction m as [|m IH]; intros fuel s pr l c a Hf Hpr Hpg Hm0 Ha Hn HK Hz Hpages Hl;
    (destruct fuel as [|fuel]; [lia|]); cbn [loop]; apply wp_bind.
  - unfold allocuvm_body. rewrite (proj2 (Z.ltb_ge a newsz)) by lia. cbn [negb]. apply wp_ret. apply wp_ret.
    split; [done|]. exists pr, l, c. simpl. split; [done|]. split; [done|]. split; [by split|]. split; [lia|]. split; [lia|].
    by intros v ?%not_elem_of_nil.
  - destruct l as [|n [|t l]]; [simpl in Hl; lia..|].
    assert (user_va a) as Hu by (split; [done|lia]).
    assert (pte_val (kmm s) (p_pgdir pr) a = 0) as Hza by (apply Hz; constructor).
    rewrite <- (setp_id p pr s Hpr) at 1. eapply wp_mono; [eapply allocuvm_body_ok; [exact Hpg|done|lia|done|lia]|].
    intros r st (-> & pr' & l' & c' & Hpr' & Hpg' & Hk & Hp & Hl' & Hnew). pose proof Hk as (Epd & _ & Hkz).
    rewrite <- Epd. simpl in Hp, Hl', Hl. eapply wp_mono; [apply (IH fuel st pr' l' c' (a + 4096))|].
    + lia.
    + done.
    + exact Hpg'.
    + by rewrite <- Zplus_mod_idemp_r, Z_mod_same_full, Z.add_0_r.
    + lia.
    + lia.
    + done.
    + intros v Hv. rewrite Epd. pose proof Hv as Hv'. apply elem_of_page_range in Hv' as (k & Hk' & ->).
      apply Hkz; [|apply Hz; by constructor|intros E%list_elem_of_singleton; lia].
      split; [Z.to_euclidean_division_equations; lia|lia].
    + lia.
    + lia.
    + intros r st' (-> & pr2 & l2 & c2 & Hpr2 & Hpg2 & Hk2 & Hp2 & Hl2 & Hnew2). split; [done|].
      rewrite length_page_range in Hp2, Hl2. exists pr2, l2, c2. split; [done|]. split; [done|].
      split; [exact (keeps_trans _ _ _ _ _ _ _ _ _ _ _ _ _ _ Hk Hk2)|].
      rewrite length_page_range. split; [lia|]. split; [simpl; lia|].
      intros v [->|Hv]%elem_of_cons; [|by apply Hnew2]. apply Hk2, Hnew. constructor.
Qed.

Lemma allocuvm_spec s pr par j f l c oldsz newsz :
  sel <> NONE -> k_procs s !! p = Some pr -> p_pid pr <> 1 ->
  p_parent pr = Some j -> k_procs s !! j = Some par -> p_pid par <> 1 ->
  paged s pr [] f l c -> 0 <= oldsz <= newsz -> newsz <= 4096 * 32 ->
  let new := page_range (PGROUNDUP oldsz) (Z.to_nat ((newsz - PGROUNDUP oldsz + PGSIZE - 1) / PGSIZE)) in
  (forall v, v ∈ new -> pte_val (kmm s) (p_pgdir pr) v = 0) ->
  pages pr + Z.of_nat (length new) <= 32 -> (2 * length new <= length l)%nat ->
  wp (allocuvm sel (p_pgdir pr) oldsz newsz) (fun r st => r = newsz /\ grown s pr f l c new st) s.
Proof.
  intros Hsel Hpr Hpid Hpar Hj Hppid Hpg Hsz Hmax new Hz Hpages Hl. unfold new in *. rewrite length_page_range in *.
  assert (PGROUNDUP oldsz = (oldsz + 4095) / 4096 * 4096) as Ea by (apply PGROUNDUP_div; lia).
  unfold allocuvm, myproc.
  rewrite bool_decide_eq_false_2 by done. apply wp_bind, wp_gets. rewrite (pg_cur _ _ _ _ _ _ Hpg).
  apply wp_bind, wp_bind. eapply wp_getp; [exact Hpr|]. rewrite (proj2 (Z.eqb_neq _ _) Hpid).
  unfold parent_pid. rewrite Hpar. apply wp_bind, wp_bind. eapply wp_getp; [exact Hj|]. apply wp_ret, wp_ret.
  rewrite (proj2 (Z.eqb_neq _ _) Hppid). cbv iota. unfold KERNBASE.
  rewrite (proj2 (Z.leb_gt _ newsz)), (proj2 (Z.ltb_ge newsz oldsz)) by lia.
  rewrite (PGROUNDUP_div newsz) by lia. unfold PGSIZE, MAX_TOTAL_PAGES in *.
  rewrite (proj2 (Z.ltb_ge 32 _)) by (Z.to_euclidean_division_equations; lia).
  eapply allocuvm_loop; [lia|exact Hpr|exact Hpg|rewrite Ea; by apply Z.mod_mul|rewrite Ea|rewrite Ea|unfold KERNBASE; lia|exact Hz|exact Hpages|exact Hl].
  - Z.to_euclidean_division_equations; lia.
  - rewrite Z2Nat.id by (Z.to_euclidean_division_equations; lia). Z.to_euclidean_division_equations; lia.
Qed.

End grow.
