(* ===== verification/FlatStore.v ===== *)
(** * A flat store of files

    The simplest model of the file-system interface: an array of open files, each a sequence of
    bytes with an offset.  It satisfies [SwapStore] and serves to run the paging code on concrete
    states. *)
From Stdlib Require Import ZArith Lia.
From stdpp Require Import base list numbers strings gmap.
From S2P Require Import Prelude Mmu Kstate Swap.
Local Open Scope Z_scope.

Abbreviation flat := (list (list Z * Z)).

Definition flat_get (f : nat) : M flat (list Z * Z) := fun fs =>
  match fs !! f with Some x => Ret x fs | None => Fault fs end.
Definition flat_put (f : nat) (x : list Z * Z) : M flat unit := fun fs => Ret tt (<[f := x]> fs).

Definition flat_setoff (f : nat) (off : Z) : M flat unit :=
  let! x := flat_get f in flat_put f (x.1, off).
Definition flat_read (f : nat) (n : Z) : M flat (Z * list Z) :=
  let! x := flat_get f in
  let l := take (Z.to_nat n) (drop (Z.to_nat x.2) x.1) in
  flat_put f (x.1, x.2 + Z.of_nat (length l)) ;;;
  ret (Z.of_nat (length l), l).
Definition flat_write (f : nat) (l : list Z) : M flat Z :=
  let! x := flat_get f in
  if (Z.of_nat (length x.1) <? x.2) || (140 * 512 <? x.2 + Z.of_nat (length l)) then ret (-1)
  else
    flat_put f (splice (Z.to_nat x.2) l x.1, x.2 + Z.of_nat (length l)) ;;;
    ret (Z.of_nat (length l)).

#[export] Instance flat_filesys : FileSys flat := {|
  fs_setoff := flat_setoff;
  fs_fileread := flat_read;
  fs_filewrite := flat_write;
  fs_filedup f := ret f;
  fs_fileclose _ := ret None;
  fs_namei _ _ := ret None;
  fs_idup ip := ret ip;
  fs_iput _ := skip;
  fs_ilock _ := skip;
  fs_iunlockput _ := skip;
  fs_readi _ _ _ := ret (-1, []);
  fs_begin_op := skip;
  fs_end_op := skip;
  fs_iinit _ := skip;
  fs_initlog _ := skip;
  fs_swap_create _ := (fun fs => Ret (length fs) (fs ++ [([], 0)]));
  fs_swap_unlink _ := ret 0 |}.

Definition flat_stored (fs : flat) (m : gmap nat (list Z)) : Prop := forall f c, m !! f = Some c -> fst <$> fs !! f = Some c.

Lemma flat_lookup (fs : flat) m f c : flat_stored fs m -> m !! f = Some c ->
  exists off, fs !! f = Some (c, off) /\ (f < length fs)%nat.
Proof.
  intros Hm Hf. apply Hm in Hf. destruct (fs !! f) as [[c' off]|] eqn:E; [|done]. injection Hf as ->. exists off.
  split; [done|]. by eapply lookup_lt_Some.
Qed.

Lemma flat_stored_insert fs m f c off : flat_stored fs m -> (f < length fs)%nat -> flat_stored (<[f := (c, off)]> fs) (<[f := c]> m).
Proof.
  intros Hm Hf g d. rewrite lookup_insert_Some. intros [[<- <-]|[Hg Hd]].
  - by rewrite list_lookup_insert_eq.
  - rewrite list_lookup_insert_ne by done. by apply Hm.
Qed.

Lemma flat_setoff_run (fs : flat) {A} f off c o (k : M flat A) : fs !! f = Some (c, o) ->
  (flat_setoff f off ;;; k) fs = k (<[f := (c, off)]> fs).
Proof. intros E. unfold flat_setoff, bind, flat_get, flat_put. by rewrite E. Qed.

#[export] Program Instance flat_swapstore : SwapStore flat := {|
  stored := flat_stored;
  room _ _ := True |}.
Next Obligation.
  intros fs m f k l c Hm Hc _ Hk Hkc Hl _. destruct (flat_lookup fs m f c Hm Hc) as (o & Ef & Hf). unfold MAX_PSYC_PAGES in Hk.
  cbn [fs_setoff fs_filewrite flat_filesys]. rewrite (flat_setoff_run fs f _ c o) by done. unfold flat_write, bind, flat_get, flat_put.
  rewrite list_lookup_insert_eq by done. cbn [fst snd]. unfold PGSIZE.
  rewrite (proj2 (Z.ltb_ge _ _)) by lia. rewrite (proj2 (Z.ltb_ge _ _)) by (rewrite Hl; lia). cbn [orb].
  eexists. split; [by rewrite Hl|]. split; [|done]. rewrite list_insert_insert_eq.
  replace (Z.to_nat (4096 * Z.of_nat k)) with (pgn * k)%nat by lia. by apply flat_stored_insert.
Qed.
Next Obligation.
  intros fs m f k l c Hm Hc _ Hkc Hl. destruct (flat_lookup fs m f c Hm Hc) as (o & Ef & Hf).
  cbn [fs_setoff fs_filewrite flat_filesys]. rewrite (flat_setoff_run fs f _ c o) by done. unfold flat_write, bind, flat_get, flat_put.
  rewrite list_lookup_insert_eq by done. cbn [fst snd]. unfold PGSIZE. rewrite (proj2 (Z.ltb_lt _ _)) by lia. cbn [orb].
  eexists. split; [reflexivity|]. rewrite <- (insert_id m f c) by done. by apply flat_stored_insert.
Qed.
Next Obligation.
  intros fs m f k c Hm Hc Hkc. destruct (flat_lookup fs m f c Hm Hc) as (o & Ef & Hf).
  cbn [fs_setoff fs_fileread flat_filesys]. rewrite (flat_setoff_run fs f _ c o) by done. unfold flat_read, bind, flat_get, flat_put.
  rewrite list_lookup_insert_eq by done. cbn [fst snd]. unfold PGSIZE. change (Z.to_nat 4096) with pgn.
  replace (Z.to_nat (4096 * Z.of_nat k)) with (pgn * k)%nat by lia.
  rewrite length_take_le by (rewrite length_drop; lia).
  eexists. split; [reflexivity|]. split; [|done]. rewrite list_insert_insert_eq, <- (insert_id m f c) by done. by apply flat_stored_insert.
Qed.
Next Obligation. done. Qed.
Next Obligation. done. Qed.
