(* ===== verification/Demo.v ===== *)
(** * A concrete paged process

    One process with sixteen resident pages (0 .. 0xF000, the first of them accessed) and one page
    (0x10000) in slot 0 of its swap file, on a page table with one table, for running the
    definitions of the paging code and for the witnesses of its theorems. *)
From Stdlib Require Import ZArith Lia.
From stdpp Require Import base list numbers strings gmap.
From S2P Require Import Prelude Mmu Mem Kalloc PageTable Spinlock Kstate Policy Queues Replacement Swap PteBits Uvm.
From S2P Require Import Uvmrun PagingInv PageFault FlatStore.
Local Open Scope Z_scope.

Definition demo_pgdir : Z := 0x80300000.
Definition demo_table : Z := 0x80301000.
Definition demo_pte (k : Z) : Z := if k =? 0 then 0x310027 else 0x310007 + 4096 * k.

(** The free pages, the directory entry, the entry of the swapped page, the sixteen others. *)
Definition demo_mem : mem :=
  fold_right (fun k m => st32 m (demo_table + 4 * k) (demo_pte k))
    (st32 (st32 (st32 (st32 (fun _ => 0) 0x80201000 0) 0x80200000 0x80201000) demo_pgdir 0x301007) (demo_table + 64) 0x206)
    [0; 1; 2; 3; 4; 5; 6; 7; 8; 9; 10; 11; 12; 13; 14; 15].

Definition demo_km : kmem := mkKmem demo_mem true false 0x80200000 2 2.

(** The free frames. *)
Definition demo_free : list Z := [0x80200000; 0x80201000].

Definition demo_slot (k : nat) : free_page :=
  mkFreePage (if (k <? 15)%nat then Some (k + 1)%nat else None) None (4096 * Z.of_nat k) (Z.of_nat k).

Definition demo_tf : trapframe := mkTrapframe 0 0 0 0 0 0 0 0 0 0 0 0 0 0 0 0 0 0 0.

Definition demo_proc : proc :=
  mkProc 0x11000 demo_pgdir 0x80400000 RUNNING 3 (Some 1%nat) demo_tf (mkContext 0 0 0 0 0) 0 NoChan false [] None []
    (Some 0%nat) 16 1 1 1
    (mkDiskInfo 0x10000 0 :: replicate 15 (mkDiskInfo NOVA 0))
    (map demo_slot (seq 0 16)) (Some 0%nat) (Some 15%nat).

(** Its parent, the shell. *)
Definition demo_parent : proc :=
  mkProc 0x4000 0x80302000 0x80402000 SLEEPING 2 None demo_tf (mkContext 0 0 0 0 0) 0 NoChan false [] None []
    None 0 0 0 0 (replicate 16 (mkDiskInfo NOVA 0)) (replicate 16 (mkFreePage None None NOVA 0)) None None.

Definition demo_content : list Z := replicate pgn 7.

Definition demo_state : kst flat :=
  mkKst demo_km (V2P demo_pgdir) [demo_proc; demo_parent] (Some 0%nat) 4 None
    (mkSmp (fun _ => true) [mkCpu 0 0 false] [mkSpinlock 0 "ptable" None []] []) [] (mkTaskstate 0 0 0) 0 0 0 false []
    [(demo_content, 0)].

(** ** The page table *)

#[local] Existing Instance demo_image.

(** A fact about each of the sixteen slots. *)
Lemma forall16 (P : nat -> Prop) : Forall P (seq 0 16) -> forall i, (i < 16)%nat -> P i.
Proof. intros H i Hi. rewrite Forall_forall in H. apply H, elem_of_seq. lia. Qed.
Ltac slot16 := apply forall16; cbn [seq]; repeat apply Forall_cons_2; [..|apply Forall_nil_2].

Lemma demo_pte_val i : (i < 16)%nat -> pte_val demo_mem demo_pgdir (4096 * Z.of_nat i) = demo_pte (Z.of_nat i).
Proof. revert i. slot16; vm_compute; reflexivity. Qed.

Lemma demo_pde i : 0 < i < 1024 -> pde_val demo_mem demo_pgdir i = 0.
Proof.
  intros Hi. unfold pde_val, demo_mem, demo_table, demo_pgdir. cbn [fold_right].
  rewrite !ld32_st32_ne by lia. reflexivity.
Qed.

Lemma demo_present i : present demo_mem demo_pgdir i -> i = 0.
Proof.
  intros [Hi Hp]. destruct (Z.eq_dec i 0); [done|]. rewrite demo_pde in Hp by lia. done.
Qed.

Lemma demo_table0 : table demo_mem demo_pgdir 0 = demo_table.
Proof. vm_compute. reflexivity. Qed.

Lemma demo_pt_page q : pt_page demo_mem demo_pgdir q -> q = demo_pgdir \/ q = demo_table.
Proof. intros [->|(i & Hi & ->)]; [by left|right]. by rewrite (demo_present i Hi), demo_table0. Qed.

Lemma demo_kpage q : q mod 4096 = 0 -> 0x80115000 <= q <= 0x8DFFF000 -> kpage q.
Proof. intros Hm Hq. unfold kpage, kend, KERNBASE, PHYSTOP. simpl. lia. Qed.

Lemma demo_pt_wf : pt_wf demo_mem demo_pgdir.
Proof.
  split; [by apply demo_kpage|]. split.
  - intros i Hi. rewrite (demo_present i Hi), demo_table0. split; [by apply demo_kpage|done].
  - intros i j Hi Hj _. by rewrite (demo_present i Hi), (demo_present j Hj).
Qed.

Lemma demo_free_elem q : q ∈ demo_free -> q = 0x80200000 \/ q = 0x80201000.
Proof. unfold demo_free. rewrite elem_of_cons, list_elem_of_singleton. done. Qed.

Lemma demo_proc_vm_wf : vm_wf demo_km demo_pgdir demo_free.
Proof.
  split; [|split; [apply demo_pt_wf|]].
  - split; [|split; [|done]].
    + cbn [free_chain freelist demo_km km_mem demo_free]. split; [done|]. split; [by apply demo_kpage|].
      split; [vm_compute; reflexivity|]. split; [by apply demo_kpage|vm_compute; reflexivity].
    + apply NoDup_cons_2; [|apply NoDup_singleton]. by intros ?%list_elem_of_singleton.
  - intros q [->| ->]%demo_free_elem Hp; by destruct (demo_pt_page _ Hp).
Qed.

(** ** The process *)

Lemma demo_slot_va i : slot_va demo_proc i = if (i <? 16)%nat then 4096 * Z.of_nat i else NOVA.
Proof.
  destruct (Nat.ltb_spec i 16).
  - revert i H. slot16; reflexivity.
  - unfold slot_va. rewrite lookup_ge_None_2; [done|]. simpl. lia.
Qed.

Lemma demo_disk_va j : disk_va demo_proc j = if (j =? 0)%nat then 0x10000 else NOVA.
Proof.
  destruct (Nat.ltb_spec j 16).
  - revert j H. slot16; reflexivity.
  - unfold disk_va. rewrite lookup_ge_None_2 by (simpl; lia). by destruct j; [lia|].
Qed.

Lemma demo_frame i : (i < 16)%nat ->
  frame demo_mem demo_pgdir (4096 * Z.of_nat i) = 0x80310000 + 4096 * Z.of_nat i.
Proof. unfold frame. intros Hi. rewrite demo_pte_val by done. revert i Hi. slot16; vm_compute; reflexivity. Qed.

Lemma demo_in_mem va : in_mem demo_proc [] va -> exists i, (i < 16)%nat /\ va = 4096 * Z.of_nat i.
Proof.
  intros [Hn [[i <-]|?%not_elem_of_nil]]; [|done]. exists i. rewrite demo_slot_va in *.
  destruct (Nat.ltb_spec i 16); done.
Qed.

Lemma demo_pte_PW i : (i < 16)%nat ->
  has (demo_pte (Z.of_nat i)) PTE_P = true /\ has (demo_pte (Z.of_nat i)) PTE_W = true.
Proof. revert i. slot16; split; reflexivity. Qed.

Lemma demo_resident i : (i < 16)%nat ->
  resident demo_mem demo_pgdir demo_free (4096 * Z.of_nat i).
Proof.
  intros Hi. split; [split; [rewrite Z.mul_comm; apply Z.mod_mul; lia|unfold KERNBASE; lia]|].
  rewrite demo_frame, demo_pte_val by done. split; [by apply demo_pte_PW|]. split; [by apply demo_pte_PW|].
  split; [apply demo_kpage; [|lia]|split].
  - rewrite (Z.mul_comm 4096), Z_mod_plus_full. done.
  - intros [E|E]%demo_free_elem; lia.
  - intros [E|E]%demo_pt_page; unfold demo_pgdir, demo_table in E; lia.
Qed.

Lemma chain_seq n k m : (forall i, nxt (map demo_slot (seq 0 16)) i =
    if (i <? 15)%nat then Some (i + 1)%nat else None) -> (k + n = 15)%nat -> m = Some k ->
  chain (nxt (map demo_slot (seq 0 16))) m (seq k (S n)).
Proof.
  intros Hnx. revert k m. induction n as [|n IH]; intros k m Hk ->.
  - simpl. split; [done|]. rewrite Hnx. by replace k with 15%nat by lia.
  - change (seq k (S (S n))) with (k :: seq (S k) (S n)). split; [done|]. apply IH; [lia|].
    rewrite Hnx. destruct (Nat.ltb_spec k 15); [f_equal; lia|lia].
Qed.

Lemma demo_nxt i : nxt (map demo_slot (seq 0 16)) i = if (i <? 15)%nat then Some (i + 1)%nat else None.
Proof.
  destruct (Nat.ltb_spec i 16) as [H|H].
  - revert i H. slot16; reflexivity.
  - unfold nxt. rewrite lookup_ge_None_2 by (simpl; lia). by destruct (Nat.ltb_spec i 15); [lia|].
Qed.

Lemma demo_fifo : fifo_proc demo_proc (seq 0 16).
Proof.
  split; [apply chain_seq; [apply demo_nxt|done|done]|]. split; [done|]. split; [apply NoDup_seq|]. split.
  - apply Forall_forall. intros i Hi%elem_of_seq. simpl. lia.
  - intros i [= <-]. done.
Qed.

Lemma demo_lists_used : lists_used demo_proc (seq 0 16).
Proof.
  intros i. rewrite elem_of_seq, demo_slot_va. destruct (Nat.ltb_spec i 16) as [H|H].
  - split; [unfold NOVA; lia|lia].
  - split; [lia|done].
Qed.

Lemma demo_paging_inv :
  @paging_inv demo_image flat _ _ SCFIFO _ demo_km [(demo_content, 0)] demo_proc [] 0%nat demo_free demo_content.
Proof.
  constructor; try done.
  - apply demo_proc_vm_wf.
  - split; [|exists 1%nat; unfold demo_content; by rewrite length_replicate]. exists {[0%nat := demo_content]}.
    split; [|by rewrite lookup_singleton_eq]. intros f c [<- <-]%lookup_singleton_Some. done.
  - apply Forall_replicate. lia.
  - exists (seq 0 16). split; [apply demo_fifo|apply demo_lists_used].
  - by intros va ?%not_elem_of_nil.
  - intros va (i & Hi & ->)%demo_in_mem. by apply demo_resident.
  - intros i j. rewrite !demo_slot_va. destruct (Nat.ltb_spec i 16), (Nat.ltb_spec j 16); unfold NOVA; lia.
  - intros va va' (i & Hi & ->)%demo_in_mem (j & Hj & ->)%demo_in_mem.
    change (p_pgdir demo_proc) with demo_pgdir. cbn [km_mem demo_km]. rewrite !demo_frame by done. lia.
  - intros j. rewrite demo_disk_va. destruct j as [|j]; [intros _|done]. cbn [Nat.eqb].
    split; [|unfold demo_content; rewrite length_replicate; lia]. split; [split; [done|unfold KERNBASE; lia]|].
    split; [eexists; vm_compute; reflexivity|]. split; [reflexivity|]. split; reflexivity.
  - intros i j. rewrite !demo_disk_va. destruct i, j; done.
Qed.
