(* ===== verification/PagingThms.v ===== *)
(** * The theorems of page replacement and demand paging

    What each replacement scheme does, and that servicing a page fault is transparent to the
    process, with concrete instances of each theorem. *)
From Stdlib Require Import ZArith Lia.
From stdpp Require Import base list numbers strings sets.
From S2P Require Import Prelude Mmu Mem Kalloc PageTable Kstate Policy Queues Replacement Swap PteBits Uvm.
From S2P Require Import Uvmrun PagingInv PageFault Grow FlatStore Demo.
Local Open Scope Z_scope.

(** ** Demand paging *)

(** C1: demand paging is transparent.  When a process whose tables satisfy the paging invariant
    faults on a page in its swap file, a page frame is free and, when sixteen pages are resident, one
    of them is a user page (PTE_U), getPageFromFile returns 1 under
    every replacement scheme; the page is then resident, the invariant holds again, and every page
    of the process, resident or swapped, has the contents it had before. *)
Theorem getPageFromFile_transparent `{Image} {F} `{SwapStore F} sel `{!Replacement sel}
    (s : kst F) p pr f n l c j fa :
  k_procs s !! p = Some pr -> k_cur s = Some p ->
  paging_inv (k_mem s) (k_fs s) pr [] f (n :: l) c ->
  disk_va pr j <> NOVA -> disk_va pr j <= fa < disk_va pr j + 4096 ->
  (16 <= p_pages_in_memory_counter pr -> exists i, (i < MAX_PSYC_PAGES)%nat /\
     has (pte_val (kmm s) (p_pgdir pr) (slot_va pr i)) PTE_U = true) ->
  exists s' pr' l' c', getPageFromFile sel fa s = Ret 1 s' /\
    k_procs s' !! p = Some pr' /\ paging_inv (k_mem s') (k_fs s') pr' [] f l' c' /\
    (exists i, slot_va pr' i = disk_va pr j) /\
    (forall va b, page_is (kmm s) pr [] c va b -> page_is (kmm s') pr' [] c' va b).
Proof.
  intros Hpr Hcur Hinv Hj Hfa HU.
  pose proof (getPageFromFile_spec p s pr f n l c j fa Hpr Hcur Hinv Hj Hfa HU) as Hwp.
  apply wp_elim in Hwp as (r & s' & E & -> & pr' & l' & c' & Hp & Hi & Hr & _ & _ & Hpg).
  exists s', pr', l', c'. auto.
Qed.

(** Page 0x10000 of the demonstration process is needed while all slots are taken. *)
Lemma getPageFromFile_transparent_witness :
  exists s' pr' l' c', @getPageFromFile demo_image flat _ SCFIFO 0x10004 demo_state = Ret 1 s' /\
    k_procs s' !! 0%nat = Some pr' /\
    @paging_inv demo_image flat _ _ SCFIFO _ (k_mem s') (k_fs s') pr' [] 0%nat l' c' /\
    (exists i, slot_va pr' i = disk_va demo_proc 0) /\
    (forall va b, page_is (kmm demo_state) demo_proc [] demo_content va b -> page_is (kmm s') pr' [] c' va b).
Proof.
  apply (@getPageFromFile_transparent demo_image flat _ _ SCFIFO _ demo_state 0%nat demo_proc 0%nat
    0x80200000 [0x80201000] demo_content 0%nat 0x10004).
  - reflexivity.
  - reflexivity.
  - apply demo_paging_inv.
  - rewrite demo_disk_va. done.
  - rewrite demo_disk_va. cbn [Nat.eqb]. lia.
  - intros _. exists 0%nat. split; [unfold MAX_PSYC_PAGES; lia|]. vm_compute. reflexivity.
Defined.

(** C4: sbrk under paging.  A process (not init or a child of init) whose pages satisfy the paging
    invariant grows from oldsz to newsz, at most 32 pages in all, with two free frames for each page
    to add and room for its swap file; its page table is the active one, none of the new pages has an entry
    yet, and at most one resident page is not a user page.  Then allocuvm returns newsz under every replacement scheme, moving
    pages to the swap file when 16 are resident; every new page then reads as zeroes, every other
    page of the process, resident or swapped, has the contents it had before, and the invariant
    holds again. *)
Theorem allocuvm_grows `{Image} {F} `{SwapStore F} sel `{!Replacement sel}
    (s : kst F) p pr par j f l c oldsz newsz :
  sel <> NONE -> k_procs s !! p = Some pr -> p_pid pr <> 1 ->
  p_parent pr = Some j -> k_procs s !! j = Some par -> p_pid par <> 1 ->
  k_cur s = Some p -> k_cr3 s = V2P (p_pgdir pr) -> paging_inv (k_mem s) (k_fs s) pr [] f l c ->
  swap_room (k_fs s) c -> usable (kmm s) pr -> 0 <= oldsz <= newsz -> newsz <= 4096 * 32 ->
  let new := page_range (PGROUNDUP oldsz) (Z.to_nat ((newsz - PGROUNDUP oldsz + PGSIZE - 1) / PGSIZE)) in
  (forall va, va ∈ new -> pte_val (kmm s) (p_pgdir pr) va = 0) ->
  pages pr + Z.of_nat (length new) <= 32 -> (2 * length new <= length l)%nat ->
  exists s' pr' l' c', allocuvm sel (p_pgdir pr) oldsz newsz s = Ret newsz s' /\
    k_procs s' !! p = Some pr' /\ paging_inv (k_mem s') (k_fs s') pr' [] f l' c' /\
    pages pr' = pages pr + Z.of_nat (length new) /\
    (forall va, va ∈ new -> page_is (kmm s') pr' [] c' va (replicate pgn 0)) /\
    (forall va b, page_is (kmm s) pr [] c va b -> page_is (kmm s') pr' [] c' va b).
Proof.
  intros Hsel Hpr Hpid Hpar Hj Hppid Hcur Hcr Hinv Hroom Hus Hsz Hmax new Hz Hpages Hl.
  assert (paged p s pr [] f l c) as Hpg by (constructor; try done; by eapply lookup_lt_Some).
  pose proof (allocuvm_spec p s pr par j f l c oldsz newsz Hsel Hpr Hpid Hpar Hj Hppid Hpg Hsz Hmax Hz Hpages Hl) as Hwp.
  apply wp_elim in Hwp as (r & s' & E & -> & pr' & l' & c' & Hp' & Hpg' & (_ & Hk & _) & Hn & _ & Hnew).
  exists s', pr', l', c'. split; [exact E|]. split; [exact Hp'|]. split; [apply Hpg'|]. auto.
Qed.

(** The demonstration process grows from 17 pages to 18. *)
Lemma allocuvm_grows_witness :
  exists s' pr' l' c', @allocuvm demo_image flat _ SCFIFO demo_pgdir 0x11000 0x12000 demo_state = Ret 0x12000 s' /\
    k_procs s' !! 0%nat = Some pr' /\
    @paging_inv demo_image flat _ _ SCFIFO _ (k_mem s') (k_fs s') pr' [] 0%nat l' c' /\ pages pr' = 18 /\
    (forall va, va ∈ [0x11000] -> page_is (kmm s') pr' [] c' va (replicate pgn 0)) /\
    (forall va b, page_is (kmm demo_state) demo_proc [] demo_content va b -> page_is (kmm s') pr' [] c' va b).
Proof.
  apply (@allocuvm_grows demo_image flat _ _ SCFIFO _ demo_state 0%nat demo_proc demo_parent 1%nat 0%nat
    demo_free demo_content 0x11000 0x12000); try done.
  - apply demo_paging_inv.
  - exists NOVA. intros i Hi _. rewrite demo_slot_va in *. destruct (Nat.ltb_spec i 16) as [Hlt|]; [|done].
    change (kmm demo_state) with demo_mem. change (p_pgdir demo_proc) with demo_pgdir.
    rewrite demo_pte_val by done. revert i Hi Hlt. intros i _. revert i. slot16; reflexivity.
  - intros va Hva. change (page_range _ _) with [0x11000] in Hva.
    apply list_elem_of_singleton in Hva as ->. vm_compute. reflexivity.
Defined.

(** ** Replacement *)

(** C18: scfifo_alg is the second-chance rule.  On a queue of at least two pages (or with the access
    bit of the first page clear) it returns: pages at the head whose access bit is set are moved,
    in order, to the tail and their bits are cleared; the first other page is returned and leaves
    the queue (the old head, when all bits were set); nothing else in memory or in the process
    changes. *)
Theorem scfifo_second_chance `{Image} {F} (s : kst F) p pr i rest :
  (p < length (k_procs s))%nat -> k_cur s = Some p -> pt_wf (kmm s) (p_pgdir pr) ->
  let q := i :: rest in
  let acc := accessed (kmm s) pr in
  (length q <= MAX_PSYC_PAGES)%nat -> fifo_proc pr q -> queue_pages (kmm s) pr q ->
  (2 <= length q)%nat \/ acc i = false ->
  exists v q' pr' m', second_chance acc q = Some (v, q') /\
    scfifo_alg p (setp p pr s) = Ret (Some v) (setp p pr' (upd_mem m' s)) /\
    relinked pr pr' /\ fifo_proc pr' q' /\ pt_wf m' (p_pgdir pr) /\
    cleared (p_pgdir pr) (kmm s) m' (map (slot_va pr) (sc_pass acc q)).
Proof. intros Hlen Hcur Hpt q acc Hmax Hq Hpg H2. by eapply (scfifo_alg_spec p s pr q). Qed.

Lemma demo_queue_pages : queue_pages demo_mem demo_proc (seq 0 16).
Proof.
  apply queue_pages_used; [apply NoDup_seq|apply demo_lists_used|].
  apply (@inv_resident_pages demo_image flat _ _ SCFIFO _ demo_km [(demo_content, 0)] demo_proc [] 0%nat
    demo_free demo_content), demo_paging_inv.
Qed.

(** In the demonstration process page 0 has been accessed, so page 1 is the victim. *)
Lemma scfifo_second_chance_witness :
  second_chance (accessed demo_mem demo_proc) (seq 0 16) = Some (1%nat, seq 2 14 ++ [0%nat]) /\
  exists v q' pr' m', second_chance (accessed demo_mem demo_proc) (seq 0 16) = Some (v, q') /\
    @scfifo_alg flat 0%nat (setp 0 demo_proc demo_state) = Ret (Some v) (setp 0 pr' (upd_mem m' demo_state)) /\
    relinked demo_proc pr' /\ fifo_proc pr' q' /\ @pt_wf demo_image m' demo_pgdir /\
    cleared demo_pgdir demo_mem m' (map (slot_va demo_proc) (sc_pass (accessed demo_mem demo_proc) (seq 0 16))).
Proof.
  split; [vm_compute; reflexivity|].
  apply (@scfifo_second_chance demo_image flat demo_state 0%nat demo_proc 0%nat (seq 1 15)).
  - simpl. lia.
  - reflexivity.
  - apply demo_pt_wf.
  - unfold MAX_PSYC_PAGES. simpl. lia.
  - apply demo_fifo.
  - apply demo_queue_pages.
  - left. simpl. lia.
Defined.

(** Under SCFIFO a page is entered at the end of the queue: update_memory returns the first
    unused slot, which now holds the page with age 0, the counter goes up by one, and the queue is
    the old one followed by that slot. *)
Lemma scfifo_enter_appends `{Image} {F} (s : kst F) p pr i va q :
  (p < length (k_procs s))%nat -> length (p_memory_pg_arr pr) = MAX_PSYC_PAGES ->
  first_free pr i -> fifo_proc pr q -> (i ∉ q) ->
  exists pr', update_memory SCFIFO p va (setp p pr s) = Ret i (setp p pr' s) /\
    entered i va 0 pr pr' /\ fifo_proc pr' (q ++ [i]).
Proof. apply (update_memoryscfifo_spec p SCFIFO s pr i va q). Qed.

(** A process with no pages. *)
Definition empty_proc : proc :=
  mkProc 0 0x80300000 0x80400000 RUNNING 3 (Some 1%nat) demo_tf (mkContext 0 0 0 0 0) 0 NoChan false [] None []
    (Some 0%nat) 0 0 0 0 (replicate 16 (mkDiskInfo NOVA 0)) (replicate 16 (mkFreePage None None NOVA 0)) None None.

(** C20: nfu_alg returns the first slot with the smallest age among the used ones, comparing ages as
    unsigned numbers, and changes nothing. *)
Theorem nfu_evicts_least {F} p (s : kst F) pr :
  (p < length (k_procs s))%nat -> length (p_memory_pg_arr pr) = MAX_PSYC_PAGES -> proc_ages_ok pr ->
  (exists i, slot_va pr i <> NOVA) ->
  exists i, nfu_alg p (setp p pr s) = Ret (Some i) (setp p pr s) /\ least fp_age (p_memory_pg_arr pr) i.
Proof. apply nfu_alg_least. Qed.

Lemma demo_ages_ok : proc_ages_ok demo_proc.
Proof. unfold proc_ages_ok, ages_ok. simpl. repeat apply Forall_cons_2; try apply Forall_nil_2; simpl; lia. Qed.

Lemma nfu_evicts_least_witness :
  exists i, nfu_alg 0 (setp 0 demo_proc demo_state) = Ret (Some i) (setp 0 demo_proc demo_state) /\
    least fp_age (p_memory_pg_arr demo_proc) i.
Proof.
  apply (nfu_evicts_least 0%nat demo_state demo_proc).
  - simpl. lia.
  - reflexivity.
  - apply demo_ages_ok.
  - exists 1%nat. rewrite demo_slot_va. done.
Defined.

(** C21: lapa_alg returns the used slot whose age has the fewest one bits, among those with equally
    many the one with the smallest age, and among those with the same age the first; it changes
    nothing. *)
Theorem lapa_evicts_least {F} p (s : kst F) pr :
  (p < length (k_procs s))%nat -> length (p_memory_pg_arr pr) = MAX_PSYC_PAGES -> proc_ages_ok pr ->
  (exists i, slot_va pr i <> NOVA) ->
  exists i, lapa_alg p (setp p pr s) = Ret (Some i) (setp p pr s) /\
    exists f, p_memory_pg_arr pr !! i = Some f /\ fp_va f <> NOVA /\
      forall j g, p_memory_pg_arr pr !! j = Some g -> fp_va g <> NOVA ->
        popcount (fp_age f) < popcount (fp_age g) \/
        popcount (fp_age f) = popcount (fp_age g) /\
          (fp_age f < fp_age g \/ fp_age f = fp_age g /\ (i <= j)%nat).
Proof.
  intros Hlen H16 Hok Hex. destruct (lapa_alg_least p s pr Hlen H16 Hok Hex) as (i & E & f & Hf & Ho & Hm).
  exists i. split; [done|]. exists f. split; [done|]. split; [done|]. intros j g Hj Hg.
  destruct (Hm j g Hj Hg) as [Hle Hlt].
  assert (0 <= fp_age f < 2 ^ 32 /\ 0 <= fp_age g < 2 ^ 32) as [Hf32 Hg32].
  { split; [apply (Forall_lookup_1 _ _ _ _ Hok Hf)|apply (Forall_lookup_1 _ _ _ _ Hok Hj)]. }
  destruct (lapa_key_le f g Hf32 Hg32 Hle) as [?|[Ec Ea]]; [by left|right]. split; [done|].
  destruct (Z.eq_dec (fp_age f) (fp_age g)) as [Eg|]; [right|left; lia]. split; [done|].
  destruct (Nat.le_gt_cases i j) as [|Hji]; [done|]. destruct (lapa_key_eq f g Ec Eg (Hlt Hji)).
Qed.

Lemma lapa_evicts_least_witness :
  exists i, lapa_alg 0 (setp 0 demo_proc demo_state) = Ret (Some i) (setp 0 demo_proc demo_state) /\
    exists f, p_memory_pg_arr demo_proc !! i = Some f /\ fp_va f <> NOVA /\
      forall j g, p_memory_pg_arr demo_proc !! j = Some g -> fp_va g <> NOVA ->
        popcount (fp_age f) < popcount (fp_age g) \/
        popcount (fp_age f) = popcount (fp_age g) /\
          (fp_age f < fp_age g \/ fp_age f = fp_age g /\ (i <= j)%nat).
Proof.
  apply (lapa_evicts_least 0%nat demo_state demo_proc).
  - simpl. lia.
  - reflexivity.
  - apply demo_ages_ok.
  - exists 1%nat. rewrite demo_slot_va. done.
Defined.

(** C19: aq_alg takes the oldest page with its user bit set.  With the [prev] pointers from the tail
    listing the pages from oldest to newest and at least one user page among them, it returns the
    first page in that order whose PTE_U is set, unlinked; the pages before it, which have no user
    bit, follow the newest one in the remaining queue, in order. *)
Theorem aq_evicts_oldest_user `{Image} {F} (s : kst F) p pr q :
  (p < length (k_procs s))%nat -> k_cur s = Some p -> pt_wf (kmm s) (p_pgdir pr) ->
  queue_pages (kmm s) pr q -> (length q <= MAX_PSYC_PAGES)%nat -> aq_proc pr q ->
  Exists (fun k => no_user (kmm s) pr k = false) q ->
  exists v q' pr', second_chance (no_user (kmm s) pr) q = Some (v, q') /\ no_user (kmm s) pr v = false /\
    aq_alg p (setp p pr s) = Ret (Some v) (setp p pr' s) /\ relinked pr pr' /\ aq_proc pr' q'.
Proof. intros Hlen Hcur Hpt Hpg Hmax Hq Hex. by apply aq_alg_spec. Qed.

(** The queue of one page. *)
Definition aq_demo_proc : proc :=
  set_p_head (Some 0%nat) (set_p_tail (Some 0%nat)
    (set_p_memory_pg_arr (mkFreePage None None 0x1000 0 :: replicate 15 (mkFreePage None None NOVA 0)) demo_proc)).

Lemma aq_evicts_oldest_user_witness :
  exists v q' pr', second_chance (no_user demo_mem aq_demo_proc) [0%nat] = Some (v, q') /\
    no_user demo_mem aq_demo_proc v = false /\
    @aq_alg flat 0%nat (setp 0 aq_demo_proc demo_state) = Ret (Some v) (setp 0 pr' demo_state) /\
    relinked aq_demo_proc pr' /\ aq_proc pr' q'.
Proof.
  apply (@aq_evicts_oldest_user demo_image flat demo_state 0%nat aq_demo_proc [0%nat]).
  - simpl. lia.
  - reflexivity.
  - apply demo_pt_wf.
  - split; [apply NoDup_singleton|]. repeat constructor; unfold slot_va; simpl; lia.
  - unfold MAX_PSYC_PAGES. simpl. lia.
  - split; [done|]. split; [done|]. split; [apply NoDup_singleton|]. split; [|intros i [= <-]; done].
    repeat constructor.
  - constructor. vm_compute. reflexivity.
Defined.
