(* ===== verification/Proc.v ===== *)
(** * Processes (src/proc.c; the address-space switches of src/vm.c)

    The process table and its operations, on the kernel state.  ptable.lock is spin lock 0; a
    lock is taken at the first attempt, since the code between two switches runs by itself here
    (the interleaving of processors is the subject of [Spinlock]).  Functions that reach swtch()
    are programs of [Resume]; the others are plain actions.  [&ptable.proc[i]] is [i]. *)
From Stdlib Require Import ZArith Lia Ascii String.
From stdpp Require Import base list numbers strings.
From S2P Require Import Prelude Mmu Mem Kalloc PageTable Spinlock Resume Kstate Policy Swap Uvm.
Local Open Scope Z_scope.

Definition PTABLE : nat := 0.
Definition ROOTDEV : Z := 1.
Definition newline : string := String.String (Ascii.ascii_of_nat 10) "".

Definition str_bytes (s : string) : list Z :=
  map (fun c => Z.of_N (Ascii.N_of_ascii c)) (String.list_ascii_of_string s).
(** The characters up to the terminating NUL. *)
Fixpoint name_str (l : list Z) : string :=
  match l with
  | [] => ""
  | c :: l' => if c =? 0 then "" else String.String (Ascii.ascii_of_N (Z.to_N c)) (name_str l')
  end.

(** safestrcpy from an array of bytes to another; [t] holds a NUL or [n - 1] bytes. *)
Fixpoint safestrcpy_arr (s t : list Z) (n : nat) : list Z :=
  match n, s with
  | O, _ | _, [] => s
  | S k, _ :: s' =>
    match k, t with
    | O, _ => 0 :: s'
    | S _, [] => s
    | S _, c :: t' => if c =? 0 then 0 :: match s' with [] => [] | _ :: s'' => 0 :: s'' end
                      else c :: safestrcpy_arr s' t' k
    end
  end.

Definition set_sd_s (v : Z) (d : segdesc) : segdesc :=
  mkSegdesc (lim_15_0 d) (base_15_0 d) (base_23_16 d) (sd_type d) v (sd_dpl d) (sd_p d) (lim_19_16 d)
    (sd_avl d) (sd_rsv1 d) (sd_db d) (sd_g d) (base_31_24 d).

Section proc.
Context {img : Image} {F : Type} `{FileSys F}.
Variable sel : selection.
(** -DTRUE: print the processes that exit *)
Variable verbose : bool.
(** The executing processor: its APIC id and the address of its task state *)
Variables me ts_addr : Z.
(** Addresses of the code of forkret and trapret, and the image of initcode.S *)
Variables forkret_addr trapret_addr : Z.
Variable initcode : list Z.
(** The registers that swtch.S saves *)
Variable regs : kst F -> context.

Definition insmp {A} (m : M smp A) : M (kst F) A := lift k_smp set_k_smp m.
Definition acquire_k (l : nat) : M (kst F) unit := insmp (acquire 1 me l []).
Definition release_k (l : nat) : M (kst F) unit := insmp (release me l).

(** ** Segments and address-space switches (vm.c) *)

Definition put_gdt (i : Z) (d : segdesc) : M (kst F) unit :=
  modify (fun s => set_k_gdt (<[Z.to_nat i := d]> (k_gdt s)) s).

Definition cpuid : M (kst F) nat := insmp (mycpu me).

Definition seginit : M (kst F) unit :=
  cpuid ;;;
  put_gdt SEG_KCODE (SEG (Z.lor STA_X STA_R) 0 0xffffffff 0) ;;;
  put_gdt SEG_KDATA (SEG STA_W 0 0xffffffff 0) ;;;
  put_gdt SEG_UCODE (SEG (Z.lor STA_X STA_R) 0 0xffffffff DPL_USER) ;;;
  put_gdt SEG_UDATA (SEG STA_W 0 0xffffffff DPL_USER).

Definition switchkvm : M (kst F) unit :=
  let! k := gets k_kpgdir in
  lcr3 (V2P k).

Definition kvmalloc : M (kst F) unit :=
  let! k := setupkvm sel in
  modify (set_k_kpgdir k) ;;;
  switchkvm.

(** sizeof(struct taskstate) is 104. *)
Definition switchuvm (p : option nat) : M (kst F) unit :=
  match p with
  | None => panic "switchuvm: no process"
  | Some i =>
    let! pr := getp i in
    if p_kstack pr =? 0 then panic "switchuvm: no kstack"
    else if p_pgdir pr =? 0 then panic "switchuvm: no pgdir"
    else
      insmp (pushcli me) ;;;
      insmp (mycpu me) ;;;
      put_gdt SEG_TSS (SEG16 STS_T32A ts_addr (104 - 1) 0) ;;;
      modify (fun s => set_k_gdt (alter (set_sd_s 0) (Z.to_nat SEG_TSS) (k_gdt s)) s) ;;;
      modify (set_k_ts (mkTaskstate (u32 (p_kstack pr + KSTACKSIZE)) (Z.shiftl SEG_KDATA 3) 0xFFFF)) ;;;
      modify (set_k_tr (Z.shiftl SEG_TSS 3)) ;;;
      lcr3 (V2P (p_pgdir pr)) ;;;
      insmp (popcli me)
  end.

(** ** Creating processes *)

Definition pinit : M (kst F) unit := insmp (initlock PTABLE "ptable").

Definition find_unused : M (kst F) (option nat) :=
  for_range NPROC 0 (fun i =>
    let! p := getp i in
    ret (if bool_decide (p_state p = UNUSED) then Some i else None)).

(** The paging fields, as allocproc sets them. *)
Definition init_paging (p : proc) : proc :=
  let p := set_p_pagedout 0 p in
  let p := set_p_pages_in_memory_counter 0 p in
  let p := set_p_pages_in_swapfile_counter 0 p in
  let p := set_p_fault_counter 0 p in
  let p := set_p_disk_pg_arr (replicate MAX_PSYC_PAGES (mkDiskInfo NOVA (-1))) p in
  let p := set_p_memory_pg_arr (replicate MAX_PSYC_PAGES (mkFreePage None None NOVA (default_age sel))) p in
  let p := set_p_head None p in
  set_p_tail None p.

(** The new trap frame is uninitialised stack: [p_tf] keeps its old contents. *)
Definition allocproc : M (kst F) (option nat) :=
  acquire_k PTABLE ;;;
  let! r := find_unused in
  match r with
  | None => release_k PTABLE ;;; ret None
  | Some i =>
    updp i (set_p_state EMBRYO) ;;;
    let! pid := gets k_nextpid in
    updp i (set_p_pid pid) ;;;
    modify (set_k_nextpid (i32 (pid + 1))) ;;;
    release_k PTABLE ;;;
    let! k := inmem kalloc in
    updp i (set_p_kstack k) ;;;
    if k =? 0 then updp i (set_p_state UNUSED) ;;; ret None
    else
      updp i (set_p_retaddr trapret_addr) ;;;
      updp i (set_p_context (mkContext 0 0 0 0 0)) ;;;
      updp i (fun p => set_p_context (set_c_eip forkret_addr (p_context p)) p) ;;;
      when (negb (bool_decide (sel = NONE))) (updp i init_paging) ;;;
      ret (Some i)
  end.

Definition zero_trapframe : trapframe := mkTrapframe 0 0 0 0 0 0 0 0 0 0 0 0 0 0 0 0 0 0 0.

Definition init_trapframe : trapframe :=
  let tf := set_tf_cs (Z.lor (Z.shiftl SEG_UCODE 3) DPL_USER) zero_trapframe in
  let tf := set_tf_ds (Z.lor (Z.shiftl SEG_UDATA 3) DPL_USER) tf in
  let tf := set_tf_es (tf_ds tf) tf in
  let tf := set_tf_ss (tf_ds tf) tf in
  let tf := set_tf_eflags FL_IF tf in
  let tf := set_tf_esp PGSIZE tf in
  set_tf_eip 0 tf.

Definition userinit : M (kst F) unit :=
  let! p := allocproc in
  modify (set_k_initproc p) ;;;
  match p with
  | None => fault
  | Some i =>
    let! d := setupkvm sel in
    updp i (set_p_pgdir d) ;;;
    if d =? 0 then panic "userinit: out of memory?"
    else
      inituvm d initcode ;;;
      updp i (set_p_sz PGSIZE) ;;;
      updp i (set_p_tf init_trapframe) ;;;
      updp i (fun p => set_p_name (safestrcpy_arr (p_name p) (str_bytes "initcode" ++ [0]) 16) p) ;;;
      let! c := infs (fs_namei None (str_bytes "/")) in
      updp i (set_p_cwd c) ;;;
      acquire_k PTABLE ;;;
      updp i (set_p_state RUNNABLE) ;;;
      release_k PTABLE
  end.

(** [myproc()] where the code dereferences it *)
Definition curproc : M (kst F) nat :=
  let! c := myproc in match c with Some i => ret i | None => fault end.

Definition growproc (n : Z) : M (kst F) Z :=
  let! i := curproc in
  let! pr := getp i in
  let! r :=
    (if 0 <? n then
       let! sz := allocuvm sel (p_pgdir pr) (p_sz pr) (u32 (p_sz pr + n)) in
       ret (if sz =? 0 then None else Some sz)
     else if n <? 0 then
       let! sz := deallocuvm sel (p_pgdir pr) (p_sz pr) (u32 (p_sz pr + n)) in
       ret (if sz =? 0 then None else Some sz)
     else ret (Some (p_sz pr))) in
  match r with
  | None => ret (-1)
  | Some sz =>
    updp i (set_p_sz sz) ;;;
    switchuvm (Some i) ;;;
    ret 0
  end.

(** The paging tables of the child. *)
Definition fork_tables (cur np : nat) : M (kst F) unit :=
  for_each MAX_PSYC_PAGES 0 (fun i =>
    let! f := fp_read cur i in
    fp_modify np i (set_fp_va (fp_va f)) ;;;
    fp_modify np i (set_fp_age (fp_age f)) ;;;
    let! d := di_read cur i in
    di_modify np i (set_di_va (di_va d)) ;;;
    di_modify np i (set_di_location (di_location d))).

Definition fork_links (cur np : nat) : M (kst F) unit :=
  for_each MAX_PSYC_PAGES 0 (fun i =>
    for_each MAX_PSYC_PAGES 0 (fun j =>
      let! fj := fp_read np j in
      let! fi := fp_read cur i in
      let! nva := get_va cur (fp_next fi) in
      when (fp_va fj =? nva) (fp_modify np i (set_fp_next (Some i))) ;;;
      let! pva := get_va cur (fp_prev fi) in
      when (fp_va fj =? pva) (fp_modify np i (set_fp_prev (Some i))))).

Definition fork_ends (cur np : nat) : M (kst F) unit :=
  for_each MAX_PSYC_PAGES 0 (fun i =>
    let! c := getp cur in
    let! f := fp_read np i in
    let! hva := get_va cur (p_head c) in
    when (hva =? fp_va f) (updp np (set_p_head (Some i))) ;;;
    let! tva := get_va cur (p_tail c) in
    when (tva =? fp_va f) (updp np (set_p_tail (Some i)))).

Definition fork_paging (cur np : nat) : M (kst F) unit :=
  let! c := getp cur in
  updp np (set_p_pages_in_swapfile_counter (p_pages_in_swapfile_counter c)) ;;;
  updp np (set_p_pages_in_memory_counter (p_pages_in_memory_counter c)) ;;;
  updp np (set_p_pagedout 0) ;;;
  updp np (set_p_fault_counter 0) ;;;
  fork_tables cur np ;;;
  fork_links cur np ;;;
  fork_ends cur np ;;;
  when (negb (p_pid c =? 1))
    (createSwapFile np ;;;
     copySwapFile cur np).

Definition fork_files (cur np : nat) : M (kst F) unit :=
  for_each NOFILE 0 (fun i =>
    let! c := getp cur in
    match p_ofile c !! i with
    | Some (Some f) => let! g := infs (fs_filedup f) in
                       updp np (fun p => set_p_ofile (<[i := Some g]> (p_ofile p)) p)
    | _ => skip
    end) ;;;
  let! c := getp cur in
  match p_cwd c with
  | Some ip => let! ip := infs (fs_idup ip) in updp np (set_p_cwd (Some ip))
  | None => fault
  end.

Definition fork : M (kst F) Z :=
  let! cur := curproc in
  let! r := allocproc in
  match r with
  | None => ret (-1)
  | Some np =>
    let! c := getp cur in
    let! d := copyuvm sel (p_pgdir c) (p_sz c) in
    updp np (set_p_pgdir d) ;;;
    if d =? 0 then
      let! n := getp np in
      inmem (kfree (p_kstack n)) ;;;
      updp np (set_p_kstack 0) ;;;
      updp np (set_p_state UNUSED) ;;;
      ret (-1)
    else
      updp np (set_p_sz (p_sz c)) ;;;
      updp np (set_p_parent (Some cur)) ;;;
      updp np (set_p_tf (set_tf_eax 0 (p_tf c))) ;;;
      fork_files cur np ;;;
      updp np (fun n => set_p_name (safestrcpy_arr (p_name n) (p_name c) 16) n) ;;;
      let! n := getp np in
      when (negb (bool_decide (sel = NONE))) (fork_paging cur np) ;;;
      acquire_k PTABLE ;;;
      updp np (set_p_state RUNNABLE) ;;;
      release_k PTABLE ;;;
      ret (p_pid n)
  end.

(** ** Listings *)

Definition state_name (st : procstate) : string :=
  match st with
  | UNUSED => "unused" | EMBRYO => "embryo" | SLEEPING => "sleep "
  | RUNNABLE => "runble" | RUNNING => "run   " | ZOMBIE => "zombie"
  end.

(** The program counters up to the first 0. *)
Fixpoint print_pcs (pcs : list Z) : M (kst F) unit :=
  match pcs with
  | [] => skip
  | c :: l => if c =? 0 then skip else cprintf " %p" [c] ;;; print_pcs l
  end.

Definition print_callers (p : proc) : M (kst F) unit :=
  when (bool_decide (p_state p = SLEEPING))
    (let! m := getmem in print_pcs (getcallerpcs m (u32 (c_ebp (p_context p) + 8)))).

(** The strings of a line are part of the format here. *)
Definition print_proc (p : proc) : M (kst F) unit :=
  cprintf (" %d " +:+ state_name (p_state p) +:+ " ") [p_pid p] ;;;
  cprintf ("%d  %d  %d  %d  " +:+ name_str (p_name p) +:+ "  ")
    [u32 (p_pages_in_memory_counter p + p_pages_in_swapfile_counter p); p_pages_in_swapfile_counter p;
     p_fault_counter p; p_pagedout p] ;;;
  print_callers p ;;;
  cprintf newline [].

Definition print_free : M (kst F) unit :=
  let! km := gets k_mem in
  cprintf ("%d / %d free pages in the system" +:+ newline) [getfreepages km; getTotalfreePages km].

Definition procdump_proc (i : nat) : M (kst F) unit :=
  let! p := getp i in
  if bool_decide (p_state p = UNUSED) then skip
  else print_proc p ;;; print_free.

Definition procdump : M (kst F) unit :=
  for_each NPROC 0 (fun i =>
    let! p := getp i in
    if bool_decide (p_state p = UNUSED) then skip
    else if verbose then print_proc p
    else
      cprintf ("%d " +:+ state_name (p_state p) +:+ " " +:+ name_str (p_name p)) [p_pid p] ;;;
      print_callers p ;;;
      cprintf newline []) ;;;
  when verbose print_free.

(** ** Sleeping and waking *)

Definition wakeup1 (c : chan) : M (kst F) unit :=
  for_each NPROC 0 (fun i =>
    let! p := getp i in
    when (bool_decide (p_state p = SLEEPING) && bool_decide (p_chan p = c)) (updp i (set_p_state RUNNABLE))).

Definition wakeup (c : chan) : M (kst F) unit :=
  acquire_k PTABLE ;;;
  wakeup1 c ;;;
  release_k PTABLE.

(** A process as a channel *)
Definition chan_of (p : option nat) : chan := match p with Some i => ChanProc i | None => NoChan end.

Definition kill (pid : Z) : M (kst F) Z :=
  acquire_k PTABLE ;;;
  let! r := for_range NPROC 0 (fun i =>
    let! p := getp i in
    if p_pid p =? pid then
      updp i (set_p_killed true) ;;;
      when (bool_decide (p_state p = SLEEPING)) (updp i (set_p_state RUNNABLE)) ;;;
      release_k PTABLE ;;;
      ret (Some 0)
    else ret None) in
  match r with
  | Some v => ret v
  | None => release_k PTABLE ;;; ret (-1)
  end.

(** [mycpu()->ncli] and [mycpu()->intena] *)
Definition my_cpu : M smp cpu := let! c := mycpu me in getcpu c.
Definition set_intena (v : bool) : M smp unit :=
  let! i := mycpu me in
  let! c := getcpu i in
  putcpu i (mkCpu (c_apicid c) (c_ncli c) v).

(** sched() up to the switch: the value of intena to restore. *)
Definition sched_out : M (kst F) bool :=
  let! i := curproc in
  let! h := insmp (holding me PTABLE) in
  if negb h then panic "sched ptable.lock"
  else
    let! c := insmp my_cpu in
    if negb (c_ncli c =? 1) then panic "sched locks"
    else
      let! p := getp i in
      if bool_decide (p_state p = RUNNING) then panic "sched running"
      else
        let! f := insmp (readeflags me) in
        if (f : bool) then panic "sched interruptible"
        else
          let! c := insmp my_cpu in
          let! r := gets regs in
          updp i (set_p_context r) ;;;
          ret (c_intena c).

Definition sched : prog (kst F) unit :=
  do! intena := act sched_out in
  swtch ;;?
  act (insmp (set_intena intena)).

Definition yield : prog (kst F) unit :=
  act (acquire_k PTABLE ;;;
       let! i := curproc in
       updp i (set_p_state RUNNABLE)) ;;?
  sched ;;?
  act (release_k PTABLE).

Definition forkret : M (kst F) unit :=
  release_k PTABLE ;;;
  let! first := gets k_first in
  when first
    (modify (set_k_first false) ;;;
     infs (fs_iinit ROOTDEV) ;;;
     infs (fs_initlog ROOTDEV)).

(** [lk] is null or a spin lock.  Other processors may run between any two of these actions: the order
    in which the locks are taken and released matters. *)
Definition sleep_who (lk : option nat) : M (kst F) (nat * nat) :=
  let! p := myproc in
  match p with
  | None => panic "sleep"
  | Some i => match lk with None => panic "sleep without lk" | Some l => ret (i, l) end
  end.
Definition sleep_out (c : chan) (lk : option nat) : prog (kst F) (nat * nat) :=
  do! il := act (sleep_who lk) in
  (if negb (il.2 =? PTABLE)%nat then act (acquire_k PTABLE) ;;? act (release_k (il.2)) else PRet tt) ;;?
  act (updp (il.1) (set_p_chan c)) ;;?
  act (updp (il.1) (set_p_state SLEEPING)) ;;?
  PRet il.
Definition sleep_in (il : nat * nat) : prog (kst F) unit :=
  act (updp (il.1) (set_p_chan NoChan)) ;;?
  (if negb (il.2 =? PTABLE)%nat then act (release_k PTABLE) ;;? act (acquire_k (il.2)) else PRet tt).

Definition sleep (c : chan) (lk : option nat) : prog (kst F) unit :=
  do! il := sleep_out c lk in
  sched ;;?
  sleep_in il.

(** ** Exit and wait *)

Definition close_files (cur : nat) : M (kst F) unit :=
  for_each NOFILE 0 (fun fd =>
    let! c := getp cur in
    match p_ofile c !! fd with
    | Some (Some f) => fileclose f ;;;
                       updp cur (fun p => set_p_ofile (<[fd := None]> (p_ofile p)) p)
    | _ => skip
    end).

Definition reparent (cur : nat) : M (kst F) unit :=
  for_each NPROC 0 (fun i =>
    let! p := getp i in
    when (bool_decide (p_parent p = Some cur))
      (let! ini := gets k_initproc in
       updp i (set_p_parent ini) ;;;
       when (bool_decide (p_state p = ZOMBIE)) (wakeup1 (chan_of ini)))).

(** exit() before the process table is locked. *)
Definition exit_release (cur : nat) : M (kst F) unit :=
  when verbose (acquire_k PTABLE ;;; procdump_proc cur ;;; release_k PTABLE) ;;;
  when (negb (bool_decide (sel = NONE)))
    (let! c := getp cur in
     let! exempt := (if p_pid c =? 1 then ret true else let! pp := parent_pid c in ret (pp =? 1)) in
     when (negb exempt)
       (let! r := removeSwapFile cur in
        when (negb (r =? 0)) (panic "failed in delete the swap file at exit"))) ;;;
  close_files cur ;;;
  infs fs_begin_op ;;;
  let! c := getp cur in
  match p_cwd c with None => fault | Some ip => infs (fs_iput ip) end ;;;
  infs fs_end_op ;;;
  updp cur (set_p_cwd None).

Definition exit_table (cur : nat) : M (kst F) unit :=
  acquire_k PTABLE ;;;
  let! c := getp cur in
  wakeup1 (chan_of (p_parent c)) ;;;
  reparent cur ;;;
  updp cur (set_p_state ZOMBIE).

Definition exit_out : M (kst F) unit :=
  let! cur := curproc in
  let! ini := gets k_initproc in
  if bool_decide (ini = Some cur) then panic "init exiting"
  else exit_release cur ;;; exit_table cur.

Definition exit : prog (kst F) unit :=
  act exit_out ;;?
  sched ;;?
  act (panic "zombie exit").

(** The child [i] found dead by wait(). *)
Definition reap (i : nat) : M (kst F) Z :=
  let! p := getp i in
  inmem (kfree (p_kstack p)) ;;;
  updp i (set_p_kstack 0) ;;;
  freevm sel (p_pgdir p) ;;;
  updp i (set_p_pid 0) ;;;
  updp i (set_p_parent None) ;;;
  updp i (fun p => set_p_name (<[0%nat := 0]> (p_name p)) p) ;;;
  updp i (set_p_killed false) ;;;
  updp i (set_p_state UNUSED) ;;;
  release_k PTABLE ;;;
  ret (p_pid p).

(** One scan of the table: the pid of a child that was reaped, or whether there are children. *)
Fixpoint wait_scan (cur : nat) (n i : nat) (havekids : bool) : M (kst F) (Z + bool) :=
  match n with
  | O => ret (inr havekids)
  | S n' =>
    let! p := getp i in
    if negb (bool_decide (p_parent p = Some cur)) then wait_scan cur n' (i + 1) havekids
    else if bool_decide (p_state p = ZOMBIE) then let! pid := reap i in ret (inl pid)
    else wait_scan cur n' (i + 1) true
  end.

(** A scan and what follows it: the result of wait(), or the decision to sleep. *)
Definition wait_round (cur : nat) : M (kst F) (option Z) :=
  let! r := wait_scan cur NPROC 0 false in
  match r with
  | inl pid => ret (Some pid)
  | inr havekids =>
    let! c := getp cur in
    if negb havekids || p_killed c then release_k PTABLE ;;; ret (Some (-1))
    else ret None
  end.

(** [fuel] bounds the number of scans. *)
Fixpoint wait_loop (fuel : nat) (cur : nat) : prog (kst F) Z :=
  match fuel with
  | O => act nofuel
  | S n =>
    do! r := act (wait_round cur) in
    match r with
    | Some v => PRet v
    | None => sleep (ChanProc cur) (Some PTABLE) ;;? wait_loop n cur
    end
  end.

Definition wait (fuel : nat) : prog (kst F) Z :=
  do! cur := act (let! cur := curproc in acquire_k PTABLE ;;; ret cur) in
  wait_loop fuel cur.

(** ** The scheduler *)

Definition updateAccessBit_proc (va : Z) (p : proc) : M (kst F) Z :=
  let! pte := inmem (proc_walkpagedir (p_pgdir p) va false) in
  if pte =? 0 then cprintf ("pid=%d" +:+ newline) [p_pid p] ;;; panic "updateAccessBi111t: pte is empty"
  else
    let! e := kld32 pte in
    if e =? 0 then ret (-2)
    else
      let accessed := Z.land e PTE_A in
      kst32 pte (Z.land e (Z.lnot PTE_A)) ;;;
      ret (if accessed =? 0 then 0 else 1).

(** NFUA and LAPA: shift the reference bit into the age of every resident page. *)
Definition age_pages (i : nat) : M (kst F) unit :=
  for_each MAX_PSYC_PAGES 0 (fun k =>
    let! f := fp_read i k in
    when (negb (fp_va f =? NOVA))
      (fp_modify i k (set_fp_age (Z.shiftr (fp_age f) 1)) ;;;
       let! p := getp i in
       let! tmp := updateAccessBit_proc (fp_va f) p in
       when (tmp =? 1) (fp_modify i k (fun f => set_fp_age (Z.lor (fp_age f) 0x80000000) f)))).

(** AQ: note the reference bits, then move each accessed page one place towards the head. *)
Definition aq_bits (i : nat) : M (kst F) unit :=
  for_each MAX_PSYC_PAGES 0 (fun k =>
    let! f := fp_read i k in
    when (negb (fp_va f =? NOVA))
      (let! p := getp i in
       let! tmp := updateAccessBit_proc (fp_va f) p in
       fp_modify i k (set_fp_age (if tmp =? 1 then 1 else 0)))).

Definition aq_advance_body (i : nat) (curpage : option nat) : M (kst F) (option nat + unit) :=
  match curpage with
  | None => ret (inr tt)
  | Some c =>
    let! f := fp_read i c in
    (match fp_prev f with
     | None => skip
     | Some q =>
       let! g := fp_read i q in
       when ((fp_age g =? 0) && (fp_age f =? 1))
         (fp_modify i q (set_fp_va (fp_va f)) ;;;
          fp_modify i c (set_fp_va (fp_va g)) ;;;
          fp_modify i c (set_fp_age (fp_age g)) ;;;
          fp_modify i q (set_fp_age (fp_age f)))
     end) ;;;
    let! f := fp_read i c in
    ret (inl (fp_next f))
  end.
(** A chain of distinct slots has at most 16 of them. *)
Definition aq_advance (i : nat) : M (kst F) unit :=
  let! p := getp i in
  loop (MAX_PSYC_PAGES + 1) (aq_advance_body i) (p_head p).

(** What the scheduler does to the pages of the process that just ran. *)
Definition sched_age (i : nat) : M (kst F) unit :=
  match sel with
  | NONE | SCFIFO => skip
  | NFUA | LAPA | AQ =>
    let! p := getp i in
    let! exempt := (if p_pid p =? 1 then ret true else let! pp := parent_pid p in ret (pp =? 1)) in
    when (negb exempt)
      (if bool_decide (sel = AQ) then aq_bits i ;;; aq_advance i else age_pages i)
  end.

Definition run_out (i : nat) : M (kst F) unit :=
  modify (set_k_cur (Some i)) ;;;
  switchuvm (Some i) ;;;
  updp i (set_p_state RUNNING).
Definition run_in (i : nat) : M (kst F) unit :=
  sched_age i ;;;
  switchkvm ;;;
  modify (set_k_cur None).

(** The [n] entries of the table from [i] on. *)
Fixpoint sched_scan (n i : nat) : prog (kst F) unit :=
  match n with
  | O => PRet tt
  | S n' =>
    do! p := act (getp i) in
    (if negb (bool_decide (p_state p = RUNNABLE)) then PRet tt
     else act (run_out i) ;;? swtch ;;? act (run_in i)) ;;?
    sched_scan n' (i + 1)
  end.

Definition sched_pass : prog (kst F) unit :=
  act (insmp (sti me) ;;; acquire_k PTABLE) ;;?
  sched_scan NPROC 0 ;;?
  act (release_k PTABLE).

(** [fuel] passes of the endless loop. *)
Fixpoint sched_loop (fuel : nat) : prog (kst F) unit :=
  match fuel with
  | O => act nofuel
  | S n => sched_pass ;;? sched_loop n
  end.
Definition scheduler (fuel : nat) : prog (kst F) unit :=
  act (insmp (mycpu me) ;;; modify (set_k_cur None)) ;;?
  sched_loop fuel.

End proc.
