(* ===== verification/Aging.v ===== *)
(** * Aging in the scheduler (src/proc.c: the part of scheduler() after swtch)

    Under NFUA, LAPA and AQ the scheduler reads and clears the access bits of the process that
    just ran, and updates the ages of its pages.  Here: on a process whose resident pages have page
    tables, and whose AQ links stay inside the array, that code ends; it changes only addresses and
    ages in the page array, and access bits in memory, so that all page tables are as before. *)
From Stdlib Require Import ZArith Lia.
From stdpp Require Import base list numbers strings.
From S2P Require Import Prelude Mmu Mem Kalloc PageTable Spinlock Resume Kstate Policy Queues Swap Uvm Proc.
Local Open Scope Z_scope.

(** ** Page tables do not depend on access bits *)

Definition same_tables (m m' : mem) : Prop :=
  forall pgdir va, pgdir mod 4 = 0 -> pte_addr m' pgdir va = pte_addr m pgdir va.

Lemma same_tables_trans m1 m2 m3 : same_tables m1 m2 -> same_tables m2 m3 -> same_tables m1 m3.
Proof. intros H1 H2 pgdir va H. by rewrite H2, H1. Qed.

Lemma same_tables_clear m a : a mod 4 = 0 -> same_tables m (st32 m a (clear_A (ld32 m a))).
Proof.
  intros Ha pgdir va Hp. unfold pte_addr, table, pde_val. set (x := pgdir + 4 * PDX va).
  assert (x mod 4 = 0) as Hx by (unfold x; by rewrite (Z.mul_comm 4), Z_mod_plus_full). pose proof (ld32_range m a) as Hr.
  destruct (decide (x = a)) as [->|Hne]; [|rewrite ld32_st32_ne; [done|clearbody x; Z.to_euclidean_division_equations; lia]].
  rewrite ld32_st32_eq, (u32_small (clear_A _)) by (by apply clear_A_range).
  rewrite PTE_ADDR_clear_A by done. change PTE_P with (2 ^ 0). by rewrite has_clear_A by lia.
Qed.

(** The page table of [va] exists and lies in the kernel's part of the address space. *)
Definition page_ready (m : mem) (pgdir va : Z) : Prop :=
  exists a, pte_addr m pgdir va = Some a /\ KERNBASE <= a.

Lemma pte_addr_aligned m pgdir va a : pte_addr m pgdir va = Some a -> a mod 4 = 0.
Proof.
  intros (t & -> & _ & ->)%pte_addr_range. unfold table, P2V, PTE_ADDR, u32, KERNBASE.
  assert (forall x, Z.land (x mod 2 ^ 32) (Z.lnot 0xFFF mod 2 ^ 32) mod 4 = 0) as Hm.
  { intros x. change 4 with (2 ^ 2). rewrite <- Z.land_ones by lia. rewrite <- Z.land_assoc.
    change (Z.land (Z.lnot 0xFFF mod 2 ^ 32) (Z.ones 2)) with 0. apply Z.land_0_r. }
  specialize (Hm (pde_val m pgdir (PDX va))). revert Hm. generalize (Z.land (pde_val m pgdir (PDX va) mod 2 ^ 32) (Z.lnot 0xFFF mod 2 ^ 32)).
  intros x Hx. generalize (PTX va). intros y. Z.to_euclidean_division_equations; lia.
Qed.

(** ** The page array *)

(** Same links; the addresses are some of those of [arr]. *)
Definition like (arr arr' : list free_page) : Prop :=
  length arr' = length arr /\ (forall va, va ∈ vas arr' -> va ∈ vas arr) /\
  (forall j, nxt arr' j = nxt arr j) /\ (forall j, prv arr' j = prv arr j).

Lemma like_refl arr : like arr arr.
Proof. done. Qed.

Lemma like_alter g k arr arr' : like arr arr' -> (forall f, fp_next (g f) = fp_next f) ->
  (forall f, fp_prev (g f) = fp_prev f) -> (forall f, arr' !! k = Some f -> fp_va (g f) ∈ vas arr) ->
  like arr (alter g k arr').
Proof.
  intros (Hl & Hv & Hn & Hp) Hgn Hgp Hgv. split; [by rewrite length_alter|]. split; [|split].
  - intros va (f & -> & [j Hj]%list_elem_of_lookup)%list_elem_of_fmap. rewrite list_lookup_alter in Hj.
    case_decide; subst.
    + destruct (arr' !! j) as [h|] eqn:E; [|done]. injection Hj as <-. by apply Hgv.
    + apply Hv. unfold vas. apply list_elem_of_fmap. exists f. split; [done|]. by eapply list_elem_of_lookup_2.
  - intros j. by rewrite nxt_alter_other.
  - intros j. by rewrite prv_alter_other.
Qed.

Lemma vas_elem arr k f : arr !! k = Some f -> fp_va f ∈ vas arr.
Proof. intros Hf. apply list_elem_of_fmap. exists f. split; [done|]. by eapply list_elem_of_lookup_2. Qed.

Lemma like_age h k arr arr' : like arr arr' -> like arr (alter (fun f => set_fp_age (h f) f) k arr').
Proof. intros Hl. apply like_alter; [done..|]. intros f Hf. apply Hl. simpl. by eapply vas_elem. Qed.

(** AQ: from the head, the next links end, and the previous slots are slots. *)
Definition links_ok (arr : list free_page) (h : option nat) : Prop :=
  exists q, chain (nxt arr) h q /\ (length q <= MAX_PSYC_PAGES)%nat /\
    Forall (fun i => (i < length arr)%nat) q /\ (forall i j, i ∈ q -> prv arr i = Some j -> (j < length arr)%nat).

Lemma links_ok_like arr arr' h : like arr arr' -> links_ok arr h -> links_ok arr' h.
Proof.
  intros (Hl & _ & Hn & Hp) (q & Hc & Hq & Hf & Hpr). exists q. rewrite Hl. split; [|split; [done|split; [done|]]].
  - eapply chain_ext; [|exact Hc]. intros i _. apply Hn.
  - intros i j Hi. rewrite Hp. by apply Hpr.
Qed.

Section aging.
Context {img : Image} {F : Type} `{FileSys F}.
Variable sel : selection.
Implicit Types (s : kst F) (p : proc).

Definition pages_ready (m : mem) p : Prop :=
  p_pgdir p mod 4 = 0 /\ length (p_memory_pg_arr p) = MAX_PSYC_PAGES /\
  (forall va, va ∈ vas (p_memory_pg_arr p) -> va <> NOVA -> page_ready m (p_pgdir p) va) /\
  (sel = AQ -> links_ok (p_memory_pg_arr p) (p_head p)).

(** What the scheduler relies on when it ages the pages of [p]: init and its children are exempt. *)
Definition can_age s p : Prop :=
  sel = NONE \/ sel = SCFIFO \/ p_pid p = 1 \/
  exists j q, p_parent p = Some j /\ k_procs s !! j = Some q /\ (p_pid q = 1 \/ pages_ready (kmm s) p).

(** From [s] to [s'], only the pages of process [i] were aged. *)
Definition aged (i : nat) p s s' : Prop :=
  exists km arr, s' = setp i (set_p_memory_pg_arr arr p) (setm km s) /\
    same_tables (kmm s) (km_mem km) /\ like (p_memory_pg_arr p) arr.

Lemma aged_refl i p s : k_procs s !! i = Some p -> aged i p s s.
Proof.
  intros Hp. exists (k_mem s), (p_memory_pg_arr p). split; [|done]. unfold setm.
  replace (set_k_mem (k_mem s) s) with s by (by destruct s). symmetry. apply setp_id. by destruct p.
Qed.

Lemma on_updateAccessBit_proc i pr p km s va (Q : Z -> kst F -> Prop) : page_ready (km_mem km) (p_pgdir p) va ->
  (forall r km', same_tables (km_mem km) (km_mem km') -> Q r (setp i pr (setm km' s))) ->
  wp (updateAccessBit_proc va p) Q (setp i pr (setm km s)).
Proof.
  intros (a & Ha & Hk) HQ. unfold updateAccessBit_proc, proc_walkpagedir. apply wp_bind.
  eapply wp_inmem; [by apply walkpgdir_present|]. simpl.
  destruct (Z.eqb_spec a 0) as [->|_]; [unfold KERNBASE in Hk; lia|].
  apply wp_bind. apply wp_kld32_kern; [done|]. cbn.
  destruct (ld32 _ a =? 0); [apply wp_ret; by apply (HQ _ km)|].
  apply wp_bind, wp_kst32_kern; [done|]. apply wp_ret. apply (HQ _ (set_km_mem _ km)).
  apply same_tables_clear. by eapply pte_addr_aligned.
Qed.

(** One more access bit read and cleared, in the middle of the work on process [i]. *)
Lemma page_ready_aged p m km arr f : pages_ready m p -> same_tables m (km_mem km) -> like (p_memory_pg_arr p) arr ->
  fp_va f ∈ vas arr -> fp_va f <> NOVA -> page_ready (km_mem km) (p_pgdir p) (fp_va f).
Proof.
  intros (Hd & _ & Hv & _) Ht (_ & Hin & _) Hf Hn. destruct (Hv (fp_va f) (Hin _ Hf) Hn) as (a & Ha & Hk).
  exists a. by rewrite Ht.
Qed.

Lemma age_pages_spec i p s : k_procs s !! i = Some p -> pages_ready (kmm s) p ->
  wp (age_pages i) (fun _ s' => aged i p s s') s.
Proof.
  intros Hp Hr. pose proof (lookup_lt_Some _ _ _ Hp) as Hi. pose proof Hr as (_ & Hlen & _).
  apply wp_for_each with (I := fun _ s' => aged i p s s'); [by apply aged_refl| |done].
  intros k st [_ Hk] (km & arr & -> & Ht & Hl). destruct (lookup_lt_is_Some_2 arr k) as [f Hf]; [destruct Hl; lia|].
  apply wp_bind. eapply on_fp_read; [done|exact Hf|]. destruct (Z.eqb_spec (fp_va f) NOVA) as [|Hn]; [by apply wp_skip; exists km, arr|].
  simpl. apply wp_bind, on_fp_modify; [done|simpl; by eapply lookup_lt_Some|]. apply wp_bind, on_getp; [done|].
  apply wp_bind. eapply on_updateAccessBit_proc; [exact (page_ready_aged p _ km arr f Hr Ht Hl (vas_elem _ _ _ Hf) Hn)|]. intros r km' Ht'.
  assert (same_tables (kmm s) (km_mem km')) as Hs by (by eapply same_tables_trans).
  pose proof (like_age (fun _ => Z.shiftr (fp_age f) 1) k _ _ Hl) as Hl1. destruct (r =? 1); simpl.
  - apply on_fp_modify; [done|simpl; rewrite length_alter; by eapply lookup_lt_Some|].
    eexists km', _. split; [reflexivity|]. split; [done|]. by apply like_age.
  - apply wp_skip. by eexists km', _.
Qed.

Lemma aq_bits_spec i p s : k_procs s !! i = Some p -> pages_ready (kmm s) p ->
  wp (aq_bits i) (fun _ s' => aged i p s s') s.
Proof.
  intros Hp Hr. pose proof (lookup_lt_Some _ _ _ Hp) as Hi. pose proof Hr as (_ & Hlen & _).
  apply wp_for_each with (I := fun _ s' => aged i p s s'); [by apply aged_refl| |done].
  intros k st [_ Hk] (km & arr & -> & Ht & Hl). destruct (lookup_lt_is_Some_2 arr k) as [f Hf]; [destruct Hl; lia|].
  apply wp_bind. eapply on_fp_read; [done|exact Hf|]. destruct (Z.eqb_spec (fp_va f) NOVA) as [|Hn]; [by apply wp_skip; exists km, arr|].
  simpl. apply wp_bind, on_getp; [done|].
  apply wp_bind. eapply on_updateAccessBit_proc; [exact (page_ready_aged p _ km arr f Hr Ht Hl (vas_elem _ _ _ Hf) Hn)|]. intros r km' Ht'.
  apply on_fp_modify; [done|simpl; by eapply lookup_lt_Some|]. eexists km', _. split; [reflexivity|].
  split; [by eapply same_tables_trans|by apply (like_age (fun _ => if r =? 1 then 1 else 0))].
Qed.

(** Exchanging two neighbours. *)
Lemma like_swap arr arr' c q f g : like arr arr' -> arr' !! c = Some f -> arr' !! q = Some g ->
  like arr (alter (set_fp_age (fp_age f)) q (alter (set_fp_age (fp_age g)) c
    (alter (set_fp_va (fp_va g)) c (alter (set_fp_va (fp_va f)) q arr')))).
Proof.
  intros Hl Hf Hg. apply (like_age (fun _ => fp_age f)), (like_age (fun _ => fp_age g)).
  apply like_alter; [apply like_alter; [done..|]|done..|]; intros ? _; simpl; apply Hl; by eapply vas_elem.
Qed.

Lemma aq_advance_step i p s c q : (i < length (k_procs s))%nat -> forall arr, like (p_memory_pg_arr p) arr ->
  (c < length (p_memory_pg_arr p))%nat -> (forall j, prv (p_memory_pg_arr p) c = Some j -> (j < length (p_memory_pg_arr p))%nat) ->
  chain (nxt (p_memory_pg_arr p)) (nxt (p_memory_pg_arr p) c) q ->
  wp (aq_advance_body i (Some c)) (fun r s' => exists arr' o, r = inl o /\ s' = setp i (set_p_memory_pg_arr arr' p) s /\
    like (p_memory_pg_arr p) arr' /\ chain (nxt (p_memory_pg_arr p)) o q) (setp i (set_p_memory_pg_arr arr p) s).
Proof.
  intros Hi arr Hl Hc Hprev Hq. pose proof Hl as (Hlen & _ & Hn & Hpv).
  assert (forall arr', like (p_memory_pg_arr p) arr' ->
    wp (let! f := fp_read i c in ret (inl (fp_next f) : option nat + unit)) (fun r s' => exists arr' o, r = inl o /\
      s' = setp i (set_p_memory_pg_arr arr' p) s /\ like (p_memory_pg_arr p) arr' /\ chain (nxt (p_memory_pg_arr p)) o q)
      (setp i (set_p_memory_pg_arr arr' p) s)) as Hend.
  { intros arr' Hl'. pose proof Hl' as (Hlen' & _ & Hn' & _). destruct (lookup_lt_is_Some_2 arr' c) as [f Hf]; [lia|].
    apply wp_bind. eapply on_fp_read; [done|exact Hf|]. apply wp_ret. eexists arr', _. split; [done|]. split; [done|].
    split; [done|]. rewrite <- (Hn' c) in Hq. unfold nxt in Hq at 2. by rewrite Hf in Hq. }
  destruct (lookup_lt_is_Some_2 arr c) as [f Hf]; [lia|]. unfold aq_advance_body.
  apply wp_bind. eapply on_fp_read; [done|exact Hf|]. apply wp_bind.
  destruct (fp_prev f) as [j|] eqn:Ej; [|apply wp_skip; by apply Hend].
  assert (j < length arr)%nat as Hj.
  { rewrite Hlen. apply Hprev. rewrite <- Hpv. unfold prv. by rewrite Hf. }
  destruct (lookup_lt_is_Some_2 arr j Hj) as [g Hg]. apply wp_bind. eapply on_fp_read; [done|exact Hg|].
  destruct (_ && _); [|apply wp_skip; by apply Hend]. simpl.
  do 3 (apply wp_bind, on_fp_modify; [done|simpl; rewrite ?length_alter; lia|]).
  apply on_fp_modify; [done|simpl; rewrite ?length_alter; lia|]. apply Hend. by apply like_swap.
Qed.

Lemma aq_advance_spec i p s : k_procs s !! i = Some p -> links_ok (p_memory_pg_arr p) (p_head p) ->
  wp (aq_advance i) (fun _ s' => exists arr, s' = setp i (set_p_memory_pg_arr arr p) s /\ like (p_memory_pg_arr p) arr) s.
Proof.
  intros Hp (q & Hc & Hq & Hin & Hprev). pose proof (lookup_lt_Some _ _ _ Hp) as Hi.
  unfold aq_advance. apply wp_bind. eapply wp_getp; [exact Hp|].
  apply wp_loop with (n := length q) (I := fun n o st => exists arr q', st = setp i (set_p_memory_pg_arr arr p) s /\
    like (p_memory_pg_arr p) arr /\ chain (nxt (p_memory_pg_arr p)) o q' /\ length q' = n /\ (forall c, c ∈ q' -> c ∈ q)).
  - intros n o st (arr & q' & -> & Hl & Hc' & <- & Hsub). destruct q' as [|c q']; simpl in Hc'.
    { subst o. apply wp_ret. by exists arr. }
    destruct Hc' as [-> Hc']. assert (c ∈ q) as Hcq by (apply Hsub; constructor). rewrite Forall_forall in Hin.
    eapply wp_mono; [apply (aq_advance_step i p s c q' Hi arr Hl (Hin c Hcq)); [by intros j; apply Hprev|done]|].
    intros r st' (arr' & o & -> & -> & Hl' & Ho). exists (length q'). split; [simpl; lia|]. exists arr', q'.
    do 4 (split; [done|]). intros c' Hc''. apply Hsub. by constructor.
  - lia.
  - exists (p_memory_pg_arr p), q. split; [|done]. symmetry. apply setp_id. by destruct p.
Qed.

Lemma wp_sched_age i p s : k_procs s !! i = Some p -> can_age s p -> wp (sched_age sel i) (fun _ s' => aged i p s s') s.
Proof.
  intros Hp Hc. unfold sched_age, can_age in *. pose proof (aged_refl i p s Hp) as H0.
  assert (sel = NONE \/ sel = SCFIFO \/ sel <> NONE /\ sel <> SCFIFO) as [->|[->|[Hn Hs]]] by (destruct sel; auto);
    [by apply wp_skip..|]. destruct Hc as [?|[?|Hc]]; [done..|].
  assert (wp (let! p := getp i in
    let! exempt := (if p_pid p =? 1 then ret true else let! pp := parent_pid p in ret (pp =? 1)) in
    when (negb exempt) (if bool_decide (sel = AQ) then aq_bits i ;;; aq_advance i else age_pages i)) (fun _ s' => aged i p s s') s)
    as Hw; [|by destruct sel].
  apply wp_bind. eapply wp_getp; [exact Hp|]. apply wp_bind.
  destruct (Z.eqb_spec (p_pid p) 1) as [|Hp1]; [by apply wp_ret, wp_skip|].
  destruct Hc as [?|(j & q & Hpar & Hq & Hr)]; [done|]. apply wp_bind. unfold parent_pid. rewrite Hpar.
  apply wp_bind. eapply wp_getp; [exact Hq|]. apply wp_ret, wp_ret.
  destruct (Z.eqb_spec (p_pid q) 1) as [|Hq1]; [by apply wp_skip|]. destruct Hr as [?|Hr]; [done|].
  simpl. destruct (bool_decide_reflect (sel = AQ)) as [Haq|_]; [|by apply age_pages_spec].
  apply wp_bind. eapply wp_mono; [by apply aq_bits_spec|]. intros [] s1 (km & arr & -> & Ht & Hl).
  destruct Hr as (_ & _ & _ & Hlk).
  eapply wp_mono; [apply (aq_advance_spec i (set_p_memory_pg_arr arr p))|].
  - by apply lookup_setp, lookup_lt_is_Some; eexists.
  - simpl. eapply links_ok_like; [exact Hl|]. by apply Hlk.
  - intros [] s2 (arr' & -> & Hl'). exists km, arr'. split; [by rewrite setp_setp|]. split; [done|].
    simpl in Hl'. destruct Hl as (H1 & H2 & H3 & H4), Hl' as (L1 & L2 & L3 & L4). split; [congruence|].
    split; [auto|]. split; intros c; [by rewrite L3|by rewrite L4].
Qed.

(** Aging the pages of one process leaves every process as ready as it was. *)
Lemma can_age_aged i p s s' j q : k_procs s !! i = Some p -> aged i p s s' -> (forall j q, k_procs s !! j = Some q ->
  p_state q <> UNUSED -> p_state q <> EMBRYO -> can_age s q) ->
  k_procs s' !! j = Some q -> p_state q <> UNUSED -> p_state q <> EMBRYO -> can_age s' q.
Proof.
  intros Hp (km & arr & -> & Ht & Hl) Hall Hq Hu He. pose proof (lookup_lt_Some _ _ _ Hp) as Hi.
  assert (exists q0, k_procs s !! j = Some q0 /\ p_pid q0 = p_pid q /\ p_state q0 = p_state q /\ p_parent q0 = p_parent q /\
    p_pgdir q0 = p_pgdir q /\ p_head q0 = p_head q /\ like (p_memory_pg_arr q0) (p_memory_pg_arr q)) as (q0 & Hq0 & E1 & E2 & E3 & E4 & E5 & Hl0).
  { simpl in Hq. destruct (decide (j = i)) as [->|].
    - rewrite list_lookup_insert_eq in Hq by done. injection Hq as <-. by exists p.
    - rewrite list_lookup_insert_ne in Hq by done. exists q. repeat split; done. }
  assert (forall j q, k_procs s !! j = Some q -> exists q', k_procs (setp i (set_p_memory_pg_arr arr p) (setm km s)) !! j = Some q' /\
    p_pid q' = p_pid q) as Hpid.
  { intros j' r Hr. simpl. destruct (decide (j' = i)) as [->|].
    - rewrite list_lookup_insert_eq by done. eexists. split; [done|]. simpl. congruence.
    - rewrite list_lookup_insert_ne by done. by exists r. }
  destruct (Hall j q0 Hq0) as [?|[?|[?|(j' & r & Hpar & Hr & Hor)]]]; [congruence..|by left|by right; left| |].
  { right; right; left. congruence. }
  right; right; right. destruct (Hpid j' r Hr) as (r' & Hr' & Epid). exists j', r'. split; [congruence|]. split; [done|].
  rewrite Epid. destruct Hor as [?|(Hd & Hlen & Hv & Hlk)]; [by left|right].
  destruct Hl0 as (L1 & L2 & L3 & L4). split; [by rewrite <- E4|]. split; [congruence|]. split.
  - intros va Hva Hn. destruct (Hv va (L2 va Hva) Hn) as (a & Ha & Hk). exists a. unfold kmm. simpl. rewrite <- E4. by rewrite Ht.
  - intros Haq. rewrite <- E5. eapply links_ok_like; [|by apply Hlk]. done.
Qed.

End aging.
