(* ===== verification/ProcTable.v ===== *)
(** * Theorems about the process table

    One processor at a time: [locks held intr s] says which spin locks it holds.  The loops over
    the table become list functions; then the operations of [Proc] are characterised: allocation
    and the uniqueness of pids, waking and killing, the hand-over from exit to wait, and the
    fairness of a scheduler pass. *)
From Stdlib Require Import ZArith Lia.
From stdpp Require Import base list numbers strings sorting.
From S2P Require Import Prelude Mmu Mem Kalloc PageTable Spinlock Resume Kstate Policy Queues Swap Uvm Proc Aging.
Local Open Scope Z_scope.

Section table.
Context {img : Image} {F : Type} `{FileSys F}.
Context (ids : nat -> Z) (k : nat).
Implicit Types (s : kst F) (held : list nat) (intr : bool).

Definition locks held intr s : Prop :=
  ready ids k held intr (k_smp s) /\ (PTABLE < length (s_locks (k_smp s)))%nat.

(** Taking and releasing a lock changes nothing else. *)
Lemma wp_acquire_k held intr l s (Q : unit -> kst F -> Prop) :
  locks held intr s -> l ∉ held -> (l < length (s_locks (k_smp s)))%nat ->
  (forall sm, locks (l :: held) intr (set_k_smp sm s) ->
     length (s_locks sm) = length (s_locks (k_smp s)) -> Q tt (set_k_smp sm s)) ->
  wp (acquire_k (ids k) l) Q s.
Proof.
  intros [Hr Hp] Hl Hlt HQ. destruct (ready_acquire ids k held intr _ l [] Hr Hl Hlt) as (sm & E & Hr' & Hlen).
  unfold acquire_k, insmp. apply wp_lift. eapply wp_intro; [exact E|]. apply HQ; [|done]. split; [done|].
  simpl. by rewrite Hlen.
Qed.

Lemma wp_release_k held intr l s (Q : unit -> kst F -> Prop) :
  locks held intr s -> l ∈ held ->
  (forall sm, locks (filter (.≠ l) held) intr (set_k_smp sm s) ->
     length (s_locks sm) = length (s_locks (k_smp s)) -> Q tt (set_k_smp sm s)) ->
  wp (release_k (ids k) l) Q s.
Proof.
  intros [Hr Hp] Hl HQ. destruct (ready_release ids k held intr _ l Hr Hl) as (sm & E & Hr' & Hlen).
  unfold release_k, insmp. apply wp_lift. eapply wp_intro; [exact E|]. apply HQ; [|done]. split; [done|].
  simpl. by rewrite Hlen.
Qed.

(** The two for ptable.lock alone. *)
Lemma wp_lock_table intr s (Q : unit -> kst F -> Prop) :
  locks [] intr s -> (forall sm, locks [PTABLE] intr (set_k_smp sm s) -> Q tt (set_k_smp sm s)) ->
  wp (acquire_k (ids k) PTABLE) Q s.
Proof.
  intros Hl HQ. eapply wp_acquire_k; [done|apply not_elem_of_nil|apply Hl|]. intros sm H' _. by apply HQ.
Qed.

Lemma wp_unlock_table intr s (Q : unit -> kst F -> Prop) :
  locks [PTABLE] intr s -> (forall sm, locks [] intr (set_k_smp sm s) -> Q tt (set_k_smp sm s)) ->
  wp (release_k (ids k) PTABLE) Q s.
Proof. intros Hl HQ. eapply wp_release_k; [done|by left|]. intros sm H' _. by apply HQ. Qed.

(** ** Loops over the table *)

(** A loop whose [i]-th round rewrites the [i]-th process only. *)
Lemma for_each_table (f : proc -> proc) (body : nat -> M (kst F) unit) s :
  length (k_procs s) = NPROC ->
  (forall i p s', k_procs s' !! i = Some p -> body i s' = Ret tt (setp i (f p) s')) ->
  for_each NPROC 0 body s = Ret tt (set_k_procs (map f (k_procs s)) s).
Proof.
  intros Hlen Hb.
  assert (forall n i s', (i + n = NPROC)%nat -> length (k_procs s') = NPROC ->
    for_each n i body s' = Ret tt (set_k_procs (take i (k_procs s') ++ map f (drop i (k_procs s'))) s')) as Hgen.
  { induction n as [|n IH]; intros i s' Hi Hl; simpl.
    - rewrite drop_ge, app_nil_r, take_ge by lia. by destruct s'.
    - destruct (lookup_lt_is_Some_2 (k_procs s') i) as [p Hp]; [lia|]. unfold bind. rewrite (Hb i p s' Hp).
      rewrite IH; [|lia|simpl; by rewrite length_insert]. unfold setp, set_k_procs. simpl. f_equal. f_equal.
      rewrite (drop_S _ _ _ Hp). replace (i + 1)%nat with (S i) by lia. rewrite drop_insert_lt by lia. simpl.
      rewrite (take_S_r _ i (f p)) by (apply list_lookup_insert_eq; lia).
      rewrite take_insert_ge by lia. by rewrite <- app_assoc. }
  rewrite Hgen by done. by rewrite drop_0, take_0.
Qed.

(** The first process with a property. *)
Definition first_with (P : proc -> bool) (l : list proc) (i : nat) (p : proc) : Prop :=
  l !! i = Some p /\ P p = true /\ forall j q, (j < i)%nat -> l !! j = Some q -> P q = false.

Lemma first_with_dec P l : (exists i p, first_with P l i p) \/ (forall i p, l !! i = Some p -> P p = false).
Proof.
  induction l as [|q l IH]; [by right|]. destruct (P q) eqn:E.
  { left. exists 0%nat, q. split; [done|]. split; [done|]. lia. }
  destruct IH as [(i & p & H1 & H2 & H3)|Hn].
  - left. exists (S i), p. split; [done|]. split; [done|]. intros [|j] q' Hj; simpl; [by intros [= <-]|].
    intros Hq. apply (H3 j); [lia|done].
  - right. intros [|i] p; simpl; [by intros [= <-]|apply Hn].
Qed.

(** ** Waking *)

Definition wake (c : chan) (p : proc) : proc :=
  if bool_decide (p_state p = SLEEPING) && bool_decide (p_chan p = c) then set_p_state RUNNABLE p else p.

Lemma wakeup1_run c s : length (k_procs s) = NPROC ->
  wakeup1 c s = Ret tt (set_k_procs (map (wake c) (k_procs s)) s).
Proof.
  intros Hl. apply for_each_table; [done|]. intros i p s' Hp. unfold bind, getp. rewrite Hp. unfold wake.
  destruct (_ && _); unfold when, updp, skip, ret; [by rewrite Hp|]. by rewrite setp_id.
Qed.

(** ** Reparenting *)

Definition adopt (cur : nat) (ini : option nat) (p : proc) : proc :=
  if bool_decide (p_parent p = Some cur) then set_p_parent ini p else p.

Lemma wake_idemp c p : wake c (wake c p) = wake c p.
Proof.
  unfold wake. destruct (bool_decide (p_state p = SLEEPING) && bool_decide (p_chan p = c)) eqn:E; [done|].
  by rewrite E.
Qed.

Lemma adopt_wake cur ini c p : adopt cur ini (wake c p) = wake c (adopt cur ini p).
Proof.
  unfold adopt, wake. destruct (bool_decide (p_state p = SLEEPING) && bool_decide (p_chan p = c)) eqn:E; simpl;
    destruct (bool_decide (p_parent p = Some cur)); simpl; by rewrite E.
Qed.

Definition zombie_child (cur : nat) (p : proc) : bool :=
  bool_decide (p_parent p = Some cur) && bool_decide (p_state p = ZOMBIE).

(** The table in the [i]-th round of [reparent]: the processes before [i] are adopted; init is woken
    once a dead child was met. *)
Definition reparented (cur : nat) (ini : option nat) (i : nat) (l : list proc) : list proc :=
  let woken := existsb (zombie_child cur) (take i l) in
  imap (fun j p => let p' := if (j <? i)%nat then adopt cur ini p else p in
                   if woken then wake (chan_of ini) p' else p') l.

Lemma reparented_next cur ini i l p : l !! i = Some p ->
  reparented cur ini (S i) l =
  let l' := <[i := adopt cur ini (default p (reparented cur ini i l !! i))]> (reparented cur ini i l) in
  if zombie_child cur p then map (wake (chan_of ini)) l' else l'.
Proof.
  intros Hp. pose proof (lookup_lt_Some _ _ _ Hp) as Hi. unfold reparented. rewrite (take_S_r _ _ _ Hp), existsb_app.
  set (w := existsb (zombie_child cur) (take i l)). simpl. rewrite orb_false_r. apply list_eq. intros j.
  rewrite list_lookup_imap. destruct (decide (j = i)) as [->|Hj].
  - rewrite !list_lookup_imap, Hp. simpl. rewrite (proj2 (Nat.ltb_lt i (S i))), Nat.ltb_irrefl by lia.
    assert (forall (c : bool) (L : list proc) q, L !! i = Some q ->
      (if c then map (wake (chan_of ini)) L else L) !! i = Some (if c then wake (chan_of ini) q else q)) as Hw.
    { intros [] L q E; [by rewrite list_lookup_fmap, E|done]. }
    erewrite Hw; [|by apply list_lookup_insert_eq; rewrite length_imap].
    destruct w, (zombie_child cur p); simpl; rewrite ?adopt_wake, ?wake_idemp; done.
  - assert ((j <? S i)%nat = (j <? i)%nat) as ->.
    { destruct (Nat.ltb_spec j (S i)), (Nat.ltb_spec j i); lia. }
    destruct w, (zombie_child cur p); simpl; rewrite ?list_lookup_fmap, ?list_lookup_insert_ne, ?list_lookup_imap by done;
      destruct (l !! j) as [q|]; simpl; rewrite ?wake_idemp; done.
Qed.

Lemma wake_parent c p : p_parent (wake c p) = p_parent p.
Proof. unfold wake. by destruct (_ && _). Qed.
Lemma wake_zombie c p : bool_decide (p_state (wake c p) = ZOMBIE) = bool_decide (p_state p = ZOMBIE).
Proof.
  unfold wake. destruct (bool_decide (p_state p = SLEEPING)) eqn:E; [|done]. simpl.
  destruct (bool_decide (p_chan p = c)); [|done]. apply bool_decide_eq_true in E. by rewrite E.
Qed.

Lemma length_reparented cur ini i l : length (reparented cur ini i l) = length l.
Proof. apply length_imap. Qed.

Lemma reparent_run cur s : length (k_procs s) = NPROC ->
  wp (reparent cur) (fun _ s' => s' = set_k_procs (reparented cur (k_initproc s) NPROC (k_procs s)) s) s.
Proof.
  intros Hl. set (ini := k_initproc s).
  apply (wp_for_each (fun i s' => s' = set_k_procs (reparented cur ini i (k_procs s)) s)).
  - unfold reparented. simpl. replace (imap _ (k_procs s)) with (k_procs s); [by destruct s|].
    apply list_eq. intros j. rewrite list_lookup_imap. by destruct (k_procs s !! j).
  - intros i s' Hi ->. destruct (lookup_lt_is_Some_2 (k_procs s) i) as [p Hp]; [lia|].
    assert (exists q, reparented cur ini i (k_procs s) !! i = Some q /\ p_parent q = p_parent p /\
      bool_decide (p_state q = ZOMBIE) = bool_decide (p_state p = ZOMBIE)) as (q & Hq & Hpar & Hz).
    { unfold reparented. rewrite list_lookup_imap, Hp. simpl. eexists. split; [reflexivity|].
      rewrite Nat.ltb_irrefl. destruct (existsb _ _); [|done]. by rewrite wake_parent, wake_zombie. }
    replace (i + 1)%nat with (S i) by lia. rewrite (reparented_next cur ini i _ p Hp), Hq. simpl.
    apply wp_bind. eapply wp_getp; [exact Hq|]. unfold zombie_child, adopt. rewrite Hpar, Hz.
    destruct (bool_decide (p_parent p = Some cur)); simpl.
    + unfold wp, bind, gets, updp. simpl. rewrite Hq. destruct (bool_decide (p_state p = ZOMBIE)); simpl; [|done].
      rewrite wakeup1_run; [done|]. simpl. by rewrite length_insert, length_reparented.
    + unfold wp, skip, ret. by rewrite list_insert_id.
  - intros s' ->. done.
Qed.

(** ** Allocation *)

(** The processes have distinct positive pids below nextpid. *)
Definition pids_ok s : Prop :=
  0 < k_nextpid s < 2 ^ 31 /\
  (forall i p, k_procs s !! i = Some p -> p_state p <> UNUSED -> 0 < p_pid p < k_nextpid s) /\
  (forall i j p q, k_procs s !! i = Some p -> k_procs s !! j = Some q ->
     p_state p <> UNUSED -> p_state q <> UNUSED -> p_pid p = p_pid q -> i = j).

Definition unused (p : proc) : bool := bool_decide (p_state p = UNUSED).

Lemma find_unused_some s i p : length (k_procs s) = NPROC -> first_with unused (k_procs s) i p ->
  find_unused s = Ret (Some i) s.
Proof.
  intros Hl (Hi & Hu & Hlow). pose proof (lookup_lt_Some _ _ _ Hi). unfold find_unused.
  apply (for_range_find _ _ _ _ i); [lia| |].
  - intros j Hj. destruct (lookup_lt_is_Some_2 (k_procs s) j) as [q Hq]; [lia|].
    unfold bind, getp. rewrite Hq. pose proof (Hlow j q ltac:(lia) Hq) as E. unfold unused in E. by rewrite E.
  - unfold bind, getp. rewrite Hi. unfold unused in Hu. by rewrite Hu.
Qed.

Lemma find_unused_none s : length (k_procs s) = NPROC -> (forall i p, k_procs s !! i = Some p -> unused p = false) ->
  find_unused s = Ret None s.
Proof.
  intros Hl Hn. apply for_range_none. intros j Hj. destruct (lookup_lt_is_Some_2 (k_procs s) j) as [q Hq]; [lia|].
  unfold bind, getp. rewrite Hq. pose proof (Hn j q Hq) as E. unfold unused in E. by rewrite E.
Qed.

Context (sel : selection) (forkret_addr trapret_addr : Z).

(** What allocproc makes of a free entry. *)
Definition new_proc (pid kp : Z) (p : proc) : proc :=
  let p := set_p_context (mkContext 0 0 0 0 forkret_addr)
    (set_p_retaddr trapret_addr (set_p_kstack kp (set_p_pid pid (set_p_state EMBRYO p)))) in
  if bool_decide (sel = NONE) then p else init_paging sel p.

Lemma new_proc_state pid kp p : p_state (new_proc pid kp p) = EMBRYO.
Proof. unfold new_proc. by destruct (bool_decide _). Qed.
Lemma new_proc_pid pid kp p : p_pid (new_proc pid kp p) = pid.
Proof. unfold new_proc. by destruct (bool_decide _). Qed.

Lemma allocproc_spec intr l s :
  locks [] intr s -> length (k_procs s) = NPROC -> kmem_wf (k_mem s) l ->
  wp (allocproc sel (ids k) forkret_addr trapret_addr) (fun r s' => locks [] intr s' /\
    match r with
    | Some i => exists p kp l', first_with unused (k_procs s) i p /\ l = kp :: l' /\ kmem_wf (k_mem s') l' /\
        k_procs s' = <[i := new_proc (k_nextpid s) kp p]> (k_procs s) /\ k_nextpid s' = i32 (k_nextpid s + 1)
    | None =>
        ((forall i p, k_procs s !! i = Some p -> unused p = false) /\ k_procs s' = k_procs s /\
         k_nextpid s' = k_nextpid s) \/
        (exists i p, l = [] /\ first_with unused (k_procs s) i p /\ k_nextpid s' = i32 (k_nextpid s + 1) /\
         k_procs s' = <[i := set_p_state UNUSED (set_p_kstack 0 (set_p_pid (k_nextpid s) (set_p_state EMBRYO p)))]> (k_procs s))
    end) s.
Proof.
  intros Hlk Hlen Hwf. unfold allocproc. apply wp_bind. eapply wp_lock_table; [done|]. intros sm1 H1.
  destruct (first_with_dec unused (k_procs s)) as [(i & p & Hf)|Hn].
  - pose proof (lookup_lt_Some _ _ _ (proj1 Hf)) as Hi.
    apply wp_bind. eapply wp_intro; [by eapply find_unused_some; [|exact Hf]|]. cbv beta iota.
    apply wp_bind. eapply wp_updp; [exact (proj1 Hf)|]. apply wp_bind, wp_gets.
    apply wp_bind. eapply wp_updp; [by apply lookup_setp|]. rewrite setp_setp.
    apply wp_bind, wp_modify. apply wp_bind. eapply wp_unlock_table; [exact H1|]. intros sm2 H2.
    apply wp_bind. destruct l as [|kp l'].
    + destruct (kalloc_nil _ Hwf) as [E Hwf']. eapply wp_inmem; [exact E|].
      apply wp_bind. eapply wp_updp; [by apply lookup_setp|]. simpl.
      apply wp_bind. eapply wp_updp; [simpl; apply list_lookup_insert_eq; rewrite length_insert; done|].
      apply wp_ret. split; [exact H2|]. right. exists i, p. split; [done|]. split; [done|].
      simpl. by rewrite !list_insert_insert_eq.
    + destruct (kalloc_cons _ _ _ Hwf) as (E & Hwf' & Hkp & _). eapply wp_inmem; [exact E|].
      apply kpage_pos in Hkp. unfold KERNBASE in Hkp. rewrite (proj2 (Z.eqb_neq kp 0)) by lia.
      apply wp_bind. eapply wp_updp; [by apply lookup_setp|].
      do 3 (apply wp_bind; eapply wp_updp; [simpl; apply list_lookup_insert_eq; rewrite ?length_insert; done|]).
      apply wp_bind, wp_when; intros Hs.
      * eapply wp_updp; [simpl; apply list_lookup_insert_eq; rewrite ?length_insert; done|].
        apply wp_ret. split; [exact H2|]. exists p, kp, l'. split; [done|]. split; [done|]. split; [exact Hwf'|].
        simpl. unfold new_proc. rewrite negb_true_iff in Hs. rewrite Hs. by rewrite !list_insert_insert_eq.
      * apply wp_ret. split; [exact H2|]. exists p, kp, l'. split; [done|]. split; [done|]. split; [exact Hwf'|].
        simpl. unfold new_proc. rewrite negb_false_iff in Hs. rewrite Hs. by rewrite !list_insert_insert_eq.
  - apply wp_bind. eapply wp_intro; [by apply find_unused_none|]. cbv beta iota.
    apply wp_bind. eapply wp_unlock_table; [exact H1|]. intros sm2 H2. apply wp_ret. split; [exact H2|]. by left.
Qed.

Lemma pids_ok_set s s' i q : pids_ok s -> k_nextpid s + 1 < 2 ^ 31 -> k_nextpid s' = i32 (k_nextpid s + 1) ->
  (i < length (k_procs s))%nat -> k_procs s' = <[i := q]> (k_procs s) ->
  (p_state q <> UNUSED -> p_pid q = k_nextpid s) -> pids_ok s'.
Proof.
  intros (Hr & Hb & Hd) Hmax Hn Hi Hps Hq. rewrite i32_small in Hn by lia. split; [lia|].
  assert (forall j p, k_procs s' !! j = Some p -> p_state p <> UNUSED ->
    (j = i /\ p_pid p = k_nextpid s) \/ (j <> i /\ k_procs s !! j = Some p /\ 0 < p_pid p < k_nextpid s)) as Hc.
  { intros j p. rewrite Hps. destruct (decide (j = i)) as [->|Hne].
    - rewrite list_lookup_insert_eq by done. intros [= <-] Hu. left. auto.
    - rewrite list_lookup_insert_ne by done. intros Hp Hu. right. split; [done|]. split; [done|]. by eapply Hb. }
  split.
  - intros j p Hp Hu. destruct (Hc j p Hp Hu) as [[_ ?]|(_ & _ & ?)]; lia.
  - intros j j' p p' Hp Hp' Hu Hu' E.
    destruct (Hc j p Hp Hu) as [[-> ?]|(? & ? & ?)], (Hc j' p' Hp' Hu') as [[-> ?]|(? & ? & ?)]; [done|lia|lia|].
    by eapply Hd.
Qed.

(** ** The scheduler *)

Variables (ts_addr : Z).

(** switchuvm changes the tables of the processor and the active page directory only. *)
Lemma wp_switchuvm held intr i p s (Q : unit -> kst F -> Prop) :
  locks held intr s -> k_procs s !! i = Some p -> p_kstack p <> 0 -> p_pgdir p <> 0 ->
  (forall s', locks held intr s' -> k_procs s' = k_procs s -> k_cur s' = k_cur s -> k_mem s' = k_mem s ->
     k_cr3 s' = V2P (p_pgdir p) -> k_ts s' = mkTaskstate (u32 (p_kstack p + KSTACKSIZE)) (Z.shiftl SEG_KDATA 3) 0xFFFF -> Q tt s') ->
  wp (switchuvm (ids k) ts_addr (Some i)) Q s.
Proof.
  intros [Hr Hpt] Hp Hks Hpd HQ. destruct (ready_push_pop ids k _ _ _ Hr) as (s1 & s2 & E1 & Em & E2 & Hr' & Hl).
  unfold switchuvm. apply wp_bind. eapply wp_getp; [exact Hp|].
  rewrite (proj2 (Z.eqb_neq _ _) Hks), (proj2 (Z.eqb_neq _ _) Hpd).
  apply wp_bind. unfold insmp at 1. apply wp_lift. eapply wp_intro; [exact E1|].
  apply wp_bind. unfold insmp at 1. apply wp_lift. eapply wp_intro; [exact Em|].
  apply wp_bind, wp_modify. apply wp_bind, wp_modify. apply wp_bind, wp_modify. apply wp_bind, wp_modify.
  apply wp_bind, wp_modify. unfold insmp. apply wp_lift. eapply wp_intro; [exact E2|].
  apply HQ; try done. split; [exact Hr'|]. simpl. by rewrite Hl.
Qed.

Definition runnable (p : proc) : bool := bool_decide (p_state p = RUNNABLE).

(** The table between two switches: a runnable process has a stack and a page directory; the scheduler
    can age the pages of every process that has run. *)
Definition sched_ok s : Prop :=
  length (k_procs s) = NPROC /\
  (forall i p, k_procs s !! i = Some p -> p_state p = RUNNABLE -> p_kstack p <> 0 /\ p_pgdir p <> 0) /\
  (forall i p, k_procs s !! i = Some p -> p_state p <> UNUSED -> p_state p <> EMBRYO -> can_age sel s p).

Definition keeps_runnable (i : nat) s s' : Prop :=
  forall j p, j <> i -> k_procs s !! j = Some p -> p_state p = RUNNABLE ->
    exists p', k_procs s' !! j = Some p' /\ p_state p' = RUNNABLE.

(** What a process may do while it runs, up to its switch back: it comes back with ptable.lock
    held, and leaves the other runnable processes runnable. *)
Definition well_behaved (env : M (kst F) unit) : Prop :=
  forall i p intr s, locks [PTABLE] intr s -> sched_ok s -> k_cur s = Some i -> k_procs s !! i = Some p ->
    p_state p = RUNNING ->
    wp env (fun _ s' => (exists intr', locks [PTABLE] intr' s') /\ sched_ok s' /\ keeps_runnable i s s' /\
      exists p', k_procs s' !! i = Some p' /\ p_state p' <> UNUSED /\ p_state p' <> EMBRYO) s.

(** Choosing a process, or putting it to sleep, keeps the table in order, and so does the end of its turn. *)
Lemma sched_ok_state i p st s s1 : sched_ok s -> k_procs s !! i = Some p -> p_state p <> UNUSED -> p_state p <> EMBRYO ->
  st <> RUNNABLE -> k_procs s1 = k_procs s -> k_mem s1 = k_mem s -> sched_ok (setp i (set_p_state st p) s1).
Proof.
  intros (Hlen & Hok & Hage) Hp Hu0 He0 Hst Eps Emem. pose proof (lookup_lt_Some _ _ _ Hp) as Hi.
  assert (forall q, can_age sel s q -> can_age sel (setp i (set_p_state st p) s1) q) as Hkeep.
  { intros q [?|[?|[?|(j & r & Hpar & Hj & Hor)]]]; [by left|by right; left|by right; right; left|].
    right; right; right. unfold setp, kmm. simpl. rewrite Eps, Emem. exists j.
    destruct (decide (j = i)) as [->|]; [|exists r; by rewrite list_lookup_insert_ne].
    rewrite Hp in Hj. injection Hj as <-. eexists. by rewrite list_lookup_insert_eq. }
  assert (forall j q, k_procs (setp i (set_p_state st p) s1) !! j = Some q ->
    q = set_p_state st p \/ k_procs s !! j = Some q) as Hcase.
  { intros j q. unfold setp. simpl. rewrite Eps. destruct (decide (j = i)) as [->|].
    - rewrite list_lookup_insert_eq by done. intros [= <-]. by left.
    - rewrite list_lookup_insert_ne by done. by right. }
  split; [simpl; by rewrite length_insert, Eps|]. split; intros j q [->|Hq]%Hcase.
  - done.
  - by apply (Hok j).
  - intros _ _. by apply (Hkeep p), (Hage i p Hp).
  - intros Hu He. by apply Hkeep, (Hage j q).
Qed.

Lemma wp_turn_ends i p s (Q : unit -> kst F -> Prop) : sched_ok s -> k_procs s !! i = Some p ->
  p_state p <> UNUSED -> p_state p <> EMBRYO ->
  (forall s', k_smp s' = k_smp s -> sched_ok s' -> keeps_runnable i s s' -> Q tt s') -> wp (run_in sel i) Q s.
Proof.
  intros (Hlen & Hok & Hage) Hp Hu He HQ. pose proof (lookup_lt_Some _ _ _ Hp) as Hi. unfold run_in. apply wp_bind.
  eapply wp_mono; [apply (wp_sched_age sel i p s Hp); by apply (Hage i)|]. intros [] s' Ha.
  pose proof (fun j q => can_age_aged sel i p s s' j q Hp Ha Hage) as Hage'.
  destruct Ha as (km & arr & -> & _ & _). apply wp_bind. unfold switchkvm. apply wp_bind, wp_gets, wp_modify. apply wp_modify.
  apply HQ; [done| |].
  - split; [simpl; by rewrite length_insert|]. split; [|exact Hage']. intros j q. simpl. destruct (decide (j = i)) as [->|].
    + rewrite list_lookup_insert_eq by done. intros [= <-]. apply (Hok i p Hp).
    + rewrite list_lookup_insert_ne by done. apply Hok.
  - intros j q Hne Hq Hr. exists q. simpl. by rewrite list_lookup_insert_ne.
Qed.

Lemma sched_scan_spec env n i intr s :
  well_behaved env -> (i + n = NPROC)%nat -> locks [PTABLE] intr s -> sched_ok s ->
  rwp k_cur env (sched_scan sel (ids k) ts_addr n i) (fun _ log s' =>
    (exists intr', locks [PTABLE] intr' s') /\ sched_ok s' /\
    exists l, log = map Some l /\ Forall (fun j => (i <= j < NPROC)%nat) l /\ StronglySorted lt l /\
      forall j p, (i <= j)%nat -> k_procs s !! j = Some p -> p_state p = RUNNABLE -> j ∈ l) s.
Proof.
  intros Henv. revert i intr s. induction n as [|n IH]; intros i intr s Hi Hlk Hok.
  { apply rwp_ret. split; [by eexists|]. split; [done|]. exists []. split; [done|]. split; [done|].
    split; [constructor|]. intros j p Hj Hp _. apply lookup_lt_Some in Hp. destruct Hok. lia. }
  cbn [sched_scan]. destruct (lookup_lt_is_Some_2 (k_procs s) i) as [p Hp]; [destruct Hok; lia|].
  apply rwp_bind, rwp_act. eapply wp_getp; [exact Hp|].
  apply rwp_bind. destruct (bool_decide_reflect (p_state p = RUNNABLE)) as [Hr|Hr]; cbn [negb].
  - pose proof Hok as (Hlen & Hks & _). destruct (Hks i p Hp Hr) as [Hks' Hpd].
    pose proof (lookup_lt_Some _ _ _ Hp) as Hil.
    apply rwp_bind, rwp_act, wp_bind, wp_modify. apply wp_bind.
    eapply wp_switchuvm; [exact Hlk|exact Hp|done|done|]. intros s1 Hlk1 Hps1 Hcur1 Hmem1 _ _. simpl in Hps1, Hcur1, Hmem1.
    eapply wp_updp; [by rewrite Hps1|].
    apply rwp_bind, rwp_swtch. eapply wp_mono.
    { eapply (Henv i (set_p_state RUNNING p) intr); [exact Hlk1| |done|simpl; rewrite Hps1; by apply list_lookup_insert_eq|done].
      apply (sched_ok_state i p RUNNING s); try done; by rewrite Hr. }
    intros [] s2 ([intr2 Hlk2] & Hok2 & Hkeep & p2 & Hp2 & Hu2 & He2). apply rwp_act.
    eapply wp_turn_ends; [exact Hok2|exact Hp2|done|done|]. intros s2' Hsmp Hok2' Hkeep'.
    eapply rwp_mono; [apply (IH (i + 1)%nat intr2); [lia|by unfold locks; rewrite Hsmp|exact Hok2']|].
    intros [] log s3 (Hl3 & Hok3 & l & -> & Hrange & Hsorted & Hall). split; [done|]. split; [done|].
    exists (i :: l). split; [simpl; by rewrite Hcur1|]. split; [|split].
    + constructor; [lia|]. eapply Forall_impl; [exact Hrange|]. simpl. lia.
    + constructor; [done|]. eapply Forall_impl; [exact Hrange|]. simpl. lia.
    + intros j q Hj Hq Hrq. destruct (decide (j = i)) as [->|Hne]; [by left|right].
      destruct (Hkeep j q Hne) as (q' & Hq' & Hrq'); [|done|].
      { simpl. rewrite Hps1. by rewrite list_lookup_insert_ne. }
      destruct (Hkeep' j q' Hne Hq' Hrq') as (q2 & Hq2 & Hrq2). eapply (Hall j q2); [lia|exact Hq2|done].
  - apply rwp_ret. eapply rwp_mono; [apply (IH (i + 1)%nat intr); [lia|done|done]|].
    intros [] log s' (Hl & Hok' & l & -> & Hrange & Hsorted & Hall). split; [done|]. split; [done|].
    exists l. split; [done|]. split; [eapply Forall_impl; [exact Hrange|]; simpl; lia|]. split; [done|].
    intros j q Hj Hq Hrq. destruct (decide (j = i)) as [->|]; [congruence|]. eapply Hall; [|done..]. lia.
Qed.

Lemma locks_sti s intr : locks [] intr s -> locks [] true (set_k_smp (set_s_if (ids k) true (k_smp s)) s).
Proof.
  intros [[Hok (c & Hc & Hn & _) Hif Hnd Hlk Hlt] Hp]. split; [|done]. constructor; simpl; try done.
  - by exists c.
  - by rewrite Z.eqb_refl.
Qed.

Lemma sched_pass_spec env intr s :
  well_behaved env -> locks [] intr s -> sched_ok s ->
  rwp k_cur env (sched_pass sel (ids k) ts_addr) (fun _ log s' =>
    (exists intr', locks [] intr' s') /\ sched_ok s' /\
    exists l, log = map Some l /\ StronglySorted lt l /\
      forall j p, k_procs s !! j = Some p -> p_state p = RUNNABLE -> j ∈ l) s.
Proof.
  intros Henv Hlk Hok. unfold sched_pass. apply rwp_bind, rwp_act.
  apply wp_bind. unfold insmp at 1, sti. apply wp_lift, wp_modify.
  eapply wp_lock_table; [by eapply locks_sti|]. intros sm Hlk1.
  apply rwp_bind. eapply rwp_mono; [apply (sched_scan_spec env NPROC 0 true); [done|done|exact Hlk1|exact Hok]|].
  intros [] log s2 ([intr2 Hlk2] & Hok2 & l & -> & _ & Hs & Hall). apply rwp_act.
  eapply wp_unlock_table; [exact Hlk2|]. intros sm2 Hlk3. rewrite app_nil_r. split; [by eexists|]. split; [exact Hok2|].
  exists l. split; [done|]. split; [done|]. intros j p Hp Hr. eapply Hall; [lia|exact Hp|done].
Qed.

(** ** Switching away and coming back *)

Variable (regs : kst F -> context).

Lemma locks_my_cpu held intr s : locks held intr s -> held <> [] ->
  exists c, my_cpu (ids k) (k_smp s) = Ret c (k_smp s) /\ c_ncli c = Z.of_nat (length held) /\ c_intena c = intr.
Proof.
  intros [Hr _] Hne. pose proof Hr as [_ (c & Hc & Hn & Hi) Hif _ _ _]. exists c.
  unfold my_cpu, bind. rewrite (ready_mycpu ids k held intr) by (try done; rewrite Hif; by destruct held).
  unfold getcpu. rewrite Hc. auto.
Qed.

Lemma lift_smp {A} (m : M smp A) a s : m (k_smp s) = Ret a (k_smp s) -> insmp m s = Ret a s.
Proof. intros E. unfold insmp, lift. rewrite E. by destruct s. Qed.

Lemma sched_out_run intr i p s : locks [PTABLE] intr s -> k_cur s = Some i -> k_procs s !! i = Some p ->
  p_state p <> RUNNING ->
  sched_out (ids k) regs s = Ret intr (setp i (set_p_context (regs s) p) s).
Proof.
  intros Hlk Hcur Hp Hst. destruct (locks_my_cpu _ _ _ Hlk) as (c & Hc & Hn & Hi); [done|].
  assert (holding (ids k) PTABLE (k_smp s) = Ret true (k_smp s)) as Hh.
  { destruct Hlk as [Hr _]. eapply ready_holding; [exact Hr|by left]. }
  assert (s_if (k_smp s) (ids k) = false) as Hif by (by destruct Hlk as [[] _]).
  unfold sched_out, curproc, myproc, bind, gets. rewrite Hcur. cbv beta iota. unfold ret at 1. cbv beta iota.
  rewrite (lift_smp _ _ _ Hh). simpl. rewrite (lift_smp _ _ _ Hc). cbv beta iota. rewrite Hn. simpl. unfold getp at 1. rewrite Hp.
  rewrite bool_decide_eq_false_2 by done. cbv beta iota.
  rewrite Hif. cbv beta iota. replace (set_k_smp (k_smp s) s) with s by (by destruct s).
  rewrite (lift_smp _ _ _ Hc). unfold updp. rewrite Hp. by rewrite Hi.
Qed.

Lemma set_intena_run intr intr' s : locks [PTABLE] intr s ->
  exists sm, insmp (set_intena (ids k) intr') s = Ret tt (set_k_smp sm s) /\ locks [PTABLE] intr' (set_k_smp sm s) /\
    length (s_locks sm) = length (s_locks (k_smp s)).
Proof.
  intros [Hr Hlt]. pose proof Hr as [Hok (c & Hc & Hn & Hi) Hif Hnd Hlk Hl].
  unfold insmp, lift, set_intena, bind. rewrite (ready_mycpu ids k [PTABLE] intr) by done. unfold getcpu. rewrite Hc.
  unfold putcpu, modify. eexists. split; [reflexivity|]. split; [|done]. split; [|done]. constructor; simpl; try done.
  - by apply (cpus_ok_update ids (k_smp s) k c (mkCpu (c_apicid c) (c_ncli c) intr') Hok Hc).
  - exists (mkCpu (c_apicid c) (c_ncli c) intr'). split; [apply list_lookup_insert_eq; by eapply lookup_lt_Some|]. done.
Qed.

(** A process that holds only [l] and sleeps: up to the switch. *)
Lemma sleep_out_run intr i p c l s : locks [l] intr s -> (l < length (s_locks (k_smp s)))%nat ->
  k_cur s = Some i -> k_procs s !! i = Some p ->
  exists sm, run_until (sleep_out (ids k) c (Some l)) s
      = Ret (inl (i, l)) (setp i (set_p_state SLEEPING (set_p_chan c p)) (set_k_smp sm s)) /\
    locks [PTABLE] intr (set_k_smp sm s) /\ length (s_locks sm) = length (s_locks (k_smp s)).
Proof.
  intros Hlk Hl Hcur Hp.
  assert (exists sm, run_until (if negb (l =? PTABLE)%nat then act (acquire_k (ids k) PTABLE) ;;? act (release_k (ids k) l) else PRet tt) s
      = Ret (inl tt) (set_k_smp sm s) /\
    locks [PTABLE] intr (set_k_smp sm s) /\ length (s_locks sm) = length (s_locks (k_smp s))) as (sm & E & Hsm & Hlen).
  { destruct (Nat.eqb_spec l PTABLE) as [->|Hne]; cbn [negb].
    - exists (k_smp s). by destruct s.
    - assert (wp (acquire_k (ids k) PTABLE) (fun _ s' => exists sm, s' = set_k_smp sm s /\
        locks [PTABLE; l] intr (set_k_smp sm s) /\ length (s_locks sm) = length (s_locks (k_smp s))) s) as ([] & s1 & E1 & sm1 & -> & H1 & L1)%wp_elim.
      { eapply wp_acquire_k; [exact Hlk|by intros ?%list_elem_of_singleton|apply Hlk|]. eauto. }
      assert (wp (release_k (ids k) l) (fun _ s' => exists sm, s' = set_k_smp sm s /\
        locks [PTABLE] intr (set_k_smp sm s) /\ length (s_locks sm) = length (s_locks (k_smp s))) (set_k_smp sm1 s)) as ([] & s2 & E2 & sm2 & -> & H2 & L2)%wp_elim.
      { eapply wp_release_k; [exact H1|by right; left|]. intros sm2 H2 E2. exists sm2.
        rewrite filter_cons_True, filter_cons_False, filter_nil in H2 by auto. split; [done|]. split; [exact H2|]. simpl in E2. by rewrite E2. }
      exists sm2. split; [|done]. by rewrite run_until_bind, (run_until_act _ _ _ _ E1), (run_until_act _ _ _ _ E2). }
  exists sm. split; [|done]. unfold sleep_out. rewrite run_until_bind.
  rewrite (run_until_act _ _ (i, l) s) by (unfold sleep_who, bind, myproc, gets; by rewrite Hcur). cbn [fst snd].
  rewrite run_until_bind, E. simpl. unfold updp. simpl. rewrite Hp. simpl. rewrite list_lookup_insert_eq by (by eapply lookup_lt_Some).
  unfold setp, set_k_procs. simpl. by rewrite list_insert_insert_eq.
Qed.

Lemma sleep_in_run intr i p l s : locks [PTABLE] intr s -> (l < length (s_locks (k_smp s)))%nat ->
  k_procs s !! i = Some p ->
  exists sm, run_until (sleep_in (ids k) (i, l)) s = Ret (inl tt) (setp i (set_p_chan NoChan p) (set_k_smp sm s)) /\
    locks [l] intr (set_k_smp sm s).
Proof.
  intros Hlk Hl Hp. unfold sleep_in. cbn [fst snd]. rewrite run_until_bind.
  rewrite (run_until_act _ _ tt (setp i (set_p_chan NoChan p) s)) by (unfold updp; by rewrite Hp).
  destruct (Nat.eqb_spec l PTABLE) as [->|Hne]; cbn [negb].
  - exists (k_smp s). by destruct s.
  - assert (wp (release_k (ids k) PTABLE ;;; acquire_k (ids k) l) (fun _ s' => exists sm, s' = setp i (set_p_chan NoChan p) (set_k_smp sm s) /\
      locks [l] intr (set_k_smp sm s)) (setp i (set_p_chan NoChan p) s)) as ([] & s' & E & sm & -> & ?)%wp_elim.
    { apply wp_bind. eapply (wp_release_k [PTABLE] intr); [exact Hlk|by left|]. intros sm1 H1 Hlen.
      eapply wp_acquire_k; [exact H1|apply not_elem_of_nil|simpl; by rewrite Hlen|].
      intros sm2 H2 _. exists sm2. split; [done|exact H2]. }
    exists sm. split; [|done]. rewrite run_until_bind. simpl. unfold bind in E. destruct (release_k (ids k) PTABLE _) as [[] s1| | |]; [|done..].
    by rewrite E.
Qed.

(** ** Exit and wait *)

Definition child_of (cur : nat) (p : proc) : bool := bool_decide (p_parent p = Some cur).

(** A scan that meets no dead child changes nothing and tells whether there are children. *)
Lemma wait_scan_alive cur n i b s : (i + n = length (k_procs s))%nat ->
  (forall j p, k_procs s !! j = Some p -> zombie_child cur p = false) ->
  wait_scan sel (ids k) cur n i b s = Ret (inr (b || existsb (child_of cur) (drop i (k_procs s)))) s.
Proof.
  intros Hi Hz. revert i b Hi. induction n as [|n IH]; intros i b Hi; simpl.
  { by rewrite drop_ge, orb_false_r by lia. }
  destruct (lookup_lt_is_Some_2 (k_procs s) i) as [p Hp]; [lia|]. unfold bind, getp. rewrite Hp.
  rewrite (drop_S _ _ _ Hp). simpl. pose proof (Hz i p Hp) as Hzp. unfold zombie_child in Hzp. unfold child_of at 1.
  replace (S i) with (i + 1)%nat by lia.
  destruct (bool_decide (p_parent p = Some cur)); simpl in *.
  - rewrite Hzp. rewrite IH by lia. by rewrite orb_true_r.
  - by rewrite IH by lia.
Qed.

(** What exit leaves in the table for the process [j] with entry [p]. *)
Lemma exit_table_spec intr cur c s :
  locks [] intr s -> length (k_procs s) = NPROC -> k_procs s !! cur = Some c ->
  wp (exit_table (ids k) cur) (fun _ s' => locks [PTABLE] intr s' /\ k_cur s' = k_cur s /\
    k_procs s' = alter (set_p_state ZOMBIE) cur
      (reparented cur (k_initproc s) NPROC (map (wake (chan_of (p_parent c))) (k_procs s)))) s.
Proof.
  intros Hlk Hlen Hc. unfold exit_table. apply wp_bind. eapply wp_lock_table; [done|]. intros sm H1.
  apply wp_bind. eapply wp_getp; [exact Hc|]. apply wp_bind. eapply wp_intro; [by apply wakeup1_run|].
  apply wp_bind. eapply wp_mono; [apply reparent_run; simpl; by rewrite length_map|]. intros [] s2 ->. simpl.
  set (l := reparented cur (k_initproc s) NPROC (map (wake (chan_of (p_parent c))) (k_procs s))).
  assert (length l = NPROC) as Hl by (unfold l; by rewrite length_reparented, length_map).
  destruct (lookup_lt_is_Some_2 l cur) as [c' Hc']; [rewrite Hl, <- Hlen; by eapply lookup_lt_Some|].
  eapply wp_updp; [exact Hc'|]. split; [exact H1|]. simpl. split; [done|].
  apply list_eq. intros j. rewrite list_lookup_alter. case_decide as Ej; [subst j|].
  - rewrite list_lookup_insert_eq by (by eapply lookup_lt_Some). fold l. by rewrite Hc'.
  - by rewrite list_lookup_insert_ne.
Qed.

(** Waking and adopting touch the state of sleepers and the parent only. *)
Lemma wake_state_iff c p : p_state p = SLEEPING -> p_chan p = c -> p_state (wake c p) = RUNNABLE.
Proof. intros H1 H2. unfold wake. by rewrite !bool_decide_eq_true_2. Qed.
Lemma wake_runnable c p : p_state p = RUNNABLE -> wake c p = p.
Proof. intros E. unfold wake. by rewrite E. Qed.
Lemma adopt_state cur ini p : p_state (adopt cur ini p) = p_state p.
Proof. unfold adopt. by destruct (bool_decide _). Qed.

Lemma reparented_lookup cur ini l j p : length l = NPROC -> l !! j = Some p ->
  exists b : bool, reparented cur ini NPROC l !! j = Some (if b then wake (chan_of ini) (adopt cur ini p) else adopt cur ini p).
Proof.
  intros Hlen Hp. exists (existsb (zombie_child cur) (take NPROC l)). unfold reparented. rewrite list_lookup_imap, Hp. cbn [fmap option_fmap option_map].
  rewrite (proj2 (Nat.ltb_lt j NPROC)); [done|]. rewrite <- Hlen. by eapply lookup_lt_Some.
Qed.

Lemma wait_sleeps intr i c p pc n s :
  locks [] intr s -> length (k_procs s) = NPROC -> k_cur s = Some i -> k_procs s !! i = Some p ->
  p_killed p = false -> k_procs s !! c = Some pc -> p_parent pc = Some i ->
  (forall j q, k_procs s !! j = Some q -> zombie_child i q = false) ->
  exists rest s1 p1, run_until (wait sel (ids k) regs (S n)) s = Ret (inr rest) s1 /\ locks [PTABLE] intr s1 /\
    k_procs s1 = <[i := p1]> (k_procs s) /\ p_state p1 = SLEEPING /\ p_chan p1 = ChanProc i.
Proof.
  intros Hlk Hlen Hcur Hp Hk Hc Hpar Hz. pose proof (lookup_lt_Some _ _ _ Hp) as Hi.
  assert (wp (let! cur := curproc in acquire_k (ids k) PTABLE ;;; ret cur) (fun r s' => r = i /\
    exists sm, s' = set_k_smp sm s /\ locks [PTABLE] intr s') s) as (r & s' & E0 & -> & sm & -> & H1)%wp_elim.
  { unfold curproc, myproc. apply wp_bind, wp_bind, wp_gets. rewrite Hcur. apply wp_ret, wp_bind.
    eapply wp_lock_table; [done|]. intros sm H1. apply wp_ret. eauto. }
  assert (wait_round sel (ids k) i (set_k_smp sm s) = Ret None (set_k_smp sm s)) as E1.
  { unfold wait_round, bind at 1. rewrite wait_scan_alive by done. cbv beta iota. simpl. unfold bind, getp. simpl. rewrite Hp, Hk.
    replace (existsb _ _) with true; [done|]. symmetry. apply existsb_exists. exists pc.
    split; [|unfold child_of; by rewrite bool_decide_eq_true_2]. apply list_elem_of_In, list_elem_of_lookup. by exists c. }
  destruct (sleep_out_run intr i p (ChanProc i) PTABLE (set_k_smp sm s) H1 (proj2 H1) Hcur Hp) as (sm2 & E2 & Hlk2 & _).
  unfold wait. rewrite run_until_bind, (run_until_act _ _ _ _ E0). cbn [wait_loop].
  rewrite run_until_bind, (run_until_act _ _ _ _ E1), run_until_bind. unfold sleep.
  rewrite run_until_bind, E2, run_until_bind. unfold sched. rewrite run_until_bind.
  erewrite run_until_act by (eapply (sched_out_run intr i); [exact Hlk2|done|simpl; by apply list_lookup_insert_eq|done]).
  simpl. eexists _, _, _. split; [reflexivity|]. split; [exact Hlk2|]. simpl. rewrite list_insert_insert_eq.
  split; [reflexivity|done].
Qed.

(** The exit of a child [c] of the process [i] that sleeps on itself. *)
Lemma exit_effect intr i c p pc s :
  locks [] intr s -> length (k_procs s) = NPROC ->
  k_procs s !! i = Some p -> p_state p = SLEEPING /\ p_chan p = ChanProc i ->
  k_procs s !! c = Some pc -> p_parent pc = Some i -> c <> i ->
  wp (exit_table (ids k) c) (fun _ s3 => locks [PTABLE] intr s3 /\ k_cur s3 = k_cur s /\
    (exists p3, k_procs s3 !! i = Some p3 /\ p_state p3 = RUNNABLE) /\
    (exists c3, k_procs s3 !! c = Some c3 /\ p_state c3 = ZOMBIE /\ p_parent c3 = Some i) /\
    (forall j q, k_procs s !! j = Some q -> p_parent q = Some c ->
       exists q3, k_procs s3 !! j = Some q3 /\ p_parent q3 = k_initproc s)) s.
Proof.
  intros Hlk Hlen Hp [Hps Hpc] Hc Hpar Hne. set (ini := k_initproc s).
  eapply wp_mono; [by apply (exit_table_spec intr c pc s)|]. intros [] s3 (Hl3 & Hc3 & Hps3). do 2 (split; [done|]).
  rewrite Hpar in Hps3. simpl in Hps3.
  set (lw := map (wake (ChanProc i)) (k_procs s)) in Hps3. assert (length lw = NPROC) as Hlw by (by unfold lw; rewrite length_map).
  assert (forall j q, k_procs s !! j = Some q -> exists b : bool, k_procs s3 !! j =
    Some ((if decide (c = j) then set_p_state ZOMBIE else id)
      (if b then wake (chan_of ini) (adopt c ini (wake (ChanProc i) q)) else adopt c ini (wake (ChanProc i) q)))) as Hlook.
  { intros j q Hq. assert (lw !! j = Some (wake (ChanProc i) q)) as Hq' by (unfold lw; by rewrite list_lookup_fmap, Hq).
    destruct (reparented_lookup c ini lw j _ Hlw Hq') as [b Hb]. exists b. rewrite Hps3, list_lookup_alter.
    destruct (decide (c = j)) as [<-|]; fold ini; by rewrite Hb. }
  assert (forall (b : bool) q, p_parent (if b then wake (chan_of ini) (adopt c ini (wake (ChanProc i) q))
    else adopt c ini (wake (ChanProc i) q)) = if bool_decide (p_parent q = Some c) then ini else p_parent q) as Hparent.
  { intros b q. assert (p_parent (adopt c ini (wake (ChanProc i) q)) = if bool_decide (p_parent q = Some c) then ini else p_parent q) as E.
    { unfold adopt. rewrite wake_parent. destruct (bool_decide _); [done|]. by rewrite wake_parent. }
    destruct b; by rewrite ?wake_parent. }
  split; [|split].
  - destruct (Hlook i p Hp) as [b ->]. rewrite decide_False by done. eexists. split; [reflexivity|]. unfold id.
    assert (p_state (adopt c ini (wake (ChanProc i) p)) = RUNNABLE) as Hr by (rewrite adopt_state; by apply wake_state_iff).
    destruct b; [by rewrite wake_runnable|done].
  - destruct (Hlook c pc Hc) as [b ->]. rewrite decide_True by done. eexists. split; [reflexivity|]. split; [done|].
    change (p_parent (set_p_state ZOMBIE ?x)) with (p_parent x). rewrite Hparent, Hpar, bool_decide_eq_false_2; congruence.
  - intros j q Hq Hqp. destruct (Hlook j q Hq) as [b ->]. eexists. split; [reflexivity|].
    transitivity (p_parent (if b then wake (chan_of ini) (adopt c ini (wake (ChanProc i) q)) else adopt c ini (wake (ChanProc i) q))).
    { by destruct (decide (c = j)). }
    by rewrite Hparent, Hqp, bool_decide_eq_true_2.
Qed.

(** ** What exit does before it takes ptable.lock *)

(** The processes' states, channels and parents are as before; and so are the locks. *)
Definition family s s' : Prop :=
  k_cur s' = k_cur s /\ k_initproc s' = k_initproc s /\ length (k_procs s') = length (k_procs s) /\
  forall j p, k_procs s !! j = Some p -> exists p', k_procs s' !! j = Some p' /\
    p_state p' = p_state p /\ p_chan p' = p_chan p /\ p_parent p' = p_parent p.
Definition same_family s s' : Prop := k_smp s' = k_smp s /\ family s s'.

Definition keeps {A} (m : M (kst F) A) : Prop := forall s a s', m s = Ret a s' -> same_family s s'.

Lemma same_family_refl s : same_family s s.
Proof. do 4 (split; [done|]). intros j p Hp. by exists p. Qed.

Lemma family_trans s1 s2 s3 : family s1 s2 -> family s2 s3 -> family s1 s3.
Proof.
  intros (A2 & A3 & A4 & A5) (B2 & B3 & B4 & B5). do 3 (split; [congruence|]). intros j p Hp.
  destruct (A5 j p Hp) as (p' & Hp' & E1 & E2 & E3). destruct (B5 j p' Hp') as (p2 & Hp2 & G1 & G2 & G3).
  exists p2. repeat split; congruence.
Qed.

Lemma family_bind {A B} (m : M (kst F) A) (f : A -> M (kst F) B) : keeps m -> (forall a, keeps (f a)) -> keeps (bind m f).
Proof.
  intros Hm Hf s a s'. unfold bind. destruct (m s) as [b s1| | |] eqn:E; try done. intros E'.
  destruct (Hm _ _ _ E) as [A1 A2], (Hf _ _ _ _ E') as [B1 B2]. split; [congruence|by eapply family_trans].
Qed.

Lemma family_for_each n i0 (f : nat -> M (kst F) unit) : (forall i, keeps (f i)) -> keeps (for_each n i0 f).
Proof.
  intros Hf. revert i0. induction n as [|n IH]; intros i0; simpl; [intros s a s' [= <- <-]; apply same_family_refl|].
  by apply family_bind.
Qed.

Lemma keeps_when b (m : M (kst F) unit) : keeps m -> keeps (when b m).
Proof. intros Hm. destruct b; [done|]. intros s a s' [= <- <-]. apply same_family_refl. Qed.

Lemma keeps_ret {A} (a : A) : keeps (ret a).
Proof. intros s b s' [= <- <-]. apply same_family_refl. Qed.
Lemma keeps_skip : keeps skip.
Proof. apply keeps_ret. Qed.
Lemma keeps_fault {A} : keeps (fault : M (kst F) A).
Proof. by intros s a s'. Qed.
Lemma keeps_panic {A} e : keeps (panic e : M (kst F) A).
Proof. by intros s a s'. Qed.
Lemma keeps_gets {A} (f : kst F -> A) : keeps (gets f).
Proof. intros s a s' [= <- <-]. apply same_family_refl. Qed.
Lemma keeps_cprintf fmt args : keeps (cprintf fmt args).
Proof. intros s a s' [= <- <-]. apply (same_family_refl s). Qed.
Lemma keeps_infs {A} (m : M F A) : keeps (infs m).
Proof. intros s a s'. unfold infs, lift. destruct (m _); try done. intros [= <- <-]. apply (same_family_refl s). Qed.
Lemma keeps_inmem {A} (m : M kmem A) : keeps (inmem m).
Proof. intros s a s'. unfold inmem, lift. destruct (m _); try done. intros [= <- <-]. apply (same_family_refl s). Qed.
Lemma keeps_getp i : keeps (getp i).
Proof. intros s a s'. unfold getp. destruct (k_procs s !! i); try done. intros [= <- <-]. apply same_family_refl. Qed.
Lemma keeps_kld32 va : keeps (kld32 va).
Proof. intros s a s'. unfold kld32. destruct (kaddr _ _ _); try done. intros [= <- <-]. apply same_family_refl. Qed.

Lemma keeps_updp i f : (forall p, p_state (f p) = p_state p /\ p_chan (f p) = p_chan p /\ p_parent (f p) = p_parent p) ->
  keeps (updp i f).
Proof.
  intros Hf s a s'. unfold updp. destruct (k_procs s !! i) as [p|] eqn:Hp; [|done]. intros [= <- <-].
  do 3 (split; [done|]). simpl. split; [by rewrite length_insert|]. intros j q Hq. destruct (decide (j = i)) as [->|].
  - rewrite list_lookup_insert_eq by (by eapply lookup_lt_Some). exists (f p). rewrite Hp in Hq. injection Hq as <-. auto.
  - rewrite list_lookup_insert_ne by done. by exists q.
Qed.

End table.

Create HintDb family.
#[export] Hint Resolve family_bind family_for_each keeps_when keeps_ret keeps_skip keeps_fault keeps_panic keeps_gets
  keeps_cprintf keeps_infs keeps_inmem keeps_getp keeps_kld32 : family.
#[export] Hint Extern 1 (keeps (updp _ _)) => apply keeps_updp; done : family.
#[export] Hint Extern 2 (keeps (match ?x with _ => _ end)) => destruct x : family.
#[export] Hint Extern 2 (keeps (fun _ => _)) => progress cbv beta : family.

Section exits.
Context {img : Image} {F : Type} `{FileSys F}.
Context (ids : nat -> Z) (k : nat) (sel : selection).
Implicit Types (s : kst F).

Lemma keeps_print_pcs l : keeps (F := F) (print_pcs l).
Proof. induction l as [|c l IH]; simpl; auto 10 with family. Qed.
#[local] Hint Resolve keeps_print_pcs : family.

Lemma keeps_procdump_proc i : keeps (F := F) (procdump_proc i).
Proof. unfold procdump_proc, print_proc, print_callers, print_free, getmem. auto 20 with family. Qed.

Lemma keeps_fileclose f : keeps (F := F) (fileclose f).
Proof. unfold fileclose. auto 10 with family. Qed.
#[local] Hint Resolve keeps_fileclose : family.

Lemma keeps_close_files cur : keeps (F := F) (close_files cur).
Proof. unfold close_files. auto 10 with family. Qed.

Lemma keeps_removeSwapFile i : keeps (F := F) (removeSwapFile i).
Proof. unfold removeSwapFile. auto 10 with family. Qed.

Lemma keeps_parent_pid p : keeps (F := F) (parent_pid p).
Proof. unfold parent_pid. auto 10 with family. Qed.
#[local] Hint Resolve keeps_close_files keeps_removeSwapFile keeps_parent_pid : family.

(** What exit does before it locks the table, if it returns from it. *)
Lemma exit_release_family verbose intr cur s s' : locks ids k [] intr s ->
  exit_release sel verbose (ids k) cur s = Ret tt s' -> locks ids k [] intr s' /\ family s s'.
Proof.
  intros Hlk. unfold exit_release. match goal with |- bind ?a ?b s = _ -> _ => set (m := b) end.
  assert (keeps (m tt)) as Hm by (unfold m; auto 20 with family).
  assert (forall s1 s2, same_family s1 s2 -> locks ids k [] intr s1 -> family s s1 -> locks ids k [] intr s2 /\ family s s2) as Hend.
  { intros s1 s2 [E1 E2] Hl Hf. unfold locks. rewrite E1. split; [done|]. by eapply family_trans. }
  unfold bind at 1. destruct verbose; simpl; [|intros E; eapply Hend; [by eapply Hm|done|apply same_family_refl]].
  assert (wp (acquire_k (ids k) PTABLE) (fun _ s1 => locks ids k [PTABLE] intr s1 /\ family s s1) s) as (a & s1 & E1 & Hl1 & Hf1)%wp_elim.
  { eapply wp_lock_table; [done|]. intros sm H1. split; [done|]. apply (same_family_refl s). }
  unfold bind at 1. rewrite E1. unfold bind. destruct (procdump_proc cur s1) as [[] s2| | |] eqn:E2; try done.
  destruct (keeps_procdump_proc cur _ _ _ E2) as [Hs2 Hf2].
  assert (wp (release_k (ids k) PTABLE) (fun _ s3 => locks ids k [] intr s3 /\ family s2 s3) s2) as (b & s3 & E3 & Hl3 & Hf3)%wp_elim.
  { eapply wp_unlock_table; [unfold locks; by rewrite Hs2|]. intros sm H1. split; [done|]. apply (same_family_refl s2). }
  rewrite E3. intros E. destruct b. eapply Hend; [by eapply Hm|done|]. eapply family_trans; [|exact Hf3]. by eapply family_trans.
Qed.

(** The whole of exit, up to its switch. *)
Lemma exit_switches verbose regs intr i c p pc s s' : locks ids k [] intr s -> length (k_procs s) = NPROC ->
  k_cur s = Some c -> k_initproc s <> Some c ->
  k_procs s !! i = Some p -> p_state p = SLEEPING /\ p_chan p = ChanProc i ->
  k_procs s !! c = Some pc -> p_parent pc = Some i -> c <> i ->
  exit_release sel verbose (ids k) c s = Ret tt s' ->
  exists rest s3, run_until (exit sel verbose (ids k) regs) s = Ret (inr rest) s3 /\ locks ids k [PTABLE] intr s3 /\
    (exists p3, k_procs s3 !! i = Some p3 /\ p_state p3 = RUNNABLE) /\
    (exists c3, k_procs s3 !! c = Some c3 /\ p_state c3 = ZOMBIE /\ p_parent c3 = Some i) /\
    (forall j q, k_procs s !! j = Some q -> p_parent q = Some c ->
       exists q3, k_procs s3 !! j = Some q3 /\ p_parent q3 = k_initproc s).
Proof.
  intros Hlk Hlen Hcur Hini Hp [Hps Hpch] Hc Hpar Hne E0.
  destruct (exit_release_family verbose intr c s s' Hlk E0) as (Hl1 & Hc1 & Hi1 & Hn1 & Hfam).
  destruct (Hfam i p Hp) as (p' & Hp' & Es & Ec & _). destruct (Hfam c pc Hc) as (pc' & Hpc' & _ & _ & Epar).
  pose proof (exit_effect ids k intr i c p' pc' s' Hl1 ltac:(congruence) Hp' ltac:(split; congruence) Hpc' ltac:(congruence) Hne)
    as ([] & s2 & E2 & Hl2 & Hc2 & (p3 & Hp3 & Hr3) & (c3 & Hc3 & Hz3 & Hpar3) & Hch)%wp_elim.
  assert (exit_out sel verbose (ids k) s = Ret tt s2) as Eout.
  { unfold exit_out, curproc, myproc, bind, gets, ret. rewrite Hcur. cbv beta iota. rewrite bool_decide_eq_false_2 by done.
    by rewrite E0, E2. }
  assert (c < length (k_procs s2))%nat as Hlt by (by eapply lookup_lt_Some).
  unfold exit. rewrite run_until_bind, (run_until_act _ _ _ _ Eout), run_until_bind. unfold sched. rewrite run_until_bind.
  erewrite run_until_act by (eapply (sched_out_run ids k regs intr c); [exact Hl2|congruence|exact Hc3|by rewrite Hz3]).
  simpl. eexists _, _. split; [reflexivity|]. split; [exact Hl2|]. simpl. split; [|split].
  - exists p3. by rewrite list_lookup_insert_ne.
  - eexists. rewrite list_lookup_insert_eq by done. split; [reflexivity|]. done.
  - intros j q Hq Hqp. destruct (Hfam j q Hq) as (q' & Hq' & _ & _ & Eq). destruct (Hch j q' Hq' ltac:(congruence)) as (q3 & Hq3 & Hpq).
    destruct (decide (j = c)) as [->|].
    + rewrite list_lookup_insert_eq by done. eexists. split; [reflexivity|]. simpl. congruence.
    + rewrite list_lookup_insert_ne by done. exists q3. split; [done|]. congruence.
Qed.

End exits.
