(* ===== verification/ProcThms.v ===== *)
(** * Properties of the process table

    The theorems about [Proc], each with a concrete instance: a table of 64 processes on one
    processor. *)
From Stdlib Require Import ZArith Lia.
From stdpp Require Import base list numbers strings sorting.
From S2P Require Import Prelude Mmu Mem Kalloc PageTable Spinlock Resume Kstate Policy Queues Swap Uvm FlatStore Demo Proc Aging ProcTable.
Local Open Scope Z_scope.

Section thms.
Context {img : Image} {F : Type} `{FileSys F}.
Implicit Types (s : kst F).

(** C14: allocproc hands out a fresh process.  With the table's lock free, and as long as nextpid has not
    reached the largest int, it returns, the lock free again.  On success it has taken the first unused entry: the new process is in state EMBRYO, its
    pid differs from the pid of every process, its kernel stack is a page that was free and no
    longer is, its first switch goes to forkret and from there to trapret, its paging tables are
    empty (unless paging is off), and every other entry is unchanged.  It fails only when there is
    no unused entry or no free page, and then no entry is in use that was not before.  The pids in
    use stay positive, below nextpid and distinct. *)
Theorem allocproc_fresh ids k sel fa ta intr l s :
  locks ids k [] intr s -> length (k_procs s) = NPROC -> kmem_wf (k_mem s) l ->
  pids_ok s -> k_nextpid s + 1 < 2 ^ 31 ->
  wp (allocproc sel (ids k) fa ta) (fun r s' => locks ids k [] intr s' /\ pids_ok s' /\
    match r with
    | Some i => exists p' kp l', first_with unused (k_procs s) i (default p' (k_procs s !! i)) /\
        k_procs s' !! i = Some p' /\ (forall j, j <> i -> k_procs s' !! j = k_procs s !! j) /\
        p_state p' = EMBRYO /\
        (forall j q, k_procs s !! j = Some q -> p_state q <> UNUSED -> p_pid q <> p_pid p') /\
        l = kp :: l' /\ kmem_wf (k_mem s') l' /\ p_kstack p' = kp /\
        c_eip (p_context p') = fa /\ p_retaddr p' = ta /\
        (sel <> NONE -> p_head p' = None /\ p_tail p' = None /\ p_pages_in_memory_counter p' = 0 /\
           p_pages_in_swapfile_counter p' = 0 /\ (forall f, f ∈ p_memory_pg_arr p' -> fp_va f = NOVA) /\
           (forall d, d ∈ p_disk_pg_arr p' -> di_va d = NOVA))
    | None => ((forall p, p ∈ k_procs s -> p_state p <> UNUSED) \/ l = []) /\
        (forall j, map unused (k_procs s') !! j = map unused (k_procs s) !! j)
    end) s.
Proof.
  intros Hlk Hlen Hwf Hpids Hmax. eapply wp_mono; [by eapply allocproc_spec|].
  intros [i|] s' [Hlk' Hr]; (split; [done|]).
  - destruct Hr as (p & kp & l' & Hf & -> & Hwf' & Hps & Hnp). pose proof (lookup_lt_Some _ _ _ (proj1 Hf)) as Hi.
    split; [eapply pids_ok_set; [exact Hpids|done|done|exact Hi|exact Hps|intros _; apply new_proc_pid]|].
    exists (new_proc sel fa ta (k_nextpid s) kp p), kp, l'. rewrite (proj1 Hf). split; [done|].
    rewrite Hps. split; [by apply list_lookup_insert_eq|]. split; [intros j Hj; by apply list_lookup_insert_ne|].
    split; [apply new_proc_state|]. split.
    { intros j q Hq Hu. rewrite new_proc_pid. destruct Hpids as (_ & Hb & _). specialize (Hb j q Hq Hu). lia. }
    split; [done|]. split; [done|]. unfold new_proc.
    destruct (bool_decide_reflect (sel = NONE)) as [E|E]; (split; [done|]; split; [done|]; split; [done|]).
    + done.
    + intros _. repeat (split; [done|]). split; by intros x ->%elem_of_replicate_inv.
  - destruct Hr as [(Hn & Hps & Hnp)|(i & p & -> & Hf & Hnp & Hps)].
    + split; [by unfold pids_ok; rewrite Hps, Hnp|]. rewrite Hps. split; [|done]. left.
      intros p [j Hj]%list_elem_of_lookup E. specialize (Hn j p Hj). unfold unused in Hn.
      by apply bool_decide_eq_false in Hn.
    + pose proof (lookup_lt_Some _ _ _ (proj1 Hf)) as Hi. split; [by eapply pids_ok_set|]. split; [by right|].
      intros j. rewrite Hps, !list_lookup_fmap. destruct (decide (j = i)) as [->|].
      * rewrite list_lookup_insert_eq, (proj1 Hf) by done. simpl. by rewrite (proj1 (proj2 Hf)).
      * by rewrite list_lookup_insert_ne.
Qed.

(** wakeup wakes exactly the processes that sleep on the channel: they become RUNNABLE, and
    nothing else in the table changes. *)
Lemma wakeup_exact ids k c intr s :
  locks ids k [] intr s -> length (k_procs s) = NPROC ->
  wp (wakeup (ids k) c) (fun _ s' => locks ids k [] intr s' /\
    (forall i p, k_procs s !! i = Some p -> p_state p = SLEEPING -> p_chan p = c ->
       k_procs s' !! i = Some (set_p_state RUNNABLE p)) /\
    (forall i p, k_procs s !! i = Some p -> p_state p <> SLEEPING \/ p_chan p <> c -> k_procs s' !! i = Some p) /\
    length (k_procs s') = NPROC /\ k_mem s' = k_mem s /\ k_cur s' = k_cur s /\ k_fs s' = k_fs s) s.
Proof.
  intros Hlk Hlen. unfold wakeup. apply wp_bind. eapply wp_lock_table; [done|]. intros sm H1.
  apply wp_bind. eapply wp_intro; [by apply wakeup1_run|]. eapply wp_unlock_table; [exact H1|]. intros sm2 H2.
  split; [exact H2|]. simpl. split; [|split; [|split; [by rewrite length_map|done]]].
  - intros i p Hp Hs Hc. rewrite list_lookup_fmap, Hp. simpl. unfold wake. by rewrite !bool_decide_eq_true_2 by done.
  - intros i p Hp Hn. rewrite list_lookup_fmap, Hp. simpl. unfold wake.
    destruct (bool_decide_reflect (p_state p = SLEEPING)), (bool_decide_reflect (p_chan p = c)); simpl; tauto.
Qed.

(** Kill marks the first process with the pid as killed, wakes it if it sleeps, and changes no
    other; without such a process it returns -1 and changes nothing. *)
Lemma kill_correct ids k pid intr s :
  locks ids k [] intr s -> length (k_procs s) = NPROC ->
  wp (kill (ids k) pid) (fun r s' => locks ids k [] intr s' /\
    ((r = 0 /\ exists i p, first_with (fun p => p_pid p =? pid) (k_procs s) i p /\
        k_procs s' = <[i := set_p_killed true (if bool_decide (p_state p = SLEEPING) then set_p_state RUNNABLE p else p)]> (k_procs s)) \/
     (r = -1 /\ (forall p, p ∈ k_procs s -> p_pid p <> pid) /\ k_procs s' = k_procs s))) s.
Proof.
  intros Hlk Hlen. unfold kill. apply wp_bind. eapply wp_lock_table; [done|]. intros sm H1.
  set (s1 := set_k_smp sm s) in *.
  apply wp_bind. apply (wp_for_range (fun i s' => s' = s1 /\ forall j q, (j < i)%nat -> k_procs s !! j = Some q -> (p_pid q =? pid) = false)).
  - split; [done|]. lia.
  - intros i s' Hi [-> Hlow]. destruct (lookup_lt_is_Some_2 (k_procs s) i) as [p Hp]; [lia|].
    pose proof (lookup_lt_Some _ _ _ Hp) as Hil.
    apply wp_bind. eapply wp_getp; [exact Hp|]. apply wp_if; intros E.
    + apply wp_bind. eapply wp_updp; [exact Hp|]. apply wp_bind.
      destruct (bool_decide_reflect (p_state p = SLEEPING)) as [Hs|Hs]; simpl.
      * eapply wp_updp; [simpl; by apply list_lookup_insert_eq|]. apply wp_bind. eapply wp_unlock_table; [exact H1|].
        intros sm2 H2. apply wp_ret, wp_ret. split; [exact H2|]. left. split; [done|]. exists i, p. split; [done|].
        rewrite bool_decide_eq_true_2 by done. simpl. by rewrite list_insert_insert_eq.
      * apply wp_skip. apply wp_bind. eapply wp_unlock_table; [exact H1|].
        intros sm2 H2. apply wp_ret, wp_ret. split; [exact H2|]. left. split; [done|]. exists i, p. split; [done|].
        by rewrite bool_decide_eq_false_2 by done.
    + apply wp_ret. split; [done|]. intros j q Hj Hq. destruct (decide (j = i)) as [->|]; [congruence|].
      apply (Hlow j q); [lia|done].
  - intros s' [-> Hnone]. apply wp_bind. eapply wp_unlock_table; [exact H1|]. intros sm2 H2. apply wp_ret.
    split; [exact H2|]. right. split; [done|]. split; [|done]. intros p [j Hj]%list_elem_of_lookup E.
    apply (lookup_lt_Some (k_procs s)) in Hj as Hl'. specialize (Hnone j p ltac:(lia) Hj). apply Z.eqb_neq in Hnone. lia.
Qed.

(** sleep by itself.  A process that sleeps on [c] with the lock [l], its only one, reaches its
    switch: there it is SLEEPING on [c], and holds ptable.lock instead of [l].  From then on any
    wakeup of [c], run while the entry is unchanged, makes it RUNNABLE.  When it is switched to
    again, sleep returns with [l] as the only lock held, the channel cleared and the interrupt state
    of its caller. *)
Lemma sleep_returns ids k regs c l intr i p s :
  locks ids k [l] intr s -> (l < length (s_locks (k_smp s)))%nat ->
  k_cur s = Some i -> k_procs s !! i = Some p -> length (k_procs s) = NPROC ->
  exists rest s1 p1, run_until (sleep (ids k) regs c (Some l)) s = Ret (inr rest) s1 /\
    locks ids k [PTABLE] intr s1 /\ k_procs s1 = <[i := p1]> (k_procs s) /\ p_state p1 = SLEEPING /\ p_chan p1 = c /\
    (forall k' intr' s2, locks ids k' [] intr' s2 -> length (k_procs s2) = NPROC -> k_procs s2 !! i = Some p1 ->
       wp (wakeup (ids k') c) (fun _ s3 => exists p3, k_procs s3 !! i = Some p3 /\ p_state p3 = RUNNABLE) s2) /\
    (forall intr2 p2 s2, locks ids k [PTABLE] intr2 s2 -> (l < length (s_locks (k_smp s2)))%nat ->
       k_procs s2 !! i = Some p2 ->
       exists s3, run_until rest s2 = Ret (inl tt) s3 /\ locks ids k [l] intr s3 /\
         k_procs s3 = <[i := set_p_chan NoChan p2]> (k_procs s2)).
Proof.
  intros Hlk Hl Hcur Hp Hlen. pose proof (lookup_lt_Some _ _ _ Hp) as Hi.
  destruct (sleep_out_run ids k intr i p c l s Hlk Hl Hcur Hp) as (sm & E1 & Hlk1 & _).
  unfold sleep. rewrite run_until_bind, E1, run_until_bind. unfold sched.
  rewrite run_until_bind.
  erewrite run_until_act by (eapply (sched_out_run ids k regs intr i); [exact Hlk1|done|simpl; by apply list_lookup_insert_eq|done]).
  simpl. eexists _, _, _. split; [reflexivity|]. split; [exact Hlk1|].
  split; [simpl; by rewrite list_insert_insert_eq|]. split; [done|]. split; [done|]. split.
  - intros k' intr' s2 Hlk2 Hlen2 Hp2. unfold wakeup. apply wp_bind. eapply wp_lock_table; [exact Hlk2|]. intros sm2 H2.
    apply wp_bind. eapply wp_intro; [by apply wakeup1_run|]. eapply wp_unlock_table; [exact H2|]. intros sm3 H3.
    simpl. rewrite list_lookup_fmap, Hp2. simpl. eexists. split; [reflexivity|].
    unfold wake. simpl. by rewrite bool_decide_eq_true_2.
  - intros intr2 p2 s2 Hlk2 Hl2 Hp2. destruct (set_intena_run ids k intr2 intr s2 Hlk2) as (sm2 & E2 & Hlk3 & Hlen3).
    simpl. rewrite E2.
    destruct (sleep_in_run ids k intr i p2 l (set_k_smp sm2 s2) Hlk3) as (sm3 & E3 & Hlk4); [simpl; by rewrite Hlen3|done|].
    eexists. split; [exact E3|]. split; [exact Hlk4|done].
Qed.

(** C13: the scheduler is fair, under each of the paging schemes.  Whatever the processes do while they run,
    provided they come back with ptable.lock held, leave other runnable processes runnable and, where the
    scheme ages pages (NFUA, LAPA, AQ), keep a page table behind each resident page of a process that has
    run and, under AQ, the queue's links inside the array: one pass over the table, the aging of each process
    that ran included, ends without panic, runs the processes in the order of the table, each at most
    once, and runs every process that was runnable at its beginning. *)
Theorem scheduler_fair ids k sel ts env intr s :
  well_behaved ids k sel env -> locks ids k [] intr s -> sched_ok sel s ->
  rwp k_cur env (sched_pass sel (ids k) ts) (fun _ log s' =>
    (exists intr', locks ids k [] intr' s') /\ sched_ok sel s' /\
    exists l, log = map Some l /\ StronglySorted lt l /\
      forall j p, k_procs s !! j = Some p -> p_state p = RUNNABLE -> j ∈ l) s.
Proof. apply sched_pass_spec. Qed.


End thms.

(** ** A concrete table *)

Definition pdemo_proc (st : procstate) (pid : Z) (parent : option nat) (c : chan) : proc :=
  mkProc 4096 0x80300000 (if bool_decide (st = UNUSED) then 0 else 0x80301000) st pid parent zero_trapframe
    (mkContext 0 0 0 0 0) 0 c false (replicate NOFILE None) None (replicate 16 0) None 0 0 0 0 [] [] None None.

(** init sleeps; the shell (entry 1) runs; it has a child that is runnable. *)
Definition pdemo_procs : list proc :=
  pdemo_proc SLEEPING 1 None (ChanProc 0) :: pdemo_proc RUNNING 2 (Some 0%nat) NoChan ::
  pdemo_proc RUNNABLE 3 (Some 1%nat) NoChan :: replicate 61 (pdemo_proc UNUSED 0 None NoChan).

Definition pdemo (sm : smp) : kst flat :=
  mkKst demo_kmem 0 pdemo_procs (Some 1%nat) 4 (Some 0%nat) sm (replicate 6 (SEG 0 0 0 0)) (mkTaskstate 0 0 0) 0
    0x80300000 0 false [] [].

(** No lock held, and the second lock held by processor 0. *)
Definition psmp_free : smp :=
  mkSmp (fun _ => true) [mkCpu 0 0 false] [mkSpinlock 0 "ptable" None []; mkSpinlock 0 "lk" None []] [].
Definition psmp_held : smp :=
  mkSmp (fun _ => false) [mkCpu 0 1 true] [mkSpinlock 0 "ptable" None []; mkSpinlock 1 "lk" (Some 0%nat) []] [].

Lemma psmp_cpus_ok (sm : smp) n b : s_cpus sm = [mkCpu 0 n b] -> cpus_ok Z.of_nat sm.
Proof. intros E. split; [|lia]. rewrite E. intros [|[|i]] c Hc; simplify_eq/=; done. Qed.

Lemma pdemo_free : locks Z.of_nat 0 [] true (pdemo psmp_free).
Proof.
  split; [|vm_compute; lia]. constructor; simpl.
  - by eapply psmp_cpus_ok.
  - by eexists.
  - done.
  - constructor.
  - intros [|[|l]] lk Hl; simplify_eq/=; done.
  - intros l Hl. by apply not_elem_of_nil in Hl.
Qed.

Lemma pdemo_held : locks Z.of_nat 0 [1%nat] true (pdemo psmp_held).
Proof.
  split; [|vm_compute; lia]. constructor; simpl.
  - by eapply psmp_cpus_ok.
  - by eexists.
  - done.
  - apply NoDup_singleton.
  - intros [|[|l]] lk Hl; simplify_eq/=; done.
  - intros l ->%list_elem_of_singleton. lia.
Qed.

(** The three entries in use. *)
Lemma pdemo_lookup i p : pdemo_procs !! i = Some p -> p_state p <> UNUSED ->
  (i = 0%nat /\ p = pdemo_proc SLEEPING 1 None (ChanProc 0)) \/
  (i = 1%nat /\ p = pdemo_proc RUNNING 2 (Some 0%nat) NoChan) \/
  (i = 2%nat /\ p = pdemo_proc RUNNABLE 3 (Some 1%nat) NoChan).
Proof.
  unfold pdemo_procs. destruct i as [|[|[|i]]]; cbn [lookup list_lookup]; [intros [= <-]; tauto..|].
  intros [-> _]%lookup_replicate. done.
Qed.

Lemma pdemo_pids sm : pids_ok (pdemo sm).
Proof.
  split; [done|]. split.
  - intros i p Hp Hu. destruct (pdemo_lookup i p Hp Hu) as [[_ ->]|[[_ ->]|[_ ->]]]; done.
  - intros i j p q Hp Hq Hu Hv.
    destruct (pdemo_lookup i p Hp Hu) as [[-> ->]|[[-> ->]|[-> ->]]],
      (pdemo_lookup j q Hq Hv) as [[-> ->]|[[-> ->]|[-> ->]]]; done.
Qed.

Lemma allocproc_fresh_witness :
  wp (allocproc (F := flat) SCFIFO 0 0x80104000 0x80106000) (fun _ s' => pids_ok s') (pdemo psmp_free).
Proof.
  eapply wp_mono; [apply (@allocproc_fresh demo_image flat Z.of_nat 0%nat SCFIFO 0x80104000 0x80106000 true
    [0x80200000; 0x80201000] (pdemo psmp_free))|].
  - apply pdemo_free.
  - reflexivity.
  - apply demo_kmem_wf.
  - apply pdemo_pids.
  - done.
  - intros r s' (_ & Hp & _). exact Hp.
Defined.

(** Every process gives the processor up at once. *)
Definition pdemo_yield : M (kst flat) unit := let! i := curproc in updp i (set_p_state SLEEPING).

Lemma pdemo_well_behaved sel : well_behaved Z.of_nat 0 sel pdemo_yield.
Proof.
  intros i p intr s Hl Hok Hcur Hp Hr. unfold pdemo_yield, curproc, myproc. apply wp_bind, wp_bind, wp_gets.
  rewrite Hcur. apply wp_ret. eapply wp_updp; [exact Hp|]. split; [by exists intr|]. split; [|split].
  - apply (sched_ok_state sel i p SLEEPING s s); try done; by rewrite Hr.
  - intros j q Hj Hq Hrq. exists q. simpl. by rewrite list_lookup_insert_ne.
  - eexists. simpl. rewrite list_lookup_insert_eq by (by eapply lookup_lt_Some). done.
Qed.

(** The child has sixteen resident pages, linked from the first to the last. *)
Definition sdemo : kst flat :=
  set_k_mem demo_km (setp 2 (set_p_state RUNNABLE demo_proc) (pdemo psmp_free)).

Lemma demo_proc_ready sel : pages_ready sel demo_mem (set_p_state RUNNABLE demo_proc).
Proof.
  split; [done|]. split; [done|]. split.
  - intros va (f & -> & (k & -> & Hk%elem_of_seq)%list_elem_of_fmap)%list_elem_of_fmap _. revert Hk. intros [_ Hk]. revert k Hk.
    slot16; (eexists; split; [vm_compute; reflexivity|vm_compute; discriminate]).
  - intros _. exists (seq 0 16). split; [by repeat split|]. split; [done|]. split.
    + apply Forall_seq. intros j Hj. vm_compute. vm_compute in Hj. lia.
    + intros i j [_ Hi]%elem_of_seq. simpl in Hi.
      assert (prv (p_memory_pg_arr (set_p_state RUNNABLE demo_proc)) i = None) as ->; [|done]. revert i Hi. slot16; done.
Qed.

Lemma sdemo_sched_ok sel : sched_ok sel sdemo.
Proof.
  assert (forall i p, k_procs sdemo !! i = Some p -> p_state p <> UNUSED ->
    (i = 0%nat /\ p = pdemo_proc SLEEPING 1 None (ChanProc 0)) \/
    (i = 1%nat /\ p = pdemo_proc RUNNING 2 (Some 0%nat) NoChan) \/ (i = 2%nat /\ p = set_p_state RUNNABLE demo_proc)) as Hcase.
  { intros i p. destruct i as [|[|[|i]]]; [intros [= <-]; tauto..|].
    change (k_procs sdemo !! S (S (S i))) with (pdemo_procs !! S (S (S i))). intros Hp Hu.
    destruct (pdemo_lookup _ p Hp Hu) as [[? _]|[[? _]|[? _]]]; lia. }
  split; [done|]. split.
  - intros i p Hp Hr. destruct (Hcase i p Hp) as [[_ ->]|[[_ ->]|[_ ->]]]; [congruence|done..].
  - intros i p Hp Hu _. destruct (Hcase i p Hp Hu) as [[_ ->]|[[_ ->]|[_ ->]]].
    + right; right; by left.
    + do 3 right. eexists 0%nat, _. split; [done|]. split; [reflexivity|]. by left.
    + do 3 right. eexists 1%nat, _. split; [done|]. split; [reflexivity|]. right. apply demo_proc_ready.
Qed.

Lemma scheduler_fair_witness :
  rwp k_cur pdemo_yield (sched_pass (F := flat) AQ 0 0x80112000) (fun _ log s' => Some 2%nat ∈ log) sdemo.
Proof.
  eapply rwp_mono; [apply (scheduler_fair (F := flat) Z.of_nat 0%nat AQ 0x80112000 pdemo_yield true sdemo)|].
  - apply pdemo_well_behaved.
  - apply pdemo_free.
  - apply sdemo_sched_ok.
  - intros [] log s' (_ & _ & l & -> & _ & Hall). apply list_elem_of_fmap. exists 2%nat. split; [done|].
    by apply (Hall 2%nat (set_p_state RUNNABLE demo_proc)).
Defined.


