(* ===== verification/Wakeup.v ===== *)
(** * Sleeping and waking on several processors (src/proc.c: sleep, wakeup)

    A process that waits for a condition holds a lock [l], finds the condition false and calls sleep,
    which releases [l]; others take [l], make the condition true and call wakeup.  Here each of them
    runs on a processor of its own, and the processors interleave at every action of the code: taking
    a lock, releasing it, each write to the process table.  The invariant shows that no wakeup comes
    too early, between the test of the condition and the moment at which the process sleeps. *)
From Stdlib Require Import ZArith Lia.
From stdpp Require Import base list numbers strings relations.
From S2P Require Import Prelude Mmu Mem Kalloc PageTable Spinlock Resume Kstate Policy Swap Uvm Proc ProcTable Demo FlatStore ProcThms.
Local Open Scope Z_scope.

(** ** Locks, for a processor among others *)

Section locks.
Context (ids : nat -> Z).

Definition others_free (lths : list thread) (k l : nat) : Prop :=
  forall k' t', lths !! k' = Some t' -> l ∈ th_held t' -> k' = k.

Lemma begin_locks sm lths k t l sm' : linv ids (sm, lths) -> lths !! k = Some t ->
  acquire_begin (ids k) l sm = Ret tt sm' -> s_locks sm' = s_locks sm.
Proof.
  intros Hinv Ht. destruct (linv_cpu _ _ _ _ _ Hinv Ht) as (c & Hk & _). pose proof (li_cpus _ _ Hinv) as Hok.
  unfold acquire_begin, bind. rewrite (pushcli_run ids k c) by done. unfold holding, bind, getlk. simpl.
  destruct (s_locks sm !! l) as [lk|] eqn:Hl; [|done]. destruct (lk_locked lk =? 0); [by intros [= <-]|].
  rewrite (mycpu_run ids k (mkCpu (c_apicid c) (c_ncli c + 1) (if c_ncli c =? 0 then s_if sm (ids k) else c_intena c))).
  - destruct (bool_decide _); [simpl; by rewrite Hl|by intros [= <-]].
  - by apply (cpus_ok_update ids sm k c (mkCpu (c_apicid c) (c_ncli c + 1) (if c_ncli c =? 0 then s_if sm (ids k) else c_intena c)) Hok Hk).
  - simpl. apply list_lookup_insert_eq. by eapply lookup_lt_Some.
  - simpl. by rewrite Z.eqb_refl.
Qed.

(** acquire takes the lock, or spins while another processor has it. *)
Lemma acquire_cases sm lths k h b l : linv ids (sm, lths) -> lths !! k = Some (mkThread Idle h b) -> l ∉ h ->
  is_Some (s_locks sm !! l) ->
  (exists sm', acquire 1 (ids k) l [] sm = Ret tt sm' /\ linv ids (sm', <[k := mkThread Idle (l :: h) b]> lths) /\
     length (s_locks sm') = length (s_locks sm) /\ others_free lths k l) \/
  (exists sm', acquire 1 (ids k) l [] sm = NoFuel sm').
Proof.
  intros Hinv Ht Hh Hl. pose proof (lookup_lt_Some _ _ _ Ht) as Hlt.
  pose proof (inv_can_go _ _ _ _ _ Hinv Ht) as Hgo. destruct (proj2 (Hgo l Hl) Hh) as [sm1 E1].
  pose proof (begin_locks _ _ _ _ _ _ Hinv Ht E1) as L1.
  pose proof (lstep_inv _ _ _ Hinv (step_begin ids _ _ _ _ _ _ Ht eq_refl E1)) as Hinv1. cbn [th_held th_intr] in Hinv1.
  set (t1 := mkThread (Spin l) h b) in Hinv1.
  assert (<[k := t1]> lths !! k = Some t1) as Ht1 by (by apply list_lookup_insert_eq).
  assert (exists ok sm2, acquire_try l sm1 = Ret ok sm2 /\ length (s_locks sm2) = length (s_locks sm)) as (ok & sm2 & E2 & L2).
  { unfold acquire_try, xchg, bind, getlk, putlk, modify. rewrite L1. destruct Hl as [lk ->]. simpl.
    eexists _, _. split; [reflexivity|]. simpl. by rewrite length_insert, L1. }
  pose proof (lstep_inv _ _ _ Hinv1 (step_try ids _ _ _ _ _ _ _ Ht1 eq_refl E2)) as Hinv2.
  cbn [th_held th_intr t1] in Hinv2. rewrite list_insert_insert_eq in Hinv2.
  unfold acquire, bind. rewrite E1. cbn [loop]. unfold bind. rewrite E2. cbv beta iota. destruct ok; [left|right; eexists; reflexivity].
  set (t2 := mkThread (Won l) h b) in Hinv2.
  assert (<[k := t2]> lths !! k = Some t2) as Ht2 by (by apply list_lookup_insert_eq).
  assert (is_Some (s_locks sm2 !! l)) as Hl2.
  { apply lookup_lt_is_Some. rewrite L2. by apply lookup_lt_is_Some. }
  destruct (inv_can_go _ _ _ _ _ Hinv2 Ht2 Hl2 []) as [sm3 E3].
  pose proof (lstep_inv _ _ _ Hinv2 (step_end ids _ _ _ _ _ _ _ Ht2 eq_refl E3)) as Hinv3.
  cbn [th_held th_intr t2] in Hinv3. rewrite list_insert_insert_eq in Hinv3.
  exists sm3. split; [exact E3|]. split; [exact Hinv3|].
  assert (length (s_locks sm3) = length (s_locks sm2)) as L3.
  { revert E3. unfold acquire_end, bind. destruct (mycpu _ _) as [a sm'| | |] eqn:Em; [|done..].
    assert (sm' = sm2) as ->.
    { destruct (linv_cpu _ _ _ _ _ Hinv2 Ht2) as (c & Hk & []). rewrite (mycpu_run ids k c) in Em; [by injection Em|apply (li_cpus _ _ Hinv2)|done|].
      apply co_in. by apply depth_pos. }
    unfold getlk, putlk, modify. destruct (s_locks sm2 !! l); [|done]. intros [= <-]. simpl. by rewrite length_insert. }
  split; [lia|]. intros k' t' Ht' Hin. destruct (decide (k' = k)) as [|Hne]; [done|].
  destruct (lookup_lt_is_Some_2 (s_locks sm3) l) as [lk Hlk]; [rewrite L3, L2; by apply lookup_lt_is_Some|].
  destruct (li_lock _ _ Hinv3 l lk Hlk) as [_ He _]. apply (He k' k t' (mkThread Idle (l :: h) b)).
  - simpl. by rewrite list_lookup_insert_ne.
  - simpl. by apply list_lookup_insert_eq.
  - by left.
  - left. by left.
Qed.

Lemma release_run sm lths k h b l : linv ids (sm, lths) -> lths !! k = Some (mkThread Idle h b) -> l ∈ h ->
  is_Some (s_locks sm !! l) ->
  exists sm', release (ids k) l sm = Ret tt sm' /\ linv ids (sm', <[k := mkThread Idle (filter (.≠ l) h) b]> lths) /\
    length (s_locks sm') = length (s_locks sm).
Proof.
  intros Hinv Ht Hh Hl. pose proof (lookup_lt_Some _ _ _ Ht) as Hlt.
  pose proof (inv_can_go _ _ _ _ _ Hinv Ht) as Hgo. destruct (proj1 (Hgo l Hl) Hh) as [sm1 E1].
  pose proof (lstep_inv _ _ _ Hinv (step_release ids _ _ _ _ _ _ Ht eq_refl E1)) as Hinv1. cbn [th_held th_intr] in Hinv1.
  set (t1 := mkThread (Rel l) (filter (fun x => x <> l) h) b) in Hinv1.
  assert (<[k := t1]> lths !! k = Some t1) as Ht1 by (by apply list_lookup_insert_eq).
  assert (length (s_locks sm1) = length (s_locks sm)) as L1.
  { revert E1. unfold release_begin, holding, bind, getlk. destruct (s_locks sm !! l) as [lk|] eqn:El; [|done].
    destruct (lk_locked lk =? 0); [done|]. destruct (mycpu (ids k) sm) as [a sm'| | |] eqn:Em; [|done..].
    assert (sm' = sm) as ->.
    { destruct (linv_cpu _ _ _ _ _ Hinv Ht) as (c & Hk & []). rewrite (mycpu_run ids k c) in Em; [by injection Em|apply (li_cpus _ _ Hinv)|done|].
      apply co_in. by eapply depth_held. }
    simpl. destruct (negb _); [done|]. rewrite El. unfold putlk, modify. simpl.
    rewrite list_lookup_insert_eq by (by eapply lookup_lt_Some). intros [= <-]. simpl. by rewrite !length_insert. }
  assert (is_Some (s_locks sm1 !! l)) as Hl1.
  { apply lookup_lt_is_Some. rewrite L1. by apply lookup_lt_is_Some. }
  destruct (inv_can_go _ _ _ _ _ Hinv1 Ht1 Hl1) as [sm2 E2].
  pose proof (lstep_inv _ _ _ Hinv1 (step_clear ids _ _ _ _ _ _ Ht1 eq_refl E2)) as Hinv2.
  cbn [th_held th_intr t1] in Hinv2. rewrite list_insert_insert_eq in Hinv2.
  exists sm2. split; [unfold release, bind; by rewrite E1|]. split; [exact Hinv2|].
  rewrite <- L1. destruct (linv_cpu _ _ _ _ _ Hinv1 Ht1) as (c & Hk & []).
  revert E2. unfold release_end, bind, getlk. destruct Hl1 as [lk ->]. unfold putlk, modify.
  rewrite (popcli_run ids k c).
  - intros [= <-]. unfold popped. destruct (_ && _); simpl; by rewrite length_insert.
  - apply (li_cpus _ _ Hinv1).
  - done.
  - simpl. apply co_in. by apply depth_pos.
  - rewrite co_ncli. unfold depth. simpl. lia.
Qed.

End locks.

(** ** Processors that run kernel code *)

Section machine.
Context {F : Type} (ids : nat -> Z).

(** A processor: its process, and the code it still has to run *)
Record cproc := mkCp { cp_cur : option nat; cp_code : prog (kst F) unit }.

(** The next action of some code; [None] at its end and at a switch *)
Definition pstep (p : prog (kst F) unit) (s : kst F) : option (out (kst F) (prog (kst F) unit)) :=
  match p with
  | PAct m k => Some (match m s with
                      | Ret b s' => Ret (k b) s'
                      | Panic e s' => Panic e s'
                      | Fault s' => Fault s'
                      | NoFuel s' => NoFuel s'
                      end)
  | _ => None
  end.

(** One processor does its next action, which must return: a processor that spins ([NoFuel]) tries
    again later.  At a switch the processor goes back to its scheduler, which releases ptable.lock. *)
Inductive cstep : kst F * list cproc -> kst F * list cproc -> Prop :=
| cs_act s cs j t p s' : cs !! j = Some t -> pstep (cp_code t) (set_k_cur (cp_cur t) s) = Some (Ret p s') ->
    cstep (s, cs) (s', <[j := mkCp (cp_cur t) p]> cs)
| cs_swtch s cs j t rest : cs !! j = Some t -> cp_code t = PSwtch rest ->
    cstep (s, cs) (s, <[j := mkCp None (act (release_k (ids j) PTABLE))]> cs).

(** wakeup, action by action: run without a break it is [wakeup]. *)
Definition wakeup_acts (id : Z) (c : chan) : prog (kst F) unit :=
  act (acquire_k id PTABLE) ;;?
  act (wakeup1 c) ;;?
  act (release_k id PTABLE).

Lemma wakeup_acts_run id c s : run_until (wakeup_acts id c) s =
  match wakeup id c s with Ret x s' => Ret (inl x) s' | Panic e s' => Panic e s' | Fault s' => Fault s' | NoFuel s' => NoFuel s' end.
Proof.
  unfold wakeup_acts, wakeup, bind. simpl. destruct (acquire_k id PTABLE s) as [[] s1| | |]; try done.
  by destruct (wakeup1 c s1) as [[] s2| | |].
Qed.

(** ** A process that waits, and others that wake it *)

Context (l : nat) (c : chan) (cond : kst F -> bool) (set : M (kst F) unit) (regs : kst F -> context).
(** The processor that waits, and its process *)
Context (ks i : nat).

(** [acquire(l); if(!cond) sleep(c, l);] *)
Definition waiter : prog (kst F) unit :=
  act (acquire_k (ids ks) l) ;;?
  do! b := act (gets cond) in
  if b then PRet tt else sleep (ids ks) regs c (Some l).

(** [acquire(l); cond = 1; wakeup(c); release(l);] *)
Definition waker (j : nat) : prog (kst F) unit :=
  act (acquire_k (ids j) l) ;;?
  act set ;;?
  wakeup_acts (ids j) c ;;?
  act (release_k (ids j) l).

(** The code that is left at each point *)
Inductive sstage := S0 | S1 | S2 | S3 | S4 | S5 | S6 | S7 | S8 (intena : bool) | S9 | S10 | SDone.
Definition scode (st : sstage) : prog (kst F) unit :=
  let c8 b := PSwtch (act (insmp (set_intena (ids ks) b)) ;;? sleep_in (ids ks) (i, l)) in
  let c7 := PAct (sched_out (ids ks) regs) c8 in
  let c6 := PAct (updp i (set_p_state SLEEPING)) (fun _ => c7) in
  let c5 := PAct (updp i (set_p_chan c)) (fun _ => c6) in
  let c4 := PAct (release_k (ids ks) l) (fun _ => c5) in
  match st with
  | S0 => waiter
  | S1 => PAct (gets cond) (fun b => if b then PRet tt else sleep (ids ks) regs c (Some l))
  | S2 => sleep (ids ks) regs c (Some l)
  | S3 => PAct (acquire_k (ids ks) PTABLE) (fun _ => c4)
  | S4 => c4 | S5 => c5 | S6 => c6 | S7 => c7 | S8 b => c8 b
  | S9 => act (release_k (ids ks) PTABLE)
  | S10 | SDone => PRet tt
  end.
Definition scur (st : sstage) : option nat := match st with S9 | S10 => None | _ => Some i end.
Definition sheld (st : sstage) : list nat :=
  match st with S0 | S10 => [] | S1 | S2 | S3 | SDone => [l] | S4 => [PTABLE; l] | _ => [PTABLE] end.

Inductive wstage := W0 | W1 | W2 | W3 | W4 | W5 | W6.
Definition wcode (j : nat) (w : wstage) : prog (kst F) unit :=
  let c5 := act (release_k (ids j) l) in
  let c4 := PAct (release_k (ids j) PTABLE) (fun _ => c5) in
  let c3 := PAct (wakeup1 c) (fun _ => c4) in
  let c2 := PAct (acquire_k (ids j) PTABLE) (fun _ => c3) in
  match w with
  | W0 => waker j | W1 => PAct set (fun _ => c2) | W2 => c2 | W3 => c3 | W4 => c4 | W5 => c5 | W6 => PRet tt
  end.
Definition wheld (w : wstage) : list nat :=
  match w with W0 | W6 => [] | W1 | W2 | W5 => [l] | W3 | W4 => [PTABLE; l] end.
(** It has made the condition true; it has called wakeup1; it may be about to *)
Definition has_set (w : wstage) : bool := match w with W0 | W1 => false | _ => true end.
Definition has_woken (w : wstage) : bool := match w with W4 | W5 | W6 => true | _ => false end.
Definition in_wakeup (w : wstage) : bool := match w with W3 => true | _ => has_woken w end.

Hypothesis Hl : l <> PTABLE.
Hypothesis Hcond_smp : forall sm s, cond (set_k_smp sm s) = cond s.
Hypothesis Hcond_procs : forall ps s, cond (set_k_procs ps s) = cond s.
Hypothesis Hcond_cur : forall o s, cond (set_k_cur o s) = cond s.
Hypothesis Hset : forall s, exists s', set s = Ret tt s' /\ cond s' = true /\ k_procs s' = k_procs s /\ k_smp s' = k_smp s.

Definition entry (s : kst F) (P : proc -> Prop) : Prop := exists p, k_procs s !! i = Some p /\ P p.
Definition asleep (p : proc) : Prop := p_state p = SLEEPING /\ p_chan p = c.

(** What holds while the waiter is at a stage; [ws] is where the others are. *)
Definition stage_ok (s : kst F) (st : sstage) (ws : nat -> wstage) (n : nat) : Prop :=
  let quiet := forall j, j <> ks -> (j < n)%nat -> in_wakeup (ws j) = false in
  match st with
  | S0 | S1 | SDone => True
  | S2 | S3 | S4 => cond s = false
  | S5 => quiet
  | S6 => quiet /\ entry s (fun p => p_chan p = c)
  | S7 | S8 _ | S9 => quiet /\ entry s asleep
  | S10 => entry s (fun p => asleep p /\ (forall j, j <> ks -> (j < n)%nat -> has_woken (ws j) = false) \/ p_state p = RUNNABLE)
  end.

(** Until it sleeps, the process is running. *)
Definition run_ok (s : kst F) (st : sstage) : Prop :=
  match st with
  | S7 | S8 _ | S9 | S10 => True
  | _ => entry s (fun p => p_state p = RUNNING)
  end.

Record winv (sc : kst F * list cproc) (st : sstage) (ws : nat -> wstage) (lths : list thread) : Prop := {
  wi_waiter : sc.2 !! ks = Some (mkCp (scur st) (scode st));
  wi_wakers j t : j <> ks -> sc.2 !! j = Some t -> cp_code t = wcode j (ws j);
  wi_linv : linv ids (k_smp sc.1, lths);
  wi_len : length lths = length sc.2;
  wi_held j : (j < length sc.2)%nat -> exists b, lths !! j = Some (mkThread Idle (if decide (j = ks) then sheld st else wheld (ws j)) b);
  wi_locks : (PTABLE < length (s_locks (k_smp sc.1)))%nat /\ (l < length (s_locks (k_smp sc.1)))%nat;
  wi_procs : length (k_procs sc.1) = NPROC /\ (i < NPROC)%nat;
  wi_set j : j <> ks -> (j < length sc.2)%nat -> has_set (ws j) = true -> cond sc.1 = true;
  wi_stage : stage_ok sc.1 st ws (length sc.2);
  wi_run : run_ok sc.1 st }.

Definition cinv (sc : kst F * list cproc) : Prop := exists st ws lths, winv sc st ws lths.

Implicit Types (s : kst F) (ws : nat -> wstage) (lths : list thread).

Lemma winv_same_held s cs st ws lths j : winv (s, cs) st ws lths -> (j < length cs)%nat ->
  exists b, lths !! j = Some (mkThread Idle (if decide (j = ks) then sheld st else wheld (ws j)) b) /\
    <[j := mkThread Idle (if decide (j = ks) then sheld st else wheld (ws j)) b]> lths = lths.
Proof. intros [] Hj. destruct (wi_held0 j Hj) as [b Hb]. exists b. split; [done|]. by apply list_insert_id. Qed.

(** The waiter goes on to the stage [st']. *)
Lemma waiter_moves s cs st ws lths st' s' b : winv (s, cs) st ws lths ->
  linv ids (k_smp s', <[ks := mkThread Idle (sheld st') b]> lths) ->
  length (s_locks (k_smp s')) = length (s_locks (k_smp s)) -> length (k_procs s') = length (k_procs s) ->
  cond s' = cond s -> stage_ok s' st' ws (length cs) -> run_ok s' st' ->
  cinv (s', <[ks := mkCp (scur st') (scode st')]> cs).
Proof.
  intros [] Hinv Hlk Hps Hc Hst Hr. simpl in *. pose proof (lookup_lt_Some _ _ _ wi_waiter0) as Hks.
  exists st', ws, (<[ks := mkThread Idle (sheld st') b]> lths). constructor; simpl; rewrite ?length_insert; try done.
  - by apply list_lookup_insert_eq.
  - intros j t Hj. rewrite list_lookup_insert_ne by done. auto.
  - intros j Hj. destruct (decide (j = ks)) as [->|Hne].
    + exists b. apply list_lookup_insert_eq. lia.
    + destruct (wi_held0 j Hj) as [b' Hb']. exists b'. rewrite list_lookup_insert_ne by done.
      rewrite decide_False in Hb' by done. done.
  - by rewrite Hlk.
  - by rewrite Hps.
  - rewrite Hc. done.
Qed.

(** The processor [j] goes on to the stage [w']. *)
Lemma waker_moves s cs st ws lths j t w' s' b : winv (s, cs) st ws lths -> j <> ks -> cs !! j = Some t ->
  linv ids (k_smp s', <[j := mkThread Idle (wheld w') b]> lths) ->
  length (s_locks (k_smp s')) = length (s_locks (k_smp s)) -> length (k_procs s') = length (k_procs s) ->
  (cond s = true -> cond s' = true) -> (has_set w' = true -> cond s' = true) ->
  stage_ok s' st (fun j' => if decide (j' = j) then w' else ws j') (length cs) -> run_ok s' st ->
  cinv (s', <[j := mkCp (cp_cur t) (wcode j w')]> cs).
Proof.
  intros [] Hne Ht Hinv Hlk Hps Hc Hw Hst Hr. simpl in *. pose proof (lookup_lt_Some _ _ _ Ht) as Hj.
  exists st, (fun j' => if decide (j' = j) then w' else ws j'), (<[j := mkThread Idle (wheld w') b]> lths).
  constructor; simpl; rewrite ?length_insert; try done.
  - by rewrite list_lookup_insert_ne.
  - intros j' t' Hj' Ht'. destruct (decide (j' = j)) as [->|Hn].
    + rewrite list_lookup_insert_eq in Ht' by done. injection Ht' as <-. done.
    + rewrite list_lookup_insert_ne in Ht' by done. auto.
  - intros j' Hj'. destruct (decide (j' = j)) as [->|Hn].
    + exists b. rewrite decide_False by done. apply list_lookup_insert_eq. lia.
    + rewrite list_lookup_insert_ne by done. auto.
  - by rewrite Hlk.
  - by rewrite Hps.
  - intros j' Hj' Hlt. destruct (decide (j' = j)) as [->|]; [done|]. intros Hs. apply Hc. eauto.
Qed.

(** The next action of a processor keeps the invariant, or spins. *)
Definition step_ok (sc : kst F * list cproc) (j : nat) (t : cproc) : Prop :=
  match pstep (cp_code t) (set_k_cur (cp_cur t) sc.1) with
  | Some (Ret p s') => cinv (s', <[j := mkCp (cp_cur t) p]> sc.2)
  | Some (Panic _ _) | Some (Fault _) => False
  | _ => True
  end.

Lemma sleep_first s : k_cur s = Some i -> pstep (sleep (ids ks) regs c (Some l)) s = Some (Ret (scode S3) s).
Proof.
  intros Hc. unfold sleep, sleep_out. simpl. unfold sleep_who, bind, myproc, gets. rewrite Hc. simpl.
  rewrite (proj2 (Nat.eqb_neq _ _) Hl). reflexivity.
Qed.

Lemma sched_out_held s lths p b : linv ids (k_smp s, lths) -> lths !! ks = Some (mkThread Idle [PTABLE] b) ->
  k_cur s = Some i -> k_procs s !! i = Some p -> p_state p <> RUNNING -> (PTABLE < length (s_locks (k_smp s)))%nat ->
  exists v, sched_out (ids ks) regs s = Ret v (setp i (set_p_context (regs s) p) s).
Proof.
  intros Hinv Ht Hcur Hp Hst Hlt. destruct (linv_cpu _ _ _ _ _ Hinv Ht) as (cp & Hk & Hok).
  pose proof (li_cpus _ _ Hinv) as Hcs. simpl in Hcs. destruct Hok as [Hn _ _ _ _ Hin].
  destruct Hin as [Hif _]; [done|]. destruct (lookup_lt_is_Some_2 _ _ Hlt) as [lk Hlk].
  assert (holding (ids ks) PTABLE (k_smp s) = Ret true (k_smp s)) as Hh.
  { rewrite (holding_run ids ks cp _ PTABLE lk) by done.
    rewrite (proj2 (holder_iff ids _ _ ks _ Hinv Ht PTABLE lk Hlk)); [done|by left]. }
  assert (my_cpu (ids ks) (k_smp s) = Ret cp (k_smp s)) as Hc.
  { unfold my_cpu, bind. rewrite (mycpu_run ids ks cp) by done. unfold getcpu. by rewrite Hk. }
  exists (c_intena cp). unfold sched_out, curproc, myproc, bind, gets. rewrite Hcur. cbv beta iota. unfold ret at 1. cbv beta iota.
  rewrite (lift_smp _ _ _ Hh). simpl. rewrite (lift_smp _ _ _ Hc). cbv beta iota. rewrite Hn. simpl. unfold getp at 1. rewrite Hp.
  rewrite bool_decide_eq_false_2 by done. cbv beta iota.
  rewrite Hif. cbv beta iota. replace (set_k_smp (k_smp s) s) with s by (by destruct s).
  rewrite (lift_smp _ _ _ Hc). unfold updp. by rewrite Hp.
Qed.

Lemma acquire_k_cases s o lths k h b m : linv ids (k_smp s, lths) -> lths !! k = Some (mkThread Idle h b) -> m ∉ h ->
  (m < length (s_locks (k_smp s)))%nat ->
  (exists sm, acquire_k (ids k) m (set_k_cur o s) = Ret tt (set_k_smp sm (set_k_cur o s)) /\
     linv ids (sm, <[k := mkThread Idle (m :: h) b]> lths) /\
     length (s_locks sm) = length (s_locks (k_smp s)) /\ others_free lths k m) \/
  (exists s', acquire_k (ids k) m (set_k_cur o s) = NoFuel s').
Proof.
  intros Hinv Ht Hm Hlt%lookup_lt_is_Some_2. unfold acquire_k, insmp, lift. simpl.
  destruct (acquire_cases ids (k_smp s) lths k h b m Hinv Ht Hm Hlt) as [(sm & -> & H)|[sm ->]]; [left|right]; eauto.
Qed.

Lemma release_k_run s o lths k h b m : linv ids (k_smp s, lths) -> lths !! k = Some (mkThread Idle h b) -> m ∈ h ->
  (m < length (s_locks (k_smp s)))%nat ->
  exists sm, release_k (ids k) m (set_k_cur o s) = Ret tt (set_k_smp sm (set_k_cur o s)) /\
    linv ids (sm, <[k := mkThread Idle (filter (.≠ m) h) b]> lths) /\ length (s_locks sm) = length (s_locks (k_smp s)).
Proof.
  intros Hinv Ht Hm Hlt%lookup_lt_is_Some_2. unfold release_k, insmp, lift. simpl.
  destruct (release_run ids (k_smp s) lths k h b m Hinv Ht Hm Hlt) as (sm & -> & H). eauto.
Qed.

(** What a step leaves as it was *)
Ltac same E :=
  try done; try (simpl in *; by rewrite E); try (simpl; by rewrite ?length_insert, ?length_map);
  try (by unfold setp; rewrite ?Hcond_smp, ?Hcond_procs, ?Hcond_cur);
  try (by simpl in *; rewrite ?Hcond_smp, ?Hcond_procs, ?Hcond_cur).

Lemma waiter_step s cs st ws lths : winv (s, cs) st ws lths -> step_ok (s, cs) ks (mkCp (scur st) (scode st)).
Proof.
  intros Hw. pose proof Hw as []. simpl in *. pose proof (lookup_lt_Some _ _ _ wi_waiter0) as Hks.
  destruct (winv_same_held _ _ _ _ _ ks Hw Hks) as (b & Hb & Eb). rewrite decide_True in Hb, Eb by done.
  destruct wi_locks0 as [Hp Hll], wi_procs0 as [Hn Hi].
  assert (forall q, <[i := q]> (k_procs s) !! i = Some q) as Hins by (intros q; apply list_lookup_insert_eq; lia).
  unfold step_ok. cbn [cp_code cp_cur fst snd]. destruct st; cbn [scode scur] in *; try done.
  - cbn [waiter pbind act pstep]. destruct (acquire_k_cases s (Some i) lths ks [] b l) as [(sm & -> & Hinv' & Hlk & _)|[s' ->]]; try done.
    { apply not_elem_of_nil. }
    apply (waiter_moves s cs S0 ws lths S1 _ b Hw); same Eb.
  - cbn [pstep gets]. rewrite Hcond_cur. destruct (cond s) eqn:Ec.
    + apply (waiter_moves s cs S1 ws lths SDone _ b Hw); same Eb.
    + apply (waiter_moves s cs S1 ws lths S2 _ b Hw); same Eb.
  - rewrite sleep_first by done. apply (waiter_moves s cs S2 ws lths S3 _ b Hw); same Eb.
  - cbn [pstep]. destruct (acquire_k_cases s (Some i) lths ks [l] b PTABLE) as [(sm & -> & Hinv' & Hlk & _)|[s' ->]]; try done.
    { by intros ?%list_elem_of_singleton. }
    apply (waiter_moves s cs S3 ws lths S4 _ b Hw); same Eb.
  - cbn [pstep]. destruct (release_k_run s (Some i) lths ks [PTABLE; l] b l) as (sm & -> & Hinv' & Hlk); try done.
    { by right; left. }
    rewrite filter_cons_True, filter_cons_False, filter_nil in Hinv' by auto.
    apply (waiter_moves s cs S4 ws lths S5 _ b Hw); same Eb.
    intros j Hj Hlt. destruct (in_wakeup (ws j)) eqn:E; [|done]. simpl in wi_stage0.
    rewrite (wi_set0 j Hj Hlt) in wi_stage0; [done|]. by destruct (ws j).
  - cbn [pstep]. destruct wi_run0 as (p & Hpi & Hr). unfold updp. cbn [k_procs set_k_cur]. simpl in Hpi. rewrite Hpi.
    apply (waiter_moves s cs S5 ws lths S6 _ b Hw); same Eb; [split; [done|]|]; eexists; (split; [apply Hins|done]).
  - cbn [pstep]. destruct wi_stage0 as [Hq (p' & Hp' & Hc')]. unfold updp. cbn [k_procs set_k_cur]. simpl in Hp'. rewrite Hp'.
    apply (waiter_moves s cs S6 ws lths S7 _ b Hw); same Eb. split; [done|]. eexists. split; [apply Hins|by split].
  - cbn [pstep]. destruct wi_stage0 as [Hq (p' & Hp' & Hs' & Hc')]. simpl in Hp'.
    destruct (sched_out_held (set_k_cur (Some i) s) lths p' b) as [v ->]; try done; [by rewrite Hs'|].
    apply (waiter_moves s cs S7 ws lths (S8 v) _ b Hw); same Eb. split; [done|]. eexists. split; [apply Hins|by split].
  - cbn [act pstep]. destruct wi_stage0 as [Hq (p' & Hp' & Hs')].
    destruct (release_k_run s None lths ks [PTABLE] b PTABLE) as (sm & -> & Hinv' & Hlk); try done; [by left|].
    rewrite filter_cons_False, filter_nil in Hinv' by auto.
    apply (waiter_moves s cs S9 ws lths S10 _ b Hw); same Eb.
    exists p'. split; [done|]. left. split; [done|]. intros j Hj Hlt. specialize (Hq j Hj Hlt). by destruct (ws j).
Qed.

(** A step of the processor [j] that leaves the table and the condition as they are *)
Lemma stage_same s s' st ws n j w' : stage_ok s st ws n -> k_procs s' = k_procs s -> cond s' = cond s ->
  (in_wakeup w' = true -> in_wakeup (ws j) = true) -> (has_woken w' = true -> has_woken (ws j) = true) ->
  stage_ok s' st (fun j' => if decide (j' = j) then w' else ws j') n.
Proof.
  intros H Hp Hc Hin Hwk. unfold stage_ok, entry in *. rewrite Hp, Hc.
  assert (forall f : wstage -> bool, (f w' = true -> f (ws j) = true) -> (forall j', j' <> ks -> (j' < n)%nat -> f (ws j') = false) ->
    forall j', j' <> ks -> (j' < n)%nat -> f (if decide (j' = j) then w' else ws j') = false) as Hq.
  { intros f Hf H' j' Hj' Hlt. destruct (decide (j' = j)) as [->|]; [|auto].
    destruct (f w') eqn:E; [|done]. rewrite (H' j Hj' Hlt) in Hf. by specialize (Hf eq_refl). }
  destruct st; try done; try (destruct H as [H1 H2]; split; [|done]); try (by apply (Hq in_wakeup)).
  destruct H as (p & Hpi & [[Ha Hn]|Hr]); exists p; (split; [done|]); [left|by right].
  split; [done|]. by apply (Hq has_woken).
Qed.

Lemma stage_quiet s st ws n j : stage_ok s st ws n -> j <> ks -> (j < n)%nat ->
  match st with S5 | S6 | S7 | S8 _ | S9 => in_wakeup (ws j) = false | _ => True end.
Proof. intros H Hj Hlt. destruct st; simpl in H; try done; [by apply H|by apply (proj1 H)..]. Qed.

(** Two processors do not hold a lock together. *)
Lemma held_excl s lths m k1 k2 t1 t2 : linv ids (k_smp s, lths) -> (m < length (s_locks (k_smp s)))%nat ->
  lths !! k1 = Some t1 -> lths !! k2 = Some t2 -> m ∈ th_held t1 -> m ∈ th_held t2 -> k1 = k2.
Proof.
  intros Hinv [lk Hlk]%lookup_lt_is_Some_2 H1 H2 Hm1 Hm2. destruct (li_lock _ _ Hinv m lk Hlk) as [_ He _].
  apply (He k1 k2 t1 t2); try done; by left.
Qed.

Lemma run_same s s' st : run_ok s st -> k_procs s' = k_procs s -> run_ok s' st.
Proof. intros H Hp. unfold run_ok, entry in *. by rewrite Hp. Qed.

Lemma wake_awake p : p_state p <> SLEEPING -> wake c p = p.
Proof. intros H. unfold wake. by rewrite bool_decide_eq_false_2. Qed.

Lemma waker_step s cs st ws lths j t : winv (s, cs) st ws lths -> j <> ks -> cs !! j = Some t -> step_ok (s, cs) j t.
Proof.
  intros Hw Hne Ht. pose proof Hw as []. simpl in *. pose proof (lookup_lt_Some _ _ _ wi_waiter0) as Hks.
  pose proof (lookup_lt_Some _ _ _ Ht) as Hj.
  destruct (winv_same_held _ _ _ _ _ ks Hw Hks) as (b0 & Hb0 & _). rewrite decide_True in Hb0 by done.
  destruct (winv_same_held _ _ _ _ _ j Hw Hj) as (b & Hb & Eb). rewrite decide_False in Hb, Eb by done.
  destruct wi_locks0 as [Hp Hll], wi_procs0 as [Hn Hi]. pose proof (wi_set0 j Hne Hj) as Hcj.
  unfold step_ok. rewrite (wi_wakers0 j t Hne Ht). cbn [fst snd]. destruct (ws j) eqn:Ew; cbn [wcode]; [..|done].
  - cbn [waker pbind act pstep]. destruct (acquire_k_cases s (cp_cur t) lths j [] b l) as [(sm & -> & Hinv' & Hlk & _)|[s' ->]]; try done.
    { apply not_elem_of_nil. }
    apply (waker_moves s cs st ws lths j t W1 _ b Hw); same Eb. apply (stage_same s); same Eb.
  - cbn [pstep]. destruct (Hset (set_k_cur (cp_cur t) s)) as (s' & -> & Hc & Hps & Hsm). simpl in Hps, Hsm.
    apply (waker_moves s cs st ws lths j t W2 _ b Hw); try done; [simpl in *; by rewrite Hsm, Eb|by rewrite Hsm|by rewrite Hps| |by eapply run_same].
    assert (l ∉ sheld st) as Hnl.
    { intros Hin. apply Hne. apply (held_excl s lths l j ks _ _ wi_linv0 Hll Hb Hb0); [by left|done]. }
    destruct st; try done; try (exfalso; apply Hnl; simpl; first [by left|by right; left]).
    all: apply (stage_same s' s' _ ws (length cs) j W2); try done; by unfold stage_ok, entry in *; rewrite ?Hps.
  - cbn [pstep]. destruct (acquire_k_cases s (cp_cur t) lths j [l] b PTABLE) as [(sm & -> & Hinv' & Hlk & Hfree)|[s' ->]]; try done.
    { by intros ?%list_elem_of_singleton. }
    apply (waker_moves s cs st ws lths j t W3 _ b Hw); same Eb.
    assert (PTABLE ∉ sheld st) as Hnp by (intros Hin; by apply Hne; symmetry; apply (Hfree ks _ Hb0)).
    destruct st; try (by destruct Hnp; simpl; left); same Eb.
    destruct wi_stage0 as (p & Hpi & [[Ha Hnw]|Hr]); exists p; (split; [done|]); [left|by right].
    split; [done|]. intros j' Hj' Hlt. destruct (decide (j' = j)) as [->|]; [done|auto].
  - cbn [pstep]. rewrite wakeup1_run by done. specialize (Hcj eq_refl).
    apply (waker_moves s cs st ws lths j t W4 _ b Hw); same Eb.
    + pose proof (stage_quiet _ _ _ _ j wi_stage0 Hne Hj) as Hq. rewrite Ew in Hq.
      destruct st; try done; try (simpl in wi_stage0; congruence).
      destruct wi_stage0 as (p & Hpi & Hst). exists (wake c p). split; [simpl; by rewrite list_lookup_fmap, Hpi|]. right.
      destruct Hst as [[[Hs Hc] _]|Hr]; [by apply wake_state_iff|by rewrite wake_runnable].
    + unfold run_ok in *. destruct st; try done; destruct wi_run0 as (p & Hpi & Hr); exists (wake c p);
        (split; [simpl; by rewrite list_lookup_fmap, Hpi|]); rewrite wake_awake; congruence.
  - cbn [pstep]. destruct (release_k_run s (cp_cur t) lths j [PTABLE; l] b PTABLE) as (sm & -> & Hinv' & Hlk); try done; [by left|].
    rewrite filter_cons_False, filter_cons_True, filter_nil in Hinv' by auto.
    apply (waker_moves s cs st ws lths j t W5 _ b Hw); same Eb.
    apply (stage_same s); same Eb; by rewrite Ew.
  - cbn [act pstep]. destruct (release_k_run s (cp_cur t) lths j [l] b l) as (sm & -> & Hinv' & Hlk); try done; [by left|].
    rewrite filter_cons_False, filter_nil in Hinv' by auto.
    apply (waker_moves s cs st ws lths j t W6 _ b Hw); same Eb.
    apply (stage_same s); same Eb; by rewrite Ew.
Qed.

Lemma code_step sc j t : cinv sc -> sc.2 !! j = Some t -> step_ok sc j t.
Proof.
  destruct sc as [s cs]. intros (st & ws & lths & Hw) Ht. destruct (decide (j = ks)) as [->|Hne].
  - pose proof (wi_waiter _ _ _ _ Hw) as E. simpl in *. rewrite Ht in E. injection E as ->. by eapply waiter_step.
  - by eapply waker_step.
Qed.

Lemma cstep_inv sc sc' : cinv sc -> cstep sc sc' -> cinv sc'.
Proof.
  intros Hc Hs. destruct Hs as [s cs j t p s' Ht E|s cs j t rest Ht E].
  - pose proof (code_step _ _ _ Hc Ht) as H. unfold step_ok in H. simpl in H. by rewrite E in H.
  - destruct Hc as (st & ws & lths & Hw). pose proof Hw as []. simpl in *.
    pose proof (lookup_lt_Some _ _ _ wi_waiter0) as Hks. destruct (decide (j = ks)) as [->|Hne].
    + rewrite wi_waiter0 in Ht. injection Ht as <-. destruct st; simpl in E; try done.
      destruct (winv_same_held _ _ _ _ _ ks Hw Hks) as (b & Hb & Eb). rewrite decide_True in Hb, Eb by done.
      apply (waiter_moves s cs (S8 intena) ws lths S9 _ b Hw); same Eb.
    + rewrite (wi_wakers0 j t Hne Ht) in E. by destruct (ws j).
Qed.

Lemma cinv_start s cs lths p : quiescent ids (k_smp s) lths -> length lths = length cs ->
  cs !! ks = Some (mkCp (Some i) waiter) -> (forall j t, j <> ks -> cs !! j = Some t -> cp_code t = waker j) ->
  (PTABLE < length (s_locks (k_smp s)))%nat -> (l < length (s_locks (k_smp s)))%nat ->
  length (k_procs s) = NPROC -> k_procs s !! i = Some p -> p_state p = RUNNING -> cinv (s, cs).
Proof.
  intros Hq Hlen Hw Hj Hp Hll Hn Hpi Hr. exists S0, (fun _ => W0), lths.
  constructor; simpl; try done.
  - by apply quiescent_inv.
  - intros j Hlt. destruct Hq as (_ & Hc & Hth & _). rewrite <- Hlen in Hlt.
    destruct (lookup_lt_is_Some_2 lths j Hlt) as [t Ht]. destruct (lookup_lt_is_Some_2 (s_cpus (k_smp s)) j) as [cp Hcp]; [lia|].
    destruct (Hth j cp t Hcp Ht) as [_ ->]. exists (s_if (k_smp s) (ids j)). by destruct (decide (j = ks)).
  - split; [done|]. rewrite <- Hn. by eapply lookup_lt_Some.
  - by exists p.
Qed.

(** C12: no wakeup is lost.  A process waits for a condition: it takes the lock [l], and if the condition
    is false calls sleep on [c] with [l].  Any number of other processors take [l], make the condition
    true, call wakeup on [c] and release [l].  The condition is kept outside the lock words and the process
    table, as ticks or a pipe's counts are; [l] is not ptable.lock; at first no lock is held and the
    process is RUNNING.  However the processors interleave, at every lock and
    every write to the process table: once one of the others is done, the process is not asleep: it
    is still running and the condition is true, or it has slept and been made RUNNABLE; and while the process
    sleeps, it does so on [c].  No action of any of them panics. *)
Theorem sleep_wakeup s0 cs0 lths p0 s cs : quiescent ids (k_smp s0) lths -> length lths = length cs0 ->
  cs0 !! ks = Some (mkCp (Some i) waiter) -> (forall j t, j <> ks -> cs0 !! j = Some t -> cp_code t = waker j) ->
  (PTABLE < length (s_locks (k_smp s0)))%nat -> (l < length (s_locks (k_smp s0)))%nat ->
  length (k_procs s0) = NPROC -> k_procs s0 !! i = Some p0 -> p_state p0 = RUNNING ->
  rtc cstep (s0, cs0) (s, cs) ->
  (forall j t, j <> ks -> cs !! j = Some t -> cp_code t = PRet tt ->
     entry s (fun p => p_state p = RUNNING /\ cond s = true \/ p_state p = RUNNABLE)) /\
  (forall p, k_procs s !! i = Some p -> p_state p = SLEEPING -> p_chan p = c) /\
  (forall j t, cs !! j = Some t -> match pstep (cp_code t) (set_k_cur (cp_cur t) s) with
     | Some (Panic _ _) | Some (Fault _) => False | _ => True end).
Proof.
  intros Hq Hlen Hw0 Hj0 Hp Hll Hn Hpi Hr Hsteps.
  assert (cinv (s, cs)) as Hc.
  { assert (cinv (s0, cs0)) as H0 by (by eapply cinv_start). revert H0.
    induction Hsteps as [|sc1 sc2 sc3 Hs _ IH]; [done|]. intros H1. by apply IH, (cstep_inv sc1). }
  split; [|split].
  - intros j t Hne Ht E. destruct Hc as (st & ws & lths' & []). simpl in *. pose proof (lookup_lt_Some _ _ _ Ht) as Hlt.
    rewrite (wi_wakers0 j t Hne Ht) in E. assert (ws j = W6) as Ew by (by destruct (ws j)).
    pose proof (wi_set0 j Hne Hlt) as Hcond. rewrite Ew in Hcond. specialize (Hcond eq_refl).
    pose proof (stage_quiet _ _ _ _ j wi_stage0 Hne Hlt) as Hqt. rewrite Ew in Hqt.
    destruct st; try done; try (simpl in wi_stage0; congruence);
      try (destruct wi_run0 as (p & Hp' & Hr'); exists p; by auto).
    destruct wi_stage0 as (p & Hp' & [[_ Hnw]|Hr']); exists p; (split; [done|]); [|by right].
    specialize (Hnw j Hne Hlt). by rewrite Ew in Hnw.
  - intros p Hp' Hs. destruct Hc as (st & ws & lths' & []). simpl in *.
    destruct st; simpl in wi_run0, wi_stage0; try (destruct wi_run0 as (p' & E & Hr'); congruence).
    1,2,3: destruct wi_stage0 as [_ (p' & E & Ha)]; rewrite Hp' in E; injection E as <-; apply Ha.
    destruct wi_stage0 as (p' & E & [[Ha _]|Hr']); rewrite Hp' in E; injection E as <-; [apply Ha|congruence].
  - intros j t Ht. pose proof (code_step _ _ _ Hc Ht) as H. unfold step_ok in H. simpl in H.
    destruct (pstep _ _) as [[]|]; done.
Qed.

End machine.
Arguments mkCp {F} _ _.

(** ** Two processors *)

(** The processors act in the order [js]. *)
Fixpoint cexec {F} (ids : nat -> Z) (js : list nat) (sc : kst F * list cproc) : option (kst F * list cproc) :=
  match js with
  | [] => Some sc
  | j :: js' =>
      match sc.2 !! j with
      | None => None
      | Some t =>
          match cp_code t with
          | PSwtch _ => cexec ids js' (sc.1, <[j := mkCp None (act (release_k (ids j) PTABLE))]> sc.2)
          | p => match pstep p (set_k_cur (cp_cur t) sc.1) with
                 | Some (Ret q s') => cexec ids js' (s', <[j := mkCp (cp_cur t) q]> sc.2)
                 | _ => None
                 end
          end
      end
  end.

Lemma cexec_rtc {F} ids js (sc sc' : kst F * list cproc) : cexec ids js sc = Some sc' -> rtc (cstep ids) sc sc'.
Proof.
  revert sc. induction js as [|j js IH]; intros [s cs] E; simpl in E; [by injection E as ->|].
  destruct (cs !! j) as [t|] eqn:Ht; [|done]. destruct (cp_code t) as [|B m k|rest] eqn:Ec; [done| |].
  - destruct (m (set_k_cur (cp_cur t) s)) as [b s'| | |] eqn:Es; try done.
    eapply rtc_l; [|by apply IH]. eapply cs_act; [done|]. rewrite Ec. simpl. by rewrite Es.
  - eapply rtc_l; [|by apply IH]. by eapply cs_swtch.
Qed.

Definition smp_two : smp :=
  mkSmp (fun _ => true) [mkCpu 0 0 false; mkCpu 1 0 false] [mkSpinlock 0 "ptable" None []; mkSpinlock 0 "tickslock" None []] [].

Definition ticked (s : kst flat) : bool := 0 <? k_ticks s.
Definition tick : M (kst flat) unit := modify (set_k_ticks 1).
Definition two_start : list (cproc (F := flat)) :=
  [mkCp (Some 1%nat) (waiter Z.of_nat 1 ChanTicks ticked (fun _ => mkContext 0 0 0 0 0) 0); mkCp None (waker Z.of_nat 1 ChanTicks tick 1)].

(** The process finds no tick; the other processor tries the lock once it is free, while the process
    is not yet asleep. *)
Definition two_order : list nat := [0; 0; 0; 0; 0; 1; 0; 1; 0; 0; 0; 0; 1; 1; 1; 1]%nat.

Lemma smp_two_quiescent : quiescent Z.of_nat smp_two [mkThread Idle [] true; mkThread Idle [] true].
Proof.
  split; [|split; [done|split]].
  - split; [|lia]. intros [|[|i]] c Hc; simplify_eq/=; done.
  - intros [|[|k]] c t Hc Ht; simplify_eq/=; done.
  - intros [|[|l]] lk Hl; simplify_eq/=; done.
Qed.

Lemma sleep_wakeup_witness :
  exists s cs, cexec Z.of_nat two_order (pdemo smp_two, two_start) = Some (s, cs) /\
    exists p, k_procs s !! 1%nat = Some p /\ (p_state p = RUNNING /\ ticked s = true \/ p_state p = RUNNABLE).
Proof.
  assert (match cexec Z.of_nat two_order (pdemo smp_two, two_start) with
          | Some (_, cs) => match cs !! 1%nat with Some (mkCp _ (PRet tt)) => true | _ => false end
          | None => false
          end = true) as H by (vm_compute; reflexivity).
  pose proof (cexec_rtc Z.of_nat two_order (pdemo smp_two, two_start)) as Hr. revert H Hr.
  generalize (cexec Z.of_nat two_order (pdemo smp_two, two_start)) as o. intros [[s cs]|] H Hr; [|done].
  destruct (cs !! 1%nat) as [[cur [[]| |]]|] eqn:Ht; try done. exists s, cs. split; [done|].
  specialize (Hr _ eq_refl).
  destruct (sleep_wakeup Z.of_nat 1 ChanTicks ticked tick (fun _ => mkContext 0 0 0 0 0) 0 1%nat) with
    (s0 := pdemo smp_two) (cs0 := two_start) (lths := [mkThread Idle [] true; mkThread Idle [] true])
    (p0 := pdemo_proc RUNNING 2 (Some 0%nat) NoChan) (s := s) (cs := cs) as (Hd & _); try done; try (vm_compute; lia).
  - intros s'. by eexists.
  - apply smp_two_quiescent.
  - intros [|[|j]] t' Hne Ht'; simplify_eq/=; done.
  - by apply (Hd 1%nat (mkCp cur (PRet tt))).
Defined.
