(* ===== verification/Bio.v ===== *)
(** * Disk, sleep locks and buffer cache (src/memide.c, src/sleeplock.c, src/bio.c)

    The disk is the in-memory one of memide.c: a sequence of blocks.  [bs_writes] records the block
    writes in order, so that the state of the disk after a crash in the middle of an operation is
    a prefix of them.  [&bcache.buf[i]] is [i] and [&bcache.head] is [NBUF]; the list through
    prev/next is kept as in the code.  The code runs as one process between two points at which it
    sleeps: taking a sleep lock that is held ends the run ([nofuel]).  The process table is not part
    of this state (it is [Proc]'s): a call of wakeup on the lock is counted in [sl_wakeups]. *)
From Stdlib Require Import ZArith Lia.
From stdpp Require Import base list numbers strings.
From S2P Require Import Prelude.
Local Open Scope Z_scope.

Definition BSIZE : Z := 512.
Definition LOGSIZE : nat := 30.
Definition NBUF : nat := 30.
Definition B_VALID : Z := 0x2.
Definition B_DIRTY : Z := 0x4.

(** ** Sleep locks *)

Record sleeplock := mkSleeplock {
  sl_locked : bool;
  sl_lk : bool;  (* the spin lock that protects it is held *)
  sl_name : string;
  sl_pid : Z;
  sl_wakeups : nat }.  (* calls of wakeup(lk) so far *)

Definition spin_acquire : M bool unit := fun b => if b then Panic "acquire" b else Ret tt true.
Definition spin_release : M bool unit := fun b => if b then Ret tt false else Panic "release" b.

Definition set_sl_lk (b : bool) (l : sleeplock) : sleeplock := mkSleeplock (sl_locked l) b (sl_name l) (sl_pid l) (sl_wakeups l).
Definition sl_acquire : M sleeplock unit := lift sl_lk set_sl_lk spin_acquire.
Definition sl_release : M sleeplock unit := lift sl_lk set_sl_lk spin_release.

Definition initsleeplock (name : string) : M sleeplock unit :=
  modify (set_sl_lk false) ;;;
  modify (fun l => mkSleeplock false (sl_lk l) name 0 (sl_wakeups l)).

(** [pid] is [myproc()->pid]. *)
Definition acquiresleep (pid : Z) : M sleeplock unit :=
  sl_acquire ;;;
  let! b := gets sl_locked in
  if (b : bool) then nofuel
  else
    modify (fun l => mkSleeplock true (sl_lk l) (sl_name l) pid (sl_wakeups l)) ;;;
    sl_release.

(** [wakeup(lk)] *)
Definition wakeup_lock : M sleeplock unit :=
  modify (fun l => mkSleeplock (sl_locked l) (sl_lk l) (sl_name l) (sl_pid l) (S (sl_wakeups l))).

Definition releasesleep : M sleeplock unit :=
  sl_acquire ;;;
  modify (fun l => mkSleeplock false (sl_lk l) (sl_name l) 0 (sl_wakeups l)) ;;;
  wakeup_lock ;;;
  sl_release.

Definition holdingsleep : M sleeplock bool :=
  sl_acquire ;;;
  let! r := gets sl_locked in
  sl_release ;;;
  ret r.

(** ** Buffers *)

Record buf := mkBuf {
  b_flags : Z;
  b_dev : Z;
  b_blockno : Z;
  b_lock : sleeplock;
  b_refcnt : Z;
  b_prev : nat;
  b_next : nat;
  b_data : list Z }.

Definition set_b_flags (v : Z) (b : buf) : buf :=
  mkBuf v (b_dev b) (b_blockno b) (b_lock b) (b_refcnt b) (b_prev b) (b_next b) (b_data b).
Definition set_b_dev (v : Z) (b : buf) : buf :=
  mkBuf (b_flags b) v (b_blockno b) (b_lock b) (b_refcnt b) (b_prev b) (b_next b) (b_data b).
Definition set_b_blockno (v : Z) (b : buf) : buf :=
  mkBuf (b_flags b) (b_dev b) v (b_lock b) (b_refcnt b) (b_prev b) (b_next b) (b_data b).
Definition set_b_lock (v : sleeplock) (b : buf) : buf :=
  mkBuf (b_flags b) (b_dev b) (b_blockno b) v (b_refcnt b) (b_prev b) (b_next b) (b_data b).
Definition set_b_refcnt (v : Z) (b : buf) : buf :=
  mkBuf (b_flags b) (b_dev b) (b_blockno b) (b_lock b) v (b_prev b) (b_next b) (b_data b).
Definition set_b_prev (v : nat) (b : buf) : buf :=
  mkBuf (b_flags b) (b_dev b) (b_blockno b) (b_lock b) (b_refcnt b) v (b_next b) (b_data b).
Definition set_b_next (v : nat) (b : buf) : buf :=
  mkBuf (b_flags b) (b_dev b) (b_blockno b) (b_lock b) (b_refcnt b) (b_prev b) v (b_data b).
Definition set_b_data (v : list Z) (b : buf) : buf :=
  mkBuf (b_flags b) (b_dev b) (b_blockno b) (b_lock b) (b_refcnt b) (b_prev b) (b_next b) v.

Record bst := mkBst {
  bs_disk : list (list Z);  (* memdisk, block by block *)
  bs_writes : list (Z * list Z);  (* the writes to it, latest first *)
  bs_lock : bool;  (* bcache.lock is held *)
  bs_bufs : list buf;  (* bcache.buf and, last, bcache.head *)
  bs_pid : Z }.  (* myproc()->pid *)

Definition set_bs_lock (b : bool) (s : bst) : bst := mkBst (bs_disk s) (bs_writes s) b (bs_bufs s) (bs_pid s).
Definition set_bs_bufs (l : list buf) (s : bst) : bst := mkBst (bs_disk s) (bs_writes s) (bs_lock s) l (bs_pid s).

Definition HEAD : nat := NBUF.

Definition getb (i : nat) : M bst buf := fun s =>
  match bs_bufs s !! i with Some b => Ret b s | None => Fault s end.
Definition updb (i : nat) (f : buf -> buf) : M bst unit := fun s =>
  match bs_bufs s !! i with
  | Some b => Ret tt (set_bs_bufs (<[i := f b]> (bs_bufs s)) s)
  | None => Fault s
  end.
(** An operation on the sleep lock of a buffer. *)
Definition on_lock {A} (i : nat) (m : M sleeplock A) : M bst A := fun s =>
  match bs_bufs s !! i with
  | Some _ => lift (fun s => default (mkSleeplock false false "" 0 0) (b_lock <$> bs_bufs s !! i))
                   (fun l s => set_bs_bufs (alter (set_b_lock l) i (bs_bufs s)) s) m s
  | None => Fault s
  end.
Definition bcache_acquire : M bst unit := lift bs_lock set_bs_lock spin_acquire.
Definition bcache_release : M bst unit := lift bs_lock set_bs_lock spin_release.

(** [memdisk + blockno*BSIZE], written *)
Definition disk_write (blk : Z) (d : list Z) (s : bst) : bst :=
  mkBst (<[Z.to_nat blk := d]> (bs_disk s)) ((blk, d) :: bs_writes s) (bs_lock s) (bs_bufs s) (bs_pid s).

Definition iderw (i : nat) : M bst unit :=
  let! h := on_lock i holdingsleep in
  if negb h then panic "iderw: buf not locked"
  else
    let! b := getb i in
    if Z.land (b_flags b) (Z.lor B_VALID B_DIRTY) =? B_VALID then panic "iderw: nothing to do"
    else if negb (b_dev b =? 1) then panic "iderw: request not for disk 1"
    else
      let! d := gets bs_disk in
      if Z.of_nat (length d) <=? b_blockno b then panic "iderw: block out of range"
      else
        (if has (b_flags b) B_DIRTY then
           updb i (fun b => set_b_flags (Z.land (b_flags b) (Z.lnot B_DIRTY)) b) ;;;
           modify (disk_write (b_blockno b) (b_data b))
         else
           updb i (set_b_data (nth (Z.to_nat (b_blockno b)) d []))) ;;;
        updb i (fun b => set_b_flags (Z.lor (b_flags b) B_VALID) b).

(** ** The cache *)

(** Put [i] between the head and its successor. *)
Definition link_front (i : nat) : M bst unit :=
  let! h := getb HEAD in
  updb i (set_b_next (b_next h)) ;;;
  updb i (set_b_prev HEAD).
Definition link_head (i : nat) : M bst unit :=
  let! h := getb HEAD in
  updb (b_next h) (set_b_prev i) ;;;
  updb HEAD (set_b_next i).

Definition binit : M bst unit :=
  modify (set_bs_lock false) ;;;
  updb HEAD (set_b_prev HEAD) ;;;
  updb HEAD (set_b_next HEAD) ;;;
  for_each NBUF 0 (fun i =>
    link_front i ;;;
    on_lock i (initsleeplock "buffer") ;;;
    link_head i).

(** The buffer of the block, in the order of next. *)
Definition bget_cached_body (dev blockno : Z) (i : nat) : M bst (nat + option nat) :=
  if (i =? HEAD)%nat then ret (inr None)
  else
    let! b := getb i in
    if (b_dev b =? dev) && (b_blockno b =? blockno) then
      updb i (fun b => set_b_refcnt (u32 (b_refcnt b + 1)) b) ;;;
      bcache_release ;;;
      let! pid := gets bs_pid in
      on_lock i (acquiresleep pid) ;;;
      ret (inr (Some i))
    else ret (inl (b_next b)).

(** A buffer to recycle, in the order of prev. *)
Definition bget_recycle_body (dev blockno : Z) (i : nat) : M bst (nat + option nat) :=
  if (i =? HEAD)%nat then ret (inr None)
  else
    let! b := getb i in
    if (b_refcnt b =? 0) && negb (has (b_flags b) B_DIRTY) then
      updb i (set_b_dev dev) ;;;
      updb i (set_b_blockno blockno) ;;;
      updb i (set_b_flags 0) ;;;
      updb i (set_b_refcnt 1) ;;;
      bcache_release ;;;
      let! pid := gets bs_pid in
      on_lock i (acquiresleep pid) ;;;
      ret (inr (Some i))
    else ret (inl (b_prev b)).

(** The list has [NBUF] entries and its head: [NBUF + 1] rounds are enough. *)
Definition bget (dev blockno : Z) : M bst nat :=
  bcache_acquire ;;;
  let! h := getb HEAD in
  let! r := loop (NBUF + 1) (bget_cached_body dev blockno) (b_next h) in
  match r with
  | Some i => ret i
  | None =>
    let! h := getb HEAD in
    let! r := loop (NBUF + 1) (bget_recycle_body dev blockno) (b_prev h) in
    match r with Some i => ret i | None => panic "bget: no buffers" end
  end.

Definition bread (dev blockno : Z) : M bst nat :=
  let! i := bget dev blockno in
  let! b := getb i in
  when (negb (has (b_flags b) B_VALID)) (iderw i) ;;;
  ret i.

Definition bwrite (i : nat) : M bst unit :=
  let! h := on_lock i holdingsleep in
  if negb h then panic "bwrite"
  else
    updb i (fun b => set_b_flags (Z.lor (b_flags b) B_DIRTY) b) ;;;
    iderw i.

Definition brelse (i : nat) : M bst unit :=
  let! h := on_lock i holdingsleep in
  if negb h then panic "brelse"
  else
    on_lock i releasesleep ;;;
    bcache_acquire ;;;
    updb i (fun b => set_b_refcnt (u32 (b_refcnt b - 1)) b) ;;;
    let! b := getb i in
    when (b_refcnt b =? 0)
      (updb (b_next b) (set_b_prev (b_prev b)) ;;;
       let! b := getb i in
       updb (b_prev b) (set_b_next (b_next b)) ;;;
       link_front i ;;;
       link_head i) ;;;
    bcache_release.
