(* ===== verification/BioSpec.v ===== *)
(** * The buffer cache: invariant and specifications

    [path] and its lemmas treat the doubly linked list; [cinv] is the invariant of the cache:
    the list [l] of the buffers, most recently used first, the buffers [held] by the running code,
    clean buffers that agree with the disk, at most one buffer per block.  [view] is the contents of
    the blocks as seen through the cache; the specifications of bread, bwrite and brelse are stated
    in terms of it, for the log and the file system. *)
From Stdlib Require Import ZArith Lia.
From stdpp Require Import base list numbers strings.
From S2P Require Import Prelude Bio.
Local Open Scope Z_scope.

(** ** Linked lists *)

Fixpoint path (f : nat -> nat) (a : nat) (l : list nat) (z : nat) : Prop :=
  match l with
  | [] => a = z
  | x :: l' => a = x /\ path f (f x) l' z
  end.

Definition fupd (f : nat -> nat) (i v : nat) : nat -> nat := fun j => if decide (j = i) then v else f j.

Lemma fupd_eq f i v : fupd f i v i = v.
Proof. unfold fupd. by rewrite decide_True. Qed.
Lemma fupd_ne f i v j : j <> i -> fupd f i v j = f j.
Proof. unfold fupd. intros. by rewrite decide_False. Qed.

Lemma path_ext f g a l z : (forall x, x ∈ l -> g x = f x) -> path f a l z -> path g a l z.
Proof.
  revert a. induction l as [|x l IH]; intros a He; simpl; [done|]. intros [-> Hp]. split; [done|].
  rewrite He by (by left). apply IH; [|done]. intros y Hy. apply He. by right.
Qed.

(** The last node before [z] on the path that starts after [a]. *)
Fixpoint lastd (a : nat) (l : list nat) : nat := match l with [] => a | x :: l' => lastd x l' end.

Lemma lastd_app a l x : lastd a (l ++ [x]) = x.
Proof. revert a. induction l as [|y l IH]; intros a; simpl; auto. Qed.

Lemma lastd_elem a l : lastd a l = a \/ lastd a l ∈ l.
Proof.
  revert a. induction l as [|x l IH]; intros a; simpl; [by left|right].
  destruct (IH x) as [-> | H]; [by left|by right].
Qed.

Lemma path_app f a l1 b l2 z : path f a (l1 ++ b :: l2) z -> path f (f b) l2 z /\ path f a l1 b.
Proof.
  revert a. induction l1 as [|x l1 IH]; intros a; simpl; [by intros [-> ?]|].
  intros [-> H]. apply IH in H as [? ?]. done.
Qed.

(** Taking a node out. *)
Lemma path_unlink f a l1 b l2 z : NoDup (a :: l1 ++ b :: l2) ->
  path f (f a) (l1 ++ b :: l2) z ->
  path (fupd f (lastd a l1) (f b)) (fupd f (lastd a l1) (f b) a) (l1 ++ l2) z.
Proof.
  revert a. induction l1 as [|x l1 IH]; intros a Hnd Hp; simpl in *.
  - rewrite fupd_eq. destruct Hp as [_ Hp]. eapply path_ext; [|exact Hp]. intros y Hy. apply fupd_ne. intros ->.
    apply NoDup_cons in Hnd as [Hnd _]. apply Hnd. by right.
  - destruct Hp as [E Hp]. apply NoDup_cons in Hnd as [Ha Hnd]. split; [|by apply IH].
    rewrite fupd_ne; [done|]. intros ->. apply Ha.
    destruct (lastd_elem x l1) as [-> | Hl]; [by left|right]. apply elem_of_app. by left.
Qed.

(** Putting a node first, and last. *)
Lemma path_front f a b l z : a ∉ l -> b ∉ l -> b <> a -> path f (f a) l z ->
  let g := fupd (fupd f b (f a)) a b in path g (g a) (b :: l) z.
Proof.
  intros Ha Hb Hba Hp. simpl. rewrite fupd_eq. split; [done|]. rewrite fupd_ne, fupd_eq by done.
  eapply path_ext; [|exact Hp]. intros x Hx. rewrite !fupd_ne; [done|by intros ->..].
Qed.

Lemma path_back f a b l z : NoDup (a :: l) -> b ∉ l -> b <> a -> path f (f a) l z ->
  let g := fupd (fupd f b z) (lastd a l) b in path g (g a) (l ++ [b]) z.
Proof.
  intros Hnd Hb Hba Hp. cbv zeta. revert a Hnd Hba Hp. induction l as [|x l IH]; intros a Hnd Hba Hp; simpl in *.
  - rewrite fupd_eq. split; [done|]. rewrite fupd_ne by done. by rewrite fupd_eq.
  - destruct Hp as [E Hp]. apply NoDup_cons in Hnd as [Ha Hnd]. apply not_elem_of_cons in Hb as [Hbx Hb].
    split; [|by apply IH]. rewrite !fupd_ne; [done|congruence|]. intros ->. apply Ha.
    destruct (lastd_elem x l) as [-> | Hl]; [by left|by right].
Qed.

(** ** The invariant *)

Definition bat (s : bst) (i : nat) (b : buf) : Prop := bs_bufs s !! i = Some b.
Definition nx (bs : list buf) (i : nat) : nat := default HEAD (b_next <$> bs !! i).
Definition pv (bs : list buf) (i : nat) : nat := default HEAD (b_prev <$> bs !! i).

(** The buffers [l] from the most to the least recently used. *)
Definition lru (bs : list buf) (l : list nat) : Prop :=
  path (nx bs) (nx bs HEAD) l HEAD /\ path (pv bs) (pv bs HEAD) (rev l) HEAD /\
  NoDup l /\ (forall i, i ∈ l <-> (i < NBUF)%nat).

Definition valid (b : buf) : bool := has (b_flags b) B_VALID.
Definition dirty (b : buf) : bool := has (b_flags b) B_DIRTY.
(** The buffer is of block [blk]. *)
Definition holds (blk : Z) (b : buf) : bool := (b_dev b =? 1) && (b_blockno b =? blk).

Definition disk_at (s : bst) (blk : Z) : list Z := nth (Z.to_nat blk) (bs_disk s) [].

(** The blocks through the cache. *)
Definition view (s : bst) (blk : Z) : list Z :=
  match List.find (fun b => holds blk b && valid b) (take NBUF (bs_bufs s)) with
  | Some b => b_data b
  | None => disk_at s blk
  end.

Record buf_ok (s : bst) (held : list nat) (i : nat) (b : buf) : Prop := {
  bo_flags : b_flags b = 0 \/ b_flags b = 2 \/ b_flags b = 6;
  bo_lk : sl_lk (b_lock b) = false;
  bo_held : if decide (i ∈ held) then b_refcnt b = 1 /\ sl_locked (b_lock b) = true /\ b_dev b = 1 /\ b_flags b <> 0
            else b_refcnt b = 0 /\ sl_locked (b_lock b) = false;
  bo_dev : b_flags b <> 0 <-> b_dev b = 1;
  bo_range : b_dev b = 1 -> 0 <= b_blockno b < Z.of_nat (length (bs_disk s));
  bo_clean : b_flags b = 2 -> i ∉ held -> b_data b = disk_at s (b_blockno b) }.

Record cinv (s : bst) (l held : list nat) : Prop := {
  ci_len : length (bs_bufs s) = S NBUF;
  ci_lock : bs_lock s = false;
  ci_lru : lru (bs_bufs s) l;
  ci_held i : i ∈ held -> (i < NBUF)%nat;
  ci_buf i b : (i < NBUF)%nat -> bat s i b -> buf_ok s held i b;
  ci_uniq i j b c blk : (i < NBUF)%nat -> (j < NBUF)%nat -> bat s i b -> bat s j c ->
    holds blk b = true -> holds blk c = true -> i = j }.

Lemma flags_valid b : b_flags b = 0 \/ b_flags b = 2 \/ b_flags b = 6 -> valid b = negb (b_flags b =? 0).
Proof. unfold valid. by intros [-> |[-> | ->]]. Qed.
Lemma flags_dirty b : b_flags b = 0 \/ b_flags b = 2 \/ b_flags b = 6 -> dirty b = (b_flags b =? 6).
Proof. unfold dirty. by intros [-> |[-> | ->]]. Qed.

Lemma holds_true blk b : holds blk b = true <-> b_dev b = 1 /\ b_blockno b = blk.
Proof. unfold holds. by rewrite andb_true_iff, !Z.eqb_eq. Qed.

Section view.
Context (s : bst) (l held : list nat) (Hinv : cinv s l held).

Lemma view_cached i b blk : (i < NBUF)%nat -> bat s i b -> holds blk b = true -> b_flags b <> 0 -> view s blk = b_data b.
Proof.
  intros Hi Hb Hh Hf. unfold view. destruct (List.find _ _) as [c|] eqn:E.
  - apply find_some in E as [Hin Hc]. apply list_elem_of_In, list_elem_of_lookup in Hin as [j Hj].
    apply lookup_take_Some in Hj as [Hj Hlt]. apply andb_true_iff in Hc as [Hc _].
    assert (i = j) as <- by (by eapply (ci_uniq s l held Hinv i j)). unfold bat in Hb. congruence.
  - assert (b ∈ take NBUF (bs_bufs s)) as Hin.
    { apply list_elem_of_lookup. exists i. by rewrite lookup_take_lt. }
    apply list_elem_of_In in Hin. pose proof (find_none _ _ E b Hin) as Hn. simpl in Hn. rewrite Hh in Hn.
    rewrite (flags_valid b) in Hn by (by eapply bo_flags, ci_buf). apply negb_false_iff, Z.eqb_eq in Hn. done.
Qed.

Lemma view_uncached blk : (forall i b, (i < NBUF)%nat -> bat s i b -> holds blk b = true -> b_flags b = 0) ->
  view s blk = disk_at s blk.
Proof.
  intros Hn. unfold view. destruct (List.find _ _) as [c|] eqn:E; [|done].
  apply find_some in E as [Hin Hc]. apply list_elem_of_In, list_elem_of_lookup in Hin as [j Hj].
  apply lookup_take_Some in Hj as [Hj Hlt]. apply andb_true_iff in Hc as [Hc Hv].
  pose proof (Hn j c Hlt Hj Hc) as H0. unfold valid in Hv. by rewrite H0 in Hv.
Qed.

(** A clean cached copy agrees with the disk, so the two cases can be decided by the buffers. *)
Lemma view_cases blk : (exists i b, (i < NBUF)%nat /\ bat s i b /\ holds blk b = true /\ b_flags b <> 0 /\ view s blk = b_data b) \/
  ((forall i b, (i < NBUF)%nat -> bat s i b -> holds blk b = true -> b_flags b = 0) /\ view s blk = disk_at s blk).
Proof.
  destruct (List.find (fun b => holds blk b && valid b) (take NBUF (bs_bufs s))) as [c|] eqn:E.
  - left. apply find_some in E as [Hin Hc]. apply list_elem_of_In, list_elem_of_lookup in Hin as [j Hj].
    apply lookup_take_Some in Hj as [Hj Hlt]. apply andb_true_iff in Hc as [Hc Hv].
    assert (b_flags c <> 0) as Hf by (intros E0; unfold valid in Hv; by rewrite E0 in Hv).
    exists j, c. split; [done|]. split; [done|]. split; [done|]. split; [done|]. by eapply view_cached.
  - right. assert (forall i b, (i < NBUF)%nat -> bat s i b -> holds blk b = true -> b_flags b = 0) as Hn.
    { intros i b Hi Hb Hh. assert (b ∈ take NBUF (bs_bufs s)) as Hin.
      { apply list_elem_of_lookup. exists i. by rewrite lookup_take_lt. }
      apply list_elem_of_In in Hin. pose proof (find_none _ _ E b Hin) as Hn. simpl in Hn. rewrite Hh in Hn.
      rewrite (flags_valid b) in Hn by (by eapply bo_flags, ci_buf). by apply negb_false_iff, Z.eqb_eq in Hn. }
    split; [done|]. by apply view_uncached.
Qed.

End view.

(** ** Running the operations *)

Definition setb (i : nat) (b : buf) (s : bst) : bst := set_bs_bufs (<[i := b]> (bs_bufs s)) s.

Lemma setb_setb i b c s : setb i c (setb i b s) = setb i c s.
Proof. unfold setb, set_bs_bufs. simpl. by rewrite list_insert_insert_eq. Qed.
Lemma setb_id i b s : bat s i b -> setb i b s = s.
Proof. intros Hb. unfold setb. rewrite list_insert_id by done. by destruct s. Qed.
Lemma bat_setb i b c s : bat s i b -> bat (setb i c s) i c.
Proof. intros Hb. apply list_lookup_insert_eq. by eapply lookup_lt_Some. Qed.
Lemma bat_setb_ne i j b s c : j <> i -> bat (setb i b s) j c <-> bat s j c.
Proof. intros. unfold bat. simpl. by rewrite list_lookup_insert_ne. Qed.

Lemma getb_run i b s : bat s i b -> getb i s = Ret b s.
Proof. unfold getb, bat. by intros ->. Qed.
Lemma updb_run i b f s : bat s i b -> updb i f s = Ret tt (setb i (f b) s).
Proof. unfold updb, bat. by intros ->. Qed.

Lemma alter_insert (f : buf -> buf) i b (bs : list buf) : bs !! i = Some b -> alter f i bs = <[i := f b]> bs.
Proof.
  intros Hb. apply list_eq. intros j. rewrite list_lookup_alter. case_decide as E; [subst j|].
  - rewrite list_lookup_insert_eq by (by eapply lookup_lt_Some). by rewrite Hb.
  - by rewrite list_lookup_insert_ne.
Qed.

Lemma on_lock_run {A} i b (m : M sleeplock A) a k s : bat s i b -> m (b_lock b) = Ret a k ->
  on_lock i m s = Ret a (setb i (set_b_lock k b) s).
Proof.
  unfold on_lock, bat, lift. intros Hb Hm. rewrite Hb. simpl. rewrite Hm.
  by rewrite (alter_insert _ _ _ _ Hb).
Qed.

Lemma holding_run_buf i b s : bat s i b -> sl_lk (b_lock b) = false -> on_lock i holdingsleep s = Ret (sl_locked (b_lock b)) s.
Proof.
  intros Hb Hl. erewrite (on_lock_run i b); [|done|].
  - by rewrite setb_id with (b := set_b_lock (b_lock b) b) by (by destruct b).
  - destruct (b_lock b) as [k lk n p]. simpl in *. by subst lk.
Qed.

Lemma has_flags b : b_flags b = 6 -> has (b_flags b) B_DIRTY = true.
Proof. by intros ->. Qed.

(** Reading a block into a buffer that is not valid, and writing a dirty one. *)
Lemma iderw_read i b s : bat s i b -> sl_lk (b_lock b) = false -> sl_locked (b_lock b) = true -> b_flags b = 0 ->
  b_dev b = 1 -> 0 <= b_blockno b < Z.of_nat (length (bs_disk s)) ->
  iderw i s = Ret tt (setb i (set_b_flags 2 (set_b_data (disk_at s (b_blockno b)) b)) s).
Proof.
  intros Hb Hl Hk Hf Hd Hr. unfold iderw, bind, gets. rewrite (holding_run_buf i b) by done. rewrite Hk. simpl.
  rewrite (getb_run i b) by done. rewrite Hf, Hd. simpl. rewrite (proj2 (Z.leb_gt _ _)) by lia.
  rewrite (updb_run i b) by done. erewrite updb_run by (by eapply bat_setb). rewrite setb_setb. simpl. by rewrite Hf.
Qed.

Lemma iderw_write i b s : bat s i b -> sl_lk (b_lock b) = false -> sl_locked (b_lock b) = true -> b_flags b = 6 ->
  b_dev b = 1 -> 0 <= b_blockno b < Z.of_nat (length (bs_disk s)) ->
  iderw i s = Ret tt (setb i (set_b_flags 2 b) (disk_write (b_blockno b) (b_data b) s)).
Proof.
  intros Hb Hl Hk Hf Hd Hr. unfold iderw, bind, gets. rewrite (holding_run_buf i b) by done. rewrite Hk. simpl.
  rewrite (getb_run i b) by done. rewrite Hf, Hd. simpl. rewrite (proj2 (Z.leb_gt _ _)) by lia.
  rewrite (updb_run i b) by done. unfold modify. erewrite updb_run by (eapply (bat_setb i b); done).
  unfold setb, disk_write, set_bs_bufs. simpl. by rewrite list_insert_insert_eq, Hf.
Qed.

(** A loop that walks a list until its body stops at [z]. *)
Lemma loop_path {R} (f : nat -> nat) (body : nat -> M bst (nat + R)) l a z r s s' fuel :
  (forall x, x ∈ l -> body x s = Ret (inl (f x)) s) -> body z s = Ret (inr r) s' -> path f a l z -> (length l < fuel)%nat ->
  loop fuel body a s = Ret r s'.
Proof.
  revert a fuel. induction l as [|x l IH]; intros a fuel Hb Hz Hp Hf; destruct fuel as [|fuel]; simpl in *; try lia.
  - subst a. unfold bind. by rewrite Hz.
  - destruct Hp as [-> Hp]. unfold bind. rewrite Hb by (by left). apply IH; [|done|done|lia].
    intros y Hy. apply Hb. by right.
Qed.

(** [l] split at the first element with a property, from the left. *)
Lemma list_first (P : nat -> bool) l :
  (exists l1 i l2, l = l1 ++ i :: l2 /\ P i = true /\ forall x, x ∈ l1 -> P x = false) \/ (forall x, x ∈ l -> P x = false).
Proof.
  induction l as [|x l IH]; [right; by intros x ?%not_elem_of_nil|]. destruct (P x) eqn:E.
  { left. exists [], x, l. split; [done|]. split; [done|]. by intros y ?%not_elem_of_nil. }
  destruct IH as [(l1 & i & l2 & -> & Hi & Hn)|Hn].
  - left. exists (x :: l1), i, l2. split; [done|]. split; [done|]. intros y [-> |Hy]%elem_of_cons; auto.
  - right. intros y [-> |Hy]%elem_of_cons; auto.
Qed.

Definition locked_by (pid : Z) (k : sleeplock) : sleeplock := mkSleeplock true (sl_lk k) (sl_name k) pid (sl_wakeups k).

Lemma acquiresleep_run pid k : sl_lk k = false -> sl_locked k = false -> acquiresleep pid k = Ret tt (locked_by pid k).
Proof. destruct k as [b lk n p]. simpl. by intros -> ->. Qed.

Section bget.
Context (s : bst) (l held : list nat) (Hinv : cinv s l held).

Lemma buf_exists i : (i < NBUF)%nat -> exists b, bat s i b.
Proof. intros Hi. apply lookup_lt_is_Some_2. rewrite (ci_len s l held Hinv). lia. Qed.

Lemma head_exists : exists h, bat s HEAD h /\ b_next h = nx (bs_bufs s) HEAD /\ b_prev h = pv (bs_bufs s) HEAD.
Proof.
  destruct (lookup_lt_is_Some_2 (bs_bufs s) HEAD) as [h Hh]; [rewrite (ci_len s l held Hinv); unfold HEAD; lia|].
  exists h. unfold nx, pv. by rewrite Hh.
Qed.

Lemma lru_ne_head i : i ∈ l -> (i =? HEAD)%nat = false /\ exists b, bat s i b.
Proof.
  intros Hi. apply (proj2 (proj2 (proj2 (ci_lru s l held Hinv)))) in Hi. split; [|by apply buf_exists].
  apply Nat.eqb_neq. unfold HEAD. lia.
Qed.

Lemma lru_length : (length l <= NBUF)%nat.
Proof.
  destruct (ci_lru s l held Hinv) as (_ & _ & Hnd & Hin). change NBUF with (length (seq 0 NBUF)).
  apply submseteq_length, NoDup_submseteq; [done|]. intros i Hi%Hin. apply elem_of_seq. lia.
Qed.

(** The buffer found in the cache. *)
Lemma bget_cached blk i b : (i < NBUF)%nat -> bat s i b -> holds blk b = true -> i ∉ held ->
  bget 1 blk s = Ret i (setb i (set_b_lock (locked_by (bs_pid s) (b_lock b)) (set_b_refcnt 1 b)) s).
Proof.
  intros Hi Hb Hh Hnh. destruct head_exists as (h & Hhd & En & _). pose proof Hinv as [_ Hlock (Hfw & _ & Hnd & Hin) _ Hbuf Huniq].
  destruct (Hbuf i b Hi Hb) as [_ Hlk Hhe _ _ _]. rewrite decide_False in Hhe by done. destruct Hhe as [Hrc Hun].
  apply Hin, list_elem_of_split in Hi as (l1 & l2 & El). pose proof lru_length as Hlen.
  unfold bget, bcache_acquire, bind at 1. unfold lift at 1, spin_acquire. rewrite Hlock. cbv beta iota.
  set (s1 := set_bs_lock true s). unfold bind at 1. rewrite (getb_run HEAD h) by done.
  assert (bget_cached_body 1 blk i s1 = Ret (inr (Some i)) (setb i (set_b_lock (locked_by (bs_pid s) (b_lock b)) (set_b_refcnt 1 b)) s)) as Ez.
  { unfold bget_cached_body. rewrite (proj1 (lru_ne_head i ltac:(rewrite El; apply elem_of_app; right; by left))).
    unfold bind. rewrite (getb_run i b) by done. unfold holds in Hh. rewrite Hh. rewrite (updb_run i b) by done.
    unfold bcache_release, lift, gets. simpl.
    erewrite on_lock_run; [|by eapply (bat_setb i b)|by apply acquiresleep_run].
    unfold setb, set_bs_bufs. simpl. rewrite Hrc, list_insert_insert_eq. by destruct s; simpl in *; subst. }
  unfold bind at 1.
  erewrite (loop_path (nx (bs_bufs s)) _ l1 (b_next h) i (Some i) s1); [reflexivity| |exact Ez| |].
  - intros x Hx. assert (x ∈ l) as Hxl by (rewrite El; apply elem_of_app; by left).
    destruct (lru_ne_head x Hxl) as (Hne & c & Hc). unfold bget_cached_body. rewrite Hne. unfold bind.
    rewrite (getb_run x c) by done. destruct ((b_dev c =? 1) && (b_blockno c =? blk)) eqn:E.
    + assert (x = i) as ->; [|by rewrite El in Hnd; apply NoDup_app in Hnd as (_ & Hd & _); destruct (Hd i Hx); left].
      apply (Huniq x i c b blk); try done; apply Hin; [done|]. rewrite El. apply elem_of_app. right. by left.
    + unfold ret, nx. unfold bat in Hc. by rewrite Hc.
  - rewrite En. rewrite El in Hfw. by apply path_app in Hfw as [_ ?].
  - rewrite El, length_app in Hlen. simpl in Hlen. lia.
Qed.

Definition free_buf (b : buf) : bool := (b_refcnt b =? 0) && negb (dirty b).

(** Otherwise the least recently used free buffer is recycled. *)
Lemma bget_recycled blk l1 i l2 b : (forall j c, (j < NBUF)%nat -> bat s j c -> holds blk c = false) ->
  l = l1 ++ i :: l2 -> bat s i b -> free_buf b = true ->
  (forall j c, j ∈ l2 -> bat s j c -> free_buf c = false) ->
  bget 1 blk s = Ret i (setb i (set_b_lock (locked_by (bs_pid s) (b_lock b))
    (set_b_refcnt 1 (set_b_flags 0 (set_b_blockno blk (set_b_dev 1 b))))) s).
Proof.
  intros Hno El Hb Hfree Hrest. destruct head_exists as (h & Hhd & En & Ep).
  pose proof Hinv as [_ Hlock (Hfw & Hbw & Hnd & Hin) _ Hbuf _]. pose proof lru_length as Hlen.
  assert (i ∈ l) as Hil by (rewrite El; apply elem_of_app; right; by left).
  assert (i < NBUF)%nat as Hi by (by apply Hin).
  pose proof Hfree as Hfree'. unfold free_buf in Hfree. apply andb_true_iff in Hfree as [Hrc0 Hd0].
  destruct (Hbuf i b Hi Hb) as [_ Hlk Hhe _ _ _].
  assert (sl_locked (b_lock b) = false) as Hun.
  { destruct (decide (i ∈ held)); [destruct Hhe as [Hrc _]; rewrite Hrc in Hrc0; done|by destruct Hhe]. }
  unfold bget, bcache_acquire, bind at 1. unfold lift at 1, spin_acquire. rewrite Hlock. cbv beta iota.
  set (s1 := set_bs_lock true s). unfold bind at 1. rewrite (getb_run HEAD h) by done. unfold bind at 1.
  rewrite (loop_path (nx (bs_bufs s)) _ l (b_next h) HEAD None s1 s1); [| |done|by rewrite En|lia].
  2:{ intros x Hx. destruct (lru_ne_head x Hx) as (Hne & c & Hc). unfold bget_cached_body. rewrite Hne. unfold bind.
      rewrite (getb_run x c) by done. pose proof (Hno x c (proj1 (Hin x) Hx) Hc) as E. unfold holds in E. rewrite E.
      unfold ret, nx. unfold bat in Hc. by rewrite Hc. }
  unfold bind at 1. rewrite (getb_run HEAD h) by done. unfold bind at 1.
  erewrite (loop_path (pv (bs_bufs s)) _ (rev l2) (b_prev h) i (Some i) s1); [reflexivity| | | |].
  - intros x Hx. apply list_elem_of_In, in_rev, list_elem_of_In in Hx.
    assert (x ∈ l) as Hxl by (rewrite El; apply elem_of_app; right; by right).
    destruct (lru_ne_head x Hxl) as (Hne & c & Hc). unfold bget_recycle_body. rewrite Hne. unfold bind.
    rewrite (getb_run x c) by done. pose proof (Hrest x c Hx Hc) as E. unfold free_buf, dirty in E. rewrite E.
    unfold ret, pv. unfold bat in Hc. by rewrite Hc.
  - unfold bget_recycle_body. rewrite (proj1 (lru_ne_head i Hil)). unfold bind. rewrite (getb_run i b) by done.
    unfold free_buf, dirty in Hfree'. rewrite Hfree'. rewrite (updb_run i b) by done.
    do 3 (erewrite updb_run by (by eapply (bat_setb i b)); rewrite setb_setb).
    unfold bcache_release, lift, gets. simpl.
    erewrite on_lock_run; [|by eapply (bat_setb i b)|by apply acquiresleep_run].
    unfold setb, set_bs_bufs. simpl. rewrite list_insert_insert_eq. by destruct s; simpl in *; subst.
  - rewrite Ep. rewrite El, rev_app_distr in Hbw. simpl in Hbw. rewrite <- app_assoc in Hbw. by apply path_app in Hbw as [_ ?].
  - rewrite length_rev. rewrite El, length_app in Hlen. simpl in Hlen. lia.
Qed.

(** The last free buffer of the list. *)
Lemma lru_last_free i0 b0 : (i0 < NBUF)%nat -> bat s i0 b0 -> free_buf b0 = true ->
  exists l1 i l2 b, l = l1 ++ i :: l2 /\ bat s i b /\ free_buf b = true /\ forall j c, j ∈ l2 -> bat s j c -> free_buf c = false.
Proof.
  intros Hi0 Hb0 Hf0. destruct (list_first (fun i => match bs_bufs s !! i with Some b => free_buf b | None => false end) (rev l))
    as [(l1 & i & l2 & El & Hi & Hn)|Hn].
  - destruct (bs_bufs s !! i) as [b|] eqn:Hb; [|done]. exists (rev l2), i, (rev l1), b. split.
    { rewrite <- (rev_involutive l), El, rev_app_distr. simpl. by rewrite <- app_assoc. }
    split; [done|]. split; [done|]. intros j c Hj Hc. apply list_elem_of_In, in_rev, list_elem_of_In in Hj. specialize (Hn j Hj).
    unfold bat in Hc. by rewrite Hc in Hn.
  - assert (i0 ∈ rev l) as Hin.
    { apply list_elem_of_In, in_rev. rewrite rev_involutive. apply list_elem_of_In.
      by apply (proj2 (proj2 (proj2 (ci_lru s l held Hinv)))). }
    specialize (Hn i0 Hin). unfold bat in Hb0. rewrite Hb0 in Hn. congruence.
Qed.

End bget.

(** ** Specifications *)

(** Replacing one buffer, its links kept. *)
Lemma lru_insert bs l i b b' : bs !! i = Some b -> b_next b' = b_next b -> b_prev b' = b_prev b ->
  lru bs l -> lru (<[i := b']> bs) l.
Proof.
  intros Hb Hn Hp (Hf & Hbk & Hnd & Hin).
  assert (forall x, nx (<[i := b']> bs) x = nx bs x) as En.
  { intros x. unfold nx. destruct (decide (x = i)) as [->|].
    - rewrite list_lookup_insert_eq, Hb by (by eapply lookup_lt_Some). simpl. done.
    - by rewrite list_lookup_insert_ne. }
  assert (forall x, pv (<[i := b']> bs) x = pv bs x) as Ep.
  { intros x. unfold pv. destruct (decide (x = i)) as [->|].
    - rewrite list_lookup_insert_eq, Hb by (by eapply lookup_lt_Some). simpl. done.
    - by rewrite list_lookup_insert_ne. }
  split; [rewrite En; eapply path_ext; [|exact Hf]; intros; apply En|].
  split; [rewrite Ep; eapply path_ext; [|exact Hbk]; intros; apply Ep|]. done.
Qed.

(** A buffer is replaced, and possibly one block of the disk: [d'] is the new disk. *)
Lemma cinv_setb s l held held' i b b' d' w' : cinv s l held -> (i < NBUF)%nat -> bat s i b ->
  b_next b' = b_next b -> b_prev b' = b_prev b -> (forall j, j <> i -> j ∈ held' <-> j ∈ held) ->
  length d' = length (bs_disk s) ->
  (forall j c, j <> i -> (j < NBUF)%nat -> bat s j c -> b_flags c = 2 -> j ∉ held ->
     nth (Z.to_nat (b_blockno c)) d' [] = disk_at s (b_blockno c)) ->
  (forall j c blk, j <> i -> (j < NBUF)%nat -> bat s j c -> holds blk b' = true -> holds blk c = true -> False) ->
  let s' := setb i b' (mkBst d' w' (bs_lock s) (bs_bufs s) (bs_pid s)) in
  buf_ok s' held' i b' -> cinv s' l held'.
Proof.
  intros [Hlen Hlock Hlru Hheld Hbuf Huniq] Hi Hb Hn Hp Hh Hd Hcl Hu s' Hok. constructor; simpl.
  - by rewrite length_insert.
  - done.
  - by eapply lru_insert.
  - intros j Hj. destruct (decide (j = i)) as [->|]; [done|]. by apply Hheld, Hh.
  - intros j c Hj Hc. destruct (decide (j = i)) as [->|Hne].
    + unfold s' in Hc. unfold bat in Hc. simpl in Hc. rewrite list_lookup_insert_eq in Hc by (by eapply lookup_lt_Some). by simplify_eq.
    + unfold s', bat in Hc. simpl in Hc. rewrite list_lookup_insert_ne in Hc by done. destruct (Hbuf j c Hj Hc) as [H1 H2 H3 H4 H5 H6].
      constructor; try done.
      * destruct (decide (j ∈ held)) as [Hx|Hx].
        -- by rewrite decide_True by (by apply Hh).
        -- by rewrite decide_False by (by rewrite Hh).
      * simpl. by rewrite Hd.
      * intros Hf Hnh. rewrite Hh in Hnh by done. rewrite H6 by done. symmetry. by eapply Hcl.
  - intros x y c d blk Hx Hy Hc Hdd Hhc Hhd. unfold s', bat in Hc, Hdd. simpl in Hc, Hdd. apply lookup_lt_Some in Hb as Hbl.
    destruct (decide (x = i)) as [->|Hxi], (decide (y = i)) as [->|Hyi]; [done|..].
    + rewrite list_lookup_insert_eq in Hc by done. rewrite list_lookup_insert_ne in Hdd by done. simplify_eq. by destruct (Hu y d blk).
    + rewrite list_lookup_insert_eq in Hdd by done. rewrite list_lookup_insert_ne in Hc by done. simplify_eq. by destruct (Hu x c blk).
    + rewrite list_lookup_insert_ne in Hc, Hdd by done. by eapply Huniq.
Qed.

Lemma buf_ok_ext s s' held i b : bs_disk s' = bs_disk s -> buf_ok s held i b -> buf_ok s' held i b.
Proof.
  intros E [H1 H2 H3 H4 H5 H6]. constructor; try done; [by rewrite E|]. unfold disk_at. by rewrite E.
Qed.

Lemma cinv_setb_same s l held held' i b b' : cinv s l held -> (i < NBUF)%nat -> bat s i b ->
  b_next b' = b_next b -> b_prev b' = b_prev b -> (forall j, j <> i -> j ∈ held' <-> j ∈ held) ->
  (forall j c blk, j <> i -> (j < NBUF)%nat -> bat s j c -> holds blk b' = true -> holds blk c = true -> False) ->
  buf_ok s held' i b' -> cinv (setb i b' s) l held'.
Proof.
  intros Hinv Hi Hb Hn Hp Hh Hu Hok.
  pose proof (cinv_setb s l held held' i b b' (bs_disk s) (bs_writes s) Hinv Hi Hb Hn Hp Hh eq_refl) as H.
  destruct s as [d w k bs p]. apply H; [done|done|]. eapply buf_ok_ext; [|exact Hok]. done.
Qed.

(** What the code that runs may rely on across an operation. *)
Record same_disk (s s' : bst) : Prop := {
  sd_disk : bs_disk s' = bs_disk s;
  sd_writes : bs_writes s' = bs_writes s;
  sd_pid : bs_pid s' = bs_pid s }.

(** The dirty blocks are [D]. *)
Definition pinned (s : bst) (D : list Z) : Prop :=
  forall blk, blk ∈ D <-> exists i b, (i < NBUF)%nat /\ bat s i b /\ holds blk b = true /\ b_flags b = 6.

Lemma view_change s s' l l' held held' (P : Z -> Prop) :
  cinv s l held -> cinv s' l' held' ->
  (forall i b blk, ~ P blk -> (i < NBUF)%nat -> bat s' i b -> holds blk b = true -> b_flags b <> 0 ->
     (exists b0, bat s i b0 /\ holds blk b0 = true /\ b_flags b0 <> 0 /\ b_data b0 = b_data b) \/ b_data b = view s blk) ->
  (forall i b blk, ~ P blk -> (i < NBUF)%nat -> bat s i b -> holds blk b = true -> b_flags b <> 0 ->
     (exists b', bat s' i b' /\ holds blk b' = true /\ b_flags b' <> 0) \/ b_data b = disk_at s blk) ->
  (forall blk, ~ P blk -> disk_at s' blk = disk_at s blk) ->
  forall blk, ~ P blk -> view s' blk = view s blk.
Proof.
  intros Hi Hi' Hfw Hbw Hd blk HP.
  destruct (view_cases s' l' held' Hi' blk) as [(i & b & Hlt & Hb & Hh & Hf & ->)|[Hn ->]].
  - destruct (Hfw i b blk HP Hlt Hb Hh Hf) as [(b0 & Hb0 & Hh0 & Hf0 & <-)|E]; [|done].
    symmetry. by eapply (view_cached s l held Hi i b0).
  - rewrite Hd by done. destruct (view_cases s l held Hi blk) as [(i & b & Hlt & Hb & Hh & Hf & ->)|[_ ->]]; [|done].
    destruct (Hbw i b blk HP Hlt Hb Hh Hf) as [(b' & Hb' & Hh' & Hf')|E]; [|done].
    destruct Hf'. by eapply Hn.
Qed.

(** bread of a cached block: the buffer is locked and its data is the view. *)
Record bread_post (s : bst) (l held : list nat) (D : list Z) (blk : Z) (i : nat) (s' : bst) : Prop := {
  br_buf : exists b, bat s' i b /\ b_dev b = 1 /\ b_blockno b = blk /\ b_data b = view s blk /\
    b_flags b = (if decide (blk ∈ D) then 6 else 2);
  br_new : i ∉ held;
  br_inv : cinv s' l (i :: held);
  br_view x : view s' x = view s x;
  br_disk : same_disk s s';
  br_pin : pinned s' D;
  br_frame j : j <> i -> bs_bufs s' !! j = bs_bufs s !! j }.

Definition not_held (s : bst) (held : list nat) (blk : Z) : Prop :=
  forall i b, i ∈ held -> bat s i b -> b_blockno b <> blk.

Lemma pinned_flags s l held D i b blk : cinv s l held -> pinned s D -> (i < NBUF)%nat -> bat s i b -> holds blk b = true ->
  b_flags b = 6 <-> blk ∈ D.
Proof.
  intros Hinv Hpin Hi Hb Hh. rewrite (Hpin blk). split.
  - intros Hf. by exists i, b.
  - intros (j & c & Hj & Hc & Hhc & Hf). assert (i = j) as <- by (by eapply (ci_uniq s l held Hinv)).
    unfold bat in Hb, Hc. congruence.
Qed.

(** Two states whose buffers agree up to locks, counts and links. *)
Definition same_data (s s' : bst) : Prop :=
  forall i, (i < NBUF)%nat -> (fun b => (b_flags b, b_dev b, b_blockno b, b_data b)) <$> bs_bufs s' !! i
    = (fun b => (b_flags b, b_dev b, b_blockno b, b_data b)) <$> bs_bufs s !! i.

Lemma same_data_bat s s' i b : same_data s s' -> (i < NBUF)%nat -> bat s i b ->
  exists b', bat s' i b' /\ b_flags b' = b_flags b /\ b_dev b' = b_dev b /\ b_blockno b' = b_blockno b /\ b_data b' = b_data b.
Proof.
  intros Hs Hi Hb. specialize (Hs i Hi). unfold bat in *. rewrite Hb in Hs. destruct (bs_bufs s' !! i) as [b'|]; [|done].
  exists b'. simpl in Hs. naive_solver.
Qed.

Lemma same_data_sym s s' : same_data s s' -> same_data s' s.
Proof. intros Hs i Hi. symmetry. by apply Hs. Qed.

Lemma same_data_setb s i b b' : bat s i b -> b_flags b' = b_flags b -> b_dev b' = b_dev b -> b_blockno b' = b_blockno b ->
  b_data b' = b_data b -> same_data s (setb i b' s).
Proof.
  intros Hb H1 H2 H3 H4 j Hj. simpl. destruct (decide (j = i)) as [->|].
  - rewrite list_lookup_insert_eq by (by eapply lookup_lt_Some). unfold bat in Hb. rewrite Hb. simpl. congruence.
  - by rewrite list_lookup_insert_ne.
Qed.

Lemma same_data_pinned s s' D : same_data s s' -> pinned s D -> pinned s' D.
Proof.
  intros Hs Hp blk. rewrite (Hp blk). split; intros (i & b & Hi & Hb & Hh & Hf); exists i.
  - destruct (same_data_bat s s' i b Hs Hi Hb) as (b' & Hb' & Ef & Ed & En & _). exists b'. unfold holds in *. by rewrite Ed, En, Ef.
  - destruct (same_data_bat s' s i b (same_data_sym _ _ Hs) Hi Hb) as (b' & Hb' & Ef & Ed & En & _). exists b'. unfold holds in *. by rewrite Ed, En, Ef.
Qed.

Lemma same_data_view s s' l l' held held' : cinv s l held -> cinv s' l' held' -> same_data s s' ->
  bs_disk s' = bs_disk s -> forall blk, view s' blk = view s blk.
Proof.
  intros Hi Hi' Hs Hd blk. eapply (view_change s s' l l' held held' (fun _ => False)); try done; [| | |tauto].
  - intros j c y _ Hj Hc Hy Hf. left. destruct (same_data_bat s' s j c (same_data_sym _ _ Hs) Hj Hc) as (b' & Hb' & Ef & Ed & En & Edt).
    exists b'. unfold holds in *. by rewrite Ed, En, Ef.
  - intros j c y _ Hj Hc Hy Hf. left. destruct (same_data_bat s s' j c Hs Hj Hc) as (b' & Hb' & Ef & Ed & En & Edt).
    exists b'. unfold holds in *. by rewrite Ed, En, Ef.
  - intros y _. unfold disk_at. by rewrite Hd.
Qed.

Section specs.
Context (s : bst) (l held : list nat) (D : list Z) (Hinv : cinv s l held) (Hpin : pinned s D).

Lemma bread_cached blk i b : (i < NBUF)%nat -> bat s i b -> holds blk b = true -> i ∉ held ->
  wp (bread 1 blk) (bread_post s l held D blk) s.
Proof.
  intros Hi Hb Hh Hnh. destruct (ci_buf s l held Hinv i b Hi Hb) as [Hfl Hlk Hhe Hdev Hrg Hcl].
  rewrite decide_False in Hhe by done. destruct Hhe as [Hrc Hun]. apply holds_true in Hh as Hh'. destruct Hh' as [Hd Hbk].
  set (b' := set_b_lock (locked_by (bs_pid s) (b_lock b)) (set_b_refcnt 1 b)).
  assert (b_flags b <> 0) as Hf0 by (by apply Hdev).
  assert (bread 1 blk s = Ret i (setb i b' s)) as E.
  { unfold bread, bind. rewrite (bget_cached s l held Hinv blk i b) by done. erewrite getb_run by (by eapply (bat_setb i b)).
    assert (has (b_flags b) B_VALID = true) as Hv.
    { change (valid b = true). rewrite flags_valid by done. by rewrite (proj2 (Z.eqb_neq _ _) Hf0). }
    simpl. by rewrite Hv. }
  assert (cinv (setb i b' s) l (i :: held)) as Hinv'.
  { eapply (cinv_setb_same s l held (i :: held) i b b'); try done.
    - intros j Hj. rewrite elem_of_cons. naive_solver.
    - intros j c x Hj Hjl Hc Hx Hcx. apply Hj. by eapply (ci_uniq s l held Hinv j i c b x).
    - constructor; try done; [by rewrite decide_True by (by left)|]. intros _ []. by left. }
  eapply wp_intro; [exact E|]. constructor.
  - exists b'. split; [by eapply bat_setb|]. split; [done|]. split; [done|]. split.
    + simpl. symmetry. by eapply (view_cached s l held Hinv i b).
    + simpl. pose proof (pinned_flags s l held D i b blk Hinv Hpin Hi Hb Hh) as Hp. case_decide; naive_solver.
  - done.
  - done.
  - apply (same_data_view s _ l l held (i :: held)); try done. by eapply same_data_setb.
  - done.
  - eapply same_data_pinned; [|done]. by eapply same_data_setb.
  - intros j Hj. simpl. by apply list_lookup_insert_ne.
Qed.

(** bread of a block that is not cached. *)
Lemma bread_uncached blk : 0 <= blk < Z.of_nat (length (bs_disk s)) ->
  (forall j c, (j < NBUF)%nat -> bat s j c -> holds blk c = false) ->
  (exists i b, (i < NBUF)%nat /\ bat s i b /\ free_buf b = true) ->
  wp (bread 1 blk) (bread_post s l held D blk) s.
Proof.
  intros Hrg Hno (i0 & b0 & Hi0 & Hb0 & Hf0).
  destruct (lru_last_free s l held Hinv i0 b0 Hi0 Hb0 Hf0) as (l1 & i & l2 & b & El & Hb & Hfree & Hrest).
  assert (i < NBUF)%nat as Hi.
  { apply (proj2 (proj2 (proj2 (ci_lru s l held Hinv)))). rewrite El. apply elem_of_app. right. by left. }
  destruct (ci_buf s l held Hinv i b Hi Hb) as [Hfl Hlk Hhe Hdev Hrgb Hcl].
  pose proof Hfree as Hfr. unfold free_buf in Hfr. apply andb_true_iff in Hfr as [Hrc%Z.eqb_eq Hdt%negb_true_iff].
  assert (i ∉ held) as Hnh by (intros Hin; rewrite decide_True in Hhe by done; lia).
  rewrite flags_dirty in Hdt by done. apply Z.eqb_neq in Hdt.
  set (b1 := set_b_lock (locked_by (bs_pid s) (b_lock b)) (set_b_refcnt 1 (set_b_flags 0 (set_b_blockno blk (set_b_dev 1 b))))).
  set (b' := set_b_flags 2 (set_b_data (disk_at s blk) b1)).
  assert (bread 1 blk s = Ret i (setb i b' s)) as E.
  { unfold bread, bind. rewrite (bget_recycled s l held Hinv blk l1 i l2 b) by done.
    erewrite getb_run by (by eapply (bat_setb i b)). simpl.
    rewrite (iderw_read i b1); [|by eapply bat_setb|done..]. by rewrite setb_setb. }
  assert (cinv (setb i b' s) l (i :: held)) as Hinv'.
  { eapply (cinv_setb_same s l held (i :: held) i b b'); try done.
    - intros j Hj. rewrite elem_of_cons. naive_solver.
    - intros j c x Hj Hjl Hc Hx Hcx. apply holds_true in Hx as [_ Hx]. simpl in Hx. subst x. by rewrite (Hno j c Hjl Hc) in Hcx.
    - constructor; simpl; try (by auto). by rewrite decide_True by (by left). }
  assert (view s blk = disk_at s blk) as Ev.
  { apply view_uncached. intros j c Hj Hc Hx. by rewrite (Hno j c Hj Hc) in Hx. }
  assert (blk ∉ D) as HD.
  { intros (j & c & Hj & Hc & Hx & _)%Hpin. by rewrite (Hno j c Hj Hc) in Hx. }
  eapply wp_intro; [exact E|]. constructor.
  - exists b'. split; [by eapply bat_setb|]. split; [done|]. split; [done|]. split; [done|]. by rewrite decide_False.
  - done.
  - done.
  - intros x. eapply (view_change s _ l l held (i :: held) (fun _ => False)); try done; [..|tauto].
    + intros j c y _ Hj Hc Hy Hf. destruct (decide (j = i)) as [->|Hne].
      * right. assert (c = b') as -> by (eapply (inj Some); rewrite <- Hc; by apply (bat_setb i b b')).
        apply holds_true in Hy as [_ <-]. simpl. done.
      * left. exists c. split; [by eapply bat_setb_ne|]. done.
    + intros j c y _ Hj Hc Hy Hf. destruct (decide (j = i)) as [->|Hne].
      * right. assert (c = b) as -> by (unfold bat in *; congruence). apply holds_true in Hy as [_ <-]. apply Hcl; [|done]. destruct Hfl as [?|[?|?]]; done.
      * left. exists c. split; [by eapply bat_setb_ne|]. done.
  - done.
  - intros y. rewrite (Hpin y). split; intros (j & c & Hj & Hc & Hy & Hf); exists j, c.
    + split; [done|]. split; [|done]. apply bat_setb_ne; [|done]. intros ->. unfold bat in *. congruence.
    + split; [done|]. split; [|done]. eapply bat_setb_ne; [|exact Hc]. intros ->.
      assert (c = b') as -> by (eapply (inj Some); rewrite <- Hc; by apply (bat_setb i b b')). done.
  - intros j Hj. simpl. by apply list_lookup_insert_ne.
Qed.

(** bread: the block is not held, and it is cached or a buffer is free. *)
Lemma bread_spec blk : 0 <= blk < Z.of_nat (length (bs_disk s)) -> not_held s held blk ->
  (exists i b, (i < NBUF)%nat /\ bat s i b /\ (free_buf b = true \/ holds blk b = true)) ->
  wp (bread 1 blk) (bread_post s l held D blk) s.
Proof.
  intros Hrg Hnh Hav.
  destruct (list_first (fun i => match bs_bufs s !! i with Some b => holds blk b | None => false end) l)
    as [(l1 & i & l2 & El & Hi & _)|Hno].
  - destruct (bs_bufs s !! i) as [b|] eqn:Hb; [|done].
    assert (i < NBUF)%nat as Hlt.
    { apply (proj2 (proj2 (proj2 (ci_lru s l held Hinv)))). rewrite El. apply elem_of_app. right. by left. }
    apply (bread_cached blk i b); [done|done|done|]. intros Hin. apply (Hnh i b Hin Hb). by apply holds_true in Hi as [_ ?].
  - assert (forall j c, (j < NBUF)%nat -> bat s j c -> holds blk c = false) as Hno'.
    { intros j c Hj Hc. specialize (Hno j). unfold bat in Hc. rewrite Hc in Hno. apply Hno.
      by apply (proj2 (proj2 (proj2 (ci_lru s l held Hinv)))). }
    apply bread_uncached; [done|done|]. destruct Hav as (i & b & Hi & Hb & [Hf|Hh]); [by exists i, b|].
    by rewrite (Hno' i b Hi Hb) in Hh.
Qed.

End specs.

(** *** Writing *)

Lemma bst_eta s : mkBst (bs_disk s) (bs_writes s) (bs_lock s) (bs_bufs s) (bs_pid s) = s.
Proof. by destruct s. Qed.

Section held.
Context (s : bst) (l held : list nat) (D : list Z) (Hinv : cinv s l held) (Hpin : pinned s D).
Context (i : nat) (b : buf) (Hheld : i ∈ held) (Hb : bat s i b).

Lemma held_lt : (i < NBUF)%nat.
Proof. by eapply ci_held. Qed.

Lemma held_facts : b_dev b = 1 /\ (b_flags b = 2 \/ b_flags b = 6) /\ sl_locked (b_lock b) = true /\ sl_lk (b_lock b) = false /\
  b_refcnt b = 1 /\ 0 <= b_blockno b < Z.of_nat (length (bs_disk s)) /\ holds (b_blockno b) b = true.
Proof.
  destruct (ci_buf s l held Hinv i b held_lt Hb) as [Hfl Hlk Hhe Hdev Hrg _]. rewrite decide_True in Hhe by done.
  destruct Hhe as (? & ? & Hd & ?). repeat split; try done; try apply Hrg; try done; [tauto|]. by apply holds_true.
Qed.

(** The holder replaces data and flags of its buffer (and the disk block of it). *)
Lemma held_update b' d' w' :
  b_next b' = b_next b -> b_prev b' = b_prev b -> b_lock b' = b_lock b -> b_refcnt b' = b_refcnt b ->
  b_dev b' = 1 -> b_blockno b' = b_blockno b -> b_flags b' = 2 \/ b_flags b' = 6 ->
  length d' = length (bs_disk s) -> (forall x, x <> Z.to_nat (b_blockno b) -> d' !! x = bs_disk s !! x) ->
  let s' := setb i b' (mkBst d' w' (bs_lock s) (bs_bufs s) (bs_pid s)) in
  cinv s' l held /\ (forall x, 0 <= x -> view s' x = if decide (x = b_blockno b) then b_data b' else view s x) /\
  (forall D', (forall x, x ∈ D' <-> (x = b_blockno b /\ b_flags b' = 6) \/ (x <> b_blockno b /\ x ∈ D)) -> pinned s' D').
Proof.
  intros Hn Hp Hk Hr Hd Hbk Hfl Hlen Hdisk s'. destruct held_facts as (Hdev & Hflb & Hlkd & Hlk & Hrc & Hrg & Hh).
  pose proof held_lt as Hi.
  assert (forall x, 0 <= x -> x <> b_blockno b -> nth (Z.to_nat x) d' [] = disk_at s x) as Hdk.
  { intros x Hx Hne. unfold disk_at. rewrite !nth_lookup. by rewrite Hdisk by lia. }
  assert (cinv s' l held) as Hinv'.
  { eapply (cinv_setb s l held held i b b' d' w'); try done.
    - intros j c Hj Hjl Hc Hf2 Hjh. destruct (ci_buf s l held Hinv j c Hjl Hc) as [_ _ _ Hdv Hrgj _].
      assert (b_dev c = 1) as Hdc by (apply Hdv; lia). apply Hdk; [apply Hrgj, Hdc|]. intros E. apply Hj.
      apply (ci_uniq s l held Hinv j i c b (b_blockno b)); try done. by apply holds_true.
    - intros j c blk Hj Hjl Hc Hx Hcx. apply holds_true in Hx as [_ Hx]. rewrite Hbk in Hx. subst blk. apply Hj.
      by apply (ci_uniq s l held Hinv j i c b (b_blockno b)).
    - constructor; simpl; rewrite ?Hk, ?Hr, ?Hd, ?Hbk, ?Hlen; try done.
      + tauto.
      + rewrite decide_True by done. split; [done|]. split; [done|]. split; [done|]. destruct Hfl; lia.
      + split; [done|]. destruct Hfl; lia. }
  assert (bat s' i b') as Hb' by (by apply (bat_setb i b)).
  assert (forall j c, j <> i -> bat s' j c <-> bat s j c) as Hne by (intros; unfold s', bat; simpl; by rewrite list_lookup_insert_ne).
  split; [done|]. split.
  - intros x Hx0. destruct (decide (x = b_blockno b)) as [->|Hx].
    { eapply (view_cached s' l held Hinv' i b'); [done|done|by apply holds_true|lia]. }
    eapply (view_change s s' l l held held (fun y => y = b_blockno b \/ y < 0)); try done; [..|lia].
    + intros j c y Hy Hj Hc Hyc Hf. left. exists c. destruct (decide (j = i)) as [->|]; [|by rewrite <- Hne].
      assert (c = b') as -> by (unfold bat in *; congruence). apply holds_true in Hyc as [_ Hyc]. rewrite Hbk in Hyc. subst y. tauto.
    + intros j c y Hy Hj Hc Hyc Hf. left. exists c. destruct (decide (j = i)) as [->|]; [|by rewrite Hne].
      assert (c = b) as -> by (unfold bat in *; congruence). apply holds_true in Hyc as [_ Hyc]. subst y. tauto.
    + intros y Hy. apply Hdk; lia.
  - intros D' HD' x. rewrite HD'. split.
    + intros [[-> Hf]|[Hx HD]]; [exists i, b'; split; [done|]; split; [done|]; split; [by apply holds_true|done]|].
      apply Hpin in HD as (j & c & Hj & Hc & Hxc & Hf). exists j, c. split; [done|]. split; [|done]. apply Hne; [|done].
      intros ->. assert (c = b) as -> by (unfold bat in *; congruence). apply holds_true in Hxc as [_ Hxc]. done.
    + intros (j & c & Hj & Hc & Hxc & Hf). destruct (decide (j = i)) as [->|Hji].
      * left. assert (c = b') as -> by (unfold bat in *; congruence). apply holds_true in Hxc as [_ Hxc]. split; [congruence|done].
      * right. apply Hne in Hc; [|done]. split; [|apply Hpin; by exists j, c]. intros ->. apply Hji.
        by apply (ci_uniq s l held Hinv j i c b (b_blockno b)).
Qed.

(** The holder writes into its buffer. *)
Lemma set_data_spec d : let s' := setb i (set_b_data d b) s in
  updb i (set_b_data d) s = Ret tt s' /\ cinv s' l held /\ pinned s' D /\
  forall x, 0 <= x -> view s' x = if decide (x = b_blockno b) then d else view s x.
Proof.
  destruct held_facts as (Hdev & Hflb & _ & _ & _ & _ & Hh).
  destruct (held_update (set_b_data d b) (bs_disk s) (bs_writes s)) as (H1 & H2 & H3); try done.
  rewrite bst_eta in H1, H2, H3. split; [by apply updb_run|]. split; [exact H1|]. split; [|exact H2]. apply H3.
  intros x. pose proof (pinned_flags _ l held D i b _ Hinv Hpin held_lt Hb Hh) as Hpf. simpl. destruct (decide (x = b_blockno b)) as [->|]; tauto.
Qed.

(** log_write pins it. *)
Lemma pin_spec D' : (forall x, x ∈ D' <-> x = b_blockno b \/ x ∈ D) ->
  let s' := setb i (set_b_flags 6 b) s in
  updb i (fun b => set_b_flags (Z.lor (b_flags b) B_DIRTY) b) s = Ret tt s' /\ cinv s' l held /\ pinned s' D' /\
  forall x, 0 <= x -> view s' x = view s x.
Proof.
  intros HD'. destruct held_facts as (Hdev & Hflb & _ & _ & _ & _ & Hh).
  destruct (held_update (set_b_flags 6 b) (bs_disk s) (bs_writes s)) as (H1 & H2 & H3); try done; [by right|].
  split; [erewrite updb_run by done; by destruct Hflb as [-> | ->]|].
  assert (view s (b_blockno b) = b_data b) as Hv by (eapply (view_cached s l held Hinv i b); [apply held_lt|done|done|lia]).
  rewrite bst_eta in H1, H2, H3. split; [exact H1|]. split.
  - apply H3. intros x. rewrite HD'. simpl. destruct (decide (x = b_blockno b)); tauto.
  - intros x Hx. rewrite (H2 x Hx). simpl. by case_decide; [subst x|].
Qed.

(** bwrite: the disk block becomes the data of the buffer; the buffer is no longer pinned. *)
Lemma bwrite_spec : exists s', bwrite i s = Ret tt s' /\ cinv s' l held /\ bat s' i (set_b_flags 2 b) /\
  (forall j, j <> i -> bs_bufs s' !! j = bs_bufs s !! j) /\
  bs_disk s' = <[Z.to_nat (b_blockno b) := b_data b]> (bs_disk s) /\ bs_writes s' = (b_blockno b, b_data b) :: bs_writes s /\
  bs_pid s' = bs_pid s /\ pinned s' (filter (.≠ b_blockno b) D) /\ (forall x, 0 <= x -> view s' x = view s x).
Proof.
  destruct held_facts as (Hdev & Hflb & Hlkd & Hlk & Hrc & Hrg & Hh).
  exists (setb i (set_b_flags 2 b) (disk_write (b_blockno b) (b_data b) s)). split.
  { unfold bwrite, bind. rewrite (holding_run_buf i b), Hlkd by done. simpl. rewrite (updb_run i b) by done.
    assert (Z.lor (b_flags b) B_DIRTY = 6) as -> by (by destruct Hflb as [-> | ->]).
    erewrite iderw_write; [|by eapply bat_setb|done..]. unfold setb, disk_write, set_bs_bufs. simpl. by rewrite list_insert_insert_eq. }
  destruct (held_update (set_b_flags 2 b) (<[Z.to_nat (b_blockno b) := b_data b]> (bs_disk s)) ((b_blockno b, b_data b) :: bs_writes s))
    as (H1 & H2 & H3); try done; [by left|by rewrite length_insert|intros x Hx; by rewrite list_lookup_insert_ne|].
  split; [exact H1|]. split; [by apply (bat_setb i b)|]. split; [intros j Hj; simpl; by apply list_lookup_insert_ne|].
  split; [done|]. split; [done|]. split; [done|]. split.
  - apply H3. intros x. rewrite list_elem_of_filter. simpl. split; [tauto|]. intros [[_ ?]|?]; [done|tauto].
  - intros x Hx. refine (eq_trans (H2 x Hx) _). simpl. case_decide as E; [subst x|done]. symmetry.
    eapply (view_cached s l held Hinv i b); [apply held_lt|done|done|lia].
Qed.

End held.

(** *** Releasing *)

Lemma nx_alter_next v i bs j : (i < length bs)%nat -> nx (alter (set_b_next v) i bs) j = fupd (nx bs) i v j.
Proof.
  intros Hi. unfold nx, fupd. rewrite list_lookup_alter. destruct (decide (j = i)) as [->|].
  - rewrite decide_True by done. apply lookup_lt_is_Some in Hi as [b ->]. done.
  - by rewrite decide_False by congruence.
Qed.
Lemma pv_alter_prev v i bs j : (i < length bs)%nat -> pv (alter (set_b_prev v) i bs) j = fupd (pv bs) i v j.
Proof.
  intros Hi. unfold pv, fupd. rewrite list_lookup_alter. destruct (decide (j = i)) as [->|].
  - rewrite decide_True by done. apply lookup_lt_is_Some in Hi as [b ->]. done.
  - by rewrite decide_False by congruence.
Qed.
(** Other fields. *)
Lemma proj_alter {B} (g : buf -> B) (f : buf -> buf) (i : nat) (bs : list buf) (j : nat) : (forall b, g (f b) = g b) -> g <$> alter f i bs !! j = g <$> bs !! j.
Proof.
  intros Hg. rewrite list_lookup_alter. case_decide; [subst|done]. destruct (bs !! j) as [b|]; simpl; [by rewrite Hg|done].
Qed.
Lemma nx_alter_other f i bs j : (forall b, b_next (f b) = b_next b) -> nx (alter f i bs) j = nx bs j.
Proof. intros Hf. unfold nx. by rewrite (proj_alter b_next). Qed.
Lemma pv_alter_other f i bs j : (forall b, b_prev (f b) = b_prev b) -> pv (alter f i bs) j = pv bs j.
Proof. intros Hf. unfold pv. by rewrite (proj_alter b_prev). Qed.

Lemma lastd_rev a l : lastd a (rev l) = hd a l.
Proof. destruct l as [|x l]; [done|]. simpl. apply lastd_app. Qed.

(** [i] taken from between [p] and [n], and put between the head and [q]. *)
Definition relink (i p n q : nat) (bs : list buf) : list buf :=
  alter (set_b_next i) HEAD (alter (set_b_prev i) q (alter (set_b_prev HEAD) i (alter (set_b_next q) i
    (alter (set_b_next n) p (alter (set_b_prev p) n bs))))).

(** What relinking does not touch. *)
Definition meta (b : buf) := (b_flags b, b_dev b, b_blockno b, b_lock b, b_refcnt b, b_data b).

Lemma relink_meta i p n q bs j : meta <$> relink i p n q bs !! j = meta <$> bs !! j.
Proof. unfold relink. by rewrite !(proj_alter meta). Qed.

Lemma path_hd f a l z : path f a l z -> a = hd z l.
Proof. destruct l; simpl; [done|by intros [? _]]. Qed.

Lemma NoDup_rev' (l : list nat) : NoDup l -> NoDup (rev l).
Proof. intros H. by apply NoDup_ListNoDup, NoDup_rev, NoDup_ListNoDup. Qed.
Lemma elem_of_rev' (l : list nat) x : x ∈ rev l <-> x ∈ l.
Proof. by rewrite !list_elem_of_In, <- in_rev. Qed.

(** The neighbours of a node, forwards and backwards. *)
Lemma dlist_neighbours f g i l1 l2 H :
  path f (f H) (l1 ++ i :: l2) H -> path g (g H) (rev (l1 ++ i :: l2)) H ->
  g i = lastd H l1 /\ f i = lastd H (rev l2).
Proof.
  intros Hf Hg. rewrite rev_app_distr in Hg. simpl in Hg. rewrite <- app_assoc in Hg. simpl in Hg. split.
  - apply path_app in Hg as [Hg _]. apply path_hd in Hg. rewrite <- (rev_involutive l1) at 1. by rewrite lastd_rev.
  - apply path_app in Hf as [Hf _]. apply path_hd in Hf. by rewrite lastd_rev.
Qed.

Lemma dlist_move f g i l1 l2 H : NoDup (H :: l1 ++ i :: l2) ->
  path f (f H) (l1 ++ i :: l2) H -> path g (g H) (rev (l1 ++ i :: l2)) H ->
  let q := hd H (l1 ++ l2) in
  q = fupd f (g i) (f i) H /\
  (let f' := fupd (fupd (fupd f (g i) (f i)) i q) H i in path f' (f' H) (i :: l1 ++ l2) H) /\
  (let g' := fupd (fupd (fupd g (f i) (g i)) i H) q i in path g' (g' H) (rev (i :: l1 ++ l2)) H).
Proof.
  intros Hnd Hf Hg q. destruct (dlist_neighbours f g i l1 l2 H Hf Hg) as [Eg Ef].
  assert (l1 ++ i :: l2 ≡ₚ i :: l1 ++ l2) as HP by (by rewrite Permutation_middle).
  pose proof Hnd as Hnd'. rewrite HP in Hnd'. apply NoDup_cons in Hnd' as [HH Hnd']. apply NoDup_cons in Hnd' as [Hi Hnd'].
  apply not_elem_of_cons in HH as [HiH HH].
  assert (NoDup (H :: rev l2 ++ i :: rev l1)) as HndR.
  { assert (rev l2 ++ i :: rev l1 = rev (l1 ++ i :: l2)) as -> by (rewrite rev_app_distr; simpl; by rewrite <- app_assoc).
    apply NoDup_cons in Hnd as [Hn1 Hn2]. constructor; [by rewrite elem_of_rev'|by apply NoDup_rev']. }
  pose proof (path_unlink _ _ _ _ _ _ Hnd Hf) as Uf. rewrite <- Eg in Uf.
  assert (path g (g H) (rev l2 ++ i :: rev l1) H) as Hg'.
  { rewrite rev_app_distr in Hg. simpl in Hg. by rewrite <- app_assoc in Hg. }
  pose proof (path_unlink _ _ _ _ _ _ HndR Hg') as Ug. rewrite <- Ef, <- rev_app_distr in Ug.
  assert (q = fupd f (g i) (f i) H) as Eq by (apply path_hd in Uf; by rewrite Uf).
  split; [done|]. split.
  - rewrite Eq. by apply path_front.
  - assert (lastd H (rev (l1 ++ l2)) = q) as <- by apply lastd_rev. simpl.
    apply path_back; [|by rewrite elem_of_rev'|done|done]. constructor; [by rewrite elem_of_rev'|by apply NoDup_rev'].
Qed.

Lemma relink_lru bs i l1 l2 : (length bs = S NBUF)%nat -> lru bs (l1 ++ i :: l2) ->
  let q := hd HEAD (l1 ++ l2) in
  q = fupd (nx bs) (pv bs i) (nx bs i) HEAD /\ lru (relink i (pv bs i) (nx bs i) q bs) (i :: l1 ++ l2).
Proof.
  intros Hlen (Hf & Hbk & Hnd & Hin) q.
  assert (forall x, x ∈ l1 ++ i :: l2 -> (x < S NBUF)%nat) as Hlt by (intros x Hx%Hin; lia).
  assert (NoDup (HEAD :: l1 ++ i :: l2)) as HndH by (constructor; [intros ?%Hin; unfold HEAD in *; lia|done]).
  destruct (dlist_move _ _ i l1 l2 HEAD HndH Hf Hbk) as (Eq & Pf & Pb). fold q in Eq, Pf, Pb.
  destruct (dlist_neighbours _ _ i l1 l2 HEAD Hf Hbk) as [Ep En]. split; [done|].
  set (p := pv bs i) in *. set (n := nx bs i) in *.
  assert (HEAD < S NBUF)%nat as HH by (unfold HEAD; lia).
  assert (i < S NBUF)%nat as Hi by (apply Hlt, elem_of_app; right; by left).
  assert (p < S NBUF)%nat as Hp.
  { rewrite Ep. destruct (lastd_elem HEAD l1) as [-> |Hx]; [done|]. apply Hlt, elem_of_app. by left. }
  assert (n < S NBUF)%nat as Hn.
  { rewrite En. destruct (lastd_elem HEAD (rev l2)) as [-> |Hx]; [done|]. apply Hlt, elem_of_app. right. right. by apply elem_of_rev'. }
  assert (q < S NBUF)%nat as Hq.
  { unfold q. destruct (l1 ++ l2) as [|x r] eqn:E; simpl; [done|]. apply Hlt. assert (x ∈ l1 ++ l2) as Hx by (rewrite E; by left).
    rewrite elem_of_app, elem_of_cons. apply elem_of_app in Hx. tauto. }
  assert (forall x, nx (relink i p n q bs) x = fupd (fupd (fupd (nx bs) p n) i q) HEAD i x) as Enx.
  { intros x. unfold relink. rewrite nx_alter_next by (rewrite !length_alter; lia).
    unfold fupd at 1 2. case_decide; [done|]. rewrite !(nx_alter_other (set_b_prev _)) by done.
    rewrite nx_alter_next by (rewrite !length_alter; lia). unfold fupd at 1 2. case_decide; [done|].
    rewrite nx_alter_next by (rewrite !length_alter; lia). unfold fupd. case_decide; [done|]. by apply nx_alter_other. }
  assert (forall x, pv (relink i p n q bs) x = fupd (fupd (fupd (pv bs) n p) i HEAD) q i x) as Epv.
  { intros x. unfold relink. rewrite (pv_alter_other (set_b_next _)) by done.
    rewrite pv_alter_prev by (rewrite !length_alter; lia). unfold fupd at 1 2. case_decide; [done|].
    rewrite pv_alter_prev by (rewrite !length_alter; lia). unfold fupd at 1 2. case_decide; [done|].
    rewrite !(pv_alter_other (set_b_next _)) by done. by rewrite pv_alter_prev by lia. }
  split; [rewrite Enx; eapply path_ext; [intros; apply Enx|exact Pf]|].
  split; [rewrite Epv; eapply path_ext; [intros; apply Epv|exact Pb]|].
  assert (l1 ++ i :: l2 ≡ₚ i :: l1 ++ l2) as HP by (by rewrite Permutation_middle).
  split; [by rewrite <- HP|]. intros x. by rewrite <- HP.
Qed.

Definition unlocked (k : sleeplock) : sleeplock := mkSleeplock false false (sl_name k) 0 (S (sl_wakeups k)).

Lemma updb_alter x f s : (x < length (bs_bufs s))%nat -> updb x f s = Ret tt (set_bs_bufs (alter f x (bs_bufs s)) s).
Proof. intros [b Hb]%lookup_lt_is_Some. unfold updb. rewrite Hb. by rewrite (alter_insert _ _ _ _ Hb). Qed.

Lemma getb_next x s : (x < length (bs_bufs s))%nat ->
  exists h, getb x s = Ret h s /\ b_next h = nx (bs_bufs s) x /\ b_prev h = pv (bs_bufs s) x.
Proof. intros [b Hb]%lookup_lt_is_Some. exists b. unfold getb, nx, pv. by rewrite Hb. Qed.

(** The pointer writes of brelse. *)
Lemma relink_run i s l1 l2 : length (bs_bufs s) = S NBUF -> lru (bs_bufs s) (l1 ++ i :: l2) -> i <> HEAD ->
  let p := pv (bs_bufs s) i in let n := nx (bs_bufs s) i in
  (let! b := getb i in
   updb (b_next b) (set_b_prev (b_prev b)) ;;;
   let! b := getb i in
   updb (b_prev b) (set_b_next (b_next b)) ;;;
   link_front i ;;;
   link_head i) s = Ret tt (set_bs_bufs (relink i p n (hd HEAD (l1 ++ l2)) (bs_bufs s)) s).
Proof.
  intros Hlen Hlru HiH p n. destruct (relink_lru (bs_bufs s) i l1 l2 Hlen Hlru) as [Eq _]. set (q := hd HEAD (l1 ++ l2)) in *.
  destruct Hlru as (Hf & Hbk & _ & Hin). destruct (dlist_neighbours _ _ i l1 l2 HEAD Hf Hbk) as [Ep En].
  fold p n in Ep, En. fold p n in Eq.
  assert (forall x, x ∈ HEAD :: l1 ++ i :: l2 -> (x < S NBUF)%nat) as Hlt by (intros x [-> |Hx%Hin]%elem_of_cons; unfold HEAD; lia).
  assert (i < S NBUF)%nat as Hi by (apply Hlt; right; apply elem_of_app; right; by left).
  assert (HEAD < S NBUF)%nat as HH by (unfold HEAD; lia).
  assert (p < S NBUF)%nat as Hp.
  { apply Hlt. rewrite Ep. destruct (lastd_elem HEAD l1) as [-> |Hx]; [by left|right; apply elem_of_app; by left]. }
  assert (n < S NBUF)%nat as Hn.
  { apply Hlt. rewrite En. destruct (lastd_elem HEAD (rev l2)) as [-> |Hx]; [by left|].
    right. apply elem_of_app. right. right. by apply elem_of_rev'. }
  assert (q < S NBUF)%nat as Hq.
  { apply Hlt. unfold q. destruct (l1 ++ l2) as [|x r] eqn:E; simpl; [by left|right]. assert (x ∈ l1 ++ l2) as Hx by (rewrite E; by left).
    rewrite elem_of_app, elem_of_cons. apply elem_of_app in Hx. tauto. }
  destruct s as [dk w k bs pid]. simpl in *. set (st := fun bs => mkBst dk w k bs pid).
  assert (forall bs' x, length bs' = S NBUF -> (x < S NBUF)%nat -> exists h, getb x (st bs') = Ret h (st bs') /\ b_next h = nx bs' x /\ b_prev h = pv bs' x) as Hget.
  { intros bs' x Hl Hx. apply (getb_next x (st bs')). simpl. lia. }
  assert (forall bs' x f, length bs' = S NBUF -> (x < S NBUF)%nat -> updb x f (st bs') = Ret tt (st (alter f x bs'))) as Hupd.
  { intros bs' x f Hl Hx. by rewrite updb_alter by (simpl; lia). }
  unfold link_front, link_head, bind. change (mkBst dk w k bs pid) with (st bs).
  destruct (Hget bs i) as (b & -> & -> & ->); [done|done|]. fold p n. rewrite Hupd by done.
  destruct (Hget (alter (set_b_prev p) n bs) i) as (b1 & -> & -> & ->); [by rewrite length_alter|done|].
  rewrite nx_alter_other, pv_alter_prev by (done || lia). fold p n.
  replace (fupd (pv bs) n p i) with p by (unfold fupd; by case_decide). rewrite Hupd by (rewrite ?length_alter; done).
  set (bs2 := alter (set_b_next n) p (alter (set_b_prev p) n bs)). assert (length bs2 = S NBUF) as Hl2 by (unfold bs2; by rewrite !length_alter).
  assert (nx bs2 HEAD = q) as Eq2.
  { unfold bs2. rewrite nx_alter_next by (rewrite length_alter; lia). rewrite Eq. unfold fupd. case_decide; [done|]. by apply nx_alter_other. }
  destruct (Hget bs2 HEAD) as (h & -> & -> & _); [done|done|]. rewrite Eq2, !Hupd by (rewrite ?length_alter; done).
  destruct (Hget (alter (set_b_prev HEAD) i (alter (set_b_next q) i bs2)) HEAD) as (h' & -> & -> & _); [by rewrite !length_alter|done|].
  rewrite nx_alter_other, nx_alter_next, fupd_ne, Eq2, !Hupd by (rewrite ?length_alter; done || lia). done.
Qed.

Lemma brelse_run s l held i b l1 l2 : cinv s l held -> i ∈ held -> bat s i b -> l = l1 ++ i :: l2 ->
  let bs := <[i := set_b_refcnt 0 (set_b_lock (unlocked (b_lock b)) b)]> (bs_bufs s) in
  brelse i s = Ret tt (set_bs_bufs (relink i (b_prev b) (b_next b) (hd HEAD (l1 ++ l2)) bs) s).
Proof.
  intros Hinv Hh Hb El bs. destruct (held_facts s l held Hinv i b Hh Hb) as (_ & _ & Hlkd & Hlk & Hrc & _ & _).
  pose proof (ci_held s l held Hinv i Hh) as Hi. pose proof (ci_lock s l held Hinv) as Hlock.
  set (b1 := set_b_lock (unlocked (b_lock b)) b). set (b2 := set_b_refcnt 0 b1). set (s2 := set_bs_lock true (setb i b2 s)).
  assert (bat s2 i b2) as Hb2 by (by apply (bat_setb i b)).
  pose proof (relink_run i s2 l1 l2) as Hrel. change (bs_bufs s2) with bs in Hrel.
  assert (nx bs i = b_next b /\ pv bs i = b_prev b) as [En Ep].
  { unfold nx, pv, bs. by rewrite list_lookup_insert_eq by (by eapply lookup_lt_Some). }
  rewrite En, Ep in Hrel. unfold bind at 1 in Hrel. rewrite (getb_run i b2) in Hrel by done.
  unfold brelse. unfold bind at 1. rewrite (holding_run_buf i b), Hlkd by done. cbn [negb].
  unfold bind at 1. rewrite (on_lock_run i b _ tt (unlocked (b_lock b))); [|done|by destruct (b_lock b) as [k lk n p]; simpl in *; subst].
  unfold bind at 1, bcache_acquire, lift at 1, spin_acquire. simpl. rewrite Hlock.
  change (set_bs_lock true (setb i (set_b_lock (unlocked (b_lock b)) b) s)) with (setb i b1 (set_bs_lock true s)).
  unfold bind at 1. rewrite (updb_run i b1) by (by apply (bat_setb i b)). rewrite setb_setb.
  change (b_refcnt b1) with (b_refcnt b). rewrite Hrc. change (u32 (1 - 1)) with 0. change (set_b_refcnt 0 b1) with b2.
  change (setb i b2 (set_bs_lock true s)) with s2. unfold bind at 1. rewrite (getb_run i b2) by done. cbn [b_refcnt b2 set_b_refcnt Z.eqb when].
  unfold bind at 1. rewrite Hrel.
  - unfold bcache_release, lift. simpl. f_equal. destruct s. simpl in *. by subst.
  - unfold bs. rewrite length_insert. apply Hinv.
  - rewrite <- El. eapply lru_insert; [exact Hb|done|done|apply Hinv].
  - unfold HEAD. lia.
Qed.

Lemma filter_ne_id (l : list nat) i : i ∉ l -> filter (.≠ i) l = l.
Proof.
  induction l as [|x l IH]; intros H; [done|]. apply not_elem_of_cons in H as [H1 H2].
  rewrite filter_cons_True by done. by rewrite IH.
Qed.

Lemma filter_ne_split (l1 l2 : list nat) i : NoDup (l1 ++ i :: l2) -> filter (.≠ i) (l1 ++ i :: l2) = l1 ++ l2.
Proof.
  intros Hnd. apply NoDup_app in Hnd as (_ & Hd & Hnd). apply NoDup_cons in Hnd as [Hn2 _].
  rewrite filter_app, filter_cons_False by tauto. rewrite !filter_ne_id; [done|done|]. intros Hx. destruct (Hd i Hx). by left.
Qed.

(** The invariant after the release: [bs'] is [s]'s buffers but for the count and lock of [i], and the links. *)
Lemma cinv_release s l held i b bs' l' : cinv s l held -> i ∈ held -> bat s i b ->
  (b_flags b = 2 -> b_data b = disk_at s (b_blockno b)) ->
  (forall j, meta <$> bs' !! j = meta <$> <[i := set_b_refcnt 0 (set_b_lock (unlocked (b_lock b)) b)]> (bs_bufs s) !! j) ->
  length bs' = S NBUF -> lru bs' l' -> same_data s (set_bs_bufs bs' s) ->
  cinv (set_bs_bufs bs' s) l' (filter (.≠ i) held).
Proof.
  intros [Hlen Hlock Hlru Hheld Hbuf Huniq] Hh Hb Hcl Hmeta Hlen' Hl' Hsd. constructor; simpl; try done.
  - intros j [_ Hj]%list_elem_of_filter. auto.
  - intros j c Hj Hc. unfold bat in Hc. simpl in Hc. specialize (Hmeta j). rewrite Hc in Hmeta. simpl in Hmeta.
    destruct (decide (j = i)) as [->|Hne].
    + rewrite list_lookup_insert_eq in Hmeta by (by eapply lookup_lt_Some). injection Hmeta as E1 E2 E3 E4 E5 E6.
      destruct (Hbuf i b Hj Hb) as [H1 H2 H3 H4 H5 H6].
      constructor; rewrite ?E1, ?E2, ?E3, ?E4, ?E5, ?E6; simpl; try done; [by rewrite decide_False by (by intros [? _]%list_elem_of_filter)|].
      intros Hf _. by apply Hcl.
    + rewrite list_lookup_insert_ne in Hmeta by done. destruct (bs_bufs s !! j) as [c0|] eqn:Hc0; [|done].
      injection Hmeta as E1 E2 E3 E4 E5 E6. destruct (Hbuf j c0 Hj Hc0) as [H1 H2 H3 H4 H5 H6].
      assert (j ∈ filter (.≠ i) held <-> j ∈ held) as Hx by (rewrite list_elem_of_filter; tauto).
      constructor; rewrite ?E1, ?E2, ?E3, ?E4, ?E5, ?E6; simpl; try done; [|by rewrite Hx].
      destruct (decide (j ∈ held)); [rewrite decide_True by tauto|rewrite decide_False by tauto]; done.
  - intros x y c d blk Hx Hy Hc Hd Hhc Hhd.
    destruct (same_data_bat _ _ x c (same_data_sym _ _ Hsd) Hx Hc) as (c0 & Hc0 & _ & E1 & E2 & _).
    destruct (same_data_bat _ _ y d (same_data_sym _ _ Hsd) Hy Hd) as (d0 & Hd0 & _ & E3 & E4 & _).
    apply (Huniq x y c0 d0 blk); try done; unfold holds in *; congruence.
Qed.

(** brelse: the buffer goes to the front of the list; data, disk and view stay.  A clean buffer must
    agree with the disk when it is released. *)
Lemma brelse_spec s l held D i b : cinv s l held -> pinned s D -> i ∈ held -> bat s i b ->
  (b_flags b = 2 -> b_data b = disk_at s (b_blockno b)) ->
  exists s', brelse i s = Ret tt s' /\ cinv s' (i :: filter (.≠ i) l) (filter (.≠ i) held) /\ same_disk s s' /\
    same_data s s' /\ pinned s' D /\ forall x, view s' x = view s x.
Proof.
  intros Hinv Hpin Hh Hb Hcl. pose proof (ci_held s l held Hinv i Hh) as Hi. pose proof (ci_lru s l held Hinv) as Hlru.
  assert (i ∈ l) as (l1 & l2 & El)%list_elem_of_split by (by apply Hlru).
  assert (filter (.≠ i) l = l1 ++ l2) as -> by (rewrite El; apply filter_ne_split; rewrite <- El; apply Hlru).
  set (b2 := set_b_refcnt 0 (set_b_lock (unlocked (b_lock b)) b)). set (bs := <[i := b2]> (bs_bufs s)).
  set (bs' := relink i (b_prev b) (b_next b) (hd HEAD (l1 ++ l2)) bs). exists (set_bs_bufs bs' s).
  assert (forall j, meta <$> bs' !! j = meta <$> bs !! j) as Hmeta by (intros j; apply relink_meta).
  assert (same_data s (set_bs_bufs bs' s)) as Hsd.
  { intros j Hj. simpl. transitivity ((fun b => (b_flags b, b_dev b, b_blockno b, b_data b)) <$> bs !! j).
    - specialize (Hmeta j). destruct (bs' !! j) as [x|], (bs !! j) as [y|]; simpl in *; [|done..].
      injection Hmeta as E1 E2 E3 _ _ E6. congruence.
    - apply (same_data_setb s i b b2); done. }
  assert (cinv (set_bs_bufs bs' s) (i :: l1 ++ l2) (filter (.≠ i) held)) as Hinv'.
  { eapply (cinv_release s l held i b); try done.
    - unfold bs', relink, bs. rewrite !length_alter, length_insert. apply Hinv.
    - destruct (relink_lru bs i l1 l2) as [_ Hl'].
      + unfold bs. rewrite length_insert. apply Hinv.
      + rewrite <- El. by eapply lru_insert.
      + unfold nx, pv in Hl'. unfold bs in Hl' at 1 2. rewrite list_lookup_insert_eq in Hl' by (by eapply lookup_lt_Some). exact Hl'. }
  split; [by eapply brelse_run|]. split; [done|]. split; [done|]. split; [done|].
  split; [by eapply same_data_pinned|]. by eapply same_data_view.
Qed.

(** ** A free buffer *)

Definition dirty_index (s : bst) (blk : Z) : nat :=
  match list_find (fun b => holds blk b && (b_flags b =? 6) = true) (take NBUF (bs_bufs s)) with Some (i, _) => i | None => 0%nat end.

(** Held and dirty buffers together are fewer than all: one is free. *)
Lemma free_exists s l held D : cinv s l held -> pinned s D -> (length held + length D < NBUF)%nat ->
  exists i b, (i < NBUF)%nat /\ bat s i b /\ free_buf b = true.
Proof.
  intros Hinv Hpin Hlt.
  destruct (list_first (fun i => match bs_bufs s !! i with Some b => free_buf b | None => false end) (seq 0 NBUF))
    as [(l1 & i & l2 & E & Hf & _)|Hn].
  { destruct (bs_bufs s !! i) as [b|] eqn:Hb; [|done]. exists i, b. split; [|done].
    assert (i ∈ seq 0 NBUF) as ?%elem_of_seq by (rewrite E; apply elem_of_app; right; by left). lia. }
  exfalso. assert (seq 0 NBUF ⊆+ held ++ map (dirty_index s) D) as Hsub.
  { apply NoDup_submseteq; [apply NoDup_seq|]. intros i Hi. specialize (Hn i Hi). apply elem_of_seq in Hi.
    destruct (buf_exists s l held Hinv i) as [b Hb]; [lia|]. unfold bat in Hb. rewrite Hb in Hn.
    destruct (ci_buf s l held Hinv i b ltac:(lia) Hb) as [Hfl _ Hhe Hdev _ _]. apply elem_of_app.
    destruct (decide (i ∈ held)) as [?|_]; [by left|]. destruct Hhe as [Hrc _]. right.
    unfold free_buf in Hn. rewrite Hrc, flags_dirty in Hn by done. simpl in Hn. apply negb_false_iff, Z.eqb_eq in Hn.
    assert (holds (b_blockno b) b = true) as Hh by (apply holds_true; split; [apply Hdev; lia|done]).
    apply list_elem_of_fmap. exists (b_blockno b). split; [|apply Hpin; exists i, b; split; [lia|done]].
    unfold dirty_index. destruct (list_find _ _) as [[j c]|] eqn:E.
    - apply list_find_Some in E as (Hj & Hp & _). apply lookup_take_Some in Hj as [Hj Hjl]. apply andb_true_iff in Hp as [Hp _].
      apply (ci_uniq s l held Hinv i j b c (b_blockno b)); try done. lia.
    - apply list_find_None in E. rewrite Forall_forall in E. destruct (E b); [|by rewrite Hh, Hn].
      apply list_elem_of_lookup. exists i. rewrite lookup_take_lt by lia. done. }
  apply submseteq_length in Hsub. rewrite length_seq, length_app, length_map in Hsub. lia.
Qed.
