(* ===== verification/Block.v ===== *)
(** * Blocks of bytes

    Little-endian 32-bit words in a block of bytes, as the code accesses them through pointers to
    int and to structures. *)
From Stdlib Require Import ZArith Lia.
From stdpp Require Import base list numbers.
From S2P Require Import Prelude.
Local Open Scope Z_scope.

Definition byte (d : list Z) (off : nat) : Z := nth off d 0 mod 256.

Definition get32 (d : list Z) (off : nat) : Z :=
  byte d off + 256 * byte d (off + 1) + 65536 * byte d (off + 2) + 16777216 * byte d (off + 3).

Definition bytes32 (v : Z) : list Z := [v mod 256; v / 256 mod 256; v / 65536 mod 256; v / 16777216 mod 256].

(** [dst[off .. off+length l)] replaced by [l], within [dst]. *)
Definition put_bytes (d : list Z) (off : nat) (l : list Z) : list Z := list_inserts off l d.
Definition put32 (d : list Z) (off : nat) (v : Z) : list Z := put_bytes d off (bytes32 (u32 v)).

Definition get16 (d : list Z) (off : nat) : Z := byte d off + 256 * byte d (off + 1).
Definition bytes16 (v : Z) : list Z := [v mod 256; v / 256 mod 256].
Definition put16 (d : list Z) (off : nat) (v : Z) : list Z := put_bytes d off (bytes16 (v mod 65536)).
Definition i16 (v : Z) : Z := let y := v mod 65536 in if y <? 32768 then y else y - 65536.

Lemma length_put_bytes d off l : length (put_bytes d off l) = length d.
Proof. apply length_inserts. Qed.

Lemma length_put32 d off v : length (put32 d off v) = length d.
Proof. apply length_put_bytes. Qed.

Lemma byte_put_in d off l k : (off + k < length d)%nat -> (k < length l)%nat -> byte (put_bytes d off l) (off + k) = nth k l 0 mod 256.
Proof.
  intros Hd Hl. unfold byte, put_bytes. rewrite !nth_lookup, list_lookup_inserts by lia.
  by replace (off + k - off)%nat with k by lia.
Qed.

Lemma byte_put_out d off l k : (k < off \/ off + length l <= k)%nat -> byte (put_bytes d off l) k = byte d k.
Proof.
  intros Hk. unfold byte, put_bytes. rewrite !nth_lookup. destruct Hk.
  - by rewrite list_lookup_inserts_lt.
  - by rewrite list_lookup_inserts_ge.
Qed.

Lemma bytes32_sum v : 0 <= v < 2 ^ 32 ->
  v mod 256 mod 256 + 256 * (v / 256 mod 256 mod 256) + 65536 * (v / 65536 mod 256 mod 256) + 16777216 * (v / 16777216 mod 256 mod 256) = v.
Proof. intros Hv. rewrite !Zmod_mod. Z.to_euclidean_division_equations; lia. Qed.

Lemma get_put32 d off v : (off + 4 <= length d)%nat -> get32 (put32 d off v) off = u32 v.
Proof.
  intros Hd. unfold get32, put32. pose proof (byte_put_in d off (bytes32 (u32 v)) 0) as E0. rewrite Nat.add_0_r in E0.
  rewrite E0, !byte_put_in by (simpl; lia). simpl nth. apply bytes32_sum, u32_range.
Qed.

Lemma get_put32_ne d off off' v : (off' + 4 <= off \/ off + 4 <= off')%nat -> get32 (put32 d off v) off' = get32 d off'.
Proof. intros Ho. unfold get32, put32. rewrite !byte_put_out by (simpl; lia). done. Qed.

Lemma get32_range d off : 0 <= get32 d off < 2 ^ 32.
Proof.
  unfold get32, byte.
  pose proof (Z.mod_pos_bound (nth off d 0) 256). pose proof (Z.mod_pos_bound (nth (off + 1) d 0) 256).
  pose proof (Z.mod_pos_bound (nth (off + 2) d 0) 256). pose proof (Z.mod_pos_bound (nth (off + 3) d 0) 256). lia.
Qed.
