(* ===== verification/Log.v ===== *)
(** * The log (src/log.c)

    Transactions over the buffer cache.  The log header lives in memory ([lh_n], [lh_block]) and, as
    little-endian words, in the block [start] of the disk; the logged blocks follow it.  A call
    that sleeps ends the run, as in [Bio], and the calls of wakeup(&log) are counted in
    [lg_wakeups]. *)
From Stdlib Require Import ZArith Lia.
From stdpp Require Import base list numbers strings.
From S2P Require Import Prelude Block Bio.
Local Open Scope Z_scope.

Definition MAXOPBLOCKS : Z := 10.

Record superblock := mkSuperblock {
  sb_size : Z; sb_nblocks : Z; sb_ninodes : Z; sb_nlog : Z; sb_logstart : Z; sb_inodestart : Z; sb_bmapstart : Z }.

Record log := mkLog {
  lg_lock : bool;
  lg_start : Z;
  lg_size : Z;
  lg_outstanding : Z;
  lg_committing : bool;
  lg_dev : Z;
  lh_n : Z;
  lh_block : list Z;
  lg_wakeups : nat }.  (* calls of wakeup(&log) so far *)

Definition set_lg_lock (v : bool) (g : log) : log :=
  mkLog v (lg_start g) (lg_size g) (lg_outstanding g) (lg_committing g) (lg_dev g) (lh_n g) (lh_block g) (lg_wakeups g).
Definition set_lg_outstanding (v : Z) (g : log) : log :=
  mkLog (lg_lock g) (lg_start g) (lg_size g) v (lg_committing g) (lg_dev g) (lh_n g) (lh_block g) (lg_wakeups g).
Definition set_lg_committing (v : bool) (g : log) : log :=
  mkLog (lg_lock g) (lg_start g) (lg_size g) (lg_outstanding g) v (lg_dev g) (lh_n g) (lh_block g) (lg_wakeups g).
Definition set_lh_n (v : Z) (g : log) : log :=
  mkLog (lg_lock g) (lg_start g) (lg_size g) (lg_outstanding g) (lg_committing g) (lg_dev g) v (lh_block g) (lg_wakeups g).
Definition set_lh_block (v : list Z) (g : log) : log :=
  mkLog (lg_lock g) (lg_start g) (lg_size g) (lg_outstanding g) (lg_committing g) (lg_dev g) (lh_n g) v (lg_wakeups g).
Definition set_lg_wakeups (v : nat) (g : log) : log :=
  mkLog (lg_lock g) (lg_start g) (lg_size g) (lg_outstanding g) (lg_committing g) (lg_dev g) (lh_n g) (lh_block g) v.

Record lst := mkLst { ls_b : bst; ls_log : log }.
Definition set_ls_b (b : bst) (s : lst) : lst := mkLst b (ls_log s).
Definition set_ls_log (g : log) (s : lst) : lst := mkLst (ls_b s) g.

Definition inb {A} (m : M bst A) : M lst A := lift ls_b set_ls_b m.
Definition lget : M lst log := gets ls_log.
Definition lmod (f : log -> log) : M lst unit := modify (fun s => set_ls_log (f (ls_log s)) s).
Definition log_acquire : M lst unit := lift (fun s => lg_lock (ls_log s)) (fun b s => set_ls_log (set_lg_lock b (ls_log s)) s) spin_acquire.
Definition log_release : M lst unit := lift (fun s => lg_lock (ls_log s)) (fun b s => set_ls_log (set_lg_lock b (ls_log s)) s) spin_release.

(** [wakeup(&log)] *)
Definition wakeup_log : M lst unit := lmod (fun g => set_lg_wakeups (S (lg_wakeups g)) g).

(** [log.lh.block[i]], inside the array *)
Definition lh_at (i : nat) : M lst Z := fun s =>
  match lh_block (ls_log s) !! i with Some b => Ret b s | None => Fault s end.
Definition lh_set (i : nat) (v : Z) : M lst unit := fun s =>
  if (i <? LOGSIZE)%nat then lmod (fun g => set_lh_block (<[i := v]> (lh_block g)) g) s else Fault s.

(** memmove(dst->data, src->data, BSIZE); bwrite(dst) *)
Definition copy_block (dst src : nat) : M bst unit :=
  let! b := getb src in
  updb dst (set_b_data (b_data b)) ;;;
  bwrite dst.

Definition install_trans : M lst unit :=
  let! g := lget in
  for_each (Z.to_nat (lh_n g)) 0 (fun tail =>
    let! lbuf := inb (bread (lg_dev g) (lg_start g + Z.of_nat tail + 1)) in
    let! blk := lh_at tail in
    let! dbuf := inb (bread (lg_dev g) blk) in
    inb (copy_block dbuf lbuf) ;;;
    inb (brelse lbuf) ;;;
    inb (brelse dbuf)).

(** struct logheader in a block: n, then block[] *)
Definition head_off (i : nat) : nat := 4 + 4 * i.

Definition read_head : M lst unit :=
  let! g := lget in
  let! i := inb (bread (lg_dev g) (lg_start g)) in
  let! b := inb (getb i) in
  let n := i32 (get32 (b_data b) 0) in
  lmod (set_lh_n n) ;;;
  for_each (Z.to_nat n) 0 (fun k => lh_set k (i32 (get32 (b_data b) (head_off k)))) ;;;
  inb (brelse i).

Fixpoint put_head (d : list Z) (i : nat) (blocks : list Z) : list Z :=
  match blocks with
  | [] => d
  | b :: blocks' => put_head (put32 d (head_off i) b) (i + 1) blocks'
  end.

Definition write_head : M lst unit :=
  let! g := lget in
  let! i := inb (bread (lg_dev g) (lg_start g)) in
  inb (updb i (fun b => set_b_data (put_head (put32 (b_data b) 0 (lh_n g)) 0 (take (Z.to_nat (lh_n g)) (lh_block g))) b)) ;;;
  inb (bwrite i) ;;;
  inb (brelse i).

Definition recover_from_log : M lst unit :=
  read_head ;;;
  install_trans ;;;
  lmod (set_lh_n 0) ;;;
  write_head.

(** readsb (fs.c) *)
Definition sb_of (d : list Z) : superblock :=
  mkSuperblock (get32 d 0) (get32 d 4) (get32 d 8) (get32 d 12) (get32 d 16) (get32 d 20) (get32 d 24).
Definition readsb (dev : Z) : M lst superblock :=
  let! i := inb (bread dev 1) in
  let! b := inb (getb i) in
  inb (brelse i) ;;;
  ret (sb_of (b_data b)).

(** sizeof(struct logheader) is 4 + 4 * LOGSIZE. *)
Definition initlog (dev : Z) : M lst unit :=
  if BSIZE <=? 4 + 4 * Z.of_nat LOGSIZE then panic "initlog: too big logheader"
  else
    lmod (set_lg_lock false) ;;;
    let! sb := readsb dev in
    lmod (fun g => mkLog (lg_lock g) (i32 (sb_logstart sb)) (i32 (sb_nlog sb)) (lg_outstanding g) (lg_committing g) dev (lh_n g) (lh_block g) (lg_wakeups g)) ;;;
    recover_from_log.

Definition begin_op : M lst unit :=
  log_acquire ;;;
  let! g := lget in
  if lg_committing g then nofuel
  else if Z.of_nat LOGSIZE <? i32 (lh_n g + (lg_outstanding g + 1) * MAXOPBLOCKS) then nofuel
  else
    lmod (set_lg_outstanding (i32 (lg_outstanding g + 1))) ;;;
    log_release.

Definition write_log : M lst unit :=
  let! g := lget in
  for_each (Z.to_nat (lh_n g)) 0 (fun tail =>
    let! to := inb (bread (lg_dev g) (lg_start g + Z.of_nat tail + 1)) in
    let! blk := lh_at tail in
    let! from := inb (bread (lg_dev g) blk) in
    inb (copy_block to from) ;;;
    inb (brelse from) ;;;
    inb (brelse to)).

Definition commit : M lst unit :=
  let! g := lget in
  when (0 <? lh_n g)
    (write_log ;;;
     write_head ;;;
     install_trans ;;;
     lmod (set_lh_n 0) ;;;
     write_head).

Definition end_op : M lst unit :=
  log_acquire ;;;
  let! g := lget in
  lmod (set_lg_outstanding (i32 (lg_outstanding g - 1))) ;;;
  if lg_committing g then panic "log.committing"
  else
    let! g := lget in
    let do_commit := lg_outstanding g =? 0 in
    (if (do_commit : bool) then lmod (set_lg_committing true) else wakeup_log) ;;;
    log_release ;;;
    when do_commit
      (commit ;;;
       log_acquire ;;;
       lmod (set_lg_committing false) ;;;
       wakeup_log ;;;
       log_release).

Definition log_write (i : nat) : M lst unit :=
  let! g := lget in
  if (Z.of_nat LOGSIZE <=? lh_n g) || (lg_size g - 1 <=? lh_n g) then panic "too big a transaction"
  else if lg_outstanding g <? 1 then panic "log_write outside of trans"
  else
    log_acquire ;;;
    let! b := inb (getb i) in
    let! r := for_range (Z.to_nat (lh_n g)) 0 (fun k =>
      let! blk := lh_at k in
      ret (if blk =? i32 (b_blockno b) then Some k else None)) in
    let k := match r with Some k => k | None => Z.to_nat (lh_n g) end in
    lh_set k (i32 (b_blockno b)) ;;;
    when (Z.of_nat k =? lh_n g) (lmod (set_lh_n (lh_n g + 1))) ;;;
    inb (updb i (fun b => set_b_flags (Z.lor (b_flags b) B_DIRTY) b)) ;;;
    log_release.
