(* ===== verification/LogSpec.v ===== *)
(** * The log: commit, recovery and crashes

    [cache s D]: no buffer is held and [D] are the dirty blocks.  The pieces of commit and of
    recovery are specified by the blocks they write, in order, and by the view they leave.  The
    crash theorem replays a prefix of the writes of a commit on the disk and recovers from it. *)
From Stdlib Require Import ZArith Lia.
From stdpp Require Import base list numbers strings sets.
From S2P Require Import Prelude Block Bio BioSpec Log.
Local Open Scope Z_scope.

Definition cache (s : bst) (D : list Z) : Prop := exists l, cinv s l [] /\ pinned s D.

Definition in_disk (s : bst) (blk : Z) : Prop := 0 <= blk < Z.of_nat (length (bs_disk s)).

(** A block that is neither held nor dirty is as on the disk. *)
Lemma view_clean s l held D blk : cinv s l held -> pinned s D -> not_held s held blk -> blk ∉ D -> view s blk = disk_at s blk.
Proof.
  intros Hinv Hpin Hnh HD. destruct (view_cases s l held Hinv blk) as [(i & b & Hi & Hb & Hh & Hf & ->)|[_ ->]]; [|done].
  apply holds_true in Hh as [Hd Hbk]. destruct (ci_buf s l held Hinv i b Hi Hb) as [Hfl _ _ _ _ Hcl]. subst blk.
  apply Hcl.
  - destruct Hfl as [?|[?|Hf6]]; [done|done|]. destruct HD. apply Hpin. exists i, b. split; [done|]. split; [done|]. split; [by apply holds_true|done].
  - intros Hin. by apply (Hnh i b Hin Hb).
Qed.

(** Enough buffers to read a block, and then [y]. *)
Definition room_for (D : list Z) (y : Z) : Prop := (length D < NBUF)%nat /\ (y ∈ D \/ (S (length D) < NBUF)%nat).

(** Two blocks read: their buffers are held, with the data of the view. *)
Record two_held (s0 s : bst) (D : list Z) (x y : Z) (ix iy : nat) : Prop := {
  th_inv : exists l, cinv s l [iy; ix];
  th_ne : ix <> iy;
  th_x : exists b, bat s ix b /\ b_blockno b = x /\ b_data b = view s0 x /\ b_dev b = 1 /\ (b_flags b = 2 -> view s0 x = disk_at s0 x);
  th_y : exists b, bat s iy b /\ b_blockno b = y /\ b_data b = view s0 y /\ b_dev b = 1 /\ (b_flags b = 2 -> view s0 y = disk_at s0 y);
  th_view z : view s z = view s0 z;
  th_disk : same_disk s0 s;
  th_pin : pinned s D }.

Lemma read_two s D x y : cache s D -> room_for D y -> in_disk s x -> in_disk s y -> x <> y ->
  wp (bread 1 x) (fun ix s1 => wp (bread 1 y) (fun iy s2 => two_held s s2 D x y ix iy) s1) s.
Proof.
  intros (l & Hinv & Hpin) [Hlen Hlen2] Hx Hy Hxy.
  eapply wp_mono; [apply (bread_spec s l [] D Hinv Hpin x Hx)|].
  { by intros i b ?%not_elem_of_nil. }
  { destruct (free_exists s l [] D Hinv Hpin) as (i & b & Hi & Hb & Hf); [simpl; lia|]. exists i, b. auto. }
  intros ix s1 [(bx & Hbx & Hdx & Hnx & Hvx & Hfx) _ Hinv1 Hv1 [Hd1 Hw1 Hp1] Hpin1 _].
  assert (not_held s1 [ix] y) as Hnh by (intros i b ->%list_elem_of_singleton Hb; unfold bat in *; congruence).
  eapply wp_mono; [apply (bread_spec s1 l [ix] D Hinv1 Hpin1 y)|].
  { by rewrite Hd1. }
  { done. }
  { destruct Hlen2 as [Hin|Hlen2].
    - apply Hpin1 in Hin as (i & b & Hi & Hb & Hh & _). exists i, b. auto.
    - destruct (free_exists s1 l [ix] D Hinv1 Hpin1) as (i & b & Hi & Hb & Hf); [simpl; lia|]. exists i, b. auto. }
  intros iy s2 [(by' & Hby & Hdy & Hny & Hvy & Hfy) Hnew Hinv2 Hv2 [Hd2 Hw2 Hp2] Hpin2 Hfr].
  apply not_elem_of_cons in Hnew as [Hne _]. constructor.
  - by exists l.
  - done.
  - exists bx. unfold bat. rewrite Hfr by done. do 4 (split; [done|]). intros Hf2.
    apply (view_clean s l [] D); [done|done|by intros i b ?%not_elem_of_nil|]. rewrite Hfx in Hf2. by case_decide.
  - exists by'. do 2 (split; [done|]). split; [by rewrite Hvy, Hv1|]. split; [done|]. intros Hf2. rewrite <- Hv1.
    assert (disk_at s y = disk_at s1 y) as -> by (unfold disk_at; by rewrite Hd1).
    apply (view_clean s1 l [ix] D); [done|done|done|]. rewrite Hfy in Hf2. by case_decide.
  - intros z. by rewrite Hv2, Hv1.
  - constructor; congruence.
  - done.
Qed.

(** The effect of writing [d] to block [blk]. *)
Record wrote (s s' : bst) (D : list Z) (blk : Z) (d : list Z) : Prop := {
  wr_cache : cache s' (filter (.≠ blk) D);
  wr_disk : bs_disk s' = <[Z.to_nat blk := d]> (bs_disk s);
  wr_writes : bs_writes s' = (blk, d) :: bs_writes s;
  wr_view x : 0 <= x -> view s' x = if decide (x = blk) then d else view s x }.

Lemma release_last s l D i b : cinv s l [i] -> pinned s D -> bat s i b -> (b_flags b = 2 -> b_data b = disk_at s (b_blockno b)) ->
  exists s', brelse i s = Ret tt s' /\ cache s' D /\ same_disk s s' /\ forall x, view s' x = view s x.
Proof.
  intros Hinv Hpin Hb Hcl. destruct (brelse_spec s l [i] D i b Hinv Hpin) as (s' & E & Hinv' & Hsd & _ & Hp & Hv); [by left|done|done|].
  exists s'. split; [done|]. split; [|done]. exists (i :: filter (.≠ i) l). split; [|done].
  by rewrite filter_cons_False, filter_nil in Hinv' by auto.
Qed.

(** Releasing two buffers, in either order. *)
Lemma release_two s l D i j bi bj : cinv s l [i; j] \/ cinv s l [j; i] -> i <> j -> pinned s D -> bat s i bi -> bat s j bj ->
  (b_flags bi = 2 -> b_data bi = disk_at s (b_blockno bi)) -> (b_flags bj = 2 -> b_data bj = disk_at s (b_blockno bj)) ->
  exists s', (brelse i ;;; brelse j) s = Ret tt s' /\ cache s' D /\ same_disk s s' /\ forall x, view s' x = view s x.
Proof.
  intros Hinv Hij Hpin Hbi Hbj Hci Hcj.
  assert (exists held, cinv s l held /\ i ∈ held /\ j ∈ held /\ filter (.≠ i) held = [j]) as (held & Hi & Hin & Hjn & Ef).
  { destruct Hinv as [Hinv|Hinv]; eexists; (split; [exact Hinv|]); (split; [set_solver|]); (split; [set_solver|]).
    - by rewrite filter_cons_False, filter_cons_True, filter_nil by auto.
    - by rewrite filter_cons_True, filter_cons_False, filter_nil by auto. }
  destruct (brelse_spec s l held D i bi Hi Hpin Hin Hbi Hci) as (s1 & E1 & Hinv1 & Hsd1 & Hdata & Hp1 & Hv1). rewrite Ef in Hinv1.
  destruct (same_data_bat s s1 j bj Hdata) as (bj' & Hbj' & Efl & Edv & Ebk & Edt); [by apply (ci_held s l held Hi)|done|].
  destruct (release_last s1 _ D j bj' Hinv1 Hp1 Hbj') as (s2 & E2 & Hc2 & Hsd2 & Hv2).
  { intros Hf. destruct Hsd1 as [Hd1 _ _]. unfold disk_at. rewrite Hd1, Edt, Ebk. apply Hcj. congruence. }
  exists s2. unfold bind. rewrite E1. split; [done|]. split; [done|]. split.
  - destruct Hsd1, Hsd2. constructor; congruence.
  - intros x. by rewrite Hv2, Hv1.
Qed.

(** Copying between two held buffers. *)
Lemma copy_block_spec s l held D i j bi bj : cinv s l held -> pinned s D -> i ∈ held -> j ∈ held -> i <> j -> bat s i bi -> bat s j bj ->
  exists s' b', copy_block i j s = Ret tt s' /\ cinv s' l held /\ bat s' j bj /\ bat s' i b' /\ b_flags b' = 2 /\ b_data b' = b_data bj /\
    b_blockno b' = b_blockno bi /\ bs_disk s' = <[Z.to_nat (b_blockno bi) := b_data bj]> (bs_disk s) /\
    bs_writes s' = (b_blockno bi, b_data bj) :: bs_writes s /\ pinned s' (filter (.≠ b_blockno bi) D) /\
    forall x, 0 <= x -> view s' x = if decide (x = b_blockno bi) then b_data bj else view s x.
Proof.
  intros Hinv Hpin Hi Hj Hij Hbi Hbj.
  destruct (set_data_spec s l held D Hinv Hpin i bi Hi Hbi (b_data bj)) as (E1 & Hinv1 & Hpin1 & Hv1).
  set (b1 := set_b_data (b_data bj) bi) in *.
  destruct (bwrite_spec (setb i b1 s) l held D Hinv1 Hpin1 i b1 Hi) as (s' & E2 & Hinv2 & Hb2 & Hfr & Hd2 & Hw2 & _ & Hp2 & Hv2);
    [by apply (bat_setb i bi)|].
  exists s', (set_b_flags 2 b1). split.
  { unfold copy_block, bind. rewrite (getb_run j bj) by done. by rewrite E1. }
  split; [done|]. split; [unfold bat; rewrite Hfr by congruence; simpl; by rewrite list_lookup_insert_ne|].
  do 4 (split; [done|]). split; [exact Hd2|]. split; [exact Hw2|]. split; [exact Hp2|]. intros x Hx. rewrite Hv2 by done. by apply Hv1.
Qed.

(** Log block to home block: [x] is read first and copied to [y]. *)
Lemma install_one s D x y : cache s D -> room_for D y -> in_disk s x -> in_disk s y -> x <> y ->
  wp (bread 1 x) (fun ix s1 => wp (bread 1 y) (fun iy s2 =>
    wp (copy_block iy ix) (fun _ s3 => wp (brelse ix) (fun _ s4 => wp (brelse iy) (fun _ s5 => wrote s s5 D y (view s x)) s4) s3) s2) s1) s.
Proof.
  intros Hc Hlen Hx Hy Hxy. eapply wp_mono; [by apply (read_two s D x y)|]. intros ix s1 H1.
  eapply wp_mono; [exact H1|]. clear H1. intros iy s2 [[l Hinv] Hne (bx & Hbx & Hnx & Hdx & _ & Hcx) (by' & Hby & Hny & Hdy & _ & _) Hv2 [Hd2 Hw2 _] Hp2].
  destruct (copy_block_spec s2 l [iy; ix] D iy ix by' bx Hinv Hp2) as (s3 & b' & E3 & Hinv3 & Hbx3 & Hb' & Hf' & Hdt' & Hnb' & Hd3 & Hw3 & Hp3 & Hv3);
    [by left|by right; left|done|done|done|].
  eapply wp_intro; [exact E3|]. apply (wp_bind_inv (brelse ix) (fun _ => brelse iy)).
  destruct (release_two s3 l _ ix iy bx b' (or_intror Hinv3) Hne Hp3 Hbx3 Hb') as (s5 & E5 & Hc5 & [Hd5 Hw5 _] & Hv5).
  - intros Hf. rewrite Hdx, (Hcx Hf), Hnx. unfold disk_at. rewrite !nth_lookup, Hd3, Hd2. rewrite list_lookup_insert_ne; [done|].
    rewrite Hny. unfold in_disk in *. lia.
  - intros _. rewrite Hdt', Hnb', Hny. unfold disk_at. rewrite nth_lookup, Hd3, Hny, list_lookup_insert_eq; [done|]. rewrite Hd2. unfold in_disk in Hy. lia.
  - eapply wp_intro; [exact E5|]. rewrite Hny in *. rewrite Hdx in *. constructor; [done|congruence|congruence|].
    intros z Hz. by rewrite Hv5, Hv3, Hv2.
Qed.

(** Home block to log block: the destination [x] is read first. *)
Lemma write_one s D x y : cache s D -> room_for D y -> in_disk s x -> in_disk s y -> x <> y ->
  wp (bread 1 x) (fun ix s1 => wp (bread 1 y) (fun iy s2 =>
    wp (copy_block ix iy) (fun _ s3 => wp (brelse iy) (fun _ s4 => wp (brelse ix) (fun _ s5 => wrote s s5 D x (view s y)) s4) s3) s2) s1) s.
Proof.
  intros Hc Hlen Hx Hy Hxy. eapply wp_mono; [by apply (read_two s D x y)|]. intros ix s1 H1.
  eapply wp_mono; [exact H1|]. clear H1. intros iy s2 [[l Hinv] Hne (bx & Hbx & Hnx & Hdx & _ & _) (by' & Hby & Hny & Hdy & _ & Hcy) Hv2 [Hd2 Hw2 _] Hp2].
  destruct (copy_block_spec s2 l [iy; ix] D ix iy bx by' Hinv Hp2) as (s3 & b' & E3 & Hinv3 & Hby3 & Hb' & Hf' & Hdt' & Hnb' & Hd3 & Hw3 & Hp3 & Hv3);
    [by right; left|by left|done|done|done|].
  eapply wp_intro; [exact E3|]. apply (wp_bind_inv (brelse iy) (fun _ => brelse ix)).
  destruct (release_two s3 l _ iy ix by' b' (or_introl Hinv3) (not_eq_sym Hne) Hp3 Hby3 Hb') as (s5 & E5 & Hc5 & [Hd5 Hw5 _] & Hv5).
  - intros Hf. rewrite Hdy, (Hcy Hf), Hny. unfold disk_at. rewrite !nth_lookup, Hd3, Hd2. rewrite list_lookup_insert_ne; [done|].
    rewrite Hnx. unfold in_disk in *. lia.
  - intros _. rewrite Hdt', Hnb', Hnx. unfold disk_at. rewrite nth_lookup, Hd3, Hnx, list_lookup_insert_eq; [done|]. rewrite Hd2. unfold in_disk in Hx. lia.
  - eapply wp_intro; [exact E5|]. rewrite Hnx in *. rewrite Hdy in *. constructor; [done|congruence|congruence|].
    intros z Hz. by rewrite Hv5, Hv3, Hv2.
Qed.

(** ** Sequences of writes *)

(** The writes in the order in which they were made, on the disk and on a view. *)
Definition replay (W : list (Z * list Z)) (d : list (list Z)) : list (list Z) :=
  foldl (fun d w => <[Z.to_nat w.1 := w.2]> d) d W.
Definition vreplay (W : list (Z * list Z)) (v : Z -> list Z) : Z -> list Z :=
  foldl (fun v w => fun x => if decide (x = w.1) then w.2 else v x) v W.

Lemma replay_app W1 W2 d : replay (W1 ++ W2) d = replay W2 (replay W1 d).
Proof. apply foldl_app. Qed.
Lemma vreplay_app W1 W2 v : vreplay (W1 ++ W2) v = vreplay W2 (vreplay W1 v).
Proof. apply foldl_app. Qed.
Lemma length_replay W d : length (replay W d) = length d.
Proof. revert d. induction W as [|w W IH]; intros d; simpl; [done|]. by rewrite IH, length_insert. Qed.

(** On blocks of the disk the two agree. *)
Lemma replay_nth W d x : 0 <= x -> Forall (fun w => 0 <= w.1 < Z.of_nat (length d)) W ->
  nth (Z.to_nat x) (replay W d) [] = vreplay W (fun x => nth (Z.to_nat x) d []) x.
Proof.
  intros Hx. revert d. induction W as [|w W IH] using rev_ind; intros d Hw; [done|].
  apply Forall_app in Hw as [Hw1 Hw2]. apply Forall_cons in Hw2 as [Hw2 _]. rewrite replay_app, vreplay_app. simpl.
  rewrite nth_lookup. case_decide as E.
  - subst x. rewrite list_lookup_insert_eq; [done|]. rewrite length_replay. lia.
  - rewrite list_lookup_insert_ne by lia. rewrite <- nth_lookup. by apply IH.
Qed.

Lemma vreplay_notin W v x : x ∉ W.*1 -> vreplay W v x = v x.
Proof.
  induction W as [|w W IH] using rev_ind; [done|]. rewrite fmap_app, elem_of_app. simpl. rewrite list_elem_of_singleton. intros Hx.
  rewrite vreplay_app. simpl. case_decide; [tauto|]. apply IH. tauto.
Qed.

Lemma vreplay_in W v x d : NoDup W.*1 -> (x, d) ∈ W -> vreplay W v x = d.
Proof.
  induction W as [|w W IH] using rev_ind; [by intros _ ?%not_elem_of_nil|].
  rewrite fmap_app. intros Hnd Hin. apply NoDup_app in Hnd as (Hnd & Hd & _). apply elem_of_app in Hin.
  rewrite vreplay_app. simpl. destruct Hin as [Hin|<-%list_elem_of_singleton]; simpl; [|by rewrite decide_True].
  case_decide as E; [|by apply IH]. exfalso. apply (Hd x); [apply list_elem_of_fmap; by exists (x, d)|]. rewrite E. by left.
Qed.

Lemma vreplay_ext W v v' x : v x = v' x -> vreplay W v x = vreplay W v' x.
Proof.
  intros E. induction W as [|w W IH] using rev_ind; [done|]. rewrite !vreplay_app. simpl. by case_decide.
Qed.

(** A loop of copies: round [t] writes [view (src t)] to block [dst t]. *)
Section copies.
Context (body : nat -> M lst unit) (src dst : nat -> Z) (n : nat) (g : log) (s0 : bst) (D0 : list Z).

Definition copied (k : nat) : list (Z * list Z) := map (fun t => (dst t, view s0 (src t))) (seq 0 k).

Hypothesis Hbody : forall t s D, (t < n)%nat -> cache s D -> in_disk s (src t) -> in_disk s (dst t) ->
  (length D <= length D0)%nat -> (forall x, x ∈ D0 -> x ∉ map dst (seq 0 t) -> x ∈ D) ->
  wp (body t) (fun _ st => ls_log st = g /\ wrote s (ls_b st) D (dst t) (view s (src t))) (mkLst s g).

Lemma copied_fst k : (copied k).*1 = map dst (seq 0 k).
Proof. unfold copied. by rewrite <- list_fmap_compose. Qed.

Lemma copies_spec : cache s0 D0 ->
  (forall t, (t < n)%nat -> in_disk s0 (src t) /\ in_disk s0 (dst t)) ->
  (forall t u, (t < n)%nat -> (u < n)%nat -> dst t <> src u) ->
  (forall t u, (t < n)%nat -> (u < n)%nat -> dst t = dst u -> t = u) ->
  wp (for_each n 0 body) (fun _ st => ls_log st = g /\ bs_disk (ls_b st) = replay (copied n) (bs_disk s0) /\
    bs_writes (ls_b st) = rev (copied n) ++ bs_writes s0 /\
    (forall x, 0 <= x -> view (ls_b st) x = vreplay (copied n) (view s0) x) /\
    exists D, cache (ls_b st) D /\ (length D <= length D0)%nat /\
      forall x, x ∈ D <-> x ∈ D0 /\ x ∉ map dst (seq 0 n)) (mkLst s0 g).
Proof.
  intros Hc Hdisk Hsd Hinj.
  apply (wp_for_each (fun k st => ls_log st = g /\ bs_disk (ls_b st) = replay (copied k) (bs_disk s0) /\
    bs_writes (ls_b st) = rev (copied k) ++ bs_writes s0 /\
    (forall x, 0 <= x -> view (ls_b st) x = vreplay (copied k) (view s0) x) /\
    exists D, cache (ls_b st) D /\ (length D <= length D0)%nat /\
      forall x, x ∈ D <-> x ∈ D0 /\ x ∉ map dst (seq 0 k))); [|clear Hc|done].
  - do 4 (split; [done|]). exists D0. split; [done|]. split; [done|]. intros x. pose proof (not_elem_of_nil x). simpl. tauto.
  - intros k [s g'] Hk (Eg & Ed & Ew & Ev & D & Hc & Hl & HD). simpl in *. subst g'.
    assert (forall t, (t < n)%nat -> in_disk s (src t) /\ in_disk s (dst t)) as Hdisk'.
    { intros t Ht. unfold in_disk. rewrite Ed, length_replay. by apply Hdisk. }
    assert (dst k ∉ map dst (seq 0 k)) as Hnk.
    { intros (t & E & Ht)%list_elem_of_fmap. apply elem_of_seq in Ht. apply Hinj in E; lia. }
    assert (forall t, (t < n)%nat -> src t ∉ map dst (seq 0 k)) as Hsrc.
    { intros t Ht (u & E & Hu)%list_elem_of_fmap. apply elem_of_seq in Hu. apply (Hsd u t); [lia|done|done]. }
    destruct (Hdisk' k) as [Hs Hd]; [lia|].
    eapply wp_mono; [apply (Hbody k s D); [lia|done|done|done|done|]|].
    { intros x Hx Hnx. by apply HD. }
    intros [] [s' g'] (Eg' & [Hc' Hd' Hw' Hv']). simpl in *. subst g'.
    assert (view s (src k) = view s0 (src k)) as Esrc.
    { rewrite Ev by apply Hs. apply vreplay_notin. rewrite copied_fst. apply Hsrc. lia. }
    assert (copied (k + 1) = copied k ++ [(dst k, view s (src k))]) as Ec.
    { unfold copied. rewrite seq_app, map_app, Esrc. done. }
    rewrite Ec. split; [done|]. split; [by rewrite replay_app, Hd', Ed|]. split; [by rewrite rev_app_distr, Hw', Ew|].
    split; [intros x Hx; rewrite Hv', vreplay_app by done; simpl; case_decide; [done|by apply Ev]|].
    exists (filter (.≠ dst k) D). split; [done|]. split; [etrans; [apply length_filter|done]|].
    intros x. rewrite list_elem_of_filter, HD, seq_app, map_app, elem_of_app. simpl. rewrite list_elem_of_singleton. tauto.
Qed.

End copies.

(** ** The header block *)

Lemma length_put_head d i B : length (put_head d i B) = length d.
Proof. revert d i. induction B as [|b B IH]; intros d i; simpl; [done|]. by rewrite IH, length_put32. Qed.

Lemma get32_put_head_out d i B off : (off + 4 <= head_off i)%nat -> get32 (put_head d i B) off = get32 d off.
Proof.
  revert d i. induction B as [|b B IH]; intros d i Ho; simpl; [done|]. rewrite IH by (unfold head_off in *; lia).
  apply get_put32_ne. lia.
Qed.

Lemma get32_put_head d i B k b : (head_off (i + length B) <= length d)%nat -> B !! k = Some b ->
  get32 (put_head d i B) (head_off (i + k)) = u32 b.
Proof.
  revert d i k. induction B as [|c B IH]; intros d i k Hd Hk; [done|]. simpl in *. destruct k as [|k]; simpl in *.
  - injection Hk as ->. replace (i + 0)%nat with i by lia. rewrite get32_put_head_out by (unfold head_off; lia).
    apply get_put32. unfold head_off in *. lia.
  - replace (i + S k)%nat with (i + 1 + k)%nat by lia. apply IH; [|done]. rewrite length_put32. unfold head_off in *. lia.
Qed.

(** The header with the blocks [B], over the old contents [d]. *)
Definition head_with (d : list Z) (B : list Z) : list Z := put_head (put32 d 0 (Z.of_nat (length B))) 0 B.

Definition head_n (d : list Z) : Z := i32 (get32 d 0).
Definition head_blocks (d : list Z) : list Z := map (fun k => i32 (get32 d (head_off k))) (seq 0 (Z.to_nat (head_n d))).

Definition small_blocks (B : list Z) : Prop := (length B <= LOGSIZE)%nat /\ Forall (fun b => 0 <= b < 2 ^ 31) B.

Lemma head_with_n d B : length d = 512%nat -> small_blocks B -> head_n (head_with d B) = Z.of_nat (length B).
Proof.
  intros Hd [Hn _]. unfold head_n, head_with. rewrite get32_put_head_out by (unfold head_off; lia).
  rewrite get_put32 by lia. unfold LOGSIZE in Hn. rewrite u32_small, i32_small by lia. done.
Qed.

Lemma head_with_blocks d B : length d = 512%nat -> small_blocks B -> head_blocks (head_with d B) = B.
Proof.
  intros Hd HB. pose proof (head_with_n d B Hd HB) as En. destruct HB as [Hn HB]. apply list_eq. intros k. unfold head_blocks.
  rewrite list_lookup_fmap, En, Nat2Z.id. destruct (decide (k < length B)%nat) as [Hk|Hk].
  - rewrite lookup_seq_lt by done. simpl. destruct (lookup_lt_is_Some_2 _ _ Hk) as [b Hb]. rewrite Hb. f_equal.
    unfold head_with. rewrite (get32_put_head _ 0 B k b); [|rewrite length_put32, Hd; unfold head_off, LOGSIZE in *; lia|done].
    rewrite Forall_forall in HB. specialize (HB b (list_elem_of_lookup_2 _ _ _ Hb)). rewrite u32_small, i32_small by lia. done.
  - rewrite lookup_seq_ge by lia. simpl. symmetry. apply lookup_ge_None_2. lia.
Qed.

Lemma wp_inb {A} (m : M bst A) (Q : A -> lst -> Prop) s g : wp m (fun a b => Q a (mkLst b g)) s -> wp (inb m) Q (mkLst s g).
Proof. intros H. apply wp_lift. exact H. Qed.

(** A block read, changed and written. *)
Lemma rewrite_block s D blk (f : list Z -> list Z) : cache s D -> (length D < NBUF)%nat -> in_disk s blk ->
  wp (bread 1 blk) (fun i s1 => wp (updb i (fun b => set_b_data (f (b_data b)) b)) (fun _ s2 =>
    wp (bwrite i) (fun _ s3 => wp (brelse i) (fun _ s4 => wrote s s4 D blk (f (view s blk))) s3) s2) s1) s.
Proof.
  intros (l & Hinv & Hpin) Hlen Hblk. eapply wp_mono; [apply (bread_spec s l [] D Hinv Hpin blk Hblk)|].
  { by intros i b ?%not_elem_of_nil. }
  { destruct (free_exists s l [] D Hinv Hpin) as (i & b & Hi & Hb & Hf); [simpl; lia|]. exists i, b. auto. }
  intros i s1 [(b & Hb & Hdv & Hnb & Hvb & _) _ Hinv1 Hv1 [Hd1 Hw1 _] Hpin1 _].
  destruct (set_data_spec s1 l [i] D Hinv1 Hpin1 i b ltac:(by left) Hb (f (b_data b))) as (_ & Hinv2 & Hpin2 & Hv2).
  set (b2 := set_b_data (f (b_data b)) b) in *.
  eapply wp_intro; [by apply (updb_run i b)|]. fold b2.
  destruct (bwrite_spec _ l [i] D Hinv2 Hpin2 i b2 ltac:(by left) (bat_setb i b b2 s1 Hb)) as (s3 & E3 & Hinv3 & Hb3 & _ & Hd3 & Hw3 & _ & Hp3 & Hv3).
  eapply wp_intro; [exact E3|]. simpl in Hd3, Hw3, Hp3. rewrite Hnb in Hd3, Hw3, Hp3.
  destruct (release_last s3 l _ i _ Hinv3 Hp3 Hb3) as (s4 & E4 & Hc4 & [Hd4 Hw4 _] & Hv4).
  { intros _. simpl. rewrite Hnb. unfold disk_at. rewrite nth_lookup, Hd3, list_lookup_insert_eq; [done|]. rewrite Hd1. unfold in_disk in Hblk. lia. }
  eapply wp_intro; [exact E4|]. rewrite Hvb in *. constructor; [done|congruence|congruence|].
  intros x Hx. rewrite Hv4, Hv3, Hv2 by done. rewrite Hnb. by rewrite Hv1.
Qed.

(** ** The operations of the log *)

(** The log area is [lg_size] blocks from [lg_start]; [B] are the logged blocks. *)
Record log_ok (g : log) (s : bst) (B : list Z) : Prop := {
  lo_dev : lg_dev g = 1;
  lo_n : lh_n g = Z.of_nat (length B);
  lo_blocks : take (length B) (lh_block g) = B;
  lo_len : length (lh_block g) = LOGSIZE;
  lo_size : Z.of_nat (length B) < lg_size g <= Z.of_nat LOGSIZE;
  lo_area : 0 <= lg_start g /\ lg_start g + lg_size g <= Z.of_nat (length (bs_disk s));
  lo_nodup : NoDup B;
  lo_home b : b ∈ B -> in_disk s b /\ b < 2 ^ 31 /\ (b < lg_start g \/ lg_start g + lg_size g <= b) }.

(** [lh_at] inside the logged blocks, whatever the state of the cache. *)
Lemma wp_lh_at g s s' B t (Q : Z -> lst -> Prop) : log_ok g s B -> (t < length B)%nat ->
  (forall b, B !! t = Some b -> Q b (mkLst s' g)) -> wp (lh_at t) Q (mkLst s' g).
Proof.
  intros [] Ht HQ. destruct (lookup_lt_is_Some_2 _ _ Ht) as [b Hb]. unfold wp, lh_at. simpl.
  assert (lh_block g !! t = Some b) as -> by (by rewrite <- lo_blocks0, lookup_take_lt in Hb by done). by apply HQ.
Qed.

Definition nthz (B : list Z) (t : nat) : Z := nth t B 0.

Lemma nthz_lookup B t b : B !! t = Some b -> nthz B t = b.
Proof. intros H. unfold nthz. by rewrite nth_lookup, H. Qed.
Lemma nthz_elem B t : (t < length B)%nat -> nthz B t ∈ B.
Proof. intros [b Hb]%lookup_lt_is_Some. rewrite (nthz_lookup _ _ _ Hb). by eapply list_elem_of_lookup_2. Qed.
Lemma map_nthz B : map (nthz B) (seq 0 (length B)) = B.
Proof.
  apply list_eq. intros k. rewrite list_lookup_fmap. destruct (decide (k < length B)%nat) as [Hk|Hk].
  - rewrite lookup_seq_lt by done. simpl. destruct (lookup_lt_is_Some_2 _ _ Hk) as [b Hb]. by rewrite (nthz_lookup _ _ _ Hb), Hb.
  - rewrite lookup_seq_ge, lookup_ge_None_2 by lia. done.
Qed.

(** The log block of the [t]-th logged block. *)
Definition slot (g : log) (t : nat) : Z := lg_start g + Z.of_nat t + 1.

(** Distinctness of the blocks involved. *)
Lemma slot_facts g s B : log_ok g s B ->
  (forall t, (t < length B)%nat -> in_disk s (slot g t) /\ in_disk s (nthz B t)) /\
  (forall t u, (t < length B)%nat -> (u < length B)%nat -> nthz B t <> slot g u) /\
  (forall t u, (t < length B)%nat -> (u < length B)%nat -> nthz B t = nthz B u -> t = u).
Proof.
  intros [Hdev Hn Hbl Hlen Hsz Harea Hnd Hhome]. split; [|split].
  - intros t Ht. split; [unfold in_disk, slot; lia|]. by apply Hhome, nthz_elem.
  - intros t u Ht Hu. destruct (Hhome (nthz B t)) as (_ & _ & Hout); [by apply nthz_elem|]. unfold slot. lia.
  - intros t u Ht Hu E. destruct (lookup_lt_is_Some_2 _ _ Ht) as [b Hb]. destruct (lookup_lt_is_Some_2 _ _ Hu) as [c Hc].
    rewrite (nthz_lookup _ _ _ Hb), (nthz_lookup _ _ _ Hc) in E. subst c. by eapply NoDup_lookup.
Qed.

(** What the two copying loops write. *)
Definition log_writes (g : log) (B : list Z) (v : Z -> list Z) : list (Z * list Z) :=
  map (fun t => (slot g t, v (nthz B t))) (seq 0 (length B)).
Definition home_writes (g : log) (B : list Z) (v : Z -> list Z) : list (Z * list Z) :=
  map (fun t => (nthz B t, v (slot g t))) (seq 0 (length B)).

(** The state after some writes: the disk, the order of the writes, the view and the dirty blocks. *)
Definition after (g : log) (s : bst) (W : list (Z * list Z)) (D : list Z) (st : lst) : Prop :=
  ls_log st = g /\ bs_disk (ls_b st) = replay W (bs_disk s) /\ bs_writes (ls_b st) = rev W ++ bs_writes s /\
  (forall x, 0 <= x -> view (ls_b st) x = vreplay W (view s) x) /\
  exists D', cache (ls_b st) D' /\ (length D' <= length D)%nat /\ forall x, x ∈ D' <-> x ∈ D.

(** [lg_start .. lg_start + lg_size) holds no dirty block. *)
Definition outside (g : log) (D : list Z) : Prop := forall x, x ∈ D -> x < lg_start g \/ lg_start g + lg_size g <= x.

Lemma not_in_map (f : nat -> Z) k x : (forall t, (t < k)%nat -> f t <> x) -> x ∉ map f (seq 0 k).
Proof. intros H (t & -> & Ht)%list_elem_of_fmap. apply elem_of_seq in Ht. apply (H t); [lia|done]. Qed.

Lemma write_log_spec g s B D : log_ok g s B -> cache s D -> (length D < NBUF)%nat -> (forall b, b ∈ B -> b ∈ D) -> outside g D ->
  wp write_log (fun _ => after g s (log_writes g B (view s)) D) (mkLst s g).
Proof.
  intros Hok Hc HlD HBD HDout. pose proof Hok as [Hdev Hn Hbl Hlen Hsz Harea Hnd Hhome].
  destruct (slot_facts g s B Hok) as (Hdisk & Hsd & Hinj).
  unfold write_log. apply wp_bind, wp_gets. simpl. rewrite Hn, Nat2Z.id.
  eapply wp_mono; [apply (copies_spec _ (nthz B) (slot g) (length B) g s D)|].
  - intros t s1 D1 Ht Hc1 Hs1 Hd1 Hl1 Hin1. rewrite Hdev. apply wp_bind, wp_inb.
    eapply wp_mono; [apply (write_one s1 D1 (slot g t) (nthz B t) Hc1); [|done|done|apply not_eq_sym; by apply Hsd]|].
    { split; [lia|]. left. apply Hin1; [by apply HBD, nthz_elem|]. apply not_in_map. intros u Hu. apply not_eq_sym, Hsd; lia. }
    intros ix s2 H2. apply wp_bind. eapply wp_lh_at; [done|done|]. intros b <-%nthz_lookup. apply wp_bind, wp_inb.
    eapply wp_mono; [exact H2|]. intros iy s3 H3. apply wp_bind, wp_inb. eapply wp_mono; [exact H3|]. intros [] s4 H4.
    apply wp_bind, wp_inb. eapply wp_mono; [exact H4|]. intros [] s5 H5. apply wp_inb. eapply wp_mono; [exact H5|]. done.
  - done.
  - intros t Ht. split; apply Hdisk; done.
  - intros t u Ht Hu. apply not_eq_sym. by apply Hsd.
  - intros t u Ht Hu. unfold slot. lia.
  - intros [] st (Eg & Ed & Ew & Ev & D' & Hc' & Hl' & HD'). split; [done|]. do 3 (split; [done|]). exists D'. do 2 (split; [done|]).
    intros x. rewrite HD'. split; [tauto|]. intros Hx. split; [done|]. apply not_in_map. intros t Ht E. subst x.
    apply HDout in Hx. unfold slot in Hx. lia.
Qed.

Lemma install_trans_spec g s B D : log_ok g s B -> cache s D -> (length D < NBUF)%nat ->
  (forall b, b ∈ B -> b ∈ D) \/ (S (length D) < NBUF)%nat ->
  wp install_trans (fun _ st => ls_log st = g /\ bs_disk (ls_b st) = replay (home_writes g B (view s)) (bs_disk s) /\
    bs_writes (ls_b st) = rev (home_writes g B (view s)) ++ bs_writes s /\
    (forall x, 0 <= x -> view (ls_b st) x = vreplay (home_writes g B (view s)) (view s) x) /\
    exists D', cache (ls_b st) D' /\ (length D' <= length D)%nat /\ forall x, x ∈ D' <-> x ∈ D /\ x ∉ B) (mkLst s g).
Proof.
  intros Hok Hc HlD HBD. pose proof Hok as [Hdev Hn Hbl Hlen Hsz Harea Hnd Hhome].
  destruct (slot_facts g s B Hok) as (Hdisk & Hsd & Hinj).
  unfold install_trans. apply wp_bind, wp_gets. simpl. rewrite Hn, Nat2Z.id.
  eapply wp_mono; [apply (copies_spec _ (slot g) (nthz B) (length B) g s D)|].
  - intros t s1 D1 Ht Hc1 Hs1 Hd1 Hl1 Hin1. rewrite Hdev. apply wp_bind, wp_inb.
    eapply wp_mono; [apply (install_one s1 D1 (slot g t) (nthz B t) Hc1); [|done|done|apply not_eq_sym; by apply Hsd]|].
    { split; [lia|]. destruct HBD as [HBD|HBD]; [left|right; lia]. apply Hin1; [by apply HBD, nthz_elem|].
      apply not_in_map. intros u Hu E. apply Hinj in E; lia. }
    intros ix s2 H2. apply wp_bind. eapply wp_lh_at; [done|done|]. intros b <-%nthz_lookup. apply wp_bind, wp_inb.
    eapply wp_mono; [exact H2|]. intros iy s3 H3. apply wp_bind, wp_inb. eapply wp_mono; [exact H3|]. intros [] s4 H4.
    apply wp_bind, wp_inb. eapply wp_mono; [exact H4|]. intros [] s5 H5. apply wp_inb. eapply wp_mono; [exact H5|]. done.
  - done.
  - intros t Ht. by apply Hdisk.
  - done.
  - done.
  - intros [] st (Eg & Ed & Ew & Ev & D' & Hc' & Hl' & HD'). split; [done|]. do 3 (split; [done|]). exists D'. do 2 (split; [done|]).
    intros x. by rewrite HD', map_nthz.
Qed.

Lemma write_head_spec g s B D : lg_dev g = 1 -> lh_n g = Z.of_nat (length B) -> take (length B) (lh_block g) = B ->
  in_disk s (lg_start g) -> cache s D -> (length D < NBUF)%nat ->
  wp write_head (fun _ st => ls_log st = g /\ wrote s (ls_b st) D (lg_start g) (head_with (view s (lg_start g)) B)) (mkLst s g).
Proof.
  intros Hdev Hn Hbl Hst Hc HlD. unfold write_head. apply wp_bind, wp_gets. simpl. rewrite Hdev. apply wp_bind, wp_inb.
  eapply wp_mono; [apply (rewrite_block s D (lg_start g) (fun d => head_with d B) Hc HlD Hst)|]. intros i s1 H1.
  apply wp_bind, wp_inb. rewrite Hn, Nat2Z.id, Hbl. eapply wp_mono; [exact H1|]. intros [] s2 H2.
  apply wp_bind, wp_inb. eapply wp_mono; [exact H2|]. intros [] s3 H3. apply wp_inb. eapply wp_mono; [exact H3|]. done.
Qed.

Lemma log_ok_ext g s s' B : length (bs_disk s') = length (bs_disk s) -> log_ok g s B -> log_ok g s' B.
Proof. intros E [H1 H2 H3 H4 H5 H6 H7 H8]. constructor; try done; unfold in_disk in *; rewrite E; done. Qed.

Lemma elem_log_writes g B v x d : (x, d) ∈ log_writes g B v <-> exists t, (t < length B)%nat /\ x = slot g t /\ d = v (nthz B t).
Proof.
  unfold log_writes. rewrite list_elem_of_fmap. split.
  - intros (t & [= -> ->] & Ht%elem_of_seq). exists t. split; [lia|done].
  - intros (t & Ht & -> & ->). exists t. split; [done|]. apply elem_of_seq. lia.
Qed.
Lemma fst_log_writes g B v : (log_writes g B v).*1 = map (slot g) (seq 0 (length B)).
Proof. unfold log_writes. by rewrite <- list_fmap_compose. Qed.
Lemma fst_home_writes g B v : (home_writes g B v).*1 = B.
Proof. unfold home_writes. rewrite <- list_fmap_compose. apply map_nthz. Qed.
Lemma nodup_slots g n : NoDup (map (slot g) (seq 0 n)).
Proof. apply NoDup_fmap_2_strong; [|apply NoDup_seq]. intros x y _ _. unfold slot. lia. Qed.

(** The blocks of the transaction with their new contents. *)
Definition new_blocks (B : list Z) (v : Z -> list Z) : list (Z * list Z) := map (fun b => (b, v b)) B.

Lemma fst_new_blocks B v : (new_blocks B v).*1 = B.
Proof. unfold new_blocks. rewrite <- list_fmap_compose. apply list_fmap_id. Qed.

(** Installing a log that holds the blocks' contents writes these. *)
Lemma home_writes_new g B v v' : (forall t, (t < length B)%nat -> v (slot g t) = v' (nthz B t)) ->
  home_writes g B v = new_blocks B v'.
Proof.
  intros Hv. unfold home_writes, new_blocks. rewrite <- (map_nthz B) at 2. rewrite map_map. apply map_ext_in.
  intros t Ht%in_seq. simpl. by rewrite Hv by lia.
Qed.

(** What commit writes, in this order. *)
Definition commit_writes (g : log) (B : list Z) (v : Z -> list Z) : list (Z * list Z) :=
  let h1 := head_with (v (lg_start g)) B in
  log_writes g B v ++ [(lg_start g, h1)] ++ new_blocks B v ++ [(lg_start g, head_with h1 [])].

Lemma start_not_slot g (B : list Z) : lg_start g ∉ map (slot g) (seq 0 (length B)).
Proof. apply not_in_map. unfold slot. lia. Qed.

Lemma start_not_home g s B : log_ok g s B -> lg_start g ∉ B.
Proof. intros [] Hin. destruct (lo_home0 _ Hin) as (_ & _ & ?). lia. Qed.

Lemma commit_spec g s B : log_ok g s B -> cache s B -> B <> [] ->
  wp commit (fun _ st => ls_log st = set_lh_n 0 g /\ cache (ls_b st) [] /\
    bs_disk (ls_b st) = replay (commit_writes g B (view s)) (bs_disk s) /\
    bs_writes (ls_b st) = rev (commit_writes g B (view s)) ++ bs_writes s /\
    forall x, 0 <= x -> view (ls_b st) x = vreplay (commit_writes g B (view s)) (view s) x) (mkLst s g).
Proof.
  intros Hok Hc HB. pose proof Hok as [Hdev Hn Hbl Hlen Hsz Harea Hnd Hhome].
  assert (length B < NBUF)%nat as HlB by (unfold LOGSIZE, NBUF in *; lia).
  assert (in_disk s (lg_start g)) as Hst by (unfold in_disk; lia).
  assert (0 < length B)%nat by (destruct B; [done|simpl; lia]).
  unfold commit. apply wp_bind, wp_gets. simpl. rewrite Hn. rewrite (proj2 (Z.ltb_lt _ _)) by lia. cbn [when].
  apply wp_bind. eapply wp_mono; [apply (write_log_spec g s B B Hok Hc HlB)|]; [done|intros x Hx; by apply Hhome|].
  intros [] [s1 g1] (Eg1 & Ed1 & Ew1 & Ev1 & D1 & Hc1 & Hl1 & HD1). simpl in *. subst g1. set (v := view s) in *.
  assert (length (bs_disk s1) = length (bs_disk s)) as El1 by (by rewrite Ed1, length_replay).
  apply wp_bind. eapply wp_mono; [apply (write_head_spec g s1 B D1); try done; [unfold in_disk; by rewrite El1|lia]|].
  intros [] [s2 g2] (Eg2 & [Hc2 Hd2 Hw2 Hv2]). simpl in *. subst g2.
  assert (view s1 (lg_start g) = v (lg_start g)) as Est.
  { rewrite Ev1 by lia. apply vreplay_notin. rewrite fst_log_writes. apply start_not_slot. }
  rewrite Est in *. set (h1 := head_with (v (lg_start g)) B) in *.
  assert (length (bs_disk s2) = length (bs_disk s)) as El2 by (by rewrite Hd2, length_insert).
  assert (forall x, x ∈ filter (.≠ lg_start g) D1 <-> x ∈ B) as HD2.
  { intros x. rewrite list_elem_of_filter, HD1. split; [tauto|]. intros Hx. split; [|done]. intros ->. by apply (start_not_home g s B). }
  assert (length (filter (.≠ lg_start g) D1) < NBUF)%nat as HlD2 by (pose proof (length_filter (.≠ lg_start g) D1); lia).
  apply wp_bind. eapply wp_mono; [apply (install_trans_spec g s2 B _ (log_ok_ext _ _ _ _ El2 Hok) Hc2 HlD2); left; intros b; by rewrite HD2|].
  intros [] [s3 g3] (Eg3 & Ed3 & Ew3 & Ev3 & D3 & Hc3 & Hl3 & HD3). simpl in *. subst g3.
  assert (home_writes g B (view s2) = new_blocks B v) as Ehw.
  { apply home_writes_new. intros t Ht. rewrite Hv2 by (unfold slot; lia). rewrite decide_False by (unfold slot; lia). rewrite Ev1 by (unfold slot; lia).
    apply vreplay_in; [rewrite fst_log_writes; apply nodup_slots|]. apply elem_log_writes. by exists t. }
  rewrite Ehw in Ed3, Ew3, Ev3. assert (D3 = []) as ->.
  { destruct D3 as [|x D3]; [done|]. destruct (proj1 (HD3 x)) as [Hx1 Hx2]; [by left|]. by apply HD2 in Hx1. }
  assert (view s3 (lg_start g) = h1) as Est3.
  { rewrite Ev3 by lia. rewrite vreplay_notin by (rewrite fst_new_blocks; by apply (start_not_home g s B)).
    rewrite Hv2 by lia. by rewrite decide_True. }
  apply wp_bind, wp_modify. simpl.
  eapply wp_mono; [apply (write_head_spec (set_lh_n 0 g) s3 [] []); try done; [unfold in_disk; simpl; by rewrite Ed3, length_replay, El2|unfold NBUF; simpl; lia]|].
  intros [] [s4 g4] (Eg4 & [Hc4 Hd4 Hw4 Hv4]). simpl in *. subst g4. split; [done|]. split; [done|]. rewrite Est3 in *.
  unfold commit_writes. fold h1. rewrite !replay_app, !vreplay_app, !rev_app_distr. simpl.
  split; [congruence|]. split; [rewrite Hw4, Ew3, Hw2, Ew1; by rewrite <- !app_assoc|].
  intros x Hx. rewrite Hv4 by done. case_decide; [done|]. rewrite Ev3 by done. apply vreplay_ext.
  rewrite Hv2 by done. case_decide; [done|]. by apply Ev1.
Qed.

(** ** Recovery *)

(** A block read and released. *)
Lemma read_block s D blk : cache s D -> (length D < NBUF)%nat -> in_disk s blk ->
  wp (bread 1 blk) (fun i s1 => exists b, bat s1 i b /\ b_data b = view s blk /\
    wp (brelse i) (fun _ s2 => cache s2 D /\ same_disk s s2 /\ forall x, view s2 x = view s x) s1) s.
Proof.
  intros (l & Hinv & Hpin) Hlen Hblk. eapply wp_mono; [apply (bread_spec s l [] D Hinv Hpin blk Hblk)|].
  { by intros i b ?%not_elem_of_nil. }
  { destruct (free_exists s l [] D Hinv Hpin) as (i & b & Hi & Hb & Hf); [simpl; lia|]. exists i, b. auto. }
  intros i s1 [(b & Hb & Hdv & Hnb & Hvb & Hfb) _ Hinv1 Hv1 [Hd1 Hw1 Hp1] Hpin1 _]. exists b. split; [done|]. split; [done|].
  destruct (release_last s1 l D i b Hinv1 Hpin1 Hb) as (s2 & E2 & Hc2 & [Hd2 Hw2 Hp2] & Hv2).
  { intros Hf. rewrite Hvb, Hnb. assert (disk_at s1 blk = disk_at s blk) as -> by (unfold disk_at; by rewrite Hd1).
    apply (view_clean s l [] D); [done|done|by intros j c ?%not_elem_of_nil|]. rewrite Hfb in Hf. by case_decide. }
  eapply wp_intro; [exact E2|]. split; [done|]. split; [constructor; congruence|]. intros x. by rewrite Hv2.
Qed.

Definition log_same (g g' : log) : Prop :=
  lg_lock g' = lg_lock g /\ lg_start g' = lg_start g /\ lg_size g' = lg_size g /\ lg_outstanding g' = lg_outstanding g /\
  lg_committing g' = lg_committing g /\ lg_dev g' = lg_dev g.

Lemma head_loop n (f : nat -> Z) g s (Q : unit -> lst -> Prop) : (n <= LOGSIZE)%nat -> length (lh_block g) = LOGSIZE ->
  (forall g', log_same g g' -> lh_n g' = lh_n g -> length (lh_block g') = LOGSIZE -> take n (lh_block g') = map f (seq 0 n) -> Q tt (mkLst s g')) ->
  wp (for_each n 0 (fun k => lh_set k (f k))) Q (mkLst s g).
Proof.
  intros Hn Hlen HQ. apply (wp_for_each (fun k st => ls_b st = s /\ log_same g (ls_log st) /\ lh_n (ls_log st) = lh_n g /\
    length (lh_block (ls_log st)) = LOGSIZE /\ take k (lh_block (ls_log st)) = map f (seq 0 k))).
  - split; [done|]. split; [by repeat split|]. done.
  - intros k [s' g'] Hk (Es & Hs & En & El & Et). simpl in *. subst s'. unfold lh_set, wp. rewrite (proj2 (Nat.ltb_lt _ _)) by lia.
    unfold lmod, modify. simpl. split; [done|]. split; [done|]. split; [done|]. rewrite length_insert. split; [done|].
    replace (k + 1)%nat with (S k) by lia. rewrite (take_S_r _ _ (f k)) by (apply list_lookup_insert_eq; lia).
    rewrite take_insert_ge by lia. rewrite Et. by rewrite seq_S, map_app.
  - intros [s' g'] (Es & Hs & En & El & Et). simpl in *. subst s'. by apply HQ.
Qed.

Lemma read_head_spec g s D : lg_dev g = 1 -> in_disk s (lg_start g) -> length (lh_block g) = LOGSIZE -> cache s D -> (length D < NBUF)%nat ->
  let d := view s (lg_start g) in 0 <= head_n d <= Z.of_nat LOGSIZE ->
  wp read_head (fun _ st => log_same g (ls_log st) /\ lh_n (ls_log st) = head_n d /\ length (lh_block (ls_log st)) = LOGSIZE /\
    take (length (head_blocks d)) (lh_block (ls_log st)) = head_blocks d /\
    cache (ls_b st) D /\ same_disk s (ls_b st) /\ forall x, view (ls_b st) x = view s x) (mkLst s g).
Proof.
  intros Hdev Hst Hlen Hc HlD d Hn. unfold read_head. apply wp_bind, wp_gets. simpl. rewrite Hdev. apply wp_bind, wp_inb.
  eapply wp_mono; [by apply (read_block s D (lg_start g))|]. intros i s1 (b & Hb & Hdb & Hrel). fold d in Hdb.
  apply wp_bind, wp_inb. eapply wp_intro; [by apply getb_run|]. rewrite Hdb. fold (head_n d).
  apply wp_bind, wp_modify. simpl. apply wp_bind. apply (head_loop (Z.to_nat (head_n d)) (fun k => i32 (get32 d (head_off k)))); [lia|done|].
  intros g' Hs En El Et. apply wp_inb. eapply wp_mono; [exact Hrel|]. intros [] s2 (Hc2 & Hd2 & Hv2). simpl in *.
  split; [done|]. split; [done|]. split; [done|]. split; [|done]. unfold head_blocks. by rewrite length_map, length_seq.
Qed.

(** Recovery installs the logged blocks [B] that the header on disk names, and clears the header. *)
Definition recover_writes (g : log) (d : list Z) (v : Z -> list Z) : list (Z * list Z) :=
  home_writes g (head_blocks d) v ++ [(lg_start g, head_with d [])].

(** The header on disk is sane for this log. *)
Record head_ok (g : log) (s : bst) (d : list Z) : Prop := {
  ho_n : head_n d = Z.of_nat (length (head_blocks d));
  ho_size : Z.of_nat (length (head_blocks d)) < lg_size g <= Z.of_nat LOGSIZE;
  ho_area : 0 <= lg_start g /\ lg_start g + lg_size g <= Z.of_nat (length (bs_disk s));
  ho_nodup : NoDup (head_blocks d);
  ho_home b : b ∈ head_blocks d -> in_disk s b /\ b < 2 ^ 31 /\ (b < lg_start g \/ lg_start g + lg_size g <= b) }.

Lemma recover_spec g s : lg_dev g = 1 -> length (lh_block g) = LOGSIZE -> cache s [] -> head_ok g s (disk_at s (lg_start g)) ->
  wp recover_from_log (fun _ st => lh_n (ls_log st) = 0 /\ cache (ls_b st) [] /\
    bs_disk (ls_b st) = replay (recover_writes g (disk_at s (lg_start g)) (disk_at s)) (bs_disk s)) (mkLst s g).
Proof.
  intros Hdev Hlen Hc Hho. pose proof Hho as [Hn Hsz Harea Hnd Hhome]. set (d := disk_at s (lg_start g)) in *.
  assert (forall x, view s x = disk_at s x) as Hview.
  { intros x. destruct Hc as (l & Hi & Hp). apply (view_clean s l [] []); [done|done|by intros i b ?%not_elem_of_nil|apply not_elem_of_nil]. }
  assert (0 < NBUF)%nat by (unfold NBUF; lia). assert (in_disk s (lg_start g)) as Hst by (unfold in_disk; lia).
  unfold recover_from_log. apply wp_bind. eapply wp_mono; [apply (read_head_spec g s []); try done; rewrite Hview; fold d; lia|].
  rewrite Hview. fold d.
  intros [] [s1 g1] ((Hlk & Hs1 & Hz1 & Ho1 & Hcm1 & Hdv1) & En & El & Et & Hc1 & [Hd1 _ _] & Hv1). simpl in *.
  set (B := head_blocks d) in *.
  assert (log_ok g1 s1 B) as Hok.
  { constructor; unfold in_disk; rewrite ?Hdv1, ?En, ?Hn, ?Hs1, ?Hz1, ?Hd1; done. }
  apply wp_bind. eapply wp_mono; [apply (install_trans_spec g1 s1 B [] Hok Hc1); [done|right; unfold NBUF; simpl; lia]|].
  intros [] [s2 g2] (Eg & Ed2 & _ & Ev2 & D2 & Hc2 & Hl2 & HD2). simpl in *. subst g2.
  assert (D2 = []) as -> by (destruct D2; [done|simpl in Hl2; lia]).
  apply wp_bind, wp_modify. simpl.
  eapply wp_mono; [apply (write_head_spec (set_lh_n 0 g1) s2 [] []); try done; simpl; [congruence|unfold in_disk; by rewrite Ed2, length_replay, Hs1, Hd1]|].
  intros [] [s3 g3] (Eg3 & [Hc3 Hd3 _ _]). simpl in *. subst g3. split; [done|]. split; [done|].
  rewrite Hd3, Ed2, Hs1. unfold recover_writes. rewrite replay_app. simpl.
  assert (view s2 (lg_start g) = d) as ->.
  { rewrite Ev2 by lia. rewrite vreplay_notin.
    - by rewrite Hv1, Hview.
    - rewrite fst_home_writes. pose proof (start_not_home g1 s1 B Hok) as Hx. by rewrite Hs1 in Hx. }
  rewrite Hd1. do 2 f_equal. unfold home_writes, slot. rewrite Hs1. apply map_ext. intros t. by rewrite Hv1, Hview.
Qed.

(** ** Operations *)

Lemma begin_op_run s g : lg_lock g = false -> lg_committing g = false -> 0 <= lg_outstanding g <= 3 -> 0 <= lh_n g <= Z.of_nat LOGSIZE ->
  begin_op (mkLst s g) = (if Z.of_nat LOGSIZE <? lh_n g + (lg_outstanding g + 1) * MAXOPBLOCKS then NoFuel (mkLst s (set_lg_lock true g))
    else Ret tt (mkLst s (set_lg_lock false (set_lg_outstanding (lg_outstanding g + 1) g)))).
Proof.
  intros Hlk Hcm Ho Hn. unfold begin_op, log_acquire, lget, bind, lift, spin_acquire, gets. simpl. rewrite Hlk. simpl. rewrite Hcm.
  unfold LOGSIZE, MAXOPBLOCKS in *. rewrite !i32_small by lia. simpl. match goal with |- context [?a <? ?b] => destruct (a <? b) end; [done|].
  unfold lmod, modify, log_release, lift, spin_release. simpl. by destruct g.
Qed.
