(* ===== verification/LogThms.v ===== *)
(** * Properties of the log and of the buffer cache

    Atomicity of commit under crashes, the space accounting of transactions, and the cache as a
    refinement of the disk; with concrete instances. *)
From Stdlib Require Import ZArith Lia.
From stdpp Require Import base list numbers strings sets relations.
From S2P Require Import Prelude Block Bio BioSpec Log LogSpec.
Local Open Scope Z_scope.

(** A block outside of the log area. *)
Definition data_block (g : log) (s : bst) (x : Z) : Prop :=
  in_disk s x /\ (x < lg_start g \/ lg_start g + lg_size g <= x).

(** The machine after a crash: the disk has received the writes [P], the cache is empty, and
    initlog has found the log of [g]. *)
Record rebooted (g : log) (s : bst) (P : list (Z * list Z)) (r : lst) : Prop := {
  rb_disk : bs_disk (ls_b r) = replay P (bs_disk s);
  rb_cache : cache (ls_b r) [];
  rb_dev : lg_dev (ls_log r) = 1;
  rb_start : lg_start (ls_log r) = lg_start g;
  rb_size : lg_size (ls_log r) = lg_size g;
  rb_len : length (lh_block (ls_log r)) = LOGSIZE }.

Lemma prefix_app_cases {A} (P L R : list A) : P `prefix_of` L ++ R -> P `prefix_of` L \/ exists P', P = L ++ P' /\ P' `prefix_of` R.
Proof.
  revert P. induction L as [|x L IH]; intros P HP; [right; by exists P|].
  destruct P as [|y P]; [left; apply prefix_nil|]. apply prefix_cons_inv_1 in HP as E. apply prefix_cons_inv_2 in HP. subst y.
  destruct (IH P HP) as [H|(P' & -> & H)]; [left; by apply prefix_cons|right; by exists P'].
Qed.

Section crash.
Context (g : log) (s : bst) (B : list Z).
Context (Hok : log_ok g s B) (Hc : cache s B) (HB : B <> []).
Context (Hempty : head_n (disk_at s (lg_start g)) = 0) (Hlen : length (disk_at s (lg_start g)) = 512%nat).

Let v := view s.
Let st := lg_start g.
Let h0 := disk_at s st.
Let LW := log_writes g B v.
Let h1 := head_with (v st) B.
Let NB := new_blocks B v.
Let W := commit_writes g B v.

Lemma W_eq : W = LW ++ [(st, h1)] ++ NB ++ [(st, head_with h1 [])].
Proof. done. Qed.

Lemma st_range : 0 <= st < Z.of_nat (length (bs_disk s)) /\ 0 <= st.
Proof. destruct Hok. unfold st. lia. Qed.

Lemma view_other x : x ∉ B -> v x = disk_at s x.
Proof. intros Hx. destruct Hc as (l & Hi & Hp). apply (view_clean s l [] B); [done|done|by intros i b ?%not_elem_of_nil|done]. Qed.

Lemma head_view : v st = h0.
Proof. apply view_other. by apply (start_not_home g s B). Qed.

Lemma small_B : small_blocks B.
Proof.
  pose proof (lo_size g s B Hok) as Hsz. split; [unfold LOGSIZE in *; lia|]. apply Forall_forall. intros b Hb.
  destruct (lo_home g s B Hok b Hb) as (Hd & Hs & _). unfold in_disk in Hd. lia.
Qed.

Lemma h1_facts : head_n h1 = Z.of_nat (length B) /\ head_blocks h1 = B.
Proof. unfold h1. rewrite head_view. split; [apply head_with_n|apply head_with_blocks]; done || apply small_B. Qed.

Lemma h1_length : length h1 = 512%nat.
Proof. unfold h1. rewrite head_view. unfold head_with. by rewrite length_put_head, length_put32. Qed.

Lemma empty_head d : head_n d = 0 -> head_blocks d = [].
Proof. intros E. unfold head_blocks. by rewrite E. Qed.

Lemma h2_empty : head_n (head_with h1 []) = 0.
Proof. rewrite head_with_n; [done|apply h1_length|]. split; [unfold LOGSIZE; simpl; lia|by constructor]. Qed.

(** The writes are to the disk, and to blocks of three kinds. *)
Lemma W_in : Forall (fun w => 0 <= w.1 < Z.of_nat (length (bs_disk s))) W.
Proof.
  destruct (slot_facts g s B Hok) as (Hd & _ & _). pose proof st_range as Hst.
  unfold W, commit_writes. fold v. rewrite !Forall_app, !Forall_cons. simpl. split; [|split; [split; [apply Hst|constructor]|split; [|split; [apply Hst|constructor]]]].
  - apply Forall_forall. intros [x d] (t & Ht & -> & _)%elem_log_writes. by apply Hd.
  - apply Forall_forall. intros [x d] (b & [= -> ->] & Hb)%list_elem_of_fmap. by apply (lo_home g s B Hok).
Qed.

Lemma nth_replay P x : P `prefix_of` W -> 0 <= x -> nth (Z.to_nat x) (replay P (bs_disk s)) [] = vreplay P (disk_at s) x.
Proof.
  intros [R E] Hx. apply replay_nth; [done|]. pose proof W_in as HW. rewrite E in HW. by apply Forall_app in HW as [? _].
Qed.

Lemma data_not_slot x : data_block g s x -> x ∉ LW.*1.
Proof.
  intros [_ Hx]. unfold LW. rewrite fst_log_writes. apply not_in_map. intros t Ht. destruct Hok. unfold slot. lia.
Qed.
Lemma data_not_start x : data_block g s x -> x <> st.
Proof. intros [_ Hx]. destruct Hok. unfold st. lia. Qed.

(** Where the crash may be: in the log, after the header, or after everything. *)
Lemma prefix_cases P : P `prefix_of` W ->
  (P `prefix_of` LW /\ (length P <= length B)%nat) \/
  (exists N, N `prefix_of` NB /\ P = LW ++ [(st, h1)] ++ N /\ (length B < length P)%nat) \/ (P = W /\ (length B < length P)%nat).
Proof.
  assert (length LW = length B) as El by (unfold LW, log_writes; by rewrite length_map, length_seq).
  intros HP. rewrite W_eq in HP.
  apply prefix_app_cases in HP as [HP|(P1 & -> & HP)].
  { left. split; [done|]. rewrite <- El. by apply prefix_length. }
  destruct P1 as [|a P1].
  { left. rewrite app_nil_r. split; [done|]. lia. }
  apply prefix_cons_inv_1 in HP as Ea. apply prefix_cons_inv_2 in HP. subst a. right.
  assert (length B < length (LW ++ (st, h1) :: P1))%nat by (rewrite length_app; simpl; lia).
  apply prefix_app_cases in HP as [HP|(P2 & -> & HP)]; [left; by exists P1|].
  destruct P2 as [|a P2]; [left; exists NB; rewrite app_nil_r in *; done|].
  apply prefix_cons_inv_1 in HP as Ea. apply prefix_cons_inv_2 in HP. apply prefix_nil_inv in HP. subst a P2. right. by rewrite W_eq.
Qed.

Context (P : list (Z * list Z)) (r : lst) (HP : P `prefix_of` W) (Hr : rebooted g s P r).

Lemma boot_disk x : 0 <= x -> disk_at (ls_b r) x = vreplay P (disk_at s) x.
Proof. intros Hx. unfold disk_at at 1. rewrite (rb_disk g s P r Hr). by apply nth_replay. Qed.

(** Recovery with an empty header leaves the data blocks. *)
Lemma recover_empty : head_n (disk_at (ls_b r) st) = 0 ->
  wp recover_from_log (fun _ r' => cache (ls_b r') [] /\ forall x, data_block g s x -> disk_at (ls_b r') x = vreplay P (disk_at s) x) r.
Proof.
  intros Hn. destruct Hr as [Hd Hcr Hdv Hst Hsz Hl]. destruct r as [b lg]. simpl in *.
  eapply wp_mono; [apply (recover_spec lg b Hdv Hl Hcr)|].
  - rewrite Hst. fold st. constructor; rewrite ?(empty_head _ Hn); simpl; try done; rewrite ?Hst, ?Hsz.
    + destruct Hok. unfold LOGSIZE in *. lia.
    + rewrite Hd, length_replay. by destruct Hok.
    + constructor.
    + by intros b' ?%not_elem_of_nil.
  - intros [] r' (_ & Hc' & Hd'). split; [done|]. intros x Hx. unfold disk_at at 1. rewrite Hd', Hst. fold st.
    unfold recover_writes. rewrite (empty_head _ Hn). simpl. rewrite Hst. fold st. rewrite nth_lookup, list_lookup_insert_ne.
    + rewrite <- nth_lookup, Hd. apply nth_replay; [done|]. apply Hx.
    + pose proof (data_not_start x Hx). destruct Hx as [[? ?] _]. pose proof st_range. lia.
Qed.

(** Recovery with the header of the transaction installs it. *)
Lemma recover_full N : N `prefix_of` NB -> P = LW ++ [(st, h1)] ++ N ->
  wp recover_from_log (fun _ r' => cache (ls_b r') [] /\ forall x, data_block g s x -> disk_at (ls_b r') x = v x) r.
Proof.
  intros [N' EN] EP. destruct (slot_facts g s B Hok) as (Hslot & Hns & _). pose proof st_range as Hst0.
  assert (N.*1 ⊆ B) as HNB.
  { intros x Hx. rewrite <- (fst_new_blocks B v). fold NB. rewrite EN, fmap_app. apply elem_of_app. by left. }
  assert (st ∉ B) as HstB by (by apply (start_not_home g s B)).
  assert (disk_at (ls_b r) st = h1) as Eh.
  { rewrite boot_disk by lia. rewrite EP, !vreplay_app. rewrite vreplay_notin by (intros Hx; by apply HstB, HNB). simpl. by rewrite decide_True. }
  assert (forall t, (t < length B)%nat -> disk_at (ls_b r) (slot g t) = v (nthz B t)) as Eslot.
  { intros t Ht. rewrite boot_disk by (unfold slot, st in *; lia). rewrite EP, !vreplay_app. rewrite vreplay_notin.
    - simpl. rewrite decide_False by (unfold slot, st; lia). apply vreplay_in; [unfold LW; rewrite fst_log_writes; apply nodup_slots|].
      apply elem_log_writes. by exists t.
    - intros Hx%HNB. apply list_elem_of_lookup in Hx as [u Hu]. apply lookup_lt_Some in Hu as Hlt. apply nthz_lookup in Hu.
      apply (Hns u t); [done|done|done]. }
  pose proof boot_disk as Hboot.
  destruct Hr as [Hd Hcr Hdv Hst Hsz Hl]. destruct r as [b lg]. simpl in *. destruct h1_facts as [Hn1 Hb1].
  eapply wp_mono; [apply (recover_spec lg b Hdv Hl Hcr)|]; rewrite Hst; fold st; rewrite Eh.
  - constructor; rewrite ?Hb1, ?Hst, ?Hsz; try done; try apply Hok; unfold in_disk; rewrite ?Hd, ?length_replay; apply Hok.
  - intros [] r' (_ & Hc' & Hd'). split; [done|]. intros x Hx. unfold disk_at. rewrite Hd'.
    assert (recover_writes lg h1 (disk_at b) = NB ++ [(st, head_with h1 [])]) as ->.
    { unfold recover_writes. rewrite Hb1, Hst. f_equal. apply home_writes_new. intros t Ht. unfold slot. rewrite Hst. by apply Eslot. }
    rewrite Hd, replay_nth.
    + rewrite vreplay_app. simpl. rewrite decide_False by (by apply data_not_start).
      destruct (decide (x ∈ B)) as [HxB|HxB].
      * apply vreplay_in; [unfold NB; rewrite fst_new_blocks; apply Hok|]. unfold NB, new_blocks. apply list_elem_of_fmap. by exists x.
      * rewrite vreplay_notin by (unfold NB; by rewrite fst_new_blocks). rewrite nth_replay by (done || apply Hx).
        rewrite EP, vreplay_app. change ((st, h1) :: N) with ([(st, h1)] ++ N). rewrite vreplay_app, vreplay_notin by (intros Hx'; by apply HxB, HNB).
        simpl. rewrite decide_False by (by apply data_not_start).
        rewrite vreplay_notin by (by apply data_not_slot). by rewrite view_other.
    + apply Hx.
    + rewrite length_replay. pose proof W_in as HW. rewrite W_eq, !Forall_app in HW. apply Forall_app. tauto.
Qed.

Lemma crash_recovers :
  wp recover_from_log (fun _ r' => cache (ls_b r') [] /\
    ((length P <= length B)%nat -> forall x, data_block g s x -> disk_at (ls_b r') x = disk_at s x) /\
    ((length B < length P)%nat -> forall x, data_block g s x -> disk_at (ls_b r') x = v x)) r.
Proof.
  destruct (prefix_cases P HP) as [[[R ER] Hle]|[(N & HN & EP & Hlt)|[EP Hlt]]].
  - eapply wp_mono; [apply recover_empty|].
    + rewrite boot_disk by apply st_range. rewrite vreplay_notin; [done|]. intros Hx.
      apply (start_not_slot g B). rewrite <- (fst_log_writes g B v). fold LW. rewrite ER, fmap_app. apply elem_of_app. by left.
    + intros [] r' [Hc' Hx']. split; [done|]. split; [|lia]. intros _ x Hx. rewrite Hx' by done. apply vreplay_notin. intros Hin.
      apply (data_not_slot x Hx). rewrite ER, fmap_app. apply elem_of_app. by left.
  - eapply wp_mono; [by apply (recover_full N)|]. intros [] r' [Hc' Hx']. split; [done|]. split; [lia|]. intros _. exact Hx'.
  - eapply wp_mono; [apply recover_empty|].
    + rewrite boot_disk by apply st_range. rewrite EP, W_eq, !vreplay_app. simpl. rewrite decide_True by done. apply h2_empty.
    + intros [] r' [Hc' Hx']. split; [done|]. split; [lia|]. intros _ x Hx. rewrite Hx' by done. rewrite EP, W_eq, !vreplay_app. simpl.
      rewrite decide_False by (by apply data_not_start). destruct (decide (x ∈ B)) as [HxB|HxB].
      * apply vreplay_in; [unfold NB; rewrite fst_new_blocks; apply Hok|]. unfold NB, new_blocks. apply list_elem_of_fmap. by exists x.
      * rewrite vreplay_notin by (unfold NB; by rewrite fst_new_blocks). rewrite decide_False by (by apply data_not_start).
        rewrite vreplay_notin by (by apply data_not_slot). by rewrite view_other.
Qed.

End crash.

(** C8: commit is atomic under crashes.  Take a transaction whose blocks [B] are dirty in the cache,
    with an empty log on the disk.  Then commit returns; it leaves every data block on the disk as it
    was in the cache and no block dirty.  If the machine stops after any number of its disk writes and
    recovery runs on the disk left behind, recovery returns, and the data blocks on the disk are all
    as before the transaction if the stop came before the write of the header, and all as after it
    otherwise. *)
Theorem commit_crash_atomic g s B :
  log_ok g s B -> cache s B -> B <> [] -> head_n (disk_at s (lg_start g)) = 0 -> length (disk_at s (lg_start g)) = 512%nat ->
  wp commit (fun _ st => exists W, bs_writes (ls_b st) = rev W ++ bs_writes s /\ bs_disk (ls_b st) = replay W (bs_disk s) /\
    cache (ls_b st) [] /\ lh_n (ls_log st) = 0 /\
    (forall x, data_block g s x -> disk_at (ls_b st) x = view s x) /\
    forall P r, P `prefix_of` W -> rebooted g s P r ->
      wp recover_from_log (fun _ r' => cache (ls_b r') [] /\
        ((length P <= length B)%nat -> forall x, data_block g s x -> disk_at (ls_b r') x = disk_at s x) /\
        ((length B < length P)%nat -> forall x, data_block g s x -> disk_at (ls_b r') x = view s x)) r) (mkLst s g).
Proof.
  intros Hok Hc HB He Hl. eapply wp_mono; [by apply commit_spec|].
  intros [] st (Eg & Hc' & Hd & Hw & Hv). exists (commit_writes g B (view s)). do 3 (split; [done|]). split; [by rewrite Eg|]. split.
  - intros x Hx. destruct Hc' as (l & Hi & Hp). rewrite <- (view_clean (ls_b st) l [] []); [|done|done|by intros i b ?%not_elem_of_nil|apply not_elem_of_nil].
    rewrite Hv by apply Hx. change (vreplay (commit_writes g B (view s)) (view s) x = view s x).
    rewrite (W_eq g s B), !vreplay_app. simpl. rewrite decide_False by (by apply (data_not_start g s B)).
    destruct (decide (x ∈ B)) as [HxB|HxB].
    + apply vreplay_in; [rewrite fst_new_blocks; apply Hok|]. apply list_elem_of_fmap. by exists x.
    + rewrite vreplay_notin by (by rewrite fst_new_blocks). rewrite decide_False by (by apply (data_not_start g s B)).
      apply vreplay_notin. by apply (data_not_slot g s B).
  - intros P r HP Hr. by apply (crash_recovers g s B).
Qed.

(** ** The cache after boot *)

(** bcache is zero-initialised; the data of the buffers does not matter. *)
Definition zero_buf : buf := mkBuf 0 0 0 (mkSleeplock false false "" 0 0) 0 0 0 [].
Definition boot_state (d : list (list Z)) (pid : Z) : bst := mkBst d [] false (replicate (S NBUF) zero_buf) pid.

Definition boot_cache (d : list (list Z)) (pid : Z) : bst :=
  match binit (boot_state d pid) with Ret _ s => s | _ => boot_state d pid end.

Lemma boot_run d pid : binit (boot_state d pid) = Ret tt (boot_cache d pid).
Proof. vm_compute. reflexivity. Qed.

Lemma boot_bufs d pid i b : bat (boot_cache d pid) i b -> (i < NBUF)%nat ->
  b_flags b = 0 /\ b_dev b = 0 /\ sl_locked (b_lock b) = false /\ sl_lk (b_lock b) = false /\ b_refcnt b = 0.
Proof.
  intros Hb Hi. unfold bat in Hb.
  assert (Forall (fun b => b_flags b = 0 /\ b_dev b = 0 /\ sl_locked (b_lock b) = false /\ sl_lk (b_lock b) = false /\ b_refcnt b = 0)
    (bs_bufs (boot_cache d pid))) as Hall by (vm_compute; repeat constructor).
  rewrite Forall_forall in Hall. apply Hall. by eapply list_elem_of_lookup_2.
Qed.

Lemma boot_lru d pid : lru (bs_bufs (boot_cache d pid)) (rev (seq 0 NBUF)).
Proof.
  split; [vm_compute; repeat split|]. split; [vm_compute; repeat split|]. split; [apply NoDup_rev', NoDup_seq|].
  intros i. rewrite elem_of_rev', elem_of_seq. lia.
Qed.

Lemma boot_rest d pid : bs_disk (boot_cache d pid) = d /\ bs_lock (boot_cache d pid) = false /\ length (bs_bufs (boot_cache d pid)) = S NBUF.
Proof. split; [|split]; vm_compute; reflexivity. Qed.

Lemma boot_inv d pid : cinv (boot_cache d pid) (rev (seq 0 NBUF)) [] /\ pinned (boot_cache d pid) [] /\ bs_disk (boot_cache d pid) = d.
Proof.
  pose proof (boot_bufs d pid) as Hbuf. pose proof (boot_lru d pid) as Hlru. destruct (boot_rest d pid) as (Hd & Hlk & Hlen).
  revert Hbuf Hlru Hd Hlk Hlen. generalize (boot_cache d pid). intros s Hbuf Hlru Hd Hlk Hlen. split; [|split; [|done]].
  - constructor; [done|done|done| | |].
    + by intros i ?%not_elem_of_nil.
    + intros i b Hi Hb. destruct (Hbuf i b Hb Hi) as (H1 & H2 & H3 & H4 & H5).
      constructor; rewrite ?H1, ?H2; by auto.
    + intros i j b c blk Hi Hj Hb Hc Hh. apply holds_true in Hh as [Hh _]. destruct (Hbuf i b Hb Hi) as (_ & H2 & _). lia.
  - intros blk. split; [by intros ?%not_elem_of_nil|]. intros (i & b & Hi & Hb & _ & Hf).
    destruct (Hbuf i b Hb Hi) as (H1 & _). lia.
Qed.

(** ** Reading and writing through the cache *)

Inductive bop := BRead (blk : Z) | BWrite (blk : Z) (d : list Z).

(** A client of the cache: bread, use, brelse. *)
Definition run_bop (o : bop) : M bst (list Z) :=
  match o with
  | BRead blk => let! i := bread 1 blk in let! b := getb i in brelse i ;;; ret (b_data b)
  | BWrite blk d => let! i := bread 1 blk in updb i (fun b => set_b_data d b) ;;; bwrite i ;;; brelse i ;;; ret d
  end.
Fixpoint run_bops (os : list bop) : M bst (list (list Z)) :=
  match os with
  | [] => ret []
  | o :: os' => let! r := run_bop o in let! rs := run_bops os' in ret (r :: rs)
  end.

(** The same on a plain array of blocks. *)
Definition spec_bop (o : bop) (v : Z -> list Z) : list Z * (Z -> list Z) :=
  match o with
  | BRead blk => (v blk, v)
  | BWrite blk d => (d, fun x => if decide (x = blk) then d else v x)
  end.
Fixpoint spec_bops (os : list bop) (v : Z -> list Z) : list (list Z) * (Z -> list Z) :=
  match os with
  | [] => ([], v)
  | o :: os' => let '(r, v1) := spec_bop o v in let '(rs, v2) := spec_bops os' v1 in (r :: rs, v2)
  end.

Definition bop_block (o : bop) : Z := match o with BRead b | BWrite b _ => b end.

Lemma run_bop_spec o s : cache s [] -> in_disk s (bop_block o) ->
  wp (run_bop o) (fun r s' => cache s' [] /\ length (bs_disk s') = length (bs_disk s) /\ r = (spec_bop o (view s)).1 /\
    forall x, 0 <= x -> view s' x = (spec_bop o (view s)).2 x) s.
Proof.
  intros Hc Hd. assert (length (@nil Z) < NBUF)%nat by (unfold NBUF; simpl; lia). destruct o as [blk|blk d]; simpl in *.
  - apply wp_bind. eapply wp_mono; [by apply (read_block s [] blk)|]. intros i s1 (b & Hb & Hdb & Hrel).
    apply wp_bind. eapply wp_intro; [by apply getb_run|]. apply wp_bind. eapply wp_mono; [exact Hrel|].
    intros [] s2 (Hc2 & [Hd2 _ _] & Hv2). apply wp_ret. split; [done|]. split; [congruence|]. split; [done|]. intros x _. apply Hv2.
  - apply wp_bind. eapply wp_mono; [by apply (rewrite_block s [] blk (fun _ => d))|]. intros i s1 H1.
    apply wp_bind. eapply wp_mono; [exact H1|]. intros [] s2 H2. apply wp_bind. eapply wp_mono; [exact H2|]. intros [] s3 H3.
    apply wp_bind. eapply wp_mono; [exact H3|]. intros [] s4 [Hc4 Hd4 _ Hv4]. apply wp_ret. split; [done|].
    split; [by rewrite Hd4, length_insert|]. done.
Qed.

Lemma spec_bop_ext o v v' : 0 <= bop_block o -> (forall x, 0 <= x -> v x = v' x) ->
  (spec_bop o v).1 = (spec_bop o v').1 /\ forall x, 0 <= x -> (spec_bop o v).2 x = (spec_bop o v').2 x.
Proof. intros Ho Hv. destruct o as [b|b d]; simpl in *; [auto|]. split; [done|]. intros x Hx. case_decide; auto. Qed.

Lemma run_bops_spec os s v : cache s [] -> (forall x, 0 <= x -> view s x = v x) -> Forall (fun o => in_disk s (bop_block o)) os ->
  wp (run_bops os) (fun rs s' => cache s' [] /\ rs = (spec_bops os v).1 /\ forall x, 0 <= x -> view s' x = (spec_bops os v).2 x) s.
Proof.
  revert s v. induction os as [|o os IH]; intros s v Hc Hv Hos; simpl.
  { apply wp_ret. done. }
  apply Forall_cons in Hos as [Ho Hos]. apply wp_bind. eapply wp_mono; [by apply run_bop_spec|].
  intros r s1 (Hc1 & Hl1 & Hr & Hv1). destruct (spec_bop_ext o (view s) v) as [E1 E2]; [apply Ho|done|].
  destruct (spec_bop o v) as [r' v1] eqn:Eo. simpl in *. apply wp_bind.
  eapply wp_mono; [apply (IH s1 v1 Hc1)|].
  - intros x Hx. rewrite Hv1 by done. by apply E2.
  - eapply Forall_impl; [exact Hos|]. intros o'. unfold in_disk. by rewrite Hl1.
  - intros rs s2 (Hc2 & -> & Hv2). apply wp_ret. destruct (spec_bops os v1) as [rs' v2]. simpl in *. split; [done|]. split; [congruence|done].
Qed.

(** C10: the buffer cache refines the disk.  From the cache as binit leaves it, any sequence of reads
    and writes of blocks of the disk, each bracketed by bread and brelse, returns (no panic for want of
    buffers), gives the results of the same sequence on a plain array of blocks, and leaves on the disk
    what the array holds. *)
Theorem cache_refines_disk d pid os :
  Forall (fun o => 0 <= bop_block o < Z.of_nat (length d)) os ->
  wp (binit ;;; run_bops os) (fun rs s' =>
    rs = (spec_bops os (fun x => nth (Z.to_nat x) d [])).1 /\
    forall x, 0 <= x -> nth (Z.to_nat x) (bs_disk s') [] = (spec_bops os (fun x => nth (Z.to_nat x) d [])).2 x) (boot_state d pid).
Proof.
  intros Hos. apply wp_bind. eapply wp_intro; [apply boot_run|]. destruct (boot_inv d pid) as (Hi & Hp & Hd).
  revert Hi Hp Hd. generalize (boot_cache d pid). intros s0 Hi Hp Hd.
  assert (forall s, cache s [] -> forall x, view s x = disk_at s x) as Hclean.
  { intros s (l & H1 & H2) x. apply (view_clean s l [] []); [done|done|by intros i b ?%not_elem_of_nil|apply not_elem_of_nil]. }
  assert (cache s0 []) as Hc by (by exists (rev (seq 0 NBUF))).
  eapply wp_mono; [apply (run_bops_spec os s0 (fun x => nth (Z.to_nat x) d []) Hc)|].
  - intros x _. rewrite Hclean by done. unfold disk_at. by rewrite Hd.
  - eapply Forall_impl; [exact Hos|]. intros o. unfold in_disk. by rewrite Hd.
  - intros rs s' (Hc' & Hr & Hv). split; [done|]. intros x Hx. rewrite <- Hv by done. symmetry. by apply Hclean.
Qed.

Lemma cache_refines_disk_witness :
  wp (binit ;;; run_bops [BWrite 2 [7]; BRead 2; BRead 1]) (fun rs s' => rs = [[7]; [7]; [1]]) (boot_state [[0]; [1]; [2]] 1).
Proof.
  eapply wp_mono; [apply (cache_refines_disk [[0]; [1]; [2]] 1 [BWrite 2 [7]; BRead 2; BRead 1])|].
  - repeat constructor; simpl; lia.
  - intros rs s' [-> _]. reflexivity.
Defined.

(** ** An instance of the crash theorem *)

Definition ldemo_disk : list (list Z) := replicate 40 (replicate 512 0).
(** The log of [ldemo_disk]: 30 blocks from block 2, with block 35 logged. *)
Definition ldemo_log : log := mkLog false 2 30 0 false 1 1 (35 :: replicate 29 0) 0.

Lemma ldemo_dirty : exists s, cache s [35] /\ bs_disk s = ldemo_disk.
Proof.
  destruct (boot_inv ldemo_disk 1) as (Hi & Hp & Hd). revert Hi Hp Hd. generalize (boot_cache ldemo_disk 1). intros s0 Hi Hp Hd.
  assert (in_disk s0 35) as Hin by (unfold in_disk; rewrite Hd; vm_compute; split; congruence).
  pose proof (bread_spec s0 _ [] [] Hi Hp 35 Hin) as Hb. destruct (wp_elim _ _ _ (Hb ltac:(by intros i b ?%not_elem_of_nil)
    ltac:(destruct (free_exists s0 _ [] [] Hi Hp) as (i & b & Hi' & Hb' & Hf); [unfold NBUF; simpl; lia|]; exists i, b; auto)))
    as (i & s1 & _ & [(b & Hb1 & Hdv & Hnb & Hvb & _) _ Hinv1 _ [Hd1 _ _] Hpin1 _]).
  destruct (pin_spec s1 _ [i] [] Hinv1 Hpin1 i b ltac:(by left) Hb1 [35]) as (_ & Hinv2 & Hpin2 & _).
  { intros x. rewrite list_elem_of_singleton, Hnb. split; [by left|]. intros [?|?%not_elem_of_nil]; done. }
  destruct (release_last _ _ [35] i (set_b_flags 6 b) Hinv2 Hpin2) as (s3 & _ & Hc3 & [Hd3 _ _] & _);
    [by apply (bat_setb i b)|done|].
  exists s3. split; [done|]. rewrite Hd3. simpl. by rewrite Hd1.
Qed.

Lemma ldemo_ok s : bs_disk s = ldemo_disk -> log_ok ldemo_log s [35].
Proof.
  intros Hd. constructor; try done.
  - rewrite Hd. change (length ldemo_disk) with 40%nat. unfold ldemo_log. simpl. lia.
  - apply NoDup_singleton.
  - intros b ->%list_elem_of_singleton. unfold in_disk, ldemo_log. rewrite Hd. change (length ldemo_disk) with 40%nat. simpl. lia.
Qed.

Lemma commit_crash_atomic_witness :
  exists s, cache s [35] /\ wp commit (fun _ st => disk_at (ls_b st) 35 = view s 35) (mkLst s ldemo_log).
Proof.
  destruct ldemo_dirty as (s & Hc & Hd). exists s. split; [exact Hc|].
  assert (disk_at s 2 = replicate 512 0) as Hh by (unfold disk_at; rewrite Hd; reflexivity).
  eapply wp_mono; [apply (commit_crash_atomic ldemo_log s [35] (ldemo_ok s Hd) Hc)|].
  - discriminate.
  - simpl. rewrite Hh. reflexivity.
  - simpl. rewrite Hh. reflexivity.
  - intros [] st (W & _ & _ & _ & _ & Hx & _). apply Hx. split; [unfold in_disk; rewrite Hd; change (length ldemo_disk) with 40%nat; lia|unfold ldemo_log; simpl; lia].
Defined.

(** ** Log space *)

(** Computations that leave the log structure alone. *)
Definition keeps_log {A} (m : M lst A) : Prop := forall s a s', m s = Ret a s' -> ls_log s' = ls_log s.

Lemma keeps_bind {A B} (m : M lst A) (f : A -> M lst B) : keeps_log m -> (forall a, keeps_log (f a)) -> keeps_log (bind m f).
Proof.
  intros Hm Hf s b s'. unfold bind. destruct (m s) as [a s1|?|?|?] eqn:E; [|done..]. intros E2.
  rewrite (Hf a _ _ _ E2). by eapply Hm.
Qed.
Lemma keeps_inb {A} (m : M bst A) : keeps_log (inb m).
Proof. intros s a s'. unfold inb, lift. destruct (m (ls_b s)); [by intros [= <- <-]|done..]. Qed.
Lemma keeps_lh_at i : keeps_log (lh_at i).
Proof. intros s a s'. unfold lh_at. destruct (_ !! i); [by intros [= _ <-]|done]. Qed.
Lemma keeps_lget : keeps_log lget.
Proof. by intros s a s' [= _ <-]. Qed.
Lemma keeps_for_each n i body : (forall k, keeps_log (body k)) -> keeps_log (for_each n i body).
Proof.
  intros Hb. revert i. induction n as [|n IH]; intros i; simpl; [by intros s a s' [= _ <-]|].
  apply keeps_bind; [done|]. intros _. apply IH.
Qed.

Create HintDb keeps discriminated.
#[local] Hint Resolve keeps_bind keeps_inb keeps_lh_at keeps_lget keeps_for_each : keeps.

Lemma keeps_write_head : keeps_log write_head.
Proof. unfold write_head. eauto 10 with keeps. Qed.
Lemma keeps_write_log : keeps_log write_log.
Proof. unfold write_log. apply keeps_bind; [apply keeps_lget|]. intros g. apply keeps_for_each. intros k. eauto 20 with keeps. Qed.
Lemma keeps_install_trans : keeps_log install_trans.
Proof. unfold install_trans. apply keeps_bind; [apply keeps_lget|]. intros g. apply keeps_for_each. intros k. eauto 20 with keeps. Qed.

(** commit empties the log. *)
Lemma commit_log s s' : commit s = Ret tt s' ->
  ls_log s' = if 0 <? lh_n (ls_log s) then set_lh_n 0 (ls_log s) else ls_log s.
Proof.
  unfold commit, lget. unfold bind at 1, gets. destruct (0 <? lh_n (ls_log s)); simpl; [|by intros [= <-]].
  unfold bind. destruct (write_log s) as [[] s1|?|?|?] eqn:E1; [|done..]. destruct (write_head s1) as [[] s2|?|?|?] eqn:E2; [|done..].
  destruct (install_trans s2) as [[] s3|?|?|?] eqn:E3; [|done..]. unfold lmod, modify. intros E4.
  rewrite (keeps_write_head _ _ _ E4). simpl. by rewrite (keeps_install_trans _ _ _ E3), (keeps_write_head _ _ _ E2), (keeps_write_log _ _ _ E1).
Qed.

(** File-system operations: [us] are the numbers of blocks that the operations in progress have
    added to the log. *)
Inductive opstep : lst * list nat -> lst * list nat -> Prop :=
| op_begin s s' us : begin_op s = Ret tt s' -> opstep (s, us) (s', 0%nat :: us)
| op_write s s' us1 u us2 i : Z.of_nat u < MAXOPBLOCKS -> log_write i s = Ret tt s' ->
    opstep (s, us1 ++ u :: us2) (s', us1 ++ (u + Z.to_nat (lh_n (ls_log s') - lh_n (ls_log s)))%nat :: us2)
| op_end s s' us1 u us2 : end_op s = Ret tt s' -> opstep (s, us1 ++ u :: us2) (s', us1 ++ us2).

(** The space still reserved by the operations in progress. *)
Definition reserve (us : list nat) : nat := sum_list_with (fun u => 10 - u)%nat us.

Record space_inv (c : lst * list nat) : Prop := {
  si_lock : lg_lock (ls_log c.1) = false;
  si_committing : lg_committing (ls_log c.1) = false;
  si_outstanding : lg_outstanding (ls_log c.1) = Z.of_nat (length c.2);
  si_n : 0 <= lh_n (ls_log c.1);
  si_space : lh_n (ls_log c.1) + Z.of_nat (reserve c.2) <= Z.of_nat LOGSIZE;
  si_block : length (lh_block (ls_log c.1)) = LOGSIZE;
  si_few : (length c.2 <= 3)%nat;
  si_size : Z.of_nat LOGSIZE < lg_size (ls_log c.1) }.

Lemma reserve_app us1 us2 : reserve (us1 ++ us2) = (reserve us1 + reserve us2)%nat.
Proof. unfold reserve. apply sum_list_with_app. Qed.
Lemma reserve_cons u us : reserve (u :: us) = ((10 - u) + reserve us)%nat.
Proof. done. Qed.
Lemma reserve_length us : (reserve us <= 10 * length us)%nat.
Proof. induction us as [|u us IH]; [done|]. rewrite reserve_cons. simpl. lia. Qed.

(** The search of log_write. *)
Lemma find_logged g b blk n : (n <= length (lh_block g))%nat ->
  exists r, for_range n 0 (fun k => let! c := lh_at k in ret (if c =? blk then Some k else None)) (mkLst b g) = Ret r (mkLst b g) /\
    match r with Some k => (k < n)%nat | None => True end.
Proof.
  intros Hn. assert (forall m i, (i + m <= length (lh_block g))%nat ->
    exists r, for_range m i (fun k => let! c := lh_at k in ret (if c =? blk then Some k else None)) (mkLst b g) = Ret r (mkLst b g) /\
    match r with Some k => (k < i + m)%nat | None => True end) as H; [|by apply (H n 0%nat)].
  induction m as [|m IH]; intros i Hi; simpl; [by exists None|]. unfold bind at 1, bind at 1, lh_at at 1. simpl.
  destruct (lookup_lt_is_Some_2 (lh_block g) i) as [c ->]; [lia|]. simpl. destruct (c =? blk).
  - exists (Some i). split; [done|]. lia.
  - destruct (IH (i + 1)%nat ltac:(lia)) as (r & E & Hr). exists r. split; [exact E|]. destruct r; [lia|done].
Qed.

Lemma log_write_run i b s g : bat s i b -> lg_lock g = false -> 0 <= lh_n g < Z.of_nat LOGSIZE -> lh_n g < lg_size g - 1 ->
  1 <= lg_outstanding g -> length (lh_block g) = LOGSIZE ->
  exists s', log_write i (mkLst s g) = Ret tt s' /\ (lh_n (ls_log s') = lh_n g \/ lh_n (ls_log s') = lh_n g + 1) /\
    log_same g (ls_log s') /\ length (lh_block (ls_log s')) = LOGSIZE.
Proof.
  intros Hb Hlk Hn Hsz Ho Hlen. unfold log_write, lget. unfold bind at 1, gets. simpl.
  rewrite (proj2 (Z.leb_gt _ _)) by lia. rewrite (proj2 (Z.leb_gt _ _)) by lia. rewrite (proj2 (Z.ltb_ge _ _)) by lia. simpl.
  unfold bind at 1. unfold log_acquire, lift, spin_acquire. simpl. rewrite Hlk. unfold bind at 1. unfold inb at 1, lift. simpl. rewrite (getb_run i b) by done.
  set (g1 := set_lg_lock true g). change (set_ls_b s (set_ls_log g1 (mkLst s g))) with (mkLst s g1).
  destruct (find_logged g1 s (i32 (b_blockno b)) (Z.to_nat (lh_n g))) as (r & E & Hr); [simpl; lia|]. unfold bind at 1. rewrite E.
  set (k := match r with Some k => k | None => Z.to_nat (lh_n g) end).
  assert (k < LOGSIZE)%nat as Hk by (unfold k; destruct r; lia).
  unfold bind at 1, lh_set. rewrite (proj2 (Nat.ltb_lt _ _) Hk). unfold lmod, modify. simpl.
  unfold bind, when. destruct (Z.of_nat k =? lh_n g); unfold skip, ret, lmod, modify, inb, lift; simpl; rewrite (updb_run i b) by done; simpl;
    (eexists; split; [reflexivity|]; simpl; split; [auto|]; split; [by repeat split|]; by rewrite length_insert).
Qed.

Lemma end_op_log s g s' : lg_lock g = false -> lg_committing g = false -> 1 <= lg_outstanding g <= 3 -> end_op (mkLst s g) = Ret tt s' ->
  lg_lock (ls_log s') = false /\ lg_committing (ls_log s') = false /\ lg_outstanding (ls_log s') = lg_outstanding g - 1 /\
  lg_size (ls_log s') = lg_size g /\ lh_block (ls_log s') = lh_block g /\ (lh_n (ls_log s') = lh_n g \/ lh_n (ls_log s') = 0).
Proof.
  intros Hlk Hcm Ho. unfold end_op. unfold bind at 1. unfold log_acquire, lift, spin_acquire. simpl. rewrite Hlk.
  unfold bind at 1, lget, gets. unfold bind at 1, lmod, modify. simpl. rewrite Hcm. rewrite i32_small by lia. unfold bind at 1, gets. simpl.
  destruct (Z.eqb_spec (lg_outstanding g - 1) 0) as [E0|E0]; simpl.
  - unfold bind at 1, when, lmod, modify. simpl. unfold bind at 1. unfold log_release, lift, spin_release. simpl. unfold bind at 1.
    destruct (commit _) as [[] s1|?|?|?] eqn:Ec; [|done..]. apply commit_log in Ec. simpl in Ec.
    unfold bind. rewrite Ec. destruct (0 <? lh_n g); simpl; intros [= <-]; simpl; auto 10.
  - unfold bind, when, skip, ret, log_release, lift, spin_release. simpl. intros [= <-]. simpl. auto 10.
Qed.

Lemma opstep_inv c c' : opstep c c' -> space_inv c -> space_inv c'.
Proof.
  intros Hstep [Hlk Hcm Ho Hn Hsp Hbl Hfew Hsz].
  destruct Hstep as [[s g] s' us E|[s g] s' us1 u us2 i Hu E|[s g] s' us1 u us2 E]; simpl in *.
  - pose proof (reserve_length us) as Hr. rewrite begin_op_run in E by (done || lia).
    destruct (Z.ltb_spec (Z.of_nat LOGSIZE) (lh_n g + (lg_outstanding g + 1) * MAXOPBLOCKS)) as [?|Hle]; [done|]. injection E as <-.
    unfold MAXOPBLOCKS, LOGSIZE in Hle. constructor; simpl; try done; try rewrite reserve_cons; unfold LOGSIZE; simpl; lia.
  - rewrite length_app in *. simpl in *. rewrite reserve_app, reserve_cons in Hsp. unfold MAXOPBLOCKS in Hu.
    destruct (bs_bufs s !! i) as [b|] eqn:Hb.
    + destruct (log_write_run i b s g Hb) as (s2 & E2 & Hn2 & (H1 & _ & H3 & H4 & H5 & _) & Hl2); [done|lia|lia|lia|done|].
      rewrite E2 in E. injection E as <-. constructor; simpl; rewrite ?H1, ?H3, ?H4, ?H5, ?length_app; simpl; try done; try lia.
      rewrite reserve_app, reserve_cons. destruct Hn2 as [-> | ->]; lia.
    + exfalso. revert E. unfold log_write, lget, bind, gets. simpl. destruct (_ || _); [done|]. destruct (_ <? 1); [done|].
      unfold log_acquire, lift, spin_acquire. simpl. rewrite Hlk. unfold inb, lift, getb. simpl. by rewrite Hb.
  - rewrite length_app in *. simpl in *. rewrite reserve_app, reserve_cons in Hsp.
    destruct (end_op_log s g s' Hlk Hcm ltac:(lia) E) as (H1 & H2 & H3 & H4 & H5 & H6).
    constructor; simpl; rewrite ?H1, ?H2, ?H3, ?H4, ?H5, ?length_app, ?reserve_app; try done; try lia; destruct H6 as [-> | ->]; lia.
Qed.

Lemma reachable_space c c' : rtc opstep c c' -> space_inv c -> space_inv c'.
Proof. induction 1; eauto using opstep_inv. Qed.

(** C22: transactions do not outgrow the log.  From an idle, empty log with room for LOGSIZE blocks
    after its header, however operations begin, log blocks (each at most MAXOPBLOCKS new ones) and
    end: the log never holds more than LOGSIZE blocks, at most three operations are in progress, and
    an operation that is within its budget logs a buffer without panic. *)
Theorem log_space_suffices s0 s us :
  space_inv (s0, []) -> rtc opstep (s0, []) (s, us) ->
  lh_n (ls_log s) <= Z.of_nat LOGSIZE /\ (length us <= 3)%nat /\
  (forall us1 u us2 i b, us = us1 ++ u :: us2 -> Z.of_nat u < MAXOPBLOCKS -> bat (ls_b s) i b ->
     exists s', log_write i s = Ret tt s').
Proof.
  intros H0 Hr. destruct (reachable_space _ _ Hr H0) as [Hlk Hcm Ho Hn Hsp Hbl Hfew Hsz]. simpl in *.
  split; [lia|]. split; [done|]. intros us1 u us2 i b -> Hu Hb. destruct s as [s g]. simpl in *.
  rewrite length_app in Ho. simpl in Ho. rewrite reserve_app, reserve_cons in Hsp. unfold MAXOPBLOCKS in Hu.
  destruct (log_write_run i b s g Hb) as (s' & E & _); [done|lia|lia|lia|done|]. by exists s'.
Qed.

Definition idle_log (size : Z) : log := mkLog false 2 size 0 false 1 0 (replicate LOGSIZE 0) 0.
Definition ldemo_start (size : Z) : lst := mkLst (boot_cache (replicate 80 [0]) 1) (idle_log size).

Definition after_begin : lst := match begin_op (ldemo_start 31) with Ret _ s => s | _ => ldemo_start 31 end.

Lemma log_space_suffices_witness :
  space_inv (ldemo_start 31, []) /\ rtc opstep (ldemo_start 31, []) (after_begin, [0%nat]) /\
  exists s', log_write 3 after_begin = Ret tt s'.
Proof.
  assert (space_inv (ldemo_start 31, [])) as H0 by (split; try done; vm_compute; lia).
  assert (rtc opstep (ldemo_start 31, []) (after_begin, [0%nat])) as H1
    by (apply rtc_once, op_begin; vm_compute; reflexivity).
  split; [exact H0|]. split; [exact H1|].
  destruct (log_space_suffices _ _ _ H0 H1) as (_ & _ & H).
  eapply (H [] 0%nat [] 3%nat (nth 3 (bs_bufs (ls_b after_begin)) zero_buf)); [done|unfold MAXOPBLOCKS; lia|vm_compute; reflexivity].
Defined.

(** ** A log as small as mkfs makes it *)

(** A block that is not in the log goes to its end. *)
Definition logged (g : log) : list Z := take (Z.to_nat (lh_n g)) (lh_block g).
Definition add_logged (blk : Z) (g : log) : log :=
  set_lh_n (lh_n g + 1) (set_lh_block (<[Z.to_nat (lh_n g) := blk]> (lh_block g)) g).

Lemma log_write_new i b s g : bat s i b -> lg_lock g = false -> 0 <= lh_n g < Z.of_nat LOGSIZE -> lh_n g < lg_size g - 1 ->
  1 <= lg_outstanding g -> length (lh_block g) = LOGSIZE -> i32 (b_blockno b) ∉ logged g ->
  log_write i (mkLst s g) =
    Ret tt (mkLst (setb i (set_b_flags (Z.lor (b_flags b) B_DIRTY) b) s) (add_logged (i32 (b_blockno b)) g)).
Proof.
  intros Hb Hlk Hn Hsz Ho Hlen Hnew. unfold log_write, lget. unfold bind at 1, gets. simpl.
  rewrite (proj2 (Z.leb_gt _ _)) by lia. rewrite (proj2 (Z.leb_gt _ _)) by lia. rewrite (proj2 (Z.ltb_ge _ _)) by lia. simpl.
  unfold bind at 1. unfold log_acquire, lift, spin_acquire. simpl. rewrite Hlk. unfold bind at 1. unfold inb at 1, lift. simpl. rewrite (getb_run i b) by done.
  set (g1 := set_lg_lock true g). change (set_ls_b s (set_ls_log g1 (mkLst s g))) with (mkLst s g1).
  unfold bind at 1. rewrite for_range_none.
  2:{ intros k [_ Hk]. unfold bind, lh_at. simpl. destruct (lookup_lt_is_Some_2 (lh_block g) k) as [c Ec]; [lia|].
      rewrite Ec. simpl. destruct (Z.eqb_spec c (i32 (b_blockno b))) as [->|]; [|done].
      destruct Hnew. apply (list_elem_of_lookup_2 _ k). unfold logged. rewrite lookup_take_lt by lia. done. }
  unfold bind at 1, lh_set. rewrite (proj2 (Nat.ltb_lt _ _)) by (simpl; lia). unfold lmod, modify. simpl.
  rewrite Z2Nat.id, Z.eqb_refl by lia. unfold bind, when, lmod, modify, inb, lift. simpl. rewrite (updb_run i b) by done. simpl.
  unfold log_release, lift, spin_release, add_logged. simpl. destruct g; simpl in *; subst. done.
Qed.

(** log_write of buffers, one after the other *)
Definition log_writes (bs : list nat) : M lst unit := foldr (fun i k => log_write i ;;; k) skip bs.

(** The buffers [bs] hold the blocks [blks]. *)
Definition hold (s : bst) (bs : list nat) (blks : list Z) : Prop :=
  Forall2 (fun i blk => exists b, bat s i b /\ i32 (b_blockno b) = blk) bs blks.

Lemma hold_dirty s i b bs blks : bat s i b -> hold s bs blks ->
  hold (setb i (set_b_flags (Z.lor (b_flags b) B_DIRTY) b) s) bs blks.
Proof.
  intros Hb Hh. eapply Forall2_impl; [exact Hh|]. intros j blk (b' & Hb' & E). unfold bat, setb in *. simpl.
  destruct (decide (j = i)) as [->|].
  - eexists. rewrite list_lookup_insert_eq by (by eapply lookup_lt_Some). split; [done|]. simpl. congruence.
  - exists b'. by rewrite list_lookup_insert_ne by done.
Qed.

Lemma log_writes_panic bs blks s g : lg_lock g = false -> lg_size g = Z.of_nat LOGSIZE -> 1 <= lg_outstanding g ->
  length (lh_block g) = LOGSIZE -> 0 <= lh_n g -> lh_n g + Z.of_nat (length bs) = Z.of_nat LOGSIZE -> bs <> [] ->
  hold s bs blks -> NoDup (logged g ++ blks) ->
  exists s', log_writes bs (mkLst s g) = Panic "too big a transaction" s' /\
    logged (ls_log s') = logged g ++ take (length bs - 1) blks /\ lg_outstanding (ls_log s') = lg_outstanding g.
Proof.
  revert blks s g. induction bs as [|i bs IH]; intros blks s g Hlk Hsz Ho Hlen Hn0 Hn Hne Hh Hnd; [done|].
  apply Forall2_cons_inv_l in Hh as (blk & blks' & (b & Hb & <-) & Hh & ->). cbn [log_writes foldr length] in *.
  unfold bind at 1. destruct bs as [|j bs].
  - unfold log_write, lget, bind at 1, gets. simpl in *. rewrite (proj2 (Z.leb_gt _ _)), (proj2 (Z.leb_le _ _)) by lia.
    eexists. split; [done|]. simpl. by rewrite app_nil_r.
  - apply NoDup_app in Hnd as Hnd'. destruct Hnd' as (Hn1 & Hn2 & Hn3). simpl length in Hn.
    assert (Z.to_nat (lh_n g) < LOGSIZE)%nat as Hlt by lia.
    rewrite (log_write_new i b) by (done || lia || (intros Hi; by apply (Hn2 _ Hi), list_elem_of_here)).
    assert (logged (add_logged (i32 (b_blockno b)) g) = logged g ++ [i32 (b_blockno b)]) as El.
    { unfold logged, add_logged. simpl. rewrite Z2Nat.inj_add by lia. change (Z.to_nat 1) with 1%nat.
      rewrite Nat.add_1_r. rewrite (take_S_r _ _ (i32 (b_blockno b))) by (apply list_lookup_insert_eq; lia).
      by rewrite take_insert_ge. }
    destruct (IH blks' (setb i (set_b_flags (Z.lor (b_flags b) B_DIRTY) b) s) (add_logged (i32 (b_blockno b)) g)) as (s' & E & Hl & Ho');
      try done; try (simpl; lia); [by rewrite <- Hlen; apply length_insert|by apply hold_dirty|by rewrite El, <- app_assoc|].
    exists s'. split; [exact E|]. rewrite Hl, El, <- app_assoc. simpl. split; [by rewrite Nat.sub_0_r|done].
Qed.

(** C34: begin_op admits three operations at a time, of MAXOPBLOCKS blocks each, but the log that mkfs
    makes has LOGSIZE blocks with its header, and log_write keeps one of them free.  On every idle,
    empty log of that size begin_op lets three operations in; when they write their thirty blocks,
    whichever they are, the log takes the first 29 and the kernel panics at the last. *)
Theorem three_operations_overflow_log s g bs blks :
  lg_lock g = false -> lg_committing g = false -> lg_outstanding g = 0 -> lh_n g = 0 ->
  length (lh_block g) = LOGSIZE -> lg_size g = Z.of_nat LOGSIZE ->
  Z.of_nat (length bs) = 3 * MAXOPBLOCKS -> hold s bs blks -> NoDup blks ->
  exists s', (begin_op ;;; begin_op ;;; begin_op ;;; log_writes bs) (mkLst s g) = Panic "too big a transaction" s' /\
    logged (ls_log s') = take 29 blks /\ lg_outstanding (ls_log s') = 3.
Proof.
  intros Hlk Hcm Ho Hn Hlen Hsz Hi Hh Hnd. unfold MAXOPBLOCKS in Hi. destruct g as [lk st sz out cm dv n bl wk]. simpl in *. subst.
  do 3 (unfold bind at 1; rewrite begin_op_run by (simpl; done || lia);
        rewrite (proj2 (Z.ltb_ge _ _)) by (unfold MAXOPBLOCKS, LOGSIZE; simpl; lia);
        cbn [lg_outstanding set_lg_lock set_lg_outstanding]).
  match goal with |- context [log_writes bs (mkLst s ?g')] => destruct (log_writes_panic bs blks s g') as (s' & E & Hl & Ho') end;
    try done; try (simpl; unfold LOGSIZE in *; lia); [by intros ->|].
  exists s'. split; [exact E|]. rewrite Hl, Ho'. split; [|done]. unfold logged. simpl. f_equal. lia.
Qed.

(** Thirty buffers with the blocks 40 to 69 *)
Definition full_cache : bst :=
  let s := boot_cache (replicate 80 [0]) 1 in
  set_bs_bufs (imap (fun i b => mkBuf (b_flags b) (b_dev b) (40 + Z.of_nat i) (b_lock b) (b_refcnt b) (b_prev b) (b_next b) (b_data b))
                 (bs_bufs s)) s.

Lemma full_cache_holds : hold full_cache (seq 0 30) (map (fun i => 40 + Z.of_nat i) (seq 0 30)).
Proof.
  assert (Forall (fun i => match bs_bufs full_cache !! i with
    | Some b => i32 (b_blockno b) =? 40 + Z.of_nat i | None => false end = true) (seq 0 30)) as H
    by (apply List.Forall_forall, forallb_forall; vm_compute; reflexivity).
  apply Forall2_fmap_r, Forall_Forall2_diag. eapply Forall_impl; [exact H|]. intros i Hi. cbv beta in Hi |- *.
  unfold bat. destruct (bs_bufs full_cache !! i) as [b|] eqn:E; [|done]. exists b. split; [done|]. by apply Z.eqb_eq.
Qed.

Lemma three_operations_overflow_log_witness : exists s',
  (begin_op ;;; begin_op ;;; begin_op ;;; log_writes (seq 0 30)) (mkLst full_cache (idle_log (Z.of_nat LOGSIZE))) =
    Panic "too big a transaction" s' /\
  logged (ls_log s') = take 29 (map (fun i => 40 + Z.of_nat i) (seq 0 30)) /\ lg_outstanding (ls_log s') = 3.
Proof.
  apply (three_operations_overflow_log full_cache (idle_log (Z.of_nat LOGSIZE)) (seq 0 30)
    (map (fun i => 40 + Z.of_nat i) (seq 0 30))); try reflexivity.
  - apply full_cache_holds.
  - apply NoDup_fmap_2; [intros a b; lia|apply NoDup_seq].
Defined.
