(* ===== verification/Ulib.v ===== *)
(** * The user library (src/ulib.c)

    A char array is the list of its bytes, and a pointer into it the list from there to the end of
    the array; [None] is an access past the end.  A C string is a list with a NUL in it.  The input
    of a process is the list of the results its reads will have: a read takes at most [n] bytes of
    the first of them, and an empty list is the end of the file. *)
From Stdlib Require Import ZArith Lia.
From stdpp Require Import base list numbers strings.
From S2P Require Import Prelude.
Local Open Scope Z_scope.

Definition NL : Z := 10.
Definition CR : Z := 13.

(** The characters of the string at the head of an array. *)
Fixpoint chars (s : list Z) : list Z :=
  match s with
  | [] => []
  | c :: s' => if c =? 0 then [] else c :: chars s'
  end.

(** ** Strings *)

(** [strcpy(s, t)]: the array [s] afterwards. *)
Fixpoint strcpy (s t : list Z) : option (list Z) :=
  match s, t with
  | _ :: s', c :: t' => if c =? 0 then Some (c :: s') else cons c <$> strcpy s' t'
  | _, _ => None
  end.

Fixpoint strcmp (p q : list Z) : option Z :=
  match p, q with
  | a :: p', b :: q' =>
      if negb (a =? 0) && (a =? b) then strcmp p' q' else Some (a mod 256 - b mod 256)
  | _, _ => None
  end.

Fixpoint strlen (s : list Z) : option Z :=
  match s with
  | [] => None
  | c :: s' => if c =? 0 then Some 0 else Z.succ <$> strlen s'
  end.

(** [memset(dst, c, n)]: stosb *)
Fixpoint memset (dst : list Z) (c : Z) (n : nat) : option (list Z) :=
  match n, dst with
  | O, _ => Some dst
  | S n', _ :: dst' => cons (c mod 256) <$> memset dst' c n'
  | S _, [] => None
  end.

(** [strchr(s, c)]: the index of the character, or the null pointer *)
Fixpoint strchr (s : list Z) (c : Z) : option (option nat) :=
  match s with
  | [] => None
  | x :: s' =>
      if x =? 0 then Some None
      else if x =? c then Some (Some 0%nat)
      else option_map S <$> strchr s' c
  end.

(** [n = n*10 + *s++ - '0'] on 32-bit ints, from the value [n] *)
Fixpoint atoi_from (n : Z) (s : list Z) : option Z :=
  match s with
  | [] => None
  | c :: s' => if (48 <=? c) && (c <=? 57) then atoi_from (i32 (n * 10 + c - 48)) s' else Some n
  end.
Definition atoi (s : list Z) : option Z := atoi_from 0 s.

(** [memmove(a+dst, a+src, n)] inside one array [a]: the bytes are copied upwards, one by one. *)
Fixpoint memmove (a : list Z) (dst src n : nat) : option (list Z) :=
  match n with
  | O => Some a
  | S n' =>
      match a !! src with
      | Some c => if (dst <? length a)%nat then memmove (<[dst:=c]> a) (S dst) (S src) n' else None
      | None => None
      end
  end.

(** ** Input *)

(** [read(fd, p, n)]: the bytes read and the input that is left *)
Definition read (n : nat) (input : list (list Z)) : list Z * list (list Z) :=
  match input with
  | [] => ([], [])
  | c :: cs => (take n c, match drop n c with [] => cs | d => d :: cs end)
  end.

(** [for(i=0; i+1 < max; )] of gets, with [k] rounds to go: the bytes stored *)
Fixpoint gets_loop (k : nat) (input : list (list Z)) : list Z * list (list Z) :=
  match k with
  | O => ([], input)
  | S k' =>
      match read 1 input with
      | (c :: _, input') =>
          if (c =? NL) || (c =? CR) then ([c], input')
          else let '(l, r) := gets_loop k' input' in (c :: l, r)
      | ([], input') => ([], input')
      end
  end.

(** [gets(buf, max)]: the contents of the buffer, with its NUL *)
Definition gets (max : nat) (input : list (list Z)) : list Z * list (list Z) :=
  let '(l, r) := gets_loop (max - 1) input in (l ++ [0], r).

(** ** Lemmas *)

Lemma strlen_chars s n : strlen s = Some n -> n = Z.of_nat (length (chars s)).
Proof.
  revert n. induction s as [|c s IH]; intros n; simpl; [done|]. destruct (c =? 0); [by intros [= <-]|].
  intros (m & Hm & ->)%fmap_Some. rewrite (IH _ Hm). simpl. lia.
Qed.

(** A string followed by its NUL. *)
Lemma chars_app l r : Forall (fun c => c <> 0) l -> chars (l ++ 0 :: r) = l.
Proof. induction 1 as [|c l Hc _ IH]; simpl; [done|]. destruct (Z.eqb_spec c 0); [done|]. by rewrite IH. Qed.

Lemma strchr_absent l r c : Forall (fun x => x <> 0 /\ x <> c) l -> strchr (l ++ 0 :: r) c = Some None.
Proof.
  induction 1 as [|x l [H0 Hc] _ IH]; simpl; [done|].
  destruct (Z.eqb_spec x 0); [done|]. destruct (Z.eqb_spec x c); [done|]. by rewrite IH.
Qed.

Lemma strchr_found l r c : c <> 0 -> Forall (fun x => x <> 0 /\ x <> c) l -> strchr (l ++ c :: r) c = Some (Some (length l)).
Proof.
  intros H. induction 1 as [|x l [H0 Hc] _ IH]; simpl.
  - destruct (Z.eqb_spec c 0); [done|]. by rewrite Z.eqb_refl.
  - destruct (Z.eqb_spec x 0); [done|]. destruct (Z.eqb_spec x c); [done|]. by rewrite IH.
Qed.

Lemma memset_eq dst c n : (n <= length dst)%nat -> memset dst c n = Some (replicate n (c mod 256) ++ drop n dst).
Proof.
  revert dst. induction n as [|n IH]; intros [|x dst] H; simpl in *; try done; try lia. by rewrite IH by lia.
Qed.

Lemma strcpy_eq s t n : strlen t = Some n -> n < Z.of_nat (length s) -> strcpy s t = Some (chars t ++ 0 :: drop (S (length (chars t))) s).
Proof.
  revert s n. induction t as [|c t IH]; intros s n; simpl; [done|]. destruct (Z.eqb_spec c 0) as [->|].
  - intros [= <-] Hs. destruct s; simpl in *; [lia|done].
  - intros (m & Hm & ->)%fmap_Some Hs. destruct s as [|x s]; [simpl in *; apply strlen_chars in Hm; lia|].
    simpl in *. rewrite (proj2 (Z.eqb_neq c 0)) by done. by rewrite (IH s m Hm) by lia.
Qed.

(** Moving a part of an array to its front. *)
Lemma memmove_down a dst src n : (dst <= src)%nat -> (src + n <= length a)%nat ->
  memmove a dst src n = Some (take dst a ++ take n (drop src a) ++ drop (dst + n) a).
Proof.
  revert a dst src. induction n as [|n IH]; intros a dst src H1 H2; simpl.
  - rewrite Nat.add_0_r, take_drop. done.
  - destruct (lookup_lt_is_Some_2 a src) as [c Hc]; [lia|]. rewrite Hc.
    destruct (Nat.ltb_spec dst (length a)); [|lia]. rewrite IH by (rewrite ?length_insert; lia). f_equal.
    rewrite (drop_S a c src Hc). simpl. rewrite drop_insert_lt by lia. rewrite drop_insert_lt by lia.
    rewrite (take_S_r _ dst c) by (apply list_lookup_insert_eq; lia). rewrite take_insert_ge by lia.
    rewrite <- app_assoc. simpl. do 3 f_equal. f_equal. lia.
Qed.
