(* ===== verification/Grep.v ===== *)
(** * grep (src/grep.c)

    The matcher of Kernighan and Pike on the characters of C strings (the NUL is not part of the
    list, [re+1] is its tail), and the loop that reads the input through a buffer of 1024 bytes.
    The matcher is proved equivalent to a declarative meaning of patterns; grep to printing the
    matching lines of a file whose lines fit the buffer. *)
From Stdlib Require Import ZArith Lia.
From stdpp Require Import base list numbers strings.
From S2P Require Import Ulib Prelude.
Local Open Scope Z_scope.

Definition CARET : Z := 94.
Definition STAR : Z := 42.
Definition DOLLAR : Z := 36.
Definition DOT : Z := 46.

(** ** The matcher *)

(** [matchstar], given the function that matches what follows the star *)
Fixpoint matchstar_with (here : list Z -> bool) (c : Z) (text : list Z) : bool :=
  here text ||
  match text with
  | [] => false
  | t :: text' => ((t =? c) || (c =? DOT)) && matchstar_with here c text'
  end.

Fixpoint matchhere (re text : list Z) : bool :=
  match re with
  | [] => true
  | c :: re1 =>
      let step := match text with
                  | [] => false
                  | t :: text' => ((c =? DOT) || (c =? t)) && matchhere re1 text'
                  end in
      match re1 with
      | [] => if c =? DOLLAR then match text with [] => true | _ => false end else step
      | s :: re2 => if s =? STAR then matchstar_with (matchhere re2) c text else step
      end
  end.

Definition matchstar (c : Z) (re text : list Z) : bool := matchstar_with (matchhere re) c text.

(** The do-while loop of match. *)
Fixpoint match_from (re text : list Z) : bool :=
  matchhere re text || match text with [] => false | _ :: text' => match_from re text' end.

Definition match_ (re text : list Z) : bool :=
  match re with
  | c :: re1 => if c =? CARET then matchhere re1 text else match_from re text
  | [] => match_from re text
  end.

(** ** The program *)

Definition BUFSIZE : nat := 1024.

Record gst := mkGst {
  g_buf : list Z;  (* char buf[1024] *)
  g_in : list (list Z);  (* the reads to come on fd *)
  g_out : list Z }.  (* written to fd 1 *)

Definition set_g_buf (b : list Z) (s : gst) : gst := mkGst b (g_in s) (g_out s).
Definition g_write (l : list Z) : M gst unit := modify (fun s => mkGst (g_buf s) (g_in s) (g_out s ++ l)).

(** [buf[i] = c] *)
Definition put (i : nat) (c : Z) : M gst unit := fun s =>
  if (i <? length (g_buf s))%nat then Ret tt (set_g_buf (<[i:=c]> (g_buf s)) s) else Fault s.

(** [read(fd, buf+m, n)]: the number of bytes stored *)
Definition g_read (m n : nat) : M gst nat := fun s =>
  let '(l, rest) := read n (g_in s) in
  if (m + length l <=? length (g_buf s))%nat
  then Ret (length l) (mkGst (take m (g_buf s) ++ l ++ drop (m + length l) (g_buf s)) rest (g_out s))
  else Fault s.

(** One round of [while((q = strchr(p, '\n')) != 0)]. *)
Definition line_body (pattern : list Z) (p : nat) : M gst (nat + nat) :=
  let! b := gets g_buf in
  match strchr (drop p b) NL with
  | None => fault
  | Some None => ret (inr p)
  | Some (Some k) =>
      let q := (p + k)%nat in
      put q 0 ;;;
      let! b := gets g_buf in
      when (match_ pattern (chars (drop p b)))
        (put q NL ;;;
         let! b := gets g_buf in
         g_write (take (q + 1 - p) (drop p b))) ;;;
      ret (inl (q + 1)%nat)
  end.

(** The lines of the [m] bytes in the buffer; the number of bytes kept for the next round. *)
Definition after_read (pattern : list Z) (m : nat) : M gst (nat + unit) :=
  let! p := loop (S BUFSIZE) (line_body pattern) 0%nat in
  let m := if (p =? 0)%nat then 0%nat else m in
  if (0 <? m)%nat then
    let m := (m - p)%nat in
    let! b := gets g_buf in
    match memmove b 0 p m with
    | Some b' => modify (set_g_buf b') ;;; ret (inl m)
    | None => fault
    end
  else ret (inl m).

(** One round of the outer loop, from [m] bytes in the buffer. *)
Definition grep_body (pattern : list Z) (m : nat) : M gst (nat + unit) :=
  let! n := g_read m (BUFSIZE - m - 1) in
  if (n =? 0)%nat then ret (inr tt)
  else
    let m := (m + n)%nat in
    put m 0 ;;;
    after_read pattern m.

(** [fuel] bounds the number of reads. *)
Definition grep (fuel : nat) (pattern : list Z) : M gst unit := loop fuel (grep_body pattern) 0%nat.

Definition set_g_in (l : list (list Z)) (s : gst) : gst := mkGst (g_buf s) l (g_out s).

(** "grep: cannot open " and "usage: grep pattern [file ...]\n" *)
Definition cannot_open : list Z := [103; 114; 101; 112; 58; 32; 99; 97; 110; 110; 111; 116; 32; 111; 112; 101; 110; 32].
Definition usage : list Z :=
  [117; 115; 97; 103; 101; 58; 32; 103; 114; 101; 112; 32; 112; 97; 116; 116; 101; 114; 110; 32; 91; 102; 105;
   108; 101; 32; 46; 46; 46; 93; 10].

(** main: [opens] is what can be read from the file of a path, [None] when open fails.  buf is static:
    each file finds it as the one before has left it.  The result is what main writes to descriptor 2. *)
Section main.
Context (opens : list Z -> option (list (list Z))) (fuel : nat).
Fixpoint grep_files (pattern : list Z) (args : list (list Z)) : M gst unit :=
  match args with
  | [] => skip
  | a :: rest =>
      match opens a with
      | None => g_write (cannot_open ++ a ++ [NL])
      | Some reads =>
          modify (set_g_in reads) ;;;
          grep fuel pattern ;;;
          grep_files pattern rest
      end
  end.
Definition grep_main (argv : list (list Z)) : M gst (list Z) :=
  match argv with
  | _ :: pattern :: args =>
      match args with
      | [] => grep fuel pattern ;;; ret []
      | _ => grep_files pattern args ;;; ret []
      end
  | _ => ret usage
  end.
End main.

(** ** What patterns mean *)

Inductive atom :=
| One (c : Z)  (* the character, or any one for '.' *)
| Star (c : Z)  (* any number of them *)
| End.  (* the end of the text *)

Fixpoint parse (re : list Z) : list atom :=
  match re with
  | [] => []
  | c :: re1 =>
      match re1 with
      | [] => if c =? DOLLAR then [End] else [One c]
      | s :: re2 => if s =? STAR then Star c :: parse re2 else One c :: parse re1
      end
  end.

Definition accepts (c x : Z) : Prop := c = DOT \/ c = x.

(** [denotes p l rest]: the pattern [p] stands for [l] when [rest] follows it. *)
Inductive denotes : list atom -> list Z -> list Z -> Prop :=
| den_nil rest : denotes [] [] rest
| den_one c x p l rest : accepts c x -> denotes p l rest -> denotes (One c :: p) (x :: l) rest
| den_star c xs p l rest : Forall (accepts c) xs -> denotes p l rest -> denotes (Star c :: p) (xs ++ l) rest
| den_end : denotes [End] [] [].

Definition accepts_b (c x : Z) : bool := (c =? DOT) || (c =? x).

Lemma accepts_iff c x : accepts c x <-> accepts_b c x = true.
Proof. unfold accepts, accepts_b. rewrite orb_true_iff, !Z.eqb_eq. done. Qed.

Lemma matchstar_with_iff here c text :
  matchstar_with here c text = true <-> exists xs ys, text = xs ++ ys /\ Forall (accepts c) xs /\ here ys = true.
Proof.
  induction text as [|t text IH]; simpl.
  - rewrite orb_false_r. split.
    + intros H. by exists [], [].
    + intros (xs & ys & [-> ->]%symmetry%app_nil & _ & H). done.
  - assert ((t =? c) || (c =? DOT) = accepts_b c t) as -> by (unfold accepts_b; rewrite (Z.eqb_sym t c); apply orb_comm).
    rewrite orb_true_iff, andb_true_iff, IH, <- accepts_iff. split.
    + intros [H|(Ha & xs & ys & -> & Hxs & H)]; [by exists [], (t :: text)|].
      exists (t :: xs), ys. split; [done|]. split; [by constructor|done].
    + intros ([|x xs] & ys & E & Hxs & H); simpl in E.
      * left. by subst.
      * injection E as <- ->. inversion_clear Hxs. right. split; [done|]. by exists xs, ys.
Qed.

Lemma step_denotes c p text (here : list Z -> bool) :
  (forall text', here text' = true <-> exists l rest, text' = l ++ rest /\ denotes p l rest) ->
  match text with [] => false | t :: text' => ((c =? DOT) || (c =? t)) && here text' end = true <->
  exists l rest, text = l ++ rest /\ denotes (One c :: p) l rest.
Proof.
  intros H. destruct text as [|t text].
  - split; [done|]. intros (l & rest & E & Hd). inversion Hd; subst. done.
  - rewrite andb_true_iff, H. change ((c =? DOT) || (c =? t)) with (accepts_b c t). rewrite <- accepts_iff. split.
    + intros (Ha & l & rest & -> & Hd). exists (t :: l), rest. split; [done|]. by constructor.
    + intros (l & rest & E & Hd). inversion Hd; subst. injection E as <- ->. eauto.
Qed.

Lemma end_denotes text :
  match text with [] => true | _ :: _ => false end = true <-> exists l rest, text = l ++ rest /\ denotes [End] l rest.
Proof.
  split.
  - destruct text; [|done]. intros _. exists [], []. split; [done|constructor].
  - intros (l & rest & -> & Hd). by inversion Hd.
Qed.

Lemma star_denotes c p text (here : list Z -> bool) :
  (forall text', here text' = true <-> exists l rest, text' = l ++ rest /\ denotes p l rest) ->
  matchstar_with here c text = true <-> exists l rest, text = l ++ rest /\ denotes (Star c :: p) l rest.
Proof.
  intros H. rewrite matchstar_with_iff. split.
  - intros (xs & ys & -> & Hxs & (l & rest & -> & Hd)%H). exists (xs ++ l), rest. rewrite app_assoc. split; [done|]. by constructor.
  - intros (l & rest & -> & Hd). inversion Hd as [| |c' xs p' l' rest' Hxs Hd'|]; subst.
    exists xs, (l' ++ rest). rewrite app_assoc. split; [done|]. split; [done|]. apply H. eauto.
Qed.

Lemma matchhere_denotes re text :
  matchhere re text = true <-> exists l rest, text = l ++ rest /\ denotes (parse re) l rest.
Proof.
  revert text. induction re as [re IH] using (induction_ltof1 _ (@length Z)). unfold ltof in IH. intros text.
  destruct re as [|c [|s re2]].
  - split; [|done]. intros _. exists [], text. split; [done|constructor].
  - cbn [matchhere parse]. destruct (c =? DOLLAR); [apply end_denotes|]. apply step_denotes, (IH []). simpl. lia.
  - cbn [matchhere parse]. destruct (s =? STAR).
    + apply star_denotes, IH. simpl. lia.
    + apply (step_denotes c (parse (s :: re2)) text (matchhere (s :: re2))), IH. simpl. lia.
Qed.

Lemma match_from_iff re text :
  match_from re text = true <-> exists pre text', text = pre ++ text' /\ matchhere re text' = true.
Proof.
  induction text as [|t text IH]; simpl.
  - rewrite orb_false_r. split.
    + intros H. by exists [], [].
    + intros (pre & text' & [-> ->]%symmetry%app_nil & H). done.
  - rewrite orb_true_iff, IH. split.
    + intros [H|(pre & text' & -> & H)]; [by exists [], (t :: text)|by exists (t :: pre), text'].
    + intros ([|x pre] & text' & E & H); simpl in E; [left; by subst|]. injection E as <- ->. right. by exists pre, text'.
Qed.

(** C31: the matcher decides the meaning of patterns: a text matches a pattern that starts with ^
    exactly when a prefix of it is denoted by the rest of the pattern, and any other pattern
    exactly when some part of it is. *)
Theorem match_iff_denotes re text :
  match_ re text = true <->
  exists pre l rest, text = pre ++ l ++ rest /\
    match re with
    | c :: re1 => if c =? CARET then pre = [] /\ denotes (parse re1) l rest else denotes (parse re) l rest
    | [] => True
    end.
Proof.
  assert (match_from re text = true <-> exists pre l rest, text = pre ++ l ++ rest /\ denotes (parse re) l rest) as Hm.
  { rewrite match_from_iff. split.
    - intros (pre & t' & -> & (l & rest & -> & Hd)%matchhere_denotes). by exists pre, l, rest.
    - intros (pre & l & rest & -> & Hd). exists pre, (l ++ rest). split; [done|]. apply matchhere_denotes. eauto. }
  destruct re as [|c re1]; simpl.
  - split; [intros _; by exists [], [], text|]. intros _. by destruct text.
  - destruct (c =? CARET); [|exact Hm]. rewrite matchhere_denotes. split.
    + intros (l & rest & -> & Hd). by exists [], l, rest.
    + intros (pre & l & rest & -> & -> & Hd). by exists l, rest.
Qed.

(** ** grep prints the matching lines *)

(** The complete lines of a text and what follows the last newline. *)
Fixpoint lines (l : list Z) : list (list Z) * list Z :=
  match l with
  | [] => ([], [])
  | c :: l' =>
      let '(ls, r) := lines l' in
      if c =? NL then ([] :: ls, r)
      else match ls with [] => ([], c :: r) | x :: ls' => ((c :: x) :: ls', r) end
  end.

Definition selected (pattern : list Z) (ls : list (list Z)) : list Z :=
  concat (map (fun l => l ++ [NL]) (List.filter (match_ pattern) ls)).

Lemma selected_cons pattern l ls :
  selected pattern (l :: ls) = (if match_ pattern l then l ++ [NL] else []) ++ selected pattern ls.
Proof. unfold selected. simpl. by destruct (match_ pattern l). Qed.

Lemma selected_app pattern l1 l2 : selected pattern (l1 ++ l2) = selected pattern l1 ++ selected pattern l2.
Proof. unfold selected. by rewrite List.filter_app, map_app, concat_app. Qed.

Lemma lines_none l : Forall (fun c => c <> NL) l -> lines l = ([], l).
Proof. induction 1 as [|c l Hc _ IH]; simpl; [done|]. rewrite IH. by destruct (Z.eqb_spec c NL). Qed.

Lemma lines_step l d : Forall (fun c => c <> NL) l -> lines (l ++ NL :: d) = (l :: (lines d).1, (lines d).2).
Proof.
  induction 1 as [|c l Hc _ IH]; simpl; [by destruct (lines d)|]. rewrite IH. by destruct (Z.eqb_spec c NL).
Qed.

(** A text has no newline or starts with a complete line. *)
Lemma first_line l : Forall (fun c => c <> NL) l \/ exists x d, l = x ++ NL :: d /\ Forall (fun c => c <> NL) x.
Proof.
  induction l as [|c l IH]; [by left|]. destruct (Z.eq_dec c NL) as [->|Hc]; [right; by exists [], l|].
  destruct IH as [H|(x & d & -> & H)]; [left; by constructor|]. right. exists (c :: x), d. split; [done|by constructor].
Qed.

(** Lines of a text that is read in two pieces. *)
Lemma lines_app d r : lines (d ++ r) = ((lines d).1 ++ (lines ((lines d).2 ++ r)).1, (lines ((lines d).2 ++ r)).2).
Proof.
  remember (length d) as n eqn:En. revert d En. induction n as [n IH] using lt_wf_ind. intros d ->.
  destruct (first_line d) as [H|(x & d' & -> & H)].
  - rewrite (lines_none d H). simpl. by destruct (lines (d ++ r)).
  - rewrite <- app_assoc. simpl. rewrite !lines_step by done. simpl.
    rewrite (IH (length d')) by (rewrite ?length_app; simpl; lia). done.
Qed.

Lemma lines_tail l : Forall (fun c => c <> NL) (lines l).2 /\ exists pre, l = pre ++ (lines l).2 /\ (pre = [] <-> (lines l).1 = []).
Proof.
  remember (length l) as n eqn:En. revert l En. induction n as [n IH] using lt_wf_ind. intros l ->.
  destruct (first_line l) as [H|(x & d & -> & H)].
  - rewrite (lines_none l H). simpl. split; [done|]. by exists [].
  - rewrite lines_step by done. simpl. destruct (IH (length d)) with (l := d) as (H1 & pre & E & _); [rewrite length_app; simpl; lia|done|].
    split; [done|]. exists (x ++ NL :: pre). rewrite <- app_assoc. simpl. split; [by rewrite <- E|]. split; [by destruct x|done].
Qed.

Lemma drop_put p (b : list Z) x y r c : drop p b = x ++ y :: r -> drop p (<[(p + length x)%nat:=c]> b) = x ++ c :: r.
Proof.
  intros E. rewrite drop_insert_ge by lia. rewrite E. replace (p + length x - p)%nat with (length x) by lia.
  rewrite insert_app_r_alt by lia. by rewrite Nat.sub_diag.
Qed.

Lemma drop_past p (b : list Z) x y r : drop p b = x ++ y :: r -> drop (p + length x + 1) b = r.
Proof.
  intros E. replace (p + length x + 1)%nat with (p + S (length x))%nat by lia. rewrite <- drop_drop, E.
  rewrite (drop_app_ge x) by lia. by replace (S (length x) - length x)%nat with 1%nat by lia.
Qed.

Lemma drop_inside p (b : list Z) x y r : drop p b = x ++ y :: r -> (p + length x < length b)%nat.
Proof. intros E%(f_equal length). rewrite length_drop, length_app in E. simpl in E. lia. Qed.

Section file.
Context (pattern : list Z).

(** One round of the inner loop, at the start of a complete line. *)
Lemma line_body_found s p x r :
  Forall (fun c => c <> 0 /\ c <> NL) x -> drop p (g_buf s) = x ++ NL :: r ->
  exists b', line_body pattern p s = Ret (inl (p + length x + 1)%nat)
      (mkGst b' (g_in s) (g_out s ++ if match_ pattern x then x ++ [NL] else [])) /\
    length b' = length (g_buf s) /\ drop (p + length x + 1) b' = r.
Proof.
  intros Hx E. pose proof (drop_inside _ _ _ _ _ E) as Hlen. unfold line_body, bind, gets. rewrite E.
  rewrite strchr_found by done. unfold put at 1. rewrite (proj2 (Nat.ltb_lt _ _) Hlen). cbn [g_buf set_g_buf].
  rewrite (drop_put _ _ _ _ _ 0 E). rewrite chars_app by (eapply Forall_impl; [exact Hx|naive_solver]).
  destruct (match_ pattern x); simpl.
  - unfold put. cbn [g_buf set_g_buf]. rewrite length_insert, (proj2 (Nat.ltb_lt _ _) Hlen). cbn [g_buf set_g_buf g_write modify g_in g_out ret].
    rewrite list_insert_insert_eq. rewrite (drop_put _ _ _ _ _ NL E). eexists. split.
    + rewrite take_app, take_ge by lia. replace (p + length x + 1 - p - length x)%nat with 1%nat by lia. done.
    + rewrite length_insert. split; [done|]. rewrite drop_insert_lt by lia. by apply drop_past in E.
  - eexists. rewrite app_nil_r. split; [done|]. rewrite length_insert. split; [done|].
    rewrite drop_insert_lt by lia. by apply drop_past in E.
Qed.

Lemma line_loop fuel d : forall s p junk, (length d < fuel)%nat -> Forall (fun c => c <> 0) d -> drop p (g_buf s) = d ++ 0 :: junk ->
  exists p' b', loop fuel (line_body pattern) p s = Ret p' (mkGst b' (g_in s) (g_out s ++ selected pattern (lines d).1)) /\
    length b' = length (g_buf s) /\ drop p' b' = (lines d).2 ++ 0 :: junk /\ (p' + length (lines d).2 = p + length d)%nat.
Proof.
  revert d. induction fuel as [|fuel IH]; intros d s p junk Hf Hd E; [lia|]. cbn [loop]. unfold bind at 1.
  destruct (first_line d) as [H|(x & d' & -> & H)].
  - rewrite (lines_none d H). exists p, (g_buf s). unfold line_body, bind, gets. rewrite E.
    rewrite strchr_absent by (apply Forall_and; auto). simpl. rewrite app_nil_r. by destruct s.
  - apply Forall_app in Hd as [Hx Hd']. inversion_clear Hd'. rewrite <- app_assoc in E. simpl in E.
    destruct (line_body_found s p x (d' ++ 0 :: junk)) as (b' & -> & Hl & Hdrop); [apply Forall_and; auto|done|].
    rewrite length_app in *. simpl in *. rewrite lines_step by done. simpl.
    destruct (IH d' (mkGst b' (g_in s) (g_out s ++ (if match_ pattern x then x ++ [NL] else []))) (p + length x + 1)%nat junk)
      as (p2 & b2 & -> & Hl2 & Hd2 & Hp2); [lia|done|done|].
    exists p2, b2. simpl in *. rewrite selected_cons, <- !app_assoc. rewrite Hl2, Hd2, Hl. repeat split; lia.
Qed.

(** The rest [r] of the file is still to be read. *)
Definition unread (s : gst) (r : list Z) : Prop := g_in s = [r] \/ (g_in s = [] /\ r = []).

Lemma read_unread s r n : unread s r ->
  exists rest, read n (g_in s) = (take n r, rest) /\ (rest = [drop n r] \/ (rest = [] /\ drop n r = [])).
Proof.
  intros [-> | [-> ->]]; simpl.
  - destruct (drop n r) eqn:E; eauto.
  - exists []. rewrite take_nil, drop_nil. auto.
Qed.

(** A buffer full of a line without end: nothing is lost when it is dropped. *)
Lemma no_newline_dropped d r : Forall (fun c => c <> NL) d -> Forall (fun l => (length l < BUFSIZE - 1)%nat) (lines (d ++ r)).1 ->
  (r = [] \/ (BUFSIZE - 1 <= length d)%nat) -> (lines (d ++ r)).1 = [] /\ (lines r).1 = [].
Proof.
  intros Hd Hl Hr. destruct (first_line r) as [H|(x & r' & -> & H)].
  - rewrite !lines_none by (rewrite ?Forall_app; auto). done.
  - exfalso. destruct Hr as [Hr|Hr]; [by destruct x|]. rewrite app_assoc, lines_step in Hl by (apply Forall_app; auto).
    inversion_clear Hl. rewrite length_app in *. lia.
Qed.

(** What the outer loop maintains: [h] is held in the buffer, [r] is unread, and the output with
    the selected lines of what is left is [total]. *)
Definition grep_inv (total : list Z) (k m : nat) (s : gst) : Prop :=
  exists h r, length h = m /\ (m < BUFSIZE - 1)%nat /\ take m (g_buf s) = h /\ length (g_buf s) = BUFSIZE /\
    Forall (fun c => c <> NL) h /\ Forall (fun c => c <> 0) (h ++ r) /\ unread s r /\ k = length r /\
    Forall (fun l => (length l < BUFSIZE - 1)%nat) (lines (h ++ r)).1 /\
    g_out s ++ selected pattern (lines (h ++ r)).1 = total.

Lemma after_read_ok total s d r junk : g_buf s = d ++ 0 :: junk -> length (g_buf s) = BUFSIZE -> unread s r ->
  Forall (fun c => c <> 0) (d ++ r) -> Forall (fun l => (length l < BUFSIZE - 1)%nat) (lines (d ++ r)).1 ->
  g_out s ++ selected pattern (lines (d ++ r)).1 = total -> (r = [] \/ (BUFSIZE - 1 <= length d)%nat) ->
  wp (after_read pattern (length d)) (fun x s' => exists m', x = inl m' /\ grep_inv total (length r) m' s') s.
Proof.
  intros Eb Hb Hin H0 Hlines Hout Hfull. pose proof Hb as Hlen. rewrite Eb, length_app in Hlen. simpl in Hlen.
  pose proof H0 as [Hd0 Hr0]%Forall_app.
  destruct (line_loop (S BUFSIZE) d s 0%nat junk) as (p & b' & E & Hl & Hdrop & Hp); [lia|done|by rewrite drop_0|].
  destruct (lines_tail d) as (Htl & pre & Epre & Hpre). rewrite lines_app in Hlines, Hout. simpl in Hlines, Hout.
  apply Forall_app in Hlines as [_ Hlines]. rewrite selected_app, app_assoc in Hout.
  unfold after_read. apply wp_bind. eapply wp_intro; [exact E|]. clear E. simpl in Hp. destruct (Nat.eqb_spec p 0) as [->|Hp0].
  - apply wp_ret. exists 0%nat. split; [done|]. simpl in Hp.
    assert (pre = []) as Hnil by (apply (f_equal length) in Epre; rewrite length_app in Epre; destruct pre; simpl in *; [done|lia]).
    apply Hpre in Hnil as Hls. rewrite Hnil in Epre. simpl in Epre. rewrite <- Epre in *.
    destruct (no_newline_dropped d r Htl Hlines Hfull) as [E1 E2]. exists [], r. simpl. rewrite E2. rewrite E1 in Hout.
    repeat split; try done; try (unfold BUFSIZE; lia); by rewrite ?Hl.
  - rewrite (proj2 (Nat.ltb_lt 0 (length d))) by lia. apply wp_bind, wp_gets. simpl.
    rewrite memmove_down by (rewrite ?Hl, ?Hb; lia). apply wp_bind, wp_modify, wp_ret. exists (length d - p)%nat. split; [done|].
    replace (length d - p)%nat with (length (lines d).2) by lia. rewrite Hdrop, take_app_length. simpl.
    exists (lines d).2, r. simpl. rewrite take_app_length. repeat split; try done; try (unfold BUFSIZE in *; lia).
    + rewrite length_app, length_drop, Hl, Hb. lia.
    + apply Forall_app. split; [|done]. rewrite Epre in Hd0. by apply Forall_app in Hd0 as [_ ?].
Qed.

Lemma grep_body_ok total k m s : grep_inv total k m s ->
  wp (grep_body pattern m) (fun r s' => match r with
    | inl m' => exists k', (k' < k)%nat /\ grep_inv total k' m' s'
    | inr _ => g_out s' = total /\ length (g_buf s') = BUFSIZE end) s.
Proof.
  intros (h & r & Hm & Hlt & Hh & Hb & Hnl & H0 & Hin & -> & Hlines & Hout).
  destruct (read_unread s r (BUFSIZE - m - 1) Hin) as (rest & Hread & Hrest).
  pose proof (take_drop (BUFSIZE - m - 1) r) as Er.
  pose proof (length_take r (BUFSIZE - m - 1)) as Hll. pose proof (length_drop r (BUFSIZE - m - 1)) as Hld.
  set (l := take (BUFSIZE - m - 1) r) in *. set (r' := drop (BUFSIZE - m - 1) r) in *.
  unfold grep_body. apply wp_bind. unfold g_read. unfold wp at 1. rewrite Hread.
  rewrite (proj2 (Nat.leb_le _ _)) by lia. destruct (Nat.eqb_spec (length l) 0) as [E|E].
  - apply wp_ret. simpl. assert (r = []) as -> by (apply length_zero_iff_nil; unfold BUFSIZE in *; lia).
    rewrite app_nil_r, lines_none in Hout by done. simpl in Hout. rewrite app_nil_r in Hout. split; [done|].
    rewrite !length_app, length_take, length_drop. lia.
  - destruct (drop (m + length l) (g_buf s)) as [|y junk] eqn:Ej.
    { apply (f_equal length) in Ej. rewrite length_drop in Ej. simpl in Ej. lia. }
    apply wp_bind. unfold put. simpl. rewrite Hh. unfold wp at 1. simpl.
    rewrite !length_app. rewrite (proj2 (Nat.ltb_lt _ _)) by (simpl; lia).
    rewrite app_assoc, insert_app_r_alt by (rewrite length_app; lia).
    replace (m + length l - length (h ++ l))%nat with 0%nat by (rewrite length_app; lia). simpl.
    replace (m + length l)%nat with (length (h ++ l)) by (rewrite length_app; lia).
    rewrite <- Er in H0, Hlines, Hout. rewrite app_assoc in H0, Hlines, Hout.
    eapply wp_mono; [eapply (after_read_ok total _ (h ++ l) r' junk); simpl; try done|].
    + apply (f_equal length) in Ej. rewrite length_drop in Ej. rewrite length_app in *. simpl in *. rewrite length_app. lia.
    + rewrite length_app. destruct (decide (r' = [])) as [|Hne]; [by left|right]. rewrite <- length_zero_iff_nil in Hne. unfold BUFSIZE in *. lia.
    + intros x s' (m' & -> & Hinv). exists (length r'). split; [|done]. lia.
Qed.

(** grep on a file: its selected lines are added to the output. *)
Lemma grep_file text fuel s : g_in s = [text] -> length (g_buf s) = BUFSIZE -> Forall (fun c => c <> 0) text ->
  Forall (fun l => (length l < BUFSIZE - 1)%nat) (lines text).1 -> (length text < fuel)%nat ->
  wp (grep fuel pattern)
    (fun _ s' => g_out s' = g_out s ++ selected pattern (lines text).1 /\ length (g_buf s') = BUFSIZE) s.
Proof.
  intros Hi Hb H0 Hl Hf. unfold grep.
  eapply (wp_loop (grep_inv (g_out s ++ selected pattern (lines text).1)) (grep_body pattern)); [|exact Hf|].
  - intros k m s' Hinv. eapply wp_mono; [by apply grep_body_ok|]. by intros [m'|[]].
  - exists [], text. simpl. repeat split; try done; try (unfold BUFSIZE; lia). by left.
Qed.

End file.

(** When a read returns no newline, grep forgets what it has read of the line: a line that
    arrives in two pieces (from a pipe or the console) is searched without its first piece. *)
Lemma grep_loses_partial_line :
  exists s', grep 4 [97; 98; 99] (mkGst (replicate BUFSIZE 0) [[97; 98]; [99; 10]] []) = Ret tt s' /\ g_out s' = [] /\
    match_ [97; 98; 99] [97; 98; 99] = true.
Proof. eexists. vm_compute. repeat split; reflexivity. Qed.

(** ** The whole program *)

(** What main prints for its files, up to the first that cannot be opened *)
Fixpoint found (files : list Z -> option (list Z)) (pattern : list Z) (args : list (list Z)) : list Z :=
  match args with
  | [] => []
  | a :: rest => match files a with
                 | None => cannot_open ++ a ++ [NL]
                 | Some text => selected pattern (lines text).1 ++ found files pattern rest
                 end
  end.

Lemma grep_files_found files fuel pattern args s : length (g_buf s) = BUFSIZE ->
  (forall a text, files a = Some text -> Forall (fun c => c <> 0) text /\
     Forall (fun l => (length l < BUFSIZE - 1)%nat) (lines text).1 /\ (length text < fuel)%nat) ->
  wp (grep_files (fun a => (fun text => [text]) <$> files a) fuel pattern args)
    (fun _ s' => g_out s' = g_out s ++ found files pattern args) s.
Proof.
  intros Hb Hfiles. revert s Hb. induction args as [|a args IH]; intros s Hb; cbn [grep_files found].
  - apply wp_skip. by rewrite app_nil_r.
  - destruct (files a) as [text|] eqn:E; cbn [fmap option_fmap option_map].
    + destruct (Hfiles _ _ E) as (H0 & Hl & Hf). apply wp_bind, wp_modify, wp_bind.
      eapply wp_mono; [by apply (grep_file pattern text)|]. intros [] s1 [Ho Hb1].
      eapply wp_mono; [by apply IH|]. intros [] s2 Ho2. by rewrite Ho2, Ho, <- app_assoc.
    + by apply wp_modify.
Qed.

(** C32: grep of files prints, for each of them in turn, the complete lines that match the pattern, each
    with its newline and in their order, and nothing else; at the first file that cannot be opened it
    says so and stops.  The files have no NUL, their lines fit the buffer (at most 1022 characters) and
    reads fill the buffer until the end of the file. *)
Theorem grep_prints_matching_lines files fuel name pattern a args buf : length buf = BUFSIZE ->
  (forall b text, files b = Some text -> Forall (fun c => c <> 0) text /\
     Forall (fun l => (length l < BUFSIZE - 1)%nat) (lines text).1 /\ (length text < fuel)%nat) ->
  wp (grep_main (fun b => (fun text => [text]) <$> files b) fuel (name :: pattern :: a :: args))
    (fun err s' => err = [] /\ g_out s' = found files pattern (a :: args)) (mkGst buf [] []).
Proof.
  intros Hb Hfiles. unfold grep_main. apply wp_bind. eapply wp_mono; [by apply grep_files_found|].
  intros [] s' Ho. by apply wp_ret.
Qed.

(** Two files, of which the second does not exist *)
Definition two_files (b : list Z) : option (list Z) :=
  if decide (b = [102]) then Some [120; 10; 97; 98; 10; 97; 99; 98; 120] else None.

Lemma grep_prints_matching_lines_witness :
  wp (grep_main (fun b => (fun text => [text]) <$> two_files b) 10 [[103]; [97; 46; 36]; [102]; [104]])
    (fun err s' => err = [] /\ g_out s' = [97; 98; 10] ++ cannot_open ++ [104; 10]) (mkGst (replicate BUFSIZE 0) [] []).
Proof.
  apply (grep_prints_matching_lines two_files 10 [103] [97; 46; 36] [102] [[104]] (replicate BUFSIZE 0)).
  - vm_compute. reflexivity.
  - intros b text. unfold two_files. destruct (decide _); [|done]. intros [= <-].
    split; [|split; [vm_compute|]]; repeat constructor; done.
Defined.
