(* ===== verification/Ring.v ===== *)
(** * Ring buffers

    A ring of [N] elements under free-running 32-bit counters, as pipe.c and console.c use them:
    [N] divides 2^32, so that a counter may wrap.  [ring data r n] is the [n] elements from the
    counter [r] on. *)
From Stdlib Require Import ZArith Znumtheory Lia.
From stdpp Require Import base list numbers.
From S2P Require Import Prelude.
Local Open Scope Z_scope.

Lemma u32_sub_add a b : u32 (u32 (a + b) - a) = u32 b.
Proof. unfold u32. rewrite Zminus_mod_idemp_l. f_equal. lia. Qed.

Lemma u32_add_sub a b : 0 <= b < 2 ^ 32 -> u32 (a + u32 (b - a)) = b.
Proof. intros H. unfold u32. rewrite Zplus_mod_idemp_r. replace (a + (b - a)) with b by lia. by apply Z.mod_small. Qed.

(** Distances between counters. *)
Lemma u32_succ_sub a b : u32 (b - a) + 1 < 2 ^ 32 -> u32 (u32 (b + 1) - a) = u32 (b - a) + 1.
Proof.
  intros H. unfold u32 in *. rewrite Zminus_mod_idemp_l. replace (b + 1 - a) with (b - a + 1) by lia.
  rewrite <- Zplus_mod_idemp_l. apply Z.mod_small. pose proof (Z.mod_pos_bound (b - a) (2 ^ 32)). lia.
Qed.

Lemma u32_sub_succ a b : 0 < u32 (b - a) -> u32 (b - u32 (a + 1)) = u32 (b - a) - 1.
Proof.
  intros H. unfold u32 in *. rewrite Zminus_mod_idemp_r. replace (b - (a + 1)) with (b - a - 1) by lia.
  rewrite <- Zminus_mod_idemp_l. apply Z.mod_small. pose proof (Z.mod_pos_bound (b - a) (2 ^ 32)). lia.
Qed.

Lemma u32_pred_sub a b : 0 < u32 (b - a) -> u32 (u32 (b - 1) - a) = u32 (b - a) - 1.
Proof.
  intros H. unfold u32 in *. rewrite Zminus_mod_idemp_l. replace (b - 1 - a) with (b - a - 1) by lia.
  rewrite <- Zminus_mod_idemp_l. apply Z.mod_small. pose proof (Z.mod_pos_bound (b - a) (2 ^ 32)). lia.
Qed.

Section ring.
Context (N : Z) (Hpos : 0 < N) (Hdiv : (N | 2 ^ 32)).

Definition slot (i : Z) : nat := Z.to_nat (i mod N).
Definition ring (data : list Z) (r : Z) (n : nat) : list Z := map (fun k => nth (slot (r + Z.of_nat k)) data 0) (seq 0 n).

Lemma slot_u32 i k : slot (u32 i + k) = slot (i + k).
Proof.
  unfold slot, u32. f_equal. rewrite <- (Zplus_mod_idemp_l (i mod 2 ^ 32)). rewrite <- (Zmod_div_mod N (2 ^ 32)) by (done || lia).
  apply Zplus_mod_idemp_l.
Qed.

Lemma slot_lt i : (slot i < Z.to_nat N)%nat.
Proof using Hpos. unfold slot. pose proof (Z.mod_pos_bound i N Hpos). lia. Qed.

Lemma slot_inj i j : i < j < i + N -> slot i <> slot j.
Proof using Hpos.
  intros H E. unfold slot in E. pose proof (Z.mod_pos_bound i N Hpos). pose proof (Z.mod_pos_bound j N Hpos).
  assert (i mod N = j mod N) as E2 by lia.
  assert ((j - i) mod N = 0) as E3 by (rewrite Zminus_mod, E2, Z.sub_diag; done).
  rewrite Z.mod_small in E3 by lia. lia.
Qed.

Lemma length_ring data r n : length (ring data r n) = n.
Proof. unfold ring. by rewrite length_map, length_seq. Qed.

Lemma ring_u32 data r n : ring data (u32 r) n = ring data r n.
Proof using Hpos Hdiv. unfold ring. apply map_ext. intros k. by rewrite slot_u32. Qed.

Lemma ring_cons data r n : ring data r (S n) = nth (slot r) data 0 :: ring data (r + 1) n.
Proof.
  unfold ring. simpl. rewrite Z.add_0_r. f_equal. rewrite <- seq_shift, map_map. apply map_ext. intros k. f_equal. f_equal. lia.
Qed.

Lemma ring_app data r n m : ring data r (n + m) = ring data r n ++ ring data (r + Z.of_nat n) m.
Proof.
  revert r. induction n as [|n IH]; intros r; [by rewrite Z.add_0_r|]. cbn [Nat.add]. rewrite !ring_cons, IH. simpl.
  do 3 f_equal. lia.
Qed.

Lemma ring_snoc data r n : ring data r (S n) = ring data r n ++ [nth (slot (r + Z.of_nat n)) data 0].
Proof. rewrite <- Nat.add_1_r, ring_app. f_equal. unfold ring. simpl. by rewrite Z.add_0_r. Qed.

(** A store outside the part that is looked at. *)
Lemma ring_store_out data r n i c : r + Z.of_nat n <= i < r + N -> ring (<[slot i:=c]> data) r n = ring data r n.
Proof using Hpos.
  intros Hi. unfold ring. apply map_ext_in. intros k Hk%in_seq. rewrite !nth_lookup. f_equal. apply list_lookup_insert_ne.
  intros E. symmetry in E. revert E. apply slot_inj. lia.
Qed.

Lemma ring_store data r n c : (length data = Z.to_nat N) -> Z.of_nat n < N ->
  ring (<[slot (r + Z.of_nat n):=c]> data) r (S n) = ring data r n ++ [c].
Proof using Hpos.
  intros Hl Hn. rewrite ring_snoc, ring_store_out by lia. f_equal. rewrite nth_lookup, list_lookup_insert_eq; [done|].
  rewrite Hl. apply slot_lt.
Qed.

Lemma ring_lookup data r : (length data = Z.to_nat N) -> data !! slot r = Some (nth (slot r) data 0).
Proof using Hpos.
  intros Hl. destruct (lookup_lt_is_Some_2 data (slot r)) as [c Hc]; [rewrite Hl; apply slot_lt|].
  by rewrite Hc, (nth_lookup_Some _ _ _ _ Hc).
Qed.

End ring.
