(* ===== verification/Pipe.v ===== *)
(** * Pipes (src/pipe.c)

    A pipe is a ring of PIPESIZE bytes with free-running 32-bit counters.  Its processes sleep in
    the middle of pipewrite and piperead, so both are programs with switches ([Resume]): sleep
    releases the pipe's lock, lets others run, and takes the lock again; [fuel] bounds the number
    of times.  [ps_pipe] is [None] once pipeclose has given the page back.  [ps_woken] records the
    calls of wakeup on the two channels, the latest first, [ps_killed] is myproc()->killed, and
    [ps_got] the bytes that piperead has stored for its callers, in order. *)
From Stdlib Require Import ZArith Lia.
From stdpp Require Import base list numbers strings.
From S2P Require Import Prelude Resume Ring.
Local Open Scope Z_scope.

Definition PIPESIZE : Z := 512.

Record pipe := mkPipe {
  pi_lock : bool;
  pi_data : list Z;
  pi_nread : Z;
  pi_nwrite : Z;
  pi_readopen : bool;
  pi_writeopen : bool }.

Definition set_pi_lock (v : bool) (p : pipe) : pipe :=
  mkPipe v (pi_data p) (pi_nread p) (pi_nwrite p) (pi_readopen p) (pi_writeopen p).
Definition set_pi_readopen (v : bool) (p : pipe) : pipe :=
  mkPipe (pi_lock p) (pi_data p) (pi_nread p) (pi_nwrite p) v (pi_writeopen p).
Definition set_pi_writeopen (v : bool) (p : pipe) : pipe :=
  mkPipe (pi_lock p) (pi_data p) (pi_nread p) (pi_nwrite p) (pi_readopen p) v.

(** The channels [&p->nread] and [&p->nwrite]. *)
Inductive pchan := ChRead | ChWrite.

Record pst := mkPst {
  ps_pipe : option pipe;
  ps_killed : bool;
  ps_woken : list pchan;
  ps_got : list Z }.

Definition getp : M pst pipe := fun s => match ps_pipe s with Some p => Ret p s | None => Fault s end.
Definition putp (p : pipe) : M pst unit := modify (fun s => mkPst (Some p) (ps_killed s) (ps_woken s) (ps_got s)).
Definition updp (f : pipe -> pipe) : M pst unit := let! p := getp in putp (f p).
Definition pwakeup (c : pchan) : M pst unit := modify (fun s => mkPst (ps_pipe s) (ps_killed s) (c :: ps_woken s) (ps_got s)).

Definition pipe_acquire : M pst unit :=
  let! p := getp in
  if pi_lock p then panic "acquire" else putp (set_pi_lock true p).
Definition pipe_release : M pst unit :=
  let! p := getp in
  if pi_lock p then putp (set_pi_lock false p) else panic "release".

(** [sleep(c, &p->lock)] *)
Definition pipe_sleep : prog pst unit :=
  act pipe_release ;;?
  swtch ;;?
  act pipe_acquire.

(** The pipe that pipealloc builds in its page: [initlock] and the four stores; the bytes of the
    page stay as they were. *)
Definition pipe_init (page : list Z) : pipe := mkPipe false page 0 0 true true.

(** kfree gives the page back *)
Definition pipe_kfree : M pst unit := modify (fun s => mkPst None (ps_killed s) (ps_woken s) (ps_got s)).

Definition pipeclose (writable : bool) : M pst unit :=
  pipe_acquire ;;;
  (if writable then updp (set_pi_writeopen false) ;;; pwakeup ChRead
   else updp (set_pi_readopen false) ;;; pwakeup ChWrite) ;;;
  let! p := getp in
  if negb (pi_readopen p) && negb (pi_writeopen p) then
    pipe_release ;;;
    pipe_kfree
  else pipe_release.

(** [p->data[p->nwrite++ % PIPESIZE] = c] *)
Definition pipe_store (c : Z) : M pst unit :=
  let! p := getp in
  let i := Z.to_nat (pi_nwrite p mod PIPESIZE) in
  if (i <? length (pi_data p))%nat
  then putp (mkPipe (pi_lock p) (<[i:=c]> (pi_data p)) (pi_nread p) (u32 (pi_nwrite p + 1)) (pi_readopen p) (pi_writeopen p))
  else fault.

(** [addr[i] = p->data[p->nread++ % PIPESIZE]] *)
Definition pipe_load : M pst unit :=
  let! p := getp in
  match pi_data p !! Z.to_nat (pi_nread p mod PIPESIZE) with
  | Some c =>
      putp (mkPipe (pi_lock p) (pi_data p) (u32 (pi_nread p + 1)) (pi_nwrite p) (pi_readopen p) (pi_writeopen p)) ;;;
      modify (fun s => mkPst (ps_pipe s) (ps_killed s) (ps_woken s) (ps_got s ++ [c]))
  | None => fault
  end.

(** The loop that waits for room: whether there is some (otherwise the call returns -1). *)
Fixpoint wait_room (fuel : nat) : prog pst bool :=
  match fuel with
  | O => act nofuel
  | S fuel' =>
      do! p := act getp in
      if pi_nwrite p =? u32 (pi_nread p + PIPESIZE) then
        do! killed := act (gets ps_killed) in
        if negb (pi_readopen p) || killed then act pipe_release ;;? PRet false
        else
          act (pwakeup ChRead) ;;?
          pipe_sleep ;;?
          wait_room fuel'
      else PRet true
  end.

(** [for(i = 0; i < n; i++)], on the bytes that are left *)
Fixpoint write_loop (fuel : nat) (l : list Z) : prog pst bool :=
  match l with
  | [] => PRet true
  | c :: l' =>
      do! room := wait_room fuel in
      if (room : bool) then act (pipe_store c) ;;? write_loop fuel l' else PRet false
  end.

(** [pipewrite(p, addr, n)], where [l] is the [n] bytes at [addr] *)
Definition pipewrite (fuel : nat) (l : list Z) : prog pst Z :=
  act pipe_acquire ;;?
  do! ok := write_loop fuel l in
  if (ok : bool) then
    act (pwakeup ChRead) ;;?
    act pipe_release ;;?
    PRet (Z.of_nat (length l))
  else PRet (-1).

(** The loop that waits for data: false when the call returns -1. *)
Fixpoint wait_data (fuel : nat) : prog pst bool :=
  match fuel with
  | O => act nofuel
  | S fuel' =>
      do! p := act getp in
      if (pi_nread p =? pi_nwrite p) && pi_writeopen p then
        do! killed := act (gets ps_killed) in
        if (killed : bool) then act pipe_release ;;? PRet false
        else
          pipe_sleep ;;?
          wait_data fuel'
      else PRet true
  end.

(** [for(i = 0; i < n; i++)]: the number of bytes read *)
Fixpoint read_loop (n : nat) (i : Z) : M pst Z :=
  match n with
  | O => ret i
  | S n' =>
      let! p := getp in
      if pi_nread p =? pi_nwrite p then ret i
      else pipe_load ;;; read_loop n' (i + 1)
  end.

Definition piperead (fuel n : nat) : prog pst Z :=
  act pipe_acquire ;;?
  do! ok := wait_data fuel in
  if (ok : bool) then
    do! i := act (read_loop n 0) in
    act (pwakeup ChWrite) ;;?
    act pipe_release ;;?
    PRet i
  else PRet (-1).

(** ** The queue a pipe holds *)

Definition pcount (p : pipe) : Z := u32 (pi_nwrite p - pi_nread p).
Definition contents (p : pipe) : list Z := ring PIPESIZE (pi_data p) (pi_nread p) (Z.to_nat (pcount p)).

Record pipe_ok (p : pipe) : Prop := {
  po_data : length (pi_data p) = Z.to_nat PIPESIZE;
  po_read : 0 <= pi_nread p < 2 ^ 32;
  po_write : 0 <= pi_nwrite p < 2 ^ 32;
  po_count : pcount p <= PIPESIZE }.

Lemma pipe_pos : 0 < PIPESIZE.
Proof. done. Qed.
Lemma pipe_div : (PIPESIZE | 2 ^ 32).
Proof. by exists (2 ^ 23). Qed.

Lemma nwrite_count p : pipe_ok p -> pi_nwrite p = u32 (pi_nread p + pcount p).
Proof. intros [_ Hr Hw _]. unfold pcount. by rewrite u32_add_sub. Qed.

Lemma pcount_range p : pipe_ok p -> 0 <= pcount p <= PIPESIZE.
Proof. intros H. pose proof (po_count p H). pose proof (u32_range (pi_nwrite p - pi_nread p)). unfold pcount in *. lia. Qed.

Lemma full_iff p : pipe_ok p -> (pi_nwrite p =? u32 (pi_nread p + PIPESIZE)) = (pcount p =? PIPESIZE).
Proof.
  intros H. pose proof (nwrite_count p H) as E.
  destruct (Z.eqb_spec (pi_nwrite p) (u32 (pi_nread p + PIPESIZE))) as [E'|E']; destruct (Z.eqb_spec (pcount p) PIPESIZE) as [F|F]; try done.
  - exfalso. apply F. unfold pcount. by rewrite E', u32_sub_add.
  - exfalso. apply E'. by rewrite E, F.
Qed.

Lemma empty_iff p : pipe_ok p -> (pi_nread p =? pi_nwrite p) = (pcount p =? 0).
Proof.
  intros H. pose proof (nwrite_count p H) as E. pose proof (po_read p H) as Hr.
  destruct (Z.eqb_spec (pi_nread p) (pi_nwrite p)) as [E'|E']; destruct (Z.eqb_spec (pcount p) 0) as [F|F]; try done.
  - exfalso. apply F. unfold pcount. by rewrite E', Z.sub_diag.
  - exfalso. apply E'. rewrite E, F, Z.add_0_r. by rewrite u32_small.
Qed.

Lemma contents_length p : pipe_ok p -> Z.of_nat (length (contents p)) = pcount p.
Proof. intros H. unfold contents. rewrite length_ring. pose proof (pcount_range p H). lia. Qed.

(** What a store and a load do to the pipe. *)
Definition pushed (c : Z) (p : pipe) : pipe :=
  mkPipe (pi_lock p) (<[slot PIPESIZE (pi_nwrite p):=c]> (pi_data p)) (pi_nread p) (u32 (pi_nwrite p + 1)) (pi_readopen p) (pi_writeopen p).
Definition popped (p : pipe) : pipe :=
  mkPipe (pi_lock p) (pi_data p) (u32 (pi_nread p + 1)) (pi_nwrite p) (pi_readopen p) (pi_writeopen p).

Lemma pushed_count c p : pipe_ok p -> pcount p < PIPESIZE -> pcount (pushed c p) = pcount p + 1.
Proof. intros H Hlt. unfold pcount in *. simpl. apply u32_succ_sub. unfold PIPESIZE in *. lia. Qed.

Lemma pushed_ok c p : pipe_ok p -> pcount p < PIPESIZE -> pipe_ok (pushed c p).
Proof.
  intros H Hlt. pose proof (pushed_count c p H Hlt) as E. destruct H as [H1 H2 H3 H4].
  constructor; [simpl; by rewrite length_insert|done|apply u32_range|rewrite E; lia].
Qed.

Lemma pushed_contents c p : pipe_ok p -> pcount p < PIPESIZE -> contents (pushed c p) = contents p ++ [c].
Proof.
  intros H Hlt. pose proof (pcount_range p H). unfold contents. rewrite pushed_count by done.
  replace (Z.to_nat (pcount p + 1)) with (S (Z.to_nat (pcount p))) by lia. simpl.
  rewrite <- (ring_store PIPESIZE pipe_pos _ _ _ c (po_data p H)) by lia. f_equal. f_equal.
  rewrite Z2Nat.id by lia. rewrite (nwrite_count p H). rewrite <- (Z.add_0_r (u32 _)), (slot_u32 _ pipe_pos pipe_div), Z.add_0_r. done.
Qed.

Lemma popped_count p : 0 < pcount p -> pcount (popped p) = pcount p - 1.
Proof. intros Hlt. unfold pcount in *. simpl. by apply u32_sub_succ. Qed.

Lemma popped_ok p : pipe_ok p -> 0 < pcount p -> pipe_ok (popped p).
Proof.
  intros H Hlt. pose proof (popped_count p Hlt) as E. destruct H as [H1 H2 H3 H4].
  constructor; [done|apply u32_range|done|rewrite E; lia].
Qed.

Definition first (p : pipe) : Z := nth (slot PIPESIZE (pi_nread p)) (pi_data p) 0.

Lemma popped_contents p : pipe_ok p -> 0 < pcount p -> contents p = first p :: contents (popped p).
Proof.
  intros H Hlt. unfold contents. rewrite popped_count by done. simpl. rewrite (ring_u32 _ pipe_pos pipe_div).
  replace (Z.to_nat (pcount p)) with (S (Z.to_nat (pcount p - 1))) by lia. apply ring_cons.
Qed.

(** ** The operations *)

Definition with_pipe (p : pipe) (s : pst) : pst := mkPst (Some p) (ps_killed s) (ps_woken s) (ps_got s).

Lemma pipe_store_run c s p : ps_pipe s = Some p -> pipe_ok p -> pipe_store c s = Ret tt (with_pipe (pushed c p) s).
Proof.
  intros Hp Hok. unfold pipe_store, bind, getp. rewrite Hp. change (Z.to_nat (pi_nwrite p mod PIPESIZE)) with (slot PIPESIZE (pi_nwrite p)).
  rewrite (proj2 (Nat.ltb_lt _ _)); [done|]. rewrite (po_data p Hok). apply slot_lt, pipe_pos.
Qed.

Lemma pipe_load_run s p : ps_pipe s = Some p -> pipe_ok p ->
  pipe_load s = Ret tt (mkPst (Some (popped p)) (ps_killed s) (ps_woken s) (ps_got s ++ [first p])).
Proof.
  intros Hp Hok. unfold pipe_load, bind, getp. rewrite Hp. change (Z.to_nat (pi_nread p mod PIPESIZE)) with (slot PIPESIZE (pi_nread p)).
  by rewrite (ring_lookup PIPESIZE pipe_pos _ _ (po_data p Hok)).
Qed.

Lemma pipe_acquire_run s p : ps_pipe s = Some p -> pi_lock p = false -> pipe_acquire s = Ret tt (with_pipe (set_pi_lock true p) s).
Proof. intros Hp Hl. unfold pipe_acquire, bind, getp. by rewrite Hp, Hl. Qed.
Lemma pipe_release_run s p : ps_pipe s = Some p -> pi_lock p = true -> pipe_release s = Ret tt (with_pipe (set_pi_lock false p) s).
Proof. intros Hp Hl. unfold pipe_release, bind, getp. by rewrite Hp, Hl. Qed.
Lemma getp_run s p : ps_pipe s = Some p -> getp s = Ret p s.
Proof. unfold getp. by intros ->. Qed.
Lemma set_lock_ok b p : pipe_ok p -> pipe_ok (set_pi_lock b p).
Proof. by intros []. Qed.

(** [p'] is [p] after its first [k] bytes were read. *)
Definition consumed (k : nat) (p p' : pipe) : Prop :=
  pipe_ok p' /\ contents p' = drop k (contents p) /\ pi_lock p' = pi_lock p /\
  pi_readopen p' = pi_readopen p /\ pi_writeopen p' = pi_writeopen p.

Lemma read_loop_run n : forall i s p, ps_pipe s = Some p -> pipe_ok p ->
  let m := Nat.min n (length (contents p)) in
  exists p', consumed m p p' /\
    read_loop n i s = Ret (i + Z.of_nat m) (mkPst (Some p') (ps_killed s) (ps_woken s) (ps_got s ++ take m (contents p))).
Proof.
  induction n as [|n IH]; intros i s p Hp Hok; cbn [read_loop Nat.min]; cbv zeta.
  - exists p. split; [unfold consumed; auto 10|]. simpl. rewrite Z.add_0_r, app_nil_r, <- Hp. by destruct s.
  - unfold bind at 1, getp. rewrite Hp, (empty_iff p Hok). pose proof (contents_length p Hok) as Hl. destruct (Z.eqb_spec (pcount p) 0) as [E|E].
    + destruct (contents p) as [|c l] eqn:Ec; [|simpl in Hl; lia]. exists p. simpl. split; [unfold consumed; rewrite Ec; by auto 10|].
      rewrite Z.add_0_r, app_nil_r, <- Hp. by destruct s.
    + pose proof (pcount_range p Hok). unfold bind. rewrite (pipe_load_run s p Hp Hok). rewrite (popped_contents p Hok) by lia.
      destruct (IH (i + 1) (mkPst (Some (popped p)) (ps_killed s) (ps_woken s) (ps_got s ++ [first p])) (popped p))
        as (p' & (H1 & H2 & H3 & H4 & H5) & E2); [done|by apply popped_ok; [|lia]|].
      exists p'. split; [unfold consumed; rewrite (popped_contents p Hok) by lia; by auto 10|]. rewrite E2. simpl. f_equal; [lia|]. by rewrite <- app_assoc.
Qed.

Lemma piperead_data fuel n s p : ps_pipe s = Some p -> pipe_ok p -> pi_lock p = false -> (pcount p =? 0) && pi_writeopen p = false ->
  let m := Nat.min n (length (contents p)) in
  exists p', consumed m p p' /\
    run_until (piperead (S fuel) n) s = Ret (inl (Z.of_nat m)) (mkPst (Some p') (ps_killed s) (ChWrite :: ps_woken s) (ps_got s ++ take m (contents p))).
Proof.
  intros Hp Hok Hlk Hd. set (p1 := set_pi_lock true p). pose proof (set_lock_ok true p Hok) as Hok1. fold p1 in Hok1.
  unfold piperead. cbn [run_until pbind act]. rewrite (pipe_acquire_run s p Hp Hlk). cbn [wait_data run_until pbind act getp with_pipe ps_pipe].
  change (pi_nread (set_pi_lock true p) =? pi_nwrite (set_pi_lock true p)) with (pi_nread p =? pi_nwrite p). rewrite (empty_iff p Hok).
  change (pi_writeopen (set_pi_lock true p)) with (pi_writeopen p). rewrite Hd. cbn [run_until pbind act].
  destruct (read_loop_run n 0 (with_pipe p1 s) p1 eq_refl Hok1) as (p' & (H1 & H2 & H3 & H4 & H5) & E).
  fold p1. unfold with_pipe in E |- *. rewrite E. cbn [run_until pbind act pwakeup modify ps_pipe ps_killed ps_woken ps_got].
  erewrite pipe_release_run; [|done|by rewrite H3]. exists (set_pi_lock false p'). split; [|done].
  split; [by apply set_lock_ok|]. auto.
Qed.

(** What a reader finds.  When the pipe holds bytes, piperead returns the first of them, as many
    as there are up to [n], takes them out of the pipe in order and wakes the writers.  When it is
    empty and all writers have closed it, it returns 0.  When it is empty and open, it returns -1 to
    a killed process and makes any other sleep, with the lock released and nothing taken, to start
    over when it is woken. *)
Lemma piperead_cases fuel n s p : ps_pipe s = Some p -> pipe_ok p -> pi_lock p = false ->
  let m := Nat.min n (length (contents p)) in
  if (pcount p =? 0) && pi_writeopen p then
    if ps_killed s then exists s', run_until (piperead (S fuel) n) s = Ret (inl (-1)) s' /\ ps_pipe s' = Some p /\ ps_got s' = ps_got s
    else exists rest s', run_until (piperead (S fuel) n) s = Ret (inr rest) s' /\ ps_pipe s' = Some p /\ ps_got s' = ps_got s /\
           forall s2, run_until rest s2 = run_until (piperead fuel n) s2
  else exists p', consumed m p p' /\
    run_until (piperead (S fuel) n) s = Ret (inl (Z.of_nat m)) (mkPst (Some p') (ps_killed s) (ChWrite :: ps_woken s) (ps_got s ++ take m (contents p))).
Proof.
  intros Hp Hok Hlk. destruct ((pcount p =? 0) && pi_writeopen p) eqn:Ed; [|by apply piperead_data].
  assert (set_pi_lock false (set_pi_lock true p) = p) as Hback by (destruct p; simpl in *; by subst).
  unfold piperead. cbn [run_until pbind act]. rewrite (pipe_acquire_run s p Hp Hlk). cbn [wait_data run_until pbind act getp with_pipe ps_pipe].
  change (pi_nread (set_pi_lock true p) =? pi_nwrite (set_pi_lock true p)) with (pi_nread p =? pi_nwrite p). rewrite (empty_iff p Hok).
  change (pi_writeopen (set_pi_lock true p)) with (pi_writeopen p). rewrite Ed.
  cbn [run_until pbind act gets with_pipe ps_killed]. destruct (ps_killed s); simpl; rewrite Hback.
  - eexists. done.
  - eexists _, _. split; [done|]. split; [done|]. split; [done|]. intros s2. done.
Qed.

(** A pipe with three bytes, around the end of the counters. *)
Definition pdemo : pipe := mkPipe false (<[511%nat:=7]> (<[0%nat:=8]> (<[1%nat:=9]> (replicate 512 0)))) (2 ^ 32 - 1) 2 true true.

Lemma pdemo_ok : pipe_ok pdemo.
Proof. split; vm_compute; repeat split; try done. Qed.

(** ** Writing *)

(** What the processes that run while a writer sleeps on a full pipe do: some of the readers read,
    in order, at least one byte; the reading end stays open. *)
Definition readers (env : M pst unit) : Prop := forall s p,
  ps_pipe s = Some p -> pipe_ok p -> pi_lock p = false -> pcount p = PIPESIZE -> pi_readopen p = true -> ps_killed s = false ->
  wp env (fun _ s' => exists k p', (0 < k)%nat /\ ps_pipe s' = Some p' /\ consumed k p p' /\
    ps_got s' = ps_got s ++ take k (contents p) /\ ps_killed s' = false) s.

Section write.
Context (env : M pst unit) (Henv : readers env).

(** The pipe of a writer that is not killed, with the lock held or not. *)
Definition writing (locked : bool) (all : list Z) (s : pst) : Prop := exists p,
  ps_pipe s = Some p /\ pipe_ok p /\ pi_lock p = locked /\ pi_readopen p = true /\ ps_killed s = false /\
  ps_got s ++ contents p = all.

Definition room (s : pst) : Prop := exists p, ps_pipe s = Some p /\ pcount p < PIPESIZE.

Lemma wait_room_now fuel all s : writing true all s -> room s ->
  rwp ps_woken env (wait_room (S fuel)) (fun b _ s' => b = true /\ writing true all s' /\ room s') s.
Proof.
  intros (p & Hp & Hok & Hw) (p' & Hp' & Hc). rewrite Hp in Hp'. injection Hp' as <-. cbn [wait_room].
  apply rwp_bind, rwp_act. eapply wp_intro; [by apply getp_run|]. rewrite (full_iff p Hok). destruct (Z.eqb_spec (pcount p) PIPESIZE); [lia|].
  apply rwp_ret. split; [done|]. split; [by exists p|by exists p].
Qed.

Lemma wait_room_ok fuel all s : writing true all s ->
  rwp ps_woken env (wait_room (S (S fuel))) (fun b _ s' => b = true /\ writing true all s' /\ room s') s.
Proof.
  intros (p & Hp & Hok & Hlk & Hro & Hk & Hall). pose proof (pcount_range p Hok).
  destruct (decide (pcount p < PIPESIZE)) as [Hc|Hc]; [apply wait_room_now; [exists p; auto 10|by exists p]|].
  cbn [wait_room]. apply rwp_bind, rwp_act. eapply wp_intro; [by apply getp_run|].
  rewrite (full_iff p Hok), (proj2 (Z.eqb_eq (pcount p) PIPESIZE)) by lia.
  apply rwp_bind, rwp_act, wp_gets. rewrite Hro, Hk. cbn [negb orb]. apply rwp_bind, rwp_act, wp_modify.
  apply rwp_bind. unfold pipe_sleep. apply rwp_bind, rwp_act. eapply wp_intro; [by apply pipe_release_run|].
  apply rwp_bind, rwp_swtch. eapply wp_mono; [apply (Henv _ (set_pi_lock false p)); try done; [by apply set_lock_ok|unfold pcount in *; simpl; lia]|].
  intros [] s2 (k & p2 & Hk0 & Hp2 & (C1 & C2 & C3 & C4 & C5) & Hgot & Hkill).
  apply rwp_act. eapply wp_intro; [by apply pipe_acquire_run|].
  change (contents (set_pi_lock false p)) with (contents p) in *.
  eapply rwp_mono; [apply (wait_room_now fuel all)|].
  - exists (set_pi_lock true p2). split; [done|]. split; [by apply set_lock_ok|]. split; [done|]. split; [by rewrite <- Hro|]. split; [done|].
    change (contents (set_pi_lock true p2)) with (contents p2). simpl. by rewrite C2, Hgot, <- app_assoc, take_drop.
  - exists (set_pi_lock true p2). split; [done|]. change (pcount (set_pi_lock true p2)) with (pcount p2).
    rewrite <- (contents_length p2 C1), C2, length_drop.
    pose proof (contents_length p Hok). unfold PIPESIZE in *. lia.
  - intros b l s' H'. exact H'.
Qed.

Lemma write_loop_ok fuel l : forall all s, writing true all s ->
  rwp ps_woken env (write_loop (S (S fuel)) l) (fun b _ s' => b = true /\ writing true (all ++ l) s') s.
Proof.
  induction l as [|c l IH]; intros all s Hw; cbn [write_loop].
  - apply rwp_ret. by rewrite app_nil_r.
  - apply rwp_bind. eapply rwp_mono; [by apply wait_room_ok|]. intros b ? s1 (-> & (p & Hp & Hok & Hlk & Hro & Hk & Hall) & p' & Hp' & Hc). rewrite Hp in Hp'. injection Hp' as <-.
    apply rwp_bind, rwp_act. eapply wp_intro; [by apply pipe_store_run|].
    eapply rwp_mono; [apply (IH (all ++ [c]))|].
    + exists (pushed c p). rewrite pushed_contents by done. simpl. rewrite app_assoc, Hall.
      split; [done|]. split; [by apply pushed_ok|]. done.
    + intros b ? s2. by rewrite <- app_assoc.
Qed.

End write.

(** C25: a pipe delivers what is written to it, once and in order.  The read end is open and the writer is
    not killed.  Whatever readers run whenever a
    writer of [l] finds the pipe full, as long as they read: pipewrite returns the length of [l],
    and what the readers have got, followed by what the pipe still holds, is what they had got
    before, followed by what the pipe held, followed by [l].  The lock is free and the readers have
    been woken. *)
Theorem pipewrite_delivers env l s p : readers env ->
  ps_pipe s = Some p -> pipe_ok p -> pi_lock p = false -> pi_readopen p = true -> ps_killed s = false ->
  rwp ps_woken env (pipewrite 2 l) (fun r _ s' => exists p', r = Z.of_nat (length l) /\ ps_pipe s' = Some p' /\ pipe_ok p' /\
    pi_lock p' = false /\ head (ps_woken s') = Some ChRead /\ ps_got s' ++ contents p' = ps_got s ++ contents p ++ l) s.
Proof.
  intros Henv Hp Hok Hlk Hro Hk. unfold pipewrite. apply rwp_bind, rwp_act. eapply wp_intro; [by apply pipe_acquire_run|].
  apply rwp_bind. eapply rwp_mono; [apply (write_loop_ok env Henv 0 l (ps_got s ++ contents p))|].
  - exists (set_pi_lock true p). auto 10 using set_lock_ok.
  - intros b ? s1 (-> & p1 & Hp1 & Hok1 & Hlk1 & Hro1 & Hk1 & Hall). apply rwp_bind, rwp_act, wp_modify.
    apply rwp_bind, rwp_act. eapply wp_intro; [by apply pipe_release_run|]. apply rwp_ret.
    exists (set_pi_lock false p1). rewrite app_assoc, <- Hall. auto 10 using set_lock_ok.
Qed.

(** A reader that asks for [n] bytes. *)
Definition one_reader (n : nat) : M pst unit := fun s =>
  match run_until (piperead 1 n) s with Ret (inl _) s' => Ret tt s' | _ => Fault s end.

Lemma pipewrite_delivers_witness :
  rwp ps_woken (one_reader 100) (pipewrite 2 (replicate 600 5)) (fun r _ s' => exists p', r = 600 /\ ps_pipe s' = Some p' /\ pipe_ok p' /\
    pi_lock p' = false /\ head (ps_woken s') = Some ChRead /\ ps_got s' ++ contents p' = [7; 8; 9] ++ replicate 600 5)
    (mkPst (Some pdemo) false [] []).
Proof.
  apply (pipewrite_delivers (one_reader 100) (replicate 600 5) (mkPst (Some pdemo) false [] []) pdemo); try exact pdemo_ok; try done.
  intros s p Hp Hok Hlk Hc Hro Hk. destruct (piperead_data 0 100 s p Hp Hok Hlk) as (p' & Hcons & E); [by rewrite Hc|]. unfold wp, one_reader. rewrite E.
  eexists _, p'. split; [|split; [done|split; [exact Hcons|done]]]. pose proof (contents_length p Hok). unfold PIPESIZE in *. lia.
Defined.
