(* ===== verification/Kbd.v ===== *)
(** * The keyboard (src/kbd.h, src/kbd.c)

    The scan-code tables and kbdgetc.  The controller's two ports are arguments: the status byte
    and the data byte that the reads of this call return.  The state is the static [shift]. *)
From Stdlib Require Import ZArith Lia Ascii.
From stdpp Require Import base list numbers strings.
From S2P Require Import Prelude.
Local Open Scope Z_scope.

Definition KBS_DIB : Z := 0x01.
Definition NO : Z := 0.
Definition SHIFT : Z := 1.
Definition CTL : Z := 2.
Definition ALT : Z := 4.
Definition CAPSLOCK : Z := 8.
Definition NUMLOCK : Z := 16.
Definition SCROLLLOCK : Z := 32.
Definition E0ESC : Z := 64.
Definition KEY_HOME : Z := 0xE0.
Definition KEY_END : Z := 0xE1.
Definition KEY_UP : Z := 0xE2.
Definition KEY_DN : Z := 0xE3.
Definition KEY_LF : Z := 0xE4.
Definition KEY_RT : Z := 0xE5.
Definition KEY_PGUP : Z := 0xE6.
Definition KEY_PGDN : Z := 0xE7.
Definition KEY_INS : Z := 0xE8.
Definition KEY_DEL : Z := 0xE9.

(** The codes of characters. *)
Fixpoint codes (s : string) : list Z :=
  match s with
  | EmptyString => []
  | String a s' => Z.of_N (N_of_ascii a) :: codes s'
  end.

(** [C(x)] in an array of uchar *)
Definition C (x : Z) : Z := (x - 64) mod 256.
Definition ctl (s : string) : list Z := map C (codes s).

(** An array of 256 uchars: its first elements, then designated ones. *)
Definition table (l : list Z) (d : list (nat * Z)) : list Z :=
  fold_left (fun t '(i, v) => <[i:=v]> t) d (l ++ replicate (256 - length l) 0).

Definition shiftcode : list Z :=
  table [] [(0x1D%nat, CTL); (0x2A%nat, SHIFT); (0x36%nat, SHIFT); (0x38%nat, ALT); (0x9D%nat, CTL); (0xB8%nat, ALT)].
Definition togglecode : list Z := table [] [(0x3A%nat, CAPSLOCK); (0x45%nat, NUMLOCK); (0x46%nat, SCROLLLOCK)].

(** The designated elements that the three maps share. *)
Definition keypad (enter div : Z) : list (nat * Z) :=
  [(0x9C%nat, enter); (0xB5%nat, div); (0xC8%nat, KEY_UP); (0xD0%nat, KEY_DN); (0xC9%nat, KEY_PGUP); (0xD1%nat, KEY_PGDN);
   (0xCB%nat, KEY_LF); (0xCD%nat, KEY_RT); (0x97%nat, KEY_HOME); (0xCF%nat, KEY_END); (0xD2%nat, KEY_INS); (0xD3%nat, KEY_DEL)].

Definition normalmap : list Z := table
  ([NO; 0x1B] ++ codes "123456" ++
   codes "7890-=" ++ [8; 9] ++
   codes "qwertyui" ++
   codes "op[]" ++ [10; NO] ++ codes "as" ++
   codes "dfghjkl;" ++
   codes "'`" ++ [NO] ++ codes "\zxcv" ++
   codes "bnm,./" ++ [NO] ++ codes "*" ++
   [NO] ++ codes " " ++ [NO; NO; NO; NO; NO; NO] ++
   [NO; NO; NO; NO; NO; NO; NO] ++ codes "7" ++
   codes "89-456+1" ++
   codes "230." ++ [NO; NO; NO; NO]) (keypad 10 47).

Definition shiftmap : list Z := table
  ([NO; 27] ++ codes "!@#$%^" ++
   codes "&*()_+" ++ [8; 9] ++
   codes "QWERTYUI" ++
   codes "OP{}" ++ [10; NO] ++ codes "AS" ++
   codes "DFGHJKL:" ++
   [34] ++ codes "~" ++ [NO] ++ codes "|ZXCV" ++
   codes "BNM<>?" ++ [NO] ++ codes "*" ++
   [NO] ++ codes " " ++ [NO; NO; NO; NO; NO; NO] ++
   [NO; NO; NO; NO; NO; NO; NO] ++ codes "7" ++
   codes "89-456+1" ++
   codes "230." ++ [NO; NO; NO; NO]) (keypad 10 47).

Definition ctlmap : list Z := table
  ([NO; NO; NO; NO; NO; NO; NO; NO] ++
   [NO; NO; NO; NO; NO; NO; NO; NO] ++
   ctl "QWERTYUI" ++
   ctl "OP" ++ [NO; NO; 13; NO] ++ ctl "AS" ++
   ctl "DFGHJKL" ++ [NO] ++
   [NO; NO; NO] ++ ctl "\ZXCV" ++
   ctl "BNM" ++ [NO; NO] ++ ctl "/" ++ [NO; NO]) (keypad 13 (C 47)).

Definition charcode : list (list Z) := [normalmap; shiftmap; ctlmap; ctlmap].

(** [a[i]] in a table *)
Definition at_ (a : list Z) (i : Z) : M Z Z := fun s => match a !! Z.to_nat i with Some v => Ret v s | None => Fault s end.

(** [st] and [data] are what inb(KBSTATP) and inb(KBDATAP) return. *)
Definition kbdgetc (st data : Z) : M Z Z :=
  if Z.land st KBS_DIB =? 0 then ret (-1)
  else if data =? 0xE0 then
    modify (fun shift => Z.lor shift E0ESC) ;;;
    ret 0
  else if negb (Z.land data 0x80 =? 0) then
    let! shift := gets (fun s => s) in
    let data := if negb (Z.land shift E0ESC =? 0) then data else Z.land data 0x7F in
    let! sc := at_ shiftcode data in
    modify (fun shift => Z.ldiff shift (Z.lor sc E0ESC)) ;;;
    ret 0
  else
    let! shift := gets (fun s => s) in
    let esc := negb (Z.land shift E0ESC =? 0) in
    let data := if esc then Z.lor data 0x80 else data in
    when esc (modify (fun shift => Z.ldiff shift E0ESC)) ;;;
    let! sc := at_ shiftcode data in
    modify (fun shift => Z.lor shift sc) ;;;
    let! tc := at_ togglecode data in
    modify (fun shift => Z.lxor shift tc) ;;;
    let! shift := gets (fun s => s) in
    match charcode !! Z.to_nat (Z.land shift (Z.lor CTL SHIFT)) with
    | None => fault
    | Some m =>
        let! c := at_ m data in
        ret (if negb (Z.land shift CAPSLOCK =? 0) then
               if (97 <=? c) && (c <=? 122) then c + (65 - 97)
               else if (65 <=? c) && (c <=? 90) then c + (97 - 65)
               else c
             else c)
    end.

(** ** Properties *)

Lemma table_length l d : (length l <= 256)%nat -> length (table l d) = 256%nat.
Proof.
  intros Hl. unfold table. assert (length (l ++ replicate (256 - length l) 0) = 256%nat) as H by (rewrite length_app, length_replicate; lia).
  revert H. generalize (l ++ replicate (256 - length l) 0). induction d as [|[i v] d IH]; intros t H; simpl; [done|].
  apply IH. by rewrite length_insert.
Qed.

(** All shift states and all bytes. *)
Definition all_shifts : list Z := map Z.of_nat (seq 0 128).
Definition all_bytes : list Z := map Z.of_nat (seq 0 256).

Lemma all_below n : forall x, 0 <= x < Z.of_nat n -> x ∈ map Z.of_nat (seq 0 n).
Proof. intros x Hx. apply list_elem_of_fmap. exists (Z.to_nat x). split; [lia|]. apply elem_of_seq. lia. Qed.

Definition kbd_safe (shift data : Z) : bool :=
  match kbdgetc KBS_DIB data shift with Ret c s' => (0 <=? c) && (c <? 256) && (0 <=? s') && (s' <? 128) | _ => false end.

(** The tables are long enough for every scan code in every state of the modifiers: a call of
    kbdgetc with a byte waiting never indexes outside them, returns a byte (0 for none) and leaves
    the modifiers in their seven bits. *)
Lemma kbdgetc_total st data shift : Z.land st KBS_DIB <> 0 -> 0 <= data < 256 -> 0 <= shift < 128 ->
  exists c shift', kbdgetc st data shift = Ret c shift' /\ 0 <= c < 256 /\ 0 <= shift' < 128.
Proof.
  intros Hst Hd Hs. assert (kbdgetc st data shift = kbdgetc KBS_DIB data shift) as -> by (unfold kbdgetc; destruct (Z.eqb_spec (Z.land st KBS_DIB) 0); done).
  assert (forallb (fun s => forallb (kbd_safe s) all_bytes) all_shifts = true) as H by (vm_compute; reflexivity).
  rewrite forallb_forall in H. specialize (H shift). rewrite forallb_forall in H.
  assert (kbd_safe shift data = true) as Hsafe.
  { apply H; [apply list_elem_of_In, (all_below 128); lia|apply list_elem_of_In, (all_below 256); lia]. }
  unfold kbd_safe in Hsafe. destruct (kbdgetc KBS_DIB data shift) as [c s'|?|?|?]; [|done..].
  exists c, s'. split; [done|]. lia.
Qed.

(** The scan codes of the letters. *)
Definition letters : list (Z * Z) :=
  combine ([0x10; 0x11; 0x12; 0x13; 0x14; 0x15; 0x16; 0x17; 0x18; 0x19; 0x1E; 0x1F; 0x20; 0x21; 0x22; 0x23; 0x24; 0x25; 0x26] ++
           [0x2C; 0x2D; 0x2E; 0x2F; 0x30; 0x31; 0x32]) (codes "qwertyuiopasdfghjklzxcvbnm").

Definition letter_of (shift c : Z) : Z :=
  if negb (Z.land shift CTL =? 0) then c - 96
  else if xorb (negb (Z.land shift SHIFT =? 0)) (negb (Z.land shift CAPSLOCK =? 0)) then c - 32
  else c.

Definition letter_ok (shift : Z) (k : Z * Z) : bool :=
  match kbdgetc KBS_DIB k.1 shift with Ret c s' => (c =? letter_of shift k.2) && (s' =? shift) | _ => false end.

(** the letter keys: pressed without a pending escape, the key of a letter types it in lower
    case, in upper case when exactly one of SHIFT and CAPSLOCK is on, and its control character
    when CTL is on; the modifiers stay as they are. *)
Lemma kbdgetc_letters code c shift : (code, c) ∈ letters -> 0 <= shift < 64 ->
  kbdgetc KBS_DIB code shift = Ret (letter_of shift c) shift.
Proof.
  intros Hl Hs. assert (forallb (fun s => forallb (letter_ok s) letters) (map Z.of_nat (seq 0 64)) = true) as H by (vm_compute; reflexivity).
  rewrite forallb_forall in H. specialize (H shift (proj1 (list_elem_of_In _ _) (all_below 64 shift ltac:(lia)))).
  rewrite forallb_forall in H. specialize (H _ (proj1 (list_elem_of_In _ _) Hl)). unfold letter_ok in H. simpl in H.
  destruct (kbdgetc KBS_DIB code shift) as [d s'|?|?|?]; [|done..].
  apply andb_true_iff in H as [->%Z.eqb_eq ->%Z.eqb_eq]. done.
Qed.

