(* ===== verification/Printf.v ===== *)
(** * Formatted output of user programs (src/printf.c) and of the kernel's numbers (src/console.c)

    The digits of a number are produced into a buffer of 16 chars, the lowest first, and written
    backwards.  [digits_step] is one round of that loop, which printf.c and console.c share; a
    digit stored past the buffer is a [fault].  [wr] is what has been written so far: the bytes
    with their file descriptors.  [str_at] stands for the process's memory: the characters of the
    string at an address. *)
From Stdlib Require Import ZArith Lia.
From stdpp Require Import base list numbers strings.
From S2P Require Import Ulib Prelude.
Local Open Scope Z_scope.

Definition MINUS : Z := 45.
Definition PERCENT : Z := 37.

(** ** Numbers *)

(** [buf[i++] = digits[x % base]; x /= base]: [inr] when [x] has become 0 *)
Definition digits_step {S} (digits : list Z) (base : Z) (a : nat * Z * list Z) : M S ((nat * Z * list Z) + (nat * list Z)) :=
  let '(i, x, buf) := a in
  match digits !! Z.to_nat (x mod base) with
  | None => fault
  | Some d =>
      if (i <? length buf)%nat then
        let buf := <[i:=d]> buf in
        let x := x / base in
        if x =? 0 then ret (inr ((i + 1)%nat, buf)) else ret (inl ((i + 1)%nat, x, buf))
      else fault
  end.

(** [buf[i++] = '-'] when [neg] *)
Definition put_sign {S} (neg : bool) (a : nat * list Z) : M S (nat * list Z) :=
  let '(i, buf) := a in
  if neg then if (i <? length buf)%nat then ret ((i + 1)%nat, <[i:=MINUS]> buf) else fault
  else ret (i, buf).

(** [while(--i >= 0) putc(buf[i])] *)
Fixpoint put_back {S} (putc : Z -> M S unit) (i : nat) (buf : list Z) : M S unit :=
  match i with
  | O => skip
  | S i' => match buf !! i' with
            | Some c => putc c ;;; put_back putc i' buf
            | None => fault
            end
  end.

Definition wr : Type := list (Z * Z).

Definition putc (fd c : Z) : M wr unit := modify (fun o => o ++ [(fd, c mod 256)]).

(** "0123456789ABCDEF" *)
Definition udigits : list Z := [48; 49; 50; 51; 52; 53; 54; 55; 56; 57; 65; 66; 67; 68; 69; 70].

Definition printint (fd xx base : Z) (sgn : bool) : M wr unit :=
  let neg := sgn && (xx <? 0) in
  let x := if neg then u32 (- xx) else u32 xx in
  let! a := loop 33 (digits_step udigits base) (0%nat, x, replicate 16 0) in
  let! r := put_sign neg a in
  let '(i, buf) := r in
  put_back (putc fd) i buf.

(** ** printf *)

Section printf.
Context (str_at : Z -> option (list Z)).

(** "(null)" *)
Definition null_str : list Z := [40; 110; 117; 108; 108; 41].

(** [while( *s != 0) { putc(fd, *s); s++; }] *)
Definition put_str (fd p : Z) : M wr unit :=
  match (if p =? 0 then Some null_str else str_at p) with
  | Some s => modify (fun o => o ++ map (fun c => (fd, c mod 256)) s)
  | None => fault
  end.

(** One character of the format: [state] is whether the last one was a '%', [ap] the words of the
    arguments that are left. *)
Definition printf_char (fd c : Z) (state : bool) (ap : list Z) : M wr (bool * list Z) :=
  let c := c mod 256 in
  if negb state then
    if c =? PERCENT then ret (true, ap) else putc fd c ;;; ret (false, ap)
  else if c =? 100 (* 'd' *) then
    match ap with x :: ap' => printint fd (i32 x) 10 true ;;; ret (false, ap') | [] => fault end
  else if (c =? 120) || (c =? 112) (* 'x', 'p' *) then
    match ap with x :: ap' => printint fd (i32 x) 16 false ;;; ret (false, ap') | [] => fault end
  else if c =? 115 (* 's' *) then
    match ap with p :: ap' => put_str fd p ;;; ret (false, ap') | [] => fault end
  else if c =? 99 (* 'c' *) then
    match ap with x :: ap' => putc fd x ;;; ret (false, ap') | [] => fault end
  else if c =? PERCENT then putc fd c ;;; ret (false, ap)
  else putc fd PERCENT ;;; putc fd c ;;; ret (false, ap).

Fixpoint printf_loop (fd : Z) (fmt : list Z) (state : bool) (ap : list Z) : M wr unit :=
  match fmt with
  | [] => skip
  | c :: fmt' => let! r := printf_char fd c state ap in
                 let '(state', ap') := r in
                 printf_loop fd fmt' state' ap'
  end.

Definition printf (fd : Z) (fmt ap : list Z) : M wr unit := printf_loop fd fmt false ap.

End printf.

(** ** The numerals *)

(** The numeral of [x], the highest digit first. *)
Fixpoint numeral (n : nat) (digits : list Z) (base x : Z) : list Z :=
  match n with
  | O => []
  | S n' => (if x <? base then [] else numeral n' digits base (x / base)) ++ [nth (Z.to_nat (x mod base)) digits 0]
  end.

(** Ten digits are enough for a 32-bit number in base ten or sixteen. *)
Definition decimal (digits : list Z) (x : Z) : list Z := numeral 10 digits 10 x.
Definition signed_decimal (digits : list Z) (x : Z) : list Z := (if x <? 0 then [MINUS] else []) ++ decimal digits (Z.abs x).
Definition hex (digits : list Z) (x : Z) : list Z := numeral 10 digits 16 x.

Lemma numeral_S n digits base x :
  rev (numeral (S n) digits base x) = nth (Z.to_nat (x mod base)) digits 0 :: (if x <? base then [] else rev (numeral n digits base (x / base))).
Proof. simpl. rewrite rev_app_distr. simpl. by destruct (x <? base). Qed.

Lemma div_small_base n base x : 10 <= base -> 0 <= x < 10 ^ (Z.of_nat (S n) + 1) -> 0 <= x / base < 10 ^ (Z.of_nat n + 1).
Proof.
  intros Hb Hx. split; [apply Z.div_pos; lia|]. apply Z.div_lt_upper_bound; [lia|].
  replace (Z.of_nat (S n) + 1) with (Z.succ (Z.of_nat n + 1)) in Hx by lia. rewrite Z.pow_succ_r in Hx by lia.
  pose proof (Z.pow_nonneg 10 (Z.of_nat n + 1)). nia.
Qed.

Lemma digits_step_eq {S} digits base i x (buf : list Z) (s : S) :
  length digits = 16%nat -> 10 <= base <= 16 -> (i < length buf)%nat -> 0 <= x ->
  let buf' := <[i:=nth (Z.to_nat (x mod base)) digits 0]> buf in
  digits_step digits base (i, x, buf) s = Ret (if x <? base then inr ((i + 1)%nat, buf') else inl ((i + 1)%nat, x / base, buf')) s.
Proof.
  intros Hd Hb Hi Hx. unfold digits_step. pose proof (Z.mod_pos_bound x base ltac:(lia)).
  destruct (lookup_lt_is_Some_2 digits (Z.to_nat (x mod base))) as [d Hdig]; [lia|].
  rewrite Hdig, (nth_lookup_Some _ _ _ _ Hdig), (proj2 (Nat.ltb_lt _ _) Hi). cbv zeta.
  destruct (Z.ltb_spec x base) as [Hs|Hs].
  - by rewrite Z.div_small by lia.
  - destruct (Z.eqb_spec (x / base) 0) as [E|E]; [|done]. apply Z.div_small_iff in E; lia.
Qed.

(** The loop leaves the numeral in the buffer, backwards. *)
Lemma digits_run {S} digits base n : length digits = 16%nat -> 10 <= base <= 16 ->
  forall fuel i x (buf : list Z) (s : S), (n < fuel)%nat -> (i + Datatypes.S n <= length buf)%nat -> 0 <= x < 10 ^ (Z.of_nat n + 1) ->
  let l := rev (numeral (Datatypes.S n) digits base x) in
  loop fuel (digits_step digits base) (i, x, buf) s = Ret ((i + length l)%nat, take i buf ++ l ++ drop (i + length l) buf) s.
Proof.
  intros Hd Hb. induction n as [|n IH]; intros fuel i x buf s Hf Hi Hx; (destruct fuel as [|fuel]; [lia|]); cbv zeta;
    rewrite numeral_S; cbn [loop]; unfold bind; rewrite digits_step_eq by (done || lia);
    set (d := nth _ _ _); destruct (Z.ltb_spec x base) as [Hs|Hs]; cbn [length];
    try (unfold ret; rewrite insert_take_drop by lia; by replace (Datatypes.S i) with (i + 1)%nat by lia).
  - simpl in Hx. lia.
  - rewrite IH; [|lia|rewrite length_insert; lia|by apply div_small_base; [lia|]]. cbv zeta. f_equal. f_equal; [lia|].
    replace (i + 1)%nat with (Datatypes.S i) by lia. rewrite (take_S_r _ i d) by (apply list_lookup_insert_eq; lia).
    rewrite take_insert_ge by lia. rewrite <- app_assoc. simpl. rewrite drop_insert_lt by lia. do 4 f_equal. lia.
Qed.

Lemma put_back_run {S} (putc : Z -> M S unit) (step : Z -> S -> S) : (forall c s, putc c s = Ret tt (step c s)) ->
  forall l r s, put_back putc (length l) (l ++ r) s = Ret tt (fold_right step s l).
Proof.
  intros Hp l. induction l as [|c l IH] using rev_ind; intros r s; [done|].
  rewrite length_app, Nat.add_comm. simpl. rewrite <- app_assoc, lookup_app_r, Nat.sub_diag by lia. simpl.
  unfold bind. rewrite Hp. rewrite IH. by rewrite fold_right_app.
Qed.

Lemma numeral_length n digits base x : (length (numeral n digits base x) <= n)%nat.
Proof.
  revert x. induction n as [|n IH]; intros x; simpl; [lia|]. rewrite length_app. simpl.
  specialize (IH (x / base)). destruct (x <? base); simpl; lia.
Qed.

(** Both printints: [x] is a 32-bit number, [neg] whether a sign is wanted. *)
Lemma print_number {S} (putc : Z -> M S unit) (step : Z -> S -> S) digits base x neg s :
  (forall c s, putc c s = Ret tt (step c s)) -> length digits = 16%nat -> 10 <= base <= 16 -> 0 <= x < 2 ^ 32 ->
  (let! a := loop 33 (digits_step digits base) (0%nat, x, replicate 16 0) in
   let! r := put_sign neg a in
   let '(i, buf) := r in put_back putc i buf) s =
  Ret tt (fold_left (fun s c => step c s) ((if neg then [MINUS] else []) ++ numeral 10 digits base x) s).
Proof.
  intros Hp Hd Hb Hx. assert (length (replicate 16 0) = 16%nat) as Hbuf by done. revert Hbuf. generalize (replicate 16 0). intros buf Hbuf.
  unfold bind at 1. rewrite (digits_run digits base 9) by (rewrite ?Hbuf; done || lia).
  set (l := numeral 10 digits base x). pose proof (numeral_length 10 digits base x) as Hl. fold l in Hl. simpl.
  assert (length (rev l ++ drop (length (rev l)) buf) = 16%nat) as Hlen
    by (rewrite length_app, length_drop, Hbuf, length_rev; lia).
  destruct neg; unfold bind, put_sign.
  - rewrite Hlen. rewrite length_rev, (proj2 (Nat.ltb_lt _ _)) by lia. cbn [ret].
    destruct (drop (length l) buf) as [|y r] eqn:E.
    { apply (f_equal length) in E. rewrite length_drop, Hbuf in E. simpl in E. lia. }
    rewrite insert_app_r_alt by (rewrite length_rev; lia). rewrite length_rev, Nat.sub_diag. simpl.
    replace (length l + 1)%nat with (length (rev l ++ [MINUS])) by (rewrite length_app, length_rev; done).
    rewrite (app_assoc (rev l) [MINUS] r : rev l ++ MINUS :: r = _). rewrite (put_back_run _ step Hp).
    by rewrite fold_right_app, <- fold_left_rev_right.
  - cbn [ret]. rewrite (put_back_run _ step Hp). by rewrite <- fold_left_rev_right.
Qed.

Lemma fold_putc (fd : Z) l (o : wr) : fold_left (fun (s : wr) c => s ++ [(fd, c mod 256)]) l o = o ++ map (fun c => (fd, c mod 256)) l.
Proof. revert o. induction l as [|c l IH]; intros o; simpl; [by rewrite app_nil_r|]. by rewrite IH, <- app_assoc. Qed.

Lemma printint_dec fd xx o : - 2 ^ 31 <= xx < 2 ^ 31 ->
  printint fd xx 10 true o = Ret tt (o ++ map (fun c => (fd, c mod 256)) (signed_decimal udigits xx)).
Proof.
  intros Hx. unfold printint, signed_decimal, decimal. simpl andb.
  rewrite (print_number (putc fd) (fun c o => o ++ [(fd, c mod 256)])) by (done || destruct (xx <? 0); in_word).
  rewrite fold_putc. destruct (Z.ltb_spec xx 0); rewrite u32_small by lia; [rewrite Z.abs_neq by lia|rewrite Z.abs_eq by lia]; done.
Qed.

Lemma printint_hex fd xx o : printint fd xx 16 false o = Ret tt (o ++ map (fun c => (fd, c mod 256)) (hex udigits (u32 xx))).
Proof.
  unfold printint. simpl andb.
  rewrite (print_number (putc fd) (fun c o => o ++ [(fd, c mod 256)])) by (done || in_word). by rewrite fold_putc.
Qed.

(** ** Reading a numeral back *)

Lemma udigit_code d : 0 <= d < 10 -> nth (Z.to_nat d) udigits 0 = 48 + d.
Proof.
  intros H. assert (d = 0 \/ d = 1 \/ d = 2 \/ d = 3 \/ d = 4 \/ d = 5 \/ d = 6 \/ d = 7 \/ d = 8 \/ d = 9) as Hd by lia.
  by repeat (destruct Hd as [-> | Hd]; [done|]); subst.
Qed.

Lemma atoi_digit n d r : 0 <= d < 10 -> atoi_from n ((48 + d) :: r) = atoi_from (i32 (n * 10 + d)) r.
Proof.
  intros Hd. simpl. destruct (Z.leb_spec 48 (48 + d)); [|lia]. destruct (Z.leb_spec (48 + d) 57); [|lia]. simpl.
  f_equal. f_equal. lia.
Qed.

Lemma atoi_numeral n : forall x r, 0 <= x < 2 ^ 32 -> x < 10 ^ (Z.of_nat n + 1) ->
  atoi_from 0 (numeral (S n) udigits 10 x ++ r) = atoi_from (i32 x) r.
Proof.
  induction n as [|n IH]; intros x r Hx Hn.
  - cbn [numeral]. simpl in Hn. rewrite (proj2 (Z.ltb_lt x 10)) by lia. cbn [app].
    rewrite Z.mod_small, udigit_code, atoi_digit by lia. done.
  - remember (S n) as n1. cbn [numeral]. subst n1. pose proof (Z.mod_pos_bound x 10 ltac:(lia)) as Hm.
    rewrite udigit_code by lia. pose proof (Z.div_mod x 10 ltac:(lia)). destruct (Z.ltb_spec x 10).
    + cbn [app]. rewrite atoi_digit by lia. rewrite Z.mod_small by lia. done.
    + rewrite <- app_assoc. rewrite IH; [|lia|apply (div_small_base n 10 x); lia]. cbn [app]. rewrite atoi_digit by lia.
      rewrite (i32_small (x / 10)) by lia. do 2 f_equal. lia.
Qed.

Lemma numeral_codes n x : 0 <= x -> Forall (fun c => 48 <= c <= 57) (numeral n udigits 10 x).
Proof.
  revert x. induction n as [|n IH]; intros x Hx; cbn [numeral]; [done|]. apply Forall_app. split.
  - destruct (x <? 10); [done|]. apply IH, Z.div_pos; lia.
  - pose proof (Z.mod_pos_bound x 10 ltac:(lia)). rewrite udigit_code by lia. constructor; [lia|done].
Qed.

Lemma map_byte (fd : Z) l : Forall (fun c => 0 <= c < 256) l -> map (fun c => (fd, c mod 256)) l = map (pair fd) l.
Proof. induction 1 as [|c l Hc _ IH]; [done|]. simpl. rewrite IH, Z.mod_small by lia. done. Qed.

(** A number printed with %d reads back with atoi: printint writes at most eleven characters
    (its buffer has sixteen), a minus sign exactly for negative numbers, and digits that atoi takes
    back to the number (to its absolute value for negative ones, which for INT_MIN wraps to
    itself). *)
Lemma printint_atoi fd xx o : - 2 ^ 31 <= xx < 2 ^ 31 ->
  exists l, printint fd xx 10 true o = Ret tt (o ++ map (pair fd) ((if xx <? 0 then [MINUS] else []) ++ l)) /\
    (length l <= 10)%nat /\ atoi (l ++ [0]) = Some (i32 (Z.abs xx)).
Proof.
  intros Hx. exists (decimal udigits (Z.abs xx)). split; [|split].
  - rewrite printint_dec by done. unfold signed_decimal. rewrite map_byte; [done|]. apply Forall_app. split.
    + destruct (xx <? 0); [|done]. constructor; [unfold MINUS; lia|done].
    + eapply Forall_impl; [apply numeral_codes; lia|]. simpl. lia.
  - apply numeral_length.
  - unfold atoi, decimal. rewrite (atoi_numeral 9) by lia. done.
Qed.

(** ** printf *)

(** The parts of a format and what each prints. *)
Inductive part :=
| Char (c : Z)  (* an ordinary character *)
| Dec (x : Z)  (* %d *)
| Hex (x : Z)  (* %x *)
| Str (p : Z)  (* %s *)
| Chr (x : Z)  (* %c *)
| Pct.  (* %% *)

Definition format (p : part) : list Z :=
  match p with
  | Char c => [c] | Dec _ => [PERCENT; 100] | Hex _ => [PERCENT; 120]
  | Str _ => [PERCENT; 115] | Chr _ => [PERCENT; 99] | Pct => [PERCENT; PERCENT]
  end.
Definition arg (p : part) : list Z :=
  match p with Char _ | Pct => [] | Dec x | Hex x | Str x | Chr x => [x] end.
Definition render (str_at : Z -> option (list Z)) (p : part) : list Z :=
  match p with
  | Char c => [c]
  | Dec x => signed_decimal udigits (i32 x)
  | Hex x => hex udigits (u32 x)
  | Str p => if p =? 0 then null_str else default [] (str_at p)
  | Chr x => [x]
  | Pct => [PERCENT]
  end.
Definition printable (str_at : Z -> option (list Z)) (p : part) : Prop :=
  match p with
  | Char c => c mod 256 <> PERCENT
  | Str p => p = 0 \/ is_Some (str_at p)
  | _ => True
  end.

Lemma printf_part str_at fd p fmt ap o : printable str_at p ->
  printf_loop str_at fd (format p ++ fmt) false (arg p ++ ap) o =
  printf_loop str_at fd fmt false ap (o ++ map (fun c => (fd, c mod 256)) (render str_at p)).
Proof.
  intros Hp. destruct p as [c|x|x|p|x|]; cbn [format arg app printf_loop]; unfold printf_char; cbn -[Z.modulo printint hex signed_decimal printf_loop].
  - destruct (Z.eqb_spec (c mod 256) PERCENT); [done|]. unfold bind, putc, modify, ret. by rewrite Zmod_mod.
  - unfold bind. change (PERCENT mod 256) with PERCENT. change (100 mod 256) with 100. simpl. rewrite printint_dec by in_word. done.
  - unfold bind. change (PERCENT mod 256) with PERCENT. change (120 mod 256) with 120. simpl. rewrite printint_hex.
    by autorewrite with word.
  - unfold bind, put_str. simpl. destruct Hp as [-> | [l Hl]]; [done|]. destruct (Z.eqb_spec p 0) as [->|]; [done|]. by rewrite Hl.
  - done.
  - done.
Qed.

(** Printf prints the parts of its format in order: ordinary characters as they are, %d, %x and
    %p the numerals of the next argument, %s its string ((null) for a null pointer), %c its low
    byte and %% a percent sign; it consumes one argument for each of the first four. *)
Lemma printf_renders str_at fd ps o : Forall (printable str_at) ps ->
  printf str_at fd (concat (map format ps)) (concat (map arg ps)) o =
  Ret tt (o ++ map (fun c => (fd, c mod 256)) (concat (map (render str_at) ps))).
Proof.
  unfold printf. intros H. revert o. induction H as [|p ps Hp _ IH]; intros o; simpl; [by rewrite app_nil_r|].
  rewrite printf_part, IH by done. by rewrite map_app, app_assoc.
Qed.
