(* ===== verification/Console.v ===== *)
(** * The console (src/console.c, src/uart.c)

    Output goes to the serial line and to the CGA screen, input comes from getc functions through
    the line discipline of consoleintr.  The screen is its text memory ([cg_mem], two bytes per
    cell, as one number) and the CRT controller, whose registers are reached through an index
    port and a data port.  [cs_serial] is what was sent to the serial line, when there is one.
    consoleread sleeps and is therefore a program with switches ([Resume]); iunlock and ilock, of
    the inode it is called with, are arguments.  wakeup(&input.r) and the calls of procdump are
    counted in [cs_woken] and [cs_dumps]. *)
From Stdlib Require Import ZArith Lia.
From stdpp Require Import base list numbers strings.
From S2P Require Import Prelude Resume Ulib Printf.
Import Prelude.
Local Open Scope Z_scope.

Definition BACKSPACE : Z := 0x100.
Definition INPUT_BUF : Z := 128.
(** [C(x)] *)
Definition Ctl (x : Z) : Z := x - 64.

Record cga := mkCga {
  cg_index : Z;  (* the register selected through CRTPORT *)
  cg_hi : Z;  (* register 14: cursor, high byte *)
  cg_lo : Z;  (* register 15: cursor, low byte *)
  cg_mem : list Z }.

Record input := mkInput {
  in_buf : list Z;
  in_r : Z;
  in_w : Z;
  in_e : Z }.

Record cst := mkCst {
  cs_lock : bool;  (* cons.lock is held *)
  cs_locking : bool;
  cs_panicked : bool;
  cs_uart : bool;
  cs_serial : list Z;
  cs_cga : cga;
  cs_input : input;
  cs_killed : bool;  (* myproc()->killed *)
  cs_woken : nat;
  cs_dumps : nat }.

Definition set_cs_lock (v : bool) (s : cst) : cst :=
  mkCst v (cs_locking s) (cs_panicked s) (cs_uart s) (cs_serial s) (cs_cga s) (cs_input s) (cs_killed s) (cs_woken s) (cs_dumps s).
Definition set_cs_locking (v : bool) (s : cst) : cst :=
  mkCst (cs_lock s) v (cs_panicked s) (cs_uart s) (cs_serial s) (cs_cga s) (cs_input s) (cs_killed s) (cs_woken s) (cs_dumps s).
Definition set_cs_panicked (v : bool) (s : cst) : cst :=
  mkCst (cs_lock s) (cs_locking s) v (cs_uart s) (cs_serial s) (cs_cga s) (cs_input s) (cs_killed s) (cs_woken s) (cs_dumps s).
Definition set_cs_serial (v : list Z) (s : cst) : cst :=
  mkCst (cs_lock s) (cs_locking s) (cs_panicked s) (cs_uart s) v (cs_cga s) (cs_input s) (cs_killed s) (cs_woken s) (cs_dumps s).
Definition set_cs_cga (v : cga) (s : cst) : cst :=
  mkCst (cs_lock s) (cs_locking s) (cs_panicked s) (cs_uart s) (cs_serial s) v (cs_input s) (cs_killed s) (cs_woken s) (cs_dumps s).
Definition set_cs_input (v : input) (s : cst) : cst :=
  mkCst (cs_lock s) (cs_locking s) (cs_panicked s) (cs_uart s) (cs_serial s) (cs_cga s) v (cs_killed s) (cs_woken s) (cs_dumps s).
Definition wakeup_input (s : cst) : cst :=
  mkCst (cs_lock s) (cs_locking s) (cs_panicked s) (cs_uart s) (cs_serial s) (cs_cga s) (cs_input s) (cs_killed s) (S (cs_woken s)) (cs_dumps s).
Definition procdump_call (s : cst) : cst :=
  mkCst (cs_lock s) (cs_locking s) (cs_panicked s) (cs_uart s) (cs_serial s) (cs_cga s) (cs_input s) (cs_killed s) (cs_woken s) (S (cs_dumps s)).

Definition cons_acquire : M cst unit := fun s => if cs_lock s then Panic "acquire" s else Ret tt (set_cs_lock true s).
Definition cons_release : M cst unit := fun s => if cs_lock s then Ret tt (set_cs_lock false s) else Panic "release" s.

(** ** The screen *)

(** [outb(CRTPORT, i)], [outb(CRTPORT+1, v)] and [inb(CRTPORT+1)] *)
Definition crt_select (i : Z) : M cga unit := modify (fun g => mkCga i (cg_hi g) (cg_lo g) (cg_mem g)).
Definition crt_out (v : Z) : M cga unit := modify (fun g =>
  if cg_index g =? 14 then mkCga (cg_index g) (v mod 256) (cg_lo g) (cg_mem g)
  else if cg_index g =? 15 then mkCga (cg_index g) (cg_hi g) (v mod 256) (cg_mem g)
  else g).
Definition crt_in : M cga Z := gets (fun g => if cg_index g =? 14 then cg_hi g else if cg_index g =? 15 then cg_lo g else 0).

(** [crt[pos] = v] *)
Definition crt_put (pos v : Z) : M cga unit := fun g =>
  if (0 <=? pos) && (pos <? Z.of_nat (length (cg_mem g)))
  then Ret tt (mkCga (cg_index g) (cg_hi g) (cg_lo g) (<[Z.to_nat pos:=v]> (cg_mem g)))
  else Fault g.

(** [memmove(crt, crt+80, sizeof(crt[0])*23*80); pos -= 80;
    memset(crt+pos, 0, sizeof(crt[0])*(24*80 - pos))], for the new [pos] *)
Definition crt_scroll (pos : Z) : M cga unit := fun g =>
  let m := cg_mem g in
  if (24 * 80 <=? Z.of_nat (length m)) && (0 <=? pos) && (pos <=? 24 * 80) then
    let m1 := take (Z.to_nat (23 * 80)) (drop 80 m) ++ drop (Z.to_nat (23 * 80)) m in
    let m2 := take (Z.to_nat pos) m1 ++ replicate (Z.to_nat (24 * 80 - pos)) 0 ++ drop (Z.to_nat (24 * 80)) m1 in
    Ret tt (mkCga (cg_index g) (cg_hi g) (cg_lo g) m2)
  else Fault g.

(** The cursor position: col + 80*row. *)
Definition crt_getpos : M cga Z :=
  crt_select 14 ;;;
  let! hi := crt_in in
  crt_select 15 ;;;
  let! lo := crt_in in
  ret (Z.lor (Z.shiftl hi 8) lo).

Definition crt_setpos (pos : Z) : M cga unit :=
  crt_select 14 ;;;
  crt_out (Z.shiftr pos 8) ;;;
  crt_select 15 ;;;
  crt_out pos.

(** The character itself: the next position *)
Definition crt_char (c pos : Z) : M cga Z :=
  if c =? NL then ret (pos + (80 - pos mod 80))
  else if c =? BACKSPACE then ret (if 0 <? pos then pos - 1 else pos)
  else crt_put pos (Z.lor (Z.land c 0xff) 0x0700) ;;; ret (pos + 1).

Definition cgaputc (c : Z) : M cga unit :=
  let! pos := crt_getpos in
  let! pos := crt_char c pos in
  if (pos <? 0) || (25 * 80 <? pos) then panic "pos under/overflow"
  else
    let! pos :=
      (if 24 <=? pos / 80 then crt_scroll (pos - 80) ;;; ret (pos - 80)
       else ret pos) in
    crt_setpos pos ;;;
    crt_put pos (Z.lor 32 0x0700).

(** ** Output *)

(** The wait for the transmitter, at most 128 rounds of polling, changes no state. *)
Definition uartputc (c : Z) : M cst unit := modify (fun s => if cs_uart s then set_cs_serial (cs_serial s ++ [c mod 256]) s else s).

Definition consputc (c : Z) : M cst unit :=
  let! p := gets cs_panicked in
  if (p : bool) then nofuel
  else
    (if c =? BACKSPACE then uartputc 8 ;;; uartputc 32 ;;; uartputc 8 else uartputc c) ;;;
    lift cs_cga set_cs_cga (cgaputc c).

(** "0123456789abcdef" *)
Definition kdigits : list Z := [48; 49; 50; 51; 52; 53; 54; 55; 56; 57; 97; 98; 99; 100; 101; 102].

Definition kprintint (xx base : Z) (sign : bool) : M cst unit :=
  let sign := sign && (xx <? 0) in
  let x := if sign then u32 (- xx) else u32 xx in
  let! a := loop 33 (digits_step kdigits base) (0%nat, x, replicate 16 0) in
  let! r := put_sign sign a in
  let '(i, buf) := r in
  put_back consputc i buf.

Section cprintf.
Context (str_at : Z -> option (list Z)).

Fixpoint cputs (l : list Z) : M cst unit :=
  match l with
  | [] => skip
  | c :: l' => consputc c ;;; cputs l'
  end.

(** One directive, [c] after the '%': the arguments that are left *)
Definition cprintf_arg (c : Z) (argp : list Z) : M cst (list Z) :=
  if c =? 100 (* 'd' *) then
    match argp with x :: argp' => kprintint (i32 x) 10 true ;;; ret argp' | [] => fault end
  else if (c =? 120) || (c =? 112) (* 'x', 'p' *) then
    match argp with x :: argp' => kprintint (i32 x) 16 false ;;; ret argp' | [] => fault end
  else if c =? 115 (* 's' *) then
    match argp with
    | p :: argp' => match (if p =? 0 then Some null_str else str_at p) with
                    | Some l => cputs l ;;; ret argp'
                    | None => fault
                    end
    | [] => fault
    end
  else if c =? PERCENT then consputc PERCENT ;;; ret argp
  else consputc PERCENT ;;; consputc c ;;; ret argp.

Fixpoint cprintf_loop (fmt argp : list Z) : M cst unit :=
  match fmt with
  | [] => skip
  | c :: fmt' =>
      if negb (c mod 256 =? PERCENT) then consputc (c mod 256) ;;; cprintf_loop fmt' argp
      else match fmt' with
           | [] => skip
           | d :: fmt'' => let! argp' := cprintf_arg (d mod 256) argp in
                           cprintf_loop fmt'' argp'
           end
  end.

(** [None] is the null format. *)
Definition cprintf (fmt : option (list Z)) (argp : list Z) : M cst unit :=
  let! locking := gets cs_locking in
  when locking cons_acquire ;;;
  match fmt with
  | None => panic "null fmt"
  | Some fmt =>
      cprintf_loop fmt argp ;;;
      when locking cons_release
  end.

(** panic(s): what it prints; it does not return.  [lapicid] and [pcs] are the processor's id and
    the return addresses getcallerpcs finds. *)
Definition kpanic (lapicid : Z) (pcs msg : list Z) : M cst unit :=
  modify (set_cs_locking false) ;;;
  cprintf (Some ([108; 97; 112; 105; 99; 105; 100; 32; 37; 100; 58; 32] ++ [112; 97; 110; 105; 99; 58; 32])) [lapicid] ;;;
  cprintf (Some msg) [] ;;;
  cprintf (Some [NL]) [] ;;;
  for_each 10 0 (fun i => match pcs !! i with Some pc => cprintf (Some [32; 37; 112]) [pc] | None => fault end) ;;;
  modify (set_cs_panicked true) ;;;
  nofuel.

End cprintf.

(** ** Input *)

Definition inget : M cst input := gets cs_input.
Definition inset (i : input) : M cst unit := modify (set_cs_input i).

(** [input.buf[i % INPUT_BUF]] *)
Definition in_at (i : Z) : M cst Z := fun s =>
  match in_buf (cs_input s) !! Z.to_nat (u32 i mod INPUT_BUF) with Some c => Ret c s | None => Fault s end.

(** One round of the loop that kills the line. *)
Definition kill_step (_ : unit) : M cst (unit + unit) :=
  let! i := inget in
  if in_e i =? in_w i then ret (inr tt)
  else
    let! c := in_at (in_e i - 1) in
    if c =? NL then ret (inr tt)
    else
      inset (mkInput (in_buf i) (in_r i) (in_w i) (u32 (in_e i - 1))) ;;;
      consputc BACKSPACE ;;;
      ret (inl tt).

(** The line holds at most INPUT_BUF characters. *)
Definition kill_line : M cst unit := loop (S (Z.to_nat INPUT_BUF)) kill_step tt.

Definition erase_char : M cst unit :=
  let! i := inget in
  when (negb (in_e i =? in_w i))
    (inset (mkInput (in_buf i) (in_r i) (in_w i) (u32 (in_e i - 1))) ;;;
     consputc BACKSPACE).

(** The default case: [c] is stored and echoed, and the line is handed over when it ends.  The devices' getc
    yields bytes, which the char array holds as they are. *)
Definition enter_char (c : Z) : M cst unit :=
  let! i := inget in
  when (negb (c =? 0) && (u32 (in_e i - in_r i) <? INPUT_BUF))
    (let c := if c =? CR then NL else c in
     let k := Z.to_nat (in_e i mod INPUT_BUF) in
     if (k <? length (in_buf i))%nat then
       inset (mkInput (<[k:=c]> (in_buf i)) (in_r i) (in_w i) (u32 (in_e i + 1))) ;;;
       consputc c ;;;
       let! i := inget in
       when ((c =? NL) || (c =? Ctl 68) || (in_e i =? u32 (in_r i + INPUT_BUF)))
         (inset (mkInput (in_buf i) (in_r i) (in_e i) (in_e i)) ;;;
          modify wakeup_input)
     else fault).

(** One key: whether a process listing was asked for. *)
Definition cons_key (c : Z) : M cst bool :=
  if c =? Ctl 80 then ret true
  else if c =? Ctl 85 then kill_line ;;; ret false
  else if (c =? Ctl 72) || (c =? 127) then erase_char ;;; ret false
  else enter_char c ;;; ret false.

(** [while((c = getc()) >= 0)], where [keys] is what getc returns *)
Fixpoint cons_keys (keys : list Z) (doprocdump : bool) : M cst bool :=
  match keys with
  | [] => ret doprocdump
  | c :: keys' =>
      if c <? 0 then ret doprocdump
      else let! d := cons_key c in cons_keys keys' (doprocdump || d)
  end.

Definition consoleintr (keys : list Z) : M cst unit :=
  cons_acquire ;;;
  let! doprocdump := cons_keys keys false in
  cons_release ;;;
  when doprocdump (modify procdump_call).

Section consoleread.
Context (iunlock ilock : M cst unit).

(** [while(input.r == input.w)]: false when the process was killed *)
Fixpoint wait_input (fuel : nat) : prog cst bool :=
  match fuel with
  | O => act nofuel
  | S fuel' =>
      do! i := act inget in
      if in_r i =? in_w i then
        do! killed := act (gets cs_killed) in
        if (killed : bool) then PRet false
        else
          act cons_release ;;?
          swtch ;;?
          act cons_acquire ;;?
          wait_input fuel'
      else PRet true
  end.

(** The outer loop with [n] characters to go, of which the caller has [l]; [None] when it was
    killed. *)
Fixpoint read_chars (fuel n : nat) (l : list Z) : prog cst (option (list Z)) :=
  match n with
  | O => PRet (Some l)
  | S n' =>
      do! ok := wait_input fuel in
      if negb ok then PRet None
      else
        do! i := act inget in
        do! c := act (in_at (in_r i)) in
        act (inset (mkInput (in_buf i) (u32 (in_r i + 1)) (in_w i) (in_e i))) ;;?
        if c =? Ctl 68 then
          (if (0 <? length l)%nat then act (inset (mkInput (in_buf i) (in_r i) (in_w i) (in_e i))) else PRet tt) ;;?
          PRet (Some l)
        else if c =? NL then PRet (Some (l ++ [c]))
        else read_chars fuel n' (l ++ [c])
  end.

(** The bytes stored at [dst], whose number is returned, or [None] for -1 *)
Definition consoleread (fuel n : nat) : prog cst (option (list Z)) :=
  act iunlock ;;?
  act cons_acquire ;;?
  do! r := read_chars fuel n [] in
  act cons_release ;;?
  act ilock ;;?
  PRet r.

Definition consolewrite (buf : list Z) : M cst Z :=
  iunlock ;;;
  cons_acquire ;;;
  cputs (map (fun c => c mod 256) buf) ;;;
  cons_release ;;;
  ilock ;;;
  ret (Z.of_nat (length buf)).

End consoleread.
