(* ===== verification/ConsoleThms.v ===== *)
(** * Theorems on the console

    The screen: cgaputc keeps the cursor on its 24 lines and writes inside the text memory.  The
    line discipline: consoleintr implements, with a ring of 128 characters and three counters, a
    queue of characters that were handed over and a line that is being edited. *)
From Stdlib Require Import ZArith Lia.
From stdpp Require Import base list numbers strings.
From S2P Require Import Prelude Resume Ring Ulib Printf Console.
Import Prelude.
Local Open Scope Z_scope.

(** ** The screen *)

Definition cursor (g : cga) : Z := cg_hi g * 256 + cg_lo g.

Record screen_ok (g : cga) : Prop := {
  so_hi : 0 <= cg_hi g < 256;
  so_lo : 0 <= cg_lo g < 256;
  so_cursor : cursor g < 24 * 80;
  so_mem : length (cg_mem g) = Z.to_nat (25 * 80) }.

(** The position after a character, before scrolling. *)
Definition advance (c pos : Z) : Z :=
  if c =? NL then (pos / 80 + 1) * 80 else if c =? BACKSPACE then Z.max 0 (pos - 1) else pos + 1.

Definition cell (c : Z) : Z := Z.lor (Z.land c 0xff) 0x0700.

Definition drawn (c pos : Z) (m : list Z) : list Z :=
  if (c =? NL) || (c =? BACKSPACE) then m else <[Z.to_nat pos:=cell c]> m.

(** The 24 lines moved up by one, with the last of them blank. *)
Definition scrolled (m : list Z) : list Z :=
  take (Z.to_nat (23 * 80)) (drop 80 m) ++ replicate 80 0 ++ drop (Z.to_nat (24 * 80)) m.

Definition shown (c : Z) (g : cga) : Z * list Z :=
  let pos := advance c (cursor g) in
  let m := drawn c (cursor g) (cg_mem g) in
  let '(pos', m') := if 24 * 80 <=? pos then (pos - 80, scrolled m) else (pos, m) in
  (pos', <[Z.to_nat pos':=cell 32]> m').

Lemma scrolled_length m : length m = Z.to_nat (25 * 80) -> length (scrolled m) = Z.to_nat (25 * 80).
Proof.
  intros Hm. unfold scrolled. rewrite !length_app, length_take, !length_drop, length_replicate, Hm. lia.
Qed.

Lemma crt_getpos_run g : screen_ok g -> crt_getpos g = Ret (cursor g) (mkCga 15 (cg_hi g) (cg_lo g) (cg_mem g)).
Proof.
  intros [Hh Hl _ _]. unfold crt_getpos, bind, crt_select, crt_in, modify, gets, ret. simpl. f_equal. unfold cursor.
  rewrite (lor_disjoint_add _ _ 8); [by rewrite Z.shiftl_mul_pow2|lia| |lia]. rewrite Z.shiftl_mul_pow2 by lia. apply Z.mod_mul. lia.
Qed.

Lemma crt_setpos_run g pos : 0 <= pos < 2 ^ 16 -> crt_setpos pos g = Ret tt (mkCga 15 (pos / 256) (pos mod 256) (cg_mem g)).
Proof.
  intros Hp. unfold crt_setpos, bind, crt_select, crt_out, modify. simpl. f_equal. f_equal.
  rewrite Z.shiftr_div_pow2 by lia. apply Z.mod_small. split; [apply Z.div_pos; lia|apply Z.div_lt_upper_bound; lia].
Qed.

Lemma crt_put_run g pos v : 0 <= pos < Z.of_nat (length (cg_mem g)) ->
  crt_put pos v g = Ret tt (mkCga (cg_index g) (cg_hi g) (cg_lo g) (<[Z.to_nat pos:=v]> (cg_mem g))).
Proof.
  intros Hp. unfold crt_put. destruct (Z.leb_spec 0 pos); [|lia]. destruct (Z.ltb_spec pos (Z.of_nat (length (cg_mem g)))); [done|lia].
Qed.

Lemma advance_range c pos : 0 <= pos < 24 * 80 -> 0 <= advance c pos <= 24 * 80.
Proof.
  intros H. unfold advance. destruct (c =? NL); [|destruct (c =? BACKSPACE); lia].
  pose proof (Z.div_mod pos 80 ltac:(lia)). pose proof (Z.mod_pos_bound pos 80 ltac:(lia)). lia.
Qed.

Lemma crt_char_run c g pos : length (cg_mem g) = Z.to_nat (25 * 80) -> 0 <= pos < 24 * 80 ->
  crt_char c pos g = Ret (advance c pos) (mkCga (cg_index g) (cg_hi g) (cg_lo g) (drawn c pos (cg_mem g))).
Proof.
  intros Hm Hp. unfold crt_char, advance, drawn. destruct (c =? NL); simpl; [|destruct (c =? BACKSPACE); simpl].
  - unfold ret. f_equal; [|by destruct g]. pose proof (Z.div_mod pos 80 ltac:(lia)). lia.
  - unfold ret. f_equal; [destruct (Z.ltb_spec 0 pos); lia|by destruct g].
  - unfold bind. rewrite crt_put_run by (rewrite Hm; lia). done.
Qed.

Lemma crt_scroll_run g : length (cg_mem g) = Z.to_nat (25 * 80) ->
  crt_scroll (23 * 80) g = Ret tt (mkCga (cg_index g) (cg_hi g) (cg_lo g) (scrolled (cg_mem g))).
Proof.
  intros Hm. unfold crt_scroll. rewrite Hm. cbn -[Z.to_nat take drop replicate app]. f_equal. f_equal. unfold scrolled.
  set (a := take _ (drop 80 (cg_mem g))).
  assert (length a = Z.to_nat (23 * 80)) as Ha by (unfold a; rewrite length_take, length_drop, Hm; lia).
  rewrite take_app_le, take_ge by (rewrite Ha; lia). f_equal. f_equal. rewrite drop_app_ge by (rewrite Ha; lia).
  rewrite Ha, drop_drop. f_equal.
Qed.

Lemma cgaputc_run c g : screen_ok g ->
  exists g', cgaputc c g = Ret tt g' /\ screen_ok g' /\ (cursor g', cg_mem g') = shown c g.
Proof.
  intros Hok. unfold cgaputc. unfold bind at 1. rewrite (crt_getpos_run g Hok). destruct Hok as [Hh Hl Hc Hm].
  assert (0 <= cursor g) as H0 by (unfold cursor; lia). unfold bind at 1. rewrite crt_char_run by (done || lia). cbn [cg_index cg_hi cg_lo cg_mem].
  pose proof (advance_range c (cursor g) ltac:(lia)) as Ha. unfold shown.
  assert (length (drawn c (cursor g) (cg_mem g)) = Z.to_nat (25 * 80)) as Hd
    by (unfold drawn; destruct (_ || _); rewrite ?length_insert; done).
  set (pos := advance c (cursor g)) in *. set (m := drawn c (cursor g) (cg_mem g)) in *.
  destruct (Z.ltb_spec pos 0); [lia|]. destruct (Z.ltb_spec (25 * 80) pos); [lia|]. cbn [orb].
  assert (exists pos' m', (if 24 * 80 <=? pos then (pos - 80, scrolled m) else (pos, m)) = (pos', m') /\
    (if 24 <=? pos / 80 then crt_scroll (pos - 80) ;;; ret (pos - 80) else ret pos) (mkCga 15 (cg_hi g) (cg_lo g) m) =
      Ret pos' (mkCga 15 (cg_hi g) (cg_lo g) m') /\ 0 <= pos' < 24 * 80 /\ length m' = Z.to_nat (25 * 80)) as (pos' & m' & -> & E & Hp' & Hm').
  { destruct (Z.leb_spec (24 * 80) pos) as [Hs|Hs].
    - assert (pos = 24 * 80) as -> by lia. exists (23 * 80), (scrolled m). split; [done|]. split; [|split; [lia|by apply scrolled_length]].
      unfold bind. change (24 <=? 24 * 80 / 80) with true. change (24 * 80 - 80) with (23 * 80). cbv iota beta. rewrite crt_scroll_run by done. done.
    - exists pos, m. split; [done|]. destruct (Z.leb_spec 24 (pos / 80)) as [Hd2|Hd2]; [|done].
      exfalso. pose proof (Z.div_lt_upper_bound pos 80 24). lia. }
  unfold bind at 1. rewrite E. unfold bind. rewrite crt_setpos_run by lia. rewrite crt_put_run by (simpl; lia).
  eexists. split; [done|]. simpl. change (Z.lor 32 0x0700) with (cell 32).
  assert (cursor (mkCga 15 (pos' / 256) (pos' mod 256) (<[Z.to_nat pos':=cell 32]> m')) = pos') as Hcur
    by (unfold cursor; simpl; pose proof (Z.div_mod pos' 256 ltac:(lia)); lia).
  split; [|by rewrite Hcur]. split; [|apply Z.mod_pos_bound; lia|rewrite Hcur; lia|simpl; by rewrite length_insert].
  simpl. split; [apply Z.div_pos; lia|apply Z.div_lt_upper_bound; lia].
Qed.

(** C27: the screen.  From a cursor on one of the 24 lines, cgaputc of any character returns without
    panic and without touching memory outside the screen; it draws the character at the cursor and
    moves it on (to the next line for a newline, back for a backspace), scrolls the lines up by one
    when the cursor leaves the last of them, and leaves a blank under the cursor, which is again on
    one of the 24 lines. *)
Theorem cgaputc_shows c g : screen_ok g ->
  exists g', cgaputc c g = Ret tt g' /\ screen_ok g' /\ (cursor g', cg_mem g') = shown c g.
Proof. apply cgaputc_run. Qed.

Definition cdemo : cga := mkCga 0 7 127 (replicate (Z.to_nat (25 * 80)) (cell 65)).

Lemma cgaputc_shows_witness :
  exists g', cgaputc 66 cdemo = Ret tt g' /\ screen_ok g' /\ (cursor g', cg_mem g') = shown 66 cdemo.
Proof. apply (cgaputc_shows 66 cdemo). split; vm_compute; try done; by split. Defined.

(** ** The line discipline *)

Lemma input_pos : 0 < INPUT_BUF.
Proof. done. Qed.
Lemma input_div : (INPUT_BUF | 2 ^ 32).
Proof. by exists (2 ^ 25). Qed.

(** The characters handed over to readers, and the line being edited. *)
Definition entered (i : input) : Z := u32 (in_w i - in_r i).
Definition edited (i : input) : Z := u32 (in_e i - in_w i).
Definition committed (i : input) : list Z := ring INPUT_BUF (in_buf i) (in_r i) (Z.to_nat (entered i)).
Definition editing (i : input) : list Z := ring INPUT_BUF (in_buf i) (in_w i) (Z.to_nat (edited i)).

Record input_ok (i : input) : Prop := {
  io_buf : length (in_buf i) = Z.to_nat INPUT_BUF;
  io_r : 0 <= in_r i < 2 ^ 32;
  io_w : 0 <= in_w i < 2 ^ 32;
  io_e : 0 <= in_e i < 2 ^ 32;
  io_room : entered i + edited i <= INPUT_BUF;
  io_line : Forall (fun c => c <> NL) (editing i) }.

Lemma entered_nonneg i : 0 <= entered i.
Proof. unfold entered. pose proof (u32_range (in_w i - in_r i)). lia. Qed.
Lemma edited_nonneg i : 0 <= edited i.
Proof. unfold edited. pose proof (u32_range (in_e i - in_w i)). lia. Qed.
#[local] Hint Resolve entered_nonneg edited_nonneg : core.

Lemma length_committed i : Z.of_nat (length (committed i)) = entered i.
Proof. unfold committed. rewrite length_ring. pose proof (entered_nonneg i). lia. Qed.
Lemma length_editing i : Z.of_nat (length (editing i)) = edited i.
Proof. unfold editing. rewrite length_ring. pose proof (edited_nonneg i). lia. Qed.

Lemma input_count i : entered i + edited i <= INPUT_BUF -> u32 (in_e i - in_r i) = entered i + edited i.
Proof.
  intros H. pose proof (entered_nonneg i). pose proof (edited_nonneg i). unfold INPUT_BUF in *.
  rewrite <- (u32_small (entered i + edited i)) by lia. unfold entered, edited, u32. rewrite <- Zplus_mod. f_equal. lia.
Qed.

Lemma input_w i : input_ok i -> in_w i = u32 (in_r i + entered i).
Proof. intros H. unfold entered. by rewrite u32_add_sub by apply H. Qed.
Lemma input_e i : input_ok i -> in_e i = u32 (in_w i + edited i).
Proof. intros H. unfold edited. by rewrite u32_add_sub by apply H. Qed.

Lemma input_empty i : input_ok i -> (in_e i =? in_w i) = (edited i =? 0).
Proof.
  intros H. pose proof (input_e i H) as E. pose proof (io_w i H). destruct (Z.eqb_spec (in_e i) (in_w i)) as [E'|E'];
    destruct (Z.eqb_spec (edited i) 0) as [F|F]; try done.
  - exfalso. apply F. unfold edited. by rewrite E', Z.sub_diag.
  - exfalso. apply E'. by rewrite E, F, Z.add_0_r, u32_small.
Qed.

Lemma input_full i : 0 <= in_e i < 2 ^ 32 -> entered i + edited i <= INPUT_BUF -> (in_e i =? u32 (in_r i + INPUT_BUF)) = (entered i + edited i =? INPUT_BUF).
Proof.
  intros He H. pose proof (input_count i H) as E.
  destruct (Z.eqb_spec (in_e i) (u32 (in_r i + INPUT_BUF))) as [E'|E']; destruct (Z.eqb_spec (entered i + edited i) INPUT_BUF) as [F|F]; try done.
  - exfalso. apply F. by rewrite <- E, E', u32_sub_add.
  - exfalso. apply E'. rewrite <- F, <- E. by rewrite u32_add_sub.
Qed.

(** The elementary changes of the input buffer. *)
Definition erased (i : input) : input := mkInput (in_buf i) (in_r i) (in_w i) (u32 (in_e i - 1)).
Definition typed (c : Z) (i : input) : input := mkInput (<[slot INPUT_BUF (in_e i):=c]> (in_buf i)) (in_r i) (in_w i) (u32 (in_e i + 1)).
Definition handed (i : input) : input := mkInput (in_buf i) (in_r i) (in_e i) (in_e i).

Lemma erased_edited i : 0 < edited i -> edited (erased i) = edited i - 1.
Proof. intros H. unfold edited in *. simpl. by apply u32_pred_sub. Qed.

Lemma erased_editing i : 0 < edited i -> editing (erased i) = removelast (editing i) /\ exists c, editing i = editing (erased i) ++ [c] /\
  c = nth (slot INPUT_BUF (in_w i + (edited i - 1))) (in_buf i) 0.
Proof.
  intros H. unfold editing. rewrite erased_edited by done. simpl.
  replace (Z.to_nat (edited i)) with (S (Z.to_nat (edited i - 1))) by lia. rewrite ring_snoc, removelast_last. split; [done|].
  eexists. split; [done|]. by rewrite Z2Nat.id by lia.
Qed.

Lemma erased_ok i : input_ok i -> 0 < edited i -> input_ok (erased i).
Proof.
  intros H Hd. destruct (erased_editing i Hd) as [_ (c & E & _)]. pose proof (erased_edited i Hd) as Ee. destruct H as [H1 H2 H3 H4 H5 H6].
  constructor; simpl; try done; [in_word| |].
  - rewrite Ee. change (entered (erased i)) with (entered i). lia.
  - rewrite E in H6. by apply Forall_app in H6 as [? _].
Qed.

Lemma slot_e i : input_ok i -> slot INPUT_BUF (in_e i) = slot INPUT_BUF (in_w i + edited i) /\ slot INPUT_BUF (in_e i) = slot INPUT_BUF (in_r i + (entered i + edited i)).
Proof.
  intros H. pose proof (slot_u32 INPUT_BUF input_pos input_div) as Hs. split.
  - rewrite (input_e i H). rewrite <- (Z.add_0_r (u32 _)), Hs, Z.add_0_r. done.
  - rewrite (input_e i H), (input_w i H) at 1. rewrite <- (Z.add_0_r (u32 (_ + edited i))), Hs, Z.add_0_r, Hs. f_equal. lia.
Qed.

Lemma typed_edited c i : input_ok i -> entered i + edited i < INPUT_BUF -> edited (typed c i) = edited i + 1.
Proof. intros H Hlt. unfold edited in *. simpl. apply u32_succ_sub. pose proof (entered_nonneg i). unfold INPUT_BUF in *. lia. Qed.

Lemma typed_editing c i : input_ok i -> entered i + edited i < INPUT_BUF -> editing (typed c i) = editing i ++ [c].
Proof.
  intros H Hlt. pose proof (entered_nonneg i). pose proof (edited_nonneg i). unfold editing. rewrite typed_edited by done.
  replace (Z.to_nat (edited i + 1)) with (S (Z.to_nat (edited i))) by lia. simpl.
  rewrite <- (ring_store INPUT_BUF input_pos _ _ _ c (io_buf i H)) by lia. rewrite Z2Nat.id by lia. by rewrite (proj1 (slot_e i H)).
Qed.

Lemma typed_committed c i : input_ok i -> entered i + edited i < INPUT_BUF -> committed (typed c i) = committed i.
Proof.
  intros H Hlt. pose proof (entered_nonneg i). pose proof (edited_nonneg i). unfold committed. change (entered (typed c i)) with (entered i). simpl.
  rewrite (proj2 (slot_e i H)). apply (ring_store_out INPUT_BUF input_pos). lia.
Qed.

Lemma typed_ok c i : input_ok i -> entered i + edited i < INPUT_BUF -> c <> NL -> input_ok (typed c i).
Proof.
  intros H Hlt Hc. pose proof (typed_edited c i H Hlt) as E1. pose proof (typed_editing c i H Hlt) as E2. destruct H as [H1 H2 H3 H4 H5 H6].
  constructor; simpl; try done; [by rewrite length_insert|in_word| |].
  - change (entered (typed c i)) with (entered i). lia.
  - rewrite E2. apply Forall_app. split; [done|by constructor].
Qed.

(** Handing the line over: all but the condition on newlines is needed. *)
Lemma handed_view i : length (in_buf i) = Z.to_nat INPUT_BUF -> 0 <= in_r i < 2 ^ 32 -> 0 <= in_w i < 2 ^ 32 -> 0 <= in_e i < 2 ^ 32 ->
  entered i + edited i <= INPUT_BUF ->
  input_ok (handed i) /\ committed (handed i) = committed i ++ editing i /\ editing (handed i) = [].
Proof.
  intros H1 H2 H3 H4 H5. pose proof (entered_nonneg i). pose proof (edited_nonneg i). pose proof (input_count i H5) as E1.
  assert (edited (handed i) = 0) as E0 by (unfold edited; simpl; by rewrite Z.sub_diag).
  assert (entered (handed i) = entered i + edited i) as E2 by exact E1.
  assert (editing (handed i) = []) as E3 by (unfold editing; by rewrite E0).
  split; [|split; [|done]].
  - constructor; try done; [lia|by rewrite E3].
  - unfold committed, editing. rewrite E2, Z2Nat.inj_add by lia. simpl. rewrite ring_app. f_equal. rewrite Z2Nat.id by lia.
    assert (in_w i = u32 (in_r i + entered i)) as -> by (unfold entered; by rewrite u32_add_sub). by rewrite (ring_u32 INPUT_BUF input_pos input_div).
Qed.

(** ** Keys *)

(** What a key does to the queue, the line and the number of wakeups. *)
Definition key_line (c : Z) (v : list Z * list Z * nat) : list Z * list Z * nat :=
  let '(q, line, n) := v in
  if c =? Ctl 80 then v
  else if c =? Ctl 85 then (q, [], n)
  else if (c =? Ctl 72) || (c =? 127) then (q, removelast line, n)
  else if negb (c =? 0) && (Z.of_nat (length q + length line) <? INPUT_BUF) then
    let c := if c =? CR then NL else c in
    let line := line ++ [c] in
    if (c =? NL) || (c =? Ctl 68) || (Z.of_nat (length q + length line) =? INPUT_BUF)
    then (q ++ line, [], S n) else (q, line, n)
  else v.

Definition view (s : cst) : list Z * list Z * nat := (committed (cs_input s), editing (cs_input s), cs_woken s).

Record cons_ok (s : cst) : Prop := {
  co_panicked : cs_panicked s = false;
  co_screen : screen_ok (cs_cga s);
  co_input : input_ok (cs_input s) }.

(** What output leaves alone. *)
Definition quiet (s s' : cst) : Prop :=
  cs_lock s' = cs_lock s /\ cs_panicked s' = cs_panicked s /\ cs_input s' = cs_input s /\ cs_woken s' = cs_woken s /\ cs_dumps s' = cs_dumps s.

Lemma consputc_run c s : cs_panicked s = false -> screen_ok (cs_cga s) ->
  exists s', consputc c s = Ret tt s' /\ quiet s s' /\ screen_ok (cs_cga s').
Proof.
  intros Hp Hs. unfold consputc, bind at 1, gets. rewrite Hp.
  assert (exists s1, (if c =? BACKSPACE then uartputc 8 ;;; uartputc 32 ;;; uartputc 8 else uartputc c) s = Ret tt s1 /\ quiet s s1 /\ cs_cga s1 = cs_cga s) as (s1 & E & Hq & Hc).
  { unfold uartputc, bind, modify, quiet. destruct (c =? BACKSPACE); eexists; (split; [done|]); destruct (cs_uart s) eqn:Eu; simpl; rewrite ?Eu; simpl; rewrite ?Eu; simpl; auto 10. }
  unfold bind at 1. rewrite E. unfold lift. rewrite Hc. destruct (cgaputc_run c (cs_cga s) Hs) as (g' & -> & Hok & _).
  eexists. split; [done|]. split; [|done]. done.
Qed.

Definition kept (s s' : cst) : Prop := cs_lock s' = cs_lock s /\ cs_dumps s' = cs_dumps s.

Lemma erase_one s : cons_ok s -> 0 < edited (cs_input s) ->
  exists s', (inset (erased (cs_input s)) ;;; consputc BACKSPACE) s = Ret tt s' /\ cons_ok s' /\ kept s s' /\
    cs_input s' = erased (cs_input s) /\ cs_woken s' = cs_woken s.
Proof.
  intros [Hp Hs Hi] He. unfold bind, inset, modify. destruct (consputc_run BACKSPACE (set_cs_input (erased (cs_input s)) s)) as (s' & E & (Q1 & Q2 & Q3 & Q4 & Q5) & Hs'); [done..|].
  rewrite E. exists s'. split; [done|]. simpl in *. split; [|split; [done|split; [done|done]]].
  split; [by rewrite Q2|done|]. rewrite Q3. by apply erased_ok.
Qed.

Lemma last_char s : input_ok (cs_input s) -> 0 < edited (cs_input s) ->
  exists c, in_at (in_e (cs_input s) - 1) s = Ret c s /\ c <> NL.
Proof.
  intros Hi He. destruct (erased_editing (cs_input s) He) as [_ (c & E & Ec)]. exists c. split.
  - unfold in_at. change (Z.to_nat (u32 (in_e (cs_input s) - 1) mod INPUT_BUF)) with (slot INPUT_BUF (u32 (in_e (cs_input s) - 1))).
    rewrite (ring_lookup INPUT_BUF input_pos _ _ (io_buf _ Hi)). f_equal. rewrite Ec. f_equal.
    rewrite (input_e _ Hi). pose proof (slot_u32 INPUT_BUF input_pos input_div) as Hsl.
    rewrite <- (Z.add_0_r (u32 (_ - 1))), Hsl, Z.add_0_r. unfold Z.sub at 1. rewrite Hsl. f_equal. lia.
  - pose proof (io_line _ Hi) as Hl. rewrite E in Hl. apply Forall_app in Hl as [_ Hl]. by inversion_clear Hl.
Qed.

Lemma kill_loop fuel : forall s, cons_ok s -> edited (cs_input s) < Z.of_nat fuel ->
  exists s', loop fuel kill_step tt s = Ret tt s' /\ cons_ok s' /\ kept s s' /\ view s' = (committed (cs_input s), [], cs_woken s).
Proof.
  induction fuel as [|fuel IH]; intros s Hok Hf; [pose proof (edited_nonneg (cs_input s)); lia|].
  cbn [loop]. unfold bind at 1, kill_step at 1, bind at 1, inget, gets. rewrite (input_empty _ (co_input s Hok)).
  destruct (Z.eqb_spec (edited (cs_input s)) 0) as [E|E].
  - exists s. split; [done|]. split; [done|]. split; [done|]. unfold view. f_equal. f_equal. unfold editing. by rewrite E.
  - pose proof (edited_nonneg (cs_input s)) as H0. destruct (last_char s (co_input s Hok) ltac:(lia)) as (c & Ec & Hc).
    unfold bind at 1. rewrite Ec. destruct (Z.eqb_spec c NL); [done|].
    destruct (erase_one s Hok ltac:(lia)) as (s1 & E1 & Hok1 & [K1 K2] & Hi1 & Hw1). unfold erased in E1.
    unfold bind in E1 |- *. destruct (inset _ s) as [[] s0|?|?|?]; [|done..]. rewrite E1.
    destruct (IH s1 Hok1) as (s2 & E2 & Hok2 & [K3 K4] & Hv); [rewrite Hi1, erased_edited by lia; lia|].
    simpl. rewrite E2. exists s2. split; [done|]. split; [done|]. split; [split; congruence|]. rewrite Hv, Hi1, Hw1. done.
Qed.

Lemma erase_char_ok s : cons_ok s ->
  exists s', erase_char s = Ret tt s' /\ cons_ok s' /\ kept s s' /\ view s' = (committed (cs_input s), removelast (editing (cs_input s)), cs_woken s).
Proof.
  intros Hok. unfold erase_char. unfold bind at 1, inget, gets. rewrite (input_empty _ (co_input s Hok)).
  pose proof (edited_nonneg (cs_input s)) as H0. destruct (Z.eqb_spec (edited (cs_input s)) 0) as [E|E]; cbn [negb when].
  - exists s. split; [done|]. split; [done|]. split; [done|]. unfold view. f_equal. f_equal. unfold editing. by rewrite E.
  - destruct (erase_one s Hok ltac:(lia)) as (s1 & E1 & Hok1 & K & Hi1 & Hw1). exists s1. split; [exact E1|]. split; [done|]. split; [done|].
    unfold view. rewrite Hi1, Hw1. destruct (erased_editing (cs_input s)) as [-> _]; [lia|]. done.
Qed.

(** The end of enter_char, with the character stored. *)
Lemma hand_over c s : cs_panicked s = false -> screen_ok (cs_cga s) -> input_ok (cs_input s) ->
  entered (cs_input s) + edited (cs_input s) < INPUT_BUF ->
  let i := typed c (cs_input s) in
  let ends := (c =? NL) || (c =? Ctl 68) || (Z.of_nat (length (committed (cs_input s)) + length (editing (cs_input s) ++ [c])) =? INPUT_BUF) in
  exists s', (inset i ;;; consputc c ;;; let! i := inget in
      when ((c =? NL) || (c =? Ctl 68) || (in_e i =? u32 (in_r i + INPUT_BUF))) (inset (handed i) ;;; modify wakeup_input)) s = Ret tt s' /\
    cons_ok s' /\ kept s s' /\
    view s' = if ends then (committed (cs_input s) ++ editing (cs_input s) ++ [c], [], S (cs_woken s))
              else (committed (cs_input s), editing (cs_input s) ++ [c], cs_woken s).
Proof.
  intros Hp Hs Hi Hlt i. unfold bind at 1, inset, modify. destruct (consputc_run c (set_cs_input i s)) as (s1 & E & (Q1 & Q2 & Q3 & Q4 & Q5) & Hs1); [done..|].
  unfold bind at 1. rewrite E. unfold bind at 1, inget, gets. simpl in Q1, Q2, Q3, Q4, Q5. rewrite Q3. cbv zeta.
  pose proof (typed_edited c _ Hi Hlt) as Ee. pose proof (typed_editing c _ Hi Hlt) as El. pose proof (typed_committed c _ Hi Hlt) as Ec. fold i in Ee, El, Ec.
  assert (entered i + edited i <= INPUT_BUF) as Hroom by (rewrite Ee; change (entered i) with (entered (cs_input s)); lia).
  assert (0 <= in_e i < 2 ^ 32) as He by apply u32_range.
  rewrite input_full by done. rewrite <- El, <- Ec, Nat2Z.inj_add, length_committed, length_editing.
  destruct ((c =? NL) || (c =? Ctl 68) || (entered i + edited i =? INPUT_BUF)) eqn:Eends; cbn [when].
  - eexists. split; [done|]. destruct (handed_view i) as (H1 & H2 & H3); [simpl; rewrite length_insert; apply Hi|apply Hi|apply Hi|done|done|].
    split; [split; simpl; [by rewrite Q2|done|done]|]. split; [done|]. unfold view. simpl. by rewrite H2, H3, Q4.
  - exists s1. split; [done|]. assert (c <> NL) as Hc by (intros ->; done).
    split; [split; [by rewrite Q2|done|rewrite Q3; by apply typed_ok]|]. split; [done|]. unfold view. by rewrite Q3, Q4.
Qed.

Lemma enter_char_ok c s : cons_ok s -> (c =? Ctl 80) = false -> (c =? Ctl 85) = false -> (c =? Ctl 72) || (c =? 127) = false ->
  exists s', enter_char c s = Ret tt s' /\ cons_ok s' /\ kept s s' /\ view s' = key_line c (view s).
Proof.
  intros Hok H1 H2 H3. unfold key_line, view at 2. rewrite H1, H2, H3. destruct Hok as [Hp Hs Hi].
  rewrite Nat2Z.inj_add, length_committed, length_editing. unfold enter_char. unfold bind at 1, inget, gets.
  rewrite (input_count _ (io_room _ Hi)). destruct (negb (c =? 0) && _) eqn:Ecase; cbn [when]; [|by exists s].
  apply andb_true_iff in Ecase as [_ Hlt%Z.ltb_lt]. set (c' := if c =? CR then NL else c).
  change (Z.to_nat (in_e (cs_input s) mod INPUT_BUF)) with (slot INPUT_BUF (in_e (cs_input s))).
  rewrite (proj2 (Nat.ltb_lt _ _)) by (rewrite (io_buf _ Hi); apply slot_lt, input_pos).
  destruct (hand_over c' s Hp Hs Hi Hlt) as (s' & E & Hok' & K & Hv). exists s'. split; [exact E|]. split; [done|]. split; [done|].
  rewrite Hv. done.
Qed.

Lemma cons_key_ok c s : cons_ok s ->
  exists s', cons_key c s = Ret (c =? Ctl 80) s' /\ cons_ok s' /\ kept s s' /\ view s' = key_line c (view s).
Proof.
  intros Hok. unfold cons_key, key_line, view at 2. destruct (c =? Ctl 80) eqn:E1; [by exists s|]. destruct (c =? Ctl 85) eqn:E2.
  - destruct (kill_loop (S (Z.to_nat INPUT_BUF)) s Hok) as (s' & E & ?).
    { pose proof (io_room _ (co_input s Hok)). pose proof (entered_nonneg (cs_input s)). unfold INPUT_BUF in *. lia. }
    exists s'. unfold bind, kill_line. by rewrite E.
  - destruct ((c =? Ctl 72) || (c =? 127)) eqn:E3.
    + destruct (erase_char_ok s Hok) as (s' & E & ?). exists s'. unfold bind. by rewrite E.
    + destruct (enter_char_ok c s Hok E1 E2 E3) as (s' & E & H1 & H2 & H3). exists s'. unfold bind. rewrite E.
      split; [done|]. split; [done|]. split; [done|]. rewrite H3. unfold key_line, view at 1. by rewrite E1, E2, E3.
Qed.

(** What getc yields before it fails. *)
Fixpoint available (keys : list Z) : list Z :=
  match keys with
  | [] => []
  | c :: keys' => if c <? 0 then [] else c :: available keys'
  end.

Lemma cons_keys_ok keys : forall b s, cons_ok s ->
  exists s', cons_keys keys b s = Ret (b || existsb (fun c => c =? Ctl 80) (available keys)) s' /\ cons_ok s' /\ kept s s' /\
    view s' = fold_left (fun v c => key_line c v) (available keys) (view s).
Proof.
  induction keys as [|c keys IH]; intros b s Hok; simpl; [exists s; rewrite orb_false_r; done|].
  destruct (c <? 0); [exists s; simpl; rewrite orb_false_r; done|].
  destruct (cons_key_ok c s Hok) as (s1 & E1 & Hok1 & [K1 K2] & Hv1). unfold bind. rewrite E1.
  destruct (IH (b || (c =? Ctl 80)) s1 Hok1) as (s2 & E2 & Hok2 & [K3 K4] & Hv2). exists s2. rewrite E2. simpl.
  split; [by rewrite orb_assoc|]. split; [done|]. split; [split; congruence|]. by rewrite Hv2, Hv1.
Qed.

(** C26: the line discipline.  consoleintr, given the keys of its device, implements the editing of
    lines: a character goes to the end of the line, a backspace takes the last one off, control-U
    takes all, and a newline (or carriage return), control-D or a full buffer hands the line over to
    the readers and wakes them.  It never fails, drops characters only when 128 are waiting, and
    lists the processes at most once, when control-P was among the keys. *)
Theorem consoleintr_edits keys s : cons_ok s -> cs_lock s = false ->
  wp (consoleintr keys) (fun _ s' => cons_ok s' /\ cs_lock s' = false /\
    view s' = fold_left (fun v c => key_line c v) (available keys) (view s) /\
    cs_dumps s' = if existsb (fun c => c =? Ctl 80) (available keys) then S (cs_dumps s) else cs_dumps s) s.
Proof.
  intros Hok Hl. unfold consoleintr. apply wp_bind. unfold cons_acquire. eapply wp_intro; [by rewrite Hl|].
  destruct (cons_keys_ok keys false (set_cs_lock true s)) as (s1 & E & Hok1 & [K1 K2] & Hv); [by destruct Hok|].
  apply wp_bind. eapply wp_intro; [exact E|]. simpl in *. apply wp_bind. unfold cons_release. eapply wp_intro; [by rewrite K1|].
  destruct (existsb _ _); cbn [when].
  - apply wp_modify. destruct Hok1. simpl. split; [by split|]. split; [done|]. split; [done|]. by rewrite K2.
  - apply wp_skip. destruct Hok1. simpl. split; [by split|]. split; [done|]. split; [done|]. by rewrite K2.
Qed.

Definition cons_boot : cst :=
  mkCst false true false true [] cdemo (mkInput (replicate 128 0) (2 ^ 32 - 3) (2 ^ 32 - 1) 0) false 0 0.

Lemma cons_boot_ok : cons_ok cons_boot.
Proof. split; [done|split; vm_compute; try done; by split|]. split; vm_compute; try done; try (by split). by repeat constructor. Qed.

(** "hx<backspace>i<enter>", with two characters unread and one in the line *)
Lemma consoleintr_edits_witness :
  wp (consoleintr [104; 120; 8; 105; 13; -1]) (fun _ s' => cons_ok s' /\ cs_lock s' = false /\
    view s' = ([0; 0; 0; 104; 105; 10], [], 1%nat) /\ cs_dumps s' = 0%nat) cons_boot.
Proof. exact (consoleintr_edits [104; 120; 8; 105; 13; -1] cons_boot cons_boot_ok eq_refl). Defined.

(** ** Reading *)

(** The line of at most [n] characters at the front of the queue, after [l]: what the reader gets
    and what stays in the queue; [None] when the queue ends first. *)
Fixpoint take_line (n : nat) (q l : list Z) : option (list Z * list Z) :=
  match n, q with
  | O, _ => Some (l, q)
  | S _, [] => None
  | S n', c :: q' =>
      if c =? Ctl 68 then Some (l, match l with [] => q' | _ => q end)
      else if c =? NL then Some (l ++ [c], q')
      else take_line n' q' (l ++ [c])
  end.

Definition taken (i : input) : input := mkInput (in_buf i) (u32 (in_r i + 1)) (in_w i) (in_e i).

Lemma taken_view i : input_ok i -> 0 < entered i ->
  input_ok (taken i) /\ committed i = nth (slot INPUT_BUF (in_r i)) (in_buf i) 0 :: committed (taken i) /\ editing (taken i) = editing i.
Proof.
  intros H Hd. assert (entered (taken i) = entered i - 1) as Et by (unfold entered in *; simpl; by apply u32_sub_succ).
  split; [|split; [|done]].
  - destruct H as [H1 H2 H3 H4 H5 H6]. split; try done; [apply u32_range|]. change (edited (taken i)) with (edited i). lia.
  - unfold committed. rewrite Et. simpl. rewrite (ring_u32 INPUT_BUF input_pos input_div).
    replace (Z.to_nat (entered i)) with (S (Z.to_nat (entered i - 1))) by lia. apply ring_cons.
Qed.

Lemma nothing_entered i : input_ok i -> (in_r i =? in_w i) = (entered i =? 0).
Proof.
  intros H. pose proof (input_w i H) as E. pose proof (io_r i H). destruct (Z.eqb_spec (in_r i) (in_w i)) as [E'|E'];
    destruct (Z.eqb_spec (entered i) 0) as [F|F]; try done.
  - exfalso. apply F. unfold entered. by rewrite E', Z.sub_diag.
  - exfalso. apply E'. by rewrite E, F, Z.add_0_r, u32_small.
Qed.

(** The console of a process that reads, up to its input. *)
Definition reading (s s' : cst) (q : list Z) : Prop :=
  cons_ok s' /\ cs_lock s' = cs_lock s /\ committed (cs_input s') = q /\ editing (cs_input s') = editing (cs_input s).

Lemma read_chars_ok fuel n : forall l s r q, cons_ok s -> take_line n (committed (cs_input s)) l = Some (r, q) ->
  exists s', run_until (read_chars (S fuel) n l) s = Ret (inl (Some r)) s' /\ reading s s' q.
Proof.
  induction n as [|n IH]; intros l s r q Hok Ht; [cbn in Ht; injection Ht as <- <-; by exists s|].
  pose proof (co_input s Hok) as Hi. destruct (committed (cs_input s)) as [|c0 q0] eqn:Eq; [done|].
  assert (0 < entered (cs_input s)) as Hd by (rewrite <- length_committed, Eq; simpl; lia).
  destruct (taken_view _ Hi Hd) as (Hi' & Ec & Ee). rewrite Eq in Ec. injection Ec as -> Eq'.
  cbn [read_chars wait_input run_until pbind act inget gets]. rewrite (nothing_entered _ Hi).
  destruct (Z.eqb_spec (entered (cs_input s)) 0); [lia|]. cbn [run_until pbind act negb inget gets].
  assert (in_at (in_r (cs_input s)) s = Ret (nth (slot INPUT_BUF (in_r (cs_input s))) (in_buf (cs_input s)) 0) s) as ->.
  { unfold in_at. rewrite (u32_small _ (io_r _ Hi)). change (Z.to_nat (in_r (cs_input s) mod INPUT_BUF)) with (slot INPUT_BUF (in_r (cs_input s))).
    by rewrite (ring_lookup INPUT_BUF input_pos _ _ (io_buf _ Hi)). }
  cbn [run_until pbind act inset modify]. set (c := nth _ _ _) in *. simpl in Ht.
  assert (forall q1, committed (cs_input (set_cs_input (taken (cs_input s)) s)) = q1 -> reading s (set_cs_input (taken (cs_input s)) s) q1) as Hr
    by (intros q1 <-; destruct Hok; split; [by split|done]).
  destruct (c =? Ctl 68).
  - destruct l as [|x l]; simpl in *; injection Ht as <- <-.
    + eexists. split; [done|]. apply Hr. done.
    + eexists. split; [done|]. destruct Hok. unfold reading. simpl. rewrite <- Eq. destruct (cs_input s). split; [by split|done].
  - destruct (c =? NL); [injection Ht as <- <-; eexists; split; [done|]; by apply Hr|].
    change (mkInput _ _ _ _) with (taken (cs_input s)). destruct (Hr _ eq_refl) as (Hok' & Hl' & _ & He').
    destruct (IH (l ++ [c]) (set_cs_input (taken (cs_input s)) s) r q Hok') as (s' & E & H1 & H2 & H3 & H4); [by rewrite <- Ht, Eq'|].
    exists s'. split; [exact E|]. split; [done|]. split; [congruence|]. split; congruence.
Qed.

Lemma take_line_length n : forall q l r q', take_line n q l = Some (r, q') -> (length r <= length l + n)%nat.
Proof.
  induction n as [|n IH]; intros [|c q] l r q' H; simpl in H; try (injection H as <- <-; lia); [done|].
  destruct (c =? Ctl 68); [injection H as <- <-; lia|]. destruct (c =? NL); [injection H as <- <-; rewrite length_app; simpl; lia|].
  apply IH in H. rewrite length_app in H. simpl in H. lia.
Qed.

(** Reading a line.  When the queue of entered characters holds a line, an end-of-file mark or as
    many characters as the caller wants, consoleread returns, without sleeping, the characters up
    to and including the newline, at most [n]; control-D ends the input: it is consumed when it
    comes first, so that the read returns nothing, and otherwise stays for the next read.  The line
    being edited is not touched and the lock is free again. *)
Lemma consoleread_line iunlock ilock fuel n s r q :
  (forall s, iunlock s = Ret tt s) -> (forall s, ilock s = Ret tt s) -> cons_ok s -> cs_lock s = false ->
  take_line n (committed (cs_input s)) [] = Some (r, q) ->
  exists s', run_until (consoleread iunlock ilock (S fuel) n) s = Ret (inl (Some r)) s' /\ cs_lock s' = false /\
    committed (cs_input s') = q /\ editing (cs_input s') = editing (cs_input s) /\ (length r <= n)%nat.
Proof.
  intros Hiu Hil Hok Hl Ht. destruct (read_chars_ok fuel n [] (set_cs_lock true s) r q) as (s1 & E & H1 & H2 & H3 & H4); [by destruct Hok|done|].
  unfold consoleread. cbn [run_until pbind act]. rewrite Hiu. unfold cons_acquire at 1. rewrite Hl.
  rewrite run_until_bind, E. cbn [run_until pbind act]. unfold cons_release. rewrite H2. simpl. rewrite Hil.
  eexists. split; [done|]. simpl in *. split; [done|]. split; [done|]. split; [done|]. by apply take_line_length in Ht.
Qed.

Definition no_inode : M cst unit := fun s => Ret tt s.
Definition cons_line : cst :=
  mkCst false true false true [] cdemo (mkInput (<[0%nat:=NL]> (<[1%nat:=7]> (replicate 128 65))) (2 ^ 32 - 3) 2 2) false 0 0.
