(* ===== verification/Fs.v ===== *)
(** * The file system (src/fs.c): blocks, inodes, directories, path names

    On top of the log and the buffer cache ([Log], [Bio]).  [&icache.inode[i]] is [i] and a null
    pointer is [None].  The structures of the disk are bytes of blocks ([Block]): a struct dinode
    takes 64 of them, a struct dirent 16.  A read returns the bytes it stores at its destination, or
    [None] for -1; a write takes the bytes of its source.  The device switch is an argument.  Code
    that would sleep ends the run, as in [Bio]. *)
From Stdlib Require Import ZArith Lia.
From stdpp Require Import base list numbers strings.
From S2P Require Import Prelude Block Bio Log.
Local Open Scope Z_scope.

Definition NINODE : nat := 50.
Definition NDEV : Z := 10.
Definition ROOTINO : Z := 1.
Definition NDIRECT : nat := 12.
Definition NINDIRECT : nat := 128.
Definition MAXFILE : Z := 140.
Definition IPB : Z := 8.
Definition BPB : Z := BSIZE * 8.
Definition DIRSIZ : nat := 14.
Definition T_DIR : Z := 1.
Definition T_FILE : Z := 2.
Definition T_DEV : Z := 3.

Definition IBLOCK (i : Z) (sb : superblock) : Z := u32 (i / IPB + sb_inodestart sb).
Definition BBLOCK (b : Z) (sb : superblock) : Z := u32 (b / BPB + sb_bmapstart sb).

Record inode := mkInode {
  i_dev : Z;
  i_inum : Z;
  i_ref : Z;
  i_lock : sleeplock;
  i_valid : bool;
  i_type : Z;
  i_major : Z;
  i_minor : Z;
  i_nlink : Z;
  i_size : Z;
  i_addrs : list Z }.

Record fsst := mkFsst {
  f_l : lst;  (* the log and the buffer cache *)
  f_ilock : bool;  (* icache.lock is held *)
  f_inodes : list inode;  (* icache.inode *)
  f_sb : superblock;
  f_cwd : nat }.  (* myproc()->cwd *)

Definition set_f_l (v : lst) (s : fsst) : fsst := mkFsst v (f_ilock s) (f_inodes s) (f_sb s) (f_cwd s).
Definition set_f_ilock (v : bool) (s : fsst) : fsst := mkFsst (f_l s) v (f_inodes s) (f_sb s) (f_cwd s).
Definition set_f_inodes (v : list inode) (s : fsst) : fsst := mkFsst (f_l s) (f_ilock s) v (f_sb s) (f_cwd s).
Definition set_f_sb (v : superblock) (s : fsst) : fsst := mkFsst (f_l s) (f_ilock s) (f_inodes s) v (f_cwd s).

Definition set_i_ref (v : Z) (i : inode) : inode :=
  mkInode (i_dev i) (i_inum i) v (i_lock i) (i_valid i) (i_type i) (i_major i) (i_minor i) (i_nlink i) (i_size i) (i_addrs i).
Definition set_i_lock (v : sleeplock) (i : inode) : inode :=
  mkInode (i_dev i) (i_inum i) (i_ref i) v (i_valid i) (i_type i) (i_major i) (i_minor i) (i_nlink i) (i_size i) (i_addrs i).
Definition set_i_valid (v : bool) (i : inode) : inode :=
  mkInode (i_dev i) (i_inum i) (i_ref i) (i_lock i) v (i_type i) (i_major i) (i_minor i) (i_nlink i) (i_size i) (i_addrs i).
Definition set_i_type (v : Z) (i : inode) : inode :=
  mkInode (i_dev i) (i_inum i) (i_ref i) (i_lock i) (i_valid i) v (i_major i) (i_minor i) (i_nlink i) (i_size i) (i_addrs i).
Definition set_i_node (major minor nlink : Z) (i : inode) : inode :=
  mkInode (i_dev i) (i_inum i) (i_ref i) (i_lock i) (i_valid i) (i_type i) major minor nlink (i_size i) (i_addrs i).
Definition set_i_nlink (v : Z) (i : inode) : inode := set_i_node (i_major i) (i_minor i) v i.
Definition set_i_size (v : Z) (i : inode) : inode :=
  mkInode (i_dev i) (i_inum i) (i_ref i) (i_lock i) (i_valid i) (i_type i) (i_major i) (i_minor i) (i_nlink i) v (i_addrs i).
Definition set_i_addrs (v : list Z) (i : inode) : inode :=
  mkInode (i_dev i) (i_inum i) (i_ref i) (i_lock i) (i_valid i) (i_type i) (i_major i) (i_minor i) (i_nlink i) (i_size i) v.

Definition inl_ {A} (m : M lst A) : M fsst A := lift f_l set_f_l m.
Definition inbc {A} (m : M bst A) : M fsst A := inl_ (inb m).

(** The data of a buffer, and a store into it. *)
Definition bdata (i : nat) : M fsst (list Z) := let! b := inbc (getb i) in ret (b_data b).
Definition bupd (i : nat) (f : list Z -> list Z) : M fsst unit := inbc (updb i (fun b => set_b_data (f (b_data b)) b)).

Definition geti (ip : nat) : M fsst inode := fun s => match f_inodes s !! ip with Some i => Ret i s | None => Fault s end.
Definition updi (ip : nat) (f : inode -> inode) : M fsst unit := fun s =>
  match f_inodes s !! ip with
  | Some i => Ret tt (set_f_inodes (<[ip := f i]> (f_inodes s)) s)
  | None => Fault s
  end.
Definition icache_acquire : M fsst unit := lift f_ilock set_f_ilock spin_acquire.
Definition icache_release : M fsst unit := lift f_ilock set_f_ilock spin_release.
(** An operation on the sleep lock of an inode. *)
Definition on_ilock {A} (ip : nat) (m : M sleeplock A) : M fsst A := fun s =>
  match f_inodes s !! ip with
  | Some _ => lift (fun s => default (mkSleeplock false false "" 0 0) (i_lock <$> f_inodes s !! ip))
                   (fun l s => set_f_inodes (alter (set_i_lock l) ip (f_inodes s)) s) m s
  | None => Fault s
  end.

(** ** Blocks *)

Definition bzero (dev bno : Z) : M fsst unit :=
  let! bp := inbc (bread dev bno) in
  bupd bp (fun d => replicate (Z.to_nat BSIZE) 0) ;;;
  inl_ (log_write bp) ;;;
  inbc (brelse bp).

(** One bit of a bitmap block: [data[bi/8] & (1 << bi%8)], and setting or clearing it. *)
Definition bit_of (d : list Z) (bi : nat) : bool := Z.testbit (nth (bi / 8) d 0) (Z.of_nat (bi mod 8)).
Definition set_bit (d : list Z) (bi : nat) : list Z := <[(bi / 8)%nat := Z.lor (nth (bi / 8) d 0) (2 ^ Z.of_nat (bi mod 8))]> d.
Definition clear_bit (d : list Z) (bi : nat) : list Z := <[(bi / 8)%nat := Z.ldiff (nth (bi / 8) d 0) (2 ^ Z.of_nat (bi mod 8))]> d.

(** The inner loop of balloc, on the bitmap block in [bp]: the block found *)
Definition balloc_scan (dev b : Z) (bp : nat) : M fsst (option Z) :=
  let! sb := gets f_sb in
  for_range (Z.to_nat (Z.min BPB (sb_size sb - b))) 0 (fun bi =>
    let! d := bdata bp in
    if bit_of d bi then ret None
    else
      bupd bp (fun d => set_bit d bi) ;;;
      inl_ (log_write bp) ;;;
      inbc (brelse bp) ;;;
      bzero dev (b + Z.of_nat bi) ;;;
      ret (Some (b + Z.of_nat bi))).

Definition balloc (dev : Z) : M fsst Z :=
  let! sb := gets f_sb in
  let! r := for_range (Z.to_nat ((sb_size sb + BPB - 1) / BPB)) 0 (fun k =>
    let b := Z.of_nat k * BPB in
    let! bp := inbc (bread dev (BBLOCK b sb)) in
    let! r := balloc_scan dev b bp in
    match r with
    | Some blk => ret (Some blk)
    | None => inbc (brelse bp) ;;; ret None
    end) in
  match r with
  | Some blk => ret blk
  | None => panic "balloc: out of blocks"
  end.

Definition bfree (dev b : Z) : M fsst unit :=
  let! sb := inl_ (readsb dev) in
  modify (set_f_sb sb) ;;;
  let! bp := inbc (bread dev (BBLOCK b sb)) in
  let bi := Z.to_nat (b mod BPB) in
  let! d := bdata bp in
  if negb (bit_of d bi) then panic "freeing free block"
  else
    bupd bp (fun d => clear_bit d bi) ;;;
    inl_ (log_write bp) ;;;
    inbc (brelse bp).

(** ** Inodes *)

(** initlock, initsleeplock of every inode, readsb; what it prints is not part of the state *)
Definition iinit (dev : Z) : M fsst unit :=
  modify (set_f_ilock false) ;;;
  for_each NINODE 0 (fun i => on_ilock i (initsleeplock "inode")) ;;;
  let! sb := inl_ (readsb dev) in
  modify (set_f_sb sb).

(** The offset of a dinode in its block, and its fields. *)
Definition dino_off (inum : Z) : nat := 64 * Z.to_nat (inum mod IPB).
Definition dino_addr (o k : nat) : nat := o + 12 + 4 * k.

(** The copies between an in-memory inode and its dinode at [o] in [d]. *)
Fixpoint put_addrs (d : list Z) (o k : nat) (addrs : list Z) : list Z :=
  match addrs with
  | [] => d
  | a :: addrs' => put_addrs (put32 d (dino_addr o k) a) o (k + 1) addrs'
  end.
Definition put_dinode (d : list Z) (o : nat) (i : inode) : list Z :=
  let d := put16 d o (i_type i) in
  let d := put16 d (o + 2) (i_major i) in
  let d := put16 d (o + 4) (i_minor i) in
  let d := put16 d (o + 6) (i_nlink i) in
  let d := put32 d (o + 8) (i_size i) in
  put_addrs d o 0 (i_addrs i).
Definition load_dinode (d : list Z) (o : nat) (i : inode) : inode :=
  mkInode (i_dev i) (i_inum i) (i_ref i) (i_lock i) (i_valid i)
    (i16 (get16 d o)) (i16 (get16 d (o + 2))) (i16 (get16 d (o + 4))) (i16 (get16 d (o + 6))) (get32 d (o + 8))
    (map (fun k => get32 d (dino_addr o k)) (seq 0 (NDIRECT + 1))).

Definition iupdate (ip : nat) : M fsst unit :=
  let! i := geti ip in
  let! sb := gets f_sb in
  let! bp := inbc (bread (i_dev i) (IBLOCK (i_inum i) sb)) in
  bupd bp (fun d => put_dinode d (dino_off (i_inum i)) i) ;;;
  inl_ (log_write bp) ;;;
  inbc (brelse bp).

(** The scan of iget: the entry of the inode, or the first free one. *)
Fixpoint iget_scan (l : list inode) (k : nat) (dev inum : Z) (empty : option nat) : nat + option nat :=
  match l with
  | [] => inr empty
  | i :: l' =>
      if (0 <? i_ref i) && (i_dev i =? dev) && (i_inum i =? inum) then inl k
      else iget_scan l' (S k) dev inum
             (match empty with Some e => Some e | None => if i_ref i =? 0 then Some k else None end)
  end.

Definition iget (dev inum : Z) : M fsst nat :=
  icache_acquire ;;;
  let! l := gets f_inodes in
  match iget_scan l 0 dev inum None with
  | inl ip =>
      updi ip (fun i => set_i_ref (i32 (i_ref i + 1)) i) ;;;
      icache_release ;;;
      ret ip
  | inr None => panic "iget: no inodes"
  | inr (Some ip) =>
      updi ip (fun i => mkInode dev inum 1 (i_lock i) false (i_type i) (i_major i) (i_minor i) (i_nlink i) (i_size i) (i_addrs i)) ;;;
      icache_release ;;;
      ret ip
  end.

Definition ialloc (dev type : Z) : M fsst nat :=
  let! sb := gets f_sb in
  let! r := for_range (Z.to_nat (sb_ninodes sb) - 1) 1 (fun k =>
    let inum := Z.of_nat k in
    let! bp := inbc (bread dev (IBLOCK inum sb)) in
    let! d := bdata bp in
    if i16 (get16 d (dino_off inum)) =? 0 then
      bupd bp (fun d => put16 (put_bytes d (dino_off inum) (replicate 64 0)) (dino_off inum) type) ;;;
      inl_ (log_write bp) ;;;
      inbc (brelse bp) ;;;
      let! ip := iget dev inum in
      ret (Some ip)
    else
      inbc (brelse bp) ;;;
      ret None) in
  match r with
  | Some ip => ret ip
  | None => panic "ialloc: no inodes"
  end.

Definition idup (ip : nat) : M fsst nat :=
  icache_acquire ;;;
  updi ip (fun i => set_i_ref (i32 (i_ref i + 1)) i) ;;;
  icache_release ;;;
  ret ip.

(** myproc()->pid, which acquiresleep records *)
Definition mypid : M fsst Z := gets (fun s => bs_pid (ls_b (f_l s))).

Definition ilock (ip : option nat) : M fsst unit :=
  match ip with
  | None => panic "ilock"
  | Some ip =>
      let! i := geti ip in
      if i_ref i <? 1 then panic "ilock"
      else
        let! pid := mypid in
        on_ilock ip (acquiresleep pid) ;;;
        let! i := geti ip in
        if i_valid i then skip
        else
          let! sb := gets f_sb in
          let! bp := inbc (bread (i_dev i) (IBLOCK (i_inum i) sb)) in
          let! d := bdata bp in
          updi ip (load_dinode d (dino_off (i_inum i))) ;;;
          inbc (brelse bp) ;;;
          updi ip (set_i_valid true) ;;;
          let! i := geti ip in
          if i_type i =? 0 then panic "ilock: no type" else skip
  end.

Definition iunlock (ip : option nat) : M fsst unit :=
  match ip with
  | None => panic "iunlock"
  | Some ip =>
      let! h := on_ilock ip holdingsleep in
      let! i := geti ip in
      if negb h || (i_ref i <? 1) then panic "iunlock"
      else on_ilock ip releasesleep
  end.

(** ** Contents *)

(** [addrs[k]], allocated when it is 0 *)
Definition bmap_slot (ip k : nat) : M fsst Z :=
  let! i := geti ip in
  match i_addrs i !! k with
  | None => fault
  | Some addr =>
      if addr =? 0 then
        let! addr := balloc (i_dev i) in
        updi ip (fun i => set_i_addrs (<[k := addr]> (i_addrs i)) i) ;;;
        ret addr
      else ret addr
  end.

Definition bmap (ip : nat) (bn : Z) : M fsst Z :=
  if bn <? Z.of_nat NDIRECT then bmap_slot ip (Z.to_nat bn)
  else
    let bn := bn - Z.of_nat NDIRECT in
    if bn <? Z.of_nat NINDIRECT then
      let! addr := bmap_slot ip NDIRECT in
      let! i := geti ip in
      let! bp := inbc (bread (i_dev i) addr) in
      let! d := bdata bp in
      let addr := get32 d (4 * Z.to_nat bn) in
      let! addr :=
        (if addr =? 0 then
           let! addr := balloc (i_dev i) in
           bupd bp (fun d => put32 d (4 * Z.to_nat bn) addr) ;;;
           inl_ (log_write bp) ;;;
           ret addr
         else ret addr) in
      inbc (brelse bp) ;;;
      ret addr
    else panic "bmap: out of range".

(** The loop over the blocks that are listed in the indirect block. *)
Definition trunc_indirect (ip bp : nat) : M fsst unit :=
  for_each NINDIRECT 0 (fun j =>
    let! i := geti ip in
    let! d := bdata bp in
    let a := get32 d (4 * j) in
    when (negb (a =? 0)) (bfree (i_dev i) a)).

Definition trunc_direct (ip : nat) : M fsst unit :=
  for_each NDIRECT 0 (fun k =>
    let! i := geti ip in
    match i_addrs i !! k with
    | None => fault
    | Some a =>
        when (negb (a =? 0))
          (bfree (i_dev i) a ;;;
           updi ip (fun i => set_i_addrs (<[k := 0]> (i_addrs i)) i))
    end).

Definition itrunc (ip : nat) : M fsst unit :=
  trunc_direct ip ;;;
  let! i := geti ip in
  match i_addrs i !! NDIRECT with
  | None => fault
  | Some a =>
      when (negb (a =? 0))
        (let! bp := inbc (bread (i_dev i) a) in
         trunc_indirect ip bp ;;;
         inbc (brelse bp) ;;;
         bfree (i_dev i) a ;;;
         updi ip (fun i => set_i_addrs (<[NDIRECT := 0]> (i_addrs i)) i)) ;;;
      updi ip (set_i_size 0) ;;;
      iupdate ip
  end.

(** Freeing an inode without links and other references. *)
Definition iput_free (ip : nat) : M fsst unit :=
  icache_acquire ;;;
  let! i := geti ip in
  icache_release ;;;
  when (i_ref i =? 1)
    (itrunc ip ;;;
     updi ip (set_i_type 0) ;;;
     iupdate ip ;;;
     updi ip (set_i_valid false)).

Definition iput (ip : nat) : M fsst unit :=
  let! pid := mypid in
  on_ilock ip (acquiresleep pid) ;;;
  let! i := geti ip in
  when (i_valid i && (i_nlink i =? 0)) (iput_free ip) ;;;
  on_ilock ip releasesleep ;;;
  icache_acquire ;;;
  updi ip (fun i => set_i_ref (i32 (i_ref i - 1)) i) ;;;
  icache_release.

Definition iunlockput (ip : nat) : M fsst unit :=
  iunlock (Some ip) ;;;
  iput ip.

(** struct stat *)
Record stat := mkStat { st_type : Z; st_dev : Z; st_ino : Z; st_nlink : Z; st_size : Z }.
Definition stati (ip : nat) : M fsst stat :=
  let! i := geti ip in
  ret (mkStat (i_type i) (i_dev i) (i_inum i) (i_nlink i) (i_size i)).

Section devices.
(** devsw[major].read and .write, where they are not null *)
Context (dev_read : Z -> option (nat -> Z -> M fsst (option (list Z)))) (dev_write : Z -> option (nat -> list Z -> M fsst Z)).

(** One round of the loop of readi: [n - tot] bytes to go. *)
Definition readi_body (ip : nat) (n : Z) (a : Z * Z * list Z) : M fsst ((Z * Z * list Z) + list Z) :=
  let '(tot, off, acc) := a in
  if tot <? n then
    let! i := geti ip in
    let! blk := bmap ip (off / BSIZE) in
    let! bp := inbc (bread (i_dev i) blk) in
    let m := Z.min (n - tot) (BSIZE - off mod BSIZE) in
    let! d := bdata bp in
    inbc (brelse bp) ;;;
    ret (inl (tot + m, u32 (off + m), acc ++ take (Z.to_nat m) (drop (Z.to_nat (off mod BSIZE)) d)))
  else ret (inr acc).

Definition readi (ip : nat) (off n : Z) : M fsst (option (list Z)) :=
  let! i := geti ip in
  if i_type i =? T_DEV then
    if (i_major i <? 0) || (NDEV <=? i_major i) then ret None
    else match dev_read (i_major i) with
         | None => ret None
         | Some f => f ip n
         end
  else if (i_size i <? off) || (u32 (off + n) <? off) then ret None
  else
    let n := if i_size i <? u32 (off + n) then i_size i - off else n in
    let! l := loop (S (Z.to_nat n)) (readi_body ip n) (0, off, []) in
    ret (Some l).

(** One round of the loop of writei: [src] is what is left of the source. *)
Definition writei_body (ip : nat) (n : Z) (a : Z * Z * list Z) : M fsst ((Z * Z * list Z) + Z) :=
  let '(tot, off, src) := a in
  if tot <? n then
    let! i := geti ip in
    let! blk := bmap ip (off / BSIZE) in
    let! bp := inbc (bread (i_dev i) blk) in
    let m := Z.min (n - tot) (BSIZE - off mod BSIZE) in
    bupd bp (fun d => put_bytes d (Z.to_nat (off mod BSIZE)) (take (Z.to_nat m) src)) ;;;
    inl_ (log_write bp) ;;;
    inbc (brelse bp) ;;;
    ret (inl (tot + m, u32 (off + m), drop (Z.to_nat m) src))
  else ret (inr off).

(** [src] is the [n] bytes of the source. *)
Definition writei (ip : nat) (src : list Z) (off : Z) : M fsst Z :=
  let n := Z.of_nat (length src) in
  let! i := geti ip in
  if i_type i =? T_DEV then
    if (i_major i <? 0) || (NDEV <=? i_major i) then ret (-1)
    else match dev_write (i_major i) with
         | None => ret (-1)
         | Some f => f ip src
         end
  else if (i_size i <? off) || (u32 (off + n) <? off) then ret (-1)
  else if MAXFILE * BSIZE <? u32 (off + n) then ret (-1)
  else
    let! off := loop (S (Z.to_nat n)) (writei_body ip n) (0, off, src) in
    let! i := geti ip in
    when ((0 <? n) && (i_size i <? off))
      (updi ip (set_i_size off) ;;;
       iupdate ip) ;;;
    ret n.

(** ** Directories *)

(** A name is the characters before its NUL, or all DIRSIZ of them; strncmp and strncpy see zeroes
    after its end. *)
Fixpoint strncmp_chars (n : nat) (p q : list Z) : Z :=
  match n with
  | O => 0
  | S n' =>
      let a := hd 0 p in
      let b := hd 0 q in
      if negb (a =? 0) && (a =? b) then strncmp_chars n' (tl p) (tl q) else a mod 256 - b mod 256
  end.
Fixpoint strncpy_chars (n : nat) (t : list Z) : list Z :=
  match n with
  | O => []
  | S n' => let c := hd 0 t in if c =? 0 then replicate n 0 else c :: strncpy_chars n' (tl t)
  end.

Definition namecmp (s t : list Z) : Z := strncmp_chars DIRSIZ s t.

(** struct dirent in its 16 bytes *)
Definition de_inum (de : list Z) : Z := get16 de 0.
Definition de_name (de : list Z) : list Z := drop 2 de.
Definition mk_dirent (inum : Z) (name : list Z) : list Z := bytes16 (inum mod 65536) ++ strncpy_chars DIRSIZ name.

(** [readi(dp, &de, off, sizeof(de))], which must read all of it *)
Definition read_dirent (msg : string) (dp : nat) (off : Z) : M fsst (list Z) :=
  let! r := readi dp off 16 in
  match r with
  | Some de => if (length de =? 16)%nat then ret de else panic msg
  | None => panic msg
  end.

(** The number of rounds of [for(off = 0; off < dp->size; off += sizeof(de))] *)
Definition dir_slots (size : Z) : nat := Z.to_nat ((size + 15) / 16).

(** The inode found and the offset of its entry *)
Definition dirlookup (dp : nat) (name : list Z) : M fsst (option (nat * Z)) :=
  let! d := geti dp in
  if negb (i_type d =? T_DIR) then panic "dirlookup not DIR"
  else for_range (dir_slots (i_size d)) 0 (fun k =>
    let off := 16 * Z.of_nat k in
    let! de := read_dirent "dirlookup read" dp off in
    if de_inum de =? 0 then ret None
    else if namecmp name (de_name de) =? 0 then
      let! ip := iget (i_dev d) (de_inum de) in
      ret (Some (ip, off))
    else ret None).

(** The offset at which dirlink writes: the first empty entry or the end *)
Definition free_entry (dp : nat) : M fsst Z :=
  let! d := geti dp in
  let! r := for_range (dir_slots (i_size d)) 0 (fun k =>
    let off := 16 * Z.of_nat k in
    let! de := read_dirent "dirlink read" dp off in
    ret (if de_inum de =? 0 then Some off else None)) in
  ret (default (16 * Z.of_nat (dir_slots (i_size d))) r).

Definition dirlink (dp : nat) (name : list Z) (inum : Z) : M fsst Z :=
  let! r := dirlookup dp name in
  match r with
  | Some (ip, _) => iput ip ;;; ret (-1)
  | None =>
      let! off := free_entry dp in
      let! w := writei dp (mk_dirent inum name) off in
      if w =? 16 then ret 0 else panic "dirlink"
  end.

(** ** Path names *)

Definition SLASH : Z := 47.

Fixpoint skip_slashes (path : list Z) : list Z :=
  match path with
  | c :: path' => if c =? SLASH then skip_slashes path' else path
  | [] => []
  end.

(** The characters up to the next slash, and the rest *)
Fixpoint split_elem (path : list Z) : list Z * list Z :=
  match path with
  | [] => ([], [])
  | c :: path' => if c =? SLASH then ([], path) else let '(e, r) := split_elem path' in (c :: e, r)
  end.

(** A path is the characters before its NUL; the result is the rest and the name. *)
Definition skipelem (path : list Z) : option (list Z * list Z) :=
  match skip_slashes path with
  | [] => None
  | path =>
      let '(s, r) := split_elem path in
      let name := if (DIRSIZ <=? length s)%nat then take DIRSIZ s else s in
      Some (skip_slashes r, name)
  end.

(** One round of the loop of namex, from the directory [ip]. *)
Definition namex_body (nameiparent : bool) (a : nat * list Z * list Z) : M fsst ((nat * list Z * list Z) + (option nat * list Z)) :=
  let '(ip, path, name) := a in
  match skipelem path with
  | None => if nameiparent then iput ip ;;; ret (inr (None, name)) else ret (inr (Some ip, name))
  | Some (path, name) =>
      ilock (Some ip) ;;;
      let! i := geti ip in
      if negb (i_type i =? T_DIR) then
        iunlockput ip ;;;
        ret (inr (None, name))
      else if nameiparent && (match path with [] => true | _ => false end) then
        iunlock (Some ip) ;;;
        ret (inr (Some ip, name))
      else
        let! r := dirlookup ip name in
        match r with
        | None => iunlockput ip ;;; ret (inr (None, name))
        | Some (next, _) => iunlockput ip ;;; ret (inl (next, path, name))
        end
  end.

(** Every round takes a name off the path. *)
Definition namex (path : list Z) (nameiparent : bool) : M fsst (option nat * list Z) :=
  let! ip :=
    (if match path with c :: _ => c =? SLASH | [] => false end then iget 1 ROOTINO
     else let! cwd := gets f_cwd in idup cwd) in
  loop (S (length path)) (namex_body nameiparent) (ip, path, []).

Definition namei (path : list Z) : M fsst (option nat) := let! r := namex path false in ret r.1.
Definition nameiparent (path : list Z) : M fsst (option nat * list Z) := namex path true.

End devices.

(** ** Names of swap files *)

(** [digit[i%10]] *)
Definition digit (i : Z) : Z := 48 + i mod 10.

(** The first loop of itoa: the number of digits; ten are enough for an int. *)
Fixpoint itoa_len (fuel : nat) (shifter : Z) : nat :=
  match fuel with
  | O => O
  | S fuel' => let shifter := shifter / 10 in if shifter =? 0 then 1 else S (itoa_len fuel' shifter)
  end.
(** The second loop: digits stored backwards from [p]. *)
Fixpoint itoa_fill (fuel : nat) (i : Z) (p : nat) (b : list Z) : option (list Z) :=
  match fuel, p with
  | O, _ => None
  | _, O => None
  | S fuel', S p' =>
      if (p' <? length b)%nat then
        let b := <[p' := digit i]> b in
        let i := i / 10 in
        if i =? 0 then Some b else itoa_fill fuel' i p' b
      else None
  end.
(** [itoa(i, b)]: the array afterwards, [None] past its end or for INT_MIN, whose opposite is not an
    int *)
Definition itoa (i : Z) (b : list Z) : option (list Z) :=
  let neg := i <? 0 in
  let b := if neg then <[0%nat := 45]> b else b in
  let i := if neg then i32 (- i) else i in
  let p := ((if neg then 1 else 0) + itoa_len 10 i)%nat in
  if i <? 0 then None
  else if (p <? length b)%nat then itoa_fill 10 i p (<[p := 0]> b) else None.
