(* ===== verification/Syscall.v ===== *)
(** * System calls (src/syscall.c, src/sysproc.c)

    Fetching arguments from the memory of the calling process, the calls of sysproc.c and the
    dispatch by number.  The kernel reads the user's memory through the active page table
    ([Kstate]): an access to a page that is not present is a page fault in kernel mode
    ([Fault]; [Trap.in_kernel]).  The system calls on files, which run on the state of the file
    system ([Sysfile]), and exec are arguments here. *)
From Stdlib Require Import ZArith Lia.
From stdpp Require Import base list numbers strings.
From S2P Require Import Prelude Mmu Mem Kalloc PageTable Spinlock Resume Kstate Policy Swap Uvm Proc.
Local Open Scope Z_scope.

(** The number with these little-endian bytes *)
Definition word_of (l : list Z) : Z := foldr (fun b v => b + 256 * v) 0 l.

(** tickslock *)
Definition TICKS : nat := 1.

Section syscall.
Context {img : Image} {F : Type} `{FileSys F}.
Variable sel : selection.
Variable verbose : bool.
Variables me ts_addr : Z.
Variables forkret_addr trapret_addr : Z.
Variable regs : kst F -> context.

(** ** Arguments *)

(** The int at a user address, or [None] for -1 *)
Definition fetchint (addr : Z) : M (kst F) (option Z) :=
  let! i := curproc in
  let! pr := getp i in
  if (p_sz pr <=? addr) || (p_sz pr <? u32 (addr + 4)) then ret None
  else
    let! l := kread addr 4 in
    ret (Some (i32 (word_of l))).

(** The byte at a user address *)
Definition kld8 (va : Z) : M (kst F) Z := fun s =>
  match kaddr s va false with
  | Some a => Ret (ld8 (km_mem (k_mem s)) a) s
  | None => Fault s
  end.

(** [for(s = *pp; s < ep; s++)] with [n] bytes up to [ep]: the characters before the NUL *)
Fixpoint str_loop (n : nat) (va : Z) : M (kst F) (option (list Z)) :=
  match n with
  | O => ret None
  | S n' =>
      let! c := kld8 va in
      if c =? 0 then ret (Some [])
      else
        let! r := str_loop n' (va + 1) in
        ret (cons c <$> r)
  end.

(** The string at a user address: its characters, whose number is the result, or [None] for -1 *)
Definition fetchstr (addr : Z) : M (kst F) (option (list Z)) :=
  let! i := curproc in
  let! pr := getp i in
  if p_sz pr <=? addr then ret None
  else str_loop (Z.to_nat (p_sz pr - addr)) addr.

Definition argint (n : Z) : M (kst F) (option Z) :=
  let! i := curproc in
  let! pr := getp i in
  fetchint (u32 (tf_esp (p_tf pr) + 4 + 4 * n)).

(** The pointer, as an unsigned number *)
Definition argptr (n size : Z) : M (kst F) (option Z) :=
  let! r := argint n in
  match r with
  | None => ret None
  | Some i =>
      let! c := curproc in
      let! pr := getp c in
      if (size <? 0) || (p_sz pr <=? u32 i) || (p_sz pr <? u32 (u32 i + size)) then ret None
      else ret (Some (u32 i))
  end.

Definition argstr (n : Z) : M (kst F) (option (list Z)) :=
  let! r := argint n in
  match r with
  | None => ret None
  | Some addr => fetchstr (u32 addr)
  end.

(** ** sysproc.c *)

Definition sys_yield : prog (kst F) Z := yield me regs ;;? PRet 0.
Definition sys_fork : prog (kst F) Z := act (fork sel me forkret_addr trapret_addr).
Definition sys_exit : prog (kst F) Z := exit sel verbose me regs ;;? PRet 0.
Definition sys_wait (fuel : nat) : prog (kst F) Z := wait sel me regs fuel.

Definition sys_kill : prog (kst F) Z :=
  do! r := act (argint 0) in
  match r with
  | None => PRet (-1)
  | Some pid => act (kill me pid)
  end.

Definition sys_getpid : prog (kst F) Z := act (let! i := curproc in let! pr := getp i in ret (p_pid pr)).

Definition sys_sbrk : prog (kst F) Z :=
  do! r := act (argint 0) in
  match r with
  | None => PRet (-1)
  | Some n =>
      do! addr := act (let! i := curproc in let! pr := getp i in ret (p_sz pr)) in
      do! g := act (growproc sel me ts_addr n) in
      PRet (if g <? 0 then -1 else i32 addr)
  end.

(** [while(ticks - ticks0 < n)]; the comparison is of unsigned numbers *)
Fixpoint sleep_loop (fuel : nat) (ticks0 n : Z) : prog (kst F) Z :=
  match fuel with
  | O => act nofuel
  | S fuel' =>
      do! ticks := act (gets k_ticks) in
      if u32 (ticks - ticks0) <? u32 n then
        do! pr := act (let! i := curproc in getp i) in
        if p_killed pr then act (release_k me TICKS) ;;? PRet (-1)
        else
          sleep me regs ChanTicks (Some TICKS) ;;?
          sleep_loop fuel' ticks0 n
      else act (release_k me TICKS) ;;? PRet 0
  end.

Definition sys_sleep (fuel : nat) : prog (kst F) Z :=
  do! r := act (argint 0) in
  match r with
  | None => PRet (-1)
  | Some n =>
      do! ticks0 := act (acquire_k me TICKS ;;; gets k_ticks) in
      sleep_loop fuel ticks0 n
  end.

Definition sys_uptime : prog (kst F) Z :=
  do! xticks := act (acquire_k me TICKS ;;; let! t := gets k_ticks in release_k me TICKS ;;; ret t) in
  PRet (i32 xticks).

(** ** The dispatch *)

(** The calls whose code is in sysfile.c. *)
Record filecalls := mkFilecalls {
  call_pipe : prog (kst F) Z; call_read : prog (kst F) Z; call_exec : prog (kst F) Z; call_fstat : prog (kst F) Z;
  call_chdir : prog (kst F) Z; call_dup : prog (kst F) Z; call_open : prog (kst F) Z; call_write : prog (kst F) Z;
  call_mknod : prog (kst F) Z; call_unlink : prog (kst F) Z; call_link : prog (kst F) Z; call_mkdir : prog (kst F) Z;
  call_close : prog (kst F) Z }.

(** The table, by number; [fuel] bounds the sleeps of wait and sleep *)
Definition syscalls (fuel : nat) (fc : filecalls) : list (option (prog (kst F) Z)) :=
  [None; Some sys_fork; Some sys_exit; Some (sys_wait fuel); Some (call_pipe fc); Some (call_read fc); Some sys_kill;
   Some (call_exec fc); Some (call_fstat fc); Some (call_chdir fc); Some (call_dup fc); Some sys_getpid; Some sys_sbrk;
   Some (sys_sleep fuel); Some sys_uptime; Some (call_open fc); Some (call_write fc); Some (call_mknod fc);
   Some (call_unlink fc); Some (call_link fc); Some (call_mkdir fc); Some (call_close fc); Some sys_yield].

Definition set_eax (v : Z) : M (kst F) unit :=
  let! i := curproc in
  updp i (fun pr => set_p_tf (set_tf_eax (u32 v) (p_tf pr)) pr).

Definition syscall (fuel : nat) (fc : filecalls) : prog (kst F) unit :=
  do! pr := act (let! i := curproc in getp i) in
  let num := i32 (tf_eax (p_tf pr)) in
  match (if 0 <? num then (syscalls fuel fc) !! Z.to_nat num else None) with
  | Some (Some call) =>
      do! r := call in
      act (set_eax r)
  | _ =>
      act (cprintf "%d %s: unknown sys call %d" (p_pid pr :: p_name pr ++ [num]) ;;;
           set_eax (-1))
  end.

End syscall.
