(* ===== verification/Trap.v ===== *)
(** * Traps (src/trap.c)

    The interrupt descriptor table and the trap handler.  The handlers of the keyboard and of the
    serial port run on the state of the console ([Console]) and are arguments here, as is the
    value of %cr2; lapiceoi acknowledges an interrupt and changes nothing that is modelled, and
    ideintr of memide.c is empty. *)
From Stdlib Require Import ZArith Lia.
From stdpp Require Import base list numbers strings.
From S2P Require Import Prelude Mmu Mem Kalloc PageTable Spinlock Resume Kstate Policy Swap Uvm Proc Syscall.
Local Open Scope Z_scope.

Definition T_PGFLT : Z := 14.
Definition T_SYSCALL : Z := 64.
Definition T_IRQ0 : Z := 32.
Definition IRQ_TIMER : Z := 0.
Definition IRQ_KBD : Z := 1.
Definition IRQ_COM1 : Z := 4.
Definition IRQ_IDE : Z := 14.
Definition IRQ_SPURIOUS : Z := 31.

(** [vectors] is the table of entry points that vectors.pl generates. *)
Definition tvinit_gates (vectors : list Z) : list gatedesc :=
  let idt := map (fun v => SETGATE false (Z.shiftl SEG_KCODE 3) v 0) (take 256 vectors) in
  match vectors !! Z.to_nat T_SYSCALL with
  | Some v => <[Z.to_nat T_SYSCALL := SETGATE true (Z.shiftl SEG_KCODE 3) v DPL_USER]> idt
  | None => idt
  end.

Section trap.
Context {img : Image} {F : Type} `{FileSys F}.
Variable sel : selection.
Variable verbose : bool.
Variables me ts_addr : Z.
Variables forkret_addr trapret_addr : Z.
Variable regs : kst F -> context.
Variables kbdintr uartintr : M (kst F) unit.
Variable fc : @filecalls F.

(** The table it builds, with tickslock initialised *)
Definition tvinit (vectors : list Z) : M (kst F) (list gatedesc) :=
  insmp (initlock TICKS "time") ;;;
  ret (tvinit_gates vectors).

(** Whether there is a process and it has been killed *)
Definition is_killed : M (kst F) bool :=
  let! c := myproc in
  match c with
  | None => ret false
  | Some i => let! pr := getp i in ret (p_killed pr)
  end.

Definition timer_tick : M (kst F) unit :=
  let! c := cpuid me in
  when (c =? 0)%nat
    (acquire_k me TICKS ;;;
     modify (fun s => set_k_ticks (u32 (k_ticks s + 1)) s) ;;;
     wakeup me ChanTicks ;;;
     release_k me TICKS).

Definition user_mode (tf : trapframe) : bool := Z.land (tf_cs tf) 3 =? 3.
Definition kernel_mode (tf : trapframe) : bool := Z.land (tf_cs tf) 3 =? 0.

(** The default case *)
Definition trap_default (tf : trapframe) (cr2 : Z) : M (kst F) unit :=
  let! c := myproc in
  let! cpu := cpuid me in
  match c with
  | Some i =>
      if kernel_mode tf then
        cprintf "unexpected trap %d from cpu %d eip %x (cr2=0x%x)" [tf_trapno tf; Z.of_nat cpu; tf_eip tf; cr2] ;;;
        panic "trap"
      else
        let! pr := getp i in
        cprintf "pid %d %s: trap %d err %d on cpu %d eip 0x%x addr 0x%x--kill proc"
          (p_pid pr :: p_name pr ++ [tf_trapno tf; tf_err tf; Z.of_nat cpu; tf_eip tf; cr2]) ;;;
        updp i (set_p_killed true)
  | None =>
      cprintf "unexpected trap %d from cpu %d eip %x (cr2=0x%x)" [tf_trapno tf; Z.of_nat cpu; tf_eip tf; cr2] ;;;
      panic "trap"
  end.

(** The page-fault case: whether the page was brought in *)
Definition page_fault (tf : trapframe) (cr2 : Z) : M (kst F) bool :=
  let! c := myproc in
  match c with
  | None => ret false
  | Some i =>
      if user_mode tf then
        let! pr := getp i in
        let! r := pageIsInFile (i32 cr2) (p_pgdir pr) in
        if negb (r =? 0) then
          let! g := getPageFromFile sel (i32 cr2) in
          if negb (g =? 0) then
            updp i (fun pr => set_p_fault_counter (i32 (p_fault_counter pr + 1)) pr) ;;;
            ret true
          else ret false
        else ret false
      else ret false
  end.

(** The switch on the trap number, other than system calls *)
Definition trap_switch (tf : trapframe) (cr2 : Z) : M (kst F) unit :=
  let n := tf_trapno tf in
  if n =? T_IRQ0 + IRQ_TIMER then timer_tick
  else if n =? T_IRQ0 + IRQ_IDE then skip
  else if n =? T_IRQ0 + IRQ_IDE + 1 then skip
  else if n =? T_IRQ0 + IRQ_KBD then kbdintr
  else if n =? T_IRQ0 + IRQ_COM1 then uartintr
  else if (n =? T_IRQ0 + 7) || (n =? T_IRQ0 + IRQ_SPURIOUS) then
    let! cpu := cpuid me in
    cprintf "cpu%d: spurious interrupt at %x:%x" [Z.of_nat cpu; tf_cs tf; tf_eip tf]
  else if (n =? T_PGFLT) && negb (bool_decide (sel = NONE)) then
    let! r := page_fault tf cr2 in
    if (r : bool) then skip else trap_default tf cr2
  else trap_default tf cr2.

(** [if(... killed ...) exit()] *)
Definition exit_if_killed (c : bool) : prog (kst F) unit :=
  do! k := act is_killed in
  if c && k then exit sel verbose me regs else PRet tt.

Definition trap (fuel : nat) (tf : trapframe) (cr2 : Z) : prog (kst F) unit :=
  if tf_trapno tf =? T_SYSCALL then
    do! pr := act (let! i := curproc in getp i) in
    (if p_killed pr then exit sel verbose me regs else PRet tt) ;;?
    act (let! i := curproc in updp i (set_p_tf tf)) ;;?
    syscall sel verbose me ts_addr forkret_addr trapret_addr regs fuel fc ;;?
    do! pr := act (let! i := curproc in getp i) in
    if p_killed pr then exit sel verbose me regs else PRet tt
  else
    act (trap_switch tf cr2) ;;?
    exit_if_killed (user_mode tf) ;;?
    do! running := act (let! c := myproc in
                        match c with
                        | None => ret false
                        | Some i => let! pr := getp i in ret (bool_decide (p_state pr = RUNNING))
                        end) in
    (if (running : bool) && (tf_trapno tf =? T_IRQ0 + IRQ_TIMER) then yield me regs else PRet tt) ;;?
    exit_if_killed (user_mode tf).

(** ** Page faults of the kernel *)

(** The frame of a trap in the kernel's own code segment *)
Definition kernel_frame (trapno err eip : Z) : trapframe :=
  mkTrapframe 0 0 0 0 0 0 0 0 0 0 0 0 trapno err eip (Z.shiftl SEG_KCODE 3) 0 0 0.

(** Kernel code whose access to [cr2] may fault: the processor then enters trap() through an interrupt
    gate, with interrupts off.  The kernel would go on at the same instruction if trap() returned; that
    is not modelled, and remains a [Fault]. *)
Definition in_kernel {A} (fuel : nat) (err eip cr2 : Z) (m : M (kst F) A) : M (kst F) A := fun s =>
  match m s with
  | Fault s' =>
      match (insmp (cli me) ;;; run_until (trap fuel (kernel_frame T_PGFLT err eip) cr2)) s' with
      | Ret _ s'' => Fault s''
      | Panic e s'' => Panic e s''
      | Fault s'' => Fault s''
      | NoFuel s'' => NoFuel s''
      end
  | o => o
  end.

End trap.
