(* ===== verification/TrapThms.v ===== *)
(** * Theorems on traps and system calls

    A page fault of user code on a page in the swap file is served and the process goes on; the
    arguments of system calls are checked against the size of the process; and what happens when
    the kernel itself touches a page that is in the swap file. *)
From Stdlib Require Import ZArith Lia.
From stdpp Require Import base list numbers strings.
From S2P Require Import Prelude Mmu Mem Kalloc PageTable Spinlock Resume Kstate Policy Queues Replacement Swap PteBits Uvm.
From S2P Require Import Uvmrun PagingInv PageFault FlatStore Demo Proc Syscall Trap.
Local Open Scope Z_scope.

Lemma pte_same_page m pgdir va fa : user_va va -> va <= fa < va + 4096 ->
  pte_addr m pgdir fa = pte_addr m pgdir va /\ pte_val m pgdir fa = pte_val m pgdir va.
Proof.
  intros [Hp Hu] Hfa. unfold KERNBASE in Hu. assert (fa / 4096 = va / 4096) as E by (Z.to_euclidean_division_equations; lia).
  apply PDX_PTX_page in E as [E1 E2]; [|lia|lia]. unfold pte_val, pte_addr. rewrite E1, E2. done.
Qed.

Section faults.
Context {img : Image} {F : Type} `{SwapStore F} (sel : selection) `{!Replacement sel}.

(** A counter of the process is not part of the paging invariant. *)
Lemma inv_fault_counter km fs pr tr f l c v : paging_inv km fs pr tr f l c -> paging_inv km fs (set_p_fault_counter v pr) tr f l c.
Proof.
  intros []. constructor; try done. by eapply (rp_inv_fields pr).
Qed.

Lemma pageIsInFile_swapped s p pr f l c j fa :
  k_procs s !! p = Some pr -> paging_inv (k_mem s) (k_fs s) pr [] f l c ->
  disk_va pr j <> NOVA -> disk_va pr j <= fa < disk_va pr j + 4096 ->
  pageIsInFile fa (p_pgdir pr) s = Ret 1 s.
Proof.
  intros Hpr Hinv Hj Hfa. destruct (inv_swapped_pte _ _ _ _ _ _ _ _ Hinv Hj) as (a & Hu & Ha & HP & _ & _ & _ & Hwf).
  destruct (pi_swp _ _ _ _ _ _ _ Hinv j Hj) as [(_ & _ & _ & HPG & _) _].
  destruct (pte_same_page (kmm s) (p_pgdir pr) _ _ Hu Hfa) as [Ea Ev].
  destruct (pte_addr_nonzero _ _ _ _ Hwf Ha) as [_ Hk].
  unfold pageIsInFile, bind, inmem, lift. rewrite walkpgdir_noalloc. unfold kmm in *. rewrite Ea, Ha. simpl.
  unfold kld32, kaddr. simpl. rewrite (proj2 (Z.leb_le KERNBASE a)) by lia. unfold pte_val in HP, HPG. rewrite Ha in HP, HPG.
  rewrite HP, HPG. unfold ret. simpl. by destruct s.
Qed.

Lemma page_fault_served s p pr f n l c j tf cr2 :
  k_procs s !! p = Some pr -> k_cur s = Some p -> paging_inv (k_mem s) (k_fs s) pr [] f (n :: l) c ->
  disk_va pr j <> NOVA -> disk_va pr j <= cr2 < disk_va pr j + 4096 ->
  (16 <= p_pages_in_memory_counter pr -> exists i, (i < MAX_PSYC_PAGES)%nat /\
     has (pte_val (kmm s) (p_pgdir pr) (slot_va pr i)) PTE_U = true) ->
  user_mode tf = true ->
  wp (page_fault sel tf cr2) (fun r s' => r = true /\ exists pr' l' c', k_procs s' !! p = Some pr' /\
    k_cur s' = Some p /\ p_killed pr' = p_killed pr /\ p_state pr' = p_state pr /\ p_tf pr' = p_tf pr /\
    p_fault_counter pr' = i32 (p_fault_counter pr + 1) /\ paging_inv (k_mem s') (k_fs s') pr' [] f l' c' /\ (exists i, slot_va pr' i = disk_va pr j) /\
    (forall va b, page_is (kmm s) pr [] c va b -> page_is (kmm s') pr' [] c' va b)) s.
Proof.
  intros Hpr Hcur Hinv Hj Hfa HU Htf.
  destruct (inv_swapped_pte _ _ _ _ _ _ _ _ Hinv Hj) as (a & [Hmod Hu] & _). unfold KERNBASE in Hu.
  unfold page_fault. apply wp_bind, wp_gets. rewrite Hcur, Htf. apply wp_bind. apply (wp_getp p pr s _ Hpr).
  rewrite i32_small by (Z.to_euclidean_division_equations; lia).
  apply wp_bind. eapply wp_intro; [by eapply pageIsInFile_swapped|]. simpl.
  apply wp_bind. eapply wp_mono; [by apply (getPageFromFile_spec p s pr f n l c j cr2)|].
  intros r s' [-> (pr' & l' & c' & Hp' & Hi' & Hs' & [(_ & _ & Hst & _ & Hk & Htf' & Hfc) Hcur'] & _ & Hpg)]. simpl.
  apply wp_bind. unfold wp, updp. rewrite Hp'. simpl. split; [done|]. exists (set_p_fault_counter (i32 (p_fault_counter pr' + 1)) pr'), l', c'.
  split; [apply list_lookup_insert_eq; by eapply lookup_lt_Some|]. split_and!; try done; [by rewrite <- Hfc|by apply inv_fault_counter].
Qed.

End faults.

Section trap.
Context {img : Image} {F : Type} `{FileSys F} (sel : selection) (me : Z) (kbdintr uartintr : M (kst F) unit).

Lemma trap_switch_served tf cr2 (s s' : kst F) : sel <> NONE -> tf_trapno tf = T_PGFLT ->
  page_fault sel tf cr2 s = Ret true s' -> trap_switch sel me kbdintr uartintr tf cr2 s = Ret tt s'.
Proof.
  intros Hsel Hn E. unfold trap_switch. rewrite Hn. simpl. rewrite bool_decide_eq_false_2 by done. simpl.
  unfold bind. by rewrite E.
Qed.

Lemma not_killed (s : kst F) p pr : k_cur s = Some p -> k_procs s !! p = Some pr -> p_killed pr = false ->
  is_killed s = Ret false s.
Proof. intros Hc Hp Hk. unfold is_killed, bind, myproc, gets, getp. by rewrite Hc, Hp, Hk. Qed.

Lemma is_running (s : kst F) p pr : k_cur s = Some p -> k_procs s !! p = Some pr ->
  (let! c := myproc in
   match c with
   | None => ret false
   | Some i => let! pr := getp i in ret (bool_decide (p_state pr = RUNNING))
   end) s = Ret (bool_decide (p_state pr = RUNNING)) s.
Proof. intros Hc Hp. unfold bind, myproc, gets, getp. by rewrite Hc, Hp. Qed.

End trap.

(** C2: a page fault of a process on a page in its swap file goes unnoticed.  With a free frame, the
    paging invariant and, when sixteen pages are resident, a user page among them, trap() of a page
    fault in user mode at such an address of a process that has not been killed returns under every
    replacement scheme, without a switch and without exit: the process goes on with the registers it
    had, not killed, in the state it was in; the page is resident, every page of the process has the
    contents it had, the invariant holds again, and one more fault has been counted. *)
Theorem trap_serves_page_fault `{Image} {F} `{SwapStore F} sel `{!Replacement sel} verbose me ts_addr
    forkret_addr trapret_addr regs kbdintr uartintr fc fuel (s : kst F) p pr f n l c j tf cr2 :
  sel <> NONE -> k_procs s !! p = Some pr -> k_cur s = Some p -> p_killed pr = false ->
  paging_inv (k_mem s) (k_fs s) pr [] f (n :: l) c ->
  disk_va pr j <> NOVA -> disk_va pr j <= cr2 < disk_va pr j + 4096 ->
  (16 <= p_pages_in_memory_counter pr -> exists i, (i < MAX_PSYC_PAGES)%nat /\
     has (pte_val (kmm s) (p_pgdir pr) (slot_va pr i)) PTE_U = true) ->
  tf_trapno tf = T_PGFLT -> user_mode tf = true ->
  exists s' pr' l' c',
    run_until (trap sel verbose me ts_addr forkret_addr trapret_addr regs kbdintr uartintr fc fuel tf cr2) s =
      Ret (inl tt) s' /\
    k_procs s' !! p = Some pr' /\ k_cur s' = Some p /\ p_killed pr' = false /\ p_state pr' = p_state pr /\
    p_tf pr' = p_tf pr /\ p_fault_counter pr' = i32 (p_fault_counter pr + 1) /\
    paging_inv (k_mem s') (k_fs s') pr' [] f l' c' /\ (exists i, slot_va pr' i = disk_va pr j) /\
    (forall va b, page_is (kmm s) pr [] c va b -> page_is (kmm s') pr' [] c' va b).
Proof.
  intros Hsel Hpr Hcur Hk Hinv Hj Hfa HU Hn Htf.
  destruct (wp_elim _ _ _ (page_fault_served sel s p pr f n l c j tf cr2 Hpr Hcur Hinv Hj Hfa HU Htf))
    as (r & s' & E & -> & pr' & l' & c' & K1 & K2 & K3 & K4). rewrite Hk in K3.
  exists s', pr', l', c'. split; [|by rewrite K3]. unfold trap. rewrite Hn. change (T_PGFLT =? T_SYSCALL) with false. cbv iota.
  rewrite run_until_bind. erewrite run_until_act; [|by eapply trap_switch_served].
  assert (run_until (exit_if_killed sel verbose me regs (user_mode tf)) s' = Ret (inl tt) s') as Ee.
  { unfold exit_if_killed. rewrite run_until_bind. erewrite run_until_act; [|by apply (not_killed s' p pr')].
    by rewrite andb_false_r. }
  rewrite run_until_bind, Ee, run_until_bind. rewrite (run_until_act _ _ _ _ (is_running s' p pr' K2 K1)).
  change (T_PGFLT =? T_IRQ0 + IRQ_TIMER) with false. rewrite andb_false_r. exact Ee.
Qed.

Definition fault_tf : trapframe := mkTrapframe 0 0 0 0 0 0 0 0 0 0 0 0 T_PGFLT 0 0 0x1b 0 0 0x23.
Definition no_files : @filecalls flat :=
  let c := PRet 0 in mkFilecalls c c c c c c c c c c c c c.

Lemma trap_serves_page_fault_witness :
  exists s' pr' l' c',
    run_until (@trap demo_image flat _ SCFIFO false 0 0 0 0 (fun _ => mkContext 0 0 0 0 0) skip skip
      no_files 1 fault_tf 0x10004) demo_state = Ret (inl tt) s' /\
    k_procs s' !! 0%nat = Some pr' /\ k_cur s' = Some 0%nat /\ p_killed pr' = false /\ p_state pr' = p_state demo_proc /\
    p_tf pr' = p_tf demo_proc /\ p_fault_counter pr' = i32 (p_fault_counter demo_proc + 1) /\
    @paging_inv demo_image flat _ _ SCFIFO _ (k_mem s') (k_fs s') pr' [] 0%nat l' c' /\
    (exists i, slot_va pr' i = disk_va demo_proc 0) /\
    (forall va b, page_is (kmm demo_state) demo_proc [] demo_content va b -> page_is (kmm s') pr' [] c' va b).
Proof.
  apply (@trap_serves_page_fault demo_image flat _ _ SCFIFO _ false 0 0 0 0 (fun _ => mkContext 0 0 0 0 0) skip skip
    no_files 1%nat demo_state 0%nat demo_proc 0%nat
    0x80200000 [0x80201000] demo_content 0%nat fault_tf 0x10004); try reflexivity; try done.
  - apply demo_paging_inv.
  - intros _. exists 0%nat. split; [unfold MAX_PSYC_PAGES; lia|]. vm_compute. reflexivity.
Defined.

Section kernel_fault.
Context {img : Image} {F : Type} `{FileSys F} (sel : selection) (verbose : bool) (ts_addr forkret_addr trapret_addr : Z)
  (regs : kst F -> context) (kbdintr uartintr : M (kst F) unit) (fc : @filecalls F) (fuel : nat).

(** In kernel mode the page-fault case of trap() does not look at the swap file. *)
Lemma trap_kernel_fault ids k cpu err eip cr2 (s : kst F) :
  cpus_ok ids (k_smp s) -> s_cpus (k_smp s) !! k = Some cpu -> s_if (k_smp s) (ids k) = false ->
  exists s', run_until (trap sel verbose (ids k) ts_addr forkret_addr trapret_addr regs kbdintr uartintr fc fuel
      (kernel_frame T_PGFLT err eip) cr2) s = Panic "trap" s' /\ k_procs s' = k_procs s /\ k_mem s' = k_mem s.
Proof.
  intros Hok Hk Hif. assert (exists s', trap_switch sel (ids k) kbdintr uartintr (kernel_frame T_PGFLT err eip) cr2 s = Panic "trap" s' /\
    k_procs s' = k_procs s /\ k_mem s' = k_mem s) as (s' & E & Hs).
  { assert (exists s', trap_default (ids k) (kernel_frame T_PGFLT err eip) cr2 s = Panic "trap" s' /\
      k_procs s' = k_procs s /\ k_mem s' = k_mem s) as Hd.
    { unfold trap_default, bind, cpuid, insmp, lift, myproc, gets. rewrite (mycpu_run ids k cpu) by done.
      destruct (k_cur s); eexists; done. }
    unfold trap_switch. simpl. destruct (negb _); [|exact Hd]. unfold page_fault, bind, myproc, gets. by destruct (k_cur s). }
  exists s'. split; [|done]. unfold trap. simpl. by rewrite E.
Qed.

End kernel_fault.

Lemma fetchint_swapped_faults `{Image} {F} `{SwapStore F} sel `{!Replacement sel} (s : kst F) p pr f l c j addr :
  k_procs s !! p = Some pr -> k_cur s = Some p -> k_cr3 s = V2P (p_pgdir pr) ->
  paging_inv (k_mem s) (k_fs s) pr [] f l c -> disk_va pr j <> NOVA ->
  disk_va pr j <= addr < disk_va pr j + 4096 -> addr + 4 <= p_sz pr -> p_sz pr <= KERNBASE ->
  fetchint addr s = Fault s.
Proof.
  intros Hpr Hcur Hcr Hinv Hj Ha Hsz Hk. destruct (inv_swapped_pte _ _ _ _ _ _ _ _ Hinv Hj) as (a & Hu & Hpte & HP & _ & _ & _ & Hwf).
  pose proof (proj2 (pte_same_page (km_mem (k_mem s)) (p_pgdir pr) _ _ Hu Ha)) as Ev. destruct Hu as [_ Hu]. unfold KERNBASE in *.
  unfold fetchint, curproc, bind, myproc, gets. rewrite Hcur. unfold ret, getp. rewrite Hpr. rewrite u32_small by lia.
  destruct (Z.leb_spec (p_sz pr) addr); [lia|]. destruct (Z.ltb_spec (p_sz pr) (addr + 4)); [lia|]. simpl.
  unfold kread. cbn [kbytes]. unfold kaddr at 1, KERNBASE. destruct (Z.leb_spec 2147483648 addr); [lia|]. rewrite Hcr.
  unfold user_addr. destruct Hwf as [Hkp _]. rewrite P2V_V2P_kpage by done. rewrite Ev, HP. done.
Qed.

(** C33: the kernel cannot touch a page that is in the swap file.  When a process passes a system call
    an argument in such a page, of its own memory, the read of fetchint() faults, and trap(), which
    serves page faults of user mode only, ends in panic("trap"): the page is not brought in and the
    kernel is down. *)
Theorem fetchint_swapped_panics `{Image} {F} `{SwapStore F} sel `{!Replacement sel} verbose ids k cpu ts_addr
    forkret_addr trapret_addr regs kbdintr uartintr fc fuel err eip (s : kst F) p pr f l c j addr :
  cpus_ok ids (k_smp s) -> s_cpus (k_smp s) !! k = Some cpu ->
  k_procs s !! p = Some pr -> k_cur s = Some p -> k_cr3 s = V2P (p_pgdir pr) ->
  paging_inv (k_mem s) (k_fs s) pr [] f l c -> disk_va pr j <> NOVA ->
  disk_va pr j <= addr < disk_va pr j + 4096 -> addr + 4 <= p_sz pr -> p_sz pr <= KERNBASE ->
  exists s', in_kernel sel verbose (ids k) ts_addr forkret_addr trapret_addr regs kbdintr uartintr fc fuel err eip addr
      (fetchint addr) s = Panic "trap" s' /\ k_procs s' = k_procs s /\ k_mem s' = k_mem s.
Proof.
  intros Hok Hcpu Hpr Hcur Hcr Hinv Hj Ha Hsz Hk. unfold in_kernel.
  rewrite (fetchint_swapped_faults sel s p pr f l c j addr) by done.
  unfold bind. change (insmp (cli (ids k)) s) with (Ret tt (set_k_smp (set_s_if (ids k) false (k_smp s)) s)). cbv iota.
  destruct (trap_kernel_fault sel verbose ts_addr forkret_addr trapret_addr regs kbdintr uartintr fc fuel ids k cpu err eip
    addr (set_k_smp (set_s_if (ids k) false (k_smp s)) s)) as (s' & -> & Hp & Hm); [done|done|simpl; by rewrite Z.eqb_refl|].
  by exists s'.
Qed.

Lemma fetchint_swapped_panics_witness : exists s',
  @in_kernel demo_image flat _ SCFIFO false 0 0 0 0 (fun _ => mkContext 0 0 0 0 0) skip skip no_files (option Z) 1 0 0 0x10004
    (fetchint 0x10004) demo_state = Panic "trap" s' /\ k_procs s' = k_procs demo_state /\ k_mem s' = k_mem demo_state.
Proof.
  apply (@fetchint_swapped_panics demo_image flat _ _ SCFIFO _ false Z.of_nat 0%nat (mkCpu 0 0 false) 0 0 0
    (fun _ => mkContext 0 0 0 0 0) skip skip no_files 1%nat 0 0 demo_state 0%nat demo_proc 0%nat
    [0x80200000; 0x80201000] demo_content 0%nat 0x10004); try reflexivity; try done.
  - split; [|simpl; lia]. intros [|k] cp E; simplify_eq/=; done.
  - apply demo_paging_inv.
Defined.
