(* ===== verification/Exec.v ===== *)
(** * exec (src/exec.c)

    The program is read through the interface [FileSys] of the file layer.  [path] and the entries of
    [argv] are pointers into the memory of the process, which is read through the active page table
    until the new one is installed.  The saved copies of the paging tables are the fields of the
    process as they were ([restore_paging]). *)
From Stdlib Require Import ZArith Lia.
From stdpp Require Import base list numbers strings.
From S2P Require Import Prelude Mmu Mem Kalloc PageTable Spinlock Resume Kstate Policy Swap Uvm Proc Block.
Local Open Scope Z_scope.

Definition MAXARG : nat := 32.
Definition ELF_MAGIC : Z := 0x464C457F.
Definition ELF_PROG_LOAD : Z := 1.

(** struct elfhdr and struct proghdr in their bytes *)
Record elfhdr := mkElfhdr { e_magic : Z; e_entry : Z; e_phoff : Z; e_phnum : Z }.
Definition elf_of (l : list Z) : elfhdr := mkElfhdr (get32 l 0) (get32 l 24) (get32 l 28) (get16 l 44).
Record proghdr := mkProghdr { ph_type : Z; ph_off : Z; ph_vaddr : Z; ph_filesz : Z; ph_memsz : Z }.
Definition ph_of (l : list Z) : proghdr := mkProghdr (get32 l 0) (get32 l 4) (get32 l 8) (get32 l 16) (get32 l 20).

Section exec.
Context {img : Image} {F : Type} `{FileSys F}.
Variable sel : selection.
Variables me ts_addr : Z.

(** The bytes of a user string before its NUL *)
Fixpoint kstr_loop (fuel : nat) (va : Z) : M (kst F) (list Z) :=
  match fuel with
  | O => nofuel
  | S fuel' =>
      let! c := kread va 1 in
      if hd 0 c =? 0 then ret []
      else let! r := kstr_loop fuel' (va + 1) in ret (hd 0 c :: r)
  end.
(** [fetchstr] has found the NUL below the size of the process. *)
Definition kstr (pr : proc) (va : Z) : M (kst F) (list Z) := kstr_loop (S (Z.to_nat (p_sz pr - va))) va.

(** The paging fields as they were in [old] *)
Definition restore_paging (old p : proc) : proc :=
  let p := set_p_pages_in_swapfile_counter (p_pages_in_swapfile_counter old) p in
  let p := set_p_pages_in_memory_counter (p_pages_in_memory_counter old) p in
  let p := set_p_pagedout (p_pagedout old) p in
  let p := set_p_fault_counter (p_fault_counter old) p in
  let p := set_p_memory_pg_arr (p_memory_pg_arr old) p in
  let p := set_p_disk_pg_arr (p_disk_pg_arr old) p in
  let p := set_p_head (p_head old) p in
  set_p_tail (p_tail old) p.

(** One program header: the new size, [None] for [goto bad] *)
Definition load_segment (pgdir : Z) (ip : nat) (off sz : Z) : M (kst F) (option Z) :=
  let! r := infs (fs_readi ip off 32) in
  if negb (r.1 =? 32) then ret None
  else
    let ph := ph_of r.2 in
    if negb (ph_type ph =? ELF_PROG_LOAD) then ret (Some sz)
    else if ph_memsz ph <? ph_filesz ph then ret None
    else if u32 (ph_vaddr ph + ph_memsz ph) <? ph_vaddr ph then ret None
    else
      let! sz := allocuvm sel pgdir sz (u32 (ph_vaddr ph + ph_memsz ph)) in
      if sz =? 0 then ret None
      else if negb (ph_vaddr ph mod PGSIZE =? 0) then ret None
      else
        let! l := loaduvm pgdir (ph_vaddr ph) ip (ph_off ph) (ph_filesz ph) in
        if l <? 0 then ret None else ret (Some sz).

Fixpoint load_segments (n : nat) (pgdir : Z) (ip : nat) (off sz : Z) : M (kst F) (option Z) :=
  match n with
  | O => ret (Some sz)
  | S n' =>
      let! r := load_segment pgdir ip off sz in
      match r with
      | None => ret None
      | Some sz => load_segments n' pgdir ip (u32 (off + 32)) sz
      end
  end.

(** The argument strings: the stack pointer and the pointers that go into [ustack] *)
Fixpoint push_args (pr : proc) (pgdir : Z) (argc : nat) (argv : list Z) (sp : Z) : M (kst F) (option (Z * list Z)) :=
  match argv with
  | [] => ret (Some (sp, []))
  | a :: argv' =>
      if (MAXARG <=? argc)%nat then ret None
      else
        let! s := kstr pr a in
        let sp := Z.land (u32 (sp - (Z.of_nat (length s) + 1))) (u32 (Z.lnot 3)) in
        let! r := copyout pgdir sp (s ++ [0]) in
        if r <? 0 then ret None
        else
          let! rest := push_args pr pgdir (S argc) argv' sp in
          ret (match rest with Some (sp', l) => Some (sp', sp :: l) | None => None end)
  end.

(** The stack page and what main finds on it: the size and the stack pointer *)
Definition build_stack (pr : proc) (pgdir sz : Z) (argv : list Z) : M (kst F) (option (Z * Z)) :=
  let sz := PGROUNDUP sz in
  let! sz := allocuvm sel pgdir sz (u32 (sz + 2 * PGSIZE)) in
  if sz =? 0 then ret None
  else
    clearpteu pgdir (u32 (sz - 2 * PGSIZE)) ;;;
    let! r := push_args pr pgdir 0 argv sz in
    match r with
    | None => ret None
    | Some (sp, ptrs) =>
        let argc := Z.of_nat (length ptrs) in
        let ustack := [0xffffffff; argc; u32 (sp - (argc + 1) * 4)] ++ ptrs ++ [0] in
        let sp := u32 (sp - (3 + argc + 1) * 4) in
        let! r := copyout pgdir sp (concat (map bytes32 ustack)) in
        if r <? 0 then ret None else ret (Some (sz, sp))
    end.

(** The characters after the last '/' *)
Fixpoint last_elem (last s : list Z) : list Z :=
  match s with
  | [] => last
  | c :: s' => last_elem (if c =? 47 then s' else last) s'
  end.

(** From the name of the process to the end *)
Definition commit_image (cur : nat) (path pgdir sz entry sp : Z) : M (kst F) Z :=
  let! pr := getp cur in
  let! p := kstr pr path in
  updp cur (fun pr => set_p_name (safestrcpy_arr (p_name pr) (last_elem p p ++ [0]) 16) pr) ;;;
  when (negb (bool_decide (sel = NONE)))
    (let! exempt := (if p_pid pr =? 1 then ret true else let! pp := parent_pid pr in ret (pp =? 1)) in
     when (negb exempt) (removeSwapFile cur ;;; createSwapFile cur ;;; skip)) ;;;
  let! pr := getp cur in
  let oldpgdir := p_pgdir pr in
  updp cur (set_p_pgdir pgdir) ;;;
  updp cur (set_p_sz sz) ;;;
  updp cur (fun pr => set_p_tf (set_tf_esp sp (set_tf_eip entry (p_tf pr))) pr) ;;;
  switchuvm me ts_addr (Some cur) ;;;
  freevm sel oldpgdir ;;;
  ret 0.

(** [bad:] with [pgdir] and [ip] *)
Definition exec_bad (cur : nat) (old : proc) (pgdir : Z) (ip : option nat) : M (kst F) Z :=
  when (negb (pgdir =? 0)) (freevm sel pgdir) ;;;
  match ip with
  | Some ip => infs (fs_iunlockput ip) ;;; infs fs_end_op
  | None => skip
  end ;;;
  when (negb (bool_decide (sel = NONE))) (updp cur (restore_paging old)) ;;;
  ret (-1).

(** [argv] are the pointers before the null one. *)
Definition exec (path : Z) (argv : list Z) : M (kst F) Z :=
  let! cur := curproc in
  let! old := getp cur in
  infs fs_begin_op ;;;
  let! p := kstr old path in
  let! r := infs (fs_namei (p_cwd old) p) in
  match r with
  | None =>
      infs fs_end_op ;;;
      cprintf "exec: fail" [] ;;;
      ret (-1)
  | Some ip =>
      infs (fs_ilock ip) ;;;
      let! r := infs (fs_readi ip 0 52) in
      let elf := elf_of r.2 in
      if negb (r.1 =? 52) || negb (e_magic elf =? ELF_MAGIC) then exec_bad cur old 0 (Some ip)
      else
        let! pgdir := setupkvm sel in
        if pgdir =? 0 then exec_bad cur old 0 (Some ip)
        else
          when (negb (bool_decide (sel = NONE))) (updp cur (init_paging sel)) ;;;
          let! r := load_segments (Z.to_nat (e_phnum elf)) pgdir ip (e_phoff elf) 0 in
          match r with
          | None => exec_bad cur old pgdir (Some ip)
          | Some sz =>
              infs (fs_iunlockput ip) ;;;
              infs fs_end_op ;;;
              let! r := build_stack old pgdir sz argv in
              match r with
              | None => exec_bad cur old pgdir None
              | Some (sz, sp) => commit_image cur path pgdir sz (e_entry elf) sp
              end
          end
  end.

End exec.
