(* ===== verification/File.v ===== *)
(** * The file table (src/file.c)

    Open files on top of the file system ([Fs]) and of pipes ([Pipe]).  [&ftable.file[i]] is [i].
    A pipe lives in a page of its own: [fl_pipes] holds the address of the page and the pipe, and
    a file refers to a pipe by its place there.  Reading and writing a pipe can sleep, so fileread
    and filewrite are programs with switches ([Resume]); on inodes they run to their end.
    fileclose returns the page that the last close of a pipe gives back to kfree. *)
From Stdlib Require Import ZArith Lia.
From stdpp Require Import base list numbers strings.
From S2P Require Import Prelude Resume Pipe Block Bio Log Fs.
Local Open Scope Z_scope.

Definition NFILE : nat := 100.

Inductive fdtype := FD_NONE | FD_PIPE | FD_INODE.
#[export] Instance fdtype_eq_dec : EqDecision fdtype.
Proof. solve_decision. Defined.

Record file := mkFile {
  fd_type : fdtype;
  fd_ref : Z;
  fd_readable : bool;
  fd_writable : bool;
  fd_pipe : nat;
  fd_ip : option nat;
  fd_off : Z }.

Definition set_fd_type (v : fdtype) (f : file) : file :=
  mkFile v (fd_ref f) (fd_readable f) (fd_writable f) (fd_pipe f) (fd_ip f) (fd_off f).
Definition set_fd_ref (v : Z) (f : file) : file :=
  mkFile (fd_type f) v (fd_readable f) (fd_writable f) (fd_pipe f) (fd_ip f) (fd_off f).
Definition set_fd_off (v : Z) (f : file) : file :=
  mkFile (fd_type f) (fd_ref f) (fd_readable f) (fd_writable f) (fd_pipe f) (fd_ip f) v.

Record flst := mkFlst {
  fl_fs : fsst;
  fl_lock : bool;  (* ftable.lock is held *)
  fl_files : list file;  (* ftable.file *)
  fl_pipes : list (Z * pst);
  fl_killed : bool }.  (* myproc()->killed *)

Definition set_fl_fs (v : fsst) (s : flst) : flst := mkFlst v (fl_lock s) (fl_files s) (fl_pipes s) (fl_killed s).
Definition set_fl_lock (v : bool) (s : flst) : flst := mkFlst (fl_fs s) v (fl_files s) (fl_pipes s) (fl_killed s).
Definition set_fl_files (v : list file) (s : flst) : flst := mkFlst (fl_fs s) (fl_lock s) v (fl_pipes s) (fl_killed s).
Definition set_fl_pipes (v : list (Z * pst)) (s : flst) : flst := mkFlst (fl_fs s) (fl_lock s) (fl_files s) v (fl_killed s).
Definition set_fl_killed (v : bool) (s : flst) : flst := mkFlst (fl_fs s) (fl_lock s) (fl_files s) (fl_pipes s) v.

Definition infsst {A} (m : M fsst A) : M flst A := lift fl_fs set_fl_fs m.
Definition ftable_acquire : M flst unit := lift fl_lock set_fl_lock spin_acquire.
Definition ftable_release : M flst unit := lift fl_lock set_fl_lock spin_release.

Definition getf (f : nat) : M flst file := fun s => match fl_files s !! f with Some x => Ret x s | None => Fault s end.
Definition updf (f : nat) (g : file -> file) : M flst unit := fun s =>
  match fl_files s !! f with
  | Some x => Ret tt (set_fl_files (<[f := g x]> (fl_files s)) s)
  | None => Fault s
  end.

(** An operation on pipe [p]; it sees myproc()->killed. *)
Definition on_pipe {A} (p : nat) (m : M pst A) : M flst A := fun s =>
  match fl_pipes s !! p with
  | Some (a, ps) =>
      lift (fun s => mkPst (ps_pipe ps) (fl_killed s) (ps_woken ps) (ps_got ps))
           (fun ps' s => set_fl_pipes (<[p := (a, ps')]> (fl_pipes s)) s) m s
  | None => Fault s
  end.

(** A program on a pipe as one on the file table. *)
Fixpoint pipe_prog {A} (p : nat) (q : prog pst A) : prog flst A :=
  match q with
  | PRet a => PRet a
  | PAct m k => PAct (on_pipe p m) (fun b => pipe_prog p (k b))
  | PSwtch k => PSwtch (pipe_prog p k)
  end.

Definition fileinit : M flst unit := modify (set_fl_lock false).

Definition filealloc : M flst (option nat) :=
  ftable_acquire ;;;
  let! r := for_range NFILE 0 (fun f =>
    let! x := getf f in
    if fd_ref x =? 0 then
      updf f (set_fd_ref 1) ;;;
      ftable_release ;;;
      ret (Some f)
    else ret None) in
  match r with
  | Some f => ret (Some f)
  | None => ftable_release ;;; ret None
  end.

Definition filedup (f : nat) : M flst nat :=
  ftable_acquire ;;;
  let! x := getf f in
  if fd_ref x <? 1 then panic "filedup"
  else
    updf f (fun x => set_fd_ref (i32 (fd_ref x + 1)) x) ;;;
    ftable_release ;;;
    ret f.

(** pipeclose(p, writable), and the page it frees *)
Definition close_pipe (p : nat) (writable : bool) : M flst (option Z) :=
  on_pipe p (pipeclose writable) ;;;
  let! l := gets fl_pipes in
  match l !! p with
  | Some (a, ps) => ret (match ps_pipe ps with None => Some a | Some _ => None end)
  | None => fault
  end.

Section devices.
Context (dev_read : Z -> option (nat -> Z -> M fsst (option (list Z)))) (dev_write : Z -> option (nat -> list Z -> M fsst Z)).

Definition fileclose (f : nat) : M flst (option Z) :=
  ftable_acquire ;;;
  let! x := getf f in
  if fd_ref x <? 1 then panic "fileclose"
  else
    updf f (fun x => set_fd_ref (i32 (fd_ref x - 1)) x) ;;;
    let! ff := getf f in
    if 0 <? fd_ref ff then ftable_release ;;; ret None
    else
      updf f (set_fd_ref 0) ;;;
      updf f (set_fd_type FD_NONE) ;;;
      ftable_release ;;;
      match fd_type ff with
      | FD_PIPE => close_pipe (fd_pipe ff) (fd_writable ff)
      | FD_INODE =>
          infsst (inl_ begin_op ;;;
                  match fd_ip ff with Some ip => iput ip | None => fault end ;;;
                  inl_ end_op) ;;;
          ret None
      | FD_NONE => ret None
      end.

(** What it stores, or [None] for -1 *)
Definition filestat (f : nat) : M flst (option stat) :=
  let! x := getf f in
  match fd_type x with
  | FD_INODE =>
      infsst (ilock (fd_ip x)) ;;;
      let! st := infsst (match fd_ip x with Some ip => stati ip | None => fault end) in
      infsst (iunlock (fd_ip x)) ;;;
      ret (Some st)
  | _ => ret None
  end.

(** The result of a read and the bytes it stores at its destination *)
Definition fileread_inode (f : nat) (n : Z) : M flst (Z * list Z) :=
  let! x := getf f in
  infsst (ilock (fd_ip x)) ;;;
  let! x := getf f in
  let! l := infsst (match fd_ip x with Some ip => readi dev_read ip (fd_off x) n | None => fault end) in
  let r := match l with Some l => Z.of_nat (length l) | None => -1 end in
  when (0 <? r) (updf f (fun x => set_fd_off (u32 (fd_off x + r)) x)) ;;;
  infsst (iunlock (fd_ip x)) ;;;
  ret (r, default [] l).

Definition pipe_read (fuel : nat) (p : nat) (n : Z) : prog flst (Z * list Z) :=
  do! got := act (on_pipe p (gets ps_got)) in
  do! r := pipe_prog p (piperead fuel (Z.to_nat n)) in
  do! got' := act (on_pipe p (gets ps_got)) in
  PRet (r, drop (length got) got').

Definition fileread (fuel : nat) (f : nat) (n : Z) : prog flst (Z * list Z) :=
  do! x := act (getf f) in
  if negb (fd_readable x) then PRet (-1, [])
  else match fd_type x with
       | FD_PIPE => pipe_read fuel (fd_pipe x) n
       | FD_INODE => act (fileread_inode f n)
       | FD_NONE => act (panic "fileread")
       end.

(** ((MAXOPBLOCKS-1-1-2) / 2) * 512 *)
Definition max_write : Z := (MAXOPBLOCKS - 1 - 1 - 2) / 2 * 512.

(** One round of the loop of filewrite: [src] is what is left of the source, [n] the bytes in all. *)
Definition filewrite_body (f : nat) (n : Z) (a : Z * list Z) : M flst ((Z * list Z) + Z) :=
  let '(i, src) := a in
  if negb (i <? n) then ret (inr i)
  else
    let n1 := Z.min (n - i) max_write in
    infsst (inl_ begin_op) ;;;
    let! x := getf f in
    infsst (ilock (fd_ip x)) ;;;
    let! x := getf f in
    let! r := infsst (match fd_ip x with
                      | Some ip => writei dev_write ip (take (Z.to_nat n1) src) (fd_off x)
                      | None => fault
                      end) in
    when (0 <? r) (updf f (fun x => set_fd_off (u32 (fd_off x + r)) x)) ;;;
    infsst (iunlock (fd_ip x)) ;;;
    infsst (inl_ end_op) ;;;
    if r <? 0 then ret (inr i)
    else if negb (r =? n1) then panic "short filewrite"
    else ret (inl (i + r, drop (Z.to_nat n1) src)).

Definition filewrite_inode (f : nat) (l : list Z) : M flst Z :=
  let n := Z.of_nat (length l) in
  let! i := loop (S (length l)) (filewrite_body f n) (0, l) in
  ret (if i =? n then n else -1).

(** [l] are the [n] bytes of the source. *)
Definition filewrite (fuel : nat) (f : nat) (l : list Z) : prog flst Z :=
  do! x := act (getf f) in
  if negb (fd_writable x) then PRet (-1)
  else match fd_type x with
       | FD_PIPE => pipe_prog (fd_pipe x) (pipewrite fuel l)
       | FD_INODE => act (filewrite_inode f l)
       | FD_NONE => act (panic "filewrite")
       end.

End devices.
