(* ===== verification/Sysfile.v ===== *)
(** * File-system system calls (src/sysfile.c), pipealloc and the swap files' creation and removal

    The code that works on path names runs on the state of the file system ([Fs]) and of the file
    table ([File]); the system calls fetch their arguments from the caller's memory ([Syscall])
    and run on the whole kernel, with the file table as its file system.  [sync] passes the fields
    of myproc() that the lower layers read (pid, cwd, killed) down to them.  A user buffer is read
    before a write begins, and stored to after a read has ended.  [real_filesys] is the file layer
    as the interface [FileSys] of the process and paging code. *)
From Stdlib Require Import ZArith Lia.
From stdpp Require Import base list numbers strings.
From S2P Require Import Prelude Mmu Mem Kalloc PageTable Spinlock Resume Kstate Policy Swap Uvm Proc.
From S2P Require Import Block Bio Log Fs Pipe File Exec Syscall.
Import Prelude Kstate.
Local Open Scope Z_scope.

Definition O_RDONLY : Z := 0x000.
Definition O_WRONLY : Z := 0x001.
Definition O_RDWR : Z := 0x002.
Definition O_CREATE : Z := 0x200.

Definition set_f_cwd (v : nat) (s : fsst) : fsst := mkFsst (f_l s) (f_ilock s) (f_inodes s) (f_sb s) v.

Section devices.
Context (dev_read : Z -> option (nat -> Z -> M fsst (option (list Z)))) (dev_write : Z -> option (nat -> list Z -> M fsst Z)).

(** ** Path names *)

Definition DOT : list Z := [46].
Definition DOTDOT : list Z := [46; 46].

(** The end of sys_link: undo the count *)
Definition link_bad (ip : nat) : M fsst Z :=
  ilock (Some ip) ;;;
  updi ip (fun i => set_i_nlink (i16 (i_nlink i - 1)) i) ;;;
  iupdate ip ;;;
  iunlockput ip ;;;
  inl_ end_op ;;;
  ret (-1).

(** sys_link after its arguments *)
Definition link (old new : list Z) : M fsst Z :=
  inl_ begin_op ;;;
  let! r := namei dev_read old in
  match r with
  | None => inl_ end_op ;;; ret (-1)
  | Some ip =>
      ilock (Some ip) ;;;
      let! i := geti ip in
      if i_type i =? T_DIR then
        iunlockput ip ;;;
        inl_ end_op ;;;
        ret (-1)
      else
        updi ip (fun i => set_i_nlink (i16 (i_nlink i + 1)) i) ;;;
        iupdate ip ;;;
        iunlock (Some ip) ;;;
        let! rn := nameiparent dev_read new in
        let '(r, name) := rn in
        match r with
        | None => link_bad ip
        | Some dp =>
            ilock (Some dp) ;;;
            let! d := geti dp in
            let! i := geti ip in
            let! bad :=
              (if negb (i_dev d =? i_dev i) then ret true
               else let! r := dirlink dev_read dev_write dp name (i_inum i) in ret (r <? 0)) in
            if (bad : bool) then
              iunlockput dp ;;;
              link_bad ip
            else
              iunlockput dp ;;;
              iput ip ;;;
              inl_ end_op ;;;
              ret 0
        end
  end.

Definition isdirempty (dp : nat) : M fsst bool :=
  let! d := geti dp in
  let! r := for_range (dir_slots (i_size d) - 2) 2 (fun k =>
    let! de := read_dirent dev_read "isdirempty: readi" dp (16 * Z.of_nat k) in
    ret (if negb (de_inum de =? 0) then Some tt else None)) in
  ret (match r with Some _ => false | None => true end).

(** [bad:] of sys_unlink *)
Definition unlink_bad (dp : nat) : M fsst Z :=
  iunlockput dp ;;;
  inl_ end_op ;;;
  ret (-1).

(** The entry at [off] in [dp] erased, and the link of [ip] dropped *)
Definition unlink_entry (dp ip : nat) (off : Z) : M fsst Z :=
  let! w := writei dev_write dp (replicate 16 0) off in
  if negb (w =? 16) then panic "unlink: writei"
  else
    let! i := geti ip in
    when (i_type i =? T_DIR)
      (updi dp (fun d => set_i_nlink (i16 (i_nlink d - 1)) d) ;;;
       iupdate dp) ;;;
    iunlockput dp ;;;
    updi ip (fun i => set_i_nlink (i16 (i_nlink i - 1)) i) ;;;
    iupdate ip ;;;
    iunlockput ip ;;;
    inl_ end_op ;;;
    ret 0.

(** sys_unlink after its argument; removeSwapFile repeats this code *)
Definition unlink (path : list Z) : M fsst Z :=
  inl_ begin_op ;;;
  let! rn := nameiparent dev_read path in
  let '(r, name) := rn in
  match r with
  | None => inl_ end_op ;;; ret (-1)
  | Some dp =>
      ilock (Some dp) ;;;
      if (namecmp name DOT =? 0) || (namecmp name DOTDOT =? 0) then unlink_bad dp
      else
        let! e := dirlookup dev_read dp name in
        match e with
        | None => unlink_bad dp
        | Some (ip, off) =>
            ilock (Some ip) ;;;
            let! i := geti ip in
            if i_nlink i <? 1 then panic "unlink: nlink < 1"
            else
              let! full := (if i_type i =? T_DIR then let! e := isdirempty ip in ret (negb e) else ret false) in
              if (full : bool) then
                iunlockput ip ;;;
                unlink_bad dp
              else unlink_entry dp ip off
        end
  end.

(** The new inode of create, in the directory [dp] *)
Definition create_new (dp : nat) (name : list Z) (type major minor : Z) : M fsst (option nat) :=
  let! d := geti dp in
  let! ip := ialloc (i_dev d) type in
  ilock (Some ip) ;;;
  updi ip (set_i_node major minor 1) ;;;
  iupdate ip ;;;
  let! i := geti ip in
  when (type =? T_DIR)
    (updi dp (fun d => set_i_nlink (i16 (i_nlink d + 1)) d) ;;;
     iupdate dp ;;;
     let! r := dirlink dev_read dev_write ip DOT (i_inum i) in
     if r <? 0 then panic "create dots"
     else
       let! r := dirlink dev_read dev_write ip DOTDOT (i_inum d) in
       if r <? 0 then panic "create dots" else skip) ;;;
  let! r := dirlink dev_read dev_write dp name (i_inum i) in
  if r <? 0 then panic "create: dirlink"
  else
    iunlockput dp ;;;
    ret (Some ip).

Definition create (path : list Z) (type major minor : Z) : M fsst (option nat) :=
  let! rn := nameiparent dev_read path in
  let '(r, name) := rn in
  match r with
  | None => ret None
  | Some dp =>
      ilock (Some dp) ;;;
      let! e := dirlookup dev_read dp name in
      match e with
      | Some (ip, _) =>
          iunlockput dp ;;;
          ilock (Some ip) ;;;
          let! i := geti ip in
          if (type =? T_FILE) && (i_type i =? T_FILE) then ret (Some ip)
          else iunlockput ip ;;; ret None
      | None => create_new dp name type major minor
      end
  end.

(** sys_mkdir and sys_mknod after their arguments *)
Definition make (path : list Z) (type major minor : Z) : M fsst Z :=
  let! r := create path type major minor in
  match r with
  | None => inl_ end_op ;;; ret (-1)
  | Some ip => iunlockput ip ;;; inl_ end_op ;;; ret 0
  end.

(** The inode of sys_open, locked; the transaction ends where there is none *)
Definition open_inode (path : list Z) (omode : Z) : M fsst (option nat) :=
  inl_ begin_op ;;;
  if negb (Z.land omode O_CREATE =? 0) then
    let! r := create path T_FILE 0 0 in
    match r with
    | None => inl_ end_op ;;; ret None
    | Some ip => ret (Some ip)
    end
  else
    let! r := namei dev_read path in
    match r with
    | None => inl_ end_op ;;; ret None
    | Some ip =>
        ilock (Some ip) ;;;
        let! i := geti ip in
        if (i_type i =? T_DIR) && negb (omode =? O_RDONLY) then
          iunlockput ip ;;;
          inl_ end_op ;;;
          ret None
        else ret (Some ip)
    end.

(** The directory of sys_chdir *)
Definition chdir_inode (path : list Z) : M fsst (option nat) :=
  let! r := namei dev_read path in
  match r with
  | None => inl_ end_op ;;; ret None
  | Some ip =>
      ilock (Some ip) ;;;
      let! i := geti ip in
      if negb (i_type i =? T_DIR) then
        iunlockput ip ;;;
        inl_ end_op ;;;
        ret None
      else
        iunlock (Some ip) ;;;
        let! cwd := gets f_cwd in
        iput cwd ;;;
        inl_ end_op ;;;
        ret (Some ip)
  end.

(** ** Swap files (end of fs.c) *)

Definition DIGITS : nat := 14.

(** "/.swap" and the pid, in [path[DIGITS]]: the characters before the NUL *)
Definition SWAP_PREFIX : list Z := [47; 46; 115; 119; 97; 112].
Fixpoint before_nul (l : list Z) : list Z :=
  match l with [] => [] | c :: l' => if c =? 0 then [] else c :: before_nul l' end.
Definition swap_path (pid : Z) : option (list Z) :=
  match itoa pid (replicate (DIGITS - 6) 0) with
  | Some b => Some (SWAP_PREFIX ++ before_nul b)
  | None => None
  end.

(** createSwapFile: the open file *)
Definition swap_create (pid : Z) : M flst nat :=
  match swap_path pid with
  | None => fault
  | Some path =>
      infsst (inl_ begin_op) ;;;
      let! ip := infsst (create path T_FILE 0 0) in
      infsst (iunlock ip) ;;;
      let! f := filealloc in
      match f with
      | None => panic "no slot for files on /store"
      | Some f =>
          updf f (fun x => mkFile FD_INODE (fd_ref x) true true (fd_pipe x) ip 0) ;;;
          infsst (inl_ end_op) ;;;
          ret f
      end
  end.

(** removeSwapFile after it has closed the file *)
Definition swap_unlink (pid : Z) : M flst Z :=
  match swap_path pid with
  | None => fault
  | Some path => infsst (unlink path)
  end.

(** A program of the file layer that does not sleep *)
Definition now {S A} (p : prog S A) : M S A :=
  let! r := run_until p in
  match r with inl a => ret a | inr _ => nofuel end.

Definition real_filesys : FileSys flst := {|
  fs_setoff f off := updf f (set_fd_off off);
  fs_fileread f n := now (fileread dev_read 1 f n);
  fs_filewrite f l := now (filewrite dev_write 1 f l);
  fs_filedup := filedup;
  fs_fileclose := File.fileclose;
  fs_namei cwd path := infsst (match cwd with Some c => modify (set_f_cwd c) | None => skip end ;;; namei dev_read path);
  fs_idup ip := infsst (idup ip);
  fs_iput ip := infsst (iput ip);
  fs_ilock ip := infsst (ilock (Some ip));
  fs_iunlockput ip := infsst (iunlockput ip);
  fs_readi ip off n := infsst (let! l := readi dev_read ip off n in
                               ret (match l with Some l => (Z.of_nat (length l), l) | None => (-1, []) end));
  fs_begin_op := infsst (inl_ begin_op);
  fs_end_op := infsst (inl_ end_op);
  fs_iinit dev := infsst (iinit dev);
  fs_initlog dev := infsst (inl_ (initlog dev));
  fs_swap_create := swap_create;
  fs_swap_unlink := swap_unlink |}.

End devices.

(** ** System calls *)

Section calls.
Context {img : Image}.
Variable sel : selection.
Variables me ts_addr : Z.
Variable fuel : nat.  (* bounds the sleeps of a pipe *)
Context (dev_read : Z -> option (nat -> Z -> M fsst (option (list Z)))) (dev_write : Z -> option (nat -> list Z -> M fsst Z)).
Notation kfl := (kst flst).
#[local] Instance fsys : FileSys flst := real_filesys dev_read dev_write.

(** The fields of myproc() that the file layer reads *)
Definition sync : M kfl unit :=
  let! i := curproc in
  let! pr := getp i in
  infs (modify (set_fl_killed (p_killed pr)) ;;;
        infsst (modify (fun s => match p_cwd pr with Some c => set_f_cwd c s | None => s end)) ;;;
        infsst (inbc (modify (fun b => mkBst (bs_disk b) (bs_writes b) (bs_lock b) (bs_bufs b) (p_pid pr))))).
Definition infile {A} (m : M flst A) : M kfl A := sync ;;; infs m.
Definition inpath {A} (m : M fsst A) : M kfl A := infile (infsst m).

(** A program of the file layer as one of the kernel *)
Fixpoint file_prog {A} (q : prog flst A) : prog kfl A :=
  match q with
  | PRet a => PRet a
  | PAct m k => PAct (infile m) (fun b => file_prog (k b))
  | PSwtch k => PSwtch (file_prog k)
  end.

Definition argfd (n : Z) : M kfl (option (nat * nat)) :=
  let! r := argint n in
  match r with
  | None => ret None
  | Some fd =>
      if (fd <? 0) || (Z.of_nat NOFILE <=? fd) then ret None
      else
        let! i := curproc in
        let! pr := getp i in
        ret (match p_ofile pr !! Z.to_nat fd with Some (Some f) => Some (Z.to_nat fd, f) | _ => None end)
  end.

Definition set_ofile (fd : nat) (v : option nat) : M kfl unit :=
  let! i := curproc in
  updp i (fun pr => set_p_ofile (<[fd := v]> (p_ofile pr)) pr).

Definition fdalloc (f : nat) : M kfl (option nat) :=
  let! i := curproc in
  for_range NOFILE 0 (fun fd =>
    let! pr := getp i in
    match p_ofile pr !! fd with
    | Some None => set_ofile fd (Some f) ;;; ret (Some fd)
    | Some (Some _) => ret None
    | None => fault
    end).

Definition sys_dup : M kfl Z :=
  let! r := argfd 0 in
  match r with
  | None => ret (-1)
  | Some (_, f) =>
      let! fd := fdalloc f in
      match fd with
      | None => ret (-1)
      | Some fd => infile (filedup f) ;;; ret (Z.of_nat fd)
      end
  end.

(** The arguments of read and write: the file, the buffer and its size *)
Definition rw_args : M kfl (option (nat * Z * Z)) :=
  let! r := argfd 0 in
  match r with
  | None => ret None
  | Some (_, f) =>
      let! n := argint 2 in
      match n with
      | None => ret None
      | Some n => let! p := argptr 1 n in ret (match p with Some p => Some (f, p, n) | None => None end)
      end
  end.

Definition sys_read : prog kfl Z :=
  do! a := act rw_args in
  match a with
  | None => PRet (-1)
  | Some (f, p, n) =>
      do! r := file_prog (fileread dev_read fuel f n) in
      act (kwrite p r.2) ;;?
      PRet r.1
  end.

Definition sys_write : prog kfl Z :=
  do! a := act rw_args in
  match a with
  | None => PRet (-1)
  | Some (f, p, n) =>
      do! x := act (infile (getf f)) in
      if negb (fd_writable x) then PRet (-1)
      else
        do! l := act (kread p (Z.to_nat n)) in
        file_prog (filewrite dev_write fuel f l)
  end.

Definition sys_close : M kfl Z :=
  let! r := argfd 0 in
  match r with
  | None => ret (-1)
  | Some (fd, f) =>
      set_ofile fd None ;;;
      sync ;;;
      Swap.fileclose f ;;;
      ret 0
  end.

(** struct stat: type at 0, dev at 4, ino at 8, nlink at 12, size at 16 *)
Definition put_stat (p : Z) (st : stat) : M kfl unit :=
  kwrite (p + 4) (bytes32 (u32 (st_dev st))) ;;;
  kwrite (p + 8) (bytes32 (st_ino st)) ;;;
  kwrite p (bytes16 (st_type st mod 65536)) ;;;
  kwrite (p + 12) (bytes16 (st_nlink st mod 65536)) ;;;
  kwrite (p + 16) (bytes32 (st_size st)).

Definition sys_fstat : M kfl Z :=
  let! r := argfd 0 in
  match r with
  | None => ret (-1)
  | Some (_, f) =>
      let! p := argptr 1 20 in
      match p with
      | None => ret (-1)
      | Some p =>
          let! st := infile (filestat f) in
          match st with
          | None => ret (-1)
          | Some st => put_stat p st ;;; ret 0
          end
      end
  end.

Definition sys_link : M kfl Z :=
  let! old := argstr 0 in
  match old with
  | None => ret (-1)
  | Some old =>
      let! new := argstr 1 in
      match new with
      | None => ret (-1)
      | Some new => inpath (link dev_read dev_write old new)
      end
  end.

Definition sys_unlink : M kfl Z :=
  let! path := argstr 0 in
  match path with
  | None => ret (-1)
  | Some path => inpath (unlink dev_read dev_write path)
  end.

Definition sys_open : M kfl Z :=
  let! path := argstr 0 in
  match path with
  | None => ret (-1)
  | Some path =>
      let! omode := argint 1 in
      match omode with
      | None => ret (-1)
      | Some omode =>
          let! r := inpath (open_inode dev_read dev_write path omode) in
          match r with
          | None => ret (-1)
          | Some ip =>
              let! f := infile filealloc in
              let! fd := (match f with Some f => fdalloc f | None => ret None end) in
              match f, fd with
              | Some f, Some fd =>
                  inpath (iunlock (Some ip) ;;; inl_ end_op) ;;;
                  infile (updf f (fun x => mkFile FD_INODE (fd_ref x) (Z.land omode O_WRONLY =? 0)
                    (negb (Z.land omode O_WRONLY =? 0) || negb (Z.land omode O_RDWR =? 0)) (fd_pipe x) (Some ip) 0)) ;;;
                  ret (Z.of_nat fd)
              | _, _ =>
                  match f with Some f => sync ;;; Swap.fileclose f | None => skip end ;;;
                  inpath (iunlockput ip ;;; inl_ end_op) ;;;
                  ret (-1)
              end
          end
      end
  end.

Definition sys_mkdir : M kfl Z :=
  inpath (inl_ begin_op) ;;;
  let! path := argstr 0 in
  match path with
  | None => inpath (inl_ end_op) ;;; ret (-1)
  | Some path => inpath (make dev_read dev_write path T_DIR 0 0)
  end.

Definition sys_mknod : M kfl Z :=
  inpath (inl_ begin_op) ;;;
  let! path := argstr 0 in
  let! major := (match path with Some _ => argint 1 | None => ret None end) in
  let! minor := (match major with Some _ => argint 2 | None => ret None end) in
  match path, major, minor with
  | Some path, Some major, Some minor => inpath (make dev_read dev_write path T_DEV (i16 major) (i16 minor))
  | _, _, _ => inpath (inl_ end_op) ;;; ret (-1)
  end.

Definition sys_chdir : M kfl Z :=
  let! i := curproc in
  inpath (inl_ begin_op) ;;;
  let! path := argstr 0 in
  match path with
  | None => inpath (inl_ end_op) ;;; ret (-1)
  | Some path =>
      let! r := inpath (chdir_inode dev_read path) in
      match r with
      | None => ret (-1)
      | Some ip => updp i (set_p_cwd (Some ip)) ;;; ret 0
      end
  end.

(** The loop of sys_exec over the user's argv: the pointers before the null one, [None] for -1 *)
Fixpoint exec_args (n : nat) (uargv : Z) : M kfl (option (list Z)) :=
  match n with
  | O => ret None
  | S n' =>
      let! uarg := fetchint uargv in
      match uarg with
      | None => ret None
      | Some uarg =>
          if uarg =? 0 then ret (Some [])
          else
            let! s := fetchstr (u32 uarg) in
            match s with
            | None => ret None
            | Some _ =>
                let! r := exec_args n' (u32 (uargv + 4)) in
                ret (cons (u32 uarg) <$> r)
            end
      end
  end.

Definition sys_exec : M kfl Z :=
  let! path := argstr 0 in
  match path with
  | None => ret (-1)
  | Some _ =>
      let! addr := argint 0 in
      let! uargv := argint 1 in
      match addr, uargv with
      | Some addr, Some uargv =>
          let! argv := exec_args MAXARG (u32 uargv) in
          match argv with
          | None => ret (-1)
          | Some argv => sync ;;; exec sel me ts_addr (u32 addr) argv
          end
      | _, _ => ret (-1)
      end
  end.

(** The new pipe in its page, and the two files *)
Definition pipealloc : M kfl (option (nat * nat)) :=
  let! f0 := infile filealloc in
  match f0 with
  | None => ret None
  | Some f0 =>
      let! f1 := infile filealloc in
      match f1 with
      | None => Swap.fileclose f0 ;;; ret None
      | Some f1 =>
          let! p := inmem kalloc in
          if p =? 0 then
            Swap.fileclose f0 ;;;
            Swap.fileclose f1 ;;;
            ret None
          else
            let! m := gets (fun s => km_mem (k_mem s)) in
            let! l := infile (gets fl_pipes) in
            infile (modify (set_fl_pipes (l ++ [(p, mkPst (Some (pipe_init (bytes_at m (p + 52) (Z.to_nat PIPESIZE)))) false [] [])]))) ;;;
            infile (updf f0 (fun x => mkFile FD_PIPE (fd_ref x) true false (length l) (fd_ip x) (fd_off x))) ;;;
            infile (updf f1 (fun x => mkFile FD_PIPE (fd_ref x) false true (length l) (fd_ip x) (fd_off x))) ;;;
            ret (Some (f0, f1))
      end
  end.

Definition sys_pipe : M kfl Z :=
  let! fd := argptr 0 8 in
  match fd with
  | None => ret (-1)
  | Some fd =>
      let! r := pipealloc in
      match r with
      | None => ret (-1)
      | Some (rf, wf) =>
          let! fd0 := fdalloc rf in
          let! fd1 := (match fd0 with Some _ => fdalloc wf | None => ret None end) in
          match fd0, fd1 with
          | Some fd0, Some fd1 =>
              kwrite fd (bytes32 (Z.of_nat fd0)) ;;;
              kwrite (fd + 4) (bytes32 (Z.of_nat fd1)) ;;;
              ret 0
          | _, _ =>
              match fd0 with Some fd0 => set_ofile fd0 None | None => skip end ;;;
              sync ;;;
              Swap.fileclose rf ;;;
              Swap.fileclose wf ;;;
              ret (-1)
          end
      end
  end.

(** The table of syscall.c *)
Definition file_calls : @filecalls flst :=
  mkFilecalls (act sys_pipe) sys_read (act sys_exec) (act sys_fstat) (act sys_chdir) (act sys_dup) (act sys_open) sys_write
    (act sys_mknod) (act sys_unlink) (act sys_link) (act sys_mkdir) (act sys_close).

End calls.
