(* ===== verification/Tx.v ===== *)
(** * Blocks in a transaction

    What the file system relies on between begin_op and end_op: a block that is read has the
    contents it was last given, a change that is handed to log_write is seen by later reads, and
    none of the calls panics as long as the operation stays within its share of the log.  [tx s held
    o n V]: the buffers [held] are locked, [o] operations are in progress, [n] more blocks may be
    logged, and the blocks outside the log area have the contents [V]. *)
From Stdlib Require Import ZArith Lia.
From stdpp Require Import base list numbers strings.
From S2P Require Import Prelude Block Bio BioSpec Log LogSpec.
Local Open Scope Z_scope.

(** ** log_write *)

Definition logged (B : list Z) (blk : Z) : list Z := if decide (blk ∈ B) then B else B ++ [blk].

Lemma elem_of_logged B blk x : x ∈ logged B blk <-> x = blk \/ x ∈ B.
Proof.
  unfold logged. case_decide; [naive_solver|]. rewrite elem_of_app, list_elem_of_singleton. tauto.
Qed.
Lemma length_logged B blk : (length (logged B blk) <= S (length B))%nat.
Proof. unfold logged. case_decide; [lia|]. rewrite length_app. simpl. lia. Qed.

(** The search for the block among those that are logged. *)
Lemma logged_search g b (B : list Z) blk : take (length B) (lh_block g) = B -> NoDup B ->
  for_range (length B) 0 (fun k => let! c := lh_at k in ret (if c =? blk then Some k else None)) (mkLst b g) =
    Ret (list_find (.= blk) B ≫= fun p => Some p.1) (mkLst b g).
Proof.
  intros Htk Hnd.
  assert (forall k c, B !! k = Some c -> lh_at k (mkLst b g) = Ret c (mkLst b g)) as Hat.
  { intros k c Hk. unfold lh_at. simpl. assert (lh_block g !! k = Some c) as ->; [|done].
    rewrite <- Htk in Hk. by apply lookup_take_Some in Hk as [? _]. }
  destruct (list_find (.= blk) B) as [[j x]|] eqn:E; simpl.
  - apply list_find_Some in E as (Hj & -> & Hlow). apply lookup_lt_Some in Hj as Hjl. apply (for_range_find _ _ _ _ j).
    + lia.
    + intros i Hi. destruct (lookup_lt_is_Some_2 B i) as [c Hc]; [lia|]. unfold bind. rewrite (Hat i c Hc).
      destruct (Z.eqb_spec c blk) as [->|]; [|done]. exfalso. apply (Hlow i blk); [done|lia|done].
    + unfold bind. rewrite (Hat j blk Hj). by rewrite Z.eqb_refl.
  - apply list_find_None in E. apply for_range_none. intros i Hi. destruct (lookup_lt_is_Some_2 B i) as [c Hc]; [lia|].
    unfold bind. rewrite (Hat i c Hc). destruct (Z.eqb_spec c blk) as [->|]; [|done]. exfalso.
    rewrite Forall_forall in E. eapply (E blk); [|done]. by eapply list_elem_of_lookup_2.
Qed.

Lemma log_write_logs i b s g B : bat s i b -> b_flags b = 2 \/ b_flags b = 6 -> log_ok g s B -> lg_lock g = false -> 1 <= lg_outstanding g ->
  Z.of_nat (length B) < lg_size g - 1 -> in_disk s (b_blockno b) -> b_blockno b < 2 ^ 31 ->
  (b_blockno b < lg_start g \/ lg_start g + lg_size g <= b_blockno b) ->
  exists g', log_write i (mkLst s g) = Ret tt (mkLst (setb i (set_b_flags 6 b) s) g') /\
    log_ok g' (setb i (set_b_flags 6 b) s) (logged B (b_blockno b)) /\ log_same g g'.
Proof.
  intros Hb Hfl [Hdev Hn Hbl Hlen Hsz Harea Hnd Hhome] Hlk Ho Hsm Hin Hbig Hout. unfold log_write, lget. unfold bind at 1, gets. cbn [ls_log].
  unfold in_disk in Hin. rewrite (proj2 (Z.leb_gt _ _)) by lia. rewrite (proj2 (Z.leb_gt _ _)) by lia. rewrite (proj2 (Z.ltb_ge _ _)) by lia. cbn [orb].
  unfold bind at 1. unfold log_acquire, lift, spin_acquire. cbn [ls_log]. rewrite Hlk. unfold bind at 1. unfold inb at 1, lift. cbn [ls_b set_ls_log]. rewrite (getb_run i b) by done.
  set (g1 := set_lg_lock true g). change (set_ls_b s (set_ls_log g1 (mkLst s g))) with (mkLst s g1). rewrite i32_small by lia. rewrite Hn, Nat2Z.id.
  unfold bind at 1. rewrite (logged_search g1 s B (b_blockno b)) by done.
  assert (Z.lor (b_flags b) B_DIRTY = 6) as Ef by (by destruct Hfl as [-> | ->]).
  unfold logged. destruct (list_find (.= b_blockno b) B) as [[j x]|] eqn:E; cbn [mbind option_bind fst].
  - apply list_find_Some in E as (Hj & -> & _). apply lookup_lt_Some in Hj as Hjl.
    rewrite decide_True by (by eapply list_elem_of_lookup_2).
    unfold bind at 1, lh_set. rewrite (proj2 (Nat.ltb_lt _ _)) by (unfold LOGSIZE in *; lia). unfold lmod, modify. cbn [ls_log ls_b set_ls_log].
    assert (<[j := b_blockno b]> (lh_block g1) = lh_block g) as Eins.
    { apply list_insert_id. rewrite <- Hbl in Hj. by apply lookup_take_Some in Hj as [? _]. }
    rewrite Eins. rewrite (proj2 (Z.eqb_neq _ _)) by lia. unfold bind, when, skip, ret, inb, lift. cbn [ls_b]. rewrite (updb_run i b) by done. rewrite Ef.
    eexists. split; [reflexivity|]. split; [|by destruct g]. by constructor.
  - apply list_find_None in E. assert (b_blockno b ∉ B) as Hnin by (intros Hx; rewrite Forall_forall in E; by apply (E _ Hx)).
    rewrite decide_False by done. unfold bind at 1, lh_set. rewrite (proj2 (Nat.ltb_lt _ _)) by (unfold LOGSIZE in *; lia). unfold lmod, modify. cbn [ls_log ls_b set_ls_log].
    rewrite Z.eqb_refl. unfold bind, when, inb, lift. cbn [ls_b set_ls_log]. rewrite (updb_run i b) by done. rewrite Ef.
    eexists. split; [reflexivity|]. split; [|by destruct g]. constructor; cbn [lg_dev lh_n lh_block lg_size lg_start ls_log set_ls_b set_ls_log set_lg_lock set_lh_n set_lh_block]; try done.
    + rewrite length_app. simpl. lia.
    + rewrite length_app. simpl. unfold LOGSIZE in *. rewrite Nat.add_1_r, (take_S_r _ _ (b_blockno b)) by (by rewrite list_lookup_insert_eq by (rewrite Hlen; lia)).
      by rewrite take_insert_ge, Hbl by done.
    + by rewrite length_insert.
    + rewrite length_app. simpl. lia.
    + apply NoDup_app. split; [done|]. split; [by intros x Hx ->%list_elem_of_singleton|apply NoDup_singleton].
    + intros x. rewrite elem_of_app, list_elem_of_singleton. intros [Hx| ->]; [by apply Hhome|]. done.
Qed.

(** ** Transactions *)

(** The log area and the number of blocks of the disk. *)
Record geom := mkGeom { gm_start : Z; gm_size : Z; gm_len : Z }.

Section tx.
Context (G : geom).

Definition dblk (x : Z) : Prop := 0 <= x < gm_len G /\ x < 2 ^ 31 /\ (x < gm_start G \/ gm_start G + gm_size G <= x).

Record tx (s : lst) (held : list (nat * Z)) (o : Z) (n : nat) (V : Z -> list Z) : Prop := {
  tx_cache : exists l B, cinv (ls_b s) l held.*1 /\ pinned (ls_b s) B /\ log_ok (ls_log s) (ls_b s) B /\
    Z.of_nat (length B + n) < gm_size G /\ (length B + n <= 28)%nat /\ (o = 0 -> B = []);
  tx_geom : lg_start (ls_log s) = gm_start G /\ lg_size (ls_log s) = gm_size G /\ Z.of_nat (length (bs_disk (ls_b s))) = gm_len G;
  tx_free : lg_lock (ls_log s) = false /\ lg_committing (ls_log s) = false;
  tx_out : lg_outstanding (ls_log s) = o /\ 0 <= o <= 3 /\ ((0 < n)%nat -> 1 <= o);
  tx_held i blk : (i, blk) ∈ held -> dblk blk /\ exists b, bat (ls_b s) i b /\ b_blockno b = blk /\
    (b_flags b = 2 -> b_data b = disk_at (ls_b s) blk);
  tx_nodup : NoDup held.*1;
  tx_view x : dblk x -> view (ls_b s) x = V x }.

Lemma tx_ext s held o n V V' : tx s held o n V -> (forall x, dblk x -> V' x = V x) -> tx s held o n V'.
Proof. intros [] HV. constructor; try done. intros x Hx. by rewrite HV, tx_view0. Qed.

Lemma tx_weaken s held o n m V : tx s held o n V -> (m <= n)%nat -> tx s held o m V.
Proof.
  intros [(l & B & Hi & Hp & Ho & Hz & Hl & HB) ? ? (? & ? & ?) ? ? ?] Hm. constructor; try done.
  - exists l, B. split; [done|]. split; [done|]. split; [done|]. split; [lia|]. split; [lia|done].
  - split; [done|]. split; [done|]. intros. apply H1. lia.
Qed.

(** A buffer that is held has the contents of its block. *)
Lemma tx_buf s held o n V i blk : tx s held o n V -> (i, blk) ∈ held ->
  exists b, bat (ls_b s) i b /\ b_blockno b = blk /\ b_data b = V blk /\ (b_flags b = 2 \/ b_flags b = 6) /\ (i < NBUF)%nat.
Proof.
  intros [(l & B & Hi & _) ? ? ? Hh _ Hv] Hin. destruct (Hh i blk Hin) as (Hd & b & Hb & Hn & _). exists b.
  assert (i ∈ held.*1) as Hih by (apply list_elem_of_fmap; by exists (i, blk)).
  destruct (held_facts (ls_b s) l held.*1 Hi i b Hih Hb) as (_ & Hfl & _ & _ & _ & _ & Hho).
  pose proof (held_lt (ls_b s) l held.*1 Hi i Hih) as Hlt. rewrite Hn in Hho.
  split; [done|]. split; [done|]. split; [|done]. rewrite <- (Hv blk Hd). symmetry.
  eapply (view_cached (ls_b s) l held.*1 Hi i b); [done|done|done|lia].
Qed.

Lemma wp_tx_getb s held o n V i blk (Q : buf -> lst -> Prop) : tx s held o n V -> (i, blk) ∈ held ->
  (forall b, b_data b = V blk -> Q b s) -> wp (inb (getb i)) Q s.
Proof.
  intros Htx Hin HQ. destruct (tx_buf _ _ _ _ _ _ _ Htx Hin) as (b & Hb & _ & Hd & _).
  unfold wp, inb, lift. rewrite (getb_run i b) by done. destruct s. by apply HQ.
Qed.

Lemma bread_tx s held o n V blk : tx s held o n V -> dblk blk -> (length held <= 1)%nat -> (forall i, (i, blk) ∉ held) ->
  wp (inb (bread 1 blk)) (fun i s' => tx s' ((i, blk) :: held) o n V) s.
Proof.
  intros Htx Hd Hlen Hnh. pose proof Htx as [(l & B & Hi & Hp & Ho & Hz & Hl & HB) (G1 & G2 & G3) Hfr Hout Hh Hnd Hv].
  destruct s as [s g]. cbn [ls_b ls_log] in *. apply wp_lift. cbn [ls_b].
  eapply wp_mono; [apply (bread_spec s l held.*1 B Hi Hp blk)|].
  - destruct Hd. lia.
  - intros i b Hin%list_elem_of_fmap Hb E. destruct Hin as ([i' blk'] & -> & Hin). destruct (Hh _ _ Hin) as (_ & b' & Hb' & En & _).
    simpl in Hb. assert (b = b') as -> by (unfold bat in *; congruence). apply (Hnh i'). by rewrite <- E, En.
  - destruct (free_exists s l held.*1 B Hi Hp) as (i & b & ? & ? & ?); [rewrite length_map; unfold NBUF; lia|]. exists i, b. auto.
  - intros i s' [(b & Hb & Hdev & Hbk & Hdat & Hfl) Hnew Hinv' Hv' [Hd' Hw' _] Hp' Hfrm].
    assert (length (bs_disk s') = length (bs_disk s)) as El by congruence.
    constructor; cbn [ls_b ls_log set_ls_b]; try done.
    + exists l, B. split; [exact Hinv'|]. split; [done|]. split; [by eapply log_ok_ext|]. done.
    + by rewrite El.
    + intros j blk' [[= -> ->]|Hj]%elem_of_cons.
      * split; [done|]. exists b. split; [done|]. split; [done|]. intros Hf. rewrite Hdat. unfold disk_at. rewrite Hd'. apply (view_clean s l held.*1 B); [done..| |].
        -- intros j c Hj%list_elem_of_fmap Hc E. destruct Hj as ([j' blk'] & -> & Hin). destruct (Hh _ _ Hin) as (_ & b' & Hb' & En & _).
           simpl in Hc. assert (c = b') as -> by (unfold bat in *; congruence). apply (Hnh j'). by rewrite <- E, En.
        -- intros HB'. rewrite decide_True in Hfl by done. lia.
      * destruct (Hh j blk' Hj) as (Hdj & c & Hc & En & Hcl). split; [done|]. exists c. unfold bat, disk_at in *.
        rewrite Hfrm, Hd'; [done|]. intros ->. apply Hnew. apply list_elem_of_fmap. by exists (i, blk').
    + simpl. by constructor.
    + intros x Hx. by rewrite Hv', Hv.
Qed.

Lemma brelse_tx s held o n V i blk : tx s ((i, blk) :: held) o n V ->
  wp (inb (brelse i)) (fun _ s' => tx s' held o n V) s.
Proof.
  intros [(l & B & Hi & Hp & Ho & Hz & Hl & HB) (G1 & G2 & G3) Hfr Hout Hh Hnd Hv]. destruct s as [s g]. cbn [ls_b ls_log] in *.
  destruct (Hh i blk) as (Hd & b & Hb & En & Hcl); [by left|]. apply NoDup_cons in Hnd as [Hni Hnd].
  destruct (brelse_spec s l (i :: held.*1) B i b Hi Hp) as (s' & E & Hinv' & [Hd' Hw' _] & Hsd & Hp' & Hv'); [by left|done|by rewrite En|].
  assert (filter (.≠ i) (i :: held.*1) = held.*1) as Ef.
  { rewrite filter_cons_False by auto. by apply filter_ne_id. }
  rewrite Ef in Hinv'. apply wp_lift. cbn [ls_b]. eapply wp_intro; [exact E|].
  constructor; cbn [ls_b ls_log set_ls_b]; try done.
  - eexists _, B. split; [exact Hinv'|]. split; [done|]. split; [eapply log_ok_ext; [|exact Ho]; by rewrite Hd'|]. done.
  - by rewrite Hd'.
  - intros j blk' Hj. destruct (Hh j blk') as (Hdj & c & Hc & Ec & Hcc); [by right|]. split; [done|].
    assert (j < NBUF)%nat as Hjl by (apply (ci_held s l _ Hi); right; apply list_elem_of_fmap; by exists (j, blk')).
    destruct (same_data_bat s s' j c Hsd Hjl Hc) as (c' & Hc' & E1 & E2 & E3 & E4). exists c'. split; [done|]. split; [congruence|].
    intros Hf. rewrite E4. unfold disk_at. rewrite Hd'. apply Hcc. congruence.
  - intros x Hx. by rewrite Hv', Hv.
Qed.

Definition vupd (V : Z -> list Z) (blk : Z) (d : list Z) : Z -> list Z := fun x => if decide (x = blk) then d else V x.

(** A change of a held buffer that is logged. *)
Lemma modify_tx s held o n V i blk f : tx s held o (S n) V -> (i, blk) ∈ held ->
  wp (inb (updb i (fun b => set_b_data (f (b_data b)) b))) (fun _ s1 =>
    wp (log_write i) (fun _ s2 => tx s2 held o n (vupd V blk (f (V blk)))) s1) s.
Proof.
  intros Htx Hin. destruct (tx_buf _ _ _ _ _ _ _ Htx Hin) as (b & Hb & Hbk & Hdat & Hfl & Hlt).
  pose proof Htx as [(l & B & Hi & Hp & Ho & Hz & Hl & HB) (G1 & G2 & G3) (F1 & F2) (O1 & O2 & O3) Hh Hnd Hv].
  destruct s as [s g]. cbn [ls_b ls_log] in *. destruct (Hh i blk Hin) as (Hd & _). pose proof Hd as (D1 & D2 & D3).
  assert (i ∈ held.*1) as Hih by (apply list_elem_of_fmap; by exists (i, blk)).
  destruct (set_data_spec s l held.*1 B Hi Hp i b Hih Hb (f (b_data b))) as (E1 & Hi1 & Hp1 & Hv1).
  apply wp_lift. cbn [ls_b]. eapply wp_intro; [erewrite updb_run by done; by erewrite updb_run in E1 by done|].
  set (b1 := set_b_data (f (b_data b)) b) in *. set (s1 := setb i b1 s) in *. assert (bat s1 i b1) as Hb1 by (by apply (bat_setb i b)).
  change (set_ls_b s1 (mkLst s g)) with (mkLst s1 g). assert (bs_disk s1 = bs_disk s) as Ed1 by done.
  assert (log_ok g s1 B) as Ho1 by (by apply (log_ok_ext g s)).
  destruct (log_write_logs i b1 s1 g B Hb1) as (g' & E2 & Hok' & (L1 & L2 & L3 & L4 & L5 & L6)); try done.
  { rewrite O1. apply O3. lia. }
  { rewrite G2. lia. }
  { change (b_blockno b1) with (b_blockno b). rewrite Hbk. unfold in_disk. rewrite Ed1. lia. }
  { change (b_blockno b1) with (b_blockno b). by rewrite Hbk. }
  { change (b_blockno b1) with (b_blockno b). rewrite Hbk, G1, G2. done. }
  eapply wp_intro; [exact E2|]. change (b_blockno b1) with (b_blockno b) in *. rewrite Hbk in *.
  destruct (pin_spec s1 l held.*1 B Hi1 Hp1 i b1 Hih Hb1 (logged B blk)) as (_ & Hi2 & Hp2 & Hv2).
  { intros x. rewrite elem_of_logged. change (b_blockno b1) with (b_blockno b). by rewrite Hbk. }
  pose proof (length_logged B blk). constructor; cbn [ls_b ls_log]; try done.
  - exists l, (logged B blk). split; [done|]. split; [done|]. split; [done|]. split; [lia|]. split; [lia|]. intros E0. specialize (O3 ltac:(lia)). lia.
  - split; [congruence|]. split; [congruence|]. done.
  - split; congruence.
  - split; [congruence|]. split; [done|]. intros _. apply O3. lia.
  - intros j blk' Hj. destruct (Hh j blk' Hj) as (Hdj & c & Hc & Ec & Hcc). split; [done|]. destruct (decide (j = i)) as [->|Hne].
    + exists (set_b_flags 6 b1). split; [by eapply bat_setb|]. assert (c = b) as -> by (unfold bat in *; congruence). split; [simpl; congruence|done].
    + exists c. split; [|done]. apply bat_setb_ne; [done|]. by apply bat_setb_ne.
  - intros x Hx. destruct (Hx) as ((X0 & _) & _). rewrite Hv2, Hv1 by done. unfold vupd. rewrite Hdat. case_decide; [done|]. by apply Hv.
Qed.

(** ** begin_op and end_op *)

Lemma begin_tx s V : 28 < gm_size G -> tx s [] 0 0 V -> wp begin_op (fun _ s' => tx s' [] 1 28 V) s.
Proof.
  intros Hg [(l & B & Hi & Hp & Ho & Hz & Hl & HB) (G1 & G2 & G3) (F1 & F2) (O1 & O2 & O3) Hh Hnd Hv].
  specialize (HB eq_refl). subst B. destruct s as [s g]. cbn [ls_b ls_log] in *.
  pose proof (lo_n g s [] Ho) as Hn. cbn in Hn. eapply wp_intro; [rewrite begin_op_run by (try done; unfold LOGSIZE; lia); by rewrite Hn, O1|].
  destruct Ho as [H1 H2 H3 H4 H5 H6 H7 H8]. constructor; cbn [ls_b ls_log lg_start lg_size lg_lock lg_committing lg_outstanding set_lg_lock set_lg_outstanding]; try done.
  exists l, []. split; [done|]. split; [done|]. split; [by constructor|]. split; [simpl; lia|]. split; [simpl; lia|]. done.
Qed.

(** Committing gives the blocks outside the log area what the cache holds for them. *)
Lemma commit_view g s B x : log_ok g s B -> (x < lg_start g \/ lg_start g + lg_size g <= x) -> vreplay (commit_writes g B (view s)) (view s) x = view s x.
Proof.
  intros [Hdev Hn Hbl Hlen Hsz Harea Hnd Hhome] Hx. unfold commit_writes. rewrite !vreplay_app. simpl. rewrite decide_False by lia.
  assert (vreplay (log_writes g B (view s)) (view s) x = view s x) as E1.
  { apply vreplay_notin. rewrite fst_log_writes. apply not_in_map. unfold slot. lia. }
  destruct (decide (x ∈ B)) as [Hin|Hin].
  - apply vreplay_in; [by rewrite fst_new_blocks|]. unfold new_blocks. apply list_elem_of_fmap. by exists x.
  - rewrite vreplay_notin by (by rewrite fst_new_blocks). rewrite decide_False by lia. done.
Qed.

Lemma commit_tx s g B : log_ok g s B -> cache s B ->
  wp commit (fun _ st => ls_log st = set_lh_n 0 g /\ cache (ls_b st) [] /\ length (bs_disk (ls_b st)) = length (bs_disk s) /\
    forall x, 0 <= x -> (x < lg_start g \/ lg_start g + lg_size g <= x) -> view (ls_b st) x = view s x) (mkLst s g).
Proof.
  intros Hok Hc. destruct B as [|b B].
  - pose proof (lo_n g s [] Hok) as Hn. simpl in Hn. unfold commit, lget. apply wp_bind, wp_gets. simpl. rewrite Hn. simpl. split; [by destruct g; simpl in *; subst|]. done.
  - eapply wp_mono; [by apply (commit_spec g s (b :: B))|]. intros [] st (E1 & E2 & E3 & _ & E4). split; [done|]. split; [done|].
    split; [by rewrite E3, length_replay|]. intros x Hx0 Hx. rewrite E4 by done. by apply commit_view.
Qed.

Lemma end_tx s n V : tx s [] 1 n V -> wp end_op (fun _ s' => tx s' [] 0 0 V) s.
Proof.
  intros [(l & B & Hi & Hp & Ho & Hz & Hl & HB) (G1 & G2 & G3) (F1 & F2) (O1 & O2 & O3) Hh Hnd Hv]. destruct s as [s g]. cbn [ls_b ls_log] in *.
  set (g1 := set_lg_lock false (set_lg_committing true (set_lg_outstanding 0 g))).
  assert (log_ok g1 s B) as Ho1 by (destruct Ho; by constructor).
  pose proof (commit_tx s g1 B Ho1 (ex_intro _ l (conj Hi Hp))) as Hc. apply wp_elim in Hc as ([] & [s2 g2] & Ec & Eg & [l2 [Hi2 Hp2]] & El & Ev).
  cbn [ls_b ls_log] in *. eapply wp_intro.
  { unfold end_op. unfold bind at 1. unfold log_acquire at 1, lift, spin_acquire. cbn [ls_log]. rewrite F1.
    unfold bind at 1, lget, gets. unfold bind at 1, lmod, modify. simpl. rewrite F2, O1. change (i32 (1 - 1)) with 0. unfold bind at 1, gets. simpl.
    unfold bind at 1, lmod, modify. simpl. unfold bind at 1. unfold log_release, lift, spin_release. simpl. unfold bind at 1.
    match goal with |- context [commit ?st] => replace st with (mkLst s g1) by (unfold g1; by destruct g) end. rewrite Ec, Eg. reflexivity. }
  destruct Ho as [H1 H2 H3 H4 H5 H6 H7 H8]. constructor; simpl; try done.
  - exists l2, []. split; [done|]. split; [done|]. split; [constructor; simpl; try done; try lia; [constructor|by intros b ?%not_elem_of_nil]|].
    simpl. split; [lia|]. split; [lia|done].
  - by rewrite El.
  - lia.
  - by intros i blk ?%not_elem_of_nil.
  - intros x Hx. pose proof Hx as ((X0 & _) & _ & X1). rewrite Ev by (simpl; rewrite ?G1, ?G2; done). by apply Hv.
Qed.

End tx.
