(* ===== verification/FsInv.v ===== *)
(** * The structure of the file system

    What the disk and the inode cache describe together: the block that an inode refers to at each
    place ([ref]), the contents of each block of a file ([dat]), with zeroes where no block has been
    allocated, and the invariant [finv] of a set [T] of files: their blocks are data blocks,
    marked as used in the bitmap, and no block is referred to from two places. *)
From Stdlib Require Import ZArith Lia.
From stdpp Require Import base list numbers strings.
From S2P Require Import Prelude Block Bio Log Fs Tx.
Local Open Scope Z_scope.

Definition zeros : list Z := replicate 512 0.

Lemma filter_same {A} (P Q : A -> Prop) `{!forall x, Decision (P x), !forall x, Decision (Q x)} (l : list A) :
  (forall x, x ∈ l -> P x <-> Q x) -> filter P l = filter Q l.
Proof.
  induction l as [|x l IH]; intros HPQ; [done|]. rewrite !filter_cons, IH by (intros y Hy; apply HPQ; by right).
  assert (P x <-> Q x) as Hx by (apply HPQ; by left). destruct (decide (P x)), (decide (Q x)); tauto.
Qed.

(** ** The bitmap *)

Lemma length_set_bit d bi : length (set_bit d bi) = length d.
Proof. apply length_insert. Qed.

Lemma bit_set_bit d bi bj : (bi < 8 * length d)%nat -> bit_of (set_bit d bi) bj = if decide (bj = bi) then true else bit_of d bj.
Proof.
  intros Hi. unfold bit_of, set_bit. assert (bi / 8 < length d)%nat as Hd by (apply Nat.Div0.div_lt_upper_bound; lia).
  destruct (decide ((bj / 8 = bi / 8)%nat)) as [E|E].
  - rewrite E, nth_lookup, list_lookup_insert_eq by done. cbn [from_option id]. rewrite Z.lor_spec, Z.pow2_bits_eqb by lia. case_decide as Hb.
    + subst bj. by rewrite Z.eqb_refl, orb_true_r.
    + rewrite (proj2 (Z.eqb_neq _ _)), orb_false_r; [done|]. intros Ez. apply Hb.
      rewrite (Nat.div_mod_eq bj 8), (Nat.div_mod_eq bi 8). lia.
  - rewrite nth_lookup, list_lookup_insert_ne by done. rewrite <- nth_lookup. case_decide as Hb; [by subst bj|done].
Qed.

Section inv.
Context (G : geom) (sb : superblock).

Definition bbit (b : Z) : nat := Z.to_nat (b mod BPB).
Definition used (V : Z -> list Z) (b : Z) : bool := bit_of (V (BBLOCK b sb)) (bbit b).

Definition in_fs (b : Z) : Prop := 0 <= b < sb_size sb.
Definition inum_ok (inum : Z) : Prop := 0 <= inum < sb_ninodes sb.

(** A block of the data area. *)
Definition data (b : Z) : Prop :=
  0 < b < sb_size sb /\ dblk G b /\ (forall c, in_fs c -> BBLOCK c sb <> b) /\ (forall n, inum_ok n -> IBLOCK n sb <> b).

Record layout : Prop := {
  ly_bmap b : in_fs b -> BBLOCK b sb = b / BPB + sb_bmapstart sb /\ dblk G (BBLOCK b sb);
  ly_inode n : inum_ok n -> dblk G (IBLOCK n sb) /\ forall b, in_fs b -> BBLOCK b sb <> IBLOCK n sb;
  ly_small : sb_size sb < 2 ^ 31 }.

Context (Hly : layout).

Lemma bbit_lt b : (bbit b < 4096)%nat.
Proof. unfold bbit, BPB, BSIZE. pose proof (Z.mod_pos_bound b (512 * 8)). lia. Qed.

(** Two blocks with the same bit are the same. *)
Lemma bbit_inj b c : in_fs b -> in_fs c -> BBLOCK b sb = BBLOCK c sb -> bbit b = bbit c -> b = c.
Proof.
  intros Hb Hc. rewrite (proj1 (ly_bmap Hly b Hb)), (proj1 (ly_bmap Hly c Hc)). unfold bbit, BPB, BSIZE. intros E1 E2.
  rewrite (Z.div_mod b (512 * 8)), (Z.div_mod c (512 * 8)) by lia.
  pose proof (Z.mod_pos_bound b (512 * 8)). pose proof (Z.mod_pos_bound c (512 * 8)). lia.
Qed.

(** ** Blocks of files *)

(** Places: 0-11 the direct blocks, 12 the indirect block, 13-140 the blocks it lists. *)
Definition ref (V : Z -> list Z) (I : list inode) (ip k : nat) : Z :=
  match I !! ip with
  | Some i => if (k <=? NDIRECT)%nat then nth k (i_addrs i) 0
              else let a := nth NDIRECT (i_addrs i) 0 in
                   if a =? 0 then 0 else get32 (V a) (4 * (k - 13))
  | None => 0
  end.

(** The place of block [m] of a file. *)
Definition place (m : nat) : nat := if (m <? NDIRECT)%nat then m else S m.

Definition dat (V : Z -> list Z) (I : list inode) (ip m : nat) : list Z :=
  let a := ref V I ip (place m) in if a =? 0 then zeros else V a.

Record inode_ok (i : inode) : Prop := {
  io_dev : i_dev i = 1;
  io_inum : inum_ok (i_inum i);
  io_type : i_type i <> T_DEV;
  io_addrs : length (i_addrs i) = 13%nat;
  io_size : 0 <= i_size i <= MAXFILE * BSIZE }.

Record finv (V : Z -> list Z) (I : list inode) (T : list nat) : Prop := {
  fv_len x : dblk G x -> length (V x) = 512%nat;
  fv_free b : in_fs b -> used V b = false -> data b;
  fv_ino ip : ip ∈ T -> exists i, I !! ip = Some i /\ inode_ok i;
  fv_ref ip k : ip ∈ T -> (k <= 140)%nat -> ref V I ip k <> 0 -> data (ref V I ip k) /\ used V (ref V I ip k) = true;
  fv_inj ip k ip' k' : ip ∈ T -> ip' ∈ T -> (k <= 140)%nat -> (k' <= 140)%nat -> ref V I ip k <> 0 ->
    ref V I ip k = ref V I ip' k' -> ip = ip' /\ k = k' }.

(** The number of free blocks. *)
Definition nfree (V : Z -> list Z) : nat := length (filter (fun b => used V (Z.of_nat b) = false) (seq 0 (Z.to_nat (sb_size sb)))).

(** *** Changes that do not concern the files *)

Lemma place_le m : (m < 140)%nat -> (place m <= 140)%nat /\ place m <> 12%nat.
Proof. intros Hm. unfold place, NDIRECT. destruct (Nat.ltb_spec m 12); lia. Qed.

(** [V'] differs from [V] only in blocks that no file refers to. *)
Lemma ref_frame V V' I T ip k : finv V I T -> ip ∈ T -> (k <= 140)%nat ->
  (forall k', (k' <= 140)%nat -> ref V I ip k' <> 0 -> V' (ref V I ip k') = V (ref V I ip k')) -> ref V' I ip k = ref V I ip k.
Proof.
  intros Hf Hip Hk HV. unfold ref in *. destruct (I !! ip) as [i|] eqn:Ei; [|done]. destruct (k <=? NDIRECT)%nat; [done|].
  destruct (Z.eqb_spec (nth NDIRECT (i_addrs i) 0) 0) as [E|E]; [done|]. specialize (HV NDIRECT ltac:(unfold NDIRECT; lia)). rewrite Nat.leb_refl in HV.
  by rewrite HV.
Qed.

Lemma dat_frame V V' I T ip m : finv V I T -> ip ∈ T -> (m < 140)%nat ->
  (forall k', (k' <= 140)%nat -> ref V I ip k' <> 0 -> V' (ref V I ip k') = V (ref V I ip k')) -> dat V' I ip m = dat V I ip m.
Proof.
  intros Hf Hip Hm HV. destruct (place_le m Hm) as [Hp _]. unfold dat. rewrite (ref_frame V V' I T) by done.
  destruct (Z.eqb_spec (ref V I ip (place m)) 0); [done|]. by apply HV.
Qed.

Lemma finv_frame V V' I T : finv V I T -> (forall x, dblk G x -> length (V' x) = 512%nat) ->
  (forall b, in_fs b -> used V' b = used V b) ->
  (forall ip k, ip ∈ T -> (k <= 140)%nat -> ref V' I ip k = ref V I ip k) -> finv V' I T.
Proof.
  intros Hf Hl Hu Hr. constructor; [done| |apply Hf| |].
  - intros b Hb. rewrite Hu by done. by apply (fv_free _ _ _ Hf).
  - intros ip k Hip Hk. rewrite Hr by done. intros Hn. destruct (fv_ref _ _ _ Hf ip k Hip Hk Hn) as [Hd Hus]. split; [done|].
    rewrite Hu; [done|]. destruct Hd as [? _]. unfold in_fs. lia.
  - intros ip k ip' k' Hip Hip' Hk Hk'. rewrite !Hr by done. by apply (fv_inj _ _ _ Hf).
Qed.

(** A block outside the data area of which no file depends. *)
Lemma used_vupd V x d b : (forall c, in_fs c -> BBLOCK c sb <> x) -> in_fs b -> used (vupd V x d) b = used V b.
Proof. intros Hx Hb. unfold used, vupd. rewrite decide_False; [done|]. by apply Hx. Qed.

(** *** Allocation *)

Definition valloc (V : Z -> list Z) (blk : Z) : Z -> list Z :=
  vupd (vupd V (BBLOCK blk sb) (set_bit (V (BBLOCK blk sb)) (bbit blk))) blk zeros.

Section alloc.
Context (V : Z -> list Z) (I : list inode) (T : list nat) (blk : Z).
Context (Hf : finv V I T) (Hb : in_fs blk) (Hfree : used V blk = false).

Lemma fresh_data : data blk.
Proof. by apply (fv_free _ _ _ Hf). Qed.

Lemma used_valloc b : in_fs b -> used (valloc V blk) b = if decide (b = blk) then true else used V b.
Proof.
  intros Hbb. destruct fresh_data as (_ & _ & Hnb & _). unfold valloc. rewrite used_vupd by done. unfold used, vupd.
  destruct (decide (BBLOCK b sb = BBLOCK blk sb)) as [E|E].
  - rewrite bit_set_bit by (rewrite (fv_len _ _ _ Hf) by (by apply ly_bmap); apply bbit_lt). rewrite <- E. case_decide as Ebit; case_decide as Eb; try done.
    + destruct Eb. by apply bbit_inj.
    + destruct Ebit. by subst.
  - rewrite decide_False; [done|]. by intros ->.
Qed.

Lemma length_valloc x : dblk G x -> length (valloc V blk x) = 512%nat.
Proof.
  intros Hx. unfold valloc, vupd. case_decide; [apply length_replicate|]. case_decide; [|by apply (fv_len _ _ _ Hf)].
  rewrite length_set_bit. apply (fv_len _ _ _ Hf). by apply ly_bmap.
Qed.

Lemma valloc_data x : data x -> x <> blk -> valloc V blk x = V x.
Proof.
  intros (_ & _ & Hx & _) Hne. unfold valloc, vupd. rewrite decide_False by done. rewrite decide_False; [done|].
  intros E. by apply (Hx blk Hb).
Qed.

Lemma fresh_unref ip k : ip ∈ T -> (k <= 140)%nat -> ref V I ip k <> blk.
Proof.
  intros Hip Hk E. destruct (fv_ref _ _ _ Hf ip k Hip Hk) as [_ Hu].
  - rewrite E. destruct fresh_data as [? _]. lia.
  - rewrite E in Hu. congruence.
Qed.

Lemma valloc_ref ip k : ip ∈ T -> (k <= 140)%nat -> ref V I ip k <> 0 -> valloc V blk (ref V I ip k) = V (ref V I ip k).
Proof. intros Hip Hk Hn. apply valloc_data; [by apply (fv_ref _ _ _ Hf)|]. by apply fresh_unref. Qed.

Lemma ref_valloc ip k : ip ∈ T -> (k <= 140)%nat -> ref (valloc V blk) I ip k = ref V I ip k.
Proof. intros Hip Hk. apply (ref_frame V _ I T); [done..|]. intros. by apply valloc_ref. Qed.

Lemma dat_valloc ip m : ip ∈ T -> (m < 140)%nat -> dat (valloc V blk) I ip m = dat V I ip m.
Proof. intros Hip Hm. apply (dat_frame V _ I T); [done..|]. intros. by apply valloc_ref. Qed.

Lemma finv_valloc : finv (valloc V blk) I T.
Proof.
  constructor.
  - apply length_valloc.
  - intros b Hbb. rewrite used_valloc by done. case_decide; [done|]. by apply (fv_free _ _ _ Hf).
  - apply Hf.
  - intros ip k Hip Hk. rewrite ref_valloc by done. intros Hn. destruct (fv_ref _ _ _ Hf ip k Hip Hk Hn) as [Hd Hu]. split; [done|].
    rewrite used_valloc; [by case_decide|]. destruct Hd as [? _]. unfold in_fs. lia.
  - intros ip k ip' k' Hip Hip' Hk Hk'. rewrite !ref_valloc by done. by apply (fv_inj _ _ _ Hf).
Qed.

Lemma nfree_valloc : nfree V = S (nfree (valloc V blk)).
Proof.
  unfold nfree. unfold in_fs in Hb. set (n := Z.to_nat (sb_size sb)). set (j := Z.to_nat blk). assert (j < n)%nat as Hj by lia.
  assert (Z.of_nat j = blk) as Ej by lia. replace (seq 0 n) with (seq 0 j ++ j :: seq (S j) (n - S j)).
  2:{ replace n with (j + S (n - S j))%nat at 2 by lia. rewrite seq_app. done. }
  assert (forall l : list nat, (forall x, x ∈ l -> x <> j /\ (x < n)%nat) ->
    filter (fun b => used (valloc V blk) (Z.of_nat b) = false) l = filter (fun b => used V (Z.of_nat b) = false) l) as Hl.
  { intros l Hl. apply filter_same. intros x Hx%Hl. rewrite used_valloc by (unfold in_fs; lia).
    rewrite decide_False by lia. done. }
  rewrite !filter_app, filter_cons_True, filter_cons_False.
  - rewrite !Hl; [rewrite !length_app; simpl; lia| |]; intros x Hx%elem_of_seq; lia.
  - rewrite Ej, used_valloc, decide_True by done. done.
  - by rewrite Ej.
Qed.

End alloc.

(** *** A new reference *)

Definition reref (V : Z -> list Z) (I : list inode) (V' : Z -> list Z) (I' : list inode) (T : list nat) (ip k : nat) (blk : Z) : Prop :=
  forall ip' k', ip' ∈ T -> (k' <= 140)%nat -> ref V' I' ip' k' = if decide (ip' = ip /\ k' = k) then blk else ref V I ip' k'.

Record allocated (V : Z -> list Z) (I : list inode) (T : list nat) (blk : Z) : Prop := {
  al_data : data blk;
  al_used : used V blk = true;
  al_zero : V blk = zeros;
  al_unref ip k : ip ∈ T -> (k <= 140)%nat -> ref V I ip k <> blk }.

Lemma allocated_valloc V I T blk : finv V I T -> in_fs blk -> used V blk = false -> allocated (valloc V blk) I T blk.
Proof.
  intros Hf Hb Hu. constructor.
  - by apply (fresh_data V I T).
  - rewrite (used_valloc V I T) by done. by rewrite decide_True.
  - unfold valloc, vupd. by rewrite decide_True.
  - intros ip k Hip Hk. rewrite (ref_valloc V I T) by done. by apply (fresh_unref V I T).
Qed.

Section reref.
Context (V : Z -> list Z) (I : list inode) (V' : Z -> list Z) (I' : list inode) (T : list nat) (ip k : nat) (blk : Z).
Context (Hf : finv V I T) (Hip : ip ∈ T) (Hk : (k <= 140)%nat) (H0 : ref V I ip k = 0) (Ha : allocated V I T blk).
Context (Hr : reref V I V' I' T ip k blk).

Lemma finv_reref : (forall x, dblk G x -> length (V' x) = 512%nat) -> (forall b, in_fs b -> used V' b = used V b) ->
  (forall ip', ip' ∈ T -> exists i, I' !! ip' = Some i /\ inode_ok i) -> finv V' I' T.
Proof.
  intros Hl Hu Hi. destruct Ha as [Hd Hus Hz Hun]. constructor; [done| |done| |].
  - intros b Hb. rewrite Hu by done. by apply (fv_free _ _ _ Hf).
  - intros ip' k' Hip' Hk'. rewrite Hr by done. case_decide as E.
    + intros _. split; [done|]. rewrite Hu; [done|]. destruct Hd as [? _]. unfold in_fs. lia.
    + intros Hn. destruct (fv_ref _ _ _ Hf ip' k' Hip' Hk' Hn) as [Hd' Hu']. split; [done|]. rewrite Hu; [done|]. destruct Hd' as [? _]. unfold in_fs. lia.
  - intros ip1 k1 ip2 k2 H1 H2 K1 K2. rewrite !Hr by done. case_decide as E1; case_decide as E2.
    + naive_solver.
    + intros _ E. symmetry in E. by apply Hun in E.
    + intros _ E. by apply Hun in E.
    + by apply (fv_inj _ _ _ Hf).
Qed.

Lemma dat_reref : V' blk = V blk ->
  (forall ip' m, ip' ∈ T -> (m < 140)%nat -> ref V I ip' (place m) <> 0 -> V' (ref V I ip' (place m)) = V (ref V I ip' (place m))) ->
  forall ip' m, ip' ∈ T -> (m < 140)%nat -> dat V' I' ip' m = dat V I ip' m.
Proof.
  intros Hb HV ip' m Hip' Hm. destruct (place_le m Hm) as [Hp _]. unfold dat. cbv zeta. rewrite !Hr by done. case_decide as E.
  - destruct E as [-> Ek]. rewrite Ek, H0, Z.eqb_refl. destruct Ha as [[? _] _ Hz _]. rewrite (proj2 (Z.eqb_neq blk 0)) by lia.
    congruence.
  - destruct (Z.eqb_spec (ref V I ip' (place m)) 0); [done|]. by apply HV.
Qed.

End reref.

(** In the inode. *)
Definition put_addr (I : list inode) (ip k : nat) (blk : Z) : list inode := alter (fun i => set_i_addrs (<[k := blk]> (i_addrs i)) i) ip I.

Lemma get32_zeros off : get32 zeros off = 0.
Proof.
  assert (forall k, byte zeros k = 0) as E.
  { intros k. unfold byte, zeros. destruct (nth_in_or_default k (replicate 512 0) 0) as [Hin|E]; [|by rewrite E].
    apply list_elem_of_In, elem_of_replicate in Hin as [-> _]. done. }
  unfold get32. by rewrite !E.
Qed.

Lemma reref_direct V I T ip k blk : finv V I T -> ip ∈ T -> (k <= 12)%nat -> ref V I ip k = 0 -> allocated V I T blk ->
  reref V I V (put_addr I ip k blk) T ip k blk.
Proof.
  intros Hf Hip Hk H0 Ha ip' k' Hip' Hk'. destruct (fv_ino _ _ _ Hf ip Hip) as (i & Hi & [_ _ _ Hl _]).
  unfold ref, put_addr. rewrite list_lookup_alter. case_decide as E1.
  - subst ip'. rewrite Hi. simpl fmap. cbv iota beta. cbn [i_addrs set_i_addrs]. unfold ref in H0. rewrite Hi in H0. unfold NDIRECT in *.
    rewrite (proj2 (Nat.leb_le k 12) Hk) in H0.
    assert (forall j, nth j (<[k:=blk]> (i_addrs i)) 0 = if decide (j = k) then blk else nth j (i_addrs i) 0) as Hn.
    { intros j. rewrite !nth_lookup. case_decide; [subst; by rewrite list_lookup_insert_eq by lia|by rewrite list_lookup_insert_ne]. }
    rewrite !Hn. destruct (Nat.leb_spec k' 12) as [Hk12|Hk12].
    { destruct (decide (k' = k)), (decide (ip = ip ∧ k' = k)); tauto. }
    rewrite (decide_False (P := ip = ip ∧ k' = k)) by lia. destruct (decide (12%nat = k)) as [<-|]; [|done].
    destruct Ha as [[? _] _ Hz _]. rewrite (proj2 (Z.eqb_neq blk 0)) by lia. rewrite Hz, H0. simpl. apply get32_zeros.
  - rewrite decide_False by naive_solver. done.
Qed.

(** In the indirect block. *)
Lemma reref_indirect V I T ip k blk : finv V I T -> ip ∈ T -> (13 <= k <= 140)%nat -> ref V I ip 12 <> 0 -> 0 <= blk < 2 ^ 32 ->
  reref V I (vupd V (ref V I ip 12) (put32 (V (ref V I ip 12)) (4 * (k - 13)) blk)) I T ip k blk.
Proof.
  intros Hf Hip Hk Ha Hblk ip' k' Hip' Hk'. set (a := ref V I ip 12) in *.
  destruct (fv_ref _ _ _ Hf ip 12 Hip ltac:(lia) Ha) as [(_ & Hda & _) _]. fold a in Hda. pose proof (fv_len _ _ _ Hf a Hda) as Hla.
  unfold ref at 1. destruct (fv_ino _ _ _ Hf ip' Hip') as (i' & Hi' & _). rewrite Hi'. unfold NDIRECT.
  destruct (Nat.leb_spec k' 12) as [Hk12|Hk12].
  { rewrite decide_False by lia. unfold ref. rewrite Hi'. unfold NDIRECT. by rewrite (proj2 (Nat.leb_le k' 12)). }
  assert (ref V I ip' 12 = nth 12 (i_addrs i') 0) as E12 by (unfold ref; rewrite Hi'; done). rewrite <- E12.
  assert (ref V I ip' k' = if ref V I ip' 12 =? 0 then 0 else get32 (V (ref V I ip' 12)) (4 * (k' - 13))) as Ek'.
  { rewrite E12. unfold ref. rewrite Hi'. unfold NDIRECT. by rewrite (proj2 (Nat.leb_gt k' 12)). }
  destruct (decide (ip' = ip)) as [->|Hne].
  - fold a. rewrite (proj2 (Z.eqb_neq a 0) Ha). unfold vupd. rewrite decide_True by done. case_decide as E.
    + destruct E as [_ ->]. rewrite get_put32 by lia. by apply u32_small.
    + rewrite get_put32_ne by lia. rewrite Ek'. fold a. by rewrite (proj2 (Z.eqb_neq a 0) Ha).
  - rewrite decide_False by naive_solver. rewrite Ek'. destruct (Z.eqb_spec (ref V I ip' 12) 0) as [|Hn]; [done|].
    unfold vupd. rewrite decide_False; [done|]. intros E. destruct (fv_inj _ _ _ Hf ip' 12 ip 12 Hip' Hip); [lia|lia|done|done|done].
Qed.

(** *** Writing the contents of a block *)

Section contents.
Context (V : Z -> list Z) (I : list inode) (T : list nat) (ip m : nat) (d : list Z).
Context (Hf : finv V I T) (Hip : ip ∈ T) (Hm : (m < 140)%nat) (Hn : ref V I ip (place m) <> 0) (Hd : length d = 512%nat).
Let a := ref V I ip (place m).
Let V' := vupd V a d.

Lemma contents_data : data a /\ used V a = true.
Proof. apply (fv_ref _ _ _ Hf); [done|by apply place_le|done]. Qed.

Lemma ref_contents ip' k : ip' ∈ T -> (k <= 140)%nat -> ref V' I ip' k = ref V I ip' k.
Proof.
  intros Hip' Hk. destruct (place_le m Hm) as [Hp Hp12]. unfold V', ref at 1, vupd. destruct (fv_ino _ _ _ Hf ip' Hip') as (i & Hi & _).
  unfold ref. rewrite Hi. unfold NDIRECT. destruct (Nat.leb_spec k 12); [done|].
  destruct (Z.eqb_spec (nth 12 (i_addrs i) 0) 0) as [|E]; [done|]. rewrite decide_False; [done|]. intros Ea. apply Hp12.
  symmetry. eapply (fv_inj _ _ _ Hf ip' 12 ip (place m)); try done; [lia|..]; unfold ref at 1; rewrite Hi; done.
Qed.

Lemma finv_contents : finv V' I T.
Proof.
  destruct contents_data as [(_ & Hda & Hnb & _) _]. apply (finv_frame V); [done| | |].
  - intros x Hx. unfold V', vupd. case_decide; [done|]. by apply (fv_len _ _ _ Hf).
  - intros b Hb. unfold V'. by apply used_vupd.
  - intros. by apply ref_contents.
Qed.

Lemma dat_contents ip' m' : ip' ∈ T -> (m' < 140)%nat -> dat V' I ip' m' = if decide (ip' = ip /\ m' = m) then d else dat V I ip' m'.
Proof.
  intros Hip' Hm'. destruct (place_le m Hm) as [Hp _]. destruct (place_le m' Hm') as [Hp' _]. unfold dat. cbv zeta. rewrite !ref_contents by done.
  unfold V', vupd. destruct (decide (ip' = ip /\ m' = m)) as [E|E].
  - destruct E as [-> ->]. rewrite (proj2 (Z.eqb_neq _ 0) Hn). by rewrite decide_True.
  - destruct (Z.eqb_spec (ref V I ip' (place m')) 0) as [|E0]; [done|]. rewrite decide_False; [done|]. intros Ea. apply E.
    destruct (fv_inj _ _ _ Hf ip' (place m') ip (place m)) as [-> Epl]; [done..|]. split; [done|].
    unfold place in Epl. destruct (Nat.ltb_spec m' NDIRECT), (Nat.ltb_spec m NDIRECT); lia.
Qed.

End contents.

(** *** Writing other blocks, and changing inodes elsewhere *)

Lemma meta_frame V I T x d : finv V I T -> ~ data x -> (forall c, in_fs c -> BBLOCK c sb <> x) -> length d = 512%nat ->
  finv (vupd V x d) I T /\ (forall ip k, ip ∈ T -> (k <= 140)%nat -> ref (vupd V x d) I ip k = ref V I ip k) /\
  (forall ip m, ip ∈ T -> (m < 140)%nat -> dat (vupd V x d) I ip m = dat V I ip m).
Proof.
  intros Hf Hx Hb Hd.
  assert (forall ip k, ip ∈ T -> (k <= 140)%nat -> ref V I ip k <> 0 -> vupd V x d (ref V I ip k) = V (ref V I ip k)) as Hv.
  { intros ip k Hip Hk Hn. unfold vupd. rewrite decide_False; [done|]. intros E. apply Hx. rewrite <- E. by apply (fv_ref _ _ _ Hf). }
  assert (forall ip k, ip ∈ T -> (k <= 140)%nat -> ref (vupd V x d) I ip k = ref V I ip k) as Hr.
  { intros ip k Hip Hk. apply (ref_frame V _ I T); [done..|]. intros. by apply Hv. }
  split; [|split; [done|]].
  - apply (finv_frame V); [done| | |done].
    + intros y Hy. unfold vupd. case_decide; [done|]. by apply (fv_len _ _ _ Hf).
    + intros b Hbb. by apply used_vupd.
  - intros ip m Hip Hm. apply (dat_frame V _ I T); [done..|]. intros. by apply Hv.
Qed.

(** The inodes of [T] keep the addresses of their blocks. *)
Definition same_blocks (I I' : list inode) (T : list nat) : Prop :=
  forall ip, ip ∈ T -> exists i i', I !! ip = Some i /\ I' !! ip = Some i' /\ i_addrs i' = i_addrs i /\ inode_ok i'.

Lemma same_blocks_frame V I I' T : finv V I T -> same_blocks I I' T ->
  finv V I' T /\ (forall ip k, ip ∈ T -> ref V I' ip k = ref V I ip k) /\ (forall ip m, ip ∈ T -> dat V I' ip m = dat V I ip m).
Proof.
  intros Hf Hs. assert (forall ip k, ip ∈ T -> ref V I' ip k = ref V I ip k) as Hr.
  { intros ip k Hip. destruct (Hs ip Hip) as (i & i' & Ei & Ei' & Ea & _). unfold ref. by rewrite Ei, Ei', Ea. }
  split; [|split; [done|]].
  - destruct Hf as [F1 F2 F3 F4 F5]. constructor; [done|done| | |].
    + intros ip Hip. destruct (Hs ip Hip) as (i & i' & Ei & Ei' & _ & Hok). by exists i'.
    + intros ip k Hip Hk. rewrite Hr by done. by apply F4.
    + intros ip k ip' k' Hip Hip' Hk Hk'. rewrite !Hr by done. by apply F5.
  - intros ip m Hip. unfold dat. by rewrite Hr.
Qed.

Lemma same_blocks_update V I T ip i i' : finv V I T -> I !! ip = Some i -> i_addrs i' = i_addrs i -> inode_ok i' -> same_blocks I (<[ip := i']> I) T.
Proof.
  intros Hf Hi Ha Hok ip' Hip'. destruct (decide (ip' = ip)) as [->|Hne].
  - exists i, i'. rewrite list_lookup_insert_eq by (by eapply lookup_lt_Some). done.
  - destruct (fv_ino _ _ _ Hf ip' Hip') as (j & Hj & Hokj). exists j, j. by rewrite list_lookup_insert_ne.
Qed.

End inv.
