(* ===== verification/FsSpec.v ===== *)
(** * Specifications of the block and inode layer of src/fs.c

    balloc, bmap, readi, writei, iupdate and the locks of inodes, on the structure of [FsInv] and
    inside the transactions of [Tx]. *)
From Stdlib Require Import ZArith Lia.
From stdpp Require Import base list numbers strings.
From S2P Require Import Prelude Block Bio BioSpec Log LogSpec Tx Fs FsInv.
Local Open Scope Z_scope.

Section spec.
Context (G : geom) (sb : superblock) (Hly : layout G sb).

(** A state of the file system in a transaction. *)
Record ftx (s : fsst) (held : list (nat * Z)) (o : Z) (n : nat) (V : Z -> list Z) (I : list inode) : Prop := {
  ft_tx : tx G (f_l s) held o n V;
  ft_ino : f_inodes s = I;
  ft_sb : f_sb s = sb;
  ft_lock : f_ilock s = false }.

Lemma ftx_weaken s held o n m V I : ftx s held o n V I -> (m <= n)%nat -> ftx s held o m V I.
Proof. intros [] Hm. constructor; try done. by eapply tx_weaken. Qed.

Lemma ftx_log s l held held' o o' n n' V V' I : ftx s held o n V I -> tx G l held' o' n' V' -> ftx (set_f_l l s) held' o' n' V' I.
Proof. intros [] Ht. by constructor. Qed.

Lemma wp_inl {A} (m : M lst A) (Q : A -> fsst -> Prop) s : wp m (fun a l => Q a (set_f_l l s)) (f_l s) -> wp (inl_ m) Q s.
Proof. apply wp_lift. Qed.

Lemma wp_inbc {A} (m : M bst A) (Q : A -> fsst -> Prop) s : wp (inb m) (fun a l => Q a (set_f_l l s)) (f_l s) -> wp (inbc m) Q s.
Proof. apply wp_lift. Qed.

Lemma bread_ftx s held o n V I blk : ftx s held o n V I -> dblk G blk -> (length held <= 1)%nat -> (forall i, (i, blk) ∉ held) ->
  wp (inbc (bread 1 blk)) (fun i s' => ftx s' ((i, blk) :: held) o n V I) s.
Proof.
  intros Hs Hd Hl Hh. apply wp_inbc. eapply wp_mono; [apply (bread_tx G _ _ _ _ _ _ (ft_tx _ _ _ _ _ _ Hs)); done|].
  intros i l Ht. by eapply ftx_log.
Qed.

Lemma brelse_ftx s held o n V I i blk : ftx s ((i, blk) :: held) o n V I -> wp (inbc (brelse i)) (fun _ s' => ftx s' held o n V I) s.
Proof.
  intros Hs. apply wp_inbc. eapply wp_mono; [apply (brelse_tx G _ _ _ _ _ _ _ (ft_tx _ _ _ _ _ _ Hs))|].
  intros [] l Ht. by eapply ftx_log.
Qed.

Lemma bdata_ftx s held o n V I i blk (Q : list Z -> fsst -> Prop) : ftx s held o n V I -> (i, blk) ∈ held -> Q (V blk) s -> wp (bdata i) Q s.
Proof.
  intros Hs Hi HQ. unfold bdata. apply wp_bind, wp_inbc. eapply wp_tx_getb; [apply Hs|done|]. intros b ->. apply wp_ret. by destruct s.
Qed.

Lemma modify_ftx s held o n V I i blk f : ftx s held o (S n) V I -> (i, blk) ∈ held ->
  wp (bupd i f) (fun _ s1 => wp (inl_ (log_write i)) (fun _ s2 => ftx s2 held o n (vupd V blk (f (V blk))) I) s1) s.
Proof.
  intros Hs Hi. apply wp_inbc. eapply wp_mono; [apply (modify_tx G _ _ _ _ _ _ _ f (ft_tx _ _ _ _ _ _ Hs) Hi)|].
  intros [] l Hl. apply wp_inl. eapply wp_mono; [exact Hl|]. intros [] l' Hl'. exact (ftx_log s l' _ _ _ _ _ _ _ _ _ Hs Hl').
Qed.

(** ** balloc *)

Lemma bzero_spec s held o n V I blk : ftx s held o (S n) V I -> dblk G blk -> (length held <= 1)%nat -> (forall i, (i, blk) ∉ held) ->
  wp (bzero 1 blk) (fun _ s' => ftx s' held o n (vupd V blk zeros) I) s.
Proof.
  intros Hs Hd Hl Hh. unfold bzero. apply wp_bind. eapply wp_mono; [by apply (bread_ftx s held)|]. intros bp s1 H1.
  apply wp_bind. eapply wp_mono; [apply (modify_ftx s1 _ o n V I bp blk _ H1); by left|]. intros [] s2 H2.
  apply wp_bind. eapply wp_mono; [exact H2|]. intros [] s3 H3. by eapply brelse_ftx.
Qed.

Lemma nfree_pos V : (0 < nfree sb V)%nat -> exists b, in_fs sb b /\ used sb V b = false.
Proof.
  unfold nfree. destruct (filter _ _) as [|b l] eqn:E; [simpl; lia|]. intros _. assert (b ∈ b :: l) as Hb by (by left).
  rewrite <- E in Hb. apply list_elem_of_filter in Hb as [Hu Hb%elem_of_seq]. exists (Z.of_nat b). split; [unfold in_fs; lia|done].
Qed.

Section balloc.
Context (V : Z -> list Z) (I : list inode) (T : list nat) (held : list (nat * Z)) (o : Z) (n : nat).
Context (Hf : finv G sb V I T) (Hlen : (length held <= 1)%nat).
Context (Hheld : forall i x, (i, x) ∈ held -> data G sb x /\ used sb V x = true).

Lemma bbit_add b (bi : nat) : b mod BPB = 0 -> (bi < 4096)%nat -> bbit (b + Z.of_nat bi) = bi /\ (b + Z.of_nat bi) / BPB = b / BPB.
Proof. unfold bbit, BPB, BSIZE. intros Hb Hbi. split; Z.to_euclidean_division_equations; lia. Qed.

Lemma BBLOCK_add b (bi : nat) : b mod BPB = 0 -> (bi < 4096)%nat -> BBLOCK (b + Z.of_nat bi) sb = BBLOCK b sb.
Proof. intros Hb Hbi. unfold BBLOCK. by rewrite (proj2 (bbit_add b bi Hb Hbi)). Qed.

(** The scan of one block of the bitmap. *)
Lemma balloc_scan_spec s b bp : ftx s ((bp, BBLOCK b sb) :: held) o (S (S n)) V I -> in_fs sb b -> b mod BPB = 0 ->
  wp (balloc_scan 1 b bp) (fun r s' => match r with
    | Some blk => in_fs sb blk /\ used sb V blk = false /\ ftx s' held o n (valloc sb V blk) I
    | None => s' = s /\ forall blk, in_fs sb blk -> b <= blk < b + BPB -> used sb V blk = true
    end) s.
Proof.
  intros Hs Hb Hmod. unfold balloc_scan. apply wp_bind, wp_gets. rewrite (ft_sb _ _ _ _ _ _ Hs).
  set (N := Z.to_nat (Z.min BPB (sb_size sb - b))). assert (N <= 4096)%nat as HN by (unfold N, BPB, BSIZE; lia). unfold in_fs in Hb.
  apply (wp_for_range (fun k s' => s' = s /\ forall j, (j < k)%nat -> used sb V (b + Z.of_nat j) = true)).
  - split; [done|lia].
  - intros k s' Hk [-> Hlow]. apply wp_bind. eapply bdata_ftx; [exact Hs|by left|].
    destruct (bbit_add b k Hmod ltac:(lia)) as [Ebit _]. pose proof (BBLOCK_add b k Hmod ltac:(lia)) as Eblk.
    assert (bit_of (V (BBLOCK b sb)) k = used sb V (b + Z.of_nat k)) as -> by (unfold used; by rewrite Ebit, Eblk).
    destruct (used sb V (b + Z.of_nat k)) eqn:Eu.
    { apply wp_ret. split; [done|]. intros j Hj. destruct (decide (j = k)) as [->|]; [done|]. apply Hlow. lia. }
    assert (in_fs sb (b + Z.of_nat k)) as Hin by (unfold in_fs; lia).
    destruct (fv_free _ _ _ _ _ Hf _ Hin Eu) as (_ & Hdb & _ & _).
    apply wp_bind. eapply wp_mono; [apply (modify_ftx s _ o (S n) V I bp (BBLOCK b sb) _ Hs); by left|]. intros [] s1 H1.
    apply wp_bind. eapply wp_mono; [exact H1|]. intros [] s2 H2. apply wp_bind. eapply wp_mono; [by eapply brelse_ftx|]. intros [] s3 H3.
    apply wp_bind. eapply wp_mono; [apply (bzero_spec s3 held o n _ I _ H3 Hdb Hlen)|].
    { intros i Hi. destruct (Hheld _ _ Hi). congruence. }
    intros [] s4 H4. apply wp_ret. split; [done|]. split; [done|]. unfold valloc. by rewrite Ebit, Eblk.
  - intros s' [-> Hall]. split; [done|]. intros blk Hblk Hr. replace blk with (b + Z.of_nat (Z.to_nat (blk - b))) by lia. apply Hall.
    unfold N, in_fs in *. lia.
Qed.

Lemma balloc_spec s : ftx s held o (S (S n)) V I -> (0 < nfree sb V)%nat ->
  wp (balloc 1) (fun blk s' => in_fs sb blk /\ used sb V blk = false /\ ftx s' held o n (valloc sb V blk) I) s.
Proof.
  intros Hs Hfree. unfold balloc. apply wp_bind, wp_gets. rewrite (ft_sb _ _ _ _ _ _ Hs). apply wp_bind.
  apply (wp_for_range (fun k s' => ftx s' held o (S (S n)) V I /\ forall blk, in_fs sb blk -> blk < Z.of_nat k * BPB -> used sb V blk = true)).
  - split; [done|]. intros blk [? _]. lia.
  - intros k s1 Hk [H1 Hlow]. set (b := Z.of_nat k * BPB). assert (in_fs sb b) as Hb by (unfold in_fs, b, BPB, BSIZE in *; Z.to_euclidean_division_equations; lia).
    assert (b mod BPB = 0) as Hmod by (unfold b; apply Z.mod_mul; done). destruct (ly_bmap _ _ Hly b Hb) as [_ Hd].
    apply wp_bind. eapply wp_mono; [apply (bread_ftx s1 held); [done|done|done|]|].
    { intros i Hi. destruct (Hheld _ _ Hi) as [(_ & _ & Hnb & _) _]. by apply (Hnb b). }
    intros bp s2 H2. apply wp_bind. eapply wp_mono; [by apply (balloc_scan_spec s2 b bp)|]. intros [blk|] s3; [intros H3; by apply wp_ret, wp_ret|].
    intros [-> Hall]. apply wp_bind. eapply wp_mono; [exact (brelse_ftx _ _ _ _ _ _ _ _ H2)|]. intros [] s4 H4. apply wp_ret. split; [done|].
    intros blk Hblk Hlt. destruct (Z_lt_le_dec blk b) as [|Hge]; [by apply Hlow|]. apply Hall; [done|]. unfold b in *. lia.
  - intros s1 [H1 Hall]. exfalso. destruct (nfree_pos V Hfree) as (blk & Hb & Hu). rewrite Hall in Hu; [done|done|].
    unfold in_fs, BPB, BSIZE in *. Z.to_euclidean_division_equations; lia.
Qed.

End balloc.

(** ** bmap *)

(** The files have got more blocks, at most [c] from the free ones; their contents are the same. *)
Record grown (V : Z -> list Z) (I : list inode) (V' : Z -> list Z) (I' : list inode) (T : list nat) (c : nat) : Prop := {
  gr_finv : finv G sb V' I' T;
  gr_dat ip m : ip ∈ T -> (m < 140)%nat -> dat V' I' ip m = dat V I ip m;
  gr_ref ip k : ip ∈ T -> (k <= 140)%nat -> ref V I ip k <> 0 -> ref V' I' ip k = ref V I ip k;
  gr_ino j i : I !! j = Some i -> exists l, I' !! j = Some (set_i_addrs l i);
  gr_free : (nfree sb V <= nfree sb V' + c)%nat }.

Lemma set_i_addrs_id i : set_i_addrs (i_addrs i) i = i.
Proof. by destruct i. Qed.

Lemma set_i_size_id i : set_i_size (i_size i) i = i.
Proof. by destruct i. Qed.

Lemma grown_refl V I T : finv G sb V I T -> grown V I V I T 0.
Proof. intros Hf. constructor; try done; [|lia]. intros j i Hj. exists (i_addrs i). by rewrite set_i_addrs_id. Qed.

Lemma grown_trans V I V1 I1 V2 I2 T c1 c2 : grown V I V1 I1 T c1 -> grown V1 I1 V2 I2 T c2 -> grown V I V2 I2 T (c1 + c2).
Proof.
  intros [F1 D1 R1 A1 N1] [F2 D2 R2 A2 N2]. constructor; [done| | | |lia].
  - intros ip m Hip Hm. by rewrite D2, D1.
  - intros ip k Hip Hk Hn. rewrite R2; [by apply R1|done|done|by rewrite R1].
  - intros j i Hi. destruct (A1 j i Hi) as [l Hl]. destruct (A2 _ _ Hl) as [l' Hl']. by exists l'.
Qed.

Lemma grown_weaken V I V' I' T c c' : grown V I V' I' T c -> (c <= c')%nat -> grown V I V' I' T c'.
Proof. intros [] Hc. constructor; try done. lia. Qed.

Lemma grown_valloc V I T blk : finv G sb V I T -> in_fs sb blk -> used sb V blk = false -> grown V I (valloc sb V blk) I T 1.
Proof.
  intros Hf Hb Hu. constructor.
  - by apply finv_valloc.
  - intros. by apply (dat_valloc G sb V I T).
  - intros. by apply (ref_valloc G sb V I T).
  - intros j i Hj. exists (i_addrs i). by rewrite set_i_addrs_id.
  - rewrite (nfree_valloc G sb Hly V I T blk) by done. lia.
Qed.

(** A reference set, in the inode or in its indirect block. *)
Lemma grown_direct V I T ip k blk : finv G sb V I T -> ip ∈ T -> (k <= 12)%nat -> ref V I ip k = 0 -> allocated G sb V I T blk ->
  grown V I V (put_addr I ip k blk) T 0 /\ ref V (put_addr I ip k blk) ip k = blk.
Proof.
  intros Hf Hip Hk H0 Ha. pose proof (reref_direct G sb V I T ip k blk Hf Hip Hk H0 Ha) as Hr. split; [constructor|].
  - eapply (finv_reref G sb V I V _ T ip k blk); [done|lia|done|done|apply Hf|done|]. intros ip' Hip'. destruct (fv_ino _ _ _ _ _ Hf ip' Hip') as (i & Hi & Hok).
    unfold put_addr. rewrite list_lookup_alter. case_decide; [subst ip'|by exists i]. rewrite Hi. eexists. split; [done|].
    destruct Hok. constructor; simpl; try done. by rewrite length_insert.
  - apply (dat_reref G sb V I V _ T ip k blk); (done || lia).
  - intros ip' k' Hip' Hk' Hn. rewrite Hr by done. case_decide as E; [|done]. destruct E as [-> ->]. done.
  - intros j i Hj. unfold put_addr. rewrite list_lookup_alter. case_decide; [subst j; rewrite Hj; by eexists|]. exists (i_addrs i). by rewrite set_i_addrs_id.
  - lia.
  - rewrite Hr by (done || lia). by rewrite decide_True.
Qed.

Lemma grown_indirect V I T ip k blk : finv G sb V I T -> ip ∈ T -> (13 <= k <= 140)%nat -> ref V I ip 12 <> 0 -> ref V I ip k = 0 ->
  allocated G sb V I T blk ->
  let V' := vupd V (ref V I ip 12) (put32 (V (ref V I ip 12)) (4 * (k - 13)) blk) in
  grown V I V' I T 0 /\ ref V' I ip k = blk.
Proof.
  intros Hf Hip Hk Hn H0 Ha V'. destruct (fv_ref _ _ _ _ _ Hf ip 12 Hip ltac:(lia) Hn) as [(_ & Hda & Hnb & _) Hua]. pose proof (al_data _ _ _ _ _ _ Ha) as (Hb & _).
  pose proof (ly_small _ _ Hly). assert (0 <= blk < 2 ^ 32) as Hb32 by lia.
  pose proof (reref_indirect G sb V I T ip k blk Hf Hip Hk Hn Hb32) as Hr. fold V' in Hr.
  assert (blk <> ref V I ip 12) as Hne by (intros E; symmetry in E; revert E; apply (al_unref _ _ _ _ _ _ Ha); [done|lia]).
  assert (forall x, x <> ref V I ip 12 -> V' x = V x) as HV by (intros x Hx; unfold V', vupd; by rewrite decide_False).
  assert (forall b, in_fs sb b -> used sb V' b = used sb V b) as Hu by (intros b Hbb; by apply used_vupd).
  split; [constructor|].
  - eapply (finv_reref G sb V I V' I T ip k blk); [done|lia|done|done| |done|apply Hf]. intros x Hx. unfold V', vupd.
    case_decide; [rewrite length_put32|]; by apply (fv_len _ _ _ _ _ Hf).
  - apply (dat_reref G sb V I V' I T ip k blk); [lia|done|done|done|by apply HV|]. intros ip' m Hip' Hm Hnz. apply HV. intros E.
    destruct (place_le m Hm) as [Hp Hp12]. destruct (fv_inj _ _ _ _ _ Hf ip' (place m) ip 12 Hip' Hip Hp); [lia|done|done|done].
  - intros ip' k' Hip' Hk' Hnz. rewrite Hr by done. case_decide as E; [|done]. destruct E as [-> ->]. done.
  - intros j i Hj. exists (i_addrs i). by rewrite set_i_addrs_id.
  - rewrite Nat.add_0_r. unfold nfree. apply Nat.eq_le_incl. f_equal. apply filter_same. intros b Hbb%elem_of_seq. by rewrite Hu by (unfold in_fs; lia).
  - rewrite Hr by (done || lia). by rewrite decide_True.
Qed.

Lemma wp_geti s held o n V I ip i (Q : inode -> fsst -> Prop) : ftx s held o n V I -> I !! ip = Some i -> Q i s -> wp (geti ip) Q s.
Proof. intros [_ <- _ _] Hi HQ. unfold wp, geti. by rewrite Hi. Qed.

Lemma wp_updi s held o n V I ip i f (Q : unit -> fsst -> Prop) : ftx s held o n V I -> I !! ip = Some i ->
  (forall s', ftx s' held o n V (<[ip := f i]> I) -> Q tt s') -> wp (updi ip f) Q s.
Proof. intros [Ht <- Hsb Hl] Hi HQ. unfold wp, updi. rewrite Hi. apply HQ. by constructor. Qed.

Lemma put_addr_insert I ip k blk i : I !! ip = Some i -> put_addr I ip k blk = <[ip := set_i_addrs (<[k := blk]> (i_addrs i)) i]> I.
Proof.
  intros Hi. unfold put_addr. apply list_eq. intros j. rewrite list_lookup_alter. case_decide; [subst j|by rewrite list_lookup_insert_ne].
  rewrite Hi, list_lookup_insert_eq by (by eapply lookup_lt_Some). done.
Qed.

Lemma addrs_ref V I T ip i k : finv G sb V I T -> ip ∈ T -> I !! ip = Some i -> (k <= 12)%nat -> i_addrs i !! k = Some (ref V I ip k).
Proof.
  intros Hf Hip Hi Hk. destruct (fv_ino _ _ _ _ _ Hf ip Hip) as (j & Hj & [_ _ _ Hl _]). assert (j = i) as -> by congruence.
  destruct (lookup_lt_is_Some_2 (i_addrs i) k) as [a Ha]; [lia|]. rewrite Ha. f_equal. unfold ref. rewrite Hi.
  unfold NDIRECT. rewrite (proj2 (Nat.leb_le k 12) Hk). by rewrite (nth_lookup_Some _ _ _ _ Ha).
Qed.

Lemma bmap_slot_present s held o n V I T ip k : ftx s held o n V I -> finv G sb V I T -> ip ∈ T -> (k <= 12)%nat -> ref V I ip k <> 0 ->
  wp (bmap_slot ip k) (fun a s' => a = ref V I ip k /\ s' = s) s.
Proof.
  intros Hs Hf Hip Hk Hn. destruct (fv_ino _ _ _ _ _ Hf ip Hip) as (i & Hi & _). unfold bmap_slot. apply wp_bind. eapply wp_geti; [done..|].
  rewrite (addrs_ref V I T ip i k) by done. rewrite (proj2 (Z.eqb_neq _ 0) Hn). by apply wp_ret.
Qed.

(** [(addr = ip->addrs[k]) == 0 ? ip->addrs[k] = balloc() : addr] *)
Lemma bmap_slot_spec s o n V I T ip k : ftx s [] o (S (S n)) V I -> finv G sb V I T -> ip ∈ T -> (k <= 12)%nat ->
  (ref V I ip k <> 0 \/ (0 < nfree sb V)%nat) ->
  wp (bmap_slot ip k) (fun a s' => exists V' I', ftx s' [] o n V' I' /\ grown V I V' I' T 1 /\ ref V' I' ip k = a /\ a <> 0) s.
Proof.
  intros Hs Hf Hip Hk Hroom. destruct (decide (ref V I ip k = 0)) as [H0|Hn].
  2:{ eapply wp_mono; [by apply (bmap_slot_present s [] o (S (S n)) V I T)|]. intros a s' [-> ->]. exists V, I.
      split; [eapply ftx_weaken; [done|lia]|]. split; [eapply grown_weaken; [by apply grown_refl|lia]|done]. }
  destruct Hroom as [?|Hfree]; [done|]. destruct (fv_ino _ _ _ _ _ Hf ip Hip) as (i & Hi & Hok). unfold bmap_slot. apply wp_bind. eapply wp_geti; [done..|].
  rewrite (addrs_ref V I T ip i k) by done. rewrite H0, Z.eqb_refl, (io_dev _ _ Hok). apply wp_bind.
  eapply wp_mono; [apply (balloc_spec V I T [] o n Hf); [simpl; lia|by intros ? ? ?%not_elem_of_nil|done|done]|].
  intros blk s1 (Hb & Hu & H1). apply wp_bind. eapply (wp_updi s1); [done|exact Hi|]. intros s2 H2. apply wp_ret.
  rewrite <- put_addr_insert in H2 by done. pose proof (grown_valloc V I T blk Hf Hb Hu) as Hg1. pose proof (gr_finv _ _ _ _ _ _ Hg1) as Hf1.
  pose proof (allocated_valloc G sb Hly V I T blk Hf Hb Hu) as Ha.
  destruct (grown_direct (valloc sb V blk) I T ip k blk Hf1 Hip Hk) as [Hg2 Hr]; [by rewrite (ref_valloc G sb V I T) by (done || lia)|done|].
  eexists _, _. split; [exact H2|]. split; [exact (grown_trans _ _ _ _ _ _ _ _ _ Hg1 Hg2)|]. split; [done|]. destruct (al_data _ _ _ _ _ _ Ha). lia.
Qed.

Lemma ref_indirect V I ip k : (13 <= k)%nat -> ref V I ip 12 <> 0 -> ref V I ip k = get32 (V (ref V I ip 12)) (4 * (k - 13)).
Proof.
  intros Hk Hn. unfold ref in *. destruct (I !! ip) as [i|]; [|done]. unfold NDIRECT in *. rewrite (proj2 (Nat.leb_gt k 12)) by lia.
  simpl in Hn. simpl. by rewrite (proj2 (Z.eqb_neq _ 0) Hn).
Qed.

Lemma ref_indirect_nonzero V I ip k : (13 <= k)%nat -> ref V I ip k <> 0 -> ref V I ip 12 <> 0.
Proof.
  intros Hk. unfold ref. destruct (I !! ip) as [i|]; [|done]. unfold NDIRECT. rewrite (proj2 (Nat.leb_gt k 12)) by lia. simpl.
  destruct (Z.eqb_spec (nth 12 (i_addrs i) 0) 0); done.
Qed.

Lemma bmap_present s o n V I T ip m : ftx s [] o n V I -> finv G sb V I T -> ip ∈ T -> (m < 140)%nat -> ref V I ip (place m) <> 0 ->
  wp (bmap ip (Z.of_nat m)) (fun a s' => a = ref V I ip (place m) /\ ftx s' [] o n V I) s.
Proof.
  intros Hs Hf Hip Hm. unfold bmap, place, NDIRECT, NINDIRECT. intros Hn. destruct (Z.ltb_spec (Z.of_nat m) (Z.of_nat 12)) as [H12|H12].
  - rewrite (proj2 (Nat.ltb_lt m 12)) in * by lia. rewrite Nat2Z.id.
    eapply wp_mono; [apply (bmap_slot_present s [] o n V I T); (done || lia)|]. by intros a s' [-> ->].
  - rewrite (proj2 (Nat.ltb_ge m 12)) in * by lia. rewrite (proj2 (Z.ltb_lt _ _)) by lia. pose proof (ref_indirect_nonzero V I ip (S m) ltac:(lia) Hn) as Hn12.
    apply wp_bind. eapply wp_mono; [apply (bmap_slot_present s [] o n V I T); (done || lia)|]. intros a s' [-> ->].
    destruct (fv_ino _ _ _ _ _ Hf ip Hip) as (i & Hi & Hok). apply wp_bind. eapply wp_geti; [done..|]. rewrite (io_dev _ _ Hok).
    destruct (fv_ref _ _ _ _ _ Hf ip 12 Hip ltac:(lia) Hn12) as [(_ & Hd & _) _].
    apply wp_bind. eapply wp_mono; [apply (bread_ftx s []); [done|done|simpl; lia|by intros ? ?%not_elem_of_nil]|]. intros bp s1 H1.
    apply wp_bind. eapply bdata_ftx; [exact H1|by left|]. replace (4 * Z.to_nat (Z.of_nat m - Z.of_nat 12))%nat with (4 * (S m - 13))%nat by lia.
    rewrite <- ref_indirect by (done || lia). rewrite (proj2 (Z.eqb_neq _ 0) Hn). apply wp_bind, wp_ret.
    apply wp_bind. eapply wp_mono; [exact (brelse_ftx _ _ _ _ _ _ _ _ H1)|]. intros [] s2 H2. apply wp_ret. done.
Qed.

(** The indirect block is held while a block is allocated for it. *)
Lemma bmap_alloc_indirect s o n V I T ip m bp : ftx s [(bp, ref V I ip 12)] o (S (S (S n))) V I -> finv G sb V I T -> ip ∈ T -> (12 <= m < 140)%nat ->
  ref V I ip 12 <> 0 -> ref V I ip (S m) = 0 -> (0 < nfree sb V)%nat ->
  wp (let! addr := balloc 1 in
      bupd bp (fun d => put32 d (4 * (S m - 13)) addr) ;;;
      inl_ (log_write bp) ;;;
      ret addr) (fun a s' => exists V' I', ftx s' [(bp, ref V I ip 12)] o n V' I' /\ grown V I V' I' T 1 /\ ref V' I' ip (S m) = a /\ a <> 0) s.
Proof.
  intros Hs Hf Hip Hm Hn12 H0 Hfree. apply wp_bind.
  eapply wp_mono; [apply (balloc_spec V I T [(bp, ref V I ip 12)] o (S n) Hf); [simpl; lia| |done|done]|].
  { intros i x [= -> ->]%list_elem_of_singleton. apply (fv_ref _ _ _ _ _ Hf); [done|lia|done]. }
  intros blk s1 (Hb & Hu & H1). apply wp_bind. eapply wp_mono; [apply (modify_ftx s1 _ o n _ I bp (ref V I ip 12) _ H1); by left|].
  intros [] s2 H2. apply wp_bind. eapply wp_mono; [exact H2|]. intros [] s3 H3. apply wp_ret.
  pose proof (grown_valloc V I T blk Hf Hb Hu) as Hg1. pose proof (gr_finv _ _ _ _ _ _ Hg1) as Hf1.
  pose proof (allocated_valloc G sb Hly V I T blk Hf Hb Hu) as Ha.
  pose proof (ref_valloc G sb V I T blk Hf Hb Hu ip 12 Hip ltac:(lia)) as E12. rewrite <- E12 in H3.
  destruct (grown_indirect (valloc sb V blk) I T ip (S m) blk Hf1 Hip) as [Hg2 Hr]; [lia|by rewrite E12| |done|].
  { by rewrite (ref_valloc G sb V I T) by (done || lia). }
  eexists _, I. split; [rewrite <- E12 at 1; exact H3|]. split; [exact (grown_trans _ _ _ _ _ _ _ _ _ Hg1 Hg2)|]. split; [done|].
  destruct (al_data _ _ _ _ _ _ Ha). lia.
Qed.

Lemma bmap_spec s o n V I T ip m : ftx s [] o (5 + n) V I -> finv G sb V I T -> ip ∈ T -> (m < 140)%nat ->
  (ref V I ip (place m) <> 0 \/ (2 <= nfree sb V)%nat) ->
  wp (bmap ip (Z.of_nat m)) (fun a s' => exists V' I', ftx s' [] o n V' I' /\
    grown V I V' I' T (if decide (ref V I ip (place m) = 0) then 2 else 0) /\ ref V' I' ip (place m) = a /\ a <> 0) s.
Proof.
  intros Hs Hf Hip Hm Hroom. destruct (decide (ref V I ip (place m) = 0)) as [H0|Hn].
  2:{ eapply wp_mono; [by apply (bmap_present s o (5 + n) V I T)|]. intros a s' [-> H']. exists V, I.
      split; [eapply ftx_weaken; [done|lia]|]. split; [by apply grown_refl|done]. }
  destruct Hroom as [?|Hfree]; [done|]. unfold bmap, place, NDIRECT, NINDIRECT in *. destruct (Z.ltb_spec (Z.of_nat m) (Z.of_nat 12)) as [H12|H12].
  - rewrite (proj2 (Nat.ltb_lt m 12)) in * by lia. rewrite Nat2Z.id.
    eapply wp_mono; [apply (bmap_slot_spec s o (3 + n) V I T); (done || lia || (right; lia))|]. intros a s' (V' & I' & H' & Hg & Hr). exists V', I'.
    split; [eapply ftx_weaken; [done|lia]|]. split; [eapply grown_weaken; [done|lia]|done].
  - rewrite (proj2 (Nat.ltb_ge m 12)) in * by lia. rewrite (proj2 (Z.ltb_lt _ _)) by lia.
    apply wp_bind. eapply wp_mono; [apply (bmap_slot_spec s o (3 + n) V I T); (done || lia || (right; lia))|]. intros a s1 (V1 & I1 & H1 & Hg1 & <- & Hn12).
    pose proof (gr_finv _ _ _ _ _ _ Hg1) as Hf1. destruct (fv_ino _ _ _ _ _ Hf1 ip Hip) as (i & Hi & Hok). apply wp_bind. eapply wp_geti; [done..|]. rewrite (io_dev _ _ Hok).
    destruct (fv_ref _ _ _ _ _ Hf1 ip 12 Hip ltac:(lia) Hn12) as [(_ & Hd & _) _].
    apply wp_bind. eapply wp_mono; [apply (bread_ftx s1 []); [done|done|simpl; lia|by intros ? ?%not_elem_of_nil]|]. intros bp s2 H2.
    apply wp_bind. eapply bdata_ftx; [exact H2|by left|]. replace (4 * Z.to_nat (Z.of_nat m - Z.of_nat 12))%nat with (4 * (S m - 13))%nat by lia.
    rewrite <- ref_indirect by (done || lia). apply wp_bind. pose proof (gr_free _ _ _ _ _ _ Hg1).
    apply (wp_mono _ (fun a s' => exists V' I', ftx s' [(bp, ref V1 I1 ip 12)] o n V' I' /\ grown V1 I1 V' I' T 1 /\ ref V' I' ip (S m) = a /\ a <> 0)).
    + destruct (Z.eqb_spec (ref V1 I1 ip (S m)) 0) as [E0|E0].
      * apply (bmap_alloc_indirect s2 o n V1 I1 T ip m bp); (done || lia).
      * apply wp_ret. exists V1, I1. split; [eapply ftx_weaken; [exact H2|lia]|]. split; [eapply grown_weaken; [by apply grown_refl|lia]|done].
    + intros a s3 (V3 & I3 & H3 & Hg3 & Hr3). apply wp_bind. eapply wp_mono; [exact (brelse_ftx _ _ _ _ _ _ _ _ H3)|]. intros [] s4 H4. apply wp_ret.
      exists V3, I3. split; [done|]. split; [exact (grown_trans _ _ _ _ _ _ _ _ _ Hg1 Hg3)|done].
Qed.

(** ** Contents of files *)

(** Byte [pos] of a file, zero where nothing has been written. *)
Definition fbyte (V : Z -> list Z) (I : list inode) (ip pos : nat) : Z := nth (pos mod 512) (dat V I ip (pos / 512)) 0.
Definition fbytes (V : Z -> list Z) (I : list inode) (ip off n : nat) : list Z := map (fbyte V I ip) (seq off n).

Lemma dat_length V I T ip m : finv G sb V I T -> ip ∈ T -> (m < 140)%nat -> length (dat V I ip m) = 512%nat.
Proof.
  intros Hf Hip Hm. unfold dat. destruct (Z.eqb_spec (ref V I ip (place m)) 0) as [|Hn]; [apply length_replicate|].
  apply (fv_len _ _ _ _ _ Hf). by destruct (fv_ref _ _ _ _ _ Hf ip (place m) Hip (proj1 (place_le m Hm)) Hn) as [(_ & ? & _) _].
Qed.

Lemma block_pos off j : (off mod 512 + j < 512)%nat -> ((off + j) / 512 = off / 512 /\ (off + j) mod 512 = off mod 512 + j)%nat.
Proof.
  intros Hj. pose proof (Nat.div_mod_eq off 512). split; symmetry; [apply (Nat.div_unique _ 512 _ (off mod 512 + j))|apply (Nat.mod_unique _ 512 (off / 512))]; lia.
Qed.

Lemma fbytes_block V I T ip off m : finv G sb V I T -> ip ∈ T -> (off / 512 < 140)%nat -> (off mod 512 + m <= 512)%nat ->
  take m (drop (off mod 512) (dat V I ip (off / 512))) = fbytes V I ip off m.
Proof.
  intros Hf Hip Hb Hm. pose proof (dat_length V I T ip _ Hf Hip Hb) as Hl. apply list_eq. intros j. unfold fbytes. rewrite list_lookup_fmap.
  destruct (decide (j < m)%nat) as [Hj|Hj].
  - rewrite lookup_take_lt, lookup_drop, lookup_seq_lt by done. cbn [fmap option_fmap option_map]. unfold fbyte. destruct (block_pos off j ltac:(lia)) as [-> ->].
    destruct (lookup_lt_is_Some_2 (dat V I ip (off / 512)) (off mod 512 + j)) as [x Hx]; [lia|]. rewrite Hx. by rewrite (nth_lookup_Some _ _ _ _ Hx).
  - rewrite lookup_take_ge, lookup_seq_ge by lia. done.
Qed.

Lemma fbytes_app V I ip off n m : fbytes V I ip off n ++ fbytes V I ip (off + n) m = fbytes V I ip off (n + m).
Proof. unfold fbytes. by rewrite seq_app, map_app. Qed.

Lemma length_fbytes V I ip off n : length (fbytes V I ip off n) = n.
Proof. unfold fbytes. by rewrite length_map, length_seq. Qed.

(** The blocks of the bytes before [lim] exist. *)
Definition present (V : Z -> list Z) (I : list inode) (ip lim : nat) : Prop :=
  forall m, (512 * m < lim)%nat -> ref V I ip (place m) <> 0.

Section readi.
Context (dev_read : Z -> option (nat -> Z -> M fsst (option (list Z)))).

Lemma readi_spec s o b V I T ip i off n : ftx s [] o b V I -> finv G sb V I T -> ip ∈ T -> I !! ip = Some i ->
  Z.of_nat (off + n) <= i_size i -> present V I ip (off + n) ->
  wp (readi dev_read ip (Z.of_nat off) (Z.of_nat n)) (fun r s' => r = Some (fbytes V I ip off n) /\ ftx s' [] o b V I) s.
Proof.
  intros Hs Hf Hip Hi Hsz Hpres. destruct (fv_ino _ _ _ _ _ Hf ip Hip) as (i' & Hi' & [Hdev _ Hty _ Hmax]). assert (i' = i) as -> by congruence.
  unfold MAXFILE, BSIZE in Hmax. unfold readi. apply wp_bind. eapply wp_geti; [done..|]. rewrite (proj2 (Z.eqb_neq _ _) Hty).
  rewrite u32_small by lia. rewrite (proj2 (Z.ltb_ge _ _)) by lia. rewrite (proj2 (Z.ltb_ge _ _)) by lia. rewrite (proj2 (Z.ltb_ge (i_size i) _)) by lia.
  cbn [orb]. rewrite Nat2Z.id. apply wp_bind.
  apply (wp_loop (fun k a s' => exists t, a = (Z.of_nat t, Z.of_nat (off + t), fbytes V I ip off t) /\ (t + k = n)%nat /\ ftx s' [] o b V I)) with (n := n); [|lia|by exists 0%nat; rewrite Nat.add_0_r].
  clear s Hs. intros k a s (t & -> & Ht & Hs). unfold readi_body. destruct (Z.ltb_spec (Z.of_nat t) (Z.of_nat n)) as [Htn|Htn].
  2:{ apply wp_ret. assert (t = n) as -> by lia. by apply wp_ret. }
  apply wp_bind. eapply wp_geti; [done..|]. rewrite Hdev. apply wp_bind. unfold BSIZE. change 512 with (Z.of_nat 512). rewrite <- Nat2Z.inj_div, <- Nat2Z.inj_mod.
  pose proof (Nat.div_mod_eq (off + t) 512) as Edm. pose proof (Nat.mod_upper_bound (off + t) 512 ltac:(lia)) as Emod.
  set (q := ((off + t) / 512)%nat) in *. set (r := ((off + t) mod 512)%nat) in *.
  assert (q < 140)%nat as Hq by lia. assert (ref V I ip (place q) <> 0) as Hn by (apply Hpres; lia).
  eapply wp_mono; [by apply (bmap_present s o b V I T ip q)|]. intros blk s1 [-> H1].
  destruct (fv_ref _ _ _ _ _ Hf ip (place q) Hip (proj1 (place_le q Hq)) Hn) as [(_ & Hd & _) _].
  apply wp_bind. eapply wp_mono; [apply (bread_ftx s1 []); [done|done|simpl; lia|by intros ? ?%not_elem_of_nil]|]. intros bp s2 H2.
  apply wp_bind. eapply bdata_ftx; [exact H2|by left|]. apply wp_bind. eapply wp_mono; [exact (brelse_ftx _ _ _ _ _ _ _ _ H2)|]. intros [] s3 H3. apply wp_ret.
  set (m := Nat.min (n - t) (512 - r)). replace (Z.min (Z.of_nat n - Z.of_nat t) (Z.of_nat 512 - Z.of_nat r)) with (Z.of_nat m) by lia. rewrite !Nat2Z.id.
  exists (k - m)%nat. split; [lia|]. exists (t + m)%nat. split; [|split; [lia|done]].
  assert (V (ref V I ip (place q)) = dat V I ip q) as -> by (unfold dat; by rewrite (proj2 (Z.eqb_neq _ 0) Hn)).
  pose proof (fbytes_block V I T ip (off + t) m Hf Hip Hq ltac:(lia)) as Eb. fold q r in Eb. rewrite Eb, fbytes_app, u32_small by lia. repeat f_equal; lia.
Qed.

End readi.

(** *** writei *)

Lemma nth_put_bytes d o l j : (o + length l <= length d)%nat ->
  nth j (put_bytes d o l) 0 = if decide (o <= j < o + length l)%nat then nth (j - o) l 0 else nth j d 0.
Proof.
  intros Hl. unfold put_bytes. rewrite !nth_lookup. case_decide as E.
  - by rewrite list_lookup_inserts by lia.
  - destruct (decide (j < o)%nat); [by rewrite list_lookup_inserts_lt|by rewrite list_lookup_inserts_ge by lia].
Qed.

(** The bytes [l] have been written at [off] to the file [ip], with at most [c] new blocks. *)
(** Entries of the inode cache that differ in the contents of the file only. *)
Record alike (i i' : inode) : Prop := {
  al_ref : i_ref i' = i_ref i;
  al_valid : i_valid i' = i_valid i;
  al_lk : sl_lk (i_lock i') = sl_lk (i_lock i);
  al_locked : sl_locked (i_lock i') = sl_locked (i_lock i) }.

Lemma alike_refl i : alike i i.
Proof. by constructor. Qed.

Lemma alike_trans i j k : alike i j -> alike j k -> alike i k.
Proof. intros [] []. constructor; congruence. Qed.

Record written (V : Z -> list Z) (I : list inode) (V' : Z -> list Z) (I' : list inode) (T : list nat) (ip off : nat) (l : list Z) (c : nat) (z : Z) : Prop := {
  wn_finv : finv G sb V' I' T;
  wn_bytes ip' pos : ip' ∈ T -> (pos < 512 * 140)%nat -> fbyte V' I' ip' pos =
    if decide (ip' = ip /\ off <= pos < off + length l)%nat then nth (pos - off) l 0 else fbyte V I ip' pos;
  wn_ref ip' k : ip' ∈ T -> (k <= 140)%nat -> ref V I ip' k <> 0 -> ref V' I' ip' k <> 0;
  wn_present m : (0 < length l)%nat -> (off / 512 <= m)%nat -> (512 * m < off + length l)%nat -> (m < 140)%nat -> ref V' I' ip (place m) <> 0;
  wn_ino j i : I !! j = Some i -> exists i', I' !! j = Some i' /\ i_size i' = (if decide (j = ip) then z else i_size i) /\ alike i i';
  wn_free : (nfree sb V <= nfree sb V' + c)%nat }.

Lemma written_nil V I T ip off i : finv G sb V I T -> I !! ip = Some i -> written V I V I T ip off [] 0 (i_size i).
Proof.
  intros Hf Hi. constructor; try done.
  - intros ip' pos _ _. rewrite decide_False; [done|]. simpl. lia.
  - intros m Hl. simpl in Hl. lia.
  - intros j i' Hj. exists i'. split; [done|]. split; [|apply alike_refl]. case_decide; congruence.
  - lia.
Qed.

Lemma written_weaken V I V' I' T ip off l c c' z : written V I V' I' T ip off l c z -> (c <= c')%nat -> written V I V' I' T ip off l c' z.
Proof. intros [F B R P A N] Hc. constructor; (done || lia). Qed.

Lemma written_app V I V1 I1 V2 I2 T ip off l1 l2 c1 c2 z1 z2 : ip ∈ T -> written V I V1 I1 T ip off l1 c1 z1 ->
  written V1 I1 V2 I2 T ip (off + length l1) l2 c2 z2 ->
  written V I V2 I2 T ip off (l1 ++ l2) (c1 + c2) z2.
Proof.
  intros Hip [F1 B1 R1 P1 A1 N1] [F2 B2 R2 P2 A2 N2]. constructor; [done| | | | |lia].
  - intros ip' pos Hip' Hpos. rewrite B2, B1 by done. rewrite length_app. destruct (decide (ip' = ip)) as [->|Hne].
    2:{ rewrite !decide_False by naive_solver. done. }
    destruct (decide (off <= pos < off + length l1)%nat) as [E1|E1].
    { rewrite decide_False by lia. rewrite !decide_True by (split; [done|lia]). by rewrite app_nth1 by lia. }
    destruct (decide (off + length l1 <= pos < off + length l1 + length l2)%nat) as [E2|E2].
    { rewrite !decide_True by (split; [done|lia]). rewrite app_nth2 by lia. f_equal. lia. }
    rewrite !decide_False by lia. done.
  - intros ip' k Hip' Hk Hn. auto.
  - intros m Hp Hm Hl Hm140. rewrite length_app in Hp, Hl. pose proof (Nat.div_mod_eq (off + length l1) 512) as Ed.
    destruct (decide (0 < length l1 /\ 512 * m < off + length l1)%nat) as [[Hl1 Hlt]|Hge].
    + apply R2; [done|by apply place_le|]. by apply P1.
    + destruct (decide (length l1 = 0)%nat) as [E|E]; [rewrite E, Nat.add_0_r in *; apply P2; (done || lia)|apply P2; lia].
  - intros j i Hj. destruct (A1 j i Hj) as (i1 & E1 & S1 & K1). destruct (A2 _ _ E1) as (i2 & E2 & S2 & K2). exists i2. split; [done|].
    split; [|by eapply alike_trans]. rewrite S2. by case_decide.
Qed.

(** The bytes of one block. *)
Lemma written_block V I V1 I1 T ip off l c i : ip ∈ T -> I !! ip = Some i -> grown V I V1 I1 T c -> (off / 512 < 140)%nat -> (off mod 512 + length l <= 512)%nat ->
  (0 < length l)%nat -> let a := ref V1 I1 ip (place (off / 512)) in a <> 0 ->
  written V I (vupd V1 a (put_bytes (V1 a) (off mod 512) l)) I1 T ip off l c (i_size i).
Proof.
  intros Hip Hi [Hf1 D1 R1 A1 N1] Hm Hl Hpos a Hn. set (m := (off / 512)%nat) in *. set (r := (off mod 512)%nat) in *. set (d := put_bytes (V1 a) r l).
  assert (V1 a = dat V1 I1 ip m) as Ea by (unfold dat; cbv zeta; fold a; by rewrite (proj2 (Z.eqb_neq _ 0) Hn)).
  assert (length (V1 a) = 512%nat) as Hla by (rewrite Ea; by apply (dat_length V1 I1 T)).
  assert (length d = 512%nat) as Hd by (unfold d; by rewrite length_put_bytes).
  pose proof (Nat.div_mod_eq off 512) as Eoff. fold m r in Eoff.
  assert (forall ip' k, ip' ∈ T -> (k <= 140)%nat -> ref (vupd V1 a d) I1 ip' k = ref V1 I1 ip' k) as Hr by (intros; by apply (ref_contents G sb V1 I1 T ip m d)).
  constructor.
  - by apply (finv_contents G sb V1 I1 T ip m d).
  - intros ip' pos Hip' Hps. unfold fbyte. assert (pos / 512 < 140)%nat as Hpb by (apply Nat.Div0.div_lt_upper_bound; lia).
    unfold a. rewrite (dat_contents G sb V1 I1 T ip m d) by done. fold a. pose proof (Nat.div_mod_eq pos 512) as Ep. pose proof (Nat.mod_upper_bound pos 512 ltac:(lia)) as Em.
    set (q := (pos / 512)%nat) in *. set (j := (pos mod 512)%nat) in *. destruct (decide (ip' = ip /\ q = m)) as [[-> Eq]|E].
    + unfold d. rewrite nth_put_bytes by lia. rewrite Ea, Eq, D1 by done. destruct (decide (r <= j < r + length l)%nat) as [Ej|Ej].
      * rewrite decide_True by (split; [done|lia]). f_equal. lia.
      * rewrite decide_False by (intros [_ ?]; lia). done.
    + rewrite D1 by done. rewrite decide_False; [done|]. intros [-> Hp]. apply E. split; [done|]. lia.
  - intros ip' k Hip' Hk Hnz. rewrite Hr, R1 by done. done.
  - intros m' _ Hm' Hl' H140. assert (m' = m) as -> by lia. by rewrite Hr by (done || by apply place_le).
  - intros j i' Hj. destruct (A1 j i' Hj) as [b Hb]. eexists. split; [exact Hb|]. split; [|by constructor]. simpl. case_decide; congruence.
  - assert (nfree sb (vupd V1 a d) = nfree sb V1) as ->; [|done]. unfold nfree. f_equal. apply filter_same. intros b Hb%elem_of_seq.
    rewrite used_vupd; [done| |unfold in_fs; lia]. destruct (contents_data G sb V1 I1 T ip m Hf1 Hip Hm Hn) as [(_ & _ & Hnb & _) _]. exact Hnb.
Qed.

Lemma place_lt m : (place m <= 140)%nat -> (m < 140)%nat.
Proof. unfold place, NDIRECT. destruct (Nat.ltb_spec m 12); lia. Qed.

(** The number of blocks that [n] bytes at [off] touch. *)
Definition nblk (off n : nat) : nat := match n with O => O | _ => (off + n + 511) / 512 - off / 512 end.

Lemma nblk_step off n : (0 < n)%nat -> let m := Nat.min n (512 - off mod 512) in
  nblk off n = S (nblk (off + m) (n - m)).
Proof.
  intros Hn m. pose proof (Nat.div_mod_eq off 512) as E. pose proof (Nat.mod_upper_bound off 512 ltac:(lia)) as Er.
  set (q := (off / 512)%nat) in *. set (r := (off mod 512)%nat) in *.
  assert (nblk off n = (off + n + 511) / 512 - q)%nat as -> by (unfold nblk, q; by destruct n; [lia|]).
  destruct (decide (n <= 512 - r)%nat) as [Hle|Hgt].
  - replace (n - m)%nat with 0%nat by lia. cbn [nblk].
    rewrite <- (Nat.div_unique (off + n + 511) 512 (q + 1) (r + n - 1)) by lia. lia.
  - assert (off + m = 512 * (q + 1))%nat as Eo by lia.
    destruct (n - m)%nat as [|k] eqn:Ek; [lia|]. unfold nblk. rewrite Eo, (Nat.mul_comm 512), Nat.div_mul by lia.
    replace ((q + 1) * 512 + S k + 511)%nat with (off + n + 511)%nat by lia.
    assert (q + 2 <= (off + n + 511) / 512)%nat by (apply Nat.div_le_lower_bound; lia). lia.
Qed.

(** Either there are free blocks for all of the write, or none are needed. *)
Definition cst (grow : bool) (k : nat) : nat := if grow then (2 * k)%nat else 0%nat.
Definition has_room (grow : bool) (V : Z -> list Z) (I : list inode) (ip off n : nat) : Prop :=
  if grow then (2 * nblk off n <= nfree sb V)%nat
  else forall m, (off / 512 <= m)%nat -> (512 * m < off + n)%nat -> ref V I ip (place m) <> 0.

Section writei.
Context (dev_write : Z -> option (nat -> list Z -> M fsst Z)).

(** One round of the loop. *)
Lemma writei_round {A} (k : M fsst A) Q s o b V I T ip off l grow i : ftx s [] o (6 + b) V I -> finv G sb V I T -> ip ∈ T -> I !! ip = Some i -> (0 < length l)%nat ->
  (off mod 512 + length l <= 512)%nat -> (off + length l <= 512 * 140)%nat -> (grow = true -> (2 <= nfree sb V)%nat) ->
  (grow = false -> ref V I ip (place (off / 512)) <> 0) ->
  (forall s' V' I', ftx s' [] o b V' I' -> written V I V' I' T ip off l (cst grow 1) (i_size i) -> wp k Q s') ->
  wp (let! blk := bmap ip (Z.of_nat (off / 512)) in
      let! bp := inbc (bread 1 blk) in
      bupd bp (fun d => put_bytes d (off mod 512) l) ;;;
      inl_ (log_write bp) ;;;
      inbc (brelse bp) ;;; k) Q s.
Proof.
  intros Hs Hf Hip Hi Hl Hr Hmax Hg Hng Hk. pose proof (Nat.div_mod_eq off 512) as Eoff. set (m := (off / 512)%nat) in *.
  assert (m < 140)%nat as Hm by lia. apply wp_bind.
  eapply wp_mono; [apply (bmap_spec s o (S b) V I T ip m Hs Hf Hip Hm)|].
  { destruct grow; [right; by apply Hg|left; by apply Hng]. }
  intros blk s1 (V1 & I1 & H1 & Hg1 & Hblk & Hn). pose proof (gr_finv _ _ _ _ _ _ Hg1) as Hf1. rewrite <- Hblk in *.
  destruct (fv_ref _ _ _ _ _ Hf1 ip (place m) Hip (proj1 (place_le m Hm)) Hn) as [(_ & Hd & _) _].
  apply wp_bind. eapply wp_mono; [apply (bread_ftx s1 []); [done|done|simpl; lia|by intros ? ?%not_elem_of_nil]|]. intros bp s2 H2.
  apply wp_bind. eapply wp_mono; [apply (modify_ftx s2 _ o b V1 I1 bp (ref V1 I1 ip (place m)) _ H2); by left|]. intros [] s3 H3.
  apply wp_bind. eapply wp_mono; [exact H3|]. intros [] s4 H4. apply wp_bind. eapply wp_mono; [exact (brelse_ftx _ _ _ _ _ _ _ _ H4)|]. intros [] s5 H5.
  eapply Hk; [exact H5|]. eapply (written_block V I V1 I1 T ip off l _ i); [done|done| |done|done|done|exact Hn].
  eapply grown_weaken; [exact Hg1|]. destruct grow; simpl; [case_decide; lia|]. rewrite decide_False by (by apply Hng). lia.
Qed.

Lemma has_room_step grow V I V' I' ip off n m : (0 < n)%nat -> m = Nat.min n (512 - off mod 512) -> (off + n <= 512 * 140)%nat ->
  has_room grow V I ip off n -> (forall k, (k <= 140)%nat -> ref V I ip k <> 0 -> ref V' I' ip k <> 0) ->
  (nfree sb V <= nfree sb V' + cst grow 1)%nat -> has_room grow V' I' ip (off + m) (n - m).
Proof.
  intros Hn Em Hmax Hr Hk Hf. pose proof (nblk_step off n Hn) as En. cbv zeta in En. rewrite <- Em in En. destruct grow; cbn [has_room cst] in *; [lia|].
  intros q Hq Hlt. apply Hk; [apply place_le; lia|]. apply Hr; [|lia].
  etransitivity; [|exact Hq]. apply Nat.Div0.div_le_mono. lia.
Qed.

Lemma writei_loop s o b V I T ip off src grow i : ftx s [] o (6 * nblk off (length src) + b) V I -> finv G sb V I T -> ip ∈ T -> I !! ip = Some i ->
  (off + length src <= 512 * 140)%nat -> has_room grow V I ip off (length src) ->
  wp (loop (S (length src)) (writei_body ip (Z.of_nat (length src))) (0, Z.of_nat off, src)) (fun off' s' => off' = Z.of_nat (off + length src) /\
    exists V' I', ftx s' [] o b V' I' /\ written V I V' I' T ip off src (cst grow (nblk off (length src))) (i_size i)) s.
Proof.
  intros Hs Hf Hip Hi0 Hmax Hroom.
  apply (wp_loop (fun k a s' => exists l rest V' I' c, a = (Z.of_nat (length l), Z.of_nat (off + length l), rest) /\ src = l ++ rest /\ k = length rest /\
    ftx s' [] o (6 * nblk (off + length l) (length rest) + b) V' I' /\ written V I V' I' T ip off l c (i_size i) /\
    (c + cst grow (nblk (off + length l) (length rest)) <= cst grow (nblk off (length src)))%nat /\
    has_room grow V' I' ip (off + length l) (length rest))) with (n := length src); [|lia|].
  2:{ exists [], src, V, I, 0%nat. cbn [length]. rewrite Nat.add_0_r. split_and!; [done..|by apply (written_nil _ _ _ _ _ i)|lia|done]. }
  clear s Hs Hroom. intros k a s (l & rest & V' & I' & c & -> & Esrc & -> & Hs & Hw & Hc & Hroom). unfold writei_body.
  assert (length src = length l + length rest)%nat as Elen by (by rewrite Esrc, length_app).
  pose proof (wn_finv _ _ _ _ _ _ _ _ _ _ Hw) as Hf'.
  destruct (Z.ltb_spec (Z.of_nat (length l)) (Z.of_nat (length src))) as [Hlt|Hge].
  2:{ apply wp_ret. assert (rest = []) as -> by (apply nil_length_inv; lia). rewrite app_nil_r in Esrc. subst l. split; [done|].
      exists V', I'. cbn [length nblk] in Hs, Hc. split; [done|]. eapply written_weaken; [exact Hw|lia]. }
  destruct (fv_ino _ _ _ _ _ Hf' ip Hip) as (i' & Hi & [Hdev _ _ _ _]). apply wp_bind. eapply wp_geti; [done..|]. rewrite Hdev.
  assert (i_size i' = i_size i) as Esz.
  { destruct (wn_ino _ _ _ _ _ _ _ _ _ _ Hw ip i Hi0) as (i2 & E2 & S2 & _). assert (i2 = i') as -> by congruence. by rewrite decide_True in S2. }
  assert (0 < length rest)%nat as Hrest by lia. pose proof (nblk_step (off + length l) (length rest) Hrest) as En. cbv zeta in En.
  pose proof (Nat.mod_upper_bound (off + length l) 512 ltac:(lia)) as Emod.
  unfold BSIZE. change 512 with (Z.of_nat 512). rewrite <- Nat2Z.inj_div, <- Nat2Z.inj_mod.
  set (m := Nat.min (length rest) (512 - (off + length l) mod 512)) in *.
  replace (Z.min _ _) with (Z.of_nat m) by lia. rewrite !Nat2Z.id. set (l2 := take m rest).
  assert (length l2 = m) as El2 by (unfold l2; rewrite length_take; lia).
  rewrite En in Hs. replace (6 * S _ + b)%nat with (6 + (6 * nblk (off + length l + m) (length rest - m) + b))%nat in Hs by lia.
  apply (writei_round _ _ s o _ V' I' T ip (off + length l) l2 grow i' Hs Hf' Hip Hi); [lia|lia|lia| | |].
  { intros ->. cbn [has_room] in Hroom. lia. }
  { intros ->. cbn [has_room] in Hroom. apply Hroom; [done|]. pose proof (Nat.div_mod_eq (off + length l) 512). lia. }
  rewrite Esz. intros s' V2 I2 Hs2 Hw2. apply wp_ret. exists (length rest - m)%nat. split; [lia|].
  exists (l ++ l2), (drop m rest), V2, I2, (c + cst grow 1)%nat. rewrite length_app, El2, length_drop, Nat.add_assoc. split_and!.
  - rewrite u32_small by lia. repeat f_equal; lia.
  - rewrite <- app_assoc. unfold l2. by rewrite take_drop.
  - done.
  - done.
  - apply written_app with V' I' (i_size i); done.
  - rewrite En in Hc. destruct grow; cbn [has_room cst] in *; lia.
  - eapply has_room_step; [exact Hrest|done|lia|exact Hroom| |exact (wn_free _ _ _ _ _ _ _ _ _ _ Hw2)]. intros k Hk. by apply (wn_ref _ _ _ _ _ _ _ _ _ _ Hw2).
Qed.

Lemma length_put_dinode d o i : length (put_dinode d o i) = length d.
Proof.
  assert (forall addrs d k, length (put_addrs d o k addrs) = length d) as Ha.
  { induction addrs as [|a addrs IH]; intros d' k; simpl; [done|]. by rewrite IH, length_put32. }
  unfold put_dinode, put16. cbv zeta. by rewrite Ha, length_put32, !length_put_bytes.
Qed.

(** iupdate changes the inode's block only, which is no file's. *)
Lemma iupdate_spec s o b V I T ip i : ftx s [] o (S b) V I -> finv G sb V I T -> ip ∈ T -> I !! ip = Some i ->
  wp (iupdate ip) (fun _ s' => exists V', ftx s' [] o b V' I /\ finv G sb V' I T /\ nfree sb V' = nfree sb V /\
    (forall ip' k, ip' ∈ T -> (k <= 140)%nat -> ref V' I ip' k = ref V I ip' k) /\
    (forall ip' m, ip' ∈ T -> (m < 140)%nat -> dat V' I ip' m = dat V I ip' m)) s.
Proof.
  intros Hs Hf Hip Hi. destruct (fv_ino _ _ _ _ _ Hf ip Hip) as (i' & Hi' & [Hdev Hin _ _ _]). assert (i' = i) as -> by congruence.
  destruct (ly_inode _ _ Hly _ Hin) as [Hd Hb]. set (x := IBLOCK (i_inum i) sb) in *.
  unfold iupdate. apply wp_bind. eapply wp_geti; [done..|]. apply wp_bind, wp_gets. rewrite (ft_sb _ _ _ _ _ _ Hs), Hdev. fold x.
  apply wp_bind. eapply wp_mono; [apply (bread_ftx s []); [done|done|simpl; lia|by intros ? ?%not_elem_of_nil]|]. intros bp s1 H1.
  apply wp_bind. eapply wp_mono; [apply (modify_ftx s1 _ o b V I bp x _ H1); by left|]. intros [] s2 H2.
  apply wp_bind. eapply wp_mono; [exact H2|]. intros [] s3 H3. eapply wp_mono; [exact (brelse_ftx _ _ _ _ _ _ _ _ H3)|]. intros [] s4 H4.
  eexists. split; [exact H4|]. destruct (meta_frame G sb V I T x (put_dinode (V x) (dino_off (i_inum i)) i) Hf) as (F1 & F2 & F3).
  - intros (_ & _ & _ & Hx). by apply (Hx _ Hin).
  - done.
  - rewrite length_put_dinode. by apply (fv_len _ _ _ _ _ Hf).
  - split_and!; [done| |done|done]. unfold nfree. f_equal. apply filter_same. intros c Hc%elem_of_seq.
    rewrite used_vupd; [done|done|unfold in_fs; lia].
Qed.

(** A change of the file's size, which iupdate stores. *)
Lemma written_size V I V1 I1 V2 T ip off l c z z' i1 : written V I V1 I1 T ip off l c z -> I1 !! ip = Some i1 -> ip ∈ T ->
  let I2 := <[ip := set_i_size z' i1]> I1 in finv G sb V2 I2 T -> nfree sb V2 = nfree sb V1 ->
  (forall ip' k, ip' ∈ T -> (k <= 140)%nat -> ref V2 I2 ip' k = ref V1 I1 ip' k) ->
  (forall ip' m, ip' ∈ T -> (m < 140)%nat -> dat V2 I2 ip' m = dat V1 I1 ip' m) -> written V I V2 I2 T ip off l c z'.
Proof.
  intros [F B R P A N] Hi1 Hip I2 Hf2 Hn Hr Hd. constructor; [done| | | | |by rewrite Hn].
  - intros ip' pos Hip' Hpos. rewrite <- B by done. unfold fbyte. rewrite Hd; [done..|]. apply Nat.Div0.div_lt_upper_bound. lia.
  - intros ip' k Hip' Hk Hnz. rewrite Hr by done. by apply R.
  - intros m Hl Hm Hlt H140. rewrite Hr by (done || by apply place_le). by apply P.
  - intros j i Hj. destruct (A j i Hj) as (i' & Ei & Es & Ek). unfold I2. case_decide as E.
    + subst j. rewrite list_lookup_insert_eq by (by eapply lookup_lt_Some). assert (i' = i1) as -> by congruence. eexists. split; [done|].
      split; [done|]. by destruct Ek.
    + rewrite list_lookup_insert_ne by done. by exists i'.
Qed.

(** writei stores the bytes it is given, and sets the size. *)
Lemma writei_spec s o b V I T ip i off src grow : ftx s [] o (6 * nblk off (length src) + S b) V I -> finv G sb V I T -> ip ∈ T -> I !! ip = Some i ->
  Z.of_nat off <= i_size i -> (off + length src <= 512 * 140)%nat -> has_room grow V I ip off (length src) ->
  wp (writei dev_write ip src (Z.of_nat off)) (fun r s' => r = Z.of_nat (length src) /\ exists V' I', ftx s' [] o b V' I' /\
    written V I V' I' T ip off src (cst grow (nblk off (length src))) (Z.max (i_size i) (Z.of_nat (off + length src)))) s.
Proof.
  intros Hs Hf Hip Hi Hoff Hmax Hroom. destruct (fv_ino _ _ _ _ _ Hf ip Hip) as (i' & Hi' & [Hdev Hin Hty Had Hsz]). assert (i' = i) as -> by congruence.
  unfold writei. apply wp_bind. eapply wp_geti; [done..|]. rewrite (proj2 (Z.eqb_neq _ _) Hty). rewrite u32_small by lia.
  unfold MAXFILE, BSIZE in *. rewrite !(proj2 (Z.ltb_ge _ _)) by lia. cbn [orb]. rewrite Nat2Z.id. apply wp_bind.
  eapply wp_mono; [exact (writei_loop s o (S b) V I T ip off src grow i Hs Hf Hip Hi Hmax Hroom)|]. intros off' s1 (-> & V1 & I1 & H1 & Hw).
  destruct (wn_ino _ _ _ _ _ _ _ _ _ _ Hw ip i Hi) as (i1 & Ha & Es1 & _). rewrite decide_True in Es1 by done.
  apply wp_bind. eapply wp_geti; [done..|]. apply wp_bind. rewrite Es1. unfold when.
  destruct ((0 <? Z.of_nat (length src)) && (i_size i <? Z.of_nat (off + length src))) eqn:Ec.
  - apply andb_true_iff in Ec as [Ec1%Z.ltb_lt Ec2%Z.ltb_lt]. rewrite Z.max_r by lia. set (z := Z.of_nat (off + length src)) in *.
    pose proof (wn_finv _ _ _ _ _ _ _ _ _ _ Hw) as Hf1. destruct (fv_ino _ _ _ _ _ Hf1 ip Hip) as (i1' & Hi1' & [Ed En Et Ead Esz]).
    assert (i1' = i1) as -> by congruence. rewrite Es1 in Esz. set (I2 := <[ip := set_i_size z i1]> I1).
    assert (same_blocks sb I1 I2 T) as Hsb by (eapply same_blocks_update; [exact Hf1|exact Ha|done|constructor; (done || simpl; unfold MAXFILE, BSIZE; lia)]).
    destruct (same_blocks_frame G sb V1 I1 I2 T Hf1 Hsb) as (F2 & R2 & D2).
    apply wp_bind. eapply wp_updi; [exact H1|exact Ha|]. intros s2 H2. fold I2 in H2.
    eapply wp_mono; [apply (iupdate_spec s2 o b V1 I2 T ip (set_i_size z i1) H2 F2 Hip); unfold I2; by rewrite list_lookup_insert_eq by (by eapply lookup_lt_Some)|].
    intros [] s3 (V3 & H3 & F3 & N3 & R3 & D3). apply wp_ret. split; [done|]. exists V3, I2. split; [done|].
    eapply written_size; [exact Hw|exact Ha|done|done|done| |]; intros; [rewrite R3, R2|rewrite D3, D2]; done.
  - apply wp_ret, wp_ret. split; [done|]. exists V1, I1. split; [by eapply ftx_weaken; [exact H1|lia]|].
    replace (Z.max _ _) with (i_size i); [done|]. apply andb_false_iff in Ec as [E%Z.ltb_ge|E%Z.ltb_ge]; lia.
Qed.

(** A write past the end is refused, and changes nothing. *)
Lemma writei_hole s o b V I T ip i off src : ftx s [] o b V I -> finv G sb V I T -> ip ∈ T -> I !! ip = Some i -> i_size i < off ->
  wp (writei dev_write ip src off) (fun r s' => r = -1 /\ s' = s) s.
Proof.
  intros Hs Hf Hip Hi Hoff. destruct (fv_ino _ _ _ _ _ Hf ip Hip) as (i' & Hi' & [_ _ Hty _ _]). assert (i' = i) as -> by congruence.
  unfold writei. apply wp_bind. eapply wp_geti; [done..|]. rewrite (proj2 (Z.eqb_neq _ _) Hty), (proj2 (Z.ltb_lt _ _) Hoff). by apply wp_ret.
Qed.
End writei.

End spec.
