(* ===== verification/FileSpec.v ===== *)
(** * Reading and writing open files

    filewrite splits a write into transactions of at most 1536 bytes; each locks the inode,
    writes, unlocks it and commits.  On an inode of the cache that is valid and not locked, with
    the log idle, filewrite and fileread end with the log idle and the inode unlocked again, and
    change the bytes of the one file only. *)
From Stdlib Require Import ZArith Lia.
From stdpp Require Import base list numbers strings gmap.
From S2P Require Import Prelude Mmu Resume Kstate Swap Block Bio BioSpec Log LogSpec Tx Fs FsInv FsSpec Pipe File Sysfile.
Import Prelude Fs FsSpec File.
Local Open Scope Z_scope.

(** ** Inode locks and transactions *)

(** An inode of the cache that can be locked. *)
Definition ready (i : inode) : Prop :=
  1 <= i_ref i /\ i_valid i = true /\ sl_lk (i_lock i) = false /\ sl_locked (i_lock i) = false.

Lemma ready_alike i i' : alike i i' -> ready i -> ready i'.
Proof. unfold ready. by intros [-> -> -> ->]. Qed.

Lemma on_ilock_run {A} ip (m : M sleeplock A) s i a k : f_inodes s !! ip = Some i -> m (i_lock i) = Ret a k ->
  on_ilock ip m s = Ret a (set_f_inodes (<[ip := set_i_lock k i]> (f_inodes s)) s).
Proof.
  intros Hi Hm. unfold on_ilock, lift. rewrite Hi. cbn. rewrite Hm. f_equal. f_equal. apply list_eq. intros j.
  destruct (decide (j = ip)) as [->|Hj].
  - rewrite list_lookup_alter, Hi, list_lookup_insert_eq, decide_True; [done|done|]. by eapply lookup_lt_Some.
  - by rewrite list_lookup_alter, decide_False, list_lookup_insert_ne by done.
Qed.

Lemma holdingsleep_run k : sl_lk k = false -> holdingsleep k = Ret (sl_locked k) k.
Proof. destruct k as [b lk n p w]. simpl. by intros ->. Qed.

Definition unlocked (k : sleeplock) : sleeplock := mkSleeplock false (sl_lk k) (sl_name k) 0 (S (sl_wakeups k)).

Lemma releasesleep_run k : sl_lk k = false -> releasesleep k = Ret tt (unlocked k).
Proof. destruct k as [b lk n p w]. simpl. by intros ->. Qed.

Section store.
Context (G : geom) (sb : superblock) (Hly : layout G sb) (Hlog : 28 < gm_size G).
Context (dev_read : Z -> option (nat -> Z -> M fsst (option (list Z)))) (dev_write : Z -> option (nat -> list Z -> M fsst Z)).

Local Abbreviation ftx := (ftx G sb).
Local Abbreviation finv := (finv G sb).
Local Abbreviation written := (written G sb).

Lemma ftx_lock s held o n V I ip i k : ftx s held o n V I -> I !! ip = Some i ->
  ftx (set_f_inodes (<[ip := set_i_lock k i]> (f_inodes s)) s) held o n V (<[ip := set_i_lock k i]> I).
Proof. intros [Ht <- Hsb Hl] Hi. by constructor. Qed.

Lemma ilock_ftx s held o n V I ip i : ftx s held o n V I -> I !! ip = Some i -> ready i ->
  wp (ilock (Some ip)) (fun _ s' => exists k, sl_lk k = false /\ sl_locked k = true /\ ftx s' held o n V (<[ip := set_i_lock k i]> I)) s.
Proof.
  intros Hs Hi (Hr & Hv & Hlk & Hlo). unfold ilock. apply wp_bind. eapply wp_geti; [done..|]. rewrite (proj2 (Z.ltb_ge _ _)) by lia.
  apply wp_bind, wp_gets, wp_bind. eapply wp_intro; [eapply on_ilock_run; [by rewrite (ft_ino _ _ _ _ _ _ _ _ Hs)|by apply acquiresleep_run]|].
  pose proof (ftx_lock _ _ _ _ _ _ _ _ (locked_by (bs_pid (ls_b (f_l s))) (i_lock i)) Hs Hi) as H1.
  apply wp_bind. eapply wp_geti; [exact H1|by rewrite list_lookup_insert_eq by (by eapply lookup_lt_Some)|]. cbn [i_valid set_i_lock]. rewrite Hv.
  apply wp_ret. eexists. split; [|split; [|exact H1]]; [exact Hlk|done].
Qed.

Lemma iunlock_ftx s held o n V I ip i : ftx s held o n V I -> I !! ip = Some i -> 1 <= i_ref i -> sl_lk (i_lock i) = false -> sl_locked (i_lock i) = true ->
  wp (iunlock (Some ip)) (fun _ s' => exists k, sl_lk k = false /\ sl_locked k = false /\ ftx s' held o n V (<[ip := set_i_lock k i]> I)) s.
Proof.
  intros Hs Hi Hr Hlk Hlo. unfold iunlock. apply wp_bind.
  eapply wp_intro; [eapply on_ilock_run; [by rewrite (ft_ino _ _ _ _ _ _ _ _ Hs)|by apply holdingsleep_run]|].
  pose proof (ftx_lock _ _ _ _ _ _ _ _ (i_lock i) Hs Hi) as H1. set (s1 := set_f_inodes _ s) in *. assert (set_i_lock (i_lock i) i = i) as Ei by (by destruct i).
  rewrite Ei, (list_insert_id I) in H1 by done. apply wp_bind. eapply wp_geti; [exact H1|exact Hi|].
  rewrite Hlo, (proj2 (Z.ltb_ge _ _)) by lia. cbn [negb orb].
  eapply wp_intro; [eapply on_ilock_run; [by rewrite (ft_ino _ _ _ _ _ _ _ _ H1)|by apply releasesleep_run]|].
  eexists. split; [|split; [|exact (ftx_lock _ _ _ _ _ _ _ _ _ H1 Hi)]]; done.
Qed.

Lemma begin_ftx s V I : ftx s [] 0 0 V I -> wp (inl_ begin_op) (fun _ s' => ftx s' [] 1 28 V I) s.
Proof. intros Hs. apply wp_inl. eapply wp_mono; [by apply begin_tx; [|apply (ft_tx _ _ _ _ _ _ _ _ Hs)]|]. intros [] l Hl. by eapply ftx_log. Qed.

Lemma end_ftx s n V I : ftx s [] 1 n V I -> wp (inl_ end_op) (fun _ s' => ftx s' [] 0 0 V I) s.
Proof. intros Hs. apply wp_inl. eapply wp_mono; [by eapply end_tx, (ft_tx _ _ _ _ _ _ _ _ Hs)|]. intros [] l Hl. by eapply ftx_log. Qed.

(** The lock of an inode is no part of the files. *)
Lemma lock_frame V I T ip i k : finv V I T -> I !! ip = Some i -> ip ∈ T -> let I1 := <[ip := set_i_lock k i]> I in
  finv V I1 T /\ (forall ip' j, ip' ∈ T -> ref V I1 ip' j = ref V I ip' j) /\ (forall ip' m, ip' ∈ T -> dat V I1 ip' m = dat V I ip' m).
Proof.
  intros Hf Hi Hip I1. destruct (fv_ino _ _ _ _ _ Hf ip Hip) as (i' & Hi' & [O1 O2 O3 O4 O5]). assert (i' = i) as -> by congruence.
  apply same_blocks_frame; [done|]. eapply same_blocks_update; [done|done|done|by constructor].
Qed.

Lemma written_locked V I V2 I2 T ip i k k' i2 off l c z : finv V I T -> ip ∈ T -> I !! ip = Some i ->
  written V (<[ip := set_i_lock k i]> I) V2 I2 T ip off l c z -> I2 !! ip = Some i2 ->
  sl_lk k' = sl_lk (i_lock i) -> sl_locked k' = sl_locked (i_lock i) -> written V I V2 (<[ip := set_i_lock k' i2]> I2) T ip off l c z.
Proof.
  intros Hf Hip Hi [F B R P A N] Hi2 Hlk Hlo. destruct (lock_frame V I T ip i k Hf Hi Hip) as (F1 & R1 & D1).
  destruct (lock_frame V2 I2 T ip i2 k' F Hi2 Hip) as (F2 & R2 & D2). set (I1 := <[ip := _]> I) in *. set (I3 := <[ip := _]> I2) in *.
  assert (I1 !! ip = Some (set_i_lock k i)) as E1 by (apply list_lookup_insert_eq; by eapply lookup_lt_Some).
  constructor; [done| | | | |done].
  - intros ip' pos Hip' Hpos. unfold fbyte. rewrite D2 by done. specialize (B ip' pos Hip' Hpos). unfold fbyte in B. by rewrite B, D1.
  - intros ip' j Hip' Hj Hn. rewrite R2 by done. apply R; [done..|]. by rewrite R1.
  - intros m Hl Hm Hlt H140. rewrite R2 by done. by apply P.
  - intros j ij Hj. destruct (decide (j = ip)) as [->|Hne].
    + assert (ij = i) as -> by congruence. destruct (A ip _ E1) as (i2' & E2 & S2 & [K1 K2 _ _]). assert (i2' = i2) as -> by congruence.
      exists (set_i_lock k' i2). unfold I3. rewrite list_lookup_insert_eq by (by eapply lookup_lt_Some). rewrite decide_True in S2 by done. by split_and!.
    + destruct (A j ij) as (i' & E' & S' & K'); [unfold I1; by rewrite list_lookup_insert_ne|]. exists i'. rewrite decide_False in S' by done.
      unfold I3. by rewrite list_lookup_insert_ne.
Qed.

(** ** One round of filewrite *)

Lemma wp_infsst {A} (m : M fsst A) (Q : A -> flst -> Prop) s : wp m (fun a fs => Q a (set_fl_fs fs s)) (fl_fs s) -> wp (infsst m) Q s.
Proof. intros H. by apply wp_lift. Qed.

Lemma wp_getf f x s (Q : file -> flst -> Prop) : fl_files s !! f = Some x -> Q x s -> wp (getf f) Q s.
Proof. intros Hf HQ. unfold wp, getf. by rewrite Hf. Qed.

Lemma wp_updf f x g s (Q : unit -> flst -> Prop) : fl_files s !! f = Some x ->
  Q tt (set_fl_files (<[f := g x]> (fl_files s)) s) -> wp (updf f g) Q s.
Proof. intros Hf HQ. unfold wp, updf. by rewrite Hf. Qed.

(** The system call returns to a state where the transaction is closed and the inode unlocked. *)
Lemma filewrite_round s V I T f x ip i off (n t : nat) src grow : ftx (fl_fs s) [] 0 0 V I -> finv V I T -> ip ∈ T -> I !! ip = Some i -> ready i ->
  fl_files s !! f = Some x -> fd_ip x = Some ip -> fd_off x = Z.of_nat off -> Z.of_nat off <= i_size i ->
  (t < n)%nat -> length src = (n - t)%nat -> let n1 := Nat.min (n - t) 1536 in (off + n1 <= 512 * 140)%nat -> has_room sb grow V I ip off n1 ->
  (nblk off n1 <= 4)%nat ->
  wp (filewrite_body dev_write f (Z.of_nat n) (Z.of_nat t, src)) (fun r s' => r = inl (Z.of_nat (t + n1), drop n1 src) /\
    fl_files s' = <[f := set_fd_off (Z.of_nat (off + n1)) x]> (fl_files s) /\
    exists V' I', ftx (fl_fs s') [] 0 0 V' I' /\
      written V I V' I' T ip off (take n1 src) (cst grow (nblk off n1)) (Z.max (i_size i) (Z.of_nat (off + n1)))) s.
Proof.
  intros Hs Hf Hip Hi Hr Hx Hxi Hxo Hsz Ht Hsrc n1 Hmax Hroom Hb. unfold filewrite_body. rewrite (proj2 (Z.ltb_lt _ _)) by lia. cbn [negb].
  change max_write with 1536. replace (Z.min _ 1536) with (Z.of_nat n1) by lia. rewrite Nat2Z.id.
  assert (length (take n1 src) = n1) as Hl by (rewrite length_take; lia).
  apply wp_bind, wp_infsst. eapply wp_mono; [by apply begin_ftx|]. intros [] s1 H1.
  apply wp_bind. eapply wp_getf; [done|]. apply wp_bind, wp_infsst. rewrite Hxi. eapply wp_mono; [by eapply ilock_ftx|]. intros [] s2 (k & Hk1 & Hk2 & H2).
  destruct (lock_frame V I T ip i k Hf Hi Hip) as (F2 & R2 & D2). set (I2 := <[ip := _]> I) in *.
  assert (I2 !! ip = Some (set_i_lock k i)) as E2 by (apply list_lookup_insert_eq; by eapply lookup_lt_Some).
  apply wp_bind. eapply wp_getf; [done|]. rewrite Hxi, Hxo. apply wp_bind, wp_infsst.
  eapply wp_mono; [apply (writei_spec G sb Hly dev_write s2 1 0 V I2 T ip (set_i_lock k i) off (take n1 src) grow)|]; rewrite ?Hl; [|done..| |].
  { eapply ftx_weaken; [exact H2|lia]. }
  { destruct grow; [done|]. intros m Hm Hlt. rewrite R2 by done. by apply Hroom. }
  intros r s3 (-> & V3 & I3 & H3 & Hw). change (i_size (set_i_lock k i)) with (i_size i) in Hw.
  destruct (wn_ino _ _ _ _ _ _ _ _ _ _ _ _ Hw ip _ E2) as (i3 & E3 & S3 & [K1 K2 K3 K4]). cbn [i_ref i_valid i_lock set_i_lock] in *.
  rewrite (proj2 (Z.ltb_lt _ _)) by lia. cbn [when]. apply wp_bind. eapply wp_updf; [done|]. cbn [fl_files set_fl_fs].
  apply wp_bind, wp_infsst. eapply wp_mono; [apply (iunlock_ftx s3 [] 1 0 V3 I3 ip i3 H3 E3); [destruct Hr; lia|congruence|congruence]|].
  intros [] s4 (k' & Hk1' & Hk2' & H4). apply wp_bind, wp_infsst. eapply wp_mono; [by eapply end_ftx|]. intros [] s5 H5.
  rewrite (proj2 (Z.ltb_ge _ _)), Z.eqb_refl by lia. cbn [negb]. apply wp_ret.
  destruct Hr as (_ & _ & Hlk & Hlo). split; [by rewrite Nat2Z.inj_add|]. split.
  { cbn [fl_files set_fl_fs set_fl_files]. rewrite Hxo, u32_small by lia. by rewrite Nat2Z.inj_add. }
  eexists V3, _. split; [exact H5|]. eapply written_locked; [done|done|exact Hi|exact Hw|exact E3|congruence|congruence].
Qed.

(** ** filewrite and fileread on an inode *)

Lemma nblk_aligned off n : (off mod 512 = 0)%nat -> nblk off n = ((n + 511) / 512)%nat.
Proof.
  intros Ha. destruct n as [|n]; [done|]. pose proof (Nat.div_mod_eq off 512) as E. rewrite Ha, Nat.add_0_r in E. unfold nblk.
  set (q := (off / 512)%nat) in *. replace (off + S n + 511)%nat with (S n + 511 + q * 512)%nat by lia. rewrite Nat.div_add by lia. lia.
Qed.

Lemma nblk_chunk off n : (off mod 512 = 0)%nat -> let n1 := Nat.min n 1536 in
  (nblk off n = nblk off n1 + nblk (off + n1) (n - n1) /\ nblk off n1 <= 4 /\ (n - n1 = 0 \/ (off + n1) mod 512 = 0))%nat.
Proof.
  intros Ha n1. rewrite !(nblk_aligned off) by done. assert ((n1 + 511) / 512 <= 4)%nat as Hle.
  { apply Nat.lt_succ_r, Nat.Div0.div_lt_upper_bound. lia. }
  destruct (decide (n <= 1536)%nat) as [Hn|Hn].
  - replace n1 with n by lia. replace (n - n)%nat with 0%nat by lia. cbn [nblk]. split; [lia|]. split; [by replace n with n1 by lia|by left].
  - replace n1 with (3 * 512)%nat in * by lia. assert ((off + 3 * 512) mod 512 = 0)%nat as Ha' by (by rewrite Nat.Div0.mod_add).
    split; [|split; [done|by right]]. rewrite nblk_aligned by done. change ((3 * 512 + 511) / 512)%nat with 3%nat.
    replace (n + 511)%nat with (n - 3 * 512 + 511 + 3 * 512)%nat by lia. rewrite Nat.div_add by lia. lia.
Qed.

Lemma has_room_less grow V I ip off n n1 : (n1 <= n)%nat -> (nblk off n1 <= nblk off n)%nat -> has_room sb grow V I ip off n -> has_room sb grow V I ip off n1.
Proof. intros Hn Hb Hr. destruct grow; cbn [has_room] in *; [lia|]. intros m Hm Hlt. apply Hr; [done|lia]. Qed.

Lemma has_room_chunk grow V I V' I' ip off n n1 : (n1 <= n)%nat -> (off + n <= 512 * 140)%nat -> nblk off n = (nblk off n1 + nblk (off + n1) (n - n1))%nat ->
  has_room sb grow V I ip off n -> (forall k, (k <= 140)%nat -> ref V I ip k <> 0 -> ref V' I' ip k <> 0) ->
  (nfree sb V <= nfree sb V' + cst grow (nblk off n1))%nat -> has_room sb grow V' I' ip (off + n1) (n - n1).
Proof.
  intros Hn Hmax En Hr Hk Hf. destruct grow; cbn [has_room cst] in *; [lia|].
  intros m Hm Hlt. apply Hk; [apply place_le; lia|]. apply Hr; [|lia]. etransitivity; [|exact Hm]. apply Nat.Div0.div_le_mono. lia.
Qed.

Lemma filewrite_spec s V I T f x ip i off l grow : ftx (fl_fs s) [] 0 0 V I -> finv V I T -> ip ∈ T -> I !! ip = Some i -> ready i ->
  fl_files s !! f = Some x -> fd_ip x = Some ip -> fd_off x = Z.of_nat off -> Z.of_nat off <= i_size i ->
  (off mod 512 = 0)%nat -> (off + length l <= 512 * 140)%nat -> has_room sb grow V I ip off (length l) ->
  wp (filewrite_inode dev_write f l) (fun r s' => r = Z.of_nat (length l) /\
    fl_files s' = <[f := set_fd_off (Z.of_nat (off + length l)) x]> (fl_files s) /\
    exists V' I', ftx (fl_fs s') [] 0 0 V' I' /\
      written V I V' I' T ip off l (cst grow (nblk off (length l))) (Z.max (i_size i) (Z.of_nat (off + length l)))) s.
Proof.
  intros Hs Hf Hip Hi Hrd Hx Hxi Hxo Hsz Ha Hmax Hroom. unfold filewrite_inode. apply wp_bind. set (fs0 := fl_files s) in *.
  apply (wp_loop (fun k a s' => exists l1 rest V' I' c, a = (Z.of_nat (length l1), rest) /\ l = l1 ++ rest /\ k = length rest /\
    fl_files s' = <[f := set_fd_off (Z.of_nat (off + length l1)) x]> fs0 /\ ftx (fl_fs s') [] 0 0 V' I' /\
    written V I V' I' T ip off l1 c (Z.max (i_size i) (Z.of_nat (off + length l1))) /\
    (c + cst grow (nblk (off + length l1) (length rest)) <= cst grow (nblk off (length l)))%nat /\
    has_room sb grow V' I' ip (off + length l1) (length rest) /\ (length rest = 0 \/ (off + length l1) mod 512 = 0)%nat)) with (n := length l); [|lia|].
  2:{ exists [], l, V, I, 0%nat. cbn [length]. rewrite Nat.add_0_r, Z.max_l, <- Hxo, list_insert_id by (done || by destruct x).
      split_and!; [done..|by apply (written_nil _ _ _ _ _ _ _ i)|lia|done|by right]. }
  clearbody fs0. clear s Hs Hroom. intros k a s (l1 & rest & V' & I' & c & -> & El & -> & Hfs & Hs & Hw & Hc & Hroom & Hal).
  assert (length l = length l1 + length rest)%nat as Elen by (by rewrite El, length_app).
  destruct (decide (length rest = 0)%nat) as [E0|E0].
  { assert (rest = []) as -> by (by apply nil_length_inv). rewrite app_nil_r in El. subst l1. unfold filewrite_body. rewrite Z.ltb_irrefl. cbn [negb]. apply wp_ret, wp_ret.
    rewrite Z.eqb_refl. split; [done|]. split; [done|]. exists V', I'. split; [done|]. eapply written_weaken; [exact Hw|]. cbn [length nblk] in Hc. lia. }
  destruct Hal as [?|Hal]; [done|]. destruct (wn_ino _ _ _ _ _ _ _ _ _ _ _ _ Hw ip i Hi) as (i' & Hi' & Es & Hk). rewrite decide_True in Es by done.
  destruct (nblk_chunk (off + length l1) (length rest) Hal) as (En & E4 & Hal'). set (n1 := Nat.min (length rest) 1536) in *.
  assert (length (take n1 rest) = n1) as Hn1 by (rewrite length_take; lia).
  assert (f < length fs0)%nat as Hlt by (by eapply lookup_lt_Some).
  pose proof (filewrite_round s V' I' T f (set_fd_off (Z.of_nat (off + length l1)) x) ip i' (off + length l1) (length l) (length l1) rest grow Hs) as Hround.
  replace (length l - length l1)%nat with (length rest) in Hround by lia. cbv zeta in Hround. fold n1 in Hround.
  eapply wp_mono; [apply Hround|]; [exact (wn_finv _ _ _ _ _ _ _ _ _ _ _ _ Hw)|done|done|by eapply ready_alike| |done|done|lia|lia|lia|lia| |done|].
  { rewrite Hfs. by apply list_lookup_insert_eq. }
  { eapply has_room_less; [| |exact Hroom]; lia. }
  clear Hround. intros r s' (-> & Hfs' & V2 & I2 & Hs2 & Hw2). exists (length rest - n1)%nat. split; [lia|].
  exists (l1 ++ take n1 rest), (drop n1 rest), V2, I2, (c + cst grow (nblk (off + length l1) n1))%nat.
  rewrite length_app, Hn1, length_drop, !Nat.add_assoc. split_and!; [done| |done| |done| | | |done].
  - by rewrite <- app_assoc, take_drop.
  - rewrite Hfs', Hfs, list_insert_insert_eq. by destruct x.
  - rewrite Es in Hw2. replace (Z.max (Z.max _ _) _) with (Z.max (i_size i) (Z.of_nat (off + length l1 + n1))) in Hw2 by lia. by eapply written_app.
  - rewrite En in Hc. destruct grow; cbn [cst] in *; lia.
  - eapply (has_room_chunk grow V' I'); [lia|lia|done|done| |exact (wn_free _ _ _ _ _ _ _ _ _ _ _ _ Hw2)]. intros k Hk'. by apply (wn_ref _ _ _ _ _ _ _ _ _ _ _ _ Hw2).
Qed.

(** Reading and a refused write change nothing but the lock of the inode. *)
Lemma written_relock V I T ip i k k' off : finv V I T -> ip ∈ T -> I !! ip = Some i ->
  sl_lk k' = sl_lk (i_lock i) -> sl_locked k' = sl_locked (i_lock i) ->
  written V I V (<[ip := set_i_lock k' (set_i_lock k i)]> (<[ip := set_i_lock k i]> I)) T ip off [] 0 (i_size i).
Proof.
  intros Hf Hip Hi Hlk Hlo. destruct (lock_frame V I T ip i k Hf Hi Hip) as (F & _ & _).
  assert (<[ip := set_i_lock k i]> I !! ip = Some (set_i_lock k i)) as E by (apply list_lookup_insert_eq; by eapply lookup_lt_Some).
  eapply (written_locked V I V _ T ip i k k'); [done|done|done| |done|done|done]. apply (written_nil _ _ _ _ _ _ _ (set_i_lock k i) F E).
Qed.

Lemma fileread_spec s V I T f x ip i off n : ftx (fl_fs s) [] 0 0 V I -> finv V I T -> ip ∈ T -> I !! ip = Some i -> ready i ->
  fl_files s !! f = Some x -> fd_ip x = Some ip -> fd_off x = Z.of_nat off -> Z.of_nat (off + n) <= i_size i -> present V I ip (off + n) ->
  wp (fileread_inode dev_read f (Z.of_nat n)) (fun r s' => r = (Z.of_nat n, fbytes V I ip off n) /\
    (exists o, fl_files s' = <[f := set_fd_off o x]> (fl_files s)) /\
    exists I', ftx (fl_fs s') [] 0 0 V I' /\ written V I V I' T ip 0 [] 0 (i_size i)) s.
Proof.
  intros Hs Hf Hip Hi Hr Hx Hxi Hxo Hsz Hp. unfold fileread_inode. apply wp_bind. eapply wp_getf; [done|].
  rewrite Hxi. apply wp_bind, wp_infsst. eapply wp_mono; [by eapply ilock_ftx|]. intros [] s2 (k & Hk1 & Hk2 & H2).
  destruct (lock_frame V I T ip i k Hf Hi Hip) as (F2 & R2 & D2). set (I2 := <[ip := _]> I) in *.
  assert (I2 !! ip = Some (set_i_lock k i)) as E2 by (apply list_lookup_insert_eq; by eapply lookup_lt_Some).
  apply wp_bind. eapply wp_getf; [done|]. rewrite Hxi, Hxo. apply wp_bind, wp_infsst.
  eapply wp_mono; [apply (readi_spec G sb dev_read s2 0 0 V I2 T ip (set_i_lock k i) off n H2 F2 Hip E2 Hsz)|].
  { intros m Hm. rewrite R2 by done. by apply Hp. }
  intros r s3 (-> & H3). assert (fbytes V I2 ip off n = fbytes V I ip off n) as ->.
  { unfold fbytes. apply map_ext_in. intros j _. unfold fbyte. by rewrite D2. }
  rewrite length_fbytes. apply wp_bind. destruct Hr as (Hr & _ & Hlk & Hlo).
  match goal with |- wp ?m ?Q ?t => enough (forall t', fl_fs t' = s3 -> (exists o, fl_files t' = <[f := set_fd_off o x]> (fl_files s)) -> Q tt t') as Hq end.
  { unfold when. case_match; [eapply wp_updf; [done|]; apply Hq; [done|]; by eexists|]. apply wp_ret, Hq; [done|]. exists (fd_off x).
    rewrite list_insert_id by (by destruct x). done. }
  intros t <- Hfs. apply wp_bind, wp_infsst. eapply wp_mono; [apply (iunlock_ftx _ [] 0 0 V I2 ip _ H3 E2); done|].
  intros [] s4 (k' & Hk1' & Hk2' & H4). apply wp_ret. split; [done|]. split; [done|]. eexists. split; [exact H4|].
  apply written_relock; (done || congruence).
Qed.

Lemma filewrite_hole s V I T f x ip i off l : ftx (fl_fs s) [] 0 0 V I -> finv V I T -> ip ∈ T -> I !! ip = Some i -> ready i ->
  fl_files s !! f = Some x -> fd_ip x = Some ip -> fd_off x = off -> i_size i < off -> (0 < length l)%nat ->
  wp (filewrite_inode dev_write f l) (fun r s' => r = -1 /\ fl_files s' = fl_files s /\
    exists I', ftx (fl_fs s') [] 0 0 V I' /\ written V I V I' T ip 0 [] 0 (i_size i)) s.
Proof.
  intros Hs Hf Hip Hi Hr Hx Hxi Hxo Hsz Hl. unfold filewrite_inode. apply wp_bind.
  enough (wp (filewrite_body dev_write f (Z.of_nat (length l)) (0, l)) (fun r s' => r = inr 0 /\ fl_files s' = fl_files s /\
    exists I', ftx (fl_fs s') [] 0 0 V I' /\ written V I V I' T ip 0 [] 0 (i_size i)) s) as Hb.
  { cbn [loop]. apply wp_bind. eapply wp_mono; [exact Hb|]. intros r s' (-> & HQ). apply wp_ret, wp_ret. rewrite (proj2 (Z.eqb_neq _ _)) by lia. by split. }
  unfold filewrite_body. rewrite (proj2 (Z.ltb_lt _ _)) by lia. cbn [negb].
  apply wp_bind, wp_infsst. eapply wp_mono; [by apply begin_ftx|]. intros [] s1 H1.
  apply wp_bind. eapply wp_getf; [done|]. apply wp_bind, wp_infsst. rewrite Hxi. eapply wp_mono; [by eapply ilock_ftx|]. intros [] s2 (k & Hk1 & Hk2 & H2).
  destruct (lock_frame V I T ip i k Hf Hi Hip) as (F2 & R2 & D2). set (I2 := <[ip := _]> I) in *.
  assert (I2 !! ip = Some (set_i_lock k i)) as E2 by (apply list_lookup_insert_eq; by eapply lookup_lt_Some).
  apply wp_bind. eapply wp_getf; [done|]. rewrite Hxi, Hxo. apply wp_bind, wp_infsst.
  eapply wp_mono; [by apply (writei_hole G sb dev_write s2 1 28 V I2 T ip (set_i_lock k i))|]. intros r s3 (-> & ->). cbn [when].
  destruct Hr as (Hr & _ & Hlk & Hlo). apply wp_bind, wp_ret, wp_bind, wp_infsst.
  eapply wp_mono; [apply (iunlock_ftx _ [] 1 28 V I2 ip _ H2 E2); done|]. intros [] s4 (k' & Hk1' & Hk2' & H4).
  apply wp_bind, wp_infsst. eapply wp_mono; [by eapply end_ftx|]. intros [] s5 H5. apply wp_ret. split; [done|]. split; [done|]. eexists. split; [exact H5|].
  apply written_relock; (done || congruence).
Qed.

End store.
