(* ===== verification/FileStore.v ===== *)
(** * Swap files on the real file system

    The file layer of the kernel ([File], [Fs], [Log], [Bio]) implements the interface [SwapStore]
    that the paging code is verified against: an open file of whole pages on an inode of its own
    is read and written at the offset that was set, a write allocates the blocks it needs, and a
    write beyond the end is refused.  Between two operations no transaction is open, no inode is
    locked, and the blocks of different files are different. *)
From Stdlib Require Import ZArith Lia.
From stdpp Require Import base list numbers strings gmap.
From S2P Require Import Prelude Mmu Resume Kstate Swap Block Bio BioSpec Log LogSpec LogThms Tx Fs FsInv FsSpec Pipe File FileSpec Sysfile.
Import Prelude Fs FsSpec File.
Local Open Scope Z_scope.

(** ** The bytes of a file after a write *)

Lemma nth_fbytes V I ip off n j : (j < n)%nat -> nth j (fbytes V I ip off n) 0 = fbyte V I ip (off + j).
Proof.
  intros Hj. unfold fbytes. rewrite (nth_indep _ 0 (fbyte V I ip 0)) by (by rewrite length_map, length_seq). rewrite map_nth. f_equal. by apply seq_nth.
Qed.

Lemma fbytes_slice V I ip off n len : (off + n <= len)%nat -> take n (drop off (fbytes V I ip 0 len)) = fbytes V I ip off n.
Proof.
  intros Hn. replace len with (off + (n + (len - off - n)))%nat by lia. rewrite <- !fbytes_app.
  rewrite drop_app_length' by (by rewrite length_fbytes). by rewrite take_app_length' by (by rewrite length_fbytes).
Qed.

Lemma nth_splice off l c j : (off <= length c)%nat -> nth j (splice off l c) 0 =
  if decide (off <= j < off + length l)%nat then nth (j - off) l 0 else nth j c 0.
Proof.
  intros Ho. unfold splice. assert (length (take off c) = off) as Ht by (rewrite length_take; lia). rewrite !nth_lookup. case_decide as Hd.
  - rewrite lookup_app_r, Ht by lia. by rewrite lookup_app_l by lia.
  - destruct (decide (j < off)%nat); [by rewrite lookup_app_l, lookup_take_lt by lia|].
    rewrite !lookup_app_r, Ht, lookup_drop by lia. do 2 f_equal. lia.
Qed.

Lemma fbytes_written G sb V I V' I' T ip off l n z c : written G sb V I V' I' T ip off l n z -> ip ∈ T -> (off <= length c)%nat ->
  c = fbytes V I ip 0 (length c) -> (length (splice off l c) <= 512 * 140)%nat -> splice off l c = fbytes V' I' ip 0 (length (splice off l c)).
Proof.
  intros Hw Hip Ho Hc Hmax. apply (nth_ext _ _ 0 0); [by rewrite length_fbytes|]. intros j Hj. rewrite nth_fbytes by done. rewrite nth_splice by done.
  rewrite (wn_bytes _ _ _ _ _ _ _ _ _ _ _ _ Hw) by (done || lia). cbn [Nat.add]. rewrite length_splice in Hj by done.
  destruct (decide (off <= j < off + length l)%nat) as [Hd|Hd]; [by rewrite decide_True by (split; [done|lia])|].
  rewrite decide_False by (intros [_ ?]; lia). rewrite Hc, nth_fbytes by lia. done.
Qed.

Lemma pgn_blocks : pgn = (8 * 512)%nat.
Proof. done. Qed.

Section store.
Context (G : geom) (sb : superblock).

Local Abbreviation ftx := (ftx G sb).
Local Abbreviation finv := (finv G sb).
Local Abbreviation written := (written G sb).

(** [c] are the bytes of the open file [f] on inode [ip]. *)
Record holds_file (s : flst) (V : Z -> list Z) (I : list inode) (T : list nat) (f ip : nat) (c : list Z) : Prop := {
  hf_file : exists x, fl_files s !! f = Some x /\ fd_type x = FD_INODE /\ fd_readable x = true /\ fd_writable x = true /\ fd_ip x = Some ip;
  hf_ip : ip ∈ T;
  hf_ino : exists i, I !! ip = Some i /\ ready i /\ i_size i = Z.of_nat (length c);
  hf_bytes : c = fbytes V I ip 0 (length c);
  hf_present : present V I ip (length c) }.

(** The files [m] are open, each on an inode of its own. *)
Definition real_stored (s : flst) (m : gmap nat (list Z)) : Prop := exists V I T (ip : nat -> nat),
  ftx (fl_fs s) [] 0 0 V I /\ finv V I T /\ (forall f c, m !! f = Some c -> holds_file s V I T f (ip f) c) /\
  (forall f g, is_Some (m !! f) -> is_Some (m !! g) -> ip f = ip g -> f = g).

(** A page takes 8 blocks, and each may need an indirect block. *)
Definition real_room (s : flst) (n : nat) : Prop := (16 * n <= nfree sb (view (ls_b (f_l (fl_fs s)))))%nat.

Lemma holds_file_max s V I T f ip c : finv V I T -> holds_file s V I T f ip c -> (length c <= 512 * 140)%nat.
Proof.
  intros Hf [_ Hip (i & Hi & _ & Hs) _ _]. destruct (fv_ino _ _ _ _ _ Hf ip Hip) as (i' & Hi' & [_ _ _ _ Hsz]). assert (i' = i) as -> by congruence.
  unfold MAXFILE, BSIZE in Hsz. lia.
Qed.

Lemma room_view (Hly : layout G sb) s V I : ftx (fl_fs s) [] 0 0 V I -> nfree sb (view (ls_b (f_l (fl_fs s)))) = nfree sb V.
Proof.
  intros Hs. unfold nfree. f_equal. apply filter_same. intros b Hb%elem_of_seq. unfold used.
  rewrite (tx_view _ _ _ _ _ _ (ft_tx _ _ _ _ _ _ _ _ Hs)); [done|]. apply (ly_bmap _ _ Hly). unfold in_fs. lia.
Qed.

(** The other files are as they were. *)
Lemma holds_file_other s s' V I V' I' T f ip c ip' off l n z : holds_file s V I T f ip c -> finv V I T -> written V I V' I' T ip' off l n z -> ip <> ip' ->
  fl_files s' !! f = fl_files s !! f -> holds_file s' V' I' T f ip c.
Proof.
  intros Hh Hf Hw Hne Hx. pose proof (holds_file_max _ _ _ _ _ _ _ Hf Hh) as Hmax. destruct Hh as [Hh1 Hip (i & Hi & Hr & Hs) Hb Hp]. constructor.
  - by rewrite Hx.
  - done.
  - destruct (wn_ino _ _ _ _ _ _ _ _ _ _ _ _ Hw ip i Hi) as (i' & Hi' & Es & Hk). rewrite decide_False in Es by done. exists i'.
    split; [done|]. split; [by eapply ready_alike|congruence].
  - rewrite Hb at 1. unfold fbytes. apply map_ext_in. intros j Hj%in_seq. rewrite (wn_bytes _ _ _ _ _ _ _ _ _ _ _ _ Hw) by (done || lia).
    by rewrite decide_False by naive_solver.
  - intros m Hm. apply (wn_ref _ _ _ _ _ _ _ _ _ _ _ _ Hw); [done|apply place_le; lia|by apply Hp].
Qed.

(** The file that was written. *)
Lemma holds_file_written s s' V I V' I' T f ip c x o off l n : holds_file s V I T f ip c -> (off <= length c)%nat ->
  (length (splice off l c) <= 512 * 140)%nat -> written V I V' I' T ip off l n (Z.of_nat (length (splice off l c))) ->
  fl_files s !! f = Some x -> fl_files s' = <[f := set_fd_off o x]> (fl_files s) -> holds_file s' V' I' T f ip (splice off l c).
Proof.
  intros [(x' & Hx' & Ht & Hre & Hwr & Hxi) Hip (i & Hi & Hr & Hs) Hb Hp] Ho Hmax Hw Hx Hx2. assert (x' = x) as -> by congruence. constructor.
  - eexists. rewrite Hx2, list_lookup_insert_eq by (by eapply lookup_lt_Some). by split_and!.
  - done.
  - destruct (wn_ino _ _ _ _ _ _ _ _ _ _ _ _ Hw ip i Hi) as (i' & Hi' & Es & Hk). rewrite decide_True in Es by done. exists i'.
    split; [done|]. split; [by eapply ready_alike|done].
  - by eapply fbytes_written.
  - intros m Hm. rewrite length_splice in Hm, Hmax by done. destruct (decide (512 * m < length c)%nat) as [Hlt|Hge].
    + apply (wn_ref _ _ _ _ _ _ _ _ _ _ _ _ Hw); [done|apply place_le; lia|by apply Hp].
    + apply (wn_present _ _ _ _ _ _ _ _ _ _ _ _ Hw); [lia| |lia|lia]. pose proof (Nat.div_mod_eq off 512). lia.
Qed.

Lemma real_stored_write s s' m f c V I T ip V' I' x o off l n : finv V I T -> (forall g d, m !! g = Some d -> holds_file s V I T g (ip g) d) ->
  (forall g h, is_Some (m !! g) -> is_Some (m !! h) -> ip g = ip h -> g = h) -> m !! f = Some c -> (off <= length c)%nat ->
  (length (splice off l c) <= 512 * 140)%nat -> written V I V' I' T (ip f) off l n (Z.of_nat (length (splice off l c))) ->
  fl_files s !! f = Some x -> fl_files s' = <[f := set_fd_off o x]> (fl_files s) -> ftx (fl_fs s') [] 0 0 V' I' ->
  real_stored s' (<[f := splice off l c]> m).
Proof.
  intros Hf Hh Hinj Hc Ho Hmax Hw Hx Hx' Hs'. exists V', I', T, ip. split; [done|]. split; [exact (wn_finv _ _ _ _ _ _ _ _ _ _ _ _ Hw)|]. split.
  - intros g d [[<- <-]|[Hg Hd]]%lookup_insert_Some; [by eapply (holds_file_written s s'); [apply Hh| | | | |]|].
    eapply (holds_file_other s s'); [by apply Hh|done|exact Hw| |].
    + intros E. apply Hg. symmetry. by apply Hinj; [eexists|eexists|].
    + rewrite Hx'. by rewrite list_lookup_insert_ne.
  - intros g h Hg Hh'. apply Hinj; [destruct (decide (g = f)) as [->|]|destruct (decide (h = f)) as [->|]];
      rewrite ?lookup_insert_ne in * by done; (done || by eexists).
Qed.

Lemma splice_nil off c : splice off [] c = c.
Proof. unfold splice. cbn [length app]. by rewrite Nat.add_0_r, take_drop. Qed.

(** A run that changes no bytes. *)
Lemma real_stored_same s s' m f c V I T ip V' I' x o n : finv V I T -> (forall g d, m !! g = Some d -> holds_file s V I T g (ip g) d) ->
  (forall g h, is_Some (m !! g) -> is_Some (m !! h) -> ip g = ip h -> g = h) -> m !! f = Some c ->
  written V I V' I' T (ip f) 0 [] n (Z.of_nat (length c)) ->
  fl_files s !! f = Some x -> fl_files s' = <[f := set_fd_off o x]> (fl_files s) -> ftx (fl_fs s') [] 0 0 V' I' -> real_stored s' m.
Proof.
  intros Hf Hh Hinj Hc Hw Hx Hx' Hs'. rewrite <- (insert_id m f c Hc), <- (splice_nil 0 c).
  eapply real_stored_write; [done|done|done|done|lia| | |done|done|done]; rewrite splice_nil; [by eapply holds_file_max, Hh|done].
Qed.

(** ** The interface *)

Context (Hly : layout G sb) (Hlog : 28 < gm_size G).
Context (dev_read : Z -> option (nat -> Z -> M fsst (option (list Z)))) (dev_write : Z -> option (nat -> list Z -> M fsst Z)).

(** On an open inode, the calls do not sleep. *)
Lemma now_filewrite s f x l n (Q : Z -> flst -> Prop) : fl_files s !! f = Some x -> fd_type x = FD_INODE -> fd_writable x = true ->
  wp (filewrite_inode dev_write f l) Q s -> wp (now (filewrite dev_write n f l)) Q s.
Proof.
  intros Hx Ht Hw (r & s' & E & HQ)%wp_elim. eapply wp_intro; [|exact HQ]. unfold now, filewrite, bind. cbn [run_until pbind act].
  unfold getf at 1. rewrite Hx, Hw, Ht. cbn [negb run_until act]. by rewrite E.
Qed.

Lemma now_fileread s f x k n (Q : Z * list Z -> flst -> Prop) : fl_files s !! f = Some x -> fd_type x = FD_INODE -> fd_readable x = true ->
  wp (fileread_inode dev_read f k) Q s -> wp (now (fileread dev_read n f k)) Q s.
Proof.
  intros Hx Ht Hw (r & s' & E & HQ)%wp_elim. eapply wp_intro; [|exact HQ]. unfold now, fileread, bind. cbn [run_until pbind act].
  unfold getf at 1. rewrite Hx, Hw, Ht. cbn [negb run_until act]. by rewrite E.
Qed.

(** Setting the offset first. *)
Lemma setoff_first {A} s f x o (m : M flst A) Q : fl_files s !! f = Some x ->
  wp m Q (set_fl_files (<[f := set_fd_off o x]> (fl_files s)) s) -> wp (updf f (set_fd_off o) ;;; m) Q s.
Proof. intros Hx Hm. apply wp_bind. by eapply wp_updf. Qed.

Lemma real_write s m f k l c : real_stored s m -> m !! f = Some c -> (exists j, length c = (pgn * j)%nat) ->
  (k < MAX_PSYC_PAGES)%nat -> (pgn * k <= length c)%nat -> length l = pgn -> real_room s (page_growth k c) ->
  wp (updf f (set_fd_off (PGSIZE * Z.of_nat k)) ;;; now (filewrite dev_write 1 f l)) (fun r s' => r = PGSIZE /\
    real_stored s' (<[f := splice (pgn * k) l c]> m) /\ (forall n, real_room s (page_growth k c + n) -> real_room s' n)) s.
Proof.
  intros (V & I & T & ip & Hs & Hf & Hh & Hinj) Hc [j Hj] Hk Hkc Hl Hroom. pose proof (Hh f c Hc) as Hhf.
  pose proof (holds_file_max _ _ _ _ _ _ _ Hf Hhf) as Hmax. destruct Hhf as [(x & Hx & Ht & _ & Hwr & Hxi) Hip (i & Hi & Hr & Hsz) Hb Hp].
  unfold real_room in *. rewrite (room_view Hly s V I Hs) in *. unfold MAX_PSYC_PAGES in Hk.
  assert (f < length (fl_files s))%nat as Hlt by (by eapply lookup_lt_Some). set (off := (pgn * k)%nat) in *.
  assert (off = 8 * k * 512)%nat as Eoff by (unfold off; rewrite pgn_blocks; lia).
  assert (off mod 512 = 0)%nat as Ha by (rewrite Eoff; apply Nat.Div0.mod_mul).
  assert (nblk off (length l) = 8%nat) as E8 by (by rewrite nblk_aligned, Hl by done).
  set (grow := negb (bool_decide (off + pgn <= length c)%nat)).
  assert (cst grow 8 = 16 * page_growth k c)%nat as Ecst by (unfold grow, page_growth; case_bool_decide; [by rewrite decide_True|by rewrite decide_False]).
  assert (length (splice off l c) = Nat.max (length c) (off + length l)) as El by (by apply length_splice).
  assert (has_room sb grow V I (ip f) off (length l)) as Hgrow.
  { unfold grow, page_growth in *. case_bool_decide as Hd; fold off in Hroom; cbn [negb has_room].
    - intros q _ Hq. apply Hp. lia.
    - rewrite E8. rewrite decide_False in Hroom by done. lia. }
  assert (off + length l <= 512 * 140)%nat as Hm2 by (rewrite Hl, Eoff, pgn_blocks; lia).
  eapply setoff_first; [done|]. eapply now_filewrite; [by apply list_lookup_insert_eq|done|done|].
  eapply wp_mono; [eapply (filewrite_spec G sb Hly Hlog dev_write _ V I T f (set_fd_off (PGSIZE * Z.of_nat k) x) (ip f) i off l grow)|]; try done.
  { by apply list_lookup_insert_eq. }
  { cbn [fd_off set_fd_off]. unfold off, PGSIZE, pgn. lia. }
  { rewrite Hsz. lia. }
  cbn [fl_files set_fl_files]. intros r s' (-> & Hfs & V' & I' & Hs' & Hw). rewrite list_insert_insert_eq in Hfs. split; [by rewrite Hl|].
  rewrite E8 in Hw. replace (Z.max _ _) with (Z.of_nat (length (splice off l c))) in Hw by lia. split.
  - eapply (real_stored_write s s' m f c V I T ip V' I'); [done|done|done|done|done|lia|exact Hw|done|exact Hfs|done].
  - intros n Hn. rewrite (room_view Hly s' V' I' Hs'). pose proof (wn_free _ _ _ _ _ _ _ _ _ _ _ _ Hw). lia.
Qed.

Lemma real_hole s m f k l c : real_stored s m -> m !! f = Some c -> (length c < pgn * k)%nat -> length l = pgn ->
  wp (updf f (set_fd_off (PGSIZE * Z.of_nat k)) ;;; now (filewrite dev_write 1 f l)) (fun r s' => r = -1 /\ real_stored s' m) s.
Proof.
  intros (V & I & T & ip & Hs & Hf & Hh & Hinj) Hc Hkc Hl. pose proof (Hh f c Hc) as Hhf.
  destruct Hhf as [(x & Hx & Ht & _ & Hwr & Hxi) Hip (i & Hi & Hr & Hsz) _ _].
  assert (f < length (fl_files s))%nat as Hlt by (by eapply lookup_lt_Some).
  eapply setoff_first; [done|]. eapply now_filewrite; [by apply list_lookup_insert_eq|done|done|].
  eapply wp_mono; [eapply (filewrite_hole G sb Hlog dev_write _ V I T f (set_fd_off (PGSIZE * Z.of_nat k) x) (ip f) i _ l)|]; try done.
  { by apply list_lookup_insert_eq. }
  { rewrite Hsz. cbn [fd_off set_fd_off]. unfold PGSIZE, pgn in *. lia. }
  { rewrite Hl, pgn_blocks. lia. }
  intros r s' (-> & Hfs & I' & Hs' & Hw). split; [done|]. rewrite Hsz in Hw.
  eapply (real_stored_same s s' m f c V I T ip V I'); [done|done|done|done|exact Hw|done|exact Hfs|done].
Qed.

Lemma real_read s m f k c : real_stored s m -> m !! f = Some c -> (pgn * k + pgn <= length c)%nat ->
  wp (updf f (set_fd_off (PGSIZE * Z.of_nat k)) ;;; now (fileread dev_read 1 f PGSIZE)) (fun r s' => r = (PGSIZE, take pgn (drop (pgn * k) c)) /\
    real_stored s' m /\ (forall n, real_room s n -> real_room s' n)) s.
Proof.
  intros (V & I & T & ip & Hs & Hf & Hh & Hinj) Hc Hkc. pose proof (Hh f c Hc) as Hhf.
  destruct Hhf as [(x & Hx & Ht & Hre & _ & Hxi) Hip (i & Hi & Hr & Hsz) Hb Hp].
  assert (f < length (fl_files s))%nat as Hlt by (by eapply lookup_lt_Some).
  eapply setoff_first; [done|]. eapply now_fileread; [by apply list_lookup_insert_eq|done|done|]. change PGSIZE with (Z.of_nat pgn) at 2.
  eapply wp_mono; [eapply (fileread_spec G sb dev_read _ V I T f (set_fd_off (PGSIZE * Z.of_nat k) x) (ip f) i (pgn * k) pgn)|]; try done.
  { by apply list_lookup_insert_eq. }
  { cbn [fd_off set_fd_off]. unfold PGSIZE, pgn. lia. }
  { rewrite Hsz. lia. }
  { intros q Hq. apply Hp. lia. }
  cbn [fl_files set_fl_files]. intros r s' (-> & [o Hfs] & I' & Hs' & Hw). rewrite list_insert_insert_eq in Hfs. split_and!.
  - f_equal. rewrite Hb. by rewrite fbytes_slice.
  - rewrite Hsz in Hw. eapply (real_stored_same s s' m f c V I T ip V I'); [done|done|done|done|exact Hw|done|exact Hfs|done].
  - intros n. unfold real_room. by rewrite (room_view Hly s V I Hs), (room_view Hly s' V I' Hs').
Qed.

(** The file layer is a store of swap files: the theorems about paging hold with it. *)
#[program]
Definition real_swapstore : @SwapStore flst (real_filesys dev_read dev_write) := {|
  Swap.stored := real_stored;
  Swap.room := real_room |}.
Next Obligation.
  intros s m f k l c Hs Hc Hj Hk Hkc Hl Hr. destruct (wp_elim _ _ _ (real_write s m f k l c Hs Hc Hj Hk Hkc Hl Hr)) as (r & s' & E & -> & HQ). by exists s'.
Qed.
Next Obligation.
  intros s m f k l c Hs Hc Hk Hkc Hl. destruct (wp_elim _ _ _ (real_hole s m f k l c Hs Hc Hkc Hl)) as (r & s' & E & -> & HQ). by exists s'.
Qed.
Next Obligation.
  intros s m f k c Hs Hc Hkc. destruct (wp_elim _ _ _ (real_read s m f k c Hs Hc Hkc)) as (r & s' & E & -> & HQ). by exists s'.
Qed.
Next Obligation. intros s. unfold real_room. lia. Qed.
Next Obligation. intros s n m Hm. unfold real_room. lia. Qed.

End store.

(** ** The file system of a cold cache *)

(** The view of the buffer cache after binit is the disk. *)
Lemma boot_view d pid x : view (boot_cache d pid) x = nth (Z.to_nat x) d [].
Proof.
  destruct (boot_inv d pid) as (Hi & Hp & Hd). revert Hi Hp Hd. generalize (boot_cache d pid). intros s Hi Hp Hd. rewrite (view_clean _ _ _ _ _ Hi Hp); [|by intros ? ? ?%not_elem_of_nil|by intros ?%not_elem_of_nil].
  unfold disk_at. by rewrite Hd.
Qed.

Lemma boot_tx G d pid : gm_len G = Z.of_nat (length d) -> gm_start G = 2 -> 0 < gm_size G <= Z.of_nat LOGSIZE -> 2 + gm_size G <= Z.of_nat (length d) ->
  tx G (mkLst (boot_cache d pid) (idle_log (gm_size G))) [] 0 0 (fun x => nth (Z.to_nat x) d []).
Proof.
  intros Hlen Hst Hsz Hfit. pose proof (boot_view d pid) as Hv. destruct (boot_inv d pid) as (Hi & Hp & Hd). revert Hv Hi Hp Hd.
  generalize (boot_cache d pid). intros s Hv Hi Hp Hd. constructor; cbn [ls_b ls_log]; try done.
  - exists (rev (seq 0 NBUF)), []. split; [done|]. split; [done|]. split.
    { constructor; (done || (cbn; rewrite ?Hd; lia) || (by apply NoDup_nil) || by intros ? ?%not_elem_of_nil). }
    cbn [length Nat.add]. split; [lia|]. split; [lia|done].
  - rewrite Hst, Hd. done.
  - split; [done|]. lia.
  - by intros ? ? ?%not_elem_of_nil.
  - constructor.
Qed.

(** ** An instance: an empty file on a small disk *)

Definition demo_sb : superblock := mkSuperblock 80 45 16 30 2 32 34.
Definition demo_geom : geom := {| gm_start := 2; gm_size := 30; gm_len := 80 |}.
(** The blocks up to the bitmap are in use. *)
Definition demo_bitmap : list Z := replicate 4 255 ++ [7] ++ replicate 507 0.
Definition demo_disk : list (list Z) := replicate 34 zeros ++ [demo_bitmap] ++ replicate 45 zeros.
Definition demo_inode : inode := mkInode 1 2 1 (mkSleeplock false false "inode" 0 0) true T_FILE 0 0 1 0 (replicate 13 0).
Definition demo_fs : fsst := mkFsst (mkLst (boot_cache demo_disk 1) (idle_log 30)) false [demo_inode] demo_sb 0.
Definition demo_files : flst := mkFlst demo_fs false [mkFile FD_INODE 1 true true 0 (Some 0%nat) 0] [] false.
Definition demo_view (x : Z) : list Z := nth (Z.to_nat x) demo_disk [].

Lemma demo_dblk x : dblk demo_geom x -> 0 <= x < 80.
Proof. intros [H _]. exact H. Qed.

Lemma demo_layout : layout demo_geom demo_sb.
Proof.
  constructor; [| |done].
  - intros b [H0 H1]. cbn in H1. assert (b / BPB = 0) as E by (apply Z.div_small; unfold BPB, BSIZE; lia).
    unfold BBLOCK. rewrite E, u32_small by (cbn; lia). cbn. split; [lia|]. unfold dblk. cbn. lia.
  - intros n [H0 H1]. cbn in H1. unfold IBLOCK. cbn [sb_inodestart demo_sb]. unfold IPB. rewrite u32_small by (Z.to_euclidean_division_equations; lia). split.
    + unfold dblk. cbn. Z.to_euclidean_division_equations. lia.
    + intros b [Hb0 Hb1]. cbn in Hb1. unfold BBLOCK. assert (b / BPB = 0) as -> by (apply Z.div_small; unfold BPB, BSIZE; lia).
      rewrite u32_small by (cbn; lia). cbn. Z.to_euclidean_division_equations. lia.
Qed.

Lemma demo_used : forallb (fun n => Bool.eqb (used demo_sb demo_view (Z.of_nat n)) (n <? 35)%nat) (seq 0 80) = true.
Proof. vm_compute. reflexivity. Qed.

Lemma demo_ref k : ref demo_view [demo_inode] 0 k = 0.
Proof. unfold ref. cbn [lookup list_lookup demo_inode i_addrs]. case_match; [|done]. rewrite nth_lookup. destruct (replicate 13 0 !! k) eqn:E; [|done]. by apply lookup_replicate in E as [-> _]. Qed.

Lemma demo_finv : finv demo_geom demo_sb demo_view [demo_inode] [0%nat].
Proof.
  constructor.
  - intros x Hx%demo_dblk. assert (Forall (fun b => length b = 512%nat) demo_disk) as Hall by (vm_compute; repeat constructor).
    rewrite Forall_forall in Hall. apply Hall, list_elem_of_In, nth_In. change (length demo_disk) with 80%nat. lia.
  - intros b [Hb0 Hb1] Hu. cbn in Hb1. pose proof demo_used as Hall. rewrite forallb_forall in Hall. specialize (Hall (Z.to_nat b) ltac:(apply in_seq; lia)).
    rewrite Z2Nat.id, Hu in Hall by done. apply eqb_prop, eq_sym, Nat.ltb_ge in Hall. split; [cbn; lia|]. split; [unfold dblk; cbn; lia|].
    assert (forall c, in_fs demo_sb c -> BBLOCK c demo_sb <> b /\ forall n, inum_ok demo_sb n -> IBLOCK n demo_sb <> b) as Hc; [|split; [intros c Hc1; by apply Hc|intros n; by apply (Hc b)]].
    intros c [Hc0 Hc1]. cbn in Hc1. unfold BBLOCK, IBLOCK. assert (c / BPB = 0) as -> by (apply Z.div_small; unfold BPB, BSIZE; lia).
    rewrite u32_small by (cbn; lia). split; [cbn; lia|]. intros n [Hn0 Hn1]. cbn in Hn1. cbn [sb_inodestart demo_sb]. unfold IPB.
    rewrite u32_small by (Z.to_euclidean_division_equations; lia). Z.to_euclidean_division_equations. lia.
  - intros ip ->%list_elem_of_singleton. exists demo_inode. split; [done|]. by constructor.
  - intros ip k ->%list_elem_of_singleton _ Hn. by rewrite demo_ref in Hn.
  - intros ip k ip' k' ->%list_elem_of_singleton _ _ _ Hn. by rewrite demo_ref in Hn.
Qed.

Lemma demo_stored : real_stored demo_geom demo_sb demo_files {[0%nat := []]}.
Proof.
  exists demo_view, [demo_inode], [0%nat], (fun f => f). split; [constructor; try done; by apply (boot_tx demo_geom demo_disk 1)|]. split; [exact demo_finv|]. split.
  - intros f c [<- <-]%lookup_singleton_Some. constructor; [by eexists|by left| |done|intros m Hm; simpl in Hm; lia].
    exists demo_inode. by split_and!.
  - by intros f g.
Qed.

Lemma demo_room : real_room demo_sb demo_files 1.
Proof. unfold real_room. rewrite (room_view demo_geom demo_sb demo_layout demo_files demo_view [demo_inode]); [vm_compute; lia|]. constructor; try done. by apply (boot_tx demo_geom demo_disk 1). Qed.

(** C3: the kernel's file layer (file table, inodes, block allocation, log and buffer cache)
    implements the swap files that paging relies on.  When no operation is in progress and the
    files [m] are open on inodes of their own, writing page [k] of a file that reaches up to it
    stores exactly that page (extending the file if it ends there, given free blocks), leaves
    every other file as it was, and reading the page back returns it; a write beyond the end is
    refused with -1 and changes no file; a page inside the file reads as its bytes. *)
Theorem real_files_implement_swap G sb dev_read dev_write s m f k l c :
  layout G sb -> 28 < gm_size G -> real_stored G sb s m -> m !! f = Some c -> (exists j, length c = (pgn * j)%nat) ->
  (k < MAX_PSYC_PAGES)%nat -> length l = pgn -> real_room sb s (page_growth k c) ->
  let fs := real_filesys dev_read dev_write in
  let write := fs_setoff f (PGSIZE * Z.of_nat k) ;;; fs_filewrite f l in
  let read := fs_setoff f (PGSIZE * Z.of_nat k) ;;; fs_fileread f PGSIZE in
  ((pgn * k <= length c)%nat -> exists s' s'', write s = Ret PGSIZE s' /\ real_stored G sb s' (<[f := splice (pgn * k) l c]> m) /\
     read s' = Ret (PGSIZE, l) s'' /\ real_stored G sb s'' (<[f := splice (pgn * k) l c]> m)) /\
  ((length c < pgn * k)%nat -> exists s', write s = Ret (-1) s' /\ real_stored G sb s' m) /\
  ((pgn * k + pgn <= length c)%nat -> exists s', read s = Ret (PGSIZE, take pgn (drop (pgn * k) c)) s' /\ real_stored G sb s' m).
Proof.
  intros Hly Hlog Hs Hc Hj Hk Hl Hr fs write read. split; [|split].
  - intros Hkc. destruct (wp_elim _ _ _ (real_write G sb Hly Hlog dev_write s m f k l c Hs Hc Hj Hk Hkc Hl Hr)) as (r & s' & E & -> & Hs' & _).
    assert (length (splice (pgn * k) l c) = Nat.max (length c) (pgn * k + pgn)) as El by (by rewrite length_splice, Hl).
    destruct (wp_elim _ _ _ (real_read G sb Hly dev_read s' _ f k _ Hs' ltac:(by rewrite lookup_insert_eq) ltac:(lia))) as (r & s'' & E' & -> & Hs'' & _).
    exists s', s''. split_and!; [exact E|done| |done]. unfold read. etransitivity; [exact E'|]. do 2 f_equal.
    unfold splice. rewrite drop_app_length' by (rewrite length_take; lia). by apply take_app_length'.
  - intros Hkc. destruct (wp_elim _ _ _ (real_hole G sb Hlog dev_write s m f k l c Hs Hc Hkc Hl)) as (r & s' & E & -> & HQ). by exists s'.
  - intros Hkc. destruct (wp_elim _ _ _ (real_read G sb Hly dev_read s m f k c Hs Hc Hkc)) as (r & s' & E & -> & HQ & _). by exists s'.
Qed.

Lemma real_files_implement_swap_witness :
  let fs := real_filesys (fun _ => None) (fun _ => None) in
  exists s' s'', (fs_setoff 0 0 ;;; fs_filewrite 0%nat (replicate pgn 7)) demo_files = Ret PGSIZE s' /\
    (fs_setoff 0 0 ;;; fs_fileread 0%nat PGSIZE) s' = Ret (PGSIZE, replicate pgn 7) s''.
Proof.
  destruct (real_files_implement_swap demo_geom demo_sb (fun _ => None) (fun _ => None) demo_files {[0%nat := []]} 0 0 (replicate pgn 7) []) as [Hw _].
  - exact demo_layout.
  - done.
  - exact demo_stored.
  - by apply lookup_singleton_Some.
  - by exists 0%nat.
  - unfold MAX_PSYC_PAGES. lia.
  - apply length_replicate.
  - exact demo_room.
  - destruct Hw as (s' & s'' & E & _ & E' & _); [simpl; lia|]. exists s', s''. by split.
Defined.
