(* ===== verification/User.v ===== *)
(** * User programs (src/user.h)

    A user program is the tree of the system calls it makes: after each call it goes on with the
    value the call returns and the bytes or numbers the call has stored for it.  [UDone] is the
    return of a C function, [UExit] the system call exit, which does not return, and [UFuel] the
    end of the fuel of a loop. *)
From Stdlib Require Import ZArith Lia.
From stdpp Require Import base list numbers strings.
From S2P Require Import Prelude.
Local Open Scope Z_scope.

Inductive call :=
| CFork
| CWait
| CPipe  (* stores p[0] and p[1] *)
| CWrite (fd : Z) (l : list Z)
| CRead (fd n : Z)  (* stores what was read *)
| CClose (fd : Z)
| CKill (pid : Z)
| CExec (path : list Z) (argv : list (list Z))
| COpen (path : list Z) (mode : Z)
| CMknod (path : list Z) (major minor : Z)
| CUnlink (path : list Z)
| CFstat (fd : Z)  (* stores type, dev, ino, nlink, size *)
| CLink (old new : list Z)
| CMkdir (path : list Z)
| CChdir (path : list Z)
| CDup (fd : Z)
| CGetpid
| CSbrk (n : Z)
| CSleep (n : Z)
| CUptime
| CYield.

(** The return value, and what the call stored. *)
Definition reply : Type := Z * list Z.

Inductive uprog (A : Type) : Type :=
| UDone (a : A)
| UExit
| UFuel
| UCall (c : call) (k : reply -> uprog A).
Arguments UDone {A} a.
Arguments UExit {A}.
Arguments UFuel {A}.
Arguments UCall {A} c k.

Fixpoint ubind {A B} (m : uprog A) (f : A -> uprog B) : uprog B :=
  match m with
  | UDone a => f a
  | UExit => UExit
  | UFuel => UFuel
  | UCall c k => UCall c (fun r => ubind (k r) f)
  end.

Declare Scope user_scope.
Delimit Scope user_scope with user.
Notation "'call!' x ':=' m 'in' k" := (ubind m (fun x => k))
  (at level 10, x pattern, m at level 100, k at level 200) : user_scope.
Notation "m ;;! k" := (ubind m (fun _ => k))
  (at level 110, k at level 200, right associativity) : user_scope.
Open Scope user_scope.

(** A call, for its return value or for all of its reply. *)
Definition sys (c : call) : uprog Z := UCall c (fun r => UDone r.1).
Definition sysr (c : call) : uprog reply := UCall c UDone.

(** The characters of a string constant. *)
Fixpoint text (s : string) : list Z :=
  match s with
  | EmptyString => []
  | String a s' => Z.of_nat (Ascii.nat_of_ascii a) :: text s'
  end.
Definition newline : list Z := [10].

(** printf writes its text one character at a time; [l] is the text the format gives. *)
Fixpoint uputs (fd : Z) (l : list Z) : uprog unit :=
  match l with
  | [] => UDone tt
  | c :: l' => sys (CWrite fd [c]) ;;! uputs fd l'
  end.

(** A loop whose rounds make calls. *)
Fixpoint uloop {A B} (fuel : nat) (body : A -> uprog (A + B)) (a : A) : uprog B :=
  match fuel with
  | O => UFuel
  | S n =>
      call! r := body a in
      match r with
      | inl a' => uloop n body a'
      | inr b => UDone b
      end
  end.

(** [for(i = i0; ...; i++)] over the arguments of main *)
Fixpoint ueach {A} (l : list A) (body : A -> uprog unit) : uprog unit :=
  match l with
  | [] => UDone tt
  | a :: l' => body a ;;! ueach l' body
  end.

