(* ===== verification/Shell.v ===== *)
(** * The shell (src/sh.c)

    The command line is a char array that holds a string; the parser's pointers into it are
    offsets, and [*ps] is the state of the parser.  The strings of a command stay in the array:
    nulterminate, at the end, writes a NUL behind each of them.  Nodes of the tree are values: the
    execcmd that parseexec fills while parseredirs wraps it is the innermost node of the tree it
    returns, and [upd_exec] changes it there.  The memory of the nodes comes from malloc, which is
    taken to succeed.  runcmd is the program of the system calls it makes ([User]). *)
From Stdlib Require Import ZArith Lia.
From stdpp Require Import base list numbers strings.
From S2P Require Import Prelude Ulib User.
Local Open Scope Z_scope.

Definition MAXARGS : nat := 10.

Inductive cmd :=
| EXEC (argv : list (nat * nat))  (* argv[i] and eargv[i] *)
| REDIR (c : cmd) (file efile : nat) (mode fd : Z)
| PIPE (left right : cmd)
| LIST (left right : cmd)
| BACK (c : cmd).

(** The constructors, which allocate a node *)
Definition execcmd : cmd := EXEC [].
Definition redircmd (subcmd : cmd) (file efile : nat) (mode fd : Z) : cmd := REDIR subcmd file efile mode fd.
Definition pipecmd (left right : cmd) : cmd := PIPE left right.
Definition listcmd (left right : cmd) : cmd := LIST left right.
Definition backcmd (subcmd : cmd) : cmd := BACK subcmd.

Definition whitespace : list Z := [32; 9; 13; 10; 11].
Definition symbols : list Z := text "<|>&;()".

(** [strchr(l, c)] as a condition *)
Definition in_str (l : list Z) (c : Z) : bool := match strchr (l ++ [0]) c with Some (Some _) => true | _ => false end.

(** The modes of fcntl.h that redirections use *)
Definition RD : Z := 0.
Definition WR_CREATE : Z := Z.lor 1 0x200.

Section parser.
Variable buf : list Z.
Variable es : nat.

(** [*s]; outside the array there is nothing to read. *)
Definition rdch (p : nat) : M nat Z := fun s => match buf !! p with Some c => Ret c s | None => Fault s end.

(** [while(s < es && f( *s)) s++], with [n = es - s] *)
Fixpoint scan_while (f : Z -> bool) (n p : nat) : M nat nat :=
  match n with
  | O => ret p
  | S n' => let! c := rdch p in if f c then scan_while f n' (S p) else ret p
  end.
Definition scan_white (p : nat) : M nat nat := scan_while (in_str whitespace) (es - p) p.
Definition scan_word (p : nat) : M nat nat :=
  scan_while (fun c => negb (in_str whitespace c) && negb (in_str symbols c)) (es - p) p.

(** The kind of the token at [p], and its end *)
Definition scan_token (p : nat) : M nat (Z * nat) :=
  let! c := rdch p in
  if c =? 0 then ret (c, p)
  else if in_str (text "|();&<") c then ret (c, S p)
  else if c =? 62 (* > *) then
    let! d := rdch (S p) in
    if d =? 62 then ret (43 (* + *), S (S p)) else ret (c, S p)
  else let! e := scan_word p in ret (97 (* a *), e).

(** gettoken: the kind of the token, its start and its end, and the new value of the pointer *)
Definition gettoken : M nat (Z * nat * nat) :=
  let! s := Prelude.gets id in
  let! q := scan_white s in
  let! t := scan_token q in
  let '(r, eq) := t in
  let! s := scan_white eq in
  modify (fun _ => s) ;;;
  ret (r, q, eq).

Definition peek (toks : list Z) : M nat bool :=
  let! s := Prelude.gets id in
  let! s := scan_white s in
  modify (fun _ => s) ;;;
  let! c := rdch s in
  ret (negb (c =? 0) && in_str toks c).

(** The innermost command of a chain of redirections *)
Fixpoint upd_exec (f : list (nat * nat) -> list (nat * nat)) (c : cmd) : cmd :=
  match c with
  | EXEC argv => EXEC (f argv)
  | REDIR c file efile mode fd => REDIR (upd_exec f c) file efile mode fd
  | _ => c
  end.
Fixpoint argc_of (c : cmd) : nat :=
  match c with
  | EXEC argv => length argv
  | REDIR c _ _ _ _ => argc_of c
  | _ => 0
  end.

Definition redirs_body (c : cmd) : M nat (cmd + cmd) :=
  let! b := peek (text "<>") in
  if (b : bool) then
    let! t := gettoken in
    let '(tok, _, _) := t in
    let! t2 := gettoken in
    let '(tok2, q, eq) := t2 in
    if negb (tok2 =? 97) then panic "missing file for redirection"
    else if tok =? 60 (* < *) then ret (inl (redircmd c q eq RD 0))
    else if tok =? 62 (* > *) then ret (inl (redircmd c q eq WR_CREATE 1))
    else if tok =? 43 (* >> *) then ret (inl (redircmd c q eq WR_CREATE 1))
    else ret (inl c)
  else ret (inr c).
(** Each round consumes characters. *)
Definition parseredirs (c : cmd) : M nat cmd := loop (S (S es)) redirs_body c.

(** [while(!peek(ps, es, "|)&;"))] of parseexec *)
Definition args_body (r : cmd) : M nat (cmd + cmd) :=
  let! b := peek (text "|)&;") in
  if (b : bool) then ret (inr r)
  else
    let! t := gettoken in
    let '(tok, q, eq) := t in
    if tok =? 0 then ret (inr r)
    else if negb (tok =? 97) then panic "syntax"
    else
      let r := upd_exec (fun l => l ++ [(q, eq)]) r in
      if (MAXARGS <=? argc_of r)%nat then panic "too many args"
      else
        let! r := parseredirs r in
        ret (inl r).

(** [while(peek(ps, es, "&"))] of parseline *)
Definition back_body (c : cmd) : M nat (cmd + cmd) :=
  let! b := peek (text "&") in
  if (b : bool) then gettoken ;;; ret (inl (backcmd c))
  else ret (inr c).

Fixpoint parseline (fuel : nat) : M nat cmd :=
  match fuel with
  | O => nofuel
  | S n =>
      let! c := parsepipe n in
      let! c := loop (S (S es)) back_body c in
      let! b := peek (text ";") in
      if (b : bool) then
        gettoken ;;;
        let! r := parseline n in
        ret (listcmd c r)
      else ret c
  end
with parsepipe (fuel : nat) : M nat cmd :=
  match fuel with
  | O => nofuel
  | S n =>
      let! c := parseexec n in
      let! b := peek (text "|") in
      if (b : bool) then
        gettoken ;;;
        let! r := parsepipe n in
        ret (pipecmd c r)
      else ret c
  end
with parseexec (fuel : nat) : M nat cmd :=
  match fuel with
  | O => nofuel
  | S n =>
      let! b := peek (text "(") in
      if (b : bool) then parseblock n
      else
        let! r := parseredirs execcmd in
        loop (S (S es)) args_body r
  end
with parseblock (fuel : nat) : M nat cmd :=
  match fuel with
  | O => nofuel
  | S n =>
      let! b := peek (text "(") in
      if negb b then panic "parseblock"
      else
        gettoken ;;;
        let! c := parseline n in
        let! b := peek (text ")") in
        if negb b then panic "syntax - missing )"
        else
          gettoken ;;;
          parseredirs c
  end.

End parser.

(** ** NUL-termination *)

(** [*p = 0] *)
Definition put_nul (p : nat) : M (list Z) unit := fun b =>
  if (p <? length b)%nat then Ret tt (<[p := 0]> b) else Fault b.
Fixpoint put_nuls (l : list (nat * nat)) : M (list Z) unit :=
  match l with
  | [] => skip
  | (_, e) :: l' => put_nul e ;;; put_nuls l'
  end.
Fixpoint nulterminate (c : cmd) : M (list Z) unit :=
  match c with
  | EXEC argv => put_nuls argv
  | REDIR c _ efile _ _ => nulterminate c ;;; put_nul efile
  | PIPE l r => nulterminate l ;;; nulterminate r
  | LIST l r => nulterminate l ;;; nulterminate r
  | BACK c => nulterminate c
  end.

(** parsecmd on the array [buf], whose string it parses: the tree, with the array afterwards as
    the state, or the offset of the leftovers that make it panic *)
Definition parse_fuel (es : nat) : nat := 4 * es + 4.
Definition parsecmd : M (list Z) (cmd + nat) := fun buf =>
  match strlen buf with
  | None => Fault buf
  | Some n =>
      let es := Z.to_nat n in
      match (let! c := parseline buf es (parse_fuel es) in
             peek buf es [] ;;;
             ret c) 0%nat with
      | Ret c s => if negb (s =? es)%nat then Ret (inr s) buf else (nulterminate c ;;; ret (inl c)) buf
      | Panic e _ => Panic e buf
      | Fault _ => Fault buf
      | NoFuel _ => NoFuel buf
      end
  end.

(** ** Running a command *)

Section run.
Variable buf : list Z.

(** The string at an offset of the array *)
Definition cstr (q : nat) : list Z := chars (drop q buf).

Definition upanic (s : string) : uprog unit :=
  uputs 2 (text s ++ newline) ;;! UExit.

Definition fork1 : uprog Z :=
  call! pid := sys CFork in
  if pid =? -1 then upanic "fork" ;;! UExit else UDone pid.

Fixpoint runcmd (c : cmd) : uprog unit :=
  match c with
  | EXEC [] => UExit
  | EXEC (((q, _) :: _) as argv) =>
      sys (CExec (cstr q) (map (fun a => cstr a.1) argv)) ;;!
      uputs 2 (text "exec " ++ cstr q ++ text " failed" ++ newline) ;;!
      UExit
  | REDIR c file _ mode fd =>
      sys (CClose fd) ;;!
      call! r := sys (COpen (cstr file) mode) in
      if r <? 0 then uputs 2 (text "open " ++ cstr file ++ text " failed" ++ newline) ;;! UExit
      else
        runcmd c ;;!
        UExit
  | LIST l r =>
      call! pid := fork1 in
      (if pid =? 0 then runcmd l else UDone tt) ;;!
      sys CWait ;;!
      runcmd r ;;!
      UExit
  | PIPE l r =>
      call! p := sysr CPipe in
      let p0 := nth 0 p.2 0 in
      let p1 := nth 1 p.2 0 in
      (if p.1 <? 0 then upanic "pipe" else UDone tt) ;;!
      call! pid := fork1 in
      (if pid =? 0 then sys (CClose 1) ;;! sys (CDup p1) ;;! sys (CClose p0) ;;! sys (CClose p1) ;;! runcmd l else UDone tt) ;;!
      call! pid := fork1 in
      (if pid =? 0 then sys (CClose 0) ;;! sys (CDup p0) ;;! sys (CClose p0) ;;! sys (CClose p1) ;;! runcmd r else UDone tt) ;;!
      sys (CClose p0) ;;!
      sys (CClose p1) ;;!
      sys CWait ;;!
      sys CWait ;;!
      UExit
  | BACK c =>
      call! pid := fork1 in
      (if pid =? 0 then runcmd c else UDone tt) ;;!
      UExit
  end.

End run.

(** ** The command loop *)

(** gets of ulib.c on file descriptor 0, with [k] characters to go *)
Fixpoint ugets (k : nat) (acc : list Z) : uprog (list Z) :=
  match k with
  | O => UDone (acc ++ [0])
  | S k' =>
      call! r := sysr (CRead 0 1) in
      if r.1 <? 1 then UDone (acc ++ [0])
      else
        let c := nth 0 r.2 0 in
        if (c =? NL) || (c =? CR) then UDone (acc ++ [c] ++ [0]) else ugets k' (acc ++ [c])
  end.

(** The buffer, or [None] for -1 *)
Definition getcmd (nbuf : nat) : uprog (option (list Z)) :=
  uputs 2 (text "$ ") ;;!
  call! l := ugets (nbuf - 1) [] in
  let buf := l ++ replicate (nbuf - length l) 0 in
  UDone (if nth 0 buf 0 =? 0 then None else Some buf).

(** runcmd(parsecmd(buf)) *)
Definition run_line (buf : list Z) : uprog unit :=
  match parsecmd buf with
  | Ret (inl c) buf' => runcmd buf' c
  | Ret (inr s) _ => uputs 2 (text "leftovers: " ++ cstr buf s ++ newline) ;;! upanic "syntax"
  | Panic e _ => upanic e
  | Fault _ | NoFuel _ => UFuel
  end.

Definition main_round (_ : unit) : uprog (unit + unit) :=
  call! r := getcmd 100 in
  match r with
  | None => UDone (inr tt)
  | Some buf =>
      if (nth 0 buf 0 =? 99) && (nth 1 buf 0 =? 100) && (nth 2 buf 0 =? 32) then
        let buf := <[(length (chars buf) - 1)%nat := 0]> buf in
        call! r := sys (CChdir (cstr buf 3)) in
        (if r <? 0 then uputs 2 (text "cannot cd " ++ cstr buf 3 ++ newline) else UDone tt) ;;!
        UDone (inl tt)
      else
        call! pid := fork1 in
        (if pid =? 0 then run_line buf else UDone tt) ;;!
        sys CWait ;;!
        UDone (inl tt)
  end.

Definition open_console (_ : unit) : uprog (unit + unit) :=
  call! fd := sys (COpen (text "console") 2) in
  if fd <? 0 then UDone (inr tt)
  else if 3 <=? fd then sys (CClose fd) ;;! UDone (inr tt)
  else UDone (inl tt).

(** [fuel] bounds the commands that are read. *)
Definition sh_main (fuel : nat) : uprog unit :=
  uloop fuel open_console tt ;;!
  uloop fuel main_round tt ;;!
  UExit.
