(* ===== verification/ShellThms.v ===== *)
(** * The shell's parser

    parsecmd ends on every string, with a tree, leftovers or one of its error messages, and its
    pointers stay inside the string; after nulterminate the strings of the tree are its words. *)
From Stdlib Require Import ZArith Lia.
From stdpp Require Import base list numbers strings.
From S2P Require Import Prelude Ulib User Shell.
Local Open Scope Z_scope.

(** ** Runs that return or report a syntax error *)

Definition syntax_errors : list string :=
  ["syntax"; "syntax - missing )"; "missing file for redirection"; "too many args"].

Definition runs {S A} (m : M S A) (Q : A -> S -> Prop) (s : S) : Prop :=
  match m s with Ret a s' => Q a s' | Panic e _ => e ∈ syntax_errors | _ => False end.

Section runs.
Context {S : Type}.
Implicit Types s : S.

Lemma runs_bind {A B} (m : M S A) (f : A -> M S B) Q s : runs m (fun a s' => runs (f a) Q s') s -> runs (bind m f) Q s.
Proof. unfold runs, bind. by destruct (m s). Qed.

Lemma runs_mono {A} (m : M S A) (P Q : A -> S -> Prop) s : runs m P s -> (forall a s', P a s' -> Q a s') -> runs m Q s.
Proof. unfold runs. destruct (m s); auto. Qed.

Lemma runs_ret {A} (a : A) (Q : A -> S -> Prop) s : Q a s -> runs (ret a) Q s.
Proof. done. Qed.

Lemma runs_panic {A} msg (Q : A -> S -> Prop) s : bool_decide (msg ∈ syntax_errors) = true -> runs (panic msg) Q s.
Proof. by intros H%bool_decide_eq_true. Qed.

(** A loop that decreases a measure of its state. *)
Lemma runs_loop {A R} (I : nat -> A -> S -> Prop) (body : A -> M S (A + R)) Q :
  (forall n a s, I n a s -> runs (body a) (fun r s' => match r with inl a' => exists n', (n' < n)%nat /\ I n' a' s' | inr v => Q v s' end) s) ->
  forall fuel n a s, (n < fuel)%nat -> I n a s -> runs (loop fuel body a) Q s.
Proof.
  intros Hbody fuel. induction fuel as [|fuel IH]; intros n a s Hn HI; [lia|]. cbn [loop]. apply runs_bind.
  eapply runs_mono; [by apply Hbody|]. intros [a'|v] s'; [|done]. intros (n' & Hn' & HI'). eapply IH; [|exact HI']. lia.
Qed.
End runs.

(** ** Characters *)

Lemma in_str_spec l c : Forall (fun x => x <> 0) l -> in_str l c = true <-> c <> 0 /\ c ∈ l.
Proof.
  intros Hl. unfold in_str. induction Hl as [|x l Hx _ IH]; simpl.
  - split; [done|]. by intros [_ ?%not_elem_of_nil].
  - rewrite (proj2 (Z.eqb_neq _ _) Hx), elem_of_cons. destruct (Z.eqb_spec x c) as [->|Hne]; [naive_solver|].
    assert (match option_map Datatypes.S <$> strchr (l ++ [0]) c with Some (Some _) => true | _ => false end =
            match strchr (l ++ [0]) c with Some (Some _) => true | _ => false end) as -> by (by destruct (strchr (l ++ [0]) c) as [[]|]).
    rewrite IH. naive_solver.
Qed.

(** ** Scanning, without the reads *)

Section scan.
Variable buf : list Z.
Variable es : nat.

Definition ch (s : nat) : Z := nth s buf 0.

Fixpoint skip_while (f : Z -> bool) (n s : nat) : nat :=
  match n with
  | O => s
  | S n' => if f (ch s) then skip_while f n' (S s) else s
  end.
Definition skip_white (s : nat) : nat := skip_while (in_str whitespace) (es - s) s.
Definition skip_word (s : nat) : nat := skip_while (fun c => negb (in_str whitespace c) && negb (in_str symbols c)) (es - s) s.

Definition token_at (s : nat) : Z * nat :=
  let c := ch s in
  if c =? 0 then (c, s)
  else if in_str (text "|();&<") c then (c, S s)
  else if c =? 62 then (if ch (S s) =? 62 then (43, S (S s)) else (c, S s))
  else (97, skip_word s).

(** The array holds a string of length [es]: the reads stay inside it. *)
Hypothesis Hlen : (es < length buf)%nat.
Hypothesis Hes : ch es = 0.

Lemma rdch_run p s : (p <= es)%nat -> rdch buf p s = Ret (ch p) s.
Proof.
  intros Hp. unfold rdch, ch. destruct (lookup_lt_is_Some_2 buf p) as [c Hc]; [lia|]. rewrite Hc. by rewrite nth_lookup, Hc.
Qed.

Lemma scan_while_run f n p s : (p + n <= es)%nat -> scan_while buf f n p s = Ret (skip_while f n p) s.
Proof.
  revert p. induction n as [|n IH]; intros p Hp; [done|]. simpl. unfold bind. rewrite rdch_run by lia.
  destruct (f (ch p)); [|done]. apply IH. lia.
Qed.

Lemma skip_while_le f n p : (p + n <= es)%nat -> (skip_while f n p <= es)%nat.
Proof. revert p. induction n as [|n IH]; intros p Hp; simpl; [lia|]. destruct (f (ch p)); [apply IH|]; lia. Qed.

Lemma scan_white_run p s : (p <= es)%nat -> scan_white buf es p s = Ret (skip_white p) s.
Proof. intros Hp. apply scan_while_run. lia. Qed.

Lemma scan_token_run p s : (p <= es)%nat -> scan_token buf es p s = Ret (token_at p) s /\ ((token_at p).2 <= es)%nat.
Proof.
  intros Hp. unfold scan_token, token_at, bind. rewrite rdch_run by done.
  destruct (Z.eqb_spec (ch p) 0) as [E0|E0]; [done|].
  assert (p < es)%nat as Hlt by (destruct (decide (p = es)) as [->|]; [done|lia]).
  destruct (in_str (text "|();&<") (ch p)); [split; [done|simpl; lia]|]. destruct (ch p =? 62).
  - rewrite rdch_run by lia. destruct (Z.eqb_spec (ch (S p)) 62) as [E|E]; [|split; [done|simpl; lia]].
    split; [done|]. assert (S p <> es) by (intros E'; rewrite E' in E; lia). simpl. lia.
  - unfold scan_word. rewrite scan_while_run by lia. split; [done|]. apply skip_while_le. lia.
Qed.

Lemma gettoken_run s : (s <= es)%nat ->
  gettoken buf es s = let q := skip_white s in let '(r, eq) := token_at q in Ret (r, q, eq) (skip_white eq).
Proof.
  intros Hs. unfold gettoken, bind, Prelude.gets, modify, id. rewrite scan_white_run by done.
  assert (skip_white s <= es)%nat as Hq by (apply skip_while_le; lia). destruct (scan_token_run _ s Hq) as [-> He].
  cbv zeta. destruct (token_at (skip_white s)) as [r eq]. by rewrite scan_white_run.
Qed.

Lemma peek_run toks s : (s <= es)%nat ->
  peek buf es toks s = let s' := skip_white s in Ret (negb (ch s' =? 0) && in_str toks (ch s')) s'.
Proof.
  intros Hs. unfold peek, bind, Prelude.gets, modify, id. rewrite scan_white_run by done.
  rewrite rdch_run by (apply skip_while_le; lia). done.
Qed.

End scan.

(** A character of a word. *)
Definition wordch (c : Z) : bool := negb (c =? 0) && negb (in_str whitespace c) && negb (in_str symbols c).

Section string.
Variable buf : list Z.
Variable es : nat.
(** A string of length [es] *)
Hypothesis Hlen : (es < length buf)%nat.
Hypothesis Hes : ch buf es = 0.
Hypothesis Hin : forall p, (p < es)%nat -> ch buf p <> 0.

Lemma skip_while_spec f n s : (n = es - s)%nat -> (s <= es)%nat -> let e := skip_while buf f n s in
  (s <= e <= es)%nat /\ (forall p, (s <= p < e)%nat -> f (ch buf p) = true) /\ (e = es \/ f (ch buf e) = false).
Proof.
  revert s. induction n as [|n IH]; intros s Hn Hs; simpl; [split; [lia|]; split; [lia|left; lia]|].
  destruct (f (ch buf s)) eqn:E; [|split; [lia|]; split; [lia|by right]].
  destruct (IH (S s)) as (H1 & H2 & H3); [lia|lia|]. split; [lia|]. split; [|done].
  intros p Hp. destruct (decide (p = s)) as [->|]; [done|]. apply H2. lia.
Qed.

Lemma skip_white_spec s : (s <= es)%nat -> let e := skip_white buf es s in
  (s <= e <= es)%nat /\ (forall p, (s <= p < e)%nat -> in_str whitespace (ch buf p) = true) /\ in_str whitespace (ch buf e) = false.
Proof.
  intros Hs e. destruct (skip_while_spec (in_str whitespace) _ s eq_refl Hs) as (H1 & H2 & H3). split; [exact H1|]. split; [exact H2|].
  fold (skip_white buf es s) in H3. fold e in H3. destruct H3 as [->|H3]; [|done]. by rewrite Hes.
Qed.

(** A word: its characters, and no word character behind it. *)
Definition word_at (w : nat * nat) : Prop :=
  (w.1 < w.2 <= es)%nat /\ (forall p, (w.1 <= p < w.2)%nat -> wordch (ch buf p) = true) /\ wordch (ch buf w.2) = false.

Lemma token_spec q : (q <= es)%nat -> in_str whitespace (ch buf q) = false -> let '(r, e) := token_at buf es q in
  (q <= e <= es)%nat /\ (r = 0 -> q = es) /\ (r <> 0 -> (q < e)%nat) /\ (r = 97 -> word_at (q, e)).
Proof.
  intros Hq Hw. unfold token_at. destruct (Z.eqb_spec (ch buf q) 0) as [E0|E0].
  { split; [lia|]. split; [|split; [done|intros; lia]]. intros _. destruct (decide (q = es)); [done|]. exfalso. apply (Hin q); [lia|done]. }
  assert (q < es)%nat as Hlt by (destruct (decide (q = es)) as [->|]; [done|lia]).
  destruct (in_str (text "|();&<") (ch buf q)) eqn:E1.
  { split; [lia|]. split; [done|]. split; [lia|]. intros E. rewrite E in E1. vm_compute in E1. done. }
  destruct (Z.eqb_spec (ch buf q) 62) as [E2|E2].
  { destruct (Z.eqb_spec (ch buf (S q)) 62) as [E3|E3].
    - assert (S q < es)%nat by (destruct (decide (S q = es)) as [E|]; [rewrite E in E3; lia|lia]). split; [lia|]. split; [done|]. split; [lia|done].
    - split; [lia|]. split; [done|]. split; [lia|]. rewrite E2. done. }
  set (f := fun c => negb (in_str whitespace c) && negb (in_str symbols c)).
  destruct (skip_while_spec f _ q eq_refl Hq) as (H1 & H2 & H3). change (skip_while buf f (es - q) q) with (skip_word buf es q) in *.
  assert (in_str symbols (ch buf q) = false) as Es.
  { apply not_true_is_false. intros Hs. apply in_str_spec in Hs as [_ Hs]; [|by repeat constructor].
    apply not_true_iff_false in E1. apply E1, in_str_spec; [by repeat constructor|]. split; [done|].
    revert Hs E2. unfold symbols. cbn. rewrite !elem_of_cons. tauto. }
  assert (f (ch buf q) = true) as Ef by (unfold f; by rewrite Hw, Es). set (e := skip_word buf es q) in *.
  assert (q < e)%nat as Hqe. { destruct (decide (q = e)) as [Ee|]; [|lia]. exfalso. rewrite <- Ee in H3. destruct H3 as [?|H3]; [lia|congruence]. }
  split; [lia|]. split; [done|]. split; [done|]. intros _. split; [simpl; lia|]. split; simpl.
  - intros p Hp. pose proof (H2 p Hp) as Hp2. unfold f in Hp2. unfold wordch. rewrite (proj2 (Z.eqb_neq _ _) (Hin p ltac:(lia))). done.
  - destruct H3 as [->|H3]; [by rewrite Hes|]. unfold wordch. fold (f (ch buf e)). rewrite <- andb_assoc. fold (f (ch buf e)). rewrite H3. apply andb_false_r.
Qed.

Lemma gettoken_runs s : (s <= es)%nat ->
  runs (gettoken buf es) (fun t s' => let '(r, q, e) := t in (s <= q /\ q <= e /\ e <= s' /\ s' <= es)%nat /\ (r <> 0 -> (s < s')%nat) /\ (r = 97 -> word_at (q, e)) /\
    (s = skip_white buf es s -> (s < es)%nat -> r <> 0)) s.
Proof.
  intros Hs. unfold runs. rewrite gettoken_run by done. cbv zeta. destruct (skip_white_spec s Hs) as (H1 & _ & H3). set (q := skip_white buf es s) in *.
  pose proof (token_spec q ltac:(lia) H3) as Ht. destruct (token_at buf es q) as [r e]. destruct Ht as (T1 & T2 & T3 & T4).
  destruct (skip_white_spec e ltac:(lia)) as (S1 & _ & _). split; [lia|]. split; [intros Hr; specialize (T3 Hr); lia|]. split; [done|].
  intros E Hlt Hr. specialize (T2 Hr). unfold q in T2. lia.
Qed.

Lemma peek_runs toks s : (s <= es)%nat -> runs (peek buf es toks) (fun b s' => (s <= s' <= es)%nat /\ (b = true -> in_str toks (ch buf s') = true /\ (s' < es)%nat /\ s' = skip_white buf es s')) s.
Proof.
  intros Hs. unfold runs. rewrite peek_run by done. cbv zeta. destruct (skip_white_spec s Hs) as (H1 & _ & H3). set (q := skip_white buf es s) in *. split; [done|].
  intros [Hb Hb']%andb_true_iff. apply negb_true_iff, Z.eqb_neq in Hb. split; [done|]. split.
  - destruct (decide (q = es)) as [E|]; [by rewrite E in Hb|lia].
  - unfold skip_white. destruct (es - q)%nat; simpl; [done|]. by rewrite H3.
Qed.

(** ** The tree *)

(** The words of a command, and the places of its redirections *)
Fixpoint words (c : cmd) : list (nat * nat) :=
  match c with
  | EXEC argv => argv
  | REDIR c file efile _ _ => words c ++ [(file, efile)]
  | PIPE l r | LIST l r => words l ++ words r
  | BACK c => words c
  end.

Definition tree_ok (c : cmd) : Prop := Forall word_at (words c).

Lemma words_upd_exec w c : tree_ok c -> word_at w -> tree_ok (upd_exec (fun l => l ++ [w]) c).
Proof.
  unfold tree_ok. induction c as [argv|c IH file efile mode fd|l IHl r IHr|l IHl r IHr|c IH]; simpl; intros Hc Hw; try done.
  - apply Forall_app. split; [done|by constructor].
  - apply Forall_app in Hc as [Hc Hf]. apply Forall_app. split; [by apply IH|done].
Qed.

(** What every part of the parser does: it goes forward and its words are words. *)
Definition parsed (s : nat) (c : cmd) (s' : nat) : Prop := (s <= s' <= es)%nat /\ tree_ok c.

Lemma parsed_step s s1 c s2 : (s <= s1)%nat -> parsed s1 c s2 -> parsed s c s2.
Proof. unfold parsed. intros H [? ?]. split; [lia|done]. Qed.

Lemma parseredirs_runs c s : (s <= es)%nat -> tree_ok c -> runs (parseredirs buf es c) (parsed s) s.
Proof.
  intros Hs Hc. unfold parseredirs.
  apply (runs_loop (fun n c s' => n = (es - s')%nat /\ parsed s c s')) with (n := (es - s)%nat); [|lia|by split_and!].
  clear Hc. intros n c' s1 (-> & [Hs1 Hc]). unfold redirs_body. apply runs_bind. eapply runs_mono; [apply peek_runs; lia|]. intros b s2 [H2 Hb].
  destruct b; [|apply runs_ret; by split; [lia|]]. destruct (Hb eq_refl) as (_ & Hlt & E2). apply runs_bind.
  eapply runs_mono; [apply (gettoken_runs s2); lia|]. intros [[r q] e] s3 (H3 & Hr & _ & Hn). specialize (Hr (Hn E2 Hlt)).
  apply runs_bind. eapply runs_mono; [apply (gettoken_runs s3); lia|]. intros [[r2 q2] e2] s4 (H4 & _ & Hw & _).
  destruct (Z.eqb_spec r2 97) as [E|E]; cbn [negb]; [|by apply runs_panic]. specialize (Hw E).
  assert (forall mode fd, parsed s (REDIR c' q2 e2 mode fd) s4) as Hp.
  { intros mode fd. split; [lia|]. unfold tree_ok. simpl. apply Forall_app. split; [done|by constructor]. }
  repeat case_match; apply runs_ret; exists (es - s4)%nat; (split; [lia|split; [done|]]); try apply Hp. split; [lia|done].
Qed.

Lemma args_runs c s : (s <= es)%nat -> tree_ok c -> runs (loop (S (S es)) (args_body buf es) c) (parsed s) s.
Proof.
  intros Hs Hc. apply (runs_loop (fun n c s' => n = (es - s')%nat /\ parsed s c s')) with (n := (es - s)%nat); [|lia|by split_and!].
  clear Hc. intros n c' s1 (-> & [Hs1 Hc]). unfold args_body. apply runs_bind. eapply runs_mono; [apply peek_runs; lia|]. intros b s2 [H2 Hb].
  destruct b; [apply runs_ret; by split; [lia|]|]. apply runs_bind. eapply runs_mono; [apply (gettoken_runs s2); lia|].
  intros [[r q] e] s3 (H3 & Hr & Hw & _). destruct (Z.eqb_spec r 0) as [E|E]; [apply runs_ret; by split; [lia|]|].
  destruct (Z.eqb_spec r 97) as [E97|E97]; cbn [negb]; [|by apply runs_panic]. case_match; [by apply runs_panic|]. apply runs_bind.
  eapply runs_mono; [apply (parseredirs_runs _ s3); [lia|by apply words_upd_exec; [|apply Hw]]|]. intros c2 s4 [H4 Hc4]. apply runs_ret.
  specialize (Hr E). exists (es - s4)%nat. split; [lia|]. split; [done|]. split; [lia|done].
Qed.

Lemma back_runs c s : (s <= es)%nat -> tree_ok c -> runs (loop (S (S es)) (back_body buf es) c) (parsed s) s.
Proof.
  intros Hs Hc. apply (runs_loop (fun n c s' => n = (es - s')%nat /\ parsed s c s')) with (n := (es - s)%nat); [|lia|by split_and!].
  clear Hc. intros n c' s1 (-> & [Hs1 Hc]). unfold back_body. apply runs_bind. eapply runs_mono; [apply peek_runs; lia|]. intros b s2 [H2 Hb].
  destruct b; [|apply runs_ret; by split; [lia|]]. destruct (Hb eq_refl) as (_ & Hlt & E2). apply runs_bind.
  eapply runs_mono; [apply (gettoken_runs s2); lia|]. intros [[r q] e] s3 (H3 & Hr & _ & Hn). specialize (Hr (Hn E2 Hlt)).
  apply runs_ret. exists (es - s3)%nat. split; [lia|]. split; [done|]. split; [lia|done].
Qed.

(** A token that peek has announced is consumed. *)
Lemma peek_token {A} toks (k m : M nat A) Q s : (s <= es)%nat ->
  (forall s1, (s <= s1 <= es)%nat -> runs m Q s1) -> (forall s1, (s < s1 <= es)%nat -> runs k Q s1) ->
  runs (let! b := peek buf es toks in if (b : bool) then gettoken buf es ;;; k else m) Q s.
Proof.
  intros Hs Hm Hk. apply runs_bind. eapply runs_mono; [by apply peek_runs|]. intros b s1 [H1 Hb]. destruct b; [|by apply Hm].
  destruct (Hb eq_refl) as (_ & Hlt & E). apply runs_bind. eapply runs_mono; [apply gettoken_runs; lia|].
  intros [[r q] e] s2 (H2 & Hr & _ & Hn). apply Hk. specialize (Hr (Hn E Hlt)). lia.
Qed.

Lemma parse_runs fuel : forall s, (s <= es)%nat ->
  ((4 * (es - s) + 4 <= fuel)%nat -> runs (parseline buf es fuel) (parsed s) s) /\
  ((4 * (es - s) + 3 <= fuel)%nat -> runs (parsepipe buf es fuel) (parsed s) s) /\
  ((4 * (es - s) + 2 <= fuel)%nat -> runs (parseexec buf es fuel) (parsed s) s) /\
  ((4 * (es - s) + 1 <= fuel)%nat -> s = skip_white buf es s -> in_str (text "(") (ch buf s) = true ->
     runs (parseblock buf es fuel) (parsed s) s).
Proof.
  induction fuel as [|n IH]; intros s Hs; [lia|]. cbn [parseline parsepipe parseexec parseblock]. split_and!; intros Hf.
  - apply runs_bind. eapply runs_mono; [apply (IH s Hs); lia|]. intros c s1 [H1 Hc]. apply runs_bind.
    eapply runs_mono; [apply (back_runs c s1); (lia || done)|]. intros c2 s2 [H2 Hc2]. apply peek_token; [lia| |].
    + intros s3 H3. apply runs_ret. by split; [lia|].
    + intros s3 H3. apply runs_bind. eapply runs_mono; [apply (IH s3); lia|]. intros c4 s4 [H4 Hc4]. apply runs_ret. split; [lia|].
      by apply Forall_app.
  - apply runs_bind. eapply runs_mono; [apply (IH s Hs); lia|]. intros c s1 [H1 Hc]. apply peek_token; [lia| |].
    + intros s3 H3. apply runs_ret. by split; [lia|].
    + intros s3 H3. apply runs_bind. eapply runs_mono; [apply (IH s3); lia|]. intros c4 s4 [H4 Hc4]. apply runs_ret. split; [lia|].
      by apply Forall_app.
  - apply runs_bind. eapply runs_mono; [by apply peek_runs|]. intros b s1 [H1 Hb]. destruct b.
    + destruct (Hb eq_refl) as (Hc & _ & E). eapply runs_mono; [apply (IH s1); (done || lia)|].
      intros. by eapply parsed_step; [|done]; lia.
    + apply runs_bind. eapply runs_mono; [apply (parseredirs_runs (EXEC []) s1); [lia|by constructor]|]. intros c s2 [H2 Hc].
      eapply runs_mono; [apply args_runs; [lia|done]|]. intros. by eapply parsed_step; [|done]; lia.
  - intros Es Hpar. apply runs_bind. unfold runs at 1. rewrite peek_run by done. cbv zeta. rewrite <- Es, Hpar.
    assert (ch buf s <> 0) as Hc0 by (intros E0; by rewrite E0 in Hpar). rewrite (proj2 (Z.eqb_neq _ _) Hc0). cbn [negb andb].
    assert (s < es)%nat as Hlt by (destruct (decide (s = es)) as [->|]; [done|lia]). rename Es into E. apply runs_bind. eapply runs_mono; [apply gettoken_runs; lia|].
    intros [[r q] e] s2 (H2 & Hr & _ & Hn). specialize (Hr (Hn E Hlt)). apply runs_bind. eapply runs_mono; [apply (IH s2); lia|].
    intros c s3 [H3 Hc]. apply runs_bind. eapply runs_mono; [apply peek_runs; lia|]. intros b s4 [H4 _]. destruct b; cbn [negb]; [|by apply runs_panic].
    apply runs_bind. eapply runs_mono; [apply gettoken_runs; lia|]. intros [[r5 q5] e5] s5 (H5 & _).
    eapply runs_mono; [apply parseredirs_runs; [lia|done]|]. intros. by eapply parsed_step; [|done]; lia.
Qed.

End string.

(** ** NUL-termination *)

(** [b'] is [b] with a NUL at each offset of [E]. *)
Definition zeroed (b : list Z) (E : list nat) (b' : list Z) : Prop :=
  length b' = length b /\ forall p, nth p b' 0 = if decide (p ∈ E) then 0 else nth p b 0.

Lemma zeroed_app b E1 b1 E2 b2 : zeroed b E1 b1 -> zeroed b1 E2 b2 -> zeroed b (E1 ++ E2) b2.
Proof.
  intros [L1 N1] [L2 N2]. split; [congruence|]. intros p. rewrite N2, N1. destruct (decide (p ∈ E2)).
  - rewrite decide_True; [done|]. apply elem_of_app. by right.
  - destruct (decide (p ∈ E1)); [rewrite decide_True; [done|]; apply elem_of_app; by left|]. rewrite decide_False; [done|].
    rewrite elem_of_app. tauto.
Qed.

Lemma put_nul_run b p : (p < length b)%nat -> put_nul p b = Ret tt (<[p := 0]> b) /\ zeroed b [p] (<[p := 0]> b).
Proof.
  intros Hp. unfold put_nul. rewrite (proj2 (Nat.ltb_lt _ _) Hp). split; [done|]. split; [apply length_insert|]. intros p'. rewrite !nth_lookup.
  destruct (decide (p' = p)) as [->|Hne].
  - rewrite list_lookup_insert_eq by done. rewrite decide_True; [done|by left].
  - rewrite list_lookup_insert_ne by done. rewrite decide_False; [done|]. by rewrite list_elem_of_singleton.
Qed.

Lemma put_nuls_run l b : Forall (fun w => (w.2 < length b)%nat) l -> exists b', put_nuls l b = Ret tt b' /\ zeroed b l.*2 b'.
Proof.
  revert b. induction l as [|[q e] l IH]; intros b Hl; [exists b; split; [done|]; split; [done|]; intros p; by rewrite decide_False by (by intros ?%not_elem_of_nil)|].
  apply Forall_cons_1 in Hl as [He Hl]. destruct (put_nul_run b e He) as [E1 Z1]. destruct (IH (<[e := 0]> b)) as (b' & E2 & Z2).
  - by rewrite length_insert.
  - exists b'. split; [cbn [put_nuls]; unfold bind; by rewrite E1|]. exact (zeroed_app _ [e] _ _ _ Z1 Z2).
Qed.

Lemma nulterminate_run c b : Forall (fun w => (w.2 < length b)%nat) (words c) -> exists b', nulterminate c b = Ret tt b' /\ zeroed b (words c).*2 b'.
Proof.
  assert (forall c1 c2, (forall b, Forall (fun w => (w.2 < length b)%nat) (words c1) -> exists b', nulterminate c1 b = Ret tt b' /\ zeroed b (words c1).*2 b') ->
    (forall b, Forall (fun w => (w.2 < length b)%nat) (words c2) -> exists b', nulterminate c2 b = Ret tt b' /\ zeroed b (words c2).*2 b') ->
    forall b, Forall (fun w => (w.2 < length b)%nat) (words c1 ++ words c2) ->
    exists b', (nulterminate c1 ;;; nulterminate c2) b = Ret tt b' /\ zeroed b (words c1 ++ words c2).*2 b') as Hseq.
  { intros c1 c2 H1 H2 b0 [F1 F2]%Forall_app. destruct (H1 b0 F1) as (b1 & E1 & Z1). destruct (H2 b1) as (b2 & E2 & Z2); [by destruct Z1 as [-> _]|].
    exists b2. unfold bind. rewrite E1, fmap_app. split; [done|by eapply zeroed_app]. }
  revert b. induction c as [argv|c IH file efile mode fd|l IHl r IHr|l IHl r IHr|c IH]; intros b Hb; cbn [nulterminate words] in *.
  - by apply put_nuls_run.
  - apply Forall_app in Hb as [Hc Hf]. apply Forall_cons_1 in Hf as [Hf _]. destruct (IH b Hc) as (b1 & E1 & Z1). unfold bind. rewrite E1, fmap_app.
    destruct (put_nul_run b1 efile) as [E2 Z2]; [by destruct Z1 as [-> _]|]. eexists. split; [exact E2|]. by eapply zeroed_app.
  - by apply Hseq.
  - by apply Hseq.
  - by apply IH.
Qed.

(** A word whose end is among the NULs, none of which is inside it, is its string. *)
Lemma zeroed_word b E b' q e : zeroed b E b' -> (q < e < length b)%nat -> e ∈ E -> (forall p, (q <= p < e)%nat -> p ∉ E /\ nth p b 0 <> 0) ->
  cstr b' q = take (e - q) (drop q b).
Proof.
  intros [Hl Hn] Hq He Hw. unfold cstr. assert (drop q b' = take (e - q) (drop q b) ++ 0 :: drop (S e) b') as ->.
  { apply (nth_ext _ _ 0 0).
    - rewrite length_app, length_take, !length_drop. cbn [length]. rewrite length_drop. lia.
    - intros j Hj. rewrite length_drop in Hj. rewrite !nth_lookup, lookup_drop. pose proof (Hn (q + j)%nat) as Hj'. rewrite nth_lookup in Hj'. rewrite Hj'.
      destruct (decide (j < e - q)%nat) as [Hlt|Hge].
      + rewrite lookup_app_l by (rewrite length_take, length_drop; lia). rewrite lookup_take_lt by done. rewrite lookup_drop.
        rewrite decide_False by (apply Hw; lia). by rewrite nth_lookup.
      + rewrite lookup_app_r by (rewrite length_take, length_drop; lia). rewrite length_take, length_drop.
        replace (Nat.min (e - q) (length b - q)) with (e - q)%nat by lia.
        destruct (decide (j = e - q)%nat) as [->|Hne].
        * replace (q + (e - q))%nat with e by lia. rewrite decide_True by done. by rewrite Nat.sub_diag.
        * replace (j - (e - q))%nat with (S (j - (e - q) - 1)) by lia. rewrite lookup_cons_ne_0 by lia. cbn [Nat.pred]. rewrite lookup_drop. replace (S e + (j - (e - q) - 1))%nat with (q + j)%nat by lia. rewrite <- nth_lookup. by rewrite Hn. }
  apply chars_app. apply Forall_forall. intros x Hx. apply list_elem_of_lookup in Hx as [j Hj]. apply lookup_take_Some in Hj as [Hj Hlt].
  rewrite lookup_drop in Hj. destruct (Hw (q + j)%nat) as [_ Hne]; [lia|]. by rewrite nth_lookup, Hj in Hne.
Qed.

Lemma strlen_string buf n : strlen buf = Some n -> let es := Z.to_nat n in
  (es < length buf)%nat /\ ch buf es = 0 /\ forall p, (p < es)%nat -> ch buf p <> 0.
Proof.
  unfold ch. revert n. induction buf as [|c buf IH]; intros n; simpl; [done|]. destruct (Z.eqb_spec c 0) as [->|Hc].
  - intros [= <-]. simpl. split; [lia|]. split; [done|lia].
  - intros (m & Hm & ->)%fmap_Some. destruct (IH m Hm) as (H1 & H2 & H3). pose proof (strlen_chars _ _ Hm).
    replace (Z.to_nat (Z.succ m)) with (S (Z.to_nat m)) by lia. split; [lia|]. split; [done|]. intros [|p] Hp; [done|]. apply H3. lia.
Qed.

(** The words of a tree do not overlap: an end is not inside a word. *)
Lemma word_at_ends buf es w w' : word_at buf es w -> word_at buf es w' -> forall p, (w.1 <= p < w.2)%nat -> p <> w'.2.
Proof. intros (_ & Hw & _) (_ & _ & He) p Hp ->. rewrite (Hw _ Hp) in He. done. Qed.

Lemma nulterminate_words buf es c : (es < length buf)%nat -> (forall p, (p < es)%nat -> ch buf p <> 0) -> tree_ok buf es c ->
  exists buf', nulterminate c buf = Ret tt buf' /\ length buf' = length buf /\
    forall w, w ∈ words c -> cstr buf' w.1 = take (w.2 - w.1) (drop w.1 buf).
Proof.
  intros Hlen Hin Hc. unfold tree_ok in Hc. rewrite Forall_forall in Hc. destruct (nulterminate_run c buf) as (b' & E & Hz).
  { apply Forall_forall. intros w Hw. destruct (Hc w Hw) as [? _]. lia. }
  exists b'. split; [done|]. split; [by destruct Hz|]. intros w Hw. destruct (Hc w Hw) as (Hr & Hch & _).
  eapply zeroed_word; [exact Hz|lia|by apply list_elem_of_fmap_2|]. intros p Hp. split; [|apply Hin; lia].
  intros (w' & -> & Hw')%list_elem_of_fmap. by apply (word_at_ends buf es w w' (Hc w Hw) (Hc w' Hw') w'.2).
Qed.

(** C40: the parser ends on every string, however malformed: parsecmd returns a tree, finds
    leftovers inside the string, or panics with one of four messages ("syntax", "syntax - missing )",
    "missing file for redirection", "too many args"; never with "parseblock"); it never runs on for ever
    (the fuel, four rounds per character, is always enough) and never reads or writes outside the
    array that holds the string, where a read or a write would be a fault.  In the tree that it returns every argument and file name is a non-empty word of the
    command line that ends at a delimiter, and after nulterminate its C string is exactly that
    word. *)
Theorem parsecmd_terminates buf n : strlen buf = Some n ->
  match parsecmd buf with
  | Ret (inl c) buf' => length buf' = length buf /\
      forall w, w ∈ words c -> word_at buf (Z.to_nat n) w /\ cstr buf' w.1 = take (w.2 - w.1) (drop w.1 buf)
  | Ret (inr s) _ => (s < Z.to_nat n)%nat
  | Panic e _ => e ∈ ["syntax"; "syntax - missing )"; "missing file for redirection"; "too many args"]
  | Fault _ | NoFuel _ => False
  end.
Proof.
  intros Hn. destruct (strlen_string buf n Hn) as (Hlen & Hes & Hin). unfold parsecmd. rewrite Hn. set (es := Z.to_nat n) in *. cbv zeta.
  assert (runs (let! c := parseline buf es (parse_fuel es) in peek buf es [] ;;; ret c) (parsed buf es 0) 0%nat) as Hrun.
  { apply runs_bind. eapply runs_mono; [apply (parse_runs buf es Hlen Hes Hin); unfold parse_fuel; lia|]. intros c s [H1 Hc].
    apply runs_bind. eapply runs_mono; [apply peek_runs; (done || lia)|]. intros b s2 [H2 _]. apply runs_ret. by split; [lia|]. }
  unfold runs in Hrun. destruct ((let! c := parseline buf es (parse_fuel es) in peek buf es [] ;;; ret c) 0%nat) as [c s|e s|s|s]; try done.
  destruct Hrun as [Hs Hc]. destruct (Nat.eqb_spec s es) as [E|E]; cbn [negb]; [|lia].
  destruct (nulterminate_words buf es c Hlen Hin Hc) as (b' & Eb & Hl & Hw). unfold bind. rewrite Eb. cbn [ret]. split; [done|].
  intros w Hwc. split; [|by apply Hw]. unfold tree_ok in Hc. rewrite Forall_forall in Hc. by apply Hc.
Qed.

Lemma parsecmd_terminates_witness : strlen (text "a | b" ++ [0]) = Some 5 /\
  exists buf', parsecmd (text "a | b" ++ [0]) = Ret (inl (PIPE (EXEC [(0, 1)]%nat) (EXEC [(4, 5)]%nat))) buf' /\ cstr buf' 4 = text "b".
Proof.
  split; [reflexivity|]. pose proof (parsecmd_terminates (text "a | b" ++ [0]) 5 eq_refl) as H.
  assert (parsecmd (text "a | b" ++ [0]) = Ret (inl (PIPE (EXEC [(0, 1)]%nat) (EXEC [(4, 5)]%nat))) [97; 0; 124; 32; 98; 0]) as E by (vm_compute; reflexivity).
  rewrite E in H. eexists. split; [exact E|]. destruct H as [_ Hw]. apply (Hw (4, 5)%nat). apply elem_of_cons. right. by left.
Defined.
