(* ===== verification/ShellPrint.v ===== *)
(** * Printing and parsing commands

    A printer for command trees, with parentheses where the grammar needs them, and the proof that
    parsecmd reads back what it prints.  The text is a sequence of tokens, each behind a space. *)
From Stdlib Require Import ZArith Lia.
From stdpp Require Import base list numbers strings.
From S2P Require Import Prelude Ulib User Shell ShellThms.
Local Open Scope Z_scope.

(** ** Trees of strings *)

Inductive scmd :=
| SExec (args : list (list Z))
| SRedir (c : scmd) (file : list Z) (mode fd : Z)
| SPipe (l r : scmd)
| SList (l r : scmd)
| SBack (c : scmd).

(** The strings of a parsed tree *)
Fixpoint strings (f : nat * nat -> list Z) (c : cmd) : scmd :=
  match c with
  | EXEC argv => SExec (map f argv)
  | REDIR c file efile mode fd => SRedir (strings f c) (f (file, efile)) mode fd
  | PIPE l r => SPipe (strings f l) (strings f r)
  | LIST l r => SList (strings f l) (strings f r)
  | BACK c => SBack (strings f c)
  end.

Definition word (w : list Z) : Prop := w <> [] /\ Forall (fun c => wordch c = true) w.

(** Trees that the grammar can express: at most nine arguments, and the redirections of the shell *)
Fixpoint expressible (c : scmd) : Prop :=
  match c with
  | SExec args => Forall word args /\ (length args < MAXARGS)%nat
  | SRedir c file mode fd => expressible c /\ word file /\ ((mode, fd) = (RD, 0) \/ (mode, fd) = (WR_CREATE, 1))
  | SPipe l r | SList l r => expressible l /\ expressible r
  | SBack c => expressible c
  end.

(** ** The printer *)

Definition level (c : scmd) : nat :=
  match c with SExec _ | SRedir _ _ _ _ => 0 | SPipe _ _ => 1 | SBack _ => 2 | SList _ _ => 3 end.
Definition redir_toks (r : list Z * Z * Z) : list (list Z) := let '(file, _, fd) := r in [if fd =? 0 then text "<" else text ">"; file].

(** The tokens of a command in a place for commands of level at most [lvl] *)
Fixpoint print (lvl : nat) (c : scmd) : list (list Z) :=
  let inner :=
    match c with
    | SExec args => args
    | SRedir c file mode fd => print 0 c ++ redir_toks (file, mode, fd)
    | SPipe l r => print 0 l ++ [text "|"] ++ print 1 r
    | SBack c => print 2 c ++ [text "&"]
    | SList l r => print 2 l ++ [text ";"] ++ print 3 r
    end in
  if (level c <=? lvl)%nat then inner else [text "("] ++ inner ++ [text ")"].

Definition render (toks : list (list Z)) : list Z := concat (map (cons 32) toks).

(** ** Reading tokens *)

Definition symbol (t : list Z) : Prop := exists c, t = [c] /\ c ∈ symbols.
Definition token (t : list Z) : Prop := word t \/ symbol t.
Definition first (toks : list (list Z)) : Z := match toks with [] => 0 | t :: _ => hd 0 t end.

Definition body (toks : list (list Z)) : list Z := match toks with [] => [] | t :: ts => t ++ render ts end.

Lemma symbols_in c : c ∈ symbols -> in_str whitespace c = false /\ in_str symbols c = true /\ c <> 0 /\ c <> 32.
Proof.
  unfold symbols. cbn. rewrite !elem_of_cons, elem_of_nil. intros Hc.
  destruct Hc as [->|[->|[->|[->|[->|[->|[->|[]]]]]]]]; vm_compute; (split; [done|split; [done|split; congruence]]).
Qed.

Lemma token_first t : token t -> exists c t', t = c :: t' /\ in_str whitespace c = false /\ c <> 0.
Proof.
  intros [[Hne Hw]|(c & -> & Hc)].
  - destruct t as [|c t]; [done|]. exists c, t. split; [done|]. apply Forall_cons_1 in Hw as [Hw _]. unfold wordch in Hw.
    apply andb_true_iff in Hw as [[H0 Hw]%andb_true_iff _]. apply negb_true_iff, Z.eqb_neq in H0. by apply negb_true_iff in Hw.
  - exists c, []. destruct (symbols_in c Hc) as (? & _ & ? & _). done.
Qed.

Section read.
Variable buf : list Z.
Variable es : nat.
Hypothesis Hlen : (es < length buf)%nat.
Hypothesis Hes : ch buf es = 0.
Hypothesis Hin : forall p, (p < es)%nat -> ch buf p <> 0.

Definition rest (p : nat) : list Z := take (es - p) (drop p buf).

(** The parser at [s] has [toks] before it. *)
Definition sees (s : nat) (toks : list (list Z)) : Prop :=
  (s <= es)%nat /\ Forall token toks /\ rest (skip_white buf es s) = body toks.

Lemma rest_cons p c l : (p <= es)%nat -> rest p = c :: l -> (p < es)%nat /\ ch buf p = c /\ rest (S p) = l.
Proof.
  intros Hp E. unfold rest in *. assert (p < es)%nat as Hlt by (destruct (decide (p = es)) as [->|]; [by rewrite Nat.sub_diag in E|lia]).
  split; [done|]. replace (es - p)%nat with (S (es - S p)) in E by lia.
  destruct (drop p buf) as [|x d] eqn:Ed; [done|]. cbn [take] in E. injection E as -> <-. unfold ch. rewrite nth_lookup.
  assert (drop (S p) buf = d) as <- by (by rewrite <- (Nat.add_1_r p), <- drop_drop, Ed).
  split; [|done]. rewrite <- (Nat.add_0_r p), <- lookup_drop, Ed. done.
Qed.

Lemma rest_nil p : (p <= es)%nat -> rest p = [] -> p = es.
Proof.
  intros Hp E. apply (f_equal length) in E. unfold rest in E. rewrite length_take, length_drop in E. cbn [length] in E. lia.
Qed.

Lemma rest_app p t l : (p <= es)%nat -> rest p = t ++ l ->
  (p + length t <= es)%nat /\ rest (p + length t) = l /\ take (length t) (drop p buf) = t /\ forall j, (j < length t)%nat -> ch buf (p + j) = nth j t 0.
Proof.
  intros Hp. revert p Hp. induction t as [|c t IH]; intros p Hp E.
  - cbn [length app] in *. rewrite Nat.add_0_r. split; [lia|]. split; [done|]. split; [done|lia].
  - destruct (rest_cons p c (t ++ l) Hp E) as (Hlt & Hc & E'). destruct (IH (S p) ltac:(lia) E') as (H1 & H2 & H3 & H4).
    cbn [length]. replace (p + S (length t))%nat with (S p + length t)%nat by lia. split; [done|]. split; [done|]. split.
    + assert (drop p buf = c :: drop (S p) buf) as ->; [|cbn [take]; by rewrite H3].
      destruct (drop p buf) as [|x d] eqn:Ed; [unfold rest in E; rewrite Ed, take_nil in E; done|].
      assert (drop (S p) buf = d) as -> by (by rewrite <- (Nat.add_1_r p), <- drop_drop, Ed). f_equal. rewrite <- Hc. unfold ch. rewrite nth_lookup.
      rewrite <- (Nat.add_0_r p), <- lookup_drop, Ed. done.
    + intros [|j] Hj; [by rewrite Nat.add_0_r|]. replace (p + S j)%nat with (S p + j)%nat by lia. apply H4. lia.
Qed.

Lemma skip_while_exact f s e : (s <= e <= es)%nat -> (forall p, (s <= p < e)%nat -> f (ch buf p) = true) -> (e = es \/ f (ch buf e) = false) ->
  skip_while buf f (es - s) s = e.
Proof.
  intros Hr Hf He. remember (es - s)%nat as n eqn:En. revert s En Hr Hf. induction n as [|n IH]; intros s En Hr Hf; cbn [skip_while]; [lia|].
  destruct (decide (s = e)) as [->|Hne]; [destruct He as [?|He]; [lia|by rewrite He]|]. rewrite Hf by lia. apply IH; [lia|lia|]. intros p Hp. apply Hf. lia.
Qed.

(** Behind a token comes a space or the end. *)
Lemma render_first ts : Forall token ts -> render ts = [] /\ ts = [] \/ exists l, render ts = 32 :: l /\ l = body ts.
Proof. intros Hts. destruct ts as [|t ts]; [by left|right]. unfold render. cbn. by eexists. Qed.

Lemma body_start ts p : Forall token ts -> (p <= es)%nat -> rest p = body ts -> skip_white buf es p = p.
Proof.
  intros Hts Hp E. apply skip_while_exact; [lia|lia|]. destruct ts as [|t ts]; [left; by apply rest_nil|right].
  apply Forall_cons_1 in Hts as [Ht _]. destruct (token_first t Ht) as (c & t' & -> & Hw & _).
  destruct (rest_cons p c (t' ++ render ts) Hp E) as (_ & -> & _). done.
Qed.

Lemma render_skip ts p : Forall token ts -> (p <= es)%nat -> rest p = render ts -> sees p ts /\ (ch buf p = 32 \/ ch buf p = 0).
Proof.
  intros Hts Hp E. destruct (render_first ts Hts) as [[E1 ->]|(l & E1 & El)]; rewrite E1 in E.
  - apply rest_nil in E as ->; [|done]. split; [|by right]. split; [lia|]. split; [done|]. unfold skip_white. rewrite Nat.sub_diag. unfold rest. by rewrite Nat.sub_diag.
  - destruct (rest_cons p 32 l Hp E) as (Hlt & Hc & Er). split; [|by left]. split; [lia|]. split; [done|].
    assert (skip_white buf es p = skip_white buf es (S p)) as ->.
    { unfold skip_white. replace (es - p)%nat with (S (es - S p)) by lia. cbn [skip_while]. by rewrite Hc. }
    subst l. rewrite (body_start ts (S p)); (done || lia).
Qed.

Lemma sees_peek toks s ts : Forall (fun c => c <> 0) toks -> sees s ts ->
  exists p, peek buf es toks s = Ret (in_str toks (first ts)) p /\ sees p ts /\ p = skip_white buf es s.
Proof.
  intros Htk (Hs & Hts & E). destruct (skip_white_spec buf es Hlen Hes s Hs) as (Hp & _ & _). set (p := skip_white buf es s) in *. exists p.
  pose proof (body_start ts p Hts ltac:(lia) E) as Ep. split; [|split; [|done]].
  - rewrite peek_run by done. cbv zeta. fold p. f_equal. destruct ts as [|t ts].
    + apply rest_nil in E; [|lia]. rewrite E, Hes. cbn. symmetry. apply not_true_iff_false. rewrite in_str_spec by done. tauto.
    + apply Forall_cons_1 in Hts as [Ht _]. destruct (token_first t Ht) as (c & t' & -> & _ & H0). cbn [body first hd app] in *.
      destruct (rest_cons p c _ ltac:(lia) E) as (_ & -> & _). by rewrite (proj2 (Z.eqb_neq _ _) H0).
  - split; [lia|]. split; [done|]. by rewrite Ep.
Qed.

(** The token that gettoken finds, and where. *)
Lemma sees_token t ts s : sees s (t :: ts) -> exists p s', sees s' ts /\ (p + length t <= es)%nat /\ take (length t) (drop p buf) = t /\
  (word t -> gettoken buf es s = Ret (97, p, (p + length t)%nat) s') /\ (forall c, t = [c] -> c ∈ symbols -> gettoken buf es s = Ret (c, p, S p) s').
Proof.
  intros (Hs & Hts & E). destruct (skip_white_spec buf es Hlen Hes s Hs) as (Hp & _ & _). set (p := skip_white buf es s) in *. apply Forall_cons_1 in Hts as [Ht Hts].
  cbn [body] in E. destruct (rest_app p t (render ts) ltac:(lia) E) as (H1 & H2 & H3 & H4). destruct (render_skip ts _ Hts H1 H2) as [Hsee Hnext].
  exists p, (skip_white buf es (p + length t)). split.
  { destruct Hsee as (_ & _ & Er). destruct (skip_white_spec buf es Hlen Hes (p + length t) H1) as (Hq & _ & _). split; [lia|]. split; [done|].
    rewrite (body_start ts); (done || lia). }
  split; [done|]. split; [done|]. split.
  - intros [Hne Hw]. rewrite gettoken_run by done. cbv zeta. fold p. assert (token_at buf es p = (97, (p + length t)%nat)) as ->; [|done].
    destruct t as [|c t]; [done|]. pose proof (H4 0%nat ltac:(simpl; lia)) as Hc. rewrite Nat.add_0_r in Hc. cbn [nth] in Hc.
    assert (forall j, (j < length (c :: t))%nat -> wordch (ch buf (p + j)) = true) as Hall.
    { intros j Hj. rewrite H4 by done. rewrite Forall_forall in Hw. apply Hw, list_elem_of_In, nth_In. done. }
    unfold token_at. pose proof (Hall 0%nat ltac:(simpl; lia)) as Hc0. rewrite Nat.add_0_r, Hc in Hc0. unfold wordch in Hc0.
    apply andb_true_iff in Hc0 as [[N0%negb_true_iff _]%andb_true_iff Nsym%negb_true_iff]. rewrite Hc, N0.
    assert (c ∉ symbols) as Hns. { intros Hcs. destruct (symbols_in c Hcs) as (_ & ? & _). congruence. }
    assert (in_str (text "|();&<") c = false) as ->.
    { apply not_true_is_false. rewrite in_str_spec by (by repeat constructor). intros [_ Hcs]. apply Hns. revert Hcs. unfold symbols. cbn. rewrite !elem_of_cons. tauto. }
    rewrite (proj2 (Z.eqb_neq c 62)) by (intros ->; apply Hns; unfold symbols; cbn; rewrite !elem_of_cons; tauto). f_equal.
    apply skip_while_exact; [lia| |].
    + intros q Hq. specialize (Hall (q - p)%nat ltac:(lia)). replace (p + (q - p))%nat with q in Hall by lia. unfold wordch in Hall.
      apply andb_true_iff in Hall as [[_ ->]%andb_true_iff ->]. done.
    + destruct Hnext as [->|E0]; [by right|]. left. destruct (decide (p + length (c :: t) = es)%nat); [done|]. exfalso. apply (Hin (p + length (c :: t))); [lia|done].
  - intros c -> Hc. rewrite gettoken_run by done. cbv zeta. fold p. cbn [length] in *. rewrite Nat.add_1_r in *. pose proof (H4 0%nat ltac:(lia)) as Hc0. rewrite Nat.add_0_r in Hc0. cbn [nth] in Hc0.
    assert (token_at buf es p = (c, S p)) as ->; [|done]. unfold token_at. rewrite Hc0. destruct (symbols_in c Hc) as (_ & _ & N0 & _).
    rewrite (proj2 (Z.eqb_neq _ _) N0). assert (ch buf (S p) =? 62 = false) as -> by (apply Z.eqb_neq; destruct Hnext as [-> | ->]; done).
    destruct (in_str (text "|();&<") c) eqn:E1; [done|]. destruct (Z.eqb_spec c 62) as [->|N62]; [done|]. exfalso.
    apply not_true_iff_false in E1. apply E1, in_str_spec; [by repeat constructor|]. split; [done|]. revert Hc N62. unfold symbols. cbn. rewrite !elem_of_cons. tauto.
Qed.

(** ** The grammar *)

Definition slice (w : nat * nat) : list Z := take (w.2 - w.1) (drop w.1 buf).
Definition reads (m : M nat cmd) (s : nat) (ts : list (list Z)) (t : scmd) : Prop :=
  exists c s', m s = Ret c s' /\ sees s' ts /\ strings slice c = t.
Definition follow (l : list Z) (ts : list (list Z)) : Prop := ts = [] \/ in_str l (first ts) = true.

Lemma sees_length s ts : sees s ts -> (length ts <= es)%nat.
Proof.
  intros (Hs & Hts & E). apply (f_equal length) in E. unfold rest in E. rewrite length_take in E.
  enough (length ts <= length (body ts))%nat by lia. assert (forall l, length l <= length (render l))%nat as Hr.
  { induction l as [|t l IH]; [done|]. unfold render in *. cbn. rewrite length_app. lia. }
  destruct ts as [|t ts]; [done|]. apply Forall_cons_1 in Hts as [Ht _]. destruct (token_first t Ht) as (c & t' & -> & _). cbn. rewrite length_app.
  specialize (Hr ts). lia.
Qed.

Lemma slice_word p t : take (length t) (drop p buf) = t -> slice (p, (p + length t)%nat) = t.
Proof. unfold slice. cbn. by replace (p + length t - p)%nat with (length t) by lia. Qed.

(** peek of a token that is not, or is, in the set *)
Lemma peek_reads toks s ts : Forall (fun c => c <> 0) toks -> sees s ts ->
  exists p, sees p ts /\ forall A (k : bool -> M nat A), bind (peek buf es toks) k s = k (in_str toks (first ts)) p.
Proof. intros Htk Hs. destruct (sees_peek toks s ts Htk Hs) as (p & E & Hp & _). exists p. split; [done|]. intros A k. unfold bind. by rewrite E. Qed.

Lemma token_reads c s ts : c ∈ symbols -> sees s ([c] :: ts) ->
  exists q e s', sees s' ts /\ forall A (k : Z * nat * nat -> M nat A), bind (gettoken buf es) k s = k (c, q, e) s'.
Proof. intros Hc Hs. destruct (sees_token [c] ts s Hs) as (p & s' & Hs' & _ & _ & _ & E). exists p, (S p), s'. split; [done|].
  intros A k. unfold bind. by rewrite (E c eq_refl Hc). Qed.

Lemma word_reads t s ts : word t -> sees s (t :: ts) ->
  exists q e s', sees s' ts /\ slice (q, e) = t /\ forall A (k : Z * nat * nat -> M nat A), bind (gettoken buf es) k s = k (97, q, e) s'.
Proof.
  intros Ht Hs. destruct (sees_token t ts s Hs) as (p & s' & Hs' & _ & Hd & E & _). exists p, (p + length t)%nat, s'. split; [done|].
  split; [by apply slice_word|]. intros A k. unfold bind. by rewrite (E Ht).
Qed.

Lemma word_first t l : word t -> Forall (fun c => c ∈ symbols) l -> in_str l (hd 0 t) = false.
Proof.
  intros [Hne Hw] Hl. destruct t as [|c t]; [done|]. cbn [hd]. apply Forall_cons_1 in Hw as [Hw _]. apply not_true_is_false. intros Hc.
  apply in_str_spec in Hc as [_ Hc]; [|eapply Forall_impl; [exact Hl|]; intros x Hx; by destruct (symbols_in x Hx) as (_ & _ & ? & _)].
  rewrite Forall_forall in Hl. destruct (symbols_in c (Hl c Hc)) as (_ & E & _). unfold wordch in Hw. rewrite E, andb_false_r in Hw. done.
Qed.

(** Redirections *)
Definition redir_ok (r : list Z * Z * Z) : Prop := let '(file, mode, fd) := r in word file /\ ((mode, fd) = (RD, 0) \/ (mode, fd) = (WR_CREATE, 1)).
Definition rtoks (rs : list (list Z * Z * Z)) : list (list Z) := concat (map redir_toks rs).
Definition wrap (rs : list (list Z * Z * Z)) (t : scmd) : scmd := fold_left (fun c r => let '(file, mode, fd) := r in SRedir c file mode fd) rs t.

Lemma redirs_loop rs n c s ts : Forall redir_ok rs -> (length rs < n)%nat -> sees s (rtoks rs ++ ts) -> in_str (text "<>") (first ts) = false ->
  reads (loop n (redirs_body buf es) c) s ts (wrap rs (strings slice c)).
Proof.
  intros Hrs. revert n c s. induction Hrs as [|[[file mode] fd] rs [Hf Hm] _ IH]; intros [|n] c s Hn Hs Hts; cbn [length] in Hn; try lia; cbn [loop].
  - destruct (peek_reads (text "<>") s ts ltac:(by repeat constructor) Hs) as (p & Hp & E).
    exists c, p. split; [|done]. unfold bind at 1, redirs_body. by rewrite E, Hts.
  - set (tk := if fd =? 0 then text "<" else text ">"). change (rtoks ((file, mode, fd) :: rs) ++ ts) with (tk :: file :: rtoks rs ++ ts) in Hs.
    assert (exists x, tk = [x] /\ x ∈ symbols /\ in_str (text "<>") x = true /\ (x = 60 /\ (mode, fd) = (RD, 0) \/ x = 62 /\ (mode, fd) = (WR_CREATE, 1))) as (x & Ex & Hx & Hx2 & Hx3).
    { unfold tk. destruct Hm as [[= -> ->]|[= -> ->]]; cbn; eexists; (split; [done|]); (split; [unfold symbols; cbn; rewrite !elem_of_cons; tauto|]); by vm_compute; auto. }
    rewrite Ex in Hs. unfold bind at 1.
    destruct (peek_reads (text "<>") s _ ltac:(by repeat constructor) Hs) as (p & Hp & E).
    destruct (token_reads x p _ Hx Hp) as (q1 & e1 & s1 & Hs1 & E1). destruct (word_reads file s1 _ Hf Hs1) as (q2 & e2 & s2 & Hs2 & Hsl & E2).
    destruct (IH n (REDIR c q2 e2 mode fd) s2 ltac:(lia) Hs2 Hts) as (c' & s' & Er & Hs' & Hc'). exists c', s'. split; [|split; [done|]].
    + unfold redirs_body. rewrite E. cbn [first hd]. rewrite Hx2, E1, E2. destruct Hx3 as [[-> [= -> ->]]|[-> [= -> ->]]]; exact Er.
    + rewrite Hc'. cbn [strings wrap fold_left]. by rewrite Hsl.
Qed.

Lemma redirs_reads rs c s ts : Forall redir_ok rs -> sees s (rtoks rs ++ ts) -> in_str (text "<>") (first ts) = false ->
  reads (parseredirs buf es c) s ts (wrap rs (strings slice c)).
Proof.
  intros Hrs Hs Hts. apply redirs_loop; [done| |done|done]. apply sees_length in Hs. rewrite length_app in Hs.
  enough (length rs <= length (rtoks rs))%nat by lia. clear. induction rs as [|[[f m] d] rs IH]; cbn; [lia|]. unfold rtoks in IH. lia.
Qed.

Lemma sees_end s : sees s [] -> forall A (k : Z * nat * nat -> M nat A), bind (gettoken buf es) k s = k (0, es, es) es.
Proof.
  intros (Hs & _ & E) A k. destruct (skip_white_spec buf es Hlen Hes s Hs) as (Hp & _ & _). apply rest_nil in E; [|lia].
  unfold bind. rewrite gettoken_run by done. cbv zeta. rewrite E. unfold token_at. rewrite Hes. cbn. unfold skip_white. by rewrite Nat.sub_diag.
Qed.

Lemma sees_es : sees es [].
Proof. split; [lia|]. split; [done|]. unfold skip_white, rest. rewrite Nat.sub_diag. cbn [skip_while]. by rewrite Nat.sub_diag. Qed.

(** The arguments end where the command does. *)
Lemma args_end n c s ts : sees s ts -> follow (text "|)&;") ts -> exists s', loop (S n) (args_body buf es) c s = Ret c s' /\ sees s' ts.
Proof.
  intros Hs Hf. destruct (peek_reads (text "|)&;") s ts ltac:(by repeat constructor) Hs) as (p & Hp & E).
  cbn [loop]. unfold bind at 1, args_body. rewrite E. destruct Hf as [->|Hf].
  - cbn [first]. change (in_str (text "|)&;") 0) with false. cbn beta iota. rewrite (sees_end p Hp). exists es. split; [done|apply sees_es].
  - rewrite Hf. by exists p.
Qed.

Lemma word_symbols t ts l : word t -> forallb (in_str symbols) l = true -> in_str l (first (t :: ts)) = false.
Proof.
  intros Ht Hl. apply word_first; [done|]. apply Forall_forall. intros x Hx. apply forallb_forall with (x := x) in Hl; [|by apply list_elem_of_In].
  by apply in_str_spec in Hl as [_ Hl]; [|by repeat constructor].
Qed.

Lemma redirs_none c s ts : sees s ts -> in_str (text "<>") (first ts) = false -> exists s', parseredirs buf es c s = Ret c s' /\ sees s' ts.
Proof.
  intros Hs Hts. destruct (peek_reads (text "<>") s ts ltac:(by repeat constructor) Hs) as (p & Hp & E). exists p. split; [|done].
  unfold parseredirs. cbn [loop]. unfold bind at 1, redirs_body. by rewrite E, Hts.
Qed.

Lemma follow_redirs l ts : follow l ts -> Forall (fun c => c <> 0) l -> Forall (fun c => in_str (text "<>") c = false) l -> in_str (text "<>") (first ts) = false.
Proof.
  intros [->|Hf] Hl Hn; [done|]. apply in_str_spec in Hf as [_ Hf]; [|done]. rewrite Forall_forall in Hn. by apply Hn.
Qed.

Lemma args_loop args : forall rs argv s ts n, Forall word args -> args <> [] -> Forall redir_ok rs -> sees s (args ++ rtoks rs ++ ts) -> follow (text "|)&;") ts ->
  (length argv + length args < MAXARGS)%nat -> (length args < n)%nat ->
  reads (loop n (args_body buf es) (EXEC argv)) s ts (wrap rs (SExec (map slice argv ++ args))).
Proof.
  induction args as [|a args IH]; intros rs argv s ts n Ha Hne Hrs Hs Hf Hmax Hn; [done|]. clear Hne. apply Forall_cons_1 in Ha as [Hw Ha].
  destruct n as [|n]; [cbn in Hn; lia|]. cbn [loop length] in *. cbn [app] in Hs.
  destruct (peek_reads (text "|)&;") s _ ltac:(by repeat constructor) Hs) as (p & Hp & E).
  rewrite (word_symbols a _ _ Hw) in E by done.
  destruct (word_reads a p _ Hw Hp) as (q & e & s1 & Hs1 & Hsl & E1).
  assert (in_str (text "<>") (first ts) = false) as Hts by (eapply follow_redirs; [exact Hf|by repeat constructor|by repeat constructor]).
  assert (forall c2 s2, parseredirs buf es (EXEC (argv ++ [(q, e)])) s1 = Ret c2 s2 -> bind (args_body buf es (EXEC argv))
    (fun r => match r with inl a' => loop n (args_body buf es) a' | inr v => ret v end) s = loop n (args_body buf es) c2 s2) as Hstep.
  { intros c2 s2 E2. unfold bind at 1, args_body. rewrite E, E1. change (97 =? 0) with false. change (97 =? 97) with true. cbn [negb upd_exec argc_of]. rewrite length_app. cbn [length].
    rewrite (proj2 (Nat.leb_gt _ _)) by lia. cbv beta iota zeta. unfold bind. by rewrite E2. }
  destruct args as [|b args].
  - cbn [app] in Hs1. destruct (redirs_reads rs (EXEC (argv ++ [(q, e)])) s1 ts Hrs Hs1 Hts) as (c2 & s2 & E2 & Hs2 & Hc2).
    unfold reads. rewrite (Hstep c2 s2 E2). cbn [length] in Hn. destruct n as [|n]; [lia|]. destruct (args_end n c2 s2 ts Hs2 Hf) as (s3 & E3 & Hs3). exists c2, s3. split; [done|]. split; [done|].
    rewrite Hc2. cbn [strings]. by rewrite map_app, <- Hsl.
  - destruct (redirs_none (EXEC (argv ++ [(q, e)])) s1 _ Hs1) as (s2 & E2 & Hs2).
    { apply Forall_cons_1 in Ha as [Hb _]. by apply word_symbols. }
    unfold reads. rewrite (Hstep _ _ E2). destruct (IH rs (argv ++ [(q, e)]) s2 ts n Ha) as (c3 & s3 & E3 & Hs3 & Hc3); [done|done|done|done|rewrite length_app; cbn in *; lia|cbn in *; lia|].
    exists c3, s3. split; [done|]. split; [done|]. rewrite Hc3, map_app, <- app_assoc. cbn [map app]. by rewrite Hsl.
Qed.

(** The equations of the parser *)
Lemma parseline_S n : parseline buf es (S n) =
  (let! c := parsepipe buf es n in
   let! c := loop (S (S es)) (back_body buf es) c in
   let! b := peek buf es (text ";") in
   if (b : bool) then gettoken buf es ;;; (let! r := parseline buf es n in ret (LIST c r)) else ret c).
Proof. reflexivity. Qed.

Lemma parsepipe_S n : parsepipe buf es (S n) =
  (let! c := parseexec buf es n in
   let! b := peek buf es (text "|") in
   if (b : bool) then gettoken buf es ;;; (let! r := parsepipe buf es n in ret (PIPE c r)) else ret c).
Proof. reflexivity. Qed.

Lemma parseexec_S n : parseexec buf es (S n) =
  (let! b := peek buf es (text "(") in
   if (b : bool) then parseblock buf es n
   else let! r := parseredirs buf es (EXEC []) in loop (S (S es)) (args_body buf es) r).
Proof. reflexivity. Qed.

Lemma parseblock_S n : parseblock buf es (S n) =
  (let! b := peek buf es (text "(") in
   if negb b then panic "parseblock"
   else
     gettoken buf es ;;;
     let! c := parseline buf es n in
     let! b := peek buf es (text ")") in
     if negb b then panic "syntax - missing )" else gettoken buf es ;;; parseredirs buf es c).
Proof. reflexivity. Qed.

(** ** Each level of the grammar reads what is printed at that level *)

Definition reads0 (t : scmd) : Prop := forall rs s ts fuel, Forall redir_ok rs -> sees s (print 0 t ++ rtoks rs ++ ts) -> follow (text "|)&;") ts ->
  (4 * length (print 0 t) + 2 <= fuel)%nat -> reads (parseexec buf es fuel) s ts (wrap rs t).
Definition reads1 (t : scmd) : Prop := forall s ts fuel, sees s (print 1 t ++ ts) -> follow (text ")&;") ts ->
  (4 * length (print 1 t) + 3 <= fuel)%nat -> reads (parsepipe buf es fuel) s ts t.
(** parsepipe and the rounds of the loop of parseline *)
Definition reads2 (t : scmd) : Prop := forall s ts fuel, sees s (print 2 t ++ ts) -> follow (text ")&;") ts ->
  (4 * length (print 2 t) + 3 <= fuel)%nat -> exists c0 s0 k c s', parsepipe buf es fuel s = Ret c0 s0 /\ (k <= length (print 2 t))%nat /\
    (forall n, loop (k + n) (back_body buf es) c0 s0 = loop n (back_body buf es) c s') /\ sees s' ts /\ strings slice c = t.
Definition reads3 (t : scmd) : Prop := forall s ts fuel, sees s (print 3 t ++ ts) -> follow (text ")") ts ->
  (4 * length (print 3 t) + 4 <= fuel)%nat -> reads (parseline buf es fuel) s ts t.

Lemma print_inner lvl t : print lvl t = if (level t <=? lvl)%nat then print 3 t else [text "("] ++ print 3 t ++ [text ")"].
Proof. by destruct t. Qed.

Lemma follow_weaken l l' ts : follow l ts -> Forall (fun c => c <> 0) l -> Forall (fun c => in_str l' c = true) l -> follow l' ts.
Proof. intros [->|Hf] Hl Hll; [by left|right]. apply in_str_spec in Hf as [_ Hf]; [|done]. rewrite Forall_forall in Hll. by apply Hll. Qed.

(** The next token is none of [l']. *)
Lemma follow_not l l' ts : follow l ts -> Forall (fun c => c <> 0) l -> in_str l' 0 = false -> Forall (fun c => in_str l' c = false) l -> in_str l' (first ts) = false.
Proof. intros [->|Hf] Hl H0 Hll; [done|]. apply in_str_spec in Hf as [_ Hf]; [|done]. rewrite Forall_forall in Hll. by apply Hll. Qed.

Lemma exec_reads0 args : Forall word args -> (length args < MAXARGS)%nat -> reads0 (SExec args).
Proof.
  intros Ha Hmax rs s ts fuel Hrs Hs Hf Hfuel. change (print 0 (SExec args)) with args in *. destruct fuel as [|fuel]; [lia|]. rewrite parseexec_S.
  assert (in_str (text "<>") (first ts) = false) as Hts by (eapply follow_redirs; [exact Hf|by repeat constructor|by repeat constructor]).
  destruct (peek_reads (text "(") s _ ltac:(by repeat constructor) Hs) as (p & Hp & E). unfold reads. rewrite E.
  assert (in_str (text "(") (first (args ++ rtoks rs ++ ts)) = false) as ->.
  { destruct args as [|a args]; [|apply Forall_cons_1 in Ha as [Ha _]; by apply word_symbols]. destruct rs as [|[[f m] d] rs]; [|cbn; by destruct (d =? 0)].
    eapply follow_not; [exact Hf|by repeat constructor|done|by repeat constructor]. }
  unfold bind. destruct args as [|a args].
  - destruct (redirs_reads rs (EXEC []) p ts Hrs Hp Hts) as (c2 & s2 & -> & Hs2 & Hc2). destruct (args_end (S es) c2 s2 ts Hs2 Hf) as (s3 & E3 & Hs3). by exists c2, s3.
  - destruct (redirs_none (EXEC []) p _ Hp) as (s2 & -> & Hs2); [apply Forall_cons_1 in Ha as [Ha0 _]; by apply word_symbols|].
    apply (args_loop (a :: args) rs [] s2 ts (S (S es)) Ha); [done|done|done|done|done|]. apply sees_length in Hs. rewrite length_app in Hs. cbn [length] in *. lia.
Qed.

Lemma redir_reads0 t file mode fd : redir_ok (file, mode, fd) -> reads0 t -> reads0 (SRedir t file mode fd).
Proof.
  intros Hr Ht rs s ts fuel Hrs Hs Hf Hfuel. change (print 0 (SRedir t file mode fd)) with (print 0 t ++ redir_toks (file, mode, fd)) in *.
  rewrite <- app_assoc in Hs. rewrite length_app in Hfuel. apply (Ht ((file, mode, fd) :: rs) s ts fuel); [by constructor| |done|lia].
  unfold rtoks. cbn [map concat]. by rewrite <- app_assoc.
Qed.

(** A command in parentheses *)
Lemma paren_reads0 t : (0 < level t)%nat -> reads3 t -> reads0 t.
Proof.
  intros Hl Ht rs s ts fuel Hrs Hs Hf Hfuel. rewrite (print_inner 0 t) in *. rewrite (proj2 (Nat.leb_gt _ _)) in Hs, Hfuel by lia.
  rewrite !length_app in Hfuel. cbn [length] in Hfuel. destruct fuel as [|[|n]]; [lia|lia|]. rewrite <- !app_assoc in Hs. cbn [app] in Hs.
  assert (in_str (text "<>") (first ts) = false) as Hts by (eapply follow_redirs; [exact Hf|by repeat constructor|by repeat constructor]).
  destruct (peek_reads (text "(") s _ ltac:(by repeat constructor) Hs) as (p & Hp & E). change (in_str (text "(") (first (text "(" :: _))) with true in E.
  destruct (peek_reads (text "(") p _ ltac:(by repeat constructor) Hp) as (p1 & Hp1 & E1). change (in_str (text "(") (first (text "(" :: _))) with true in E1.
  destruct (token_reads 40 p1 _ ltac:(unfold symbols; cbn; rewrite !elem_of_cons; tauto) Hp1) as (q2 & e2 & s2 & Hs2 & E2).
  destruct (Ht s2 (text ")" :: rtoks rs ++ ts) n) as (c & s3 & E3 & Hs3 & Hc); [done|by right|lia|].
  destruct (peek_reads (text ")") s3 _ ltac:(by repeat constructor) Hs3) as (p4 & Hp4 & E4). change (in_str (text ")") (first (text ")" :: _))) with true in E4.
  destruct (token_reads 41 p4 _ ltac:(unfold symbols; cbn; rewrite !elem_of_cons; tauto) Hp4) as (q5 & e5 & s5 & Hs5 & E5).
  destruct (redirs_reads rs c s5 ts Hrs Hs5 Hts) as (c6 & s6 & E6 & Hs6 & Hc6). exists c6, s6. split; [|split; [done|by rewrite Hc6, Hc]].
  rewrite parseexec_S, E, parseblock_S, E1. cbn [negb]. rewrite E2. unfold bind at 1. rewrite E3, E4. cbn [negb]. by rewrite E5.
Qed.

Lemma lift_reads1 t : level t <> 1%nat -> reads0 t -> reads1 t.
Proof.
  intros Hl Ht s ts fuel Hs Hf Hfuel. assert (print 1 t = print 0 t) as Ep by (rewrite (print_inner 1), (print_inner 0); by destruct (level t) as [|[|]]). rewrite Ep in *.
  destruct fuel as [|n]; [lia|]. destruct (Ht [] s ts n) as (c & s1 & E1 & Hs1 & Hc); [done|done|by eapply follow_weaken; [exact Hf|by repeat constructor|by repeat constructor]|lia|].
  destruct (peek_reads (text "|") s1 _ ltac:(by repeat constructor) Hs1) as (p & Hp & E). exists c, p. split; [|done].
  rewrite parsepipe_S. unfold bind at 1. rewrite E1, E. rewrite (follow_not (text ")&;")); [done|done|by repeat constructor|done|by repeat constructor].
Qed.

Lemma lift_reads2 t : level t <> 2%nat -> reads1 t -> reads2 t.
Proof.
  intros Hl Ht s ts fuel Hs Hf Hfuel. assert (print 2 t = print 1 t) as Ep by (rewrite (print_inner 2), (print_inner 1); by destruct (level t) as [|[|[|]]]). rewrite Ep in *.
  destruct (Ht s ts fuel Hs Hf Hfuel) as (c & s1 & E1 & Hs1 & Hc). exists c, s1, 0%nat, c, s1. by split_and!; [|lia| | |].
Qed.

Lemma back_end c s ts n : sees s ts -> in_str (text "&") (first ts) = false -> exists s', loop (S n) (back_body buf es) c s = Ret c s' /\ sees s' ts.
Proof.
  intros Hs Hts. destruct (peek_reads (text "&") s ts ltac:(by repeat constructor) Hs) as (p & Hp & E). exists p. split; [|done].
  cbn [loop]. unfold bind at 1, back_body. by rewrite E, Hts.
Qed.

(** The loop of parseline ends before anything but an ampersand. *)
Lemma backs_reads t s ts fuel : reads2 t -> sees s (print 2 t ++ ts) -> follow (text ")&;") ts -> in_str (text "&") (first ts) = false ->
  (4 * length (print 2 t) + 3 <= fuel)%nat -> reads (let! c := parsepipe buf es fuel in loop (S (S es)) (back_body buf es) c) s ts t.
Proof.
  intros Ht Hs Hf Hts Hfuel. destruct (Ht s ts fuel Hs Hf Hfuel) as (c0 & s0 & k & c & s1 & E0 & Hk & El & Hs1 & Hc).
  pose proof (sees_length _ _ Hs) as Hl. rewrite length_app in Hl. destruct (back_end c s1 ts (S es - k) Hs1 Hts) as (s2 & E2 & Hs2).
  exists c, s2. split; [|done]. unfold bind. rewrite E0. replace (S (S es)) with (k + S (S es - k))%nat by lia. by rewrite El.
Qed.

Lemma lift_reads3 t : level t <> 3%nat -> reads2 t -> reads3 t.
Proof.
  intros Hl Ht s ts fuel Hs Hf Hfuel. assert (print 3 t = print 2 t) as Ep by (rewrite (print_inner 2); by destruct t). rewrite Ep in *. destruct fuel as [|n]; [lia|].
  destruct (backs_reads t s ts n Ht Hs) as (c & s1 & E1 & Hs1 & Hc); [by eapply follow_weaken; [exact Hf|by repeat constructor|by repeat constructor]| |lia|].
  { eapply follow_not; [exact Hf|by repeat constructor|done|by repeat constructor]. }
  destruct (peek_reads (text ";") s1 _ ltac:(by repeat constructor) Hs1) as (p & Hp & E). exists c, p. split; [|done].
  rewrite parseline_S. etransitivity; [symmetry; apply (bind_assoc (parsepipe buf es n) (fun c => loop (S (S es)) (back_body buf es) c))|].
  unfold bind at 1. rewrite E1, E. rewrite (follow_not (text ")")); [done|done|by repeat constructor|done|by repeat constructor].
Qed.

Lemma pipe_reads1 l r : reads0 l -> reads1 r -> reads1 (SPipe l r).
Proof.
  intros Hl Hr s ts fuel Hs Hf Hfuel. change (print 1 (SPipe l r)) with (print 0 l ++ [text "|"] ++ print 1 r) in *. rewrite !length_app in Hfuel. cbn [length] in Hfuel.
  rewrite <- !app_assoc in Hs. destruct fuel as [|n]; [lia|].
  destruct (Hl [] s (text "|" :: print 1 r ++ ts) n) as (c & s1 & E1 & Hs1 & Hc); [done|done|by right|lia|].
  destruct (peek_reads (text "|") s1 _ ltac:(by repeat constructor) Hs1) as (p & Hp & E2). change (in_str (text "|") (first (text "|" :: _))) with true in E2.
  destruct (token_reads 124 p _ ltac:(unfold symbols; cbn; rewrite !elem_of_cons; tauto) Hp) as (q & e & s3 & Hs3 & E3).
  destruct (Hr s3 ts n) as (c4 & s4 & E4 & Hs4 & Hc4); [done|done|lia|]. exists (PIPE c c4), s4. split; [|split; [done|cbn; by rewrite Hc, Hc4]].
  rewrite parsepipe_S. unfold bind at 1. rewrite E1, E2, E3. unfold bind. by rewrite E4.
Qed.

Lemma back_reads2 t : reads2 t -> reads2 (SBack t).
Proof.
  intros Ht s ts fuel Hs Hf Hfuel. change (print 2 (SBack t)) with (print 2 t ++ [text "&"]) in *. rewrite length_app in *. cbn [length] in *. rewrite <- app_assoc in Hs.
  destruct (Ht s (text "&" :: ts) fuel Hs) as (c0 & s0 & k & c & s1 & E0 & Hk & El & Hs1 & Hc); [by right|lia|].
  destruct (peek_reads (text "&") s1 _ ltac:(by repeat constructor) Hs1) as (p & Hp & E2). change (in_str (text "&") (first (text "&" :: _))) with true in E2.
  destruct (token_reads 38 p _ ltac:(unfold symbols; cbn; rewrite !elem_of_cons; tauto) Hp) as (q & e & s3 & Hs3 & E3).
  exists c0, s0, (k + 1)%nat, (BACK c), s3. split; [done|]. split; [lia|]. split; [|split; [done|cbn; by rewrite Hc]].
  intros n. rewrite <- Nat.add_assoc, El. cbn [Nat.add loop]. unfold bind at 1, back_body. by rewrite E2, E3.
Qed.

Lemma list_reads3 l r : reads2 l -> reads3 r -> reads3 (SList l r).
Proof.
  intros Hl Hr s ts fuel Hs Hf Hfuel. change (print 3 (SList l r)) with (print 2 l ++ [text ";"] ++ print 3 r) in *. rewrite !length_app in Hfuel. cbn [length] in Hfuel.
  rewrite <- !app_assoc in Hs. destruct fuel as [|n]; [lia|].
  destruct (backs_reads l s (text ";" :: print 3 r ++ ts) n Hl Hs) as (c & s1 & E1 & Hs1 & Hc); [by right|done|lia|].
  destruct (peek_reads (text ";") s1 _ ltac:(by repeat constructor) Hs1) as (p & Hp & E2). change (in_str (text ";") (first (text ";" :: _))) with true in E2.
  destruct (token_reads 59 p _ ltac:(unfold symbols; cbn; rewrite !elem_of_cons; tauto) Hp) as (q & e & s3 & Hs3 & E3).
  destruct (Hr s3 ts n) as (c4 & s4 & E4 & Hs4 & Hc4); [done|done|lia|]. exists (LIST c c4), s4. split; [|split; [done|cbn; by rewrite Hc, Hc4]].
  rewrite parseline_S. etransitivity; [symmetry; apply (bind_assoc (parsepipe buf es n) (fun c => loop (S (S es)) (back_body buf es) c))|].
  unfold bind at 1. rewrite E1, E2, E3. unfold bind. by rewrite E4.
Qed.

Lemma reads_all t : expressible t -> reads0 t /\ reads1 t /\ reads2 t /\ reads3 t.
Proof.
  assert (forall t, level t = 0%nat -> reads0 t -> reads0 t /\ reads1 t /\ reads2 t /\ reads3 t) as H0.
  { intros u Hu H. assert (reads1 u) as H1 by (apply lift_reads1; [lia|done]). assert (reads2 u) as H2 by (apply lift_reads2; [lia|done]).
    split_and!; [done..|]. apply lift_reads3; [lia|done]. }
  induction t as [args|t IH file mode fd|l IHl r IHr|l IHl r IHr|t IH]; cbn [expressible]; intros Ht.
  - destruct Ht as [Hw Hn]. apply H0; [done|]. by apply exec_reads0.
  - destruct Ht as (Ht & Hw & Hm). destruct (IH Ht) as (R0 & _). apply H0; [done|]. by apply redir_reads0.
  - destruct Ht as [Hl Hr]. destruct (IHl Hl) as (L0 & _). destruct (IHr Hr) as (_ & R1 & _). assert (reads1 (SPipe l r)) as H1 by (by apply pipe_reads1).
    assert (reads2 (SPipe l r)) as H2 by (by apply lift_reads2). assert (reads3 (SPipe l r)) as H3 by (by apply lift_reads3).
    split_and!; [|done..]. apply paren_reads0; [cbn; lia|done].
  - destruct Ht as [Hl Hr]. destruct (IHl Hl) as (_ & _ & L2 & _). destruct (IHr Hr) as (_ & _ & _ & R3). assert (reads3 (SList l r)) as H3 by (by apply list_reads3).
    assert (reads0 (SList l r)) as R0 by (apply paren_reads0; [cbn; lia|done]). assert (reads1 (SList l r)) as R1 by (by apply lift_reads1).
    split_and!; [done|done|by apply lift_reads2|done].
  - destruct (IH Ht) as (_ & _ & R2 & _). assert (reads2 (SBack t)) as H2 by (by apply back_reads2). assert (reads3 (SBack t)) as H3 by (by apply lift_reads3).
    assert (reads0 (SBack t)) as R0 by (apply paren_reads0; [cbn; lia|done]). split_and!; [done|by apply lift_reads1|done|done].
Qed.

End read.

(** ** The round trip *)

Lemma redir_toks_token r : redir_ok r -> Forall token (redir_toks r).
Proof.
  destruct r as [[f m] d]. intros [Hw _]. apply Forall_cons_2; [|apply Forall_cons_2; [by left|done]]. right. destruct (d =? 0); eexists; (split; [done|]); unfold symbols; cbn; rewrite !elem_of_cons; tauto.
Qed.

Lemma print_tokens t lvl : expressible t -> Forall token (print lvl t).
Proof.
  assert (forall c, c ∈ symbols -> token [c]) as Hsym by (intros c Hc; right; by exists c).
  assert (forall l, Forall token l -> Forall token ([text "("] ++ l ++ [text ")"])) as Hpar.
  { intros l Hl. apply Forall_app. split; [constructor; [|done]|apply Forall_app; split; [done|constructor; [|done]]]; apply Hsym; unfold symbols; cbn; rewrite !elem_of_cons; tauto. }
  revert lvl. induction t as [args|t IH file mode fd|l IHl r IHr|l IHl r IHr|t IH]; cbn [expressible print]; intros lvl Ht; (case_match; [|apply Hpar]).
  1,2: destruct Ht as [Ht _]; eapply Forall_impl; [exact Ht|by left].
  1,2: destruct Ht as (Ht & Hr); apply Forall_app; split; [by apply IH|by apply redir_toks_token].
  1-4: destruct Ht as [Hl Hr]; apply Forall_app; split; [by apply IHl|]; constructor; [|by apply IHr]; apply Hsym; unfold symbols; cbn; rewrite !elem_of_cons; tauto.
  all: apply Forall_app; split; [by apply IH|]; constructor; [|done]; apply Hsym; unfold symbols; cbn; rewrite !elem_of_cons; tauto.
Qed.

Lemma strings_ext f g c : (forall w, w ∈ words c -> f w = g w) -> strings f c = strings g c.
Proof.
  induction c as [argv|c IH file efile mode fd|l IHl r IHr|l IHl r IHr|c IH]; cbn [words strings]; intros H; f_equal;
    try (apply IH || apply IHl || apply IHr || apply H || (apply map_ext_in; intros a Ha%list_elem_of_In; by apply H)); try (intros w Hw; apply H);
    rewrite ?elem_of_app, ?list_elem_of_singleton; tauto.
Qed.

Lemma render_nonzero toks : Forall token toks -> Forall (fun c => c <> 0) (render toks).
Proof.
  intros H. unfold render. induction H as [|t toks Ht _ IH]; cbn; [done|]. constructor; [done|]. apply Forall_app. split; [|done].
  destruct Ht as [[_ Hw]|(c & -> & Hc)].
  - eapply Forall_impl; [exact Hw|]. intros c Hc ->. done.
  - constructor; [by apply symbols_in|done].
Qed.

Lemma strlen_app l r : Forall (fun c => c <> 0) l -> strlen (l ++ 0 :: r) = Some (Z.of_nat (length l)).
Proof. induction 1 as [|c l Hc _ IH]; simpl; [done|]. rewrite (proj2 (Z.eqb_neq _ _) Hc), IH. simpl. f_equal. lia. Qed.

(** C39: the shell's parser inverts printing: a command tree (commands with up to nine arguments,
    input and output redirections, pipelines, lists, background commands, nested in any way) that
    is written out with parentheses where the grammar needs them is parsed by parsecmd to the same
    tree, with the same strings in the command buffer after nulterminate. *)
Theorem parse_print t : expressible t -> exists c buf',
  parsecmd (render (print 3 t) ++ [0]) = Ret (inl c) buf' /\ strings (fun w => cstr buf' w.1) c = t.
Proof.
  intros Ht. pose proof (print_tokens t 3 Ht) as Htok. set (x := render (print 3 t)) in *. set (buf := x ++ [0]).
  assert (strlen buf = Some (Z.of_nat (length x))) as Hn by (by apply strlen_app, render_nonzero).
  destruct (strlen_string buf _ Hn) as (Hlen & Hes & Hin). rewrite Nat2Z.id in *. set (es := length x) in *.
  assert (sees buf es 0 (print 3 t ++ [])) as Hs.
  { rewrite app_nil_r. apply render_skip; [done..|lia|]. unfold rest. rewrite Nat.sub_0_r, drop_0. by apply take_app_length. }
  assert (length (print 3 t ++ []) <= es)%nat as Hl by (by eapply sees_length). rewrite app_nil_r in Hl.
  destruct (reads_all buf es Hlen Hes Hin t Ht) as (_ & _ & _ & R3).
  destruct (R3 0%nat [] (parse_fuel es) Hs) as (c & s1 & E1 & Hs1 & Hc); [by left|unfold parse_fuel; lia|].
  assert (tree_ok buf es c) as Hok.
  { pose proof (parse_runs buf es Hlen Hes Hin (parse_fuel es) 0 ltac:(lia)) as [Hr _]. specialize (Hr ltac:(unfold parse_fuel; lia)). unfold runs in Hr. rewrite E1 in Hr. apply Hr. }
  destruct (nulterminate_words buf es c Hlen Hin Hok) as (b' & Eb & _ & Hw). exists c, b'. split.
  - unfold parsecmd. rewrite Hn, Nat2Z.id. fold es. cbv zeta. unfold bind at 1. rewrite E1. destruct Hs1 as (Hs1 & _ & Er). unfold bind. rewrite peek_run by done. cbv zeta.
    destruct (skip_white_spec buf es Hlen Hes s1 Hs1) as (Hp & _ & _). apply rest_nil in Er; [|done|lia]. rewrite Er. cbn [ret]. rewrite Nat.eqb_refl. cbn [negb]. by rewrite Eb.
  - rewrite <- Hc. apply strings_ext. intros w Hwc. by rewrite Hw.
Qed.

Lemma parse_print_witness : exists c buf', parsecmd (text " cat < in | ( ls ; wc ) > out &" ++ [0]) = Ret (inl c) buf' /\
  strings (fun w => cstr buf' w.1) c =
    SBack (SPipe (SRedir (SExec [text "cat"]) (text "in") RD 0) (SRedir (SList (SExec [text "ls"]) (SExec [text "wc"])) (text "out") WR_CREATE 1)).
Proof.
  destruct (parse_print (SBack (SPipe (SRedir (SExec [text "cat"]) (text "in") RD 0)
    (SRedir (SList (SExec [text "ls"]) (SExec [text "wc"])) (text "out") WR_CREATE 1)))) as (c & buf' & E & Hc).
  - cbn [expressible]. unfold word, MAXARGS. repeat split; try discriminate; try (by repeat constructor); cbn; try lia; auto.
  - exists c, buf'. split; [exact E|exact Hc].
Defined.
