(* ===== verification/ShellRun.v ===== *)
(** * What the shell runs

    runcmd among processes.  The processes that come from one command form a forest: each has its
    table of descriptors, the code it still has to run, and its children; a step is one system call
    of one of them, in any order.  The calls do what the kernel's do (proc.c, sysfile.c): fork copies
    the table, open, dup and pipe take the lowest free descriptors, exec keeps the table, wait blocks
    until a child has exited, and the children of a process that exits go to init.  What a started
    program does is not looked at: it ends at some time.  There is room for the processes and pipes
    that the command asks for.  Against this stands what a command means ([sstep]). *)
From Stdlib Require Import ZArith Lia FunctionalExtensionality.
From stdpp Require Import base list numbers strings.
From S2P Require Import Prelude Ulib User Shell.
Local Open Scope Z_scope.

(** ** Descriptors *)

(** What a descriptor refers to *)
Inductive chan :=
| OpenFile (path : list Z) (mode : Z)
| PipeEnd (n : nat) (write : bool).
Abbreviation fdtable := (list (option chan)).

(** The lowest free descriptor, and the table with it taken *)
Fixpoint fd_alloc (c : chan) (t : fdtable) : option (nat * fdtable) :=
  match t with
  | [] => None
  | None :: t' => Some (0%nat, Some c :: t')
  | x :: t' => match fd_alloc c t' with Some (fd, t'') => Some (S fd, x :: t'') | None => None end
  end.
Definition fd_get (fd : Z) (t : fdtable) : option chan := nth (Z.to_nat fd) t None.

Lemma to_nat_0 : Z.to_nat 0 = 0%nat.
Proof. done. Qed.
Lemma to_nat_1 : Z.to_nat 1 = 1%nat.
Proof. done. Qed.
Create Rewrite HintDb fds.
#[local] Hint Rewrite to_nat_0 to_nat_1 Nat2Z.id Z.eqb_refl : fds.

Inductive event :=
| Started (path : list Z) (argv : list (list Z)) (fds : fdtable)
| Ended (path : list Z) (argv : list (list Z)).

(** The processes of a command: one that has exited, one that runs a program, and one that still runs
    the code of the shell *)
Inductive ptree :=
| Zombie
| Image (t : fdtable) (path : list Z) (argv : list (list Z)) (kids : list ptree)
| Shell (t : fdtable) (p : uprog unit) (kids : list ptree).

Section run.
(** The files that can be opened and the programs that can be run *)
Variables openable runnable : list Z -> bool.

(** The calls that concern the process alone: the reply, and the table afterwards *)
Definition local_call (c : call) (t : fdtable) : option (reply * fdtable) :=
  match c with
  | CClose fd => Some (match fd_get fd t with Some _ => ((0, []), <[Z.to_nat fd := None]> t) | None => ((-1, []), t) end)
  | COpen path mode =>
      Some (match (if openable path then fd_alloc (OpenFile path mode) t else None) with
            | Some (fd, t') => ((Z.of_nat fd, []), t') | None => ((-1, []), t) end)
  | CDup fd =>
      Some (match (match fd_get fd t with Some c => fd_alloc c t | None => None end) with
            | Some (fd', t') => ((Z.of_nat fd', []), t') | None => ((-1, []), t) end)
  | CWrite fd l => Some ((match fd_get fd t with Some _ => Z.of_nat (length l) | None => -1 end, []), t)
  | _ => None
  end.

(** One call of one process of the tree; [n] numbers the pipes.  The trees at the end are the children
    left behind by a process that exits. *)
Inductive tstep : nat * ptree -> list event -> nat * ptree * list ptree -> Prop :=
| t_local n t c k kids r t' : local_call c t = Some (r, t') ->
    tstep (n, Shell t (UCall c k) kids) [] (n, Shell t' (k r) kids, [])
| t_pipe n t k kids p0 t1 p1 t2 : fd_alloc (PipeEnd n false) t = Some (p0, t1) -> fd_alloc (PipeEnd n true) t1 = Some (p1, t2) ->
    tstep (n, Shell t (UCall CPipe k) kids) [] (S n, Shell t2 (k (0, [Z.of_nat p0; Z.of_nat p1])) kids, [])
| t_fork n t k kids pid : 0 < pid ->
    tstep (n, Shell t (UCall CFork k) kids) [] (n, Shell t (k (pid, [])) (kids ++ [Shell t (k (0, [])) []]), [])
| t_wait n t k K1 K2 pid : 0 < pid ->
    tstep (n, Shell t (UCall CWait k) (K1 ++ Zombie :: K2)) [] (n, Shell t (k (pid, [])) (K1 ++ K2), [])
| t_alone n t k : tstep (n, Shell t (UCall CWait k) []) [] (n, Shell t (k (-1, [])) [], [])
| t_exec n t path argv k kids : runnable path = true ->
    tstep (n, Shell t (UCall (CExec path argv) k) kids) [Started path argv t] (n, Image t path argv kids, [])
| t_noexec n t path argv k kids : runnable path = false ->
    tstep (n, Shell t (UCall (CExec path argv) k) kids) [] (n, Shell t (k (-1, [])) kids, [])
| t_exit n t kids : tstep (n, Shell t UExit kids) [] (n, Zombie, kids)
| t_end n t path argv kids : tstep (n, Image t path argv kids) [Ended path argv] (n, Zombie, kids)
| t_kid n t p K1 x K2 evs n' x' left : tstep (n, x) evs (n', x', left) ->
    tstep (n, Shell t p (K1 ++ x :: K2)) evs (n', Shell t p (K1 ++ x' :: K2), left)
| t_image_kid n t path argv K1 x K2 evs n' x' left : tstep (n, x) evs (n', x', left) ->
    tstep (n, Image t path argv (K1 ++ x :: K2)) evs (n', Image t path argv (K1 ++ x' :: K2), left).

(** The forest: the first tree is the command, the others belong to init. *)
Inductive grun : nat * list ptree -> list event -> nat * list ptree -> Prop :=
| g_refl g : grun g [] g
| g_step n R1 x R2 evs n' x' left evs' g : tstep (n, x) evs (n', x', left) ->
    grun (n', R1 ++ x' :: R2 ++ left) evs' g -> grun (n, R1 ++ x :: R2) (evs ++ evs') g.

(** ** What a command means *)

(** A command with the table it is given, a running program, a list whose first part runs, the two
    sides of a pipe, a command in the background *)
Inductive sp :=
| Nil
| Do (c : cmd) (t : fdtable)
| Live (path : list Z) (argv : list (list Z))
| Seq (x : sp) (c : cmd) (t : fdtable)
| Par (a b : sp)
| Bg (x : sp).

Variable buf : list Z.

Inductive sstep : nat * sp -> list event -> nat * sp * list sp -> Prop :=
| s_none n t : sstep (n, Do (EXEC []) t) [] (n, Nil, [])
| s_start n q e argv t : runnable (cstr buf q) = true -> let args := map (fun a => cstr buf a.1) ((q, e) :: argv) in
    sstep (n, Do (EXEC ((q, e) :: argv)) t) [Started (cstr buf q) args t] (n, Live (cstr buf q) args, [])
| s_missing n q e argv t : runnable (cstr buf q) = false -> sstep (n, Do (EXEC ((q, e) :: argv)) t) [] (n, Nil, [])
| s_end n path argv : sstep (n, Live path argv) [Ended path argv] (n, Nil, [])
| s_redir n c file efile mode fd t : openable (cstr buf file) = true ->
    sstep (n, Do (REDIR c file efile mode fd) t) [] (n, Do c (<[Z.to_nat fd := Some (OpenFile (cstr buf file) mode)]> t), [])
| s_noredir n c file efile mode fd t : openable (cstr buf file) = false -> sstep (n, Do (REDIR c file efile mode fd) t) [] (n, Nil, [])
| s_list n l r t : sstep (n, Do (LIST l r) t) [] (n, Seq (Do l t) r t, [])
| s_first n x r t evs n' x' left : sstep (n, x) evs (n', x', left) -> sstep (n, Seq x r t) evs (n', Seq x' r t, left)
| s_then n r t : sstep (n, Seq Nil r t) [] (n, Do r t, [])
| s_pipe n l r t : sstep (n, Do (PIPE l r) t) []
    (S n, Par (Do l (<[1%nat := Some (PipeEnd n true)]> t)) (Do r (<[0%nat := Some (PipeEnd n false)]> t)), [])
| s_left n a b evs n' a' left : sstep (n, a) evs (n', a', left) -> sstep (n, Par a b) evs (n', Par a' b, left)
| s_right n a b evs n' b' left : sstep (n, b) evs (n', b', left) -> sstep (n, Par a b) evs (n', Par a b', left)
| s_both n : sstep (n, Par Nil Nil) [] (n, Nil, [])
| s_back n c t : sstep (n, Do (BACK c) t) [] (n, Bg (Do c t), [])
| s_bg n x evs n' x' left : sstep (n, x) evs (n', x', left) -> sstep (n, Bg x) evs (n', Bg x', left)
| s_detach n x : sstep (n, Bg x) [] (n, Nil, [x]).

(** Several steps of one part, and of all of them *)
Inductive ssteps : nat * sp -> list event -> nat * sp * list sp -> Prop :=
| ss_refl n x : ssteps (n, x) [] (n, x, [])
| ss_step n x evs n1 x1 left1 evs' n' x' left' : sstep (n, x) evs (n1, x1, left1) -> ssteps (n1, x1) evs' (n', x', left') ->
    ssteps (n, x) (evs ++ evs') (n', x', left1 ++ left').
Inductive srun : nat * list sp -> list event -> nat * list sp -> Prop :=
| r_refl g : srun g [] g
| r_step n R1 x R2 evs n' x' left evs' g : ssteps (n, x) evs (n', x', left) ->
    srun (n', R1 ++ x' :: R2 ++ left) evs' g -> srun (n, R1 ++ x :: R2) (evs ++ evs') g.

(** Descriptors 0, 1 and 2 are open, as main ensures, and two are free for a pipe. *)
Definition std_fds (t : fdtable) : Prop := exists a b c rest, t = Some a :: Some b :: Some c :: None :: None :: rest.
(** The redirections that the parser makes *)
Fixpoint std_redirs (c : cmd) : Prop :=
  match c with
  | EXEC _ => True
  | REDIR c _ _ _ fd => std_redirs c /\ (fd = 0 \/ fd = 1)
  | PIPE l r | LIST l r => std_redirs l /\ std_redirs r
  | BACK c => std_redirs c
  end.

(** A process of the tree waits, with this table. *)
Inductive waits : ptree -> fdtable -> Prop :=
| w_here t k kids : waits (Shell t (UCall CWait k) kids) t
| w_kid t p kids x tw : x ∈ kids -> waits x tw -> waits (Shell t p kids) tw
| w_image_kid t path argv kids x tw : x ∈ kids -> waits x tw -> waits (Image t path argv kids) tw.

(** ** Code that does not return *)

Fixpoint exits (p : uprog unit) : Prop :=
  match p with
  | UDone _ => False
  | UExit | UFuel => True
  | UCall _ k => forall r, exits (k r)
  end.

Lemma exits_bind {A} (m : uprog A) f : (forall a, exits (f a)) -> exits (ubind m f).
Proof. intros Hf. induction m as [a| | |c k IH]; simpl; auto. Qed.

Lemma runcmd_exits c : exits (runcmd buf c).
Proof. destruct c as [[|[q e] argv]|c file efile mode fd|l r|l r|c]; cbn [runcmd]; [done|..]; repeat (apply exits_bind; intros); try done. case_match; repeat (apply exits_bind; intros); done. Qed.

(** What follows an exit is dropped. *)
Lemma bind_exits p (f : unit -> uprog unit) : exits p -> ubind p f = p.
Proof. induction p as [a| | |c k IH]; simpl; intros He; try done. f_equal. apply functional_extensionality. intros r. by apply IH. Qed.

Lemma runcmd_then c f : ubind (runcmd buf c) f = runcmd buf c.
Proof. apply bind_exits, runcmd_exits. Qed.

(** The process goes on by itself up to its next fork, wait, pipe, exec or exit. *)
Fixpoint settle (t : fdtable) (p : uprog unit) : fdtable * uprog unit :=
  match p with
  | UCall c k => match local_call c t with Some (r, t') => settle t' (k r) | None => (t, p) end
  | _ => (t, p)
  end.

Lemma settle_puts t l p : settle t (ubind (uputs 2 l) (fun _ => p)) = settle t p.
Proof. induction l as [|c l IH]; simpl; [done|]. exact IH. Qed.

(** *** The settled forms of the commands *)

(** Evaluation up to a command or a message *)
Ltac calls := repeat progress (cbn -[runcmd uputs cstr text Z.eqb Z.of_nat]; autorewrite with fds).
Ltac in_child := repeat progress (cbn -[runcmd uputs cstr text Z.of_nat]; autorewrite with fds); by rewrite runcmd_then.

Lemma std_insert t k c : std_fds t -> (k <= 1)%nat -> std_fds (<[k := Some c]> t).
Proof. intros (a & b & d & rest & ->) Hk. destruct k as [|[|k]]; [by exists c, b, d, rest|by exists a, c, d, rest|lia]. Qed.

Lemma settle_redir c file efile mode fd t : std_fds t -> fd = 0 \/ fd = 1 ->
  if openable (cstr buf file)
  then settle t (runcmd buf (REDIR c file efile mode fd)) =
       settle (<[Z.to_nat fd := Some (OpenFile (cstr buf file) mode)]> t) (runcmd buf c)
  else exists t', settle t (runcmd buf (REDIR c file efile mode fd)) = (t', UExit).
Proof.
  intros (a & b & d & rest & ->) Hfd. cbn [runcmd]. destruct Hfd as [-> | ->]; calls;
    (destruct (openable (cstr buf file)); calls; [by rewrite runcmd_then|]);
    eexists; by rewrite settle_puts.
Qed.

Lemma settle_exec q e argv t : exists k, settle t (runcmd buf (EXEC ((q, e) :: argv))) =
    (t, UCall (CExec (cstr buf q) (map (fun a => cstr buf a.1) ((q, e) :: argv))) k) /\
  settle t (k (-1, [])) = (t, UExit).
Proof. eexists. split; [reflexivity|]. cbn [ubind sys]. by rewrite settle_puts. Qed.

Lemma settle_list l r t : exists k, settle t (runcmd buf (LIST l r)) = (t, UCall CFork k) /\ k (0, []) = runcmd buf l /\
  forall pid, 0 < pid -> k (pid, []) = UCall CWait (fun _ => runcmd buf r).
Proof.
  eexists. split; [reflexivity|]. split; [in_child|]. intros pid Hp. calls.
  rewrite (proj2 (Z.eqb_neq pid (-1))), (proj2 (Z.eqb_neq pid 0)) by lia. calls. f_equal.
  apply functional_extensionality. intros x. by rewrite runcmd_then.
Qed.

Lemma settle_back c t : exists k, settle t (runcmd buf (BACK c)) = (t, UCall CFork k) /\ k (0, []) = runcmd buf c /\
  forall pid, 0 < pid -> k (pid, []) = UExit.
Proof.
  eexists. split; [reflexivity|]. split; [in_child|]. intros pid Hp. calls.
  by rewrite (proj2 (Z.eqb_neq pid (-1))), (proj2 (Z.eqb_neq pid 0)) by lia.
Qed.

(** The code of a pipeline: after pipe, after the first fork, after the second *)
Definition piped (t : fdtable) (n : nat) : fdtable :=
  <[4%nat := Some (PipeEnd n true)]> (<[3%nat := Some (PipeEnd n false)]> t).
Definition wait_two : uprog unit := UCall CWait (fun _ => UCall CWait (fun _ => UExit)).

Definition forks_right (t : fdtable) (n : nat) (r : cmd) (p : uprog unit) : Prop := exists k2, p = UCall CFork k2 /\
  settle (piped t n) (k2 (0, [])) = settle (<[0%nat := Some (PipeEnd n false)]> t) (runcmd buf r) /\
  forall pid, 0 < pid -> settle (piped t n) (k2 (pid, [])) = (t, wait_two).
Definition forks_both (t : fdtable) (n : nat) (l r : cmd) (p : uprog unit) : Prop := exists k1, p = UCall CFork k1 /\
  settle (piped t n) (k1 (0, [])) = settle (<[1%nat := Some (PipeEnd n true)]> t) (runcmd buf l) /\
  forall pid, 0 < pid -> forks_right t n r (k1 (pid, [])).

Lemma settle_pipe l r t : std_fds t -> exists k, settle t (runcmd buf (PIPE l r)) = (t, UCall CPipe k) /\
  forall n, (forall p0 t1 p1 t2, fd_alloc (PipeEnd n false) t = Some (p0, t1) -> fd_alloc (PipeEnd n true) t1 = Some (p1, t2) ->
    t2 = piped t n /\ forks_both t n l r (k (0, [Z.of_nat p0; Z.of_nat p1]))).
Proof.
  intros (a & b & d & rest & ->). eexists. split; [reflexivity|]. intros n p0 t1 p1 t2 [= <- <-] [= <- <-]. split; [done|].
  eexists. split; [reflexivity|]. split; [in_child|]. intros pid Hp. calls.
  rewrite (proj2 (Z.eqb_neq pid (-1))), (proj2 (Z.eqb_neq pid 0)) by lia. calls.
  eexists. split; [reflexivity|]. split; [in_child|]. intros pid2 Hp2. calls.
  rewrite (proj2 (Z.eqb_neq pid2 (-1))) by lia. calls. rewrite (proj2 (Z.eqb_neq pid2 0)) by lia. by calls.
Qed.

(** ** The processes and the meaning *)

Lemma ssteps_once n x evs n' x' left : sstep (n, x) evs (n', x', left) -> ssteps (n, x) evs (n', x', left).
Proof. intros Hs. rewrite <- (app_nil_r evs), <- (app_nil_r left). eapply ss_step; [exact Hs|constructor]. Qed.

Lemma ssteps_trans n x evs n1 x1 left1 evs' n' x' left' :
  ssteps (n, x) evs (n1, x1, left1) -> ssteps (n1, x1) evs' (n', x', left') -> ssteps (n, x) (evs ++ evs') (n', x', left1 ++ left').
Proof.
  intros H1. remember (n, x) as g eqn:Eg. remember (n1, x1, left1) as g1 eqn:E1. revert n x Eg n1 x1 left1 E1.
  induction H1 as [n0 x0|n0 x0 ev n2 x2 l2 ev' n3 x3 l3 Hs _ IH]; intros n x [= -> ->] n1 x1 left1 [= -> -> <-] H2; [done|].
  rewrite <- !app_assoc. eapply ss_step; [exact Hs|]. by eapply IH.
Qed.

(** Steps inside a context *)
Lemma ssteps_ctx (C : sp -> sp) : (forall n x evs n' x' left, sstep (n, x) evs (n', x', left) -> sstep (n, C x) evs (n', C x', left)) ->
  forall n x evs n' x' left, ssteps (n, x) evs (n', x', left) -> ssteps (n, C x) evs (n', C x', left).
Proof.
  intros HC n x evs n' x' left H1. remember (n, x) as g eqn:Eg. remember (n', x', left) as g1 eqn:E1. revert n x Eg n' x' left E1.
  induction H1 as [n0 x0|n0 x0 ev n2 x2 l2 ev' n3 x3 l3 Hs _ IH]; intros n x [= -> ->] n' x' left [= -> -> <-]; [constructor|].
  eapply ss_step; [by apply HC|]. by eapply IH.
Qed.

(** A tree of processes that does what is left of a command.  A process that waits has the table that
    its command was given. *)
Inductive sim : ptree -> sp -> Prop :=
| sim_zombie : sim Zombie Nil
| sim_quit t0 p t : settle t0 p = (t, UExit) -> sim (Shell t0 p []) Nil
| sim_image t path argv : sim (Image t path argv []) (Live path argv)
| sim_do t0 p c t : std_fds t -> std_redirs c -> settle t0 p = settle t (runcmd buf c) -> sim (Shell t0 p []) (Do c t)
| sim_seq t0 p t kid x r : std_fds t -> std_redirs r -> settle t0 p = (t, UCall CWait (fun _ => runcmd buf r)) ->
    sim kid x -> sim (Shell t0 p [kid]) (Seq x r t)
| sim_bg t0 p t kid x : settle t0 p = (t, UExit) -> sim kid x -> sim (Shell t0 p [kid]) (Bg x)
| sim_pipe0 t0 p t n l r p' : std_fds t -> std_redirs l -> std_redirs r -> settle t0 p = (piped t n, p') -> forks_both t n l r p' ->
    sim (Shell t0 p []) (Par (Do l (<[1%nat := Some (PipeEnd n true)]> t)) (Do r (<[0%nat := Some (PipeEnd n false)]> t)))
| sim_pipe1 t0 p t n r p' kid a : std_fds t -> std_redirs r -> settle t0 p = (piped t n, p') -> forks_right t n r p' -> sim kid a ->
    sim (Shell t0 p [kid]) (Par a (Do r (<[0%nat := Some (PipeEnd n false)]> t)))
| sim_pipe2 t0 p t ka kb a b : std_fds t -> settle t0 p = (t, wait_two) -> sim ka a -> sim kb b -> sim (Shell t0 p [ka; kb]) (Par a b)
| sim_pipe3 t0 p t kid a : std_fds t -> settle t0 p = (t, UCall CWait (fun _ => UExit)) -> sim kid a -> sim (Shell t0 p [kid]) (Par a Nil)
| sim_pipe4 t0 p t kid b : std_fds t -> settle t0 p = (t, UCall CWait (fun _ => UExit)) -> sim kid b -> sim (Shell t0 p [kid]) (Par Nil b).

Lemma sim_settle t0 p t1 p1 kids x : settle t0 p = settle t1 p1 -> sim (Shell t0 p kids) x -> sim (Shell t1 p1 kids) x.
Proof.
  intros E H. inversion H; subst; rewrite E in *.
  - by eapply sim_quit.
  - by eapply sim_do.
  - by eapply sim_seq.
  - by eapply sim_bg.
  - by eapply sim_pipe0.
  - by eapply sim_pipe1.
  - by eapply sim_pipe2.
  - by eapply sim_pipe3.
  - by eapply sim_pipe4.
Qed.

(** A command that has been entered: what is left of it, and the call the process makes next *)
Inductive head : sp -> fdtable * uprog unit -> Prop :=
| h_quit t : head Nil (t, UExit)
| h_exec q e argv t k : settle t (k (-1, [])) = (t, UExit) ->
    head (Do (EXEC ((q, e) :: argv)) t) (t, UCall (CExec (cstr buf q) (map (fun a => cstr buf a.1) ((q, e) :: argv))) k)
| h_list l r t k : std_fds t -> std_redirs l -> std_redirs r -> k (0, []) = runcmd buf l ->
    (forall pid, 0 < pid -> k (pid, []) = UCall CWait (fun _ => runcmd buf r)) -> head (Do (LIST l r) t) (t, UCall CFork k)
| h_back c t k : std_fds t -> std_redirs c -> k (0, []) = runcmd buf c -> (forall pid, 0 < pid -> k (pid, []) = UExit) ->
    head (Do (BACK c) t) (t, UCall CFork k)
| h_pipe l r t k : std_fds t -> std_redirs l -> std_redirs r ->
    (forall n p0 t1 p1 t2, fd_alloc (PipeEnd n false) t = Some (p0, t1) -> fd_alloc (PipeEnd n true) t1 = Some (p1, t2) ->
       t2 = piped t n /\ forks_both t n l r (k (0, [Z.of_nat p0; Z.of_nat p1]))) ->
    head (Do (PIPE l r) t) (t, UCall CPipe k).

Lemma do_head c n t : std_fds t -> std_redirs c -> exists y, ssteps (n, Do c t) [] (n, y, []) /\ head y (settle t (runcmd buf c)).
Proof.
  revert t. induction c as [[|[q e] argv]|c IH file efile mode fd|l _ r _|l _ r _|c _]; intros t Ht Hc; cbn [std_redirs] in Hc.
  - exists Nil. split; [apply ssteps_once; constructor|constructor].
  - eexists. split; [constructor|]. destruct (settle_exec q e argv t) as (k & -> & Hk). by constructor.
  - destruct Hc as [Hc Hfd]. pose proof (settle_redir c file efile mode fd t Ht Hfd) as Hr.
    destruct (openable (cstr buf file)) eqn:Eo.
    + rewrite Hr. destruct (IH _ (std_insert t (Z.to_nat fd) (OpenFile (cstr buf file) mode) Ht ltac:(lia)) Hc) as (y & Hs & Hh).
      exists y. split; [|done]. eapply (ss_step _ _ [] _ _ [] []); [by apply s_redir|exact Hs].
    + destruct Hr as [t' ->]. exists Nil. split; [by apply ssteps_once, s_noredir|constructor].
  - destruct Hc as [Hl Hr]. eexists. split; [constructor|]. destruct (settle_pipe l r t Ht) as (k & -> & Hk). by constructor.
  - destruct Hc as [Hl Hr]. eexists. split; [constructor|]. destruct (settle_list l r t) as (k & -> & Hk & Hk'). by constructor.
  - eexists. split; [constructor|]. destruct (settle_back c t) as (k & -> & Hk & Hk'). by constructor.
Qed.

Lemma head_do c n t c0 k t0 : std_fds t -> std_redirs c -> settle t0 (UCall c0 k) = settle t (runcmd buf c) -> local_call c0 t0 = None ->
  exists y, ssteps (n, Do c t) [] (n, y, []) /\ head y (t0, UCall c0 k).
Proof. intros Ht Hc E Hn. destruct (do_head c n t Ht Hc) as (y & Hs & Hh). exists y. split; [done|]. rewrite <- E in Hh. simpl in Hh. by rewrite Hn in Hh. Qed.

(** The meaning follows a step of the processes. *)
Definition follows (n : nat) (y : sp) (evs : list event) (n' : nat) (x' : ptree) (left : list ptree) : Prop :=
  exists y' left', ssteps (n, y) evs (n', y', left') /\ sim x' y' /\ Forall2 sim left left'.

Lemma follows_once n y evs n' x' y' : sstep (n, y) evs (n', y', []) -> sim x' y' -> follows n y evs n' x' [].
Proof. intros Hs Hx. exists y', []. split; [by apply ssteps_once|]. done. Qed.

Lemma follows_after n y evs n' x' y1 y' : ssteps (n, y) [] (n, y1, []) -> sstep (n, y1) evs (n', y', []) -> sim x' y' ->
  follows n y evs n' x' [].
Proof.
  intros H1 H2 Hx. exists y', []. split; [|done]. apply (ssteps_trans _ _ [] _ _ [] evs _ _ [] H1). by apply ssteps_once.
Qed.

(** The cases of [sim] in which the process can be at its next call *)
Ltac at_call H := inversion H; subst; clear H;
  repeat match goal with
  | Hf : forks_both _ _ _ _ _ |- _ => destruct Hf as (? & -> & ? & ?)
  | Hf : forks_right _ _ _ _ |- _ => destruct Hf as (? & -> & ? & ?)
  end; unfold wait_two in *;
  try match goal with Es : settle _ _ = (_, _) |- _ => simpl in Es; try discriminate Es end.

Lemma sim_pipe_step n t k kids y p0 t1 p1 t2 : sim (Shell t (UCall CPipe k) kids) y ->
  fd_alloc (PipeEnd n false) t = Some (p0, t1) -> fd_alloc (PipeEnd n true) t1 = Some (p1, t2) ->
  follows n y [] (S n) (Shell t2 (k (0, [Z.of_nat p0; Z.of_nat p1])) kids) [].
Proof.
  intros H E1 E2. at_call H.
  match goal with Ht : std_fds ?tc, Hc : std_redirs ?c, Es : settle _ _ = _ |- _ =>
    destruct (head_do c n tc _ _ _ Ht Hc Es eq_refl) as (y1 & Hs & Hh) end. inversion Hh as [| | | |l r ? ? Hst Hl Hr Hk]; subst.
  destruct (Hk n _ _ _ _ E1 E2) as [-> Hb]. eapply follows_after; [exact Hs|constructor|].
  pose proof Hb as (k1 & Ek & _). eapply sim_pipe0; [done..|rewrite Ek; reflexivity|by rewrite <- Ek].
Qed.

Lemma sim_fork_step n t k kids y pid : sim (Shell t (UCall CFork k) kids) y -> 0 < pid ->
  follows n y [] n (Shell t (k (pid, [])) (kids ++ [Shell t (k (0, [])) []])) [].
Proof.
  intros H Hp. at_call H.
  - match goal with Ht : std_fds ?tc, Hc : std_redirs ?c, Es : settle _ _ = _ |- _ =>
      destruct (head_do c n tc _ _ _ Ht Hc Es eq_refl) as (y1 & Hs & Hh) end.
    inversion Hh as [| |l r ? ? Hst Hl Hr Hk0 Hk|c' ? ? Hst Hc' Hk0 Hk|]; subst; (eapply follows_after; [exact Hs|constructor|]).
    + simpl. eapply sim_seq; [done..|by rewrite Hk|]. apply sim_do; [done..|by rewrite Hk0].
    + simpl. eapply sim_bg; [by rewrite Hk|]. apply sim_do; [done..|by rewrite Hk0].
  - match goal with Es : (_, UCall CFork _) = (_, _) |- _ => injection Es as -> -> end.
    eexists _, []. split; [constructor|]. split; [|done]. simpl.
    match goal with Hf : forall pid, 0 < pid -> forks_right _ _ _ _ |- _ => specialize (Hf pid Hp); pose proof Hf as (k2 & Ek & _) end.
    eapply sim_pipe1; [done..|rewrite Ek; reflexivity|by rewrite <- Ek|]. apply sim_do; [by apply std_insert; [|lia]|done|done].
  - match goal with Es : (_, UCall CFork _) = (_, _) |- _ => injection Es as -> -> end.
    eexists _, []. split; [constructor|]. split; [|done]. simpl.
    eapply sim_pipe2; [done|by auto|done|]. apply sim_do; [by apply std_insert; [|lia]|done|done].
Qed.

Lemma sim_zombie_inv y : sim Zombie y -> y = Nil.
Proof. by inversion 1. Qed.

Lemma sim_wait_step n t k K1 K2 y pid : sim (Shell t (UCall CWait k) (K1 ++ Zombie :: K2)) y ->
  follows n y [] n (Shell t (k (pid, [])) (K1 ++ K2)) [].
Proof.
  intros H. remember (K1 ++ Zombie :: K2) as kids eqn:Ek. at_call H; try (by destruct K1).
  - match goal with Es : (_, UCall CWait _) = (_, _) |- _ => injection Es as -> -> end.
    destruct K1 as [|? [|? ?]]; simplify_eq/=. match goal with Hz : sim Zombie _ |- _ => apply sim_zombie_inv in Hz as -> end.
    eapply follows_once; [apply s_then|]. by apply sim_do.
  - match goal with Es : (_, UCall CWait _) = (_, _) |- _ => injection Es as -> -> end.
    destruct K1 as [|? [|? [|? ?]]]; simplify_eq/=; match goal with Hz : sim Zombie _ |- _ => apply sim_zombie_inv in Hz as -> end;
      eexists _, []; (split; [constructor|]); (split; [|done]); [by eapply sim_pipe4|by eapply sim_pipe3].
  - match goal with Es : (_, UCall CWait _) = (_, _) |- _ => injection Es as -> -> end.
    destruct K1 as [|? [|? ?]]; simplify_eq/=. match goal with Hz : sim Zombie _ |- _ => apply sim_zombie_inv in Hz as -> end.
    eapply follows_once; [apply s_both|]. by eapply sim_quit.
  - match goal with Es : (_, UCall CWait _) = (_, _) |- _ => injection Es as -> -> end.
    destruct K1 as [|? [|? ?]]; simplify_eq/=. match goal with Hz : sim Zombie _ |- _ => apply sim_zombie_inv in Hz as -> end.
    eapply follows_once; [apply s_both|]. by eapply sim_quit.
Qed.

Lemma sim_exec_step n t path argv k kids y : sim (Shell t (UCall (CExec path argv) k) kids) y ->
  if runnable path then follows n y [Started path argv t] n (Image t path argv kids) []
  else follows n y [] n (Shell t (k (-1, [])) kids) [].
Proof.
  intros H. at_call H.
  match goal with Ht : std_fds ?tc, Hc : std_redirs ?c, Es : settle _ _ = _ |- _ =>
    destruct (head_do c n tc _ _ _ Ht Hc Es eq_refl) as (y1 & Hs & Hh) end. inversion Hh as [|q e av ? ? Hk| | |]; subst.
  destruct (runnable (cstr buf q)) eqn:Er.
  - eapply follows_after; [exact Hs|by apply s_start|]. apply sim_image.
  - eapply follows_after; [exact Hs|by apply s_missing|]. by eapply sim_quit.
Qed.

Lemma sim_exit_step n t kids y : sim (Shell t UExit kids) y -> follows n y [] n Zombie kids.
Proof.
  intros H. at_call H.
  - exists Nil, []. split; [constructor|]. split; [constructor|done].
  - match goal with Ht : std_fds ?tc, Hc : std_redirs ?c, Es : settle _ _ = _ |- _ =>
      destruct (do_head c n tc Ht Hc) as (y1 & Hs & Hh); rewrite <- Es in Hh end. simpl in Hh. inversion Hh; subst.
    exists Nil, []. split; [done|]. split; [constructor|done].
  - match goal with Hk : sim _ ?x |- _ => exists Nil, [x] end. split; [apply ssteps_once, s_detach|]. split; [constructor|].
    by constructor.
Qed.

(** A step inside a child *)
Lemma sim_kid_step n t p K1 x K2 y evs n' x' left : sim (Shell t p (K1 ++ x :: K2)) y ->
  (forall z, sim x z -> follows n z evs n' x' left) -> follows n y evs n' (Shell t p (K1 ++ x' :: K2)) left.
Proof.
  intros H IH. remember (K1 ++ x :: K2) as kids eqn:Ek. inversion H; subst; try (by destruct K1).
  all: repeat (destruct K1 as [|? K1]; simplify_eq/=).
  all: match type of IH with forall z, sim ?x z -> _ => match goal with Hx : sim x ?z |- _ =>
    destruct (IH z Hx) as (z' & left' & Hs & Hz & Hl) end end; eexists _, left'.
  - split; [apply (ssteps_ctx (fun z => Seq z r t1)); [by intros; apply s_first|exact Hs]|]. split; [by eapply sim_seq|done].
  - split; [apply (ssteps_ctx Bg); [by intros; apply s_bg|exact Hs]|]. split; [by eapply sim_bg|done].
  - split; [apply (ssteps_ctx (fun z => Par z _)); [by intros; apply s_left|exact Hs]|]. split; [by eapply sim_pipe1|done].
  - split; [apply (ssteps_ctx (fun z => Par z b)); [by intros; apply s_left|exact Hs]|]. split; [by eapply sim_pipe2|done].
  - split; [apply (ssteps_ctx (fun z => Par a z)); [by intros; apply s_right|exact Hs]|]. split; [by eapply sim_pipe2|done].
  - split; [apply (ssteps_ctx (fun z => Par z Nil)); [by intros; apply s_left|exact Hs]|]. split; [by eapply sim_pipe3|done].
  - split; [apply (ssteps_ctx (fun z => Par Nil z)); [by intros; apply s_right|exact Hs]|]. split; [by eapply sim_pipe4|done].
Qed.

Lemma tstep_sim n x evs n' x' left : tstep (n, x) evs (n', x', left) -> forall y, sim x y -> follows n y evs n' x' left.
Proof.
  intros H. remember (n, x) as g eqn:Eg. remember (n', x', left) as g' eqn:Eg'. revert n x Eg n' x' left Eg'.
  induction H as [n0 t c k kids r t' El| | | |n0 t k| | | | |? ? ? ? ? ? ? ? ? ? _ IH|? ? ? ? ? ? ? ? ? ? ? _ IH];
    intros ? ? [= <- <-] ? ? ? [= <- <- <-] y Hy.
  - eexists y, []. split; [constructor|]. split; [|done]. eapply sim_settle; [|exact Hy]. simpl. by rewrite El.
  - by eapply sim_pipe_step.
  - by eapply sim_fork_step.
  - by eapply sim_wait_step.
  - at_call Hy. match goal with Ht : std_fds ?tc, Hc : std_redirs ?c, Es : settle _ _ = _ |- _ =>
      destruct (head_do c n0 tc _ _ _ Ht Hc Es eq_refl) as (y1 & Hs & Hh) end. inversion Hh.
  - match goal with Er : runnable _ = true |- _ => pose proof (sim_exec_step n _ _ _ _ _ _ Hy) as Hf; by rewrite Er in Hf end.
  - match goal with Er : runnable _ = false |- _ => pose proof (sim_exec_step n _ _ _ _ _ _ Hy) as Hf; by rewrite Er in Hf end.
  - by eapply sim_exit_step.
  - inversion Hy; subst. eapply follows_once; [constructor|]. constructor.
  - eapply sim_kid_step; [exact Hy|]. intros z Hz. by eapply IH.
  - inversion Hy. by destruct K1.
Qed.

Lemma grun_sim g tr g' : grun g tr g' -> forall ys, Forall2 sim g.2 ys -> exists ys', srun (g.1, ys) tr (g'.1, ys') /\ Forall2 sim g'.2 ys'.
Proof.
  induction 1 as [g|n R1 x R2 evs n' x' left evs' g Hs _ IH]; intros ys Hys; [exists ys; split; [constructor|done]|].
  apply Forall2_app_inv_l in Hys as (Y1 & Y2' & H1 & (y & Y2 & Hy & H2 & ->)%Forall2_cons_inv_l & ->).
  destruct (tstep_sim _ _ _ _ _ _ Hs y Hy) as (y' & left' & Hss & Hy' & Hl).
  destruct (IH (Y1 ++ y' :: Y2 ++ left')) as (ys' & Hrun & Hys').
  { simpl. apply Forall2_app; [done|]. constructor; [done|]. by apply Forall2_app. }
  exists ys'. split; [|done]. by eapply r_step.
Qed.

(** A process that waits has the table of a command. *)
Lemma sim_waits x y tw : sim x y -> waits x tw -> std_fds tw.
Proof.
  intros Hs. revert tw. induction Hs as [|? ? ? Es| |? ? c t Ht Hc Es| | | | | | | ]; intros tw Hw; inversion Hw; subst; clear Hw;
    repeat match goal with
    | Hf : forks_both _ _ _ _ _ |- _ => destruct Hf as (? & -> & ? & ?)
    | Hf : forks_right _ _ _ _ |- _ => destruct Hf as (? & -> & ? & ?)
    | He : _ ∈ [_] |- _ => apply list_elem_of_singleton in He as ->
    | He : _ ∈ [_; _] |- _ => apply elem_of_cons in He as [->|He]
    | He : _ ∈ [] |- _ => by apply not_elem_of_nil in He
    end; try (simpl in *; congruence); try (by auto).
  destruct (head_do c 0 t _ _ _ Ht Hc Es eq_refl) as (y1 & _ & Hh). inversion Hh.
Qed.

(** A process that is not at a local call is settled. *)
Lemma settle_cases t p : (exists c k r t', p = UCall c k /\ local_call c t = Some (r, t')) \/ settle t p = (t, p).
Proof. destruct p as [| | |c k]; try (by right). simpl. destruct (local_call c t) as [[r t']|] eqn:E; [left; by eexists _, _, _, _|by right]. Qed.

Definition can_step (n : nat) (x : ptree) : Prop := exists evs n' x' left, tstep (n, x) evs (n', x', left).

Lemma kid_steps n t p K1 x K2 : can_step n x -> can_step n (Shell t p (K1 ++ x :: K2)).
Proof. intros (evs & n' & x' & left & Hs). by eexists _, _, _, _; apply t_kid. Qed.

Lemma settled_steps n t0 p t q kids : settle t0 p = (t, q) -> can_step n (Shell t q kids) -> can_step n (Shell t0 p kids).
Proof.
  intros Es Hq. destruct (settle_cases t0 p) as [(c & k & r & t' & -> & El)|E]; [by eexists _, _, _, _; apply t_local|].
  rewrite E in Es. by injection Es as -> ->.
Qed.

Lemma exit_steps n t kids : can_step n (Shell t UExit kids).
Proof. by eexists _, _, _, _; apply t_exit. Qed.
Lemma fork_steps n t k kids : can_step n (Shell t (UCall CFork k) kids).
Proof. by eexists _, _, _, _; apply (t_fork _ _ _ _ 1). Qed.
Lemma wait_steps n t k K1 K2 : can_step n (Shell t (UCall CWait k) (K1 ++ Zombie :: K2)).
Proof. by eexists _, _, _, _; apply (t_wait _ _ _ _ _ 1). Qed.

Lemma head_steps n y t q : head y (t, q) -> can_step n (Shell t q []).
Proof.
  inversion 1 as [|q0 e argv ? k Hk| | |l r ? k Hst Hl Hr Hk]; subst; [apply exit_steps| |apply fork_steps|apply fork_steps|].
  - destruct (runnable (cstr buf q0)) eqn:Er; [by eexists _, _, _, _; apply t_exec|by eexists _, _, _, _; apply t_noexec].
  - destruct Hst as (a & b & c & rest & ->). by eexists _, _, _, _; eapply t_pipe.
Qed.

(** Some process can go on while one has not exited. *)
Lemma sim_steps n x y : sim x y -> x = Zombie \/ can_step n x.
Proof.
  induction 1 as [|t0 p t Es|t path argv|t0 p c t Ht Hc Es|t0 p t kid x r Ht Hr Es Hk IH|t0 p t kid x Es Hk IH|t0 p t m l r p' Ht Hl Hr Es Hf|
    t0 p t m r p' kid a Ht Hr Es Hf Hk IH|t0 p t ka kb a b Ht Es Hka IHa Hkb IHb|t0 p t kid a Ht Es Hk IH|t0 p t kid b Ht Es Hk IH]; [by left|right..].
  - eapply settled_steps; [exact Es|apply exit_steps].
  - by eexists _, _, _, _; apply t_end.
  - destruct (do_head c n t Ht Hc) as (y1 & _ & Hh). destruct (settle t (runcmd buf c)) as [t1 q]. eapply settled_steps; [exact Es|by eapply head_steps].
  - eapply settled_steps; [exact Es|]. destruct IH as [->|IH]; [apply (wait_steps n t _ [] [])|by apply (kid_steps n _ _ [] kid [])].
  - eapply settled_steps; [exact Es|apply exit_steps].
  - destruct Hf as (k1 & -> & _). eapply settled_steps; [exact Es|apply fork_steps].
  - destruct Hf as (k2 & -> & _). eapply settled_steps; [exact Es|apply fork_steps].
  - eapply settled_steps; [exact Es|]. destruct IHa as [->|IH]; [apply (wait_steps n t _ [] [kb])|by apply (kid_steps n _ _ [] ka [kb])].
  - eapply settled_steps; [exact Es|]. destruct IH as [->|IH]; [apply (wait_steps n t _ [] [])|by apply (kid_steps n _ _ [] kid [])].
  - eapply settled_steps; [exact Es|]. destruct IH as [->|IH]; [apply (wait_steps n t _ [] [])|by apply (kid_steps n _ _ [] kid [])].
Qed.

Lemma sim_zombies xs ys : Forall2 sim xs ys -> Forall (fun x => x = Zombie) xs -> Forall (fun y => y = Nil) ys.
Proof. induction 1 as [|x y xs ys Hs _ IH]; intros Hz; [done|]. apply Forall_cons_1 in Hz as [-> Hz]. constructor; [by apply sim_zombie_inv|auto]. Qed.

Lemma forest_steps n xs ys : Forall2 sim xs ys -> Forall (fun x => x = Zombie) xs \/ exists x, x ∈ xs /\ can_step n x.
Proof.
  induction 1 as [|x y xs ys Hs _ IH]; [by left|]. destruct (sim_steps n x y Hs) as [->|Hx]; [|right; exists x; split; [by left|done]].
  destruct IH as [IH|(x & Hx & Hc)]; [left; by constructor|right; exists x; split; [by right|done]].
Qed.

End run.

(** C38: the shell runs what the command says.  When its three standard descriptors are open and two more
    are free, its redirections are of descriptors 0 and 1 (as the parser makes them), and there is room
    for the processes and pipes it asks for (fork and pipe succeed), the processes that come from a parsed command, in whatever order they run, start and end
    programs as the command means it: each program with its arguments and exactly the descriptors the
    command gives it (files replace them at redirections, a pipeline connects its two sides by a pipe of
    its own), the second command of a list after the first has ended, the sides of a pipeline side by side,
    a background command without being waited for; a redirection whose file does not open and a program
    that does not exist start nothing.  A process that waits has closed the pipe ends it opened
    (descriptors 3 and 4), so that readers see the end of their input.  The processes do not block
    each other: until all have exited one of them can go on, and then nothing of the command is left. *)
Theorem runcmd_wires openable runnable buf c n t n' xs tr : std_fds t -> std_redirs c ->
  grun openable runnable (n, [Shell t (runcmd buf c) []]) tr (n', xs) ->
  exists ys, srun openable runnable buf (n, [Do c t]) tr (n', ys) /\
    (forall x tw, x ∈ xs -> waits x tw -> std_fds tw) /\
    (Forall (fun x => x = Zombie) xs /\ Forall (fun y => y = Nil) ys \/ exists x, x ∈ xs /\ can_step openable runnable n' x).
Proof.
  intros Ht Hc Hrun.
  destruct (grun_sim openable runnable buf _ _ _ Hrun [Do c t]) as (ys & Hs & Hys); [by constructor; [apply sim_do|]|].
  exists ys. split; [exact Hs|]. split.
  - intros x tw Hx Hw. apply list_elem_of_lookup in Hx as [j Hj]. destruct (Forall2_lookup_l _ _ _ _ _ Hys Hj) as (y & _ & Hy).
    by eapply sim_waits.
  - destruct (forest_steps openable runnable buf n' xs ys Hys) as [Hz|Hx]; [left|by right]. split; [done|by eapply sim_zombies].
Qed.

Definition tty : option chan := Some (OpenFile (text "console") 2).
Definition tty_fds : list (option chan) := [tty; tty; tty; None; None].
Definition demo_line : list Z := text "a" ++ [0] ++ text "b" ++ [0].
Definition demo_trace : list event :=
  [Started (text "a") [text "a"] tty_fds; Ended (text "a") [text "a"]; Started (text "b") [text "b"] tty_fds; Ended (text "b") [text "b"]].

(** a ; b *)
Lemma runcmd_wires_witness : exists ys, srun (fun _ => true) (fun _ => true) demo_line (0%nat, [Do (LIST (EXEC [(0, 1)]%nat) (EXEC [(2, 3)]%nat)) tty_fds])
  demo_trace (0%nat, ys).
Proof.
  destruct (runcmd_wires (fun _ => true) (fun _ => true) demo_line (LIST (EXEC [(0, 1)]%nat) (EXEC [(2, 3)]%nat)) 0 tty_fds 0 [Zombie] demo_trace)
    as (ys & Hs & _); [by eexists _, _, _, []|done| |by exists ys].
  change demo_trace with ([] ++ [Started (text "a") [text "a"] tty_fds] ++ [Ended (text "a") [text "a"]] ++ [] ++
    [Started (text "b") [text "b"] tty_fds] ++ [Ended (text "b") [text "b"]] ++ []).
  eapply (g_step _ _ 0 [] _ []); [apply (t_fork _ _ 0 _ _ _ 1); done|].
  eapply (g_step _ _ 0 [] _ []); [eapply (t_kid _ _ 0 _ _ [] _ []), t_exec; reflexivity|].
  eapply (g_step _ _ 0 [] _ []); [eapply (t_kid _ _ 0 _ _ [] _ []), t_end|].
  eapply (g_step _ _ 0 [] _ []); [eapply (t_wait _ _ 0 _ _ [] [] 1); done|].
  eapply (g_step _ _ 0 [] _ []); [eapply t_exec; reflexivity|].
  eapply (g_step _ _ 0 [] _ []); [eapply t_end|]. constructor.
Defined.
