(* ===== verification/SwapCopy.v ===== *)
(** * Copying a swap file at fork (src/fs.c: copySwapFile)

    The child gets the pages of its parent's swap file, provided that the occupied slots are the
    first ones: the child's file is extended page by page, and a page that would leave a hole is
    refused by filewrite, at which copySwapFile panics. *)
From Stdlib Require Import ZArith Lia.
From stdpp Require Import base list numbers strings gmap.
From S2P Require Import Prelude Mmu Mem Kalloc PageTable Kstate Swap PteBits Uvm Uvmrun PagingInv FlatStore Demo.
Local Open Scope Z_scope.

Section copy.
Context {F : Type} `{SwapStore F}.
Implicit Types s : kst F.

Lemma di_read_run s p pr i : k_procs s !! p = Some pr -> (i < length (p_disk_pg_arr pr))%nat ->
  exists d, di_read p i s = Ret d s /\ di_va d = disk_va pr i.
Proof.
  intros Hp Hi. destruct (lookup_lt_is_Some_2 _ _ Hi) as [d Hd]. exists d. unfold di_read, bind, getp, disk_va, disk_vas. rewrite Hp, Hd, list_lookup_fmap, Hd. done.
Qed.

Lemma for_each_panic n k i0 (body : nat -> M (kst F) unit) s msg s' : (k < n)%nat -> (forall i, (i < k)%nat -> body (i0 + i)%nat s = Ret tt s) ->
  body (i0 + k)%nat s = Panic msg s' -> for_each n i0 body s = Panic msg s'.
Proof.
  revert i0 k. induction n as [|n IH]; intros i0 k Hk Hlow Hb; [lia|]. cbn [for_each]. unfold bind. destruct k as [|k].
  - rewrite Nat.add_0_r in Hb. by rewrite Hb.
  - pose proof (Hlow 0%nat ltac:(lia)) as E. rewrite Nat.add_0_r in E. rewrite E. apply (IH (i0 + 1)%nat k); [lia| |].
    + intros i Hi. replace (i0 + 1 + i)%nat with (i0 + S i)%nat by lia. apply Hlow. lia.
    + by replace (i0 + 1 + k)%nat with (i0 + S k)%nat by lia.
Qed.

(** C37: fork of a process whose swap file has a hole panics.  When the first occupied slot of
    the parent's swap file is not slot 0 (a page below it was paged in again, or deallocated), the
    read of that page succeeds, but the child's new file is empty, filewrite refuses to write
    beyond its end, and copySwapFile ends in panic("CopySwapFile error"). *)
Theorem copySwapFile_hole_panics s p q fr tr k f g m c c' :
  k_procs s !! p = Some fr -> k_procs s !! q = Some tr -> 3 <= p_pid fr -> length (p_disk_pg_arr fr) = MAX_PSYC_PAGES ->
  (k < MAX_PSYC_PAGES)%nat -> (forall i, (i < k)%nat -> disk_va fr i = NOVA) -> disk_va fr k <> NOVA ->
  p_swapFile fr = Some f -> p_swapFile tr = Some g -> stored (k_fs s) m -> m !! f = Some c -> (pgn * k + pgn <= length c)%nat ->
  m !! g = Some c' -> (length c' < pgn * k)%nat ->
  exists s', copySwapFile p q s = Panic "CopySwapFile error" s'.
Proof.
  intros Hp Hq Hpid Hlen Hk Hlow Huse Hf Hg Hs Hc Hcl Hc' Hcl'.
  destruct (swap_read_ok (k_fs s) m f k c Hs Hc Hcl) as (fs1 & E1 & Hs1 & _).
  destruct (swap_write_hole fs1 m g k (take pgn (drop (pgn * k) c)) c' Hs1 Hc' Hk Hcl') as (fs2 & E2 & _); [rewrite length_take, length_drop; lia|].
  eexists. unfold copySwapFile, bind at 1, getp at 1. rewrite Hp, (proj2 (Z.ltb_ge _ _)) by lia. apply (for_each_panic _ k).
  - done.
  - intros i Hi. destruct (di_read_run s p fr (0 + i) Hp ltac:(unfold MAX_PSYC_PAGES in *; lia)) as (d & E & Ed). unfold bind at 1. rewrite E, Ed. cbn [Nat.add].
    by rewrite Hlow.
  - destruct (di_read_run s p fr (0 + k) Hp ltac:(unfold MAX_PSYC_PAGES in *; lia)) as (d & E & Ed). unfold bind at 1. rewrite E, Ed. cbn [Nat.add].
    rewrite (proj2 (Z.eqb_neq _ _) Huse). cbn [negb when]. unfold bind at 1, getp. rewrite Hp. unfold bind at 1. rewrite Hq, Hf, Hg.
    unfold bind at 1, infs, lift at 1. rewrite E1. cbn [fst snd]. rewrite Z.eqb_refl. cbn [negb]. unfold bind at 1, lift. cbn [k_fs set_k_fs]. rewrite E2. reflexivity.
Qed.

(** The pages that have been copied. *)
Lemma copied_next c i : (pgn * i + pgn <= length c)%nat -> splice (pgn * i) (take pgn (drop (pgn * i) c)) (take (pgn * i) c) = take (pgn * S i) c.
Proof.
  intros Hi. unfold splice. rewrite take_take, Nat.min_id, (drop_ge (take _ c)) by (rewrite !length_take, length_drop; lia). rewrite app_nil_r.
  replace (pgn * S i)%nat with (pgn * i + pgn)%nat by lia. by rewrite take_take_drop.
Qed.

(** C35: fork copies the swap file.  When the occupied slots of the parent are the first [j] and
    there is room on the disk, copySwapFile gives the child, whose file is empty, a swap file with
    exactly the parent's first [j] pages, and the parent's and all other files keep theirs. *)
Theorem copySwapFile_copies s p q fr tr j f g m c :
  k_procs s !! p = Some fr -> k_procs s !! q = Some tr -> 3 <= p_pid fr -> length (p_disk_pg_arr fr) = MAX_PSYC_PAGES ->
  (j <= MAX_PSYC_PAGES)%nat -> (forall i, (i < MAX_PSYC_PAGES)%nat -> disk_va fr i <> NOVA <-> (i < j)%nat) ->
  p_swapFile fr = Some f -> p_swapFile tr = Some g -> f <> g -> stored (k_fs s) m -> m !! f = Some c -> (pgn * j <= length c)%nat ->
  m !! g = Some [] -> room (k_fs s) j ->
  wp (copySwapFile p q) (fun _ s' => k_procs s' = k_procs s /\ stored (k_fs s') (<[g := take (pgn * j) c]> m)) s.
Proof.
  intros Hp Hq Hpid Hlen Hj Huse Hf Hg Hfg Hs Hc Hcl Hcg Hroom. unfold copySwapFile. apply wp_bind, (wp_getp p fr); [done|].
  rewrite (proj2 (Z.ltb_ge _ _)) by lia.
  apply (wp_for_each (fun i s' => k_procs s' = k_procs s /\ stored (k_fs s') (<[g := take (pgn * Nat.min i j) c]> m) /\ room (k_fs s') (j - i))).
  - rewrite Nat.min_0_l, Nat.mul_0_r, Nat.sub_0_r, take_0, insert_id by done. done.
  - intros i s1 Hi (Hps & Hs1 & Hr1). destruct (di_read_run s1 p fr i) as (d & E & Ed); [by rewrite Hps|unfold MAX_PSYC_PAGES in *; lia|].
    apply wp_bind. eapply wp_intro; [exact E|]. rewrite Ed. destruct (decide (i < j)%nat) as [Hlt|Hge].
    + assert (disk_va fr i <> NOVA) as Hd by (apply Huse; [lia|done]). rewrite (proj2 (Z.eqb_neq _ _) Hd). cbn [negb when].
      apply wp_bind, (wp_getp p fr); [by rewrite Hps|]. apply wp_bind, (wp_getp q tr); [by rewrite Hps|]. rewrite Hf, Hg. rewrite Nat.min_l in Hs1 by lia.
      destruct (swap_read_ok (k_fs s1) _ f i c Hs1) as (fs2 & E2 & Hs2 & Hr2); [by rewrite lookup_insert_ne|nia|].
      assert (length (take (pgn * i) c) = pgn * i)%nat as Hli by (rewrite length_take; nia).
      assert (page_growth i (take (pgn * i) c) = 1%nat) as Hgr by (unfold page_growth; rewrite decide_False; [done|rewrite Hli; lia]).
      destruct (swap_write_ok fs2 _ g i (take pgn (drop (pgn * i) c)) (take (pgn * i) c) Hs2) as (fs3 & E3 & Hs3 & Hr3);
        [by rewrite lookup_insert_eq|exists i; done|lia|lia|rewrite length_take, length_drop; nia|rewrite Hgr; apply Hr2; eapply room_mono; [|exact Hr1]; lia|].
      apply wp_bind, wp_lift. eapply wp_intro; [exact E2|]. cbn [fst snd]. rewrite Z.eqb_refl. cbn [negb]. apply wp_bind, wp_lift. cbn [k_fs set_k_fs].
      eapply wp_intro; [exact E3|]. rewrite Z.eqb_refl. cbn [negb when]. apply wp_skip. split; [done|]. cbn [k_fs set_k_fs].
      rewrite insert_insert_eq, copied_next in Hs3 by nia. rewrite Nat.min_l by lia. rewrite Nat.add_1_r. split; [done|]. apply Hr3. rewrite Hgr. apply Hr2.
      by replace (1 + (j - S i))%nat with (j - i)%nat by lia.
    + assert (disk_va fr i = NOVA) as -> by (destruct (decide (disk_va fr i = NOVA)); [done|]; exfalso; apply Hge, Huse; [lia|done]).
      rewrite Z.eqb_refl. cbn [negb when]. apply wp_skip. split; [done|]. rewrite Nat.min_r in * by lia. split; [done|]. eapply room_mono; [|exact Hr1]. lia.
  - intros s' (H1 & H2 & _). split; [done|]. rewrite Nat.min_r in H2 by lia. done.
Qed.

End copy.

(** ** Two forks *)

(** The demonstration process with two pages on disk, in slots 0 and 1; after the page of slot 0
    came back into memory; and its child, whose swap file is new. *)
Definition fork_slots (first : Z) : list disk_info := mkDiskInfo first 0 :: mkDiskInfo 0x11000 1 :: replicate 14 (mkDiskInfo NOVA 0).
Definition fork_parent (first : Z) : proc := set_p_disk_pg_arr (fork_slots first) demo_proc.
Definition fork_child : proc := set_p_swapFile (Some 1%nat) demo_proc.
Definition fork_content : list Z := replicate pgn 7 ++ replicate pgn 9.
Definition fork_state (first : Z) : kst flat :=
  set_k_procs [fork_parent first; fork_child] (set_k_fs [(fork_content, 0); ([], 0)] demo_state).
Definition fork_files : gmap nat (list Z) := <[0%nat := fork_content]> {[ 1%nat := [] ]}.

Lemma fork_stored first : stored (k_fs (fork_state first)) fork_files.
Proof. intros f c. unfold fork_files. rewrite lookup_insert_Some. intros [[<- <-]|[_ [<- <-]%lookup_singleton_Some]]; done. Qed.

Lemma copySwapFile_hole_panics_witness : exists s', copySwapFile 0 1 (fork_state NOVA) = Panic "CopySwapFile error" s'.
Proof.
  apply (copySwapFile_hole_panics (fork_state NOVA) 0 1 (fork_parent NOVA) fork_child 1 0%nat 1%nat fork_files fork_content []); try done.
  - unfold MAX_PSYC_PAGES. lia.
  - intros i Hi. by replace i with 0%nat by lia.
  - apply fork_stored.
  - simpl. lia.
Defined.

Lemma copySwapFile_copies_witness :
  wp (copySwapFile 0 1) (fun _ s' => k_procs s' = k_procs (fork_state 0x10000) /\
    stored (k_fs s') (<[1%nat := take (pgn * 2) fork_content]> fork_files)) (fork_state 0x10000).
Proof.
  apply (copySwapFile_copies (fork_state 0x10000) 0 1 (fork_parent 0x10000) fork_child 2 0%nat 1%nat fork_files fork_content); try done.
  - unfold MAX_PSYC_PAGES. lia.
  - unfold MAX_PSYC_PAGES. slot16; split; intros; try lia; try done; by exfalso.
  - apply fork_stored.
Defined.
