(* ===== verification/Mkfs.v ===== *)
(** * The builder of the disk image (src/mkfs.c)

    mkfs runs on the host.  The image is the list of its sectors; lseek and write beyond its end
    extend it with zeroes, a read beyond its end fails.  exit(1) and a failed assertion end the run
    with [Panic]; what the program prints is not part of the state.  An integer in the memory of the
    host is in its byte order, the argument [big]: xshort and xint give the number whose bytes are
    in the order of the target.  The files named on the command line are arguments: a name with
    the bytes that read() delivers, or [None] when open() fails. *)
From Stdlib Require Import ZArith Lia.
From stdpp Require Import base list numbers strings.
From S2P Require Import Prelude Block Bio Log Fs.
Local Open Scope Z_scope.

Definition NINODES : Z := 200.
Definition FSSIZE : Z := 1000.
Definition nbitmap : Z := FSSIZE / (BSIZE * 8) + 1.
Definition ninodeblocks : Z := NINODES / IPB + 1.
Definition nlog : Z := Z.of_nat LOGSIZE.
Definition zeroes : list Z := replicate (Z.to_nat BSIZE) 0.

Record dinode := mkDinode {
  din_type : Z;
  din_major : Z;
  din_minor : Z;
  din_nlink : Z;
  din_size : Z;
  din_addrs : list Z }.
Definition set_din_size (v : Z) (d : dinode) : dinode := mkDinode (din_type d) (din_major d) (din_minor d) (din_nlink d) v (din_addrs d).
Definition set_din_addrs (v : list Z) (d : dinode) : dinode := mkDinode (din_type d) (din_major d) (din_minor d) (din_nlink d) (din_size d) v.

Record mkst := mkMkst {
  mk_img : list (list Z);  (* the file fsfd *)
  mk_sb : superblock;  (* sb, as the host reads it *)
  mk_freeinode : Z;
  mk_freeblock : Z }.
Definition set_mk_img (v : list (list Z)) (s : mkst) : mkst := mkMkst v (mk_sb s) (mk_freeinode s) (mk_freeblock s).
Definition set_mk_sb (v : superblock) (s : mkst) : mkst := mkMkst (mk_img s) v (mk_freeinode s) (mk_freeblock s).
Definition set_mk_freeinode (v : Z) (s : mkst) : mkst := mkMkst (mk_img s) (mk_sb s) v (mk_freeblock s).
Definition set_mk_freeblock (v : Z) (s : mkst) : mkst := mkMkst (mk_img s) (mk_sb s) (mk_freeinode s) v.

Section mkfs.
Context (big : bool).

(** Integers in the memory of the host. *)
Definition host16 (d : list Z) (off : nat) : Z := if big then 256 * byte d off + byte d (off + 1) else get16 d off.
Definition host32 (d : list Z) (off : nat) : Z :=
  if big then 16777216 * byte d off + 65536 * byte d (off + 1) + 256 * byte d (off + 2) + byte d (off + 3) else get32 d off.
Definition mem16 (v : Z) : list Z := let l := bytes16 (v mod 65536) in if big then rev l else l.
Definition mem32 (v : Z) : list Z := let l := bytes32 (u32 v) in if big then rev l else l.

Definition xshort (x : Z) : Z := host16 [x mod 256; Z.shiftr x 8 mod 256] 0.
Definition xint (x : Z) : Z := host32 [x mod 256; Z.shiftr x 8 mod 256; Z.shiftr x 16 mod 256; Z.shiftr x 24 mod 256] 0.

(** ** Sectors *)

(** lseek goes to the byte sec * BSIZE, an unsigned product. *)
Definition sector (sec : Z) : nat := Z.to_nat (u32 (sec * BSIZE) / BSIZE).

Definition wsect (sec : Z) (buf : list Z) : M mkst unit :=
  modify (fun s =>
    let img := mk_img s in
    let k := sector sec in
    set_mk_img (if (k <? length img)%nat then <[k := buf]> img
                else img ++ replicate (k - length img) zeroes ++ [buf]) s).

Definition rsect (sec : Z) : M mkst (list Z) :=
  let! img := gets mk_img in
  match img !! sector sec with
  | Some buf => ret buf
  | None => panic "read"
  end.

(** ** Inodes *)

(** A struct dinode in its 64 bytes. *)
Definition dinode_bytes (d : dinode) : list Z :=
  mem16 (din_type d) ++ mem16 (din_major d) ++ mem16 (din_minor d) ++ mem16 (din_nlink d) ++ mem32 (din_size d) ++
  concat (map mem32 (din_addrs d)).
Definition dinode_at (buf : list Z) (o : nat) : dinode :=
  mkDinode (i16 (host16 buf o)) (i16 (host16 buf (o + 2))) (i16 (host16 buf (o + 4))) (i16 (host16 buf (o + 6))) (host32 buf (o + 8))
    (map (fun k => host32 buf (dino_addr o k)) (seq 0 (NDIRECT + 1))).

Definition winode (inum : Z) (ip : dinode) : M mkst unit :=
  let! sb := gets mk_sb in
  let bn := IBLOCK inum sb in
  let! buf := rsect bn in
  wsect bn (put_bytes buf (dino_off inum) (dinode_bytes ip)).

Definition rinode (inum : Z) : M mkst dinode :=
  let! sb := gets mk_sb in
  let! buf := rsect (IBLOCK inum sb) in
  ret (dinode_at buf (dino_off inum)).

Definition ialloc (type : Z) : M mkst Z :=
  let! inum := gets mk_freeinode in
  modify (set_mk_freeinode (u32 (inum + 1))) ;;;
  winode inum (mkDinode (i16 (xshort type)) 0 0 (i16 (xshort 1)) (xint 0) (replicate (NDIRECT + 1) 0)) ;;;
  ret inum.

Definition balloc (used : Z) : M mkst unit :=
  if negb (used <? BSIZE * 8) then panic "assert"
  else
    let! sb := gets mk_sb in
    wsect (sb_bmapstart sb) (fold_left set_bit (seq 0 (Z.to_nat used)) zeroes).

(** freeblock++ *)
Definition next_block : M mkst Z :=
  let! b := gets mk_freeblock in
  modify (set_mk_freeblock (u32 (b + 1))) ;;;
  ret b.

(** [if(xint(din.addrs[k]) == 0) din.addrs[k] = xint(freeblock++)] *)
Definition need_addr (din : dinode) (k : nat) : M mkst dinode :=
  if xint (nth k (din_addrs din) 0) =? 0 then
    let! b := next_block in
    ret (set_din_addrs (<[k := xint b]> (din_addrs din)) din)
  else ret din.

(** The block [x] of block [fbn] of the file. *)
Definition iappend_block (din : dinode) (fbn : Z) : M mkst (dinode * Z) :=
  if fbn <? Z.of_nat NDIRECT then
    let! din := need_addr din (Z.to_nat fbn) in
    ret (din, xint (nth (Z.to_nat fbn) (din_addrs din) 0))
  else
    let! din := need_addr din NDIRECT in
    let ib := xint (nth NDIRECT (din_addrs din) 0) in
    let! indirect := rsect ib in
    let o := (4 * (Z.to_nat fbn - NDIRECT))%nat in
    if host32 indirect o =? 0 then
      let! b := next_block in
      let indirect := put_bytes indirect o (mem32 (xint b)) in
      wsect ib indirect ;;;
      ret (din, xint (host32 indirect o))
    else ret (din, xint (host32 indirect o)).

(** The loop of iappend: the inode, [off] and the bytes left *)
Definition iappend_body (a : dinode * Z * list Z) : M mkst ((dinode * Z * list Z) + (dinode * Z)) :=
  let '(din, off, p) := a in
  if negb (0 <? Z.of_nat (length p)) then ret (inr (din, off))
  else
    let fbn := off / BSIZE in
    if negb (fbn <? MAXFILE) then panic "assert"
    else
      let! r := iappend_block din fbn in
      let '(din, x) := r in
      let n1 := Z.min (Z.of_nat (length p)) (u32 ((fbn + 1) * BSIZE - off)) in
      let! buf := rsect x in
      wsect x (put_bytes buf (Z.to_nat (u32 (off - fbn * BSIZE))) (take (Z.to_nat n1) p)) ;;;
      ret (inl (din, u32 (off + n1), drop (Z.to_nat n1) p)).

Definition iappend (inum : Z) (p : list Z) : M mkst unit :=
  let! din := rinode inum in
  let! r := loop (S (length p)) iappend_body (din, xint (din_size din), p) in
  winode inum (set_din_size (xint r.2) r.1).

(** ** main *)

(** A struct dirent, with the name copied by strcpy or by strncpy. *)
Definition dirent_strcpy (inum : Z) (name : list Z) : list Z := put_bytes (mem16 (xshort inum) ++ replicate DIRSIZ 0) 2 (name ++ [0]).
Definition dirent_strncpy (inum : Z) (name : list Z) : list Z := mem16 (xshort inum) ++ strncpy_chars DIRSIZ name.

(** The calls of read(fd, buf, sizeof(buf)), each followed by iappend *)
Fixpoint append_file (fuel : nat) (inum : Z) (c : list Z) : M mkst unit :=
  match fuel with
  | O => nofuel
  | S n => match c with
           | [] => skip
           | _ => iappend inum (take (Z.to_nat BSIZE) c) ;;; append_file n inum (drop (Z.to_nat BSIZE) c)
           end
  end.

(** [if(argv[i][0] == '_') ++argv[i]] *)
Definition skip_underscore (name : list Z) : list Z := if hd 0 name =? 95 then tl name else name.

Definition add_file (rootino : Z) (arg : list Z * option (list Z)) : M mkst unit :=
  let '(name, file) := arg in
  if existsb (Z.eqb 47) name then panic "assert"
  else match file with
  | None => panic "open"
  | Some c =>
      let name := skip_underscore name in
      let! inum := ialloc T_FILE in
      iappend rootino (dirent_strncpy inum name) ;;;
      append_file (S (length c)) inum c
  end.

Fixpoint add_files (rootino : Z) (args : list (list Z * option (list Z))) : M mkst unit :=
  match args with
  | [] => skip
  | arg :: args' => add_file rootino arg ;;; add_files rootino args'
  end.

Definition nmeta : Z := 2 + nlog + ninodeblocks + nbitmap.

Definition init_sb : superblock :=
  mkSuperblock (xint FSSIZE) (xint (FSSIZE - nmeta)) (xint NINODES) (xint nlog) (xint 2) (xint (2 + nlog)) (xint (2 + nlog + ninodeblocks)).
Definition sb_bytes (sb : superblock) : list Z :=
  concat (map mem32 [sb_size sb; sb_nblocks sb; sb_ninodes sb; sb_nlog sb; sb_logstart sb; sb_inodestart sb; sb_bmapstart sb]).

(** Up to the entries of the root directory. *)
Definition format : M mkst Z :=
  modify (set_mk_sb init_sb) ;;;
  modify (set_mk_freeblock nmeta) ;;;
  for_each (Z.to_nat FSSIZE) 0 (fun i => wsect (Z.of_nat i) zeroes) ;;;
  wsect 1 (put_bytes zeroes 0 (sb_bytes init_sb)) ;;;
  let! rootino := ialloc T_DIR in
  if negb (rootino =? ROOTINO) then panic "assert"
  else
    iappend rootino (dirent_strcpy rootino [46]) ;;;
    iappend rootino (dirent_strcpy rootino [46; 46]) ;;;
    ret rootino.

(** fix size of root inode dir *)
Definition fix_root (rootino : Z) : M mkst unit :=
  let! din := rinode rootino in
  let off := xint (din_size din) in
  winode rootino (set_din_size (xint (u32 ((off / BSIZE + 1) * BSIZE))) din).

(** [argc], whether the image can be opened, and the files; the state starts with freeinode 1. *)
Definition main (argc : Z) (opened : bool) (args : list (list Z * option (list Z))) : M mkst unit :=
  if argc <? 2 then panic "Usage: mkfs fs.img files..."
  else if negb opened then panic "open"
  else
    let! rootino := format in
    add_files rootino args ;;;
    fix_root rootino ;;;
    let! used := gets mk_freeblock in
    balloc used.

End mkfs.

(** The variables of the program when it starts, the image truncated. *)
Definition mkfs_start : mkst := mkMkst [] (mkSuperblock 0 0 0 0 0 0 0) 1 0.
