(* ===== verification/MkfsSpec.v ===== *)
(** * What mkfs writes

    The image as the kernel sees it ([FsInv]): the blocks that have been allocated are those below
    freeblock, so freeblock++ is the allocation of a block that is still zero; an inode of the image
    is its struct dinode; the bytes appended to a file are the bytes of the file. *)
From Stdlib Require Import ZArith Lia.
From stdpp Require Import base list numbers strings.
From S2P Require Import Prelude Block Bio Log Tx Fs FsInv FsSpec Mkfs.
Import Prelude Fs FsSpec Mkfs.
Local Open Scope Z_scope.

(** ** Bytes *)

Lemma byte_put_at d o l k : (o + length l <= length d)%nat -> (k < length l)%nat -> byte (put_bytes d o l) (o + k) = byte l k.
Proof. intros Hd Hk. rewrite byte_put_in by lia. done. Qed.

Lemma get32_put_at d o l k : (o + length l <= length d)%nat -> (k + 4 <= length l)%nat -> get32 (put_bytes d o l) (o + k) = get32 l k.
Proof. intros Hd Hk. unfold get32. rewrite <- !Nat.add_assoc, !byte_put_at by lia. done. Qed.

Lemma get16_put_at d o l k : (o + length l <= length d)%nat -> (k + 2 <= length l)%nat -> get16 (put_bytes d o l) (o + k) = get16 l k.
Proof. intros Hd Hk. unfold get16. rewrite <- !Nat.add_assoc, !byte_put_at by lia. done. Qed.

Lemma get32_put_out d o l k : (k + 4 <= o \/ o + length l <= k)%nat -> get32 (put_bytes d o l) k = get32 d k.
Proof. intros Hk. unfold get32. rewrite !byte_put_out by lia. done. Qed.

Lemma get16_put_out d o l k : (k + 2 <= o \/ o + length l <= k)%nat -> get16 (put_bytes d o l) k = get16 d k.
Proof. intros Hk. unfold get16. rewrite !byte_put_out by lia. done. Qed.

Lemma byte_app_r l1 l2 k : byte (l1 ++ l2) (length l1 + k) = byte l2 k.
Proof. unfold byte. rewrite app_nth2 by lia. do 2 f_equal. lia. Qed.

Lemma byte_app_l l1 l2 k : (k < length l1)%nat -> byte (l1 ++ l2) k = byte l1 k.
Proof. intros Hk. unfold byte. by rewrite app_nth1. Qed.

Lemma get32_app_r l1 l2 k : get32 (l1 ++ l2) (length l1 + k) = get32 l2 k.
Proof. unfold get32. by rewrite <- !Nat.add_assoc, !byte_app_r. Qed.

Lemma get32_app_l l1 l2 k : (k + 4 <= length l1)%nat -> get32 (l1 ++ l2) k = get32 l1 k.
Proof. intros Hk. unfold get32. by rewrite !byte_app_l by lia. Qed.

Lemma get32_bytes32 v : 0 <= v < 2 ^ 32 -> get32 (bytes32 v) 0 = v.
Proof. intros Hv. unfold get32, byte, bytes32. cbn [nth Nat.add]. by apply bytes32_sum. Qed.

Lemma get16_bytes16 v : 0 <= v < 65536 -> get16 (bytes16 v) 0 = v.
Proof. intros Hv. unfold get16, byte, bytes16. cbn [nth Nat.add]. rewrite !Zmod_mod. Z.to_euclidean_division_equations; lia. Qed.

Lemma get32_words (ws : list Z) k : Forall (fun w => 0 <= w < 2 ^ 32) ws -> (k < length ws)%nat ->
  get32 (concat (map (mem32 false) ws)) (4 * k) = nth k ws 0.
Proof.
  revert k. induction ws as [|w ws IH]; intros k Hw Hk; [simpl in Hk; lia|]. inversion Hw as [|? ? Hw1 Hw2]; subst. cbn [map concat].
  assert (length (mem32 false w) = 4%nat) as E4 by done. destruct k as [|k].
  - rewrite Nat.mul_0_r, get32_app_l by lia. unfold mem32. rewrite u32_small by done. by apply get32_bytes32.
  - replace (4 * S k)%nat with (length (mem32 false w) + 4 * k)%nat by lia. rewrite get32_app_r. simpl in Hk. apply IH; [done|lia].
Qed.

Lemma length_words ws : length (concat (map (mem32 false) ws)) = (4 * length ws)%nat.
Proof. induction ws as [|w ws IH]; [done|]. cbn [map concat]. rewrite length_app, IH. cbn [length]. change (length (mem32 false w)) with 4%nat. lia. Qed.

(** The words of the image are in the byte order of the target, whatever they are read as. *)
Lemma xint_le x : 0 <= x < 2 ^ 32 -> xint false x = x.
Proof.
  intros Hx. unfold xint, host32, get32, byte. cbn [nth Nat.add]. rewrite !Z.shiftr_div_pow2 by lia. change (2 ^ 8) with 256. change (2 ^ 16) with 65536.
  change (2 ^ 24) with 16777216. by apply bytes32_sum.
Qed.

(** ** Inodes of the image *)

Definition dinode_ok (d : dinode) : Prop :=
  (-32768 <= din_type d < 32768) /\ (-32768 <= din_major d < 32768) /\ (-32768 <= din_minor d < 32768) /\ (-32768 <= din_nlink d < 32768) /\
  0 <= din_size d < 2 ^ 32 /\ length (din_addrs d) = 13%nat /\ Forall (fun a => 0 <= a < 2 ^ 32) (din_addrs d).

Lemma i16_mod v : -32768 <= v < 32768 -> i16 (v mod 65536) = v.
Proof. intros Hv. unfold i16. rewrite Zmod_mod. destruct (Z.ltb_spec (v mod 65536) 32768); Z.to_euclidean_division_equations; lia. Qed.

Lemma get16_mem16 v : i16 (get16 (mem16 false v) 0) = i16 (v mod 65536).
Proof. unfold mem16. rewrite get16_bytes16; [done|]. apply Z.mod_pos_bound. lia. Qed.

Lemma get16_app_r l1 l2 k : get16 (l1 ++ l2) (length l1 + k) = get16 l2 k.
Proof. unfold get16. by rewrite <- !Nat.add_assoc, !byte_app_r. Qed.

Lemma get16_app_l l1 l2 k : (k + 2 <= length l1)%nat -> get16 (l1 ++ l2) k = get16 l1 k.
Proof. intros Hk. unfold get16. by rewrite !byte_app_l by lia. Qed.

Lemma length_dinode_bytes d : length (din_addrs d) = 13%nat -> length (dinode_bytes false d) = 64%nat.
Proof. intros Hd. unfold dinode_bytes. rewrite !length_app, length_words, Hd. done. Qed.

(** The halfwords of a struct dinode, and its words. *)
Lemma dinode_at_bytes d : dinode_ok d -> dinode_at false (dinode_bytes false d) 0 = d.
Proof.
  intros (H1 & H2 & H3 & H4 & H5 & H6 & H7). destruct d as [ty ma mi nl sz ad]. cbn [din_type din_major din_minor din_nlink din_size din_addrs] in *.
  unfold dinode_at, dinode_bytes, host16, host32. cbn [din_type din_major din_minor din_nlink din_size din_addrs].
  set (w := concat (map (mem32 false) ad)). change (0 + 2)%nat with (length (mem16 false ty) + 0)%nat.
  change (0 + 4)%nat with (length (mem16 false ty) + (length (mem16 false ma) + 0))%nat.
  change (0 + 6)%nat with (length (mem16 false ty) + (length (mem16 false ma) + (length (mem16 false mi) + 0)))%nat.
  change (0 + 8)%nat with (length (mem16 false ty) + (length (mem16 false ma) + (length (mem16 false mi) + (length (mem16 false nl) + 0))))%nat.
  rewrite !get16_app_r, !get16_app_l, !get32_app_r, get32_app_l, !get16_mem16, !i16_mod by (done || simpl; lia). f_equal.
  - unfold mem32. rewrite u32_small by done. by apply get32_bytes32.
  - apply (nth_ext _ _ 0 0); [rewrite length_map, length_seq; done|]. intros k Hk. rewrite length_map, length_seq in Hk.
    rewrite (nth_indep _ 0 (get32 (dinode_bytes false (mkDinode ty ma mi nl sz ad)) (dino_addr 0 0))) by (by rewrite length_map, length_seq).
    rewrite (map_nth (fun k => get32 _ (dino_addr 0 k))), seq_nth by done. unfold dino_addr. replace (0 + 12 + 4 * (0 + k))%nat with
      (length (mem16 false ty) + (length (mem16 false ma) + (length (mem16 false mi) + (length (mem16 false nl) + (length (mem32 false sz) + 4 * k)))))%nat
      by (cbn [length mem16 mem32 bytes16 bytes32]; lia).
    rewrite !get32_app_r. apply get32_words; [done|]. rewrite H6. exact Hk.
Qed.

Lemma dino_addr_lt o k : (k < 13)%nat -> (o + 12 <= dino_addr o k /\ dino_addr o k + 4 <= o + 64)%nat.
Proof. unfold dino_addr. lia. Qed.

Lemma dinode_put_at buf o d : dinode_ok d -> (o + 64 <= length buf)%nat -> dinode_at false (put_bytes buf o (dinode_bytes false d)) o = d.
Proof.
  intros Hd Ho. pose proof (length_dinode_bytes d ltac:(apply Hd)) as Hl. rewrite <- (dinode_at_bytes d Hd) at 2. unfold dinode_at, host16, host32.
  pose proof (get16_put_at buf o (dinode_bytes false d) 0) as E0. rewrite Nat.add_0_r in E0. rewrite E0, !get16_put_at, get32_put_at by lia. f_equal.
  apply map_ext_in. intros k Hk%in_seq. unfold dino_addr. replace (o + 12 + 4 * k)%nat with (o + (12 + 4 * k))%nat by lia.
  rewrite get32_put_at; [done|lia|]. unfold NDIRECT in Hk. lia.
Qed.

Lemma dinode_put_out buf o o' l : length l = 64%nat -> (o' + 64 <= o \/ o + 64 <= o')%nat -> dinode_at false (put_bytes buf o l) o' = dinode_at false buf o'.
Proof.
  intros Hl Ho. unfold dinode_at, host16, host32. rewrite !get16_put_out, get32_put_out by lia. f_equal. apply map_ext_in. intros k Hk%in_seq.
  apply get32_put_out. pose proof (dino_addr_lt o' k). unfold NDIRECT in Hk. lia.
Qed.

(** ** The layout *)

Definition mkfs_sb : superblock := mkSuperblock 1000 941 200 30 2 32 58.
Definition mkfs_geom : geom := {| gm_start := 2; gm_size := 30; gm_len := 1000 |}.

Lemma mkfs_sb_init : init_sb false = mkfs_sb.
Proof. vm_compute. reflexivity. Qed.

Lemma mkfs_BBLOCK b : in_fs mkfs_sb b -> BBLOCK b mkfs_sb = 58.
Proof.
  intros [H0 H1]. cbn in H1. unfold BBLOCK. rewrite (Z.div_small b) by (unfold BPB, BSIZE; lia). cbn. done.
Qed.

Lemma mkfs_IBLOCK n : inum_ok mkfs_sb n -> IBLOCK n mkfs_sb = 32 + n / 8 /\ 32 <= IBLOCK n mkfs_sb <= 56.
Proof.
  intros [H0 H1]. cbn in H1. unfold IBLOCK, IPB. cbn [sb_inodestart mkfs_sb]. rewrite u32_small by (Z.to_euclidean_division_equations; lia).
  split; [lia|]. Z.to_euclidean_division_equations; lia.
Qed.

Lemma mkfs_layout : layout mkfs_geom mkfs_sb.
Proof.
  constructor; [| |done].
  - intros b Hb. rewrite mkfs_BBLOCK by done. destruct Hb as [H0 H1]. cbn in H1. rewrite (Z.div_small b) by (unfold BPB, BSIZE; lia).
    split; [done|]. unfold dblk. cbn. lia.
  - intros n Hn. destruct (mkfs_IBLOCK n Hn) as [_ Hr]. split; [unfold dblk; cbn; lia|]. intros b Hb. rewrite mkfs_BBLOCK by done. lia.
Qed.

Lemma mkfs_data b : 59 <= b < 1000 -> data mkfs_geom mkfs_sb b.
Proof.
  intros Hb. split; [cbn; lia|]. split; [unfold dblk; cbn; lia|]. split.
  - intros c Hc. rewrite mkfs_BBLOCK by done. lia.
  - intros n Hn. pose proof (mkfs_IBLOCK n Hn). lia.
Qed.

Lemma mkfs_data_inv b : data mkfs_geom mkfs_sb b -> 2 + 30 <= b < 1000 \/ 0 < b < 2.
Proof. intros (H1 & (_ & _ & H2) & _). cbn in *. lia. Qed.

(** The bitmap with the first [n] blocks in use. *)
Definition bitmap (n : nat) : list Z := fold_left set_bit (seq 0 n) zeroes.

Lemma bitmap_S n : bitmap (S n) = set_bit (bitmap n) n.
Proof. unfold bitmap. rewrite seq_S, fold_left_app. done. Qed.

Lemma length_bitmap n : length (bitmap n) = 512%nat.
Proof. induction n as [|n IH]; [done|]. by rewrite bitmap_S, length_set_bit. Qed.

Lemma bit_bitmap n b : (n <= 4096)%nat -> bit_of (bitmap n) b = (b <? n)%nat.
Proof.
  induction n as [|n IH]; intros Hn.
  - unfold bit_of, bitmap. cbn [seq fold_left]. rewrite nth_lookup. destruct (zeroes !! (b / 8)%nat) eqn:E; [|apply Z.testbit_0_l].
    apply lookup_replicate in E as [-> _]. apply Z.testbit_0_l.
  - rewrite bitmap_S, bit_set_bit by (rewrite length_bitmap; lia). rewrite IH by lia. case_decide as E; [subst; symmetry; apply Nat.ltb_lt; lia|].
    destruct (Nat.ltb_spec b n), (Nat.ltb_spec b (S n)); (done || lia).
Qed.

(** ** The image and its blocks *)

Record shows (s : mkst) (V : Z -> list Z) : Prop := {
  sh_len : length (mk_img s) = 1000%nat;
  sh_img x : 0 <= x < 1000 -> x <> 58 -> mk_img s !! Z.to_nat x = Some (V x);
  sh_bm : V 58 = bitmap (Z.to_nat (mk_freeblock s));
  sh_sb : mk_sb s = mkfs_sb;
  sh_fb : 59 <= mk_freeblock s <= 1000;
  sh_zero x : mk_freeblock s <= x < 1000 -> V x = zeros }.

Lemma sector_small x : 0 <= x < 1000 -> sector x = Z.to_nat x.
Proof. intros Hx. unfold sector, BSIZE. rewrite u32_small by lia. by rewrite Z.div_mul. Qed.

Lemma shows_used s V b : shows s V -> in_fs mkfs_sb b -> used mkfs_sb V b = (b <? mk_freeblock s).
Proof.
  intros Hs Hb. unfold used. rewrite mkfs_BBLOCK by done. pose proof (sh_fb _ _ Hs). rewrite (sh_bm _ _ Hs), bit_bitmap by lia. unfold bbit. destruct Hb as [H0 H1]. cbn in H1.
  rewrite Z.mod_small by (unfold BPB, BSIZE; lia). destruct (Nat.ltb_spec (Z.to_nat b) (Z.to_nat (mk_freeblock s))), (Z.ltb_spec b (mk_freeblock s)); (done || lia).
Qed.

Lemma rsect_spec s V x (Q : list Z -> mkst -> Prop) : shows s V -> 0 <= x < 1000 -> x <> 58 -> Q (V x) s -> wp (rsect x) Q s.
Proof.
  intros Hs Hx Hne HQ. unfold rsect. apply wp_bind, wp_gets. rewrite sector_small, (sh_img _ _ Hs) by done. by apply wp_ret.
Qed.

Lemma wsect_spec s V x d (Q : unit -> mkst -> Prop) : shows s V -> 0 <= x < mk_freeblock s -> x <> 58 ->
  (forall s', shows s' (vupd V x d) -> mk_freeblock s' = mk_freeblock s -> mk_freeinode s' = mk_freeinode s -> Q tt s') -> wp (wsect x d) Q s.
Proof.
  intros Hs Hx Hne HQ. pose proof (sh_fb _ _ Hs) as Hfb. unfold wsect. apply wp_modify. rewrite sector_small, (sh_len _ _ Hs) by lia. rewrite (proj2 (Nat.ltb_lt _ _)) by lia.
  apply HQ; [|done|done]. constructor; cbn [mk_img set_mk_img mk_freeblock mk_sb].
  - rewrite length_insert. apply Hs.
  - intros y Hy Hy58. unfold vupd. case_decide as E.
    + subst y. apply list_lookup_insert_eq. rewrite (sh_len _ _ Hs). lia.
    + rewrite list_lookup_insert_ne by lia. by apply (sh_img _ _ Hs).
  - unfold vupd. rewrite decide_False by done. apply Hs.
  - apply Hs.
  - done.
  - intros y Hy. unfold vupd. rewrite decide_False by lia. by apply (sh_zero _ _ Hs).
Qed.

(** freeblock++ allocates the block. *)
Lemma next_block_spec s V I T (Q : Z -> mkst -> Prop) : shows s V -> finv mkfs_geom mkfs_sb V I T -> mk_freeblock s < 1000 ->
  (let b := mk_freeblock s in let V' := valloc mkfs_sb V b in
   forall s', shows s' V' -> mk_freeblock s' = b + 1 -> mk_freeinode s' = mk_freeinode s -> grown mkfs_geom mkfs_sb V I V' I T 1 ->
     allocated mkfs_geom mkfs_sb V' I T b -> (forall ip k, ip ∈ T -> (k <= 140)%nat -> ref V' I ip k = ref V I ip k) ->
     (forall x, x < 58 -> V' x = V x) -> Q b s') -> wp next_block Q s.
Proof.
  intros Hs Hf Hlt HQ. cbv zeta in HQ. pose proof (sh_fb _ _ Hs) as Hfb. set (b := mk_freeblock s) in *. assert (in_fs mkfs_sb b) as Hb by (unfold in_fs; cbn; lia).
  assert (used mkfs_sb V b = false) as Hu by (rewrite (shows_used s) by done; apply Z.ltb_irrefl).
  assert (forall x, x <> 58 -> x <> b -> valloc mkfs_sb V b x = V x) as Hsame.
  { intros x H58 Hxb. unfold valloc, vupd. rewrite mkfs_BBLOCK by done. by rewrite !decide_False. }
  unfold next_block. apply wp_bind, wp_gets. apply wp_bind, wp_modify, wp_ret. apply HQ.
  - constructor; cbn [mk_img set_mk_freeblock mk_freeblock mk_sb]; rewrite ?u32_small by lia; try apply Hs.
    + intros x Hx H58. destruct (decide (x = b)) as [->|Hne].
      * unfold valloc, vupd. rewrite decide_True by done. rewrite (sh_img _ _ Hs) by lia. f_equal. apply (sh_zero _ _ Hs). lia.
      * rewrite Hsame by done. by apply (sh_img _ _ Hs).
    + unfold valloc, vupd. rewrite mkfs_BBLOCK by done. rewrite decide_False, decide_True by lia. rewrite (sh_bm _ _ Hs). fold b. replace (Z.to_nat (b + 1)) with (S (Z.to_nat b)) by lia.
      rewrite bitmap_S. f_equal. unfold bbit. rewrite Z.mod_small by (unfold BPB, BSIZE; lia). done.
    + fold b. lia.
    + intros x Hx. fold b in Hx. rewrite Hsame by lia. apply (sh_zero _ _ Hs). fold b. lia.
  - cbn. fold b. by rewrite u32_small by lia.
  - done.
  - apply grown_valloc; (done || apply mkfs_layout).
  - by apply (allocated_valloc _ _ mkfs_layout V I T).
  - intros ip k Hip Hk. by apply (ref_valloc mkfs_geom mkfs_sb V I T).
  - intros x Hx. apply Hsame; lia.
Qed.

(** ** Blocks of a file *)

Definition din_of (i : inode) : dinode := mkDinode (i_type i) (i_major i) (i_minor i) (i_nlink i) (i_size i) (i_addrs i).

Local Abbreviation finv := (finv mkfs_geom mkfs_sb).
Local Abbreviation grown := (grown mkfs_geom mkfs_sb).
Local Abbreviation written := (written mkfs_geom mkfs_sb).

(** The blocks of the files [T] come after the bitmap. *)
Record fsok (s : mkst) (V : Z -> list Z) (I : list inode) (T : list nat) : Prop := {
  ok_shows :> shows s V;
  ok_finv :> finv V I T;
  ok_high ip k : ip ∈ T -> (k <= 140)%nat -> ref V I ip k <> 0 -> 59 <= ref V I ip k }.

Lemma ref_bounds s V I T ip k : fsok s V I T -> ip ∈ T -> (k <= 140)%nat -> ref V I ip k <> 0 -> 59 <= ref V I ip k < mk_freeblock s.
Proof.
  intros Hs Hip Hk Hn. destruct (fv_ref _ _ _ _ _ Hs ip k Hip Hk Hn) as [(Hr & _) Hu]. cbn in Hr. split; [by apply Hs|].
  rewrite (shows_used s) in Hu by (exact (ok_shows _ _ _ _ Hs) || (unfold in_fs; cbn; lia)). by apply Z.ltb_lt in Hu.
Qed.

Lemma ref_xint s V I T ip k : fsok s V I T -> ip ∈ T -> (k <= 140)%nat -> xint false (ref V I ip k) = ref V I ip k.
Proof.
  intros Hs Hip Hk. destruct (decide (ref V I ip k = 0)) as [->|Hn]; [done|]. pose proof (ref_bounds s V I T ip k Hs Hip Hk Hn). pose proof (sh_fb _ _ Hs).
  apply xint_le. lia.
Qed.

Lemma nth_addrs V I ip i k : I !! ip = Some i -> (k <= 12)%nat -> nth k (i_addrs i) 0 = ref V I ip k.
Proof. intros Hi Hk. unfold ref. rewrite Hi. unfold NDIRECT. by rewrite (proj2 (Nat.leb_le k 12) Hk). Qed.

(** From [V0], [I0] to [V], [I], with [o] more blocks. *)
Record ext (s0 s : mkst) (V0 : Z -> list Z) (I0 : list inode) (V : Z -> list Z) (I : list inode) (T : list nat) (o : Z) : Prop := {
  ex_ok :> fsok s V I T;
  ex_grown : exists c, grown V0 I0 V I T c;
  ex_meta x : x < 58 -> V x = V0 x;
  ex_fb : mk_freeblock s = mk_freeblock s0 + o;
  ex_fi : mk_freeinode s = mk_freeinode s0 }.

Lemma ext_refl s V I T : fsok s V I T -> ext s s V I V I T 0.
Proof. intros Hs. constructor; try done; [|lia]. exists 0%nat. apply grown_refl, Hs. Qed.

Lemma ext_trans s0 s1 s2 V0 I0 V1 I1 V2 I2 T o1 o2 : ext s0 s1 V0 I0 V1 I1 T o1 -> ext s1 s2 V1 I1 V2 I2 T o2 -> ext s0 s2 V0 I0 V2 I2 T (o1 + o2).
Proof.
  intros [S1 [c1 G1] M1 B1 F1] [S2 [c2 G2] M2 B2 F2]. constructor; [done| | |lia|congruence].
  - exists (c1 + c2)%nat. by eapply grown_trans.
  - intros x Hx. by rewrite M2, M1.
Qed.

Definition newly (a : Z) : Z := if a =? 0 then 1 else 0.

(** Place [k] of file [ip] refers to a block. *)
Definition filled (V0 : Z -> list Z) (I0 : list inode) (V : Z -> list Z) (I : list inode) (T : list nat) (ip k : nat) : Prop :=
  exists a, 59 <= a /\ forall ip' k', ip' ∈ T -> (k' <= 140)%nat -> ref V I ip' k' = if decide (ip' = ip /\ k' = k) then a else ref V0 I0 ip' k'.

Lemma filled_same s V I T ip k : fsok s V I T -> ip ∈ T -> (k <= 140)%nat -> ref V I ip k <> 0 -> filled V I V I T ip k.
Proof.
  intros Hs Hip Hk Hn. exists (ref V I ip k). split; [by apply Hs|]. intros ip' k' _ _. case_decide as E; [by destruct E as [-> ->]|done].
Qed.

Lemma fsok_filled s s' V I V' I' T ip k c : fsok s V I T -> shows s' V' -> grown V I V' I' T c -> filled V I V' I' T ip k -> fsok s' V' I' T.
Proof.
  intros Hs Hs' Hg (a & Ha & R). constructor; [done|exact (gr_finv _ _ _ _ _ _ _ _ Hg)|]. intros ip' k' Hip' Hk'. rewrite R by done. case_decide; [lia|].
  by apply Hs.
Qed.

Lemma need_addr_spec s V I T ip i k : fsok s V I T -> ip ∈ T -> I !! ip = Some i -> (k <= 12)%nat ->
  mk_freeblock s + newly (ref V I ip k) <= 1000 ->
  wp (need_addr false (din_of i) k) (fun d s' => exists V' I' i', ext s s' V I V' I' T (newly (ref V I ip k)) /\ filled V I V' I' T ip k /\
    I' !! ip = Some i' /\ d = din_of i') s.
Proof.
  intros Hs Hip Hi Hk Hfb. unfold need_addr. cbn [din_of din_addrs]. rewrite (nth_addrs V I ip i k Hi Hk), (ref_xint s V I T) by (done || lia). unfold newly in *.
  destruct (Z.eqb_spec (ref V I ip k) 0) as [H0|Hn].
  2:{ apply wp_ret. exists V, I, i. split; [by apply ext_refl|]. split; [|done]. apply (filled_same s); (done || lia). }
  apply wp_bind. eapply (next_block_spec s V I T); [apply Hs|apply Hs|lia|]. cbv zeta. intros s' Hs' Hb' Hi' Hg Ha Hr Hm. apply wp_ret.
  set (b := mk_freeblock s) in *. set (V' := valloc mkfs_sb V b) in *. pose proof (gr_finv _ _ _ _ _ _ _ _ Hg) as Hf'.
  assert (ref V' I ip k = 0) as H0' by (rewrite Hr by (done || lia); done). pose proof (sh_fb _ _ Hs) as Hb. fold b in Hb.
  destruct (grown_direct mkfs_geom mkfs_sb V' I T ip k b Hf' Hip Hk H0' Ha) as [Hg2 _]. pose proof (reref_direct _ _ V' I T ip k b Hf' Hip Hk H0' Ha) as Hrr.
  pose proof (grown_trans _ _ _ _ _ _ _ _ _ _ _ Hg Hg2) as Hg3.
  assert (filled V I V' (put_addr I ip k b) T ip k) as Hfl.
  { exists b. split; [lia|]. intros ip' k' Hip' Hk'. rewrite Hrr by done. case_decide; [done|]. by apply Hr. }
  exists V', (put_addr I ip k b), (set_i_addrs (<[k := b]> (i_addrs i)) i). split_and!; [|done| |].
  - constructor; try done; [by eapply (fsok_filled s)|by eexists].
  - unfold put_addr. rewrite list_lookup_alter, decide_True by done. by rewrite Hi.
  - rewrite xint_le by lia. by destruct i.
Qed.

(** The blocks that block [m] of a file needs. *)
Definition needs (V : Z -> list Z) (I : list inode) (ip m : nat) : Z :=
  newly (ref V I ip (place m)) + (if (m <? 12)%nat then 0 else newly (ref V I ip 12)).

Definition filled_block (V0 : Z -> list Z) (I0 : list inode) (V : Z -> list Z) (I : list inode) (T : list nat) (ip m : nat) : Prop :=
  (forall ip' k, ip' ∈ T -> (k <= 140)%nat -> (ip', k) <> (ip, place m) -> (12 <= m /\ (ip', k) = (ip, 12%nat) \/ ref V I ip' k = ref V0 I0 ip' k)%nat) /\
  ref V I ip (place m) <> 0 /\ ((12 <= m)%nat -> ref V I ip 12 <> 0).

Lemma filled_once V0 I0 V1 I1 T ip m : (m < 12)%nat -> ip ∈ T -> filled V0 I0 V1 I1 T ip m -> filled_block V0 I0 V1 I1 T ip m.
Proof.
  intros Hm Hip (a & Ha & R). unfold filled_block, place, NDIRECT. rewrite (proj2 (Nat.ltb_lt m 12)) by lia. split_and!; [| |lia].
  - intros ip' k Hip' Hk Hne. right. rewrite R by done. rewrite decide_False; [done|]. by intros [-> ->].
  - rewrite R by (done || lia). rewrite decide_True by done. lia.
Qed.

Lemma filled_twice V0 I0 V1 I1 V2 I2 T ip m : (12 <= m < 140)%nat -> ip ∈ T -> filled V0 I0 V1 I1 T ip 12 -> filled V1 I1 V2 I2 T ip (S m) -> filled_block V0 I0 V2 I2 T ip m.
Proof.
  intros Hm Hip (a1 & Ha1 & R1) (a2 & Ha2 & R2). unfold filled_block, place, NDIRECT. rewrite (proj2 (Nat.ltb_ge m 12)) by lia. split_and!.
  - intros ip' k Hip' Hk Hne. destruct (decide (ip' = ip /\ k = 12)%nat) as [[-> ->]|Hn]; [left; split; [lia|done]|right]. rewrite R2, R1 by done.
    rewrite !decide_False; [done|done|]. intros [-> ->]. done.
  - rewrite R2 by (done || lia). rewrite decide_True by done. lia.
  - intros _. rewrite R2, R1 by (done || lia). rewrite decide_False by lia. rewrite decide_True by done. lia.
Qed.

(** The word of block [m] in the indirect block. *)
Lemma indirect_spec s V I T ip m (d : dinode) : fsok s V I T -> ip ∈ T -> (12 <= m < 140)%nat -> ref V I ip 12 <> 0 ->
  mk_freeblock s + newly (ref V I ip (S m)) <= 1000 ->
  let ib := ref V I ip 12 in let o := (4 * (S m - 13))%nat in
  wp (let! indirect := rsect ib in
      if host32 false indirect o =? 0 then
        let! b := next_block in
        let indirect := put_bytes indirect o (mem32 false (xint false b)) in
        wsect ib indirect ;;;
        ret (d, xint false (host32 false indirect o))
      else ret (d, xint false (host32 false indirect o)))
    (fun r s' => exists V', ext s s' V I V' I T (newly (ref V I ip (S m))) /\ filled V I V' I T ip (S m) /\ r = (d, ref V' I ip (S m))) s.
Proof.
  intros Hs Hip Hm Ha Hfb ib o. pose proof (ref_bounds s V I T ip 12 Hs Hip ltac:(lia) Ha) as Hra. fold ib in Ha, Hra. pose proof (sh_fb _ _ Hs) as Hb.
  apply wp_bind. eapply (rsect_spec s V); [apply Hs|lia|lia|]. change (host32 false (V ib) o) with (get32 (V ib) o).
  unfold o, ib. rewrite <- (ref_indirect V I ip (S m)) by (lia || done). fold o. fold ib. pose proof (ref_xint s V I T ip (S m) Hs Hip ltac:(lia)) as Ex.
  unfold newly in *. destruct (Z.eqb_spec (ref V I ip (S m)) 0) as [H0|Hn].
  2:{ apply wp_ret. exists V. split; [by apply ext_refl|]. split; [|by rewrite Ex]. apply (filled_same s); (done || lia). }
  apply wp_bind. eapply (next_block_spec s V I T); [apply Hs|apply Hs|lia|]. cbv zeta. intros s2 S2 B2 N2 G2 Hal Hr M2. set (b := mk_freeblock s) in *.
  set (V2 := valloc mkfs_sb V b) in *. pose proof (gr_finv _ _ _ _ _ _ _ _ G2) as Hf2.
  assert (ref V2 I ip 12 = ib) as E12 by (rewrite Hr by (done || lia); done).
  assert (V2 ib = V ib) as EV by (unfold V2, valloc, vupd; rewrite mkfs_BBLOCK by (unfold in_fs; cbn; lia); by rewrite !decide_False by lia).
  assert (0 <= b < 2 ^ 32) as Hb32 by lia. destruct (fv_ref _ _ _ _ _ Hf2 ip 12 Hip ltac:(lia) ltac:(congruence)) as [(_ & Hdb & _) _]. rewrite E12 in Hdb.
  destruct (grown_indirect mkfs_geom mkfs_sb mkfs_layout V2 I T ip (S m) b Hf2 Hip) as [G3 E3]; [lia|congruence|rewrite Hr by (done || lia); congruence|done|].
  pose proof (reref_indirect mkfs_geom mkfs_sb V2 I T ip (S m) b Hf2 Hip ltac:(lia) ltac:(congruence) Hb32) as R3. rewrite E12, EV in G3, E3, R3.
  pose proof (grown_trans _ _ _ _ _ _ _ _ _ _ _ G2 G3) as G4. apply wp_bind. rewrite xint_le by done. eapply (wsect_spec s2 V2); [done|lia|lia|]. intros s3 S3 B3 N3.
  apply wp_ret. set (V3 := vupd V2 ib (put_bytes (V ib) o (mem32 false b))) in *.
  assert (filled V I V3 I T ip (S m)) as Hfl.
  { exists b. split; [lia|]. intros ip' k' Hip' Hk'. rewrite R3 by done. case_decide; [done|]. by apply Hr. }
  exists V3. split_and!; [|done|].
  - constructor; [by eapply (fsok_filled s)|by eexists| |lia|congruence].
    intros x Hx. unfold V3, vupd. rewrite decide_False by lia. by apply M2.
  - f_equal. trans b; [|symmetry; exact E3]. change (host32 false ?d o) with (get32 d o). change (put_bytes ?d o (mem32 false b)) with (put32 d o b).
    rewrite get_put32; [|rewrite <- EV, (fv_len _ _ _ _ _ Hf2) by done; unfold o; lia]. rewrite u32_small by done. by apply xint_le.
Qed.

Lemma iappend_block_spec s V I T ip i m : fsok s V I T -> ip ∈ T -> I !! ip = Some i -> (m < 140)%nat ->
  mk_freeblock s + needs V I ip m <= 1000 ->
  wp (iappend_block false (din_of i) (Z.of_nat m)) (fun r s' => exists V' I' i', ext s s' V I V' I' T (needs V I ip m) /\ filled_block V I V' I' T ip m /\
    I' !! ip = Some i' /\ r = (din_of i', ref V' I' ip (place m))) s.
Proof.
  intros Hs Hip Hi Hm Hfb. unfold iappend_block, needs, place, NDIRECT in *. destruct (Z.ltb_spec (Z.of_nat m) (Z.of_nat 12)) as [H12|H12].
  - rewrite (proj2 (Nat.ltb_lt m 12)) in * by lia. rewrite Nat2Z.id. apply wp_bind. rewrite Z.add_0_r in *.
    eapply wp_mono; [apply (need_addr_spec s V I T ip i m); (done || lia)|]. intros d s1 (V1 & I1 & i1 & E1 & F1 & Hi1 & ->). apply wp_ret.
    exists V1, I1, i1. split; [done|]. split; [apply filled_once; (done || lia)|]. split; [done|].
    cbn [din_of din_addrs]. rewrite (nth_addrs V1 I1 ip i1 m) by (done || lia). by rewrite (ref_xint s1 V1 I1 T) by (apply E1 || done || lia).
  - rewrite (proj2 (Nat.ltb_ge m 12)) in * by lia. apply wp_bind.
    assert (0 <= newly (ref V I ip (S m))) by (unfold newly; case_match; lia).
    eapply wp_mono; [apply (need_addr_spec s V I T ip i 12); (done || lia)|]. intros d s1 (V1 & I1 & i1 & E1 & F1 & Hi1 & ->).
    assert (ref V1 I1 ip 12 <> 0 /\ ref V1 I1 ip (S m) = ref V I ip (S m)) as [E12 ESm].
    { destruct F1 as (a1 & Ha1 & R1). rewrite !R1 by (done || lia). rewrite decide_True, decide_False by lia. split; [lia|done]. }
    cbn [din_of din_addrs]. rewrite (nth_addrs V1 I1 ip i1 12) by (done || lia). rewrite (ref_xint s1 V1 I1 T) by (apply E1 || done || lia).
    replace (4 * (Z.to_nat (Z.of_nat m) - 12))%nat with (4 * (S m - 13))%nat by lia. pose proof (ex_fb _ _ _ _ _ _ _ _ E1) as B1. rewrite <- ESm in *.
    eapply wp_mono; [apply (indirect_spec s1 V1 I1 T ip m (din_of i1)); [apply E1|done|lia|done|lia]|]. intros r s2 (V2 & E2 & F2 & ->).
    exists V2, I1, i1. split; [|split; [apply (filled_twice V I V1 I1); (done || lia)|done]]. rewrite Z.add_comm. by eapply ext_trans.
Qed.

(** ** Appending to a file *)

(** Exactly the blocks of the first [lim] bytes exist. *)
Definition shape (V : Z -> list Z) (I : list inode) (ip lim : nat) : Prop :=
  (forall m, (m < 140)%nat -> ref V I ip (place m) <> 0 <-> (512 * m < lim)%nat) /\ (ref V I ip 12 <> 0 <-> (512 * 12 < lim)%nat).

(** The blocks of a file of [lim] bytes, the indirect block included. *)
Definition nblocks (lim : nat) : nat := (lim + 511) / 512.
Definition cost (lim : nat) : nat := nblocks lim + (if (12 <? nblocks lim)%nat then 1 else 0).

Lemma nblocks_spec lim m : (512 * m < lim)%nat <-> (m < nblocks lim)%nat.
Proof.
  unfold nblocks. pose proof (Nat.div_mod_eq (lim + 511) 512) as E. pose proof (Nat.mod_upper_bound (lim + 511) 512 ltac:(lia)). lia.
Qed.

Lemma newly_spec V I ip k (P : Prop) : (ref V I ip k <> 0 <-> P) -> (P -> newly (ref V I ip k) = 0) /\ (~ P -> newly (ref V I ip k) = 1).
Proof.
  intros HP. unfold newly. destruct (Z.eqb_spec (ref V I ip k) 0) as [E|E]; split; [|done|done|]; intros Hp; exfalso; tauto.
Qed.

Lemma needs_cost V I ip off j : shape V I ip off -> (off / 512 < 140)%nat -> (0 < j)%nat -> (off mod 512 + j <= 512)%nat ->
  Z.of_nat (cost off) + needs V I ip (off / 512) = Z.of_nat (cost (off + j)).
Proof.
  intros [H1 H2] Hm Hj Hr. pose proof (Nat.div_mod_eq off 512) as E. set (m := (off / 512)%nat) in *. set (r := (off mod 512)%nat) in *.
  destruct (newly_spec V I ip (place m) _ (H1 m Hm)) as [N1 N2]. destruct (newly_spec V I ip 12 _ H2) as [N3 N4].
  assert (nblocks (off + j) = S m) as En by (unfold nblocks; symmetry; apply (Nat.div_unique _ 512 _ (r + j - 1)); lia).
  unfold cost, needs. rewrite En. destruct (decide (r = 0)%nat) as [Er|Er].
  - assert (nblocks off = m) as -> by (unfold nblocks; symmetry; apply (Nat.div_unique _ 512 _ 511); lia). rewrite N2 by lia.
    destruct (Nat.ltb_spec m 12), (Nat.ltb_spec 12 m), (Nat.ltb_spec 12 (S m)); lia || (rewrite N3 by lia; lia) || (rewrite N4 by lia; lia).
  - assert (nblocks off = S m) as -> by (unfold nblocks; symmetry; apply (Nat.div_unique _ 512 _ (r - 1)); lia). rewrite N1 by lia.
    destruct (Nat.ltb_spec m 12), (Nat.ltb_spec 12 (S m)); lia || (rewrite N3 by lia; lia).
Qed.

Lemma shape_filled V I V' I' T ip off j : shape V I ip off -> ip ∈ T -> (off / 512 < 140)%nat -> (0 < j)%nat -> (off mod 512 + j <= 512)%nat ->
  filled_block V I V' I' T ip (off / 512) -> shape V' I' ip (off + j).
Proof.
  intros [H1 H2] Hip Hm Hj Hr (F1 & F2 & F3). pose proof (Nat.div_mod_eq off 512) as E. set (m := (off / 512)%nat) in *. split.
  - intros m' Hm'. destruct (decide (m' = m)) as [->|Hne]; [split; [lia|done]|]. destruct (place_le m' Hm') as [Hp Hp12].
    destruct (F1 ip (place m') Hip Hp) as [[_ E12]| ->].
    + intros [= Ep]. apply Hne. unfold place, NDIRECT in Ep. destruct (Nat.ltb_spec m' 12), (Nat.ltb_spec m 12); lia.
    + congruence.
    + rewrite H1 by done. lia.
  - destruct (decide (12 <= m)%nat) as [H12|H12]; [split; [lia|auto]|]. destruct (F1 ip 12%nat Hip ltac:(lia)) as [[? _]| ->]; [|lia|].
    + intros [= Ep]. destruct (place_le m Hm). done.
    + rewrite H2. lia.
Qed.

(** [l] has been appended to the file [ip], whose inode was [i], at [off]; the others are as they were. *)
Record appended (s : mkst) (V : Z -> list Z) (I : list inode) (s' : mkst) (V' : Z -> list Z) (I' : list inode) (T : list nat) (ip : nat) (i : inode) (off : nat) (l : list Z) : Prop := {
  ap_ok :> fsok s' V' I' T;
  ap_written : exists c, written V I V' I' T ip off l c (i_size i);
  ap_shape : shape V' I' ip (off + length l);
  ap_ino : exists a, I' !! ip = Some (set_i_addrs a i);
  ap_other j : j ∈ T -> j <> ip -> I' !! j = I !! j /\ forall k, (k <= 140)%nat -> ref V' I' j k = ref V I j k;
  ap_meta x : x < 58 -> V' x = V x;
  ap_fb : mk_freeblock s' + Z.of_nat (cost off) = mk_freeblock s + Z.of_nat (cost (off + length l));
  ap_fi : mk_freeinode s' = mk_freeinode s }.

Lemma appended_nil s V I T ip i off : fsok s V I T -> ip ∈ T -> I !! ip = Some i -> shape V I ip off -> appended s V I s V I T ip i off [].
Proof.
  intros Hs Hip Hi Hsh. constructor; try done; cbn [length]; rewrite ?Nat.add_0_r; try done.
  - exists 0%nat. apply written_nil; [apply Hs|done].
  - exists (i_addrs i). by rewrite set_i_addrs_id.
Qed.

Lemma appended_app s V I s1 V1 I1 s2 V2 I2 T ip i a off l1 l2 : ip ∈ T -> appended s V I s1 V1 I1 T ip i off l1 ->
  I1 !! ip = Some (set_i_addrs a i) -> appended s1 V1 I1 s2 V2 I2 T ip (set_i_addrs a i) (off + length l1) l2 -> appended s V I s2 V2 I2 T ip i off (l1 ++ l2).
Proof.
  intros Hip [K1 [c1 W1] S1 _ O1 M1 B1 F1] Hi1 [K2 [c2 W2] S2 [a2 N2] O2 M2 B2 F2]. constructor; rewrite ?length_app, ?Nat.add_assoc; try done.
  - exists (c1 + c2)%nat. eapply written_app; [done|exact W1|exact W2].
  - by exists a2.
  - intros j Hj Hne. destruct (O1 j Hj Hne) as [E1 R1], (O2 j Hj Hne) as [E2 R2]. split; [congruence|]. intros k Hk. by rewrite R2, R1.
  - intros x Hx. by rewrite M2, M1.
  - lia.
  - congruence.
Qed.

(** An inode whose references are the same is the same. *)
Lemma other_inode V I V' I' T c j : grown V I V' I' T c -> finv V I T -> j ∈ T -> (forall k, (k <= 12)%nat -> ref V' I' j k = ref V I j k) -> I' !! j = I !! j.
Proof.
  intros Hg Hf Hj Hr. destruct (fv_ino _ _ _ _ _ Hf j Hj) as (i & Hi & Hok). destruct (gr_ino _ _ _ _ _ _ _ _ Hg j i Hi) as [l Hl]. rewrite Hl, Hi. f_equal.
  destruct (fv_ino _ _ _ _ _ (gr_finv _ _ _ _ _ _ _ _ Hg) j Hj) as (i' & Hi' & Hok'). rewrite Hl in Hi'. injection Hi' as <-.
  rewrite <- (set_i_addrs_id i) at 2. f_equal. pose proof (io_addrs _ _ Hok) as L1. pose proof (io_addrs _ _ Hok') as L2. cbn in L2. apply (nth_ext _ _ 0 0); [lia|].
  intros k Hk. rewrite (nth_addrs V I j i k Hi) by lia. rewrite <- Hr by lia. change l with (i_addrs (set_i_addrs l i)). by apply (nth_addrs V' I' j); [|lia].
Qed.

(** The bytes of one block. *)
Lemma append_round s V I T ip i off l {A} (k : dinode -> M mkst A) (Q : A -> mkst -> Prop) :
  fsok s V I T -> ip ∈ T -> I !! ip = Some i -> shape V I ip off -> (0 < length l)%nat -> (off mod 512 + length l <= 512)%nat -> (off + length l <= 512 * 140)%nat ->
  mk_freeblock s + Z.of_nat (cost (off + length l)) <= 1000 + Z.of_nat (cost off) ->
  (forall s' V' I' a, appended s V I s' V' I' T ip i off l -> I' !! ip = Some (set_i_addrs a i) -> wp (k (din_of (set_i_addrs a i))) Q s') ->
  wp (let! r := iappend_block false (din_of i) (Z.of_nat (off / 512)) in
      let '(din, x) := r in
      let! buf := rsect x in
      wsect x (put_bytes buf (off mod 512) l) ;;;
      k din) Q s.
Proof.
  intros Hs Hip Hi Hsh Hl Hr Hmax Hfb Hk. pose proof (Nat.div_mod_eq off 512) as Eo. assert (off / 512 < 140)%nat as Hm by lia.
  pose proof (needs_cost V I ip off (length l) Hsh Hm Hl Hr) as Hc. apply wp_bind.
  eapply wp_mono; [apply (iappend_block_spec s V I T ip i (off / 512)); (done || lia)|]. intros r s1 (V1 & I1 & i1 & E1 & F1 & Hi1 & ->). cbn beta iota.
  set (m := (off / 512)%nat) in *. destruct (ex_grown _ _ _ _ _ _ _ _ E1) as [c Hg]. pose proof (gr_finv _ _ _ _ _ _ _ _ Hg) as Hf1.
  destruct F1 as (R1 & Hn & R12). destruct (place_le m Hm) as [Hp _]. pose proof (ref_bounds s1 V1 I1 T ip (place m) E1 Hip Hp Hn) as Hb.
  pose proof (sh_fb _ _ (ok_shows _ _ _ _ (ex_ok _ _ _ _ _ _ _ _ E1))) as Hfb1. set (a := ref V1 I1 ip (place m)) in *.
  apply wp_bind. eapply (rsect_spec s1 V1); [apply E1|lia|lia|]. apply wp_bind. eapply (wsect_spec s1 V1); [apply E1|lia|lia|]. intros s2 S2 B2 N2.
  pose proof (written_block mkfs_geom mkfs_sb V I V1 I1 T ip off l c i Hip Hi Hg Hm Hr Hl Hn) as Hw. cbv zeta in Hw. fold m a in Hw.
  set (V2 := vupd V1 a (put_bytes (V1 a) (off mod 512) l)) in *.
  assert (forall ip' k', ip' ∈ T -> (k' <= 140)%nat -> ref V2 I1 ip' k' = ref V1 I1 ip' k') as R2.
  { intros. apply (ref_contents mkfs_geom mkfs_sb V1 I1 T ip m); try done. rewrite length_put_bytes. apply (fv_len _ _ _ _ _ Hf1).
    by destruct (contents_data mkfs_geom mkfs_sb V1 I1 T ip m Hf1 Hip Hm Hn) as [(_ & ? & _) _]. }
  destruct (gr_ino _ _ _ _ _ _ _ _ Hg ip i Hi) as [ad Had]. assert (i1 = set_i_addrs ad i) as -> by congruence.
  apply (Hk s2 V2 I1 ad); [|done]. constructor.
  - constructor; [exact S2|exact (wn_finv _ _ _ _ _ _ _ _ _ _ _ _ Hw)|]. intros ip' k' Hip' Hk'. rewrite R2 by done. by apply E1.
  - by exists c.
  - apply (shape_filled V I V2 I1 T); try done. split_and!; rewrite ?R2 by (done || lia); try done.
    intros ip' k' Hip' Hk' Hne. rewrite R2 by done. by apply R1.
  - by exists ad.
  - intros j Hj Hne. assert (forall k', (k' <= 140)%nat -> ref V1 I1 j k' = ref V I j k') as Rj.
    { intros k' Hk'. destruct (R1 j k' Hj Hk') as [[_ [= -> _]]|E]; [by intros [= -> _]|done|done]. }
    split; [|intros k' Hk'; rewrite R2 by done; by apply Rj]. eapply (other_inode V I V1 I1 T c j); [done|apply Hs|done|]. intros k' Hk'. apply Rj. lia.
  - intros x Hx. unfold V2, vupd. rewrite decide_False by lia. by apply (ex_meta _ _ _ _ _ _ _ _ E1).
  - rewrite B2, (ex_fb _ _ _ _ _ _ _ _ E1). lia.
  - rewrite N2. apply (ex_fi _ _ _ _ _ _ _ _ E1).
Qed.

Lemma cost_mono a b : (a <= b)%nat -> (cost a <= cost b)%nat.
Proof.
  intros Hab. unfold cost. assert (nblocks a <= nblocks b)%nat as Hn by (apply Nat.Div0.div_le_mono; lia).
  destruct (Nat.ltb_spec 12 (nblocks a)), (Nat.ltb_spec 12 (nblocks b)); lia.
Qed.

(** The loop of iappend. *)
Lemma iappend_loop s V I T ip i off p : fsok s V I T -> ip ∈ T -> I !! ip = Some i -> shape V I ip off -> (off + length p <= 512 * 140)%nat ->
  mk_freeblock s + Z.of_nat (cost (off + length p)) <= 1000 + Z.of_nat (cost off) ->
  wp (loop (S (length p)) (iappend_body false) (din_of i, Z.of_nat off, p)) (fun r s' => exists V' I' a, appended s V I s' V' I' T ip i off p /\
    I' !! ip = Some (set_i_addrs a i) /\ r = (din_of (set_i_addrs a i), Z.of_nat (off + length p))) s.
Proof.
  intros Hs Hip Hi Hsh Hmax Hfb.
  apply (wp_loop (fun n st s' => exists l rest V' I' a, st = (din_of (set_i_addrs a i), Z.of_nat (off + length l), rest) /\ p = l ++ rest /\ n = length rest /\
    appended s V I s' V' I' T ip i off l /\ I' !! ip = Some (set_i_addrs a i))) with (n := length p); [|lia|].
  2:{ exists [], p, V, I, (i_addrs i). rewrite set_i_addrs_id. cbn [length]. rewrite Nat.add_0_r. split_and!; [done..|by apply appended_nil|done]. }
  intros n st s1 (l & rest & V1 & I1 & a & -> & Ep & -> & Ha & Hi1). unfold iappend_body.
  assert (length p = length l + length rest)%nat as El by (by rewrite Ep, length_app). destruct (decide (rest = [])) as [->|Hne].
  { rewrite app_nil_r in Ep. subst l. apply wp_ret. by exists V1, I1, a. }
  assert (0 < length rest)%nat as Hrest by (destruct rest; [done|simpl; lia]). rewrite (proj2 (Z.ltb_lt 0 _)) by lia. cbn [negb].
  unfold BSIZE, MAXFILE. change 512 with (Z.of_nat 512). rewrite <- Nat2Z.inj_div.
  pose proof (Nat.div_mod_eq (off + length l) 512) as Edm. pose proof (Nat.mod_upper_bound (off + length l) 512 ltac:(lia)) as Emod.
  set (q := ((off + length l) / 512)%nat) in *. set (r := ((off + length l) mod 512)%nat) in *. rewrite (proj2 (Z.ltb_lt _ 140)) by lia. cbn [negb].
  set (n1 := Nat.min (length rest) (512 - r)). rewrite (u32_small ((Z.of_nat q + 1) * Z.of_nat 512 - Z.of_nat (off + length l))) by lia.
  replace (Z.min _ _) with (Z.of_nat n1) by lia. rewrite (u32_small (Z.of_nat (off + length l) - Z.of_nat q * Z.of_nat 512)) by lia.
  replace (Z.to_nat (Z.of_nat (off + length l) - Z.of_nat q * Z.of_nat 512)) with r by lia. rewrite Nat2Z.id, u32_small by lia.
  assert (length (take n1 rest) = n1) as En1 by (rewrite length_take; lia). pose proof (ap_fb _ _ _ _ _ _ _ _ _ _ _ Ha) as Hb1.
  assert (cost (off + length l + n1) <= cost (off + length p))%nat as Hcm by (apply cost_mono; lia).
  pose proof (append_round s1 V1 I1 T ip (set_i_addrs a i) (off + length l) (take n1 rest)
    (fun din => ret (inl (din, Z.of_nat (off + length l) + Z.of_nat n1, drop n1 rest) : dinode * Z * list Z + dinode * Z))) as Hround. fold q r in Hround. rewrite En1 in Hround.
  apply Hround; [apply Ha|done|done|apply Ha|lia|lia|lia|lia|]. intros s2 V2 I2 a2 Ha2 Hi2. apply wp_ret. exists (length (drop n1 rest)). split; [rewrite length_drop; lia|].
  exists (l ++ take n1 rest), (drop n1 rest), V2, I2, a2. split_and!.
  - rewrite length_app, En1. repeat f_equal; lia.
  - by rewrite <- app_assoc, take_drop.
  - done.
  - by eapply appended_app.
  - exact Hi2.
Qed.
