(* ===== verification/MkfsInv.v ===== *)
(** * The invariant of mkfs

    Between two steps of mkfs: the files made so far, each with the type and the bytes it was given,
    on the image as the kernel sees it; ialloc adds an empty file, iappend adds bytes to one, and the
    blocks in use are counted exactly. *)
From Stdlib Require Import ZArith Lia.
From stdpp Require Import base list numbers strings.
From S2P Require Import Prelude Block Bio Log Tx Fs FsInv FsSpec Mkfs MkfsSpec.
Import Prelude Fs FsSpec Mkfs.
Local Open Scope Z_scope.

Local Abbreviation finv := (finv mkfs_geom mkfs_sb).
Local Abbreviation written := (written mkfs_geom mkfs_sb).

(** ** Inodes on the image *)

Definition on_disk (V : Z -> list Z) (ip : nat) (i : inode) : Prop :=
  dinode_at false (V (IBLOCK (Z.of_nat ip) mkfs_sb)) (dino_off (Z.of_nat ip)) = din_of i.

(** The blocks after a write of an inode. *)
Definition vinode (V : Z -> list Z) (ip : nat) (d : dinode) : Z -> list Z :=
  let x := IBLOCK (Z.of_nat ip) mkfs_sb in vupd V x (put_bytes (V x) (dino_off (Z.of_nat ip)) (dinode_bytes false d)).

Lemma dino_off_lt n : (dino_off n + 64 <= 512)%nat.
Proof. unfold dino_off, IPB. pose proof (Z.mod_pos_bound n 8). lia. Qed.

Lemma winode_spec s V ip d (Q : unit -> mkst -> Prop) : shows s V -> (ip < 200)%nat ->
  (forall s', shows s' (vinode V ip d) -> mk_freeblock s' = mk_freeblock s -> mk_freeinode s' = mk_freeinode s -> Q tt s') ->
  wp (winode false (Z.of_nat ip) d) Q s.
Proof.
  intros Hs Hip HQ. destruct (mkfs_IBLOCK (Z.of_nat ip)) as [_ Hr]; [unfold inum_ok; cbn; lia|]. pose proof (sh_fb _ _ Hs).
  unfold winode. apply wp_bind, wp_gets. rewrite (sh_sb _ _ Hs). apply wp_bind. eapply rsect_spec; [done|lia|lia|].
  eapply (wsect_spec s V); [done|lia|lia|]. intros s' S' B' F'. by apply HQ.
Qed.

Lemma rinode_spec s V ip i (Q : dinode -> mkst -> Prop) : shows s V -> (ip < 200)%nat -> on_disk V ip i -> Q (din_of i) s ->
  wp (rinode false (Z.of_nat ip)) Q s.
Proof.
  intros Hs Hip Hi HQ. destruct (mkfs_IBLOCK (Z.of_nat ip)) as [_ Hr]; [unfold inum_ok; cbn; lia|].
  unfold rinode. apply wp_bind, wp_gets. rewrite (sh_sb _ _ Hs). apply wp_bind. eapply rsect_spec; [done|lia|lia|]. apply wp_ret. by rewrite Hi.
Qed.

Lemma on_disk_same V ip i : (ip < 200)%nat -> dinode_ok (din_of i) -> length (V (IBLOCK (Z.of_nat ip) mkfs_sb)) = 512%nat -> on_disk (vinode V ip (din_of i)) ip i.
Proof.
  intros Hip Hok Hl. unfold on_disk, vinode, vupd. rewrite decide_True by done. apply dinode_put_at; [done|]. rewrite Hl. apply dino_off_lt.
Qed.

Lemma on_disk_other V ip d j i : (ip < 200)%nat -> (j < 200)%nat -> length (din_addrs d) = 13%nat -> j <> ip -> on_disk V j i -> on_disk (vinode V ip d) j i.
Proof.
  intros Hip Hj Hd Hne. unfold on_disk, vinode, vupd. destruct (mkfs_IBLOCK (Z.of_nat ip)) as [E1 _]; [unfold inum_ok; cbn; lia|].
  destruct (mkfs_IBLOCK (Z.of_nat j)) as [E2 _]; [unfold inum_ok; cbn; lia|]. case_decide as E; [|done]. rewrite E. intros <-.
  apply dinode_put_out; [by apply length_dinode_bytes|]. rewrite E1, E2 in E. unfold dino_off, IPB. pose proof (Z.mod_pos_bound (Z.of_nat j) 8). pose proof (Z.mod_pos_bound (Z.of_nat ip) 8).
  pose proof (Z.div_mod (Z.of_nat j) 8). pose proof (Z.div_mod (Z.of_nat ip) 8). lia.
Qed.

Lemma vinode_meta V ip d x : (ip < 200)%nat -> (x < 32 \/ 57 < x) -> vinode V ip d x = V x.
Proof.
  intros Hip Hx. destruct (mkfs_IBLOCK (Z.of_nat ip)) as [_ Hr]; [unfold inum_ok; cbn; lia|]. unfold vinode, vupd. by rewrite decide_False by lia.
Qed.

Lemma fsok_vinode s s' V I T ip d : fsok s V I T -> (ip < 200)%nat -> shows s' (vinode V ip d) -> 
  fsok s' (vinode V ip d) I T /\ (forall j k, j ∈ T -> (k <= 140)%nat -> ref (vinode V ip d) I j k = ref V I j k) /\
  (forall j m, j ∈ T -> (m < 140)%nat -> dat (vinode V ip d) I j m = dat V I j m).
Proof.
  intros Hs Hip Hs'. assert (inum_ok mkfs_sb (Z.of_nat ip)) as Hin by (unfold inum_ok; cbn; lia). destruct (mkfs_IBLOCK _ Hin) as [_ Hr].
  destruct (meta_frame mkfs_geom mkfs_sb V I T (IBLOCK (Z.of_nat ip) mkfs_sb) (put_bytes (V (IBLOCK (Z.of_nat ip) mkfs_sb)) (dino_off (Z.of_nat ip)) (dinode_bytes false d)))
    as (F1 & F2 & F3).
  - apply Hs.
  - intros (_ & _ & _ & Hx). by apply (Hx _ Hin).
  - intros c Hc. rewrite mkfs_BBLOCK by done. lia.
  - rewrite length_put_bytes. apply (fv_len _ _ _ _ _ (ok_finv _ _ _ _ Hs)). unfold dblk. cbn. lia.
  - split; [|done]. constructor; [done|done|]. intros j k Hj Hk. unfold vinode. rewrite F2 by done. by apply Hs.
Qed.

(** ** The files made so far *)

(** Inode [ip] is [i], of type [t], with the bytes [c]. *)
Record mfile (V : Z -> list Z) (I : list inode) (ip : nat) (i : inode) (t : Z) (c : list Z) : Prop := {
  mf_inum : i_inum i = Z.of_nat ip;
  mf_type : i_type i = t;
  mf_node : i_major i = 0 /\ i_minor i = 0 /\ i_nlink i = 1;
  mf_size : i_size i = Z.of_nat (length c);
  mf_disk : on_disk V ip i;
  mf_shape : shape V I ip (length c);
  mf_bytes pos : (pos < 512 * 140)%nat -> fbyte V I ip pos = nth pos c 0 }.

Definition blocks_of (C : list (Z * list Z)) : nat := list_sum (map (fun e => cost (length e.2)) C).

(** Inode [S k] has type [t] and the bytes [c] when [C !! k] is [(t, c)]. *)
Record minv (s : mkst) (V : Z -> list Z) (I : list inode) (C : list (Z * list Z)) : Prop := {
  mv_ok : fsok s V I (seq 1 (length C));
  mv_fi : mk_freeinode s = Z.of_nat (S (length C));
  mv_len : (S (length C) <= length I)%nat;
  mv_small : (length C < 200)%nat;
  mv_fb : mk_freeblock s = 59 + Z.of_nat (blocks_of C);
  mv_low x : 0 <= x < 32 -> V x = if x =? 1 then put_bytes zeroes 0 (sb_bytes false mkfs_sb) else zeros;
  mv_file k t c : C !! k = Some (t, c) -> exists i, I !! S k = Some i /\ mfile V I (S k) i t c }.

Lemma blocks_of_insert C k t c t' c' : C !! k = Some (t, c) ->
  (blocks_of (<[k := (t', c')]> C) + cost (length c) = blocks_of C + cost (length c'))%nat.
Proof.
  revert k. induction C as [|e C IH]; intros [|k] Hk; [done|done|injection Hk as ->; unfold blocks_of; simpl; lia|]. specialize (IH k Hk).
  change (<[S k := (t', c')]> (e :: C)) with (e :: <[k := (t', c')]> C). unfold blocks_of in *. simpl in *. lia.
Qed.

Lemma elem_seq_inv (C : list (Z * list Z)) k e : C !! k = Some e -> S k ∈ seq 1 (length C).
Proof. intros Hk%lookup_lt_Some. apply elem_of_seq. lia. Qed.

Lemma inode_dinode_ok s V I T ip i : fsok s V I T -> ip ∈ T -> I !! ip = Some i -> -32768 <= i_type i < 32768 -> i_major i = 0 -> i_minor i = 0 -> i_nlink i = 1 ->
  dinode_ok (din_of i).
Proof.
  intros Hs Hip Hi Ht Hma Hmi Hnl. destruct (fv_ino _ _ _ _ _ (ok_finv _ _ _ _ Hs) ip Hip) as (i' & Hi' & [_ _ _ Hl Hsz]). assert (i' = i) as -> by congruence.
  unfold dinode_ok, MAXFILE, BSIZE in *. cbn [din_of din_type din_major din_minor din_nlink din_size din_addrs]. rewrite Hma, Hmi, Hnl. split_and!; try lia.
  apply Forall_lookup. intros k a Ha. pose proof (lookup_lt_Some _ _ _ Ha) as Hk. assert (a = ref V I ip k) as ->.
  { rewrite <- (nth_addrs V I ip i k Hi) by lia. symmetry. by apply nth_lookup_Some. }
  destruct (decide (ref V I ip k = 0)) as [->|Hn]; [lia|]. pose proof (ref_bounds s V I T ip k Hs Hip ltac:(lia) Hn). pose proof (sh_fb _ _ (ok_shows _ _ _ _ Hs)). lia.
Qed.

Lemma fbyte_app c p pos : nth pos (c ++ p) 0 = if decide (length c <= pos < length c + length p)%nat then nth (pos - length c) p 0 else nth pos c 0.
Proof.
  case_decide as E; [by rewrite app_nth2 by lia|]. destruct (decide (pos < length c)%nat) as [H|H]; [by rewrite app_nth1|].
  rewrite app_nth2 by lia. rewrite !nth_overflow by lia. done.
Qed.

Lemma shape_same V I V' I' ip lim : (forall k, (k <= 140)%nat -> ref V' I' ip k = ref V I ip k) -> shape V I ip lim -> shape V' I' ip lim.
Proof.
  intros Hr [H1 H2]. split; [|by rewrite Hr by lia]. intros m Hm. rewrite Hr; [by apply H1|]. by apply place_le.
Qed.

(** Another file, after the bytes of file [ip] changed. *)
Lemma mfile_other V I V' I' j i t c : (forall k, (k <= 140)%nat -> ref V' I' j k = ref V I j k) ->
  (forall pos, (pos < 512 * 140)%nat -> fbyte V' I' j pos = fbyte V I j pos) -> on_disk V' j i -> mfile V I j i t c -> mfile V' I' j i t c.
Proof.
  intros Hr Hb Hd []. constructor; try done; [by eapply shape_same|]. intros pos Hpos. rewrite Hb by done. auto.
Qed.

Lemma written_len V I V' I' T ip off l c z n : written V I V' I' T ip off l c z -> (n <= length I)%nat -> (n <= length I')%nat.
Proof.
  intros Hw Hn. destruct n as [|n]; [lia|]. destruct (lookup_lt_is_Some_2 I n) as [i Hi]; [lia|]. destruct (wn_ino _ _ _ _ _ _ _ _ _ _ _ _ Hw n i Hi) as (i' & Hi' & _).
  apply lookup_lt_Some in Hi'. lia.
Qed.

(** The inode is written back with the size [z]. *)
Section append.
Context (s s1 s2 : mkst) (V V1 : Z -> list Z) (I I1 : list inode) (C : list (Z * list Z)) (k : nat) (t : Z) (c p : list Z) (i : inode) (a : list Z) (z : Z).
Let T := seq 1 (length C).
Let ip := S k.
Let i2 := set_i_size z (set_i_addrs a i).
Let V2 := vinode V1 ip (din_of i2).
Let I2 := <[ip := i2]> I1.
Context (Hv : minv s V I C) (Hk : C !! k = Some (t, c)) (Ht : -32768 <= t < 32768) (Hz : 0 <= z <= 512 * 140).
Context (Hi : I !! ip = Some i) (Hm : mfile V I ip i t c) (Ha : appended s V I s1 V1 I1 T ip i (length c) p) (Hi1 : I1 !! ip = Some (set_i_addrs a i)).
Context (S2 : shows s2 V2) (B2 : mk_freeblock s2 = mk_freeblock s1) (F2 : mk_freeinode s2 = mk_freeinode s1).

Lemma append_in : ip ∈ T /\ (forall j, j ∈ T -> (j < 200)%nat).
Proof.
  pose proof (mv_small _ _ _ _ Hv). split; [by eapply elem_seq_inv|]. intros j Hj%elem_of_seq. lia.
Qed.

Lemma append_frame : fsok s2 V2 I2 T /\ (forall j q, j ∈ T -> (q <= 140)%nat -> ref V2 I2 j q = ref V1 I1 j q) /\
  (forall j pos, j ∈ T -> (pos < 512 * 140)%nat -> fbyte V2 I2 j pos = fbyte V1 I1 j pos).
Proof.
  destruct append_in as [Hip H200]. destruct (fsok_vinode s1 s2 V1 I1 T ip (din_of i2) Ha (H200 _ Hip) S2) as (K2 & R2 & D2).
  assert (same_blocks mkfs_sb I1 I2 T) as Hsb.
  { destruct (fv_ino _ _ _ _ _ (ok_finv _ _ _ _ K2) ip Hip) as (i' & Hi' & [O1 O2 O3 O4 O5]). assert (i' = set_i_addrs a i) as -> by congruence.
    eapply same_blocks_update; [apply Ha|exact Hi1|done|]. constructor; try done. }
  destruct (same_blocks_frame mkfs_geom mkfs_sb V2 I1 I2 T (ok_finv _ _ _ _ K2) Hsb) as (F3 & R3 & D3). split_and!.
  - constructor; [done|done|]. intros j q Hj Hq. rewrite R3 by done. by apply K2.
  - intros j q Hj Hq. rewrite R3 by done. by apply R2.
  - intros j pos Hj Hpos. unfold fbyte. rewrite D3 by done. unfold V2. rewrite D2; [done|done|apply Nat.Div0.div_lt_upper_bound; lia].
Qed.

Lemma append_ino : I2 !! ip = Some i2.
Proof. apply list_lookup_insert_eq. by eapply lookup_lt_Some. Qed.

Lemma append_dinode_ok : dinode_ok (din_of i2).
Proof.
  destruct append_in as [Hip _], append_frame as [K _]. destruct Hm as [_ M2 (M3 & M4 & M5) _ _ _ _].
  apply (inode_dinode_ok s2 V2 I2 T ip); [done|done|apply append_ino|cbn; lia|done..].
Qed.

Lemma append_bytes j pos : j ∈ T -> (pos < 512 * 140)%nat ->
  fbyte V2 I2 j pos = if decide (j = ip /\ length c <= pos < length c + length p)%nat then nth (pos - length c) p 0 else fbyte V I j pos.
Proof.
  intros Hj Hpos. destruct append_frame as (_ & _ & B). rewrite B by done. destruct (ap_written _ _ _ _ _ _ _ _ _ _ _ Ha) as [n Hw].
  by apply (wn_bytes _ _ _ _ _ _ _ _ _ _ _ _ Hw).
Qed.

Lemma append_this : z = Z.of_nat (length c + length p) -> mfile V2 I2 ip i2 t (c ++ p).
Proof.
  intros Ez. destruct append_in as [Hip H200], append_frame as (K & R & _). pose proof Hm as [M1 M2 M3 M4 M5 M6 M7]. constructor; try done.
  - cbn. rewrite Ez. rewrite length_app. done.
  - apply on_disk_same; [by apply H200|exact append_dinode_ok|]. apply (fv_len _ _ _ _ _ (ok_finv _ _ _ _ (ap_ok _ _ _ _ _ _ _ _ _ _ _ Ha))).
    apply mkfs_layout. unfold inum_ok. cbn. specialize (H200 _ Hip). lia.
  - rewrite length_app. eapply shape_same; [|apply Ha]. intros q Hq. by apply R.
  - intros pos Hpos. rewrite append_bytes, fbyte_app, M7 by done.
    destruct (decide (length c <= pos < length c + length p)%nat); [by rewrite decide_True|by rewrite decide_False by tauto].
Qed.

Lemma append_other j i' t' c' : j ∈ T -> j <> ip -> I !! j = Some i' -> mfile V I j i' t' c' -> I2 !! j = Some i' /\ mfile V2 I2 j i' t' c'.
Proof.
  intros Hj Hne Hi' Hm'. destruct append_in as [Hip H200], append_frame as (K & R & _). destruct (ap_other _ _ _ _ _ _ _ _ _ _ _ Ha j Hj Hne) as [Ej Rj].
  split; [unfold I2; rewrite list_lookup_insert_ne by done; congruence|]. eapply (mfile_other V I); [| | |exact Hm'].
  - intros q Hq. rewrite R by done. by apply Rj.
  - intros pos Hpos. rewrite append_bytes by done. by rewrite decide_False by tauto.
  - apply on_disk_other; [by apply H200|by apply H200|apply append_dinode_ok|done|]. unfold on_disk.
    rewrite (ap_meta _ _ _ _ _ _ _ _ _ _ _ Ha); [apply Hm'|]. pose proof (H200 j Hj). destruct (mkfs_IBLOCK (Z.of_nat j)); [unfold inum_ok; cbn; lia|lia].
Qed.

Lemma append_minv : z = Z.of_nat (length c + length p) -> minv s2 V2 I2 (<[k := (t, c ++ p)]> C).
Proof.
  intros Ez. pose proof append_frame as (K & _ & _). pose proof Hv as [_ V2' V3 V4 V5 V6 V7]. destruct (ap_written _ _ _ _ _ _ _ _ _ _ _ Ha) as [n Hw]. destruct append_in as [Hip H200].
  constructor; rewrite ?length_insert; try done.
  - rewrite F2, (ap_fi _ _ _ _ _ _ _ _ _ _ _ Ha). done.
  - unfold I2. rewrite length_insert. by eapply written_len.
  - rewrite B2. pose proof (ap_fb _ _ _ _ _ _ _ _ _ _ _ Ha). pose proof (blocks_of_insert C k t c t (c ++ p) Hk) as Hbi. rewrite length_app in Hbi. lia.
  - intros x Hx. unfold V2. rewrite vinode_meta by (lia || by apply H200). rewrite (ap_meta _ _ _ _ _ _ _ _ _ _ _ Ha) by lia. by apply V6.
  - intros k' t' c' Hk'. destruct (decide (k' = k)) as [->|Hne].
    + rewrite list_lookup_insert_eq in Hk' by (by eapply lookup_lt_Some). injection Hk' as <- <-. exists i2. split; [apply append_ino|by apply append_this].
    + rewrite list_lookup_insert_ne in Hk' by done. destruct (V7 k' t' c' Hk') as (i' & Hi' & Hm'). exists i'.
      apply append_other; [by eapply elem_seq_inv|unfold ip; lia|done|done].
Qed.

End append.

Lemma iappend_spec s V I C k t c p : minv s V I C -> C !! k = Some (t, c) -> -32768 <= t < 32768 -> (length c + length p <= 512 * 140)%nat ->
  mk_freeblock s + Z.of_nat (cost (length c + length p)) <= 1000 + Z.of_nat (cost (length c)) ->
  wp (iappend false (Z.of_nat (S k)) p) (fun _ s' => exists V' I', minv s' V' I' (<[k := (t, c ++ p)]> C)) s.
Proof.
  intros Hv Hk Ht Hmax Hroom. destruct (mv_file _ _ _ _ Hv k t c Hk) as (i & Hi & Hm). pose proof (lookup_lt_Some _ _ _ Hk) as Hkl. pose proof (mv_small _ _ _ _ Hv).
  pose proof (mv_ok _ _ _ _ Hv) as Hs. unfold iappend. apply wp_bind. eapply rinode_spec; [apply Hs|lia|apply Hm|]. cbn [din_of din_size].
  rewrite (mf_size _ _ _ _ _ _ Hm), xint_le by lia. apply wp_bind.
  eapply wp_mono; [apply (iappend_loop s V I (seq 1 (length C)) (S k) i (length c) p); try done; [by eapply elem_seq_inv|apply Hm]|].
  intros r s1 (V1 & I1 & a & Ha & Hi1 & ->). cbn [fst snd]. rewrite xint_le by lia.
  eapply winode_spec; [apply Ha|lia|]. intros s2 S2 B2 F2. eexists _, _.
  eapply (append_minv s s1 s2 V V1 I I1 C k t c p i a (Z.of_nat (length c + length p))); try done. lia.
Qed.

(** ** A new inode *)

Definition new_inode (n : nat) (t : Z) : inode := mkInode 1 (Z.of_nat n) 0 (mkSleeplock false false "inode" 0 0) false t 0 0 1 0 (replicate 13 0).

Lemma ref_replicate V I ip i k : I !! ip = Some i -> i_addrs i = replicate 13 0 -> ref V I ip k = 0.
Proof.
  intros Hi Ha. unfold ref. rewrite Hi, Ha. assert (forall q, nth q (replicate 13 0) 0 = 0) as E.
  { intros q. rewrite nth_lookup. destruct (replicate 13 0 !! q) eqn:Eq; [|done]. by apply lookup_replicate in Eq as [-> _]. }
  rewrite !E. by case_match.
Qed.

(** A file without blocks is added. *)
Lemma finv_new V I I' n t : finv V I (seq 1 n) -> (S n < 200)%nat -> t <> T_DEV -> (forall j, j ∈ seq 1 n -> I' !! j = I !! j) -> I' !! S n = Some (new_inode (S n) t) ->
  finv V I' (seq 1 (S n)).
Proof.
  intros Hf Hn Ht Hold Hnew.
  assert (forall j q, j ∈ seq 1 n -> ref V I' j q = ref V I j q) as Ro by (intros j q Hj; unfold ref; by rewrite Hold).
  assert (forall q, ref V I' (S n) q = 0) as Rn by (intros q; by apply (ref_replicate V I' (S n) _ q Hnew)).
  assert (forall j, j ∈ seq 1 (S n) -> j ∈ seq 1 n \/ j = S n) as Hin by (intros j; rewrite !elem_of_seq; lia).
  constructor; [apply Hf|apply Hf| | |].
  - intros j [Hj| ->]%Hin; [rewrite Hold by done; by apply Hf|]. exists (new_inode (S n) t). split; [done|]. constructor; try done. unfold inum_ok. cbn. lia.
  - intros j q [Hj| ->]%Hin Hq; [rewrite Ro by done; by apply Hf|by rewrite Rn].
  - intros j q j' q' Hj Hj' Hq Hq' Hnz. apply Hin in Hj as [Hj| ->]; [|by rewrite Rn in Hnz]. apply Hin in Hj' as [Hj'| ->].
    + rewrite Ro in * by done. intros E. rewrite Ro in E by done. by apply (fv_inj _ _ _ _ _ Hf).
    + rewrite Rn. done.
Qed.

Lemma fbyte_none V I ip pos : (forall k, ref V I ip k = 0) -> fbyte V I ip pos = 0.
Proof.
  intros Hr. unfold fbyte, dat. rewrite Hr. cbn [Z.eqb]. rewrite nth_lookup. destruct (zeros !! _) eqn:E; [|done]. by apply lookup_replicate in E as [-> _].
Qed.

Lemma shape_none V I ip : (forall k, ref V I ip k = 0) -> shape V I ip 0.
Proof. intros Hr. split; [intros m _|]; rewrite Hr; lia. Qed.

Lemma fbyte_same V I V' I' ip pos : (pos < 512 * 140)%nat -> (forall m, (m < 140)%nat -> dat V' I' ip m = dat V I ip m) -> fbyte V' I' ip pos = fbyte V I ip pos.
Proof. intros Hp Hd. unfold fbyte. rewrite Hd; [done|]. apply Nat.Div0.div_lt_upper_bound. lia. Qed.

Lemma blocks_of_snoc C t : blocks_of (C ++ [(t, [])]) = blocks_of C.
Proof. unfold blocks_of. rewrite map_app, list_sum_app. simpl. change (cost 0) with 0%nat. lia. Qed.

Section new.
Context (s s2 : mkst) (V : Z -> list Z) (I : list inode) (C : list (Z * list Z)) (t : Z).
Let n := length C.
Let i := new_inode (S n) t.
Let V2 := vinode V (S n) (din_of i).
Let I2 := take (S n) I ++ [i].
Context (Hv : minv s V I C) (Hn : (S n < 200)%nat) (Ht : 0 <= t < 32768) (HtD : t <> T_DEV).
Context (S2 : shows s2 V2) (B2 : mk_freeblock s2 = mk_freeblock s) (F2 : mk_freeinode s2 = Z.of_nat (S (S n))).

Lemma new_lookup : I2 !! S n = Some i /\ (forall j, (j <= n)%nat -> I2 !! j = I !! j) /\ length I2 = S (S n).
Proof.
  pose proof (mv_len _ _ _ _ Hv) as Hl. fold n in Hl. assert (length (take (S n) I) = S n) as Et by (rewrite length_take; lia). unfold I2. split_and!.
  - by rewrite lookup_app_r, Et, Nat.sub_diag by lia.
  - intros j Hj. rewrite lookup_app_l by lia. apply lookup_take_lt. lia.
  - rewrite length_app, Et. simpl. lia.
Qed.

Lemma new_frame : fsok s2 V2 I2 (seq 1 (S n)) /\ (forall j q, j ∈ seq 1 n -> (q <= 140)%nat -> ref V2 I2 j q = ref V I j q) /\
  (forall j m, j ∈ seq 1 n -> (m < 140)%nat -> dat V2 I2 j m = dat V I j m) /\ (forall q, ref V2 I2 (S n) q = 0).
Proof.
  destruct new_lookup as (L1 & L2 & _). destruct (fsok_vinode s s2 V I (seq 1 n) (S n) (din_of i) (mv_ok _ _ _ _ Hv) Hn S2) as (K & R & D). fold V2 in K, R, D.
  assert (forall j q, j ∈ seq 1 n -> ref V2 I2 j q = ref V2 I j q) as Ro.
  { intros j q Hj%elem_of_seq. unfold ref. by rewrite L2 by lia. }
  assert (forall q, ref V2 I2 (S n) q = 0) as Rn by (intros q; by apply (ref_replicate V2 I2 (S n) i q L1)). split_and!.
  - constructor; [done| |].
    + apply (finv_new V2 I I2 n t); [apply K|done|done| |done]. intros j Hj%elem_of_seq. apply L2. lia.
    + intros j q Hj Hq. destruct (decide (j = S n)) as [->|Hne]; [by rewrite Rn|]. assert (j ∈ seq 1 n) as Hj' by (apply elem_of_seq in Hj; apply elem_of_seq; lia).
      rewrite Ro by done. by apply K.
  - intros j q Hj Hq. rewrite Ro by done. by apply R.
  - intros j m Hj Hm. rewrite <- D by done. unfold dat. by rewrite Ro.
  - done.
Qed.

Lemma new_minv : minv s2 V2 I2 (C ++ [(t, [])]).
Proof.
  destruct new_lookup as (L1 & L2 & L3), new_frame as (K & R & D & Rn). pose proof Hv as [V1 _ _ V4 V5 V6 V7].
  constructor; rewrite ?length_app; cbn [length]; rewrite ?Nat.add_1_r; try done.
  - lia.
  - rewrite B2, blocks_of_snoc. done.
  - intros x Hx. unfold V2. rewrite vinode_meta by lia. by apply V6.
  - intros k t' c' Hk. destruct (decide (k < n)%nat) as [Hlt|Hge].
    + rewrite lookup_app_l in Hk by done. destruct (V7 k t' c' Hk) as (i' & Hi' & Hm'). assert (S k ∈ seq 1 n) as Hj by (apply elem_of_seq; lia).
      exists i'. split; [by rewrite L2|]. eapply (mfile_other V I); [intros; by apply R| | |exact Hm'].
      * intros pos Hpos. apply fbyte_same; [done|]. intros m Hm. by apply D.
      * apply on_disk_other; [done|lia|done|lia|apply Hm'].
    + rewrite lookup_app_r in Hk by lia. apply list_lookup_singleton_Some in Hk as [Hk [= <- <-]]. assert (k = n) as -> by lia. exists i. split; [done|].
      constructor; try done.
      * apply on_disk_same; [done| |].
        { eapply (inode_dinode_ok s2 V2 I2 (seq 1 (S n)) (S n)); [done|apply elem_of_seq; lia|done|cbn; lia|done..]. }
        apply (fv_len _ _ _ _ _ (ok_finv _ _ _ _ V1)), mkfs_layout. unfold inum_ok. cbn. lia.
      * by apply shape_none.
      * intros pos Hpos. rewrite fbyte_none by done. by destruct pos.
Qed.

End new.

Lemma xshort_le x : 0 <= x < 65536 -> xshort false x = x.
Proof.
  intros Hx. unfold xshort, host16, get16, byte. cbn [nth Nat.add]. rewrite Z.shiftr_div_pow2 by lia. change (2 ^ 8) with 256. rewrite !Zmod_mod.
  Z.to_euclidean_division_equations; lia.
Qed.

Lemma ialloc_spec s V I C t : minv s V I C -> (S (length C) < 200)%nat -> 0 <= t < 32768 -> t <> T_DEV ->
  wp (ialloc false t) (fun r s' => r = Z.of_nat (S (length C)) /\ exists V' I', minv s' V' I' (C ++ [(t, [])])) s.
Proof.
  intros Hv Hn Ht HtD. unfold ialloc. apply wp_bind, wp_gets. rewrite (mv_fi _ _ _ _ Hv). apply wp_bind, wp_modify, wp_bind. rewrite u32_small by lia.
  rewrite !xshort_le by lia. assert (i16 t = t) as -> by (unfold i16; rewrite Z.mod_small by lia; by rewrite (proj2 (Z.ltb_lt _ _)) by lia).
  eapply (winode_spec _ V); [|done|].
  - destruct (ok_shows _ _ _ _ (mv_ok _ _ _ _ Hv)). by constructor.
  - intros s' S' B' F'. apply wp_ret. split; [done|]. eexists _, _. eapply (new_minv s s' V I C t); try done.
    rewrite F'. cbn [mk_freeinode set_mk_freeinode]. lia.
Qed.

(** ** The files of the command line *)

Lemma blocks_of_prefix C k t c c1 c2 : C !! k = Some (t, c) -> (length c1 <= length c2)%nat ->
  (blocks_of (<[k := (t, c1)]> C) <= blocks_of (<[k := (t, c2)]> C))%nat.
Proof.
  intros Hk Hl. pose proof (blocks_of_insert C k t c t c1 Hk). pose proof (blocks_of_insert C k t c t c2 Hk). pose proof (cost_mono _ _ Hl). lia.
Qed.

(** iappend, with the room for what it makes. *)
Lemma iappend_room s V I C k t c p : minv s V I C -> C !! k = Some (t, c) -> -32768 <= t < 32768 -> (length c + length p <= 512 * 140)%nat ->
  (59 + blocks_of (<[k := (t, c ++ p)]> C) <= 1000)%nat ->
  wp (iappend false (Z.of_nat (S k)) p) (fun _ s' => exists V' I', minv s' V' I' (<[k := (t, c ++ p)]> C)) s.
Proof.
  intros Hv Hk Ht Hmax Hroom. eapply iappend_spec; try done. rewrite (mv_fb _ _ _ _ Hv). pose proof (blocks_of_insert C k t c t (c ++ p) Hk) as E.
  rewrite length_app in E. lia.
Qed.

Lemma append_file_spec fuel c : forall s V I C k t c0, (length c < fuel)%nat -> minv s V I C -> C !! k = Some (t, c0) -> -32768 <= t < 32768 ->
  (length c0 + length c <= 512 * 140)%nat -> (59 + blocks_of (<[k := (t, c0 ++ c)]> C) <= 1000)%nat ->
  wp (append_file false fuel (Z.of_nat (S k)) c) (fun _ s' => exists V' I', minv s' V' I' (<[k := (t, c0 ++ c)]> C)) s.
Proof.
  revert c. induction fuel as [|fuel IH]; intros c s V I C k t c0 Hf Hv Hk Ht Hmax Hroom; [lia|]. cbn [append_file].
  destruct (decide (c = [])) as [->|Hne].
  { rewrite app_nil_r, list_insert_id by done. apply wp_skip. by exists V, I. }
  assert (0 < length c)%nat as Hc by (destruct c; [done|simpl; lia]). replace (match c with [] => _ | _ => _ end) with
    (iappend false (Z.of_nat (S k)) (take 512 c) ;;; append_file false fuel (Z.of_nat (S k)) (drop 512 c)) by (by destruct c).
  pose proof (take_drop 512 c) as Etd. set (p := take 512 c) in *. set (c' := drop 512 c) in *. assert (length p = Nat.min 512 (length c)) as Hp by apply length_take.
  assert (length c' = length c - 512)%nat as Hc' by apply length_drop. apply wp_bind. eapply wp_mono; [apply (iappend_room s V I C k t c0 p); try done; [lia|]|].
  { etransitivity; [|exact Hroom]. apply Nat.add_le_mono_l, (blocks_of_prefix C k t c0); [done|]. rewrite !length_app. lia. }
  intros [] s1 (V1 & I1 & H1). assert (k < length C)%nat as Hlt by (by eapply lookup_lt_Some).
  replace (<[k := (t, c0 ++ c)]> C) with (<[k := (t, (c0 ++ p) ++ c')]> (<[k := (t, c0 ++ p)]> C)) in * by (by rewrite list_insert_insert_eq, <- app_assoc, Etd).
  apply (IH c' s1 V1 I1 _ k t (c0 ++ p)); try done; [lia|by apply list_lookup_insert_eq|rewrite length_app; lia].
Qed.

(** The directory and the files: the contents of the image. *)
Definition root_bytes (files : list (list Z * list Z)) : list Z :=
  mk_dirent 1 [46] ++ mk_dirent 1 [46; 46] ++ concat (imap (fun k f => mk_dirent (Z.of_nat (k + 2)) (skip_underscore f.1)) files).
Definition files_of (files : list (list Z * list Z)) : list (Z * list Z) :=
  (T_DIR, root_bytes files) :: map (fun f => (T_FILE, f.2)) files.

Lemma length_strncpy n t : length (strncpy_chars n t) = n.
Proof. revert t. induction n as [|n IH]; intros t; [done|]. cbn [strncpy_chars]. case_match; [apply length_replicate|]. cbn [length]. by rewrite IH. Qed.

Lemma length_mk_dirent n name : length (mk_dirent n name) = 16%nat.
Proof. unfold mk_dirent. rewrite length_app, length_strncpy. done. Qed.

Lemma length_root_bytes files : length (root_bytes files) = (16 * (length files + 2))%nat.
Proof.
  unfold root_bytes. rewrite !length_app, !length_mk_dirent. assert (forall (g : nat -> list Z * list Z -> list Z), (forall k f, length (g k f) = 16%nat) -> length (concat (imap g files)) = (16 * length files)%nat) as ->.
  { induction files as [|f files IH]; intros g Hg; [done|]. rewrite imap_cons. cbn [concat length]. rewrite length_app, Hg, IH by (intros; apply Hg). lia. }
  - lia.
  - intros. apply length_mk_dirent.
Qed.

Lemma root_bytes_snoc files f : root_bytes (files ++ [f]) = root_bytes files ++ mk_dirent (Z.of_nat (length files + 2)) (skip_underscore f.1).
Proof. unfold root_bytes. rewrite imap_app, concat_app, !app_assoc. f_equal. cbn [imap concat compose]. by rewrite app_nil_r, Nat.add_0_r. Qed.

Lemma blocks_files_of files : blocks_of (files_of files) = (cost (16 * (length files + 2)) + list_sum (map (fun f => cost (length f.2)) files))%nat.
Proof. unfold blocks_of, files_of. cbn [map snd list_sum fold_right]. rewrite length_root_bytes, map_map. done. Qed.

(** What a command line must satisfy: names without a slash, files no longer than a file of the
    file system, and room on the disk for the inodes and the blocks. *)
Record fits (files : list (list Z * list Z)) : Prop := {
  fit_names : Forall (fun f => existsb (Z.eqb 47) f.1 = false) files;
  fit_size : Forall (fun f => (length f.2 <= 512 * 140)%nat) files;
  fit_inodes : (length files <= 198)%nat;
  fit_blocks : (59 + blocks_of (files_of files) <= 1000)%nat }.

Lemma fits_app files rest : fits (files ++ rest) -> fits files.
Proof.
  intros [N S I B]. rewrite Forall_app in N, S. rewrite length_app in I. constructor; [apply N|apply S|lia|]. rewrite blocks_files_of in *.
  rewrite map_app, list_sum_app, length_app in B. pose proof (cost_mono (16 * (length files + 2)) (16 * (length files + length rest + 2)) ltac:(lia)). lia.
Qed.

Lemma dirent_le inum name : 0 <= inum < 65536 -> dirent_strncpy false inum name = mk_dirent inum name.
Proof. intros Hi. unfold dirent_strncpy, mk_dirent, mem16. by rewrite xshort_le. Qed.

Lemma insert_snoc {A} (l : list A) x y : <[length l := y]> (l ++ [x]) = l ++ [y].
Proof. induction l as [|a l IH]; [done|]. cbn. by rewrite <- IH. Qed.

Lemma add_file_spec s V I made f : fits (made ++ [f]) -> minv s V I (files_of made) ->
  wp (add_file false 1 (f.1, Some f.2)) (fun _ s' => exists V' I', minv s' V' I' (files_of (made ++ [f]))) s.
Proof.
  intros Hfit Hv. pose proof Hfit as [Hn Hs Hi Hb]. rewrite Forall_app, Forall_singleton in Hn, Hs. destruct Hn as [_ Hn], Hs as [_ Hs]. rewrite length_app in Hi. cbn [length] in Hi.
  rewrite blocks_files_of, length_app, map_app, list_sum_app in Hb. cbn [length map list_sum fold_right] in Hb.
  assert (length (files_of made) = S (length made)) as HC by (unfold files_of; cbn [length]; by rewrite length_map).
  unfold add_file. rewrite Hn. apply wp_bind. eapply wp_mono; [apply (ialloc_spec s V I (files_of made) T_FILE Hv); [lia|done|done]|].
  intros inum s1 (-> & V1 & I1 & H1). rewrite HC. rewrite dirent_le by lia. set (d := mk_dirent _ (skip_underscore f.1)).
  assert (d = mk_dirent (Z.of_nat (length made + 2)) (skip_underscore f.1)) as Ed by (unfold d; do 2 f_equal; lia).
  set (C1 := files_of made ++ [(T_FILE, [])]) in *. set (F := map (fun f : list Z * list Z => (T_FILE, f.2)) made).
  assert (C1 = (T_DIR, root_bytes made) :: F ++ [(T_FILE, [])]) as EC1 by done. assert (C1 !! 0%nat = Some (T_DIR, root_bytes made)) as H0 by done.
  assert (<[0%nat := (T_DIR, root_bytes made ++ d)]> C1 = (T_DIR, root_bytes (made ++ [f])) :: F ++ [(T_FILE, [])]) as E2 by (rewrite root_bytes_snoc, Ed; done).
  assert (length (root_bytes made ++ d) = 16 * (length made + 1 + 2))%nat as Hrl by (rewrite Ed, <- root_bytes_snoc, length_root_bytes, length_app; done).
  apply wp_bind. change 1 with (Z.of_nat 1). eapply wp_mono; [apply (iappend_room s1 V1 I1 C1 0 T_DIR (root_bytes made) d H1 H0); [done| |]|].
  { rewrite length_app in Hrl. lia. }
  { pose proof (blocks_of_insert C1 0 T_DIR _ T_DIR (root_bytes made ++ d) H0) as E. rewrite Hrl, length_root_bytes in E. unfold C1 in E at 2. rewrite blocks_of_snoc, blocks_files_of in E. lia. }
  intros [] s2 (V2 & I2 & H2). rewrite E2 in H2. set (C2 := (T_DIR, root_bytes (made ++ [f])) :: F ++ [(T_FILE, [])]) in *.
  assert (<[S (length made) := (T_FILE, f.2)]> C2 = files_of (made ++ [f])) as E3.
  { unfold files_of, C2. rewrite map_app. cbn [list_insert insert]. f_equal. pose proof (insert_snoc F (T_FILE, []) (T_FILE, f.2)) as E. unfold F in E at 1. rewrite length_map in E. exact E. }
  assert (C2 !! S (length made) = Some (T_FILE, [])) as Hk.
  { change (C2 !! S (length made)) with ((F ++ [(T_FILE, [] : list Z)]) !! length made). assert (length F = length made) as EF by apply length_map.
    by rewrite lookup_app_r, EF, Nat.sub_diag by lia. }
  rewrite <- E3. apply (append_file_spec (S (length f.2)) f.2 s2 V2 I2 C2 (S (length made)) T_FILE []); try done; [lia|].
  cbn [app]. rewrite E3. apply Hfit.
Qed.

Lemma add_files_spec rest : forall s V I made, fits (made ++ rest) -> minv s V I (files_of made) ->
  wp (add_files false 1 (map (fun f => (f.1, Some f.2)) rest)) (fun _ s' => exists V' I', minv s' V' I' (files_of (made ++ rest))) s.
Proof.
  induction rest as [|f rest IH]; intros s V I made Hfit Hv; cbn [map add_files].
  - rewrite app_nil_r. apply wp_skip. by exists V, I.
  - replace (made ++ f :: rest) with ((made ++ [f]) ++ rest) in * by (by rewrite <- app_assoc).
    apply wp_bind. eapply wp_mono; [apply (add_file_spec s V I made f); [by eapply fits_app|done]|]. intros [] s1 (V1 & I1 & H1). by apply (IH s1 V1 I1).
Qed.

(** ** The empty file system *)

Definition blank (x : Z) : list Z := if x =? 58 then bitmap 59 else if x =? 1 then put_bytes zeroes 0 (sb_bytes false mkfs_sb) else zeros.

Lemma blank_minv s : mk_img s = <[1%nat := put_bytes zeroes 0 (sb_bytes false mkfs_sb)]> (replicate 1000 zeroes) -> mk_sb s = mkfs_sb -> mk_freeinode s = 1 -> mk_freeblock s = 59 ->
  minv s blank [new_inode 0 0] [].
Proof.
  intros Hi Hsb Hfi Hfb.
  assert (shows s blank) as Hs.
  { constructor; rewrite ?Hfb; try done.
    - rewrite Hi, length_insert. apply length_replicate.
    - intros x Hx H58. rewrite Hi. unfold blank. rewrite (proj2 (Z.eqb_neq _ _) H58). destruct (Z.eqb_spec x 1) as [->|Hne].
      + apply list_lookup_insert_eq. rewrite length_replicate. lia.
      + rewrite list_lookup_insert_ne by lia. apply lookup_replicate_2. lia.
    - intros x Hx. unfold blank. by rewrite !(proj2 (Z.eqb_neq _ _)) by lia. }
  constructor; try done; [|simpl; lia|].
  - constructor; [done| |by intros ? ? ?%not_elem_of_nil]. constructor; try by intros ? ?%not_elem_of_nil || by intros ? ? ?%not_elem_of_nil || by intros ? ? ? ? ?%not_elem_of_nil.
    + intros x Hx. unfold blank. case_match; [apply length_bitmap|]. by case_match.
    + intros b Hb Hu. rewrite (shows_used s) in Hu by done. apply Z.ltb_ge in Hu. unfold in_fs in Hb. cbn in Hb. apply mkfs_data. lia.
  - intros x Hx. unfold blank. by rewrite (proj2 (Z.eqb_neq x 58)) by lia.
Qed.

Lemma format_spec : wp (format false) (fun r s => r = 1 /\ exists V I, minv s V I (files_of [])) mkfs_start.
Proof.
  unfold format. rewrite mkfs_sb_init. apply wp_bind, wp_modify, wp_bind, wp_modify, wp_bind.
  apply (wp_for_each (fun k s => mk_img s = replicate k zeroes /\ mk_sb s = mkfs_sb /\ mk_freeinode s = 1 /\ mk_freeblock s = 59)); [done| |].
  - intros k s Hk (Hi & Hs & Hfi & Hfb). change (Z.to_nat FSSIZE) with 1000%nat in Hk. unfold wsect. apply wp_modify. rewrite sector_small, Nat2Z.id by lia. rewrite Hi, length_replicate.
    rewrite (proj2 (Nat.ltb_ge _ _)) by lia. rewrite Nat.sub_diag. split; [|done]. cbn. by rewrite replicate_add.
  - intros s (Hi & Hs & Hfi & Hfb). change (0 + Z.to_nat FSSIZE)%nat with 1000%nat in Hi. apply wp_bind. unfold wsect. apply wp_modify.
    rewrite Hi, length_replicate. change (sector 1) with 1%nat. change (1 <? 1000)%nat with true. cbv iota. set (s1 := set_mk_img _ s).
    pose proof (blank_minv s1 eq_refl Hs Hfi Hfb) as H1. apply wp_bind. eapply wp_mono; [apply (ialloc_spec s1 blank [new_inode 0 0] [] T_DIR H1); [simpl; lia|done|done]|].
    intros r s2 (-> & V2 & I2 & H2). change (Z.of_nat (S (length [])) =? ROOTINO) with true. cbn [negb app].
    change (Z.of_nat (S (length []))) with (Z.of_nat 1). replace (dirent_strcpy false (Z.of_nat 1) [46]) with (mk_dirent 1 [46]) by (by vm_compute).
    replace (dirent_strcpy false (Z.of_nat 1) [46; 46]) with (mk_dirent 1 [46; 46]) by (by vm_compute).
    apply wp_bind. eapply wp_mono; [apply (iappend_room s2 V2 I2 _ 0 T_DIR [] _ H2 eq_refl); [done|rewrite ?length_app, !length_mk_dirent; cbn [length]; lia|by apply Nat.leb_le; vm_compute]|]. intros [] s3 (V3 & I3 & H3).
    apply wp_bind. eapply wp_mono; [apply (iappend_room s3 V3 I3 _ 0 T_DIR _ _ H3 eq_refl); [done|rewrite ?length_app, !length_mk_dirent; cbn [length]; lia|by apply Nat.leb_le; vm_compute]|]. intros [] s4 (V4 & I4 & H4).
    apply wp_ret. split; [done|]. exists V4, I4. exact H4.
Qed.
