(* ===== verification/MkfsThms.v ===== *)
(** * The image that mkfs builds is a file system

    The image satisfies the invariant that the kernel's file system keeps ([FsInv]), with the files
    of the command line in the root directory, and the kernel reads from it the bytes of the files. *)
From Stdlib Require Import ZArith Lia.
From stdpp Require Import base list numbers strings.
From S2P Require Import Prelude Block Bio BioSpec Log LogSpec LogThms Tx Fs FsInv FsSpec FileStore Mkfs MkfsSpec MkfsInv.
Import Prelude Fs FsSpec Mkfs.
Local Open Scope Z_scope.

Local Abbreviation finv := (finv mkfs_geom mkfs_sb).

(** ** Reading the image *)

Definition image (img : list (list Z)) (x : Z) : list Z := nth (Z.to_nat x) img [].

(** Inode [k] as ilock loads it into an entry of the cache. *)
Definition image_inode (img : list (list Z)) (k : nat) : inode :=
  load_dinode (image img (IBLOCK (Z.of_nat k) mkfs_sb)) (dino_off (Z.of_nat k))
    (mkInode 1 (Z.of_nat k) 0 (mkSleeplock false false "inode" 0 0) true 0 0 0 0 0 []).
Definition image_inodes (img : list (list Z)) (n : nat) : list inode := map (image_inode img) (seq 0 n).

Lemma image_inodes_lookup img n k : (k < n)%nat -> image_inodes img n !! k = Some (image_inode img k).
Proof. intros Hk. unfold image_inodes. rewrite list_lookup_fmap, lookup_seq_lt by done. done. Qed.

Record same_dinode (i i' : inode) : Prop := {
  sd_type : i_type i' = i_type i;
  sd_nlink : i_nlink i' = i_nlink i;
  sd_size : i_size i' = i_size i;
  sd_addrs : i_addrs i' = i_addrs i }.

Lemma image_inode_on_disk img V k i : image img (IBLOCK (Z.of_nat k) mkfs_sb) = V (IBLOCK (Z.of_nat k) mkfs_sb) -> on_disk V k i -> same_dinode i (image_inode img k).
Proof.
  intros E Hd. unfold on_disk in Hd. rewrite <- E in Hd. unfold image_inode. set (d := image img _) in *. set (o := dino_off _) in *.
  assert (din_of (load_dinode d o (mkInode 1 (Z.of_nat k) 0 (mkSleeplock false false "inode" 0 0) true 0 0 0 0 0 [])) = dinode_at false d o) as Eq by done.
  rewrite Hd in Eq. unfold din_of in Eq. injection Eq as E1 E2 E3 E4 E5 E6. by constructor.
Qed.

(** ** The last steps *)

(** The image and the files, the root directory with its size rounded up. *)
Record final (s : mkst) (V : Z -> list Z) (I : list inode) (files : list (list Z * list Z)) : Prop := {
  fn_ok : fsok s V I (seq 1 (length files + 1));
  fn_fb : mk_freeblock s = 59 + Z.of_nat (blocks_of (files_of files));
  fn_low x : 0 <= x < 32 -> V x = if x =? 1 then put_bytes zeroes 0 (sb_bytes false mkfs_sb) else zeros;
  fn_root : exists i, I !! 1%nat = Some i /\ on_disk V 1 i /\ i_type i = T_DIR /\ i_nlink i = 1 /\
    i_size i = (Z.of_nat (16 * (length files + 2)) / 512 + 1) * 512 /\ present V I 1 (16 * (length files + 2)) /\
    forall pos, (pos < 512 * 140)%nat -> fbyte V I 1 pos = nth pos (root_bytes files) 0;
  fn_file k f : files !! k = Some f -> exists i, I !! (k + 2)%nat = Some i /\ mfile V I (k + 2) i T_FILE f.2 }.

Lemma files_of_lookup files k f : files !! k = Some f -> files_of files !! S k = Some (T_FILE, f.2).
Proof.
  intros Hk. change (files_of files !! S k) with (((fun f : list Z * list Z => (T_FILE, f.2)) <$> files) !! k). by rewrite list_lookup_fmap, Hk.
Qed.

Lemma fix_root_spec s V I files : (length files <= 198)%nat -> minv s V I (files_of files) ->
  wp (fix_root false 1) (fun _ s' => exists V' I', final s' V' I' files) s.
Proof.
  intros Hn Hv. destruct (mv_file _ _ _ _ Hv 0 T_DIR (root_bytes files) eq_refl) as (i & Hi & Hm). pose proof (mv_ok _ _ _ _ Hv) as Hs.
  assert (length (files_of files) = length files + 1)%nat as Hlen by (unfold files_of; cbn [length]; rewrite length_map; lia).
  pose proof (length_root_bytes files) as Hrl. set (z := (Z.of_nat (16 * (length files + 2)) / 512 + 1) * 512).
  assert (0 <= z <= 512 * 140) as Hz by (unfold z; Z.to_euclidean_division_equations; lia).
  unfold fix_root. apply wp_bind. change 1 with (Z.of_nat 1). eapply rinode_spec; [apply Hs|lia|apply Hm|]. cbn [din_of din_size].
  rewrite (mf_size _ _ _ _ _ _ Hm), Hrl, (xint_le (Z.of_nat _)) by lia. unfold BSIZE. fold z. rewrite u32_small, xint_le by lia.
  set (T := seq 1 (length (files_of files))) in *. assert (1%nat ∈ T) as H1 by (apply elem_of_seq; lia).
  pose proof (appended_nil s V I T 1 i (length (root_bytes files)) Hs H1 Hi (mf_shape _ _ _ _ _ _ Hm)) as Ha.
  assert (I !! 1%nat = Some (set_i_addrs (i_addrs i) i)) as Hi1 by (by rewrite set_i_addrs_id).
  set (i2 := set_i_size z (set_i_addrs (i_addrs i) i)). replace (set_din_size z _) with (din_of i2) by (by destruct i).
  eapply winode_spec; [apply Hs|lia|]. intros s2 S2 B2 F2. exists (vinode V 1 (din_of i2)), (<[1%nat := i2]> I).
  assert (-32768 <= T_DIR < 32768) as Ht by (by vm_compute).
  destruct (append_frame s s s2 V V I I (files_of files) 0 T_DIR _ [] i (i_addrs i) z Hv eq_refl Hz Ha Hi1 S2) as (K & Rf & _).
  pose proof (append_ino I 0 i (i_addrs i) z Hi1) as Hi2.
  pose proof (append_dinode_ok s s s2 V V I I (files_of files) 0 T_DIR _ [] i (i_addrs i) z Hv eq_refl Ht Hz Hm Ha Hi1 S2) as Hok.
  constructor.
  - by rewrite <- Hlen.
  - rewrite B2. apply Hv.
  - intros x Hx. rewrite vinode_meta by lia. by apply (mv_low _ _ _ _ Hv).
  - exists i2. split; [done|]. split.
    { apply on_disk_same; [lia|done|]. apply (fv_len _ _ _ _ _ (ok_finv _ _ _ _ Hs)), mkfs_layout. by split. }
    destruct Hm as [_ M2 (_ & _ & M3) _ _ [M6 _] M7]. split_and!; try done.
    { intros m Hm'. unfold i2. rewrite Rf; [|done|apply place_le; lia]. apply M6; lia. }
    intros pos Hpos.
    etransitivity; [exact (append_bytes s s s2 V V I I (files_of files) 0 T_DIR _ [] i (i_addrs i) z Hv eq_refl Hz Ha Hi1 S2 1 pos H1 Hpos)|].
    rewrite decide_False by (cbn [length]; lia). by apply M7.
  - intros k f Hk. apply files_of_lookup in Hk. destruct (mv_file _ _ _ _ Hv _ _ _ Hk) as (j & Hj & Hmj). exists j. replace (k + 2)%nat with (S (S k)) by lia.
    eapply (append_other s s s2 V V I I (files_of files) 0 T_DIR _ [] i (i_addrs i) z); try done. by eapply elem_seq_inv.
Qed.

(** balloc writes the bitmap: the image is what the files are on. *)
Lemma mkfs_balloc_spec s V I files : final s V I files ->
  wp (balloc (mk_freeblock s)) (fun _ s' => length (mk_img s') = 1000%nat /\ (forall x, 0 <= x < 1000 -> image (mk_img s') x = V x)) s.
Proof.
  intros Hf. pose proof (ok_shows _ _ _ _ (fn_ok _ _ _ _ Hf)) as Hs. pose proof (sh_fb _ _ Hs) as Hfb. unfold balloc. rewrite (proj2 (Z.ltb_lt _ _)) by (unfold BSIZE; lia).
  cbn [negb]. apply wp_bind, wp_gets. rewrite (sh_sb _ _ Hs). unfold wsect. apply wp_modify. cbn [sb_bmapstart mkfs_sb]. change (sector 58) with 58%nat.
  rewrite (sh_len _ _ Hs). change (58 <? 1000)%nat with true. cbv iota. cbn [mk_img set_mk_img]. split; [rewrite length_insert; apply Hs|].
  intros x Hx. unfold image. rewrite nth_lookup. destruct (decide (x = 58)) as [->|Hne].
  - change (Z.to_nat 58) with 58%nat. rewrite list_lookup_insert_eq by (rewrite (sh_len _ _ Hs); lia). cbn. by rewrite (sh_bm _ _ Hs).
  - rewrite list_lookup_insert_ne by lia. by rewrite (sh_img _ _ Hs).
Qed.

(** ** The image *)

Record image_of (img : list (list Z)) (files : list (list Z * list Z)) : Prop := {
  im_len : length img = 1000%nat;
  im_sb : sb_of (image img 1) = mkfs_sb;
  im_log : image img 2 = zeros;
  im_finv : finv (image img) (image_inodes img (length files + 2)) (seq 1 (length files + 1));
  im_used b : 0 <= b < 1000 -> used mkfs_sb (image img) b = (b <? 59 + Z.of_nat (blocks_of (files_of files)));
  im_root : let i := image_inode img 1 in i_type i = T_DIR /\ i_nlink i = 1 /\ i_size i = (Z.of_nat (16 * (length files + 2)) / 512 + 1) * 512 /\
    present (image img) (image_inodes img (length files + 2)) 1 (16 * (length files + 2)) /\
    forall pos, (pos < 512 * 140)%nat -> fbyte (image img) (image_inodes img (length files + 2)) 1 pos = nth pos (root_bytes files) 0;
  im_file k f : files !! k = Some f -> let i := image_inode img (k + 2) in i_type i = T_FILE /\ i_nlink i = 1 /\ i_size i = Z.of_nat (length f.2) /\
    fbytes (image img) (image_inodes img (length files + 2)) (k + 2) 0 (length f.2) = f.2 /\
    present (image img) (image_inodes img (length files + 2)) (k + 2) (length f.2) }.

Section image.
Context (s : mkst) (V : Z -> list Z) (I : list inode) (files : list (list Z * list Z)) (img : list (list Z)).
Context (Hf : final s V I files) (Hn : (length files <= 198)%nat) (Hlen : length img = 1000%nat) (Himg : forall x, 0 <= x < 1000 -> image img x = V x).
Let T := seq 1 (length files + 1).
Let J := image_inodes img (length files + 2).

Lemma image_dinode j i : j ∈ T -> on_disk V j i -> same_dinode i (image_inode img j) /\ J !! j = Some (image_inode img j).
Proof.
  intros Hj%elem_of_seq Hd. split; [|apply image_inodes_lookup; lia]. apply (image_inode_on_disk img V); [|done]. apply Himg.
  destruct (mkfs_IBLOCK (Z.of_nat j)); [unfold inum_ok; cbn; lia|lia].
Qed.

Lemma final_on_disk j : j ∈ T -> exists i, I !! j = Some i /\ on_disk V j i.
Proof.
  intros Hj%elem_of_seq. destruct (decide (j = 1%nat)) as [->|Hne].
  - destruct (fn_root _ _ _ _ Hf) as (i & Hi & Hd & _). by exists i.
  - destruct (lookup_lt_is_Some_2 files (j - 2)) as [f Hk]; [lia|]. destruct (fn_file _ _ _ _ Hf _ _ Hk) as (i & Hi & Hm). replace (j - 2 + 2)%nat with j in * by lia.
    exists i. split; [done|apply Hm].
Qed.

Lemma image_frame : finv (image img) J T /\ (forall j k, j ∈ T -> (k <= 140)%nat -> ref (image img) J j k = ref V I j k) /\
  (forall j pos, j ∈ T -> (pos < 512 * 140)%nat -> fbyte (image img) J j pos = fbyte V I j pos).
Proof.
  pose proof (fn_ok _ _ _ _ Hf) as Hok. pose proof (ok_finv _ _ _ _ Hok) as HF. fold T in Hok, HF.
  assert (forall j k, j ∈ T -> (k <= 140)%nat -> ref V I j k <> 0 -> image img (ref V I j k) = V (ref V I j k)) as Hv.
  { intros j k Hj Hk Hnz. apply Himg. pose proof (ref_bounds s V I T j k Hok Hj Hk Hnz). pose proof (sh_fb _ _ (ok_shows _ _ _ _ Hok)). lia. }
  assert (finv (image img) I T) as F1.
  { apply (finv_frame mkfs_geom mkfs_sb V); [done| | |].
    - intros x Hx. rewrite Himg by apply Hx. by apply HF.
    - intros b Hb. unfold used. rewrite mkfs_BBLOCK by done. by rewrite Himg by lia.
    - intros j k Hj Hk. apply (ref_frame mkfs_geom mkfs_sb V _ I T); [done..|]. intros. by apply Hv. }
  assert (same_blocks mkfs_sb I J T) as Hsb.
  { intros j Hj. destruct (final_on_disk j Hj) as (i & Hi & Hd). destruct (image_dinode j i Hj Hd) as [[E1 E2 E3 E4] HJ]. exists i, (image_inode img j). split_and!; try done.
    destruct (fv_ino _ _ _ _ _ HF j Hj) as (i' & Hi' & [O1 O2 O3 O4 O5]). assert (i' = i) as -> by congruence. constructor; try congruence; [done|].
    apply elem_of_seq in Hj. unfold inum_ok. cbn. lia. }
  destruct (same_blocks_frame mkfs_geom mkfs_sb (image img) I J T F1 Hsb) as (F2 & R2 & D2). split_and!; [done| |].
  - intros j k Hj Hk. rewrite R2 by done. apply (ref_frame mkfs_geom mkfs_sb V _ I T); [done..|]. intros. by apply Hv.
  - intros j pos Hj Hpos. apply fbyte_same; [done|]. intros m Hm. rewrite D2 by done. apply (dat_frame mkfs_geom mkfs_sb V _ I T); [done..|]. intros. by apply Hv.
Qed.

Lemma fbytes_nth V' I' ip c : (length c <= 512 * 140)%nat -> (forall pos, (pos < 512 * 140)%nat -> fbyte V' I' ip pos = nth pos c 0) -> fbytes V' I' ip 0 (length c) = c.
Proof.
  intros Hc Hb. apply (nth_ext _ _ 0 0); [by rewrite length_fbytes|]. intros j Hj. rewrite length_fbytes in Hj. rewrite nth_fbytes by done. apply Hb. lia.
Qed.

Lemma final_image : image_of img files.
Proof.
  destruct image_frame as (F & R & B). pose proof (ok_shows _ _ _ _ (fn_ok _ _ _ _ Hf)) as Hs. constructor; try done.
  - rewrite Himg, (fn_low _ _ _ _ Hf) by lia. by vm_compute.
  - rewrite Himg, (fn_low _ _ _ _ Hf) by lia. done.
  - intros b Hb. assert (in_fs mkfs_sb b) as Hin by (unfold in_fs; cbn; lia). rewrite <- (fn_fb _ _ _ _ Hf), <- (shows_used s V) by done.
    unfold used. rewrite mkfs_BBLOCK by done. by rewrite Himg by lia.
  - destruct (fn_root _ _ _ _ Hf) as (i & Hi & Hd & Ht & Hnl & Hsz & Hp & Hb). assert (1%nat ∈ T) as H1 by (apply elem_of_seq; lia).
    destruct (image_dinode 1 i H1 Hd) as [[E1 E2 E3 E4] _]. cbv zeta. split_and!; [congruence..| |].
    + intros m Hm. fold J. rewrite R; [by apply Hp|done|apply place_le; lia].
    + intros pos Hpos. fold J. rewrite B by done. by apply Hb.
  - intros k f Hk. destruct (fn_file _ _ _ _ Hf k f Hk) as (i & Hi & Hm). pose proof (lookup_lt_Some _ _ _ Hk) as Hlt.
    assert ((k + 2)%nat ∈ T) as Hj by (apply elem_of_seq; lia). destruct (image_dinode (k + 2) i Hj (mf_disk _ _ _ _ _ _ Hm)) as [[E1 E2 E3 E4] _].
    pose proof Hm as [_ M2 (_ & _ & M3) M4 _ [M6 _] M7]. destruct (fv_ino _ _ _ _ _ (ok_finv _ _ _ _ (fn_ok _ _ _ _ Hf)) (k + 2)%nat Hj) as (i' & Hi' & [_ _ _ _ O5]).
    assert (i' = i) as -> by congruence. unfold MAXFILE, BSIZE in O5. cbv zeta. split_and!; [congruence|congruence|congruence| |].
    + apply fbytes_nth; [lia|]. intros pos Hpos. fold J. rewrite B by done. by apply M7.
    + intros m Hm'. fold J. rewrite R; [|done|apply place_le; lia]. apply M6; lia.
Qed.

End image.

Lemma mkfs_image argc files : 2 <= argc -> fits files ->
  exists s, main false argc true (map (fun f => (f.1, Some f.2)) files) mkfs_start = Ret tt s /\ image_of (mk_img s) files.
Proof.
  intros Hargc Hfit. assert (wp (main false argc true (map (fun f => (f.1, Some f.2)) files)) (fun _ s => image_of (mk_img s) files) mkfs_start) as Hw.
  { unfold main. rewrite (proj2 (Z.ltb_ge _ _)) by lia. cbn [negb]. apply wp_bind. eapply wp_mono; [exact format_spec|]. intros r s1 (-> & V1 & I1 & H1).
    apply wp_bind. eapply wp_mono; [apply (add_files_spec files s1 V1 I1 [] Hfit H1)|]. intros [] s2 (V2 & I2 & H2). cbn [app] in H2.
    apply wp_bind. eapply wp_mono; [apply (fix_root_spec s2 V2 I2 files); [apply Hfit|done]|]. intros [] s3 (V3 & I3 & H3). apply wp_bind, wp_gets.
    eapply wp_mono; [by apply (mkfs_balloc_spec s3 V3 I3 files)|]. intros [] s4 [Hl Hi]. apply (final_image s3 V3 I3); [done|apply Hfit|done|done]. }
  apply wp_elim in Hw as ([] & s & E & H). by exists s.
Qed.

(** C7: mkfs builds a file system.  On a little-endian host, given files whose names have no slash,
    of at most 140 blocks each, that fit into 200 inodes and 1000 blocks, mkfs succeeds, and the
    image has the layout of the kernel: a super block, an empty log, a bitmap that marks exactly
    the blocks in use, inodes whose blocks are all different data blocks, the root directory with
    an entry for ., .. and each file (without a leading underscore) followed by empty entries,
    and for each file an inode of its size with exactly its bytes. *)
Theorem mkfs_builds_image argc files : 2 <= argc -> fits files ->
  exists s, main false argc true (map (fun f => (f.1, Some f.2)) files) mkfs_start = Ret tt s /\ image_of (mk_img s) files.
Proof. apply mkfs_image. Qed.

Lemma mkfs_builds_image_witness : exists s, main false 3 true [([95; 99; 97; 116], Some (replicate 600 7))] mkfs_start = Ret tt s /\
  image_of (mk_img s) [([95; 99; 97; 116], replicate 600 7)].
Proof.
  apply (mkfs_builds_image 3 [([95; 99; 97; 116], replicate 600 7)]); [lia|]. constructor.
  - repeat constructor.
  - apply Forall_cons_2; [cbn [snd]; rewrite length_replicate; lia|apply Forall_nil_2].
  - cbn. lia.
  - by apply Nat.leb_le; vm_compute.
Defined.

(** On a big-endian host the super block is right, but mkfs uses its fields as the host reads them:
    the inodes do not go to the blocks that the super block names. *)
Lemma mkfs_big_endian_misplaces : match main true 2 true [] mkfs_start with
  | Ret _ s => sb_of (image (mk_img s) 1) = mkfs_sb /\ i_type (image_inode (mk_img s) 1) = 0
  | _ => False
  end.
Proof. vm_compute. split; reflexivity. Qed.
