(* ===== verification/Namei.v ===== *)
(** * Path names (src/fs.c: iget, ilock, iput, dirlookup, namex)

    A path resolves on the disk from an inode to another through the entries of directories
    ([resolves]); namei finds an entry of the inode cache for the inode at the end, holds one more
    reference to it, and gives back the references it took on the way. *)
From Stdlib Require Import ZArith Lia.
From stdpp Require Import base list numbers strings.
From S2P Require Import Prelude Block Bio BioSpec Log LogSpec Tx Fs FsInv FsSpec FileSpec.
Import Prelude Fs FsSpec.
Local Open Scope Z_scope.

(** ** The inode cache *)

Section namei.
Context (G : geom) (sb : superblock) (Hly : layout G sb).
Context (dev_read : Z -> option (nat -> Z -> M fsst (option (list Z)))).

Local Abbreviation ftx := (ftx G sb).
Local Abbreviation finv := (finv G sb).

(** Inode [n] of the disk, in a fresh entry of the cache. *)
Definition dino (V : Z -> list Z) (n : Z) : inode :=
  load_dinode (V (IBLOCK n sb)) (dino_off n) (mkInode 1 n 1 (mkSleeplock false false "inode" 0 0) true 0 0 0 0 0 []).

Definition loaded (V : Z -> list Z) (i : inode) : Prop :=
  let d := dino V (i_inum i) in
  i_type i = i_type d /\ i_major i = i_major d /\ i_minor i = i_minor d /\ i_nlink i = i_nlink d /\ i_size i = i_size d /\ i_addrs i = i_addrs d.

(** The entries that are in use, the one at [L] locked. *)
Record icache (V : Z -> list Z) (I : list inode) (L : option nat) : Prop := {
  ic_entry j i : I !! j = Some i -> 1 <= i_ref i -> i_dev i = 1 /\ inum_ok sb (i_inum i) /\ (i_valid i = true -> loaded V i);
  ic_inj j j' i i' : I !! j = Some i -> I !! j' = Some i' -> 1 <= i_ref i -> 1 <= i_ref i' -> i_inum i = i_inum i' -> j = j';
  ic_ref j i : I !! j = Some i -> 0 <= i_ref i;
  ic_lock j i : I !! j = Some i -> sl_lk (i_lock i) = false /\ sl_locked (i_lock i) = bool_decide (L = Some j) }.

(** The references to inode [n], and the free entries. *)
Definition refs_of (n : Z) (i : inode) : Z := if decide (i_inum i = n) then i_ref i else 0.
Fixpoint refs (I : list inode) (n : Z) : Z := match I with [] => 0 | i :: I' => refs_of n i + refs I' n end.
Definition unused_entry (i : inode) : nat := if decide (i_ref i = 0) then 1 else 0.
Fixpoint spare (I : list inode) : nat := match I with [] => 0 | i :: I' => unused_entry i + spare I' end.

Lemma refs_insert I j i i' n : I !! j = Some i -> refs (<[j := i']> I) n = refs I n - refs_of n i + refs_of n i'.
Proof.
  revert j. induction I as [|a I IH]; intros [|j] Hj; [done|done|injection Hj as ->; cbn; lia|].
  change (<[S j := i']> (a :: I)) with (a :: <[j := i']> I). cbn [refs]. rewrite (IH j Hj). lia.
Qed.

Lemma spare_insert I j i i' : I !! j = Some i -> (spare (<[j := i']> I) + unused_entry i = spare I + unused_entry i')%nat.
Proof.
  revert j. induction I as [|a I IH]; intros [|j] Hj; [done|done|injection Hj as ->; cbn; lia|].
  change (<[S j := i']> (a :: I)) with (a :: <[j := i']> I). cbn [spare]. specialize (IH j Hj). lia.
Qed.

(** The scan of iget. *)
Lemma iget_scan_spec I k dev n e0 : match iget_scan I k dev n e0 with
  | inl j => exists i, (k <= j)%nat /\ I !! (j - k)%nat = Some i /\ 1 <= i_ref i /\ i_inum i = n
  | inr r => (forall j i, I !! j = Some i -> ~ (1 <= i_ref i /\ i_dev i = dev /\ i_inum i = n)) /\
      match e0 with
      | Some e => r = Some e
      | None => match r with
                | Some e => exists i, (k <= e)%nat /\ I !! (e - k)%nat = Some i /\ i_ref i = 0
                | None => forall j i, I !! j = Some i -> i_ref i <> 0
                end
      end
  end.
Proof.
  revert k e0. induction I as [|a I IH]; intros k e0; cbn [iget_scan].
  { split; [by intros j i|]. destruct e0; [done|]. by intros j i. }
  destruct ((0 <? i_ref a) && (i_dev a =? dev) && (i_inum a =? n)) eqn:E.
  { apply andb_true_iff in E as [[E1 E2]%andb_true_iff E3]. exists a. rewrite Nat.sub_diag. split_and!; [lia|done|lia|lia]. }
  assert (~ (1 <= i_ref a /\ i_dev a = dev /\ i_inum a = n)) as Hno.
  { intros (H1 & H2 & H3). rewrite (proj2 (Z.ltb_lt _ _)), (proj2 (Z.eqb_eq _ _) H2), (proj2 (Z.eqb_eq _ _) H3) in E by lia. done. }
  specialize (IH (S k) (match e0 with Some e => Some e | None => if i_ref a =? 0 then Some k else None end)).
  destruct (iget_scan I (S k) dev n _) as [j|r].
  - destruct IH as (i & Hj & Hi & Hr). exists i. split; [lia|]. replace (j - k)%nat with (S (j - S k)) by lia. done.
  - destruct IH as [IH1 IH2]. split; [intros [|j] i Hj; [injection Hj as <-; done|by apply (IH1 j)]|]. destruct e0 as [e|]; [done|].
    destruct (Z.eqb_spec (i_ref a) 0) as [H0|H0].
    + subst r. exists a. split_and!; [lia|by rewrite Nat.sub_diag|done].
    + destruct r as [e|]; [|by intros [|j] i Hj; [injection Hj as <-|apply (IH2 j)]]. destruct IH2 as (i & He & Hi & Hr). exists i. split; [lia|].
      replace (e - k)%nat with (S (e - S k)) by lia. done.
Qed.

Lemma spare_pos I : (forall j i, I !! j = Some i -> i_ref i <> 0) -> spare I = 0%nat.
Proof.
  induction I as [|a I IH]; intros Hn; [done|]. cbn. rewrite IH by (intros j i Hj; by apply (Hn (S j))). unfold unused_entry. rewrite decide_False; [done|]. by apply (Hn 0%nat).
Qed.

(** *** iget and iput *)

Lemma wp_icache_acquire s (Q : unit -> fsst -> Prop) : f_ilock s = false -> Q tt (set_f_ilock true s) -> wp icache_acquire Q s.
Proof. intros Hl HQ. unfold wp, icache_acquire, lift, spin_acquire. by rewrite Hl. Qed.

Lemma wp_icache_release s (Q : unit -> fsst -> Prop) : f_ilock s = true -> Q tt (set_f_ilock false s) -> wp icache_release Q s.
Proof. intros Hl HQ. unfold wp, icache_release, lift, spin_release. by rewrite Hl. Qed.

Lemma wp_updi_raw s ip i f (Q : unit -> fsst -> Prop) : f_inodes s !! ip = Some i -> Q tt (set_f_inodes (<[ip := f i]> (f_inodes s)) s) -> wp (updi ip f) Q s.
Proof. intros Hi HQ. unfold wp, updi. by rewrite Hi. Qed.

(** An entry changed while icache.lock was held. *)
Lemma ftx_icache s held o n V I e i' : ftx s held o n V I ->
  ftx (set_f_ilock false (set_f_inodes (<[e := i']> (f_inodes (set_f_ilock true s))) (set_f_ilock true s))) held o n V (<[e := i']> I).
Proof. intros [Ht <- Hsb Hl]. by constructor. Qed.

(** One more reference to inode [n]. *)
Record got (V : Z -> list Z) (I I' : list inode) (L : option nat) (n : Z) (e : nat) : Prop := {
  go_cache : icache V I' L;
  go_entry : exists i i', I !! e = Some i /\ I' = <[e := i']> I /\ i_ref i' = i_ref i + 1 /\ i_inum i' = n /\ 0 <= i_ref i /\ (1 <= i_ref i -> i_inum i = n) }.

Lemma icache_set V I L L' e i i' : icache V I L -> I !! e = Some i -> 0 <= i_ref i' ->
  sl_lk (i_lock i') = false /\ sl_locked (i_lock i') = bool_decide (L' = Some e) -> (forall j, j <> e -> L = Some j <-> L' = Some j) ->
  (1 <= i_ref i' -> i_dev i' = 1 /\ inum_ok sb (i_inum i') /\ (i_valid i' = true -> loaded V i')) ->
  (1 <= i_ref i' -> forall j k, I !! j = Some k -> 1 <= i_ref k -> i_inum k = i_inum i' -> j = e) -> icache V (<[e := i']> I) L'.
Proof.
  intros [E J R K] Hi Hr Hl HL He Hj. assert (forall j k, <[e := i']> I !! j = Some k -> j = e /\ k = i' \/ j <> e /\ I !! j = Some k) as Hin.
  { intros j k. destruct (decide (j = e)) as [->|Hne]; [rewrite list_lookup_insert_eq by (by eapply lookup_lt_Some)|rewrite list_lookup_insert_ne by done]; naive_solver. }
  constructor.
  - intros j k [[-> ->]|[_ Hk]]%Hin Hrk; [by apply He|by apply (E j)].
  - intros j j' k k' [[-> ->]|[Hne Hk]]%Hin [[-> ->]|[Hne' Hk']]%Hin Hrk Hrk' Hnk; [done| | |by eapply J].
    + symmetry. by apply (Hj Hrk j' k').
    + by apply (Hj Hrk' j k).
  - intros j k [[-> ->]|[_ Hk]]%Hin; [done|by apply (R j)].
  - intros j k [[-> ->]|[Hne Hk]]%Hin; [done|]. destruct (K j k Hk) as [K1 K2]. split; [done|]. rewrite K2. by apply bool_decide_ext, HL.
Qed.

Lemma icache_update V I L e i i' : icache V I L -> I !! e = Some i -> 0 <= i_ref i' -> i_lock i' = i_lock i ->
  (1 <= i_ref i' -> i_dev i' = 1 /\ inum_ok sb (i_inum i') /\ (i_valid i' = true -> loaded V i')) ->
  (1 <= i_ref i' -> forall j k, I !! j = Some k -> 1 <= i_ref k -> i_inum k = i_inum i' -> j = e) -> icache V (<[e := i']> I) L.
Proof. intros Hc Hi Hr Hl. apply (icache_set V I L L e i i' Hc Hi Hr); [rewrite Hl; by apply (ic_lock _ _ _ Hc)|done]. Qed.

(** The entry of an inode, kept in use. *)
Lemma icache_same V I L L' e i i' : icache V I L -> I !! e = Some i -> 1 <= i_ref i -> 0 <= i_ref i' ->
  sl_lk (i_lock i') = false /\ sl_locked (i_lock i') = bool_decide (L' = Some e) -> (forall j, j <> e -> L = Some j <-> L' = Some j) ->
  i_dev i' = i_dev i -> i_inum i' = i_inum i -> (i_valid i' = true -> loaded V i') -> icache V (<[e := i']> I) L'.
Proof.
  intros Hc Hi Hr Hr' Hl HL Hd Hn Hv. destruct (ic_entry _ _ _ Hc e i Hi Hr) as (E1 & E2 & _). apply (icache_set V I L L' e i i'); try done.
  - intros _. rewrite Hd, Hn. done.
  - intros _ j k Hk Hrk Ej. apply (ic_inj _ _ _ Hc j e k i); congruence.
Qed.

Lemma ref_le_refs I j i : (forall k i, I !! k = Some i -> 0 <= i_ref i) -> I !! j = Some i -> i_ref i <= refs I (i_inum i).
Proof.
  revert j. induction I as [|a I IH]; intros [|j] Hp Hj; [done|done| |].
  - injection Hj as ->. cbn [refs]. unfold refs_of at 1. rewrite decide_True by done.
    assert (0 <= refs I (i_inum i)); [|lia]. clear IH. induction I as [|b I IH]; cbn [refs]; [lia|].
    assert (0 <= refs I (i_inum i)) by (apply IH; intros [|k] x Hk; [by apply (Hp 0%nat)|by apply (Hp (S (S k)))]). unfold refs_of. pose proof (Hp 1%nat b eq_refl). case_decide; lia.
  - cbn [refs]. assert (i_ref i <= refs I (i_inum i)) by (apply (IH j); [intros k x Hk; by apply (Hp (S k))|done]). unfold refs_of. pose proof (Hp 0%nat a eq_refl). case_decide; lia.
Qed.

Lemma iget_spec s held o b V I L n : ftx s held o b V I -> icache V I L -> inum_ok sb n -> refs I n < 2 ^ 31 - 1 -> (1 <= spare I)%nat ->
  wp (iget 1 n) (fun e s' => exists I', ftx s' held o b V I' /\ got V I I' L n e) s.
Proof.
  intros Hs Hc Hn Hrefs Hsp. unfold iget. apply wp_bind, wp_icache_acquire; [apply Hs|]. apply wp_bind, wp_gets. change (f_inodes (set_f_ilock true s)) with (f_inodes s).
  rewrite (ft_ino _ _ _ _ _ _ _ _ Hs). pose proof (iget_scan_spec I 0 1 n None) as Hscan. destruct (iget_scan I 0 1 n None) as [e|[e|]].
  - destruct Hscan as (i & _ & Hi & Hr & Hin). rewrite Nat.sub_0_r in Hi. destruct (ic_entry _ _ _ Hc e i Hi Hr) as (E1 & E2 & E3).
    pose proof (ref_le_refs I e i (ic_ref _ _ _ Hc) Hi) as Hle. rewrite Hin in Hle.
    apply wp_bind. eapply wp_updi_raw; [by cbn; rewrite (ft_ino _ _ _ _ _ _ _ _ Hs)|]. apply wp_bind, wp_icache_release; [done|]. apply wp_ret.
    eexists. split; [by apply ftx_icache|]. rewrite i32_small by lia. split; [|eexists i, _; split_and!; try done; lia].
    eapply icache_update; [done|done|cbn; lia|done| |].
    + intros _. split_and!; [done|done|]. intros Hv. by apply E3.
    + intros _ j k Hk Hrk Ej. by apply (ic_inj _ _ _ Hc j e k i).
  - destruct Hscan as [Hno (i & _ & Hi & Hr)]. rewrite Nat.sub_0_r in Hi.
    apply wp_bind. eapply wp_updi_raw; [by cbn; rewrite (ft_ino _ _ _ _ _ _ _ _ Hs)|]. apply wp_bind, wp_icache_release; [done|]. apply wp_ret.
    eexists. split; [by apply ftx_icache|]. split; [|eexists i, _; split_and!; try done; cbn; lia].
    eapply icache_update; [done|done|cbn; lia|done| |].
    + intros _. split_and!; [done|done|]. done.
    + intros _ j k Hk Hrk Ej. exfalso. apply (Hno j k Hk). destruct (ic_entry _ _ _ Hc j k Hk Hrk) as (? & _). done.
  - destruct Hscan as [_ Hall]. rewrite spare_pos in Hsp by done. lia.
Qed.

(** *** ilock and iunlockput *)

Lemma ilock_spec s o b V I e i : ftx s [] o b V I -> icache V I None -> I !! e = Some i -> 1 <= i_ref i -> i_type (dino V (i_inum i)) <> 0 ->
  wp (ilock (Some e)) (fun _ s' => exists i', ftx s' [] o b V (<[e := i']> I) /\ icache V (<[e := i']> I) (Some e) /\ i_ref i' = i_ref i /\ i_inum i' = i_inum i /\
    i_dev i' = 1 /\ loaded V i' /\ i_valid i' = true) s.
Proof.
  intros Hs Hc Hi Hr Ht. destruct (ic_entry _ _ _ Hc e i Hi Hr) as (E1 & E2 & E3). destruct (ic_lock _ _ _ Hc e i Hi) as [K1 K2].
  rewrite bool_decide_eq_false_2 in K2 by done. assert (e < length I)%nat as Hlt by (by eapply lookup_lt_Some).
  unfold ilock. apply wp_bind. eapply wp_geti; [done..|]. rewrite (proj2 (Z.ltb_ge _ _)) by lia. apply wp_bind, wp_gets, wp_bind.
  eapply wp_intro; [eapply on_ilock_run; [by rewrite (ft_ino _ _ _ _ _ _ _ _ Hs)|by apply acquiresleep_run]|].
  set (k := locked_by _ _). pose proof (ftx_lock _ _ _ _ _ _ _ _ _ _ k Hs Hi) as H1. set (s1 := set_f_inodes _ s) in *. set (i1 := set_i_lock k i) in *.
  assert (forall i', i_ref i' = i_ref i -> i_lock i' = k -> i_dev i' = i_dev i -> i_inum i' = i_inum i -> (i_valid i' = true -> loaded V i') -> icache V (<[e := i']> I) (Some e)) as Hic.
  { intros i' R1 R2 R3 R4 R5. eapply (icache_same V I None); try done; [lia|rewrite R2; split; [exact K1|by rewrite bool_decide_eq_true_2]|intros j Hj; split; [done|by intros [= ->]]]. }
  apply wp_bind. eapply wp_geti; [exact H1|by apply list_lookup_insert_eq|]. change (i_valid i1) with (i_valid i). destruct (i_valid i) eqn:Ev.
  { apply wp_skip. exists i1. split_and!; try done; [apply Hic; try done; intros _|]; by apply E3. }
  apply wp_bind, wp_gets. rewrite (ft_sb _ _ _ _ _ _ _ _ H1). change (i_dev i1) with (i_dev i). change (i_inum i1) with (i_inum i). rewrite E1.
  destruct (ly_inode _ _ Hly _ E2) as [Hd _]. apply wp_bind.
  eapply wp_mono; [apply (bread_ftx G sb s1 []); [done|done|simpl; lia|by intros ? ?%not_elem_of_nil]|]. intros bp s2 H2.
  apply wp_bind. eapply bdata_ftx; [exact H2|by left|]. apply wp_bind. eapply wp_updi; [exact H2|by apply list_lookup_insert_eq|]. intros s3 H3.
  apply wp_bind. eapply wp_mono; [exact (brelse_ftx _ _ _ _ _ _ _ _ _ _ H3)|]. intros [] s4 H4. rewrite list_insert_insert_eq in H4.
  apply wp_bind. eapply wp_updi; [exact H4|by apply list_lookup_insert_eq|]. intros s5 H5. rewrite list_insert_insert_eq in H5. set (i5 := set_i_valid true _) in *.
  assert (loaded V i5) as L5 by (unfold loaded; by split_and!).
  apply wp_bind. eapply wp_geti; [exact H5|by apply list_lookup_insert_eq|]. change (i_type i5) with (i_type (dino V (i_inum i))). rewrite (proj2 (Z.eqb_neq _ _) Ht).
  apply wp_skip. exists i5. split_and!; try done. apply Hic; done.
Qed.

Lemma iput_spec s o b V I e i : ftx s [] o b V I -> icache V I None -> I !! e = Some i -> 1 <= i_ref i < 2 ^ 31 -> (i_valid i = true -> i_nlink i <> 0) ->
  wp (iput e) (fun _ s' => exists i', ftx s' [] o b V (<[e := i']> I) /\ icache V (<[e := i']> I) None /\ i_ref i' = i_ref i - 1 /\ i_inum i' = i_inum i) s.
Proof.
  intros Hs Hc Hi Hr Hn. destruct (ic_entry _ _ _ Hc e i Hi ltac:(lia)) as (E1 & E2 & E3). destruct (ic_lock _ _ _ Hc e i Hi) as [K1 K2].
  rewrite bool_decide_eq_false_2 in K2 by done. assert (e < length I)%nat as Hlt by (by eapply lookup_lt_Some).
  unfold iput. apply wp_bind, wp_gets, wp_bind.
  eapply wp_intro; [eapply on_ilock_run; [by rewrite (ft_ino _ _ _ _ _ _ _ _ Hs)|by apply acquiresleep_run]|].
  set (k := locked_by _ _). pose proof (ftx_lock _ _ _ _ _ _ _ _ _ _ k Hs Hi) as H1. set (s1 := set_f_inodes _ s) in *. set (i1 := set_i_lock k i) in *.
  apply wp_bind. eapply wp_geti; [exact H1|by apply list_lookup_insert_eq|]. apply wp_bind.
  assert (i_valid i1 && (i_nlink i1 =? 0) = false) as ->.
  { change (i_valid i1) with (i_valid i). change (i_nlink i1) with (i_nlink i). destruct (i_valid i); [|done]. cbn [andb]. apply Z.eqb_neq. by apply Hn. }
  cbn [when]. apply wp_skip. apply wp_bind.
  eapply wp_intro; [eapply on_ilock_run; [rewrite (ft_ino _ _ _ _ _ _ _ _ H1); by apply list_lookup_insert_eq|by apply releasesleep_run]|].
  set (k2 := unlocked _). assert (<[e := i1]> I !! e = Some i1) as Hi1 by (by apply list_lookup_insert_eq).
  pose proof (ftx_lock _ _ _ _ _ _ _ _ _ _ k2 H1 Hi1) as H2. set (s2 := set_f_inodes _ s1) in *. rewrite list_insert_insert_eq in H2. set (i2 := set_i_lock k2 i1) in *.
  apply wp_bind, wp_icache_acquire; [apply H2|]. apply wp_bind. eapply wp_updi_raw; [cbn [f_inodes set_f_ilock]; rewrite (ft_ino _ _ _ _ _ _ _ _ H2); by apply list_lookup_insert_eq|].
  apply wp_icache_release; [done|]. pose proof (ftx_icache s2 [] o b V _ e (set_i_ref (i32 (i_ref i2 - 1)) i2) H2) as H3. rewrite list_insert_insert_eq in H3.
  change (i_ref i2) with (i_ref i) in *. rewrite i32_small in * by lia. exists (set_i_ref (i_ref i - 1) i2). split_and!; try done.
  eapply (icache_same V I None None e i); try done; cbn; lia.
Qed.

Lemma iunlockput_spec s o b V I e i : ftx s [] o b V I -> icache V I (Some e) -> I !! e = Some i -> 1 <= i_ref i < 2 ^ 31 -> (i_valid i = true -> i_nlink i <> 0) ->
  wp (iunlockput e) (fun _ s' => exists i', ftx s' [] o b V (<[e := i']> I) /\ icache V (<[e := i']> I) None /\ i_ref i' = i_ref i - 1 /\ i_inum i' = i_inum i) s.
Proof.
  intros Hs Hc Hi Hr Hn. destruct (ic_entry _ _ _ Hc e i Hi ltac:(lia)) as (E1 & E2 & E3). destruct (ic_lock _ _ _ Hc e i Hi) as [K1 K2].
  rewrite bool_decide_eq_true_2 in K2 by done. assert (e < length I)%nat as Hlt by (by eapply lookup_lt_Some). unfold iunlockput. apply wp_bind.
  eapply wp_mono; [apply (iunlock_ftx G sb s [] o b V I e i Hs Hi); (done || lia)|]. intros [] s1 (k & Hk1 & Hk2 & H1).
  assert (icache V (<[e := set_i_lock k i]> I) None) as Hc1.
  { eapply (icache_same V I (Some e) None e i); try done; (cbn; lia) || (intros j Hj; split; [by intros [= ->]|done]). }
  eapply wp_mono; [apply (iput_spec s1 o b V _ e (set_i_lock k i) H1 Hc1); [by apply list_lookup_insert_eq|done|done]|]. intros [] s2 (i' & H2 & Hc2 & R2 & N2).
  rewrite list_insert_insert_eq in H2, Hc2. by exists i'.
Qed.

(** ** Directories *)

(** The file with the blocks of inode [n]. *)
Definition dbytes (V : Z -> list Z) (n : Z) (off len : nat) : list Z := fbytes V [dino V n] 0 off len.
Definition dirent_at (V : Z -> list Z) (n : Z) (k : nat) : list Z := dbytes V n (16 * k) 16.

(** Entry [k] of directory [n] is for [name]. *)
Definition matches (V : Z -> list Z) (n : Z) (name : list Z) (k : nat) : bool :=
  negb (de_inum (dirent_at V n k) =? 0) && (namecmp name (de_name (dirent_at V n k)) =? 0).

(** The entries before [k] can be read. *)
Record readable (V : Z -> list Z) (n : Z) (k : nat) : Prop := {
  rd_finv : finv V [dino V n] [0%nat];
  rd_size : Z.of_nat (16 * k) <= i_size (dino V n);
  rd_present : present V [dino V n] 0 (16 * k) }.

(** Entry [k] is the first one for [name], and names inode [m]; or there is none. *)
Definition finds (V : Z -> list Z) (n : Z) (name : list Z) (k : nat) (m : Z) : Prop :=
  readable V n (S k) /\ (forall j, (j < k)%nat -> matches V n name j = false) /\ matches V n name k = true /\ m = de_inum (dirent_at V n k).
Definition absent (V : Z -> list Z) (n : Z) (name : list Z) : Prop :=
  let k := dir_slots (i_size (dino V n)) in readable V n k /\ forall j, (j < k)%nat -> matches V n name j = false.

Lemma ref_loaded V I e i k : I !! e = Some i -> loaded V i -> ref V I e k = ref V [dino V (i_inum i)] 0 k.
Proof. intros Hi (_ & _ & _ & _ & _ & Ha). unfold ref. rewrite Hi. cbn [lookup list_lookup]. by rewrite Ha. Qed.

Lemma finv_loaded V I e i : I !! e = Some i -> loaded V i -> i_dev i = 1 -> finv V [dino V (i_inum i)] [0%nat] -> finv V I [e].
Proof.
  intros Hi Hl Hd [F1 F2 F3 F4 F5]. pose proof (fun k => ref_loaded V I e i k Hi Hl) as Hr. destruct Hl as (L1 & L2 & L3 & L4 & L5 & L6). constructor; [done|done| | |].
  - intros j ->%list_elem_of_singleton. exists i. split; [done|]. destruct (F3 0%nat ltac:(by left)) as (i' & [= <-] & [O1 O2 O3 O4 O5]). constructor; try congruence.
    exact O2.
  - intros j k ->%list_elem_of_singleton Hk. rewrite Hr. apply F4; [by left|done].
  - intros j k j' k' ->%list_elem_of_singleton ->%list_elem_of_singleton Hk Hk'. rewrite !Hr. intros Hnz E. split; [done|].
    by apply (F5 0%nat k 0%nat k'); [left|left| | | |].
Qed.

Lemma fbytes_loaded V I e i off len : I !! e = Some i -> loaded V i -> fbytes V I e off len = dbytes V (i_inum i) off len.
Proof.
  intros Hi Hl. unfold dbytes, fbytes. apply map_ext. intros pos. unfold fbyte, dat. by rewrite (ref_loaded V I e i _ Hi Hl).
Qed.

Lemma readable_le V n k k' : readable V n k' -> (k <= k')%nat -> readable V n k.
Proof. intros [F S P] Hk. constructor; [done|lia|]. intros m Hm. apply P. lia. Qed.

Lemma read_dirent_spec msg s o b V I e i k : ftx s [] o b V I -> I !! e = Some i -> loaded V i -> i_dev i = 1 -> readable V (i_inum i) (S k) ->
  wp (read_dirent dev_read msg e (16 * Z.of_nat k)) (fun de s' => de = dirent_at V (i_inum i) k /\ ftx s' [] o b V I) s.
Proof.
  intros Hs Hi Hl Hd [F S P]. unfold read_dirent. apply wp_bind. replace (16 * Z.of_nat k) with (Z.of_nat (16 * k)) by lia. change 16 with (Z.of_nat 16).
  eapply wp_mono; [apply (readi_spec G sb dev_read s o b V I [e] e i (16 * k) 16); try done|].
  - by eapply finv_loaded.
  - by left.
  - destruct Hl as (_ & _ & _ & _ & -> & _). lia.
  - intros m Hm. rewrite (ref_loaded V I e i) by done. apply P. lia.
  - intros r s' [-> Hs']. rewrite length_fbytes. cbn [Nat.eqb]. apply wp_ret. split; [|done]. by apply fbytes_loaded.
Qed.

Lemma slots_lt size k : Z.of_nat (16 * S k) <= size -> (k < dir_slots size)%nat.
Proof. intros Hs. unfold dir_slots. assert (Z.of_nat (S k) <= (size + 15) / 16) by (apply Z.div_le_lower_bound; lia). lia. Qed.

(** One entry. *)
Lemma dirlookup_entry s o b V I e i name j (Q : option (nat * Z) -> fsst -> Prop) : ftx s [] o b V I -> I !! e = Some i -> loaded V i -> i_dev i = 1 ->
  readable V (i_inum i) (S j) ->
  (forall s', ftx s' [] o b V I -> if matches V (i_inum i) name j then
     wp (let! ip := iget 1 (de_inum (dirent_at V (i_inum i) j)) in ret (Some (ip, 16 * Z.of_nat j))) Q s' else Q None s') ->
  wp (let off := 16 * Z.of_nat j in
      let! de := read_dirent dev_read "dirlookup read" e off in
      if de_inum de =? 0 then ret None
      else if namecmp name (de_name de) =? 0 then let! ip := iget (i_dev i) (de_inum de) in ret (Some (ip, off)) else ret None) Q s.
Proof.
  intros Hs Hi Hl Hd Hr HQ. cbv zeta. apply wp_bind. eapply wp_mono; [by apply (read_dirent_spec _ s o b V I e i j)|]. intros de s1 [-> H1].
  specialize (HQ s1 H1). unfold matches in HQ. rewrite Hd. destruct (de_inum _ =? 0); cbn [negb andb] in HQ; [by apply wp_ret|].
  destruct (namecmp _ _ =? 0); [done|by apply wp_ret].
Qed.

Lemma dirlookup_finds s o b V I e i name k m : ftx s [] o b V I -> icache V I (Some e) -> I !! e = Some i -> loaded V i -> i_dev i = 1 -> i_type i = T_DIR ->
  finds V (i_inum i) name k m -> inum_ok sb m -> refs I m < 2 ^ 31 - 1 -> (1 <= spare I)%nat ->
  wp (dirlookup dev_read e name) (fun r s' => exists e' I', r = Some (e', 16 * Z.of_nat k) /\ ftx s' [] o b V I' /\ got V I I' (Some e) m e') s.
Proof.
  intros Hs Hc Hi Hl Hd Ht (Hr & Hlow & Hk & ->) Hm Hrefs Hsp. unfold dirlookup. apply wp_bind. eapply wp_geti; [done..|]. rewrite Ht. cbn [negb Z.eqb T_DIR Pos.eqb].
  apply (wp_for_range (fun j s' => ftx s' [] o b V I /\ (j <= k)%nat)); [split; [done|lia]| |].
  - intros j s1 _ [H1 Hj]. eapply (dirlookup_entry s1 o b V I e i name j); try done; [eapply readable_le; [exact Hr|lia]|]. intros s2 H2.
    destruct (decide (j = k)) as [->|Hne].
    + rewrite Hk. apply wp_bind. eapply wp_mono; [by apply (iget_spec s2 [] o b V I (Some e))|]. intros e' s3 (I' & H3 & Hg). apply wp_ret. by exists e', I'.
    + rewrite Hlow by lia. split; [done|lia].
  - intros s1 [_ Hj]. exfalso. pose proof (slots_lt (i_size i) k) as Hlt. destruct Hl as (_ & _ & _ & _ & Es & _). rewrite Es in *. specialize (Hlt (rd_size _ _ _ Hr)). lia.
Qed.

Lemma dirlookup_absent s o b V I e i name : ftx s [] o b V I -> I !! e = Some i -> loaded V i -> i_dev i = 1 -> i_type i = T_DIR ->
  absent V (i_inum i) name -> wp (dirlookup dev_read e name) (fun r s' => r = None /\ ftx s' [] o b V I) s.
Proof.
  intros Hs Hi Hl Hd Ht [Hr Hno]. unfold dirlookup. apply wp_bind. eapply wp_geti; [done..|]. rewrite Ht. cbn [negb Z.eqb T_DIR Pos.eqb].
  assert (i_size i = i_size (dino V (i_inum i))) as Es by apply Hl. rewrite Es.
  apply (wp_for_range (fun _ s' => ftx s' [] o b V I)); [done| |done].
  intros j s1 Hj H1. eapply (dirlookup_entry s1 o b V I e i name j); try done; [eapply readable_le; [exact Hr|lia]|]. intros s2 H2. by rewrite Hno by lia.
Qed.

(** ** Paths *)

(** An inode that can be reached: allocated, with a link to it. *)
Definition good (V : Z -> list Z) (n : Z) : Prop := inum_ok sb n /\ i_type (dino V n) <> 0 /\ i_nlink (dino V n) <> 0.

(** From inode [n], [path] leads to the inode of the result; [None] when a name is missing or not
    in a directory. *)
Inductive resolves (V : Z -> list Z) : Z -> list Z -> option Z -> Prop :=
| rs_end n path : skipelem path = None -> resolves V n path (Some n)
| rs_file n path rest name : skipelem path = Some (rest, name) -> i_type (dino V n) <> T_DIR -> resolves V n path None
| rs_absent n path rest name : skipelem path = Some (rest, name) -> i_type (dino V n) = T_DIR -> absent V n name -> resolves V n path None
| rs_step n path rest name k m r : skipelem path = Some (rest, name) -> i_type (dino V n) = T_DIR -> finds V n name k m -> good V m ->
    resolves V m rest r -> resolves V n path r.

Lemma length_skip_slashes path : (length (skip_slashes path) <= length path)%nat.
Proof. induction path as [|c path IH]; [done|]. cbn [skip_slashes]. case_match; cbn [length] in *; lia. Qed.

Lemma split_elem_length path : (length (split_elem path).1 + length (split_elem path).2 = length path)%nat.
Proof. induction path as [|c path IH]; [done|]. cbn [split_elem]. case_match; [done|]. destruct (split_elem path). cbn in *. lia. Qed.

Lemma skipelem_length path rest name : skipelem path = Some (rest, name) -> (length rest < length path)%nat.
Proof.
  unfold skipelem. pose proof (length_skip_slashes path) as H1. destruct (skip_slashes path) as [|c p] eqn:E; [done|]. destruct (split_elem (c :: p)) as [e r] eqn:Es.
  intros [= <- _]. pose proof (split_elem_length (c :: p)) as H2. rewrite Es in H2. cbn [fst snd length] in H2. pose proof (length_skip_slashes r) as H3. cbn [length] in H1.
  destruct e as [|x e]; [|cbn [length] in H2; lia]. exfalso. cbn [split_elem] in Es. destruct (Z.eqb_spec c SLASH) as [->|Hne]; [|destruct (split_elem p); done].
  clear -E. induction path as [|d path IH]; [done|]. cbn [skip_slashes] in E. destruct (Z.eqb_spec d SLASH) as [|Hd]; [by apply IH|]. congruence.
Qed.

(** References other than the one held to [n]. *)
Definition others (I : list inode) (n m : Z) : Z := refs I m - (if decide (m = n) then 1 else 0).
Definition free_if_put (i : inode) : nat := if decide (i_ref i = 1) then 1 else 0.

Lemma refs_same I e i i' m : I !! e = Some i -> i_ref i' = i_ref i -> i_inum i' = i_inum i -> refs (<[e := i']> I) m = refs I m.
Proof. intros Hi Hr Hn. rewrite (refs_insert I e i i' m Hi). unfold refs_of. rewrite Hr, Hn. lia. Qed.

Lemma spare_same I e i i' : I !! e = Some i -> i_ref i' = i_ref i -> spare (<[e := i']> I) = spare I.
Proof. intros Hi Hr. pose proof (spare_insert I e i i' Hi) as E. unfold unused_entry in E. rewrite Hr in E. lia. Qed.

(** From a locked directory at [e] to the inode at [e']: one reference is taken, one given back. *)
Lemma move_ref V I1 I2 e i1 m e' : I1 !! e = Some i1 -> 1 <= i_ref i1 -> got V I1 I2 (Some e) m e' ->
  exists x, I2 !! e = Some x /\ i_ref i1 <= i_ref x <= i_ref i1 + 1 /\ i_inum x = i_inum i1 /\
  forall x', i_ref x' = i_ref x - 1 -> i_inum x' = i_inum x -> exists j, <[e := x']> I2 !! e' = Some j /\ i_inum j = m /\ 1 <= i_ref j /\
    (spare (<[e := x']> I2) + free_if_put j = spare I1 + free_if_put i1)%nat /\
    forall p, others (<[e := x']> I2) m p = others I1 (i_inum i1) p.
Proof.
  intros Hi Hr [Hc2 (j & j' & Hj & -> & Rj & Nj & Hj0 & Hin)]. pose proof (lookup_lt_Some _ _ _ Hi) as Hlt. pose proof (lookup_lt_Some _ _ _ Hj) as Hlt'.
  destruct (decide (e' = e)) as [->|Hne].
  - assert (j = i1) as -> by congruence. specialize (Hin Hr). exists j'. rewrite list_lookup_insert_eq by done. split_and!; [done|lia|lia|congruence|]. intros x' Rx Nx.
    exists x'. rewrite list_insert_insert_eq, list_lookup_insert_eq by done. split_and!; [done|congruence|lia| |].
    + rewrite (spare_same I1 e i1 x') by (done || lia). unfold free_if_put. by replace (i_ref x') with (i_ref i1) by lia.
    + intros p. unfold others. rewrite (refs_same I1 e i1 x') by (done || lia || congruence). by rewrite Hin.
  - assert (<[e' := j']> I1 !! e = Some i1) as He by (by rewrite list_lookup_insert_ne). exists i1. split_and!; [done|lia|lia|done|]. intros x' Rx Nx. exists j'.
    rewrite (list_lookup_insert_ne _ e e'), list_lookup_insert_eq by done. split_and!; [done|done|lia| |].
    + pose proof (spare_insert _ e i1 x' He) as S1. pose proof (spare_insert I1 e' j j' Hj) as S2. unfold unused_entry, free_if_put in *. repeat case_decide; lia.
    + intros p. unfold others. rewrite (refs_insert _ e i1 x' p He), (refs_insert I1 e' j j' p Hj). assert (refs_of p j = if decide (m = p) then i_ref j else 0) as ->.
      { unfold refs_of. destruct (decide (i_ref j = 0)) as [->|]; [by repeat case_decide|]. by rewrite Hin by lia. }
      unfold refs_of. rewrite Nx, Nj, Rx, Rj. repeat case_decide; (congruence || lia).
Qed.

(** What namei leaves: the entry of the inode found, and one reference more to it. *)
Definition found (V : Z -> list Z) (base : Z -> Z) (r : option Z) (res : option nat) (I' : list inode) : Prop :=
  icache V I' None /\ (forall p, refs I' p = base p + (if decide (r = Some p) then 1 else 0)) /\
  match r with
  | Some m => exists e i, res = Some e /\ I' !! e = Some i /\ i_inum i = m /\ 1 <= i_ref i
  | None => res = None
  end.

(** A directory is given up. *)
Lemma drop_ref s o b V I e i base n : ftx s [] o b V I -> icache V I (Some e) -> I !! e = Some i -> 1 <= i_ref i < 2 ^ 31 -> i_inum i = n -> good V n ->
  (forall p, others I n p = base p) ->
  wp (iunlockput e) (fun _ s' => exists I', ftx s' [] o b V I' /\ found V base None None I') s.
Proof.
  intros Hs Hc Hi Hr Hn (_ & _ & Hnl) Hb. eapply wp_mono; [apply (iunlockput_spec s o b V I e i); try done|].
  - intros Hv. destruct (ic_entry _ _ _ Hc e i Hi ltac:(lia)) as (_ & _ & Hl). destruct (Hl Hv) as (_ & _ & _ & -> & _). by rewrite Hn.
  - intros [] s' (i' & H' & Hc' & Rf & Nf). eexists. split; [exact H'|]. split; [done|]. split; [|done]. intros p. rewrite (refs_insert I e i i' p Hi). unfold refs_of.
    rewrite Rf, Nf, Hn, <- Hb. unfold others. repeat case_decide; (congruence || lia).
Qed.

Lemma namex_loop V base n path r : (forall p, base p < 2 ^ 31 - 3) -> resolves V n path r -> forall fuel s o b I e i nm, (length path < fuel)%nat -> ftx s [] o b V I -> icache V I None ->
  I !! e = Some i -> i_inum i = n -> 1 <= i_ref i -> good V n -> (forall p, others I n p = base p) -> (2 <= spare I + free_if_put i)%nat ->
  wp (loop fuel (namex_body dev_read false) (e, path, nm)) (fun res s' => exists I', ftx s' [] o b V I' /\ found V base r res.1 I') s.
Proof.
  intros Hbase Hres. induction Hres as [n path Hp|n path rest name Hp Ht|n path rest name Hp Ht Hab|n path rest name k m r Hp Ht Hfi Hgm Hres IH];
    intros fuel s o b I e i nm Hfuel Hs Hc Hi Hn Hr Hgood Hb Hsp; (destruct fuel as [|fuel]; [lia|]); cbn [loop]; apply wp_bind; cbn [namex_body]; rewrite Hp.
  { apply wp_ret, wp_ret. exists I. split; [done|]. split; [done|]. split; [|by exists e, i]. intros p. rewrite <- Hb. unfold others. repeat case_decide; (congruence || lia). }
  all: pose proof (ref_le_refs I e i (ic_ref _ _ _ Hc) Hi) as Hle; pose proof (Hb n) as Hbn; unfold others in Hbn; rewrite decide_True in Hbn by done;
    pose proof (Hbase n); rewrite Hn in Hle;
    apply wp_bind; (eapply wp_mono; [apply (ilock_spec s o b V I e i); try done; rewrite Hn; apply Hgood|]); intros [] s1 (i1 & H1 & Hc1 & R1 & N1 & D1 & L1 & V1);
    pose proof (lookup_lt_Some _ _ _ Hi) as Hlt; assert (<[e := i1]> I !! e = Some i1) as Hi1 by (by apply list_lookup_insert_eq);
    assert (forall p, others (<[e := i1]> I) n p = base p) as Hb1 by (intros p; rewrite <- Hb; unfold others; by rewrite (refs_same I e i i1));
    set (I1 := <[e := i1]> I) in *; rewrite Hn in N1;
    apply wp_bind; (eapply wp_geti; [exact H1|exact Hi1|]); (assert (i_type i1 = i_type (dino V n)) as -> by (rewrite <- N1; apply L1)).
  - rewrite (proj2 (Z.eqb_neq _ _) Ht). cbn [negb]. apply wp_bind. eapply wp_mono; [apply (drop_ref s1 o b V I1 e i1 base n); try done; lia|].
    intros [] s2 (I2 & H2 & F2). apply wp_ret, wp_ret. by exists I2.
  - rewrite Ht. cbn [negb Z.eqb T_DIR Pos.eqb andb]. apply wp_bind. rewrite <- N1 in Hab, Ht.
    eapply wp_mono; [apply (dirlookup_absent s1 o b V I1 e i1 name H1 Hi1 L1 D1); [rewrite <- Ht; apply L1|done]|]. intros r s2 [-> H2].
    apply wp_bind. eapply wp_mono; [apply (drop_ref s2 o b V I1 e i1 base n); try done; lia|]. intros [] s3 (I3 & H3 & F3). apply wp_ret, wp_ret. by exists I3.
  - rewrite Ht. cbn [negb Z.eqb T_DIR Pos.eqb andb]. apply wp_bind. rewrite <- N1 in Hfi, Ht.
    assert (refs I1 m < 2 ^ 31 - 1) as Hrm by (specialize (Hb1 m); unfold others in Hb1; pose proof (Hbase m); case_decide; lia).
    assert (1 <= spare I1)%nat as Hsp1 by (unfold I1; rewrite (spare_same I e i i1) by done; unfold free_if_put in Hsp; case_decide; lia).
    eapply wp_mono; [apply (dirlookup_finds s1 o b V I1 e i1 name k m H1 Hc1 Hi1 L1 D1); [rewrite <- Ht; apply L1|done|apply Hgm|done|done]|].
    intros r' s2 (e' & I2 & -> & H2 & Hg). destruct (move_ref V I1 I2 e i1 m e' Hi1 ltac:(lia) Hg) as (x & Hx & Rx & Nx & Hmove).
    apply wp_bind. eapply wp_mono; [apply (iunlockput_spec s2 o b V I2 e x); [done|apply Hg|done|lia|]|].
    { intros Hv. destruct (ic_entry _ _ _ (go_cache _ _ _ _ _ _ Hg) e x Hx ltac:(lia)) as (_ & _ & Hl). destruct (Hl Hv) as (_ & _ & _ & -> & _). rewrite Nx, N1. apply Hgood. }
    intros [] s3 (x' & H3 & Hc3 & R3 & N3). destruct (Hmove x' R3 N3) as (j & Hj & Nj & Rj & Sj & Oj). apply wp_ret.
    apply (IH fuel s3 o b (<[e := x']> I2) e' j name); try done.
    + pose proof (skipelem_length _ _ _ Hp). lia.
    + intros p. rewrite Oj, N1. apply Hb1.
    + rewrite Sj. unfold I1. rewrite (spare_same I e i i1) by done. unfold free_if_put in *. by rewrite R1.
Qed.

(** The inode at which a path starts. *)
Definition starts (s : fsst) (path : list Z) (n : Z) : Prop :=
  if match path with c :: _ => c =? SLASH | [] => false end then n = ROOTINO
  else exists i, f_inodes s !! f_cwd s = Some i /\ i_inum i = n /\ 1 <= i_ref i.

Lemma idup_spec s held o b V I L e i : ftx s held o b V I -> icache V I L -> I !! e = Some i -> 1 <= i_ref i -> refs I (i_inum i) < 2 ^ 31 - 1 ->
  wp (idup e) (fun e' s' => e' = e /\ exists I', ftx s' held o b V I' /\ got V I I' L (i_inum i) e) s.
Proof.
  intros Hs Hc Hi Hr Hrefs. destruct (ic_entry _ _ _ Hc e i Hi Hr) as (E1 & E2 & E3). pose proof (ref_le_refs I e i (ic_ref _ _ _ Hc) Hi) as Hle.
  unfold idup. apply wp_bind, wp_icache_acquire; [apply Hs|]. apply wp_bind. eapply wp_updi_raw; [by cbn; rewrite (ft_ino _ _ _ _ _ _ _ _ Hs)|].
  apply wp_bind, wp_icache_release; [done|]. apply wp_ret. split; [done|]. eexists. split; [by apply ftx_icache|]. rewrite i32_small by lia.
  split; [|eexists i, _; split_and!; try done; lia]. eapply (icache_same V I L L e i); try done; [cbn; lia|exact (ic_lock _ _ _ Hc e i Hi)].
Qed.

(** The reference that namex starts with. *)
Lemma got_start V I I' n e : (2 <= spare I)%nat -> got V I I' None n e ->
  exists i, I' !! e = Some i /\ i_inum i = n /\ 1 <= i_ref i /\ (forall p, others I' n p = refs I p) /\ (2 <= spare I' + free_if_put i)%nat.
Proof.
  intros Hsp [_ (i & i' & Hi & -> & R & N & R0 & Hin)]. exists i'. rewrite list_lookup_insert_eq by (by eapply lookup_lt_Some). split_and!; [done|done|lia| |].
  - intros p. unfold others. rewrite (refs_insert I e i i' p Hi). assert (refs_of p i = if decide (n = p) then i_ref i else 0) as ->.
    { unfold refs_of. destruct (decide (i_ref i = 0)) as [->|]; [by repeat case_decide|]. by rewrite Hin by lia. }
    unfold refs_of. rewrite N, R. repeat case_decide; (congruence || lia).
  - pose proof (spare_insert I e i i' Hi) as S. unfold unused_entry, free_if_put in *. repeat case_decide; lia.
Qed.

Lemma namei_spec s o b V I n path r : ftx s [] o b V I -> icache V I None -> (forall p, refs I p < 2 ^ 31 - 3) -> (2 <= spare I)%nat ->
  starts s path n -> good V n -> resolves V n path r ->
  wp (namei dev_read path) (fun res s' => exists I', ftx s' [] o b V I' /\ found V (refs I) r res I') s.
Proof.
  intros Hs Hc Hrefs Hsp Hst Hg Hres. unfold namei, namex. apply wp_bind, wp_bind.
  apply (wp_mono _ (fun e s1 => exists I1, ftx s1 [] o b V I1 /\ got V I I1 None n e)).
  - unfold starts in Hst. destruct (match path with c :: _ => c =? SLASH | [] => false end).
    + subst n. apply (iget_spec s [] o b V I None ROOTINO); try done; [apply Hg|specialize (Hrefs ROOTINO); lia|lia].
    + destruct Hst as (i & Hi & <- & Hr). apply wp_bind, wp_gets. rewrite (ft_ino _ _ _ _ _ _ _ _ Hs) in Hi.
      eapply wp_mono; [apply (idup_spec s [] o b V I None (f_cwd s) i); try done; specialize (Hrefs (i_inum i)); lia|]. by intros e s1 [-> H1].
  - intros e s1 (I1 & H1 & Hgot). destruct (got_start V I I1 n e Hsp Hgot) as (i & Hi & Hn & Hr & Ho & Hs1).
    eapply wp_mono; [apply (namex_loop V (refs I) n path r Hrefs Hres _ s1 o b I1 e i []); try done; [lia|apply Hgot]|].
    intros res s2 H2. by apply wp_ret.
Qed.

(** C6: namei follows the path.  On an inode cache whose valid entries agree with the disk, with
    two free entries, namei of a path that leads on the disk from its starting inode (the root, or
    the current directory) through directories to an inode returns an entry of the cache for that
    inode, and nothing when a name is missing or an inode on the way is not a directory; the disk is
    unchanged, nothing is left locked, and of the references that were taken on the way exactly
    one is left, to the inode returned. *)
Theorem namei_resolves s o b V I n path r : ftx s [] o b V I -> icache V I None -> (forall p, refs I p < 2 ^ 31 - 3) -> (2 <= spare I)%nat ->
  starts s path n -> good V n -> resolves V n path r ->
  wp (namei dev_read path) (fun res s' => exists I', ftx s' [] o b V I' /\ found V (refs I) r res I') s.
Proof. apply namei_spec. Qed.

End namei.
