(* ===== verification/MkfsBoot.v ===== *)
(** * From mkfs to the kernel

    A kernel that starts on the image of mkfs, with an empty inode cache, finds every file of the
    command line by its name and reads its bytes. *)
From Stdlib Require Import ZArith Lia.
From stdpp Require Import base list numbers strings.
From S2P Require Import Prelude Block Bio BioSpec Log LogSpec LogThms Tx Fs FsInv FsSpec FileSpec FileStore Mkfs MkfsSpec MkfsInv MkfsThms Namei.
Import Prelude Fs FsSpec Mkfs.
Local Open Scope Z_scope.

Local Abbreviation finv := (finv mkfs_geom mkfs_sb).
Local Abbreviation dino := (dino mkfs_sb).

(** ** Names *)

Definition char_ok (c : Z) : Prop := 0 < c < 256.

Lemma strncmp_strncpy n p t : Forall char_ok p -> Forall char_ok t ->
  strncmp_chars n p (strncpy_chars n t) = 0 <-> strncpy_chars n p = strncpy_chars n t.
Proof.
  revert p t. induction n as [|n IH]; intros p t Hp Ht; [done|].
  assert (0 <= hd 0 p < 256 /\ 0 <= hd 0 t < 256) as [Ha Hb] by (split; [destruct Hp|destruct Ht]; unfold char_ok in *; cbn; lia).
  assert (Forall char_ok (tl p) /\ Forall char_ok (tl t)) as [Hp' Ht'] by (split; [by destruct Hp|by destruct Ht]).
  cbn [strncmp_chars strncpy_chars]. set (a := hd 0 p) in *. set (c := hd 0 t) in *. destruct (Z.eqb_spec c 0) as [Hc|Hc].
  - change (hd 0 (replicate (S n) 0)) with 0. destruct (Z.eqb_spec a 0) as [E|E]; [rewrite E; done|]. cbn [negb andb].
    rewrite Z.mod_small by lia. change (0 mod 256) with 0. split; [lia|]. intros [= ? _]. done.
  - cbn [hd tl]. destruct (Z.eqb_spec a 0) as [E|E].
    + rewrite E. cbn [negb andb]. rewrite (Z.mod_small c) by lia. change (0 mod 256) with 0. split; [lia|]. intros [= ? _]. congruence.
    + cbn [negb andb]. destruct (Z.eqb_spec a c) as [Eac|Eac].
      * rewrite IH by done. split; [by intros ->; rewrite Eac|by intros [= _ ?]].
      * rewrite !Z.mod_small by lia. split; [lia|]. intros [= ? _]. done.
Qed.

Lemma strncpy_take n t : strncpy_chars n (take n t) = strncpy_chars n t.
Proof. revert t. induction n as [|n IH]; intros [|c t]; [done..|]. cbn [take strncpy_chars hd tl]. by rewrite IH. Qed.

(** The name in a path of one element. *)
Definition cut (name : list Z) : list Z := if (DIRSIZ <=? length name)%nat then take DIRSIZ name else name.

Lemma strncpy_cut name : strncpy_chars DIRSIZ (cut name) = strncpy_chars DIRSIZ name.
Proof. unfold cut. case_match; [apply strncpy_take|done]. Qed.

Lemma split_elem_one name : existsb (Z.eqb 47) name = false -> split_elem name = (name, []).
Proof.
  induction name as [|c name IH]; intros Hn; [done|]. cbn [existsb] in Hn. apply orb_false_iff in Hn as [Hc Hn]. cbn [split_elem]. unfold SLASH.
  rewrite Z.eqb_sym, Hc, IH by done. done.
Qed.

Lemma skipelem_one name : name <> [] -> existsb (Z.eqb 47) name = false -> skipelem (SLASH :: name) = Some ([], cut name).
Proof.
  intros Hne Hn. unfold skipelem. cbn [skip_slashes]. rewrite Z.eqb_refl. destruct name as [|c name]; [done|].
  assert (skip_slashes (c :: name) = c :: name) as ->.
  { cbn [existsb] in Hn. apply orb_false_iff in Hn as [Hc _]. cbn [skip_slashes]. unfold SLASH. by rewrite Z.eqb_sym, Hc. }
  by rewrite split_elem_one.
Qed.

(** ** The root directory *)

Definition dir_names (files : list (list Z * list Z)) : list (list Z) := [46] :: [46; 46] :: map (fun f => skip_underscore f.1) files.
Definition dir_inum (j : nat) : Z := if (j <? 2)%nat then 1 else Z.of_nat j.

Definition root_entries (files : list (list Z * list Z)) : list (list Z) :=
  mk_dirent 1 [46] :: mk_dirent 1 [46; 46] :: imap (fun k f => mk_dirent (Z.of_nat (k + 2)) (skip_underscore f.1)) files.

Lemma root_entry files j name : dir_names files !! j = Some name -> root_entries files !! j = Some (mk_dirent (dir_inum j) name).
Proof.
  destruct j as [|[|j]]; [by intros [= <-]|by intros [= <-]|]. intros Hj. change (root_entries files !! S (S j)) with (imap (fun k f => mk_dirent (Z.of_nat (k + 2)) (skip_underscore f.1)) files !! j).
  change (dir_names files !! S (S j)) with (((fun f : list Z * list Z => skip_underscore f.1) <$> files) !! j) in Hj. rewrite list_lookup_fmap in Hj. rewrite list_lookup_imap.
  destruct (files !! j); [|done]. injection Hj as <-. cbn [fmap option_fmap option_map]. do 2 f_equal. unfold dir_inum. cbn [Nat.ltb Nat.leb]. lia.
Qed.

Lemma concat_chunk (l : list (list Z)) j e n : Forall (fun x => length x = n) l -> l !! j = Some e -> take n (drop (n * j) (concat l)) = e.
Proof.
  revert j. induction l as [|x l IH]; intros [|j] Hl Hj; [done|done| |]; inversion Hl as [|? ? Hx Hl']; subst.
  - injection Hj as ->. rewrite Nat.mul_0_r, drop_0. cbn [concat]. by apply take_app_length.
  - cbn [concat]. rewrite Nat.mul_succ_r, drop_app_ge by lia. replace (length x * j + length x - length x)%nat with (length x * j)%nat by lia. by apply IH.
Qed.

Lemma root_entries_length files : Forall (fun x => length x = 16%nat) (root_entries files).
Proof.
  apply Forall_lookup. intros j e Hj. destruct j as [|[|j]]; [injection Hj as <-; apply length_mk_dirent|injection Hj as <-; apply length_mk_dirent|].
  change (root_entries files !! S (S j)) with (imap (fun k f => mk_dirent (Z.of_nat (k + 2)) (skip_underscore f.1)) files !! j) in Hj. rewrite list_lookup_imap in Hj.
  destruct (files !! j); [|done]. injection Hj as <-. apply length_mk_dirent.
Qed.

Lemma de_inum_mk n name : 0 <= n < 65536 -> de_inum (mk_dirent n name) = n.
Proof.
  intros Hn. unfold de_inum, mk_dirent. rewrite get16_app_l by done. rewrite Z.mod_small by lia. by apply get16_bytes16.
Qed.

Lemma de_name_mk n name : de_name (mk_dirent n name) = strncpy_chars DIRSIZ name.
Proof. done. Qed.

(** ** The files on the image *)

Section boot.
Context (img : list (list Z)) (files : list (list Z * list Z)) (Him : image_of img files) (Hn : (length files <= 198)%nat).
Let V := image img.
Let J := image_inodes img (length files + 2).
Let T := seq 1 (length files + 1).

Lemma dino_image k : i_type (dino V (Z.of_nat k)) = i_type (image_inode img k) /\ i_nlink (dino V (Z.of_nat k)) = i_nlink (image_inode img k) /\
  i_size (dino V (Z.of_nat k)) = i_size (image_inode img k) /\ i_addrs (dino V (Z.of_nat k)) = i_addrs (image_inode img k).
Proof. done. Qed.

Lemma ref_image k q : k ∈ T -> ref V [dino V (Z.of_nat k)] 0 q = ref V J k q.
Proof.
  intros Hk%elem_of_seq. unfold ref, J. rewrite image_inodes_lookup by lia. done.
Qed.

Lemma finv_image k : k ∈ T -> finv V [dino V (Z.of_nat k)] [0%nat].
Proof.
  intros Hk. pose proof (fun q => ref_image k q Hk) as Hr. destruct (im_finv _ _ Him) as [F1 F2 F3 F4 F5]. fold V J T in F1, F2, F3, F4, F5. constructor; [done|done| | |].
  - intros j ->%list_elem_of_singleton. eexists. split; [done|]. destruct (F3 k Hk) as (i & Hi & Hok). apply elem_of_seq in Hk.
    unfold J in Hi. rewrite image_inodes_lookup in Hi by lia. injection Hi as <-. destruct Hok. by constructor.
  - intros j q ->%list_elem_of_singleton Hq. rewrite Hr. by apply F4.
  - intros j q j' q' ->%list_elem_of_singleton ->%list_elem_of_singleton Hq Hq'. rewrite !Hr. intros Hnz E. split; [done|]. by apply (F5 k q k q').
Qed.

Lemma dbytes_image k off len : k ∈ T -> dbytes mkfs_sb V (Z.of_nat k) off len = fbytes V J k off len.
Proof. intros Hk. unfold dbytes, fbytes. apply map_ext. intros pos. unfold fbyte, dat. by rewrite ref_image. Qed.

Lemma root_dirent j name : dir_names files !! j = Some name -> dirent_at mkfs_sb V 1 j = mk_dirent (dir_inum j) name.
Proof.
  intros Hj. assert (j < length files + 2)%nat as Hlt by (apply lookup_lt_Some in Hj; cbn [dir_names length] in Hj; rewrite length_map in Hj; lia).
  unfold dirent_at. change 1 with (Z.of_nat 1). rewrite dbytes_image by (apply elem_of_seq; lia).
  destruct (im_root _ _ Him) as (_ & _ & _ & _ & Hb). fold V J in Hb. rewrite <- (concat_chunk (root_entries files) j (mk_dirent (dir_inum j) name) 16 (root_entries_length files) (root_entry _ _ _ Hj)).
  change (concat (root_entries files)) with (root_bytes files). pose proof (length_root_bytes files) as Hl.
  apply (nth_ext _ _ 0 0); [rewrite length_fbytes, length_take, length_drop; lia|]. intros p Hp. rewrite length_fbytes in Hp. rewrite nth_fbytes by done.
  rewrite Hb by lia. rewrite !nth_lookup, lookup_take_lt, lookup_drop by done. done.
Qed.

Context (Hchars : Forall (fun f => Forall char_ok f.1) files) (Hnodup : NoDup (map (strncpy_chars DIRSIZ) (dir_names files))).

Lemma dir_names_ok j name : dir_names files !! j = Some name -> Forall char_ok name.
Proof.
  destruct j as [|[|j]]; [intros [= <-]; repeat constructor|intros [= <-]; repeat constructor|]. intros Hj.
  change (dir_names files !! S (S j)) with (((fun f : list Z * list Z => skip_underscore f.1) <$> files) !! j) in Hj. rewrite list_lookup_fmap in Hj.
  destruct (files !! j) as [f|] eqn:E; [|done]. injection Hj as <-. rewrite Forall_lookup in Hchars. specialize (Hchars j f E). unfold skip_underscore.
  case_match; [by destruct Hchars|done].
Qed.

(** The entry of a name is the first that matches. *)
Lemma matches_name j k name name' : dir_names files !! j = Some name -> dir_names files !! k = Some name' ->
  matches mkfs_sb V 1 (cut name') j = bool_decide (j = k).
Proof.
  intros Hj Hk. assert (j < length files + 2)%nat as Hlt by (apply lookup_lt_Some in Hj; cbn [dir_names length] in Hj; rewrite length_map in Hj; lia).
  unfold matches. rewrite (root_dirent j name Hj), de_name_mk, de_inum_mk by (unfold dir_inum; case_match; lia).
  assert (dir_inum j =? 0 = false) as -> by (apply Z.eqb_neq; unfold dir_inum; destruct (Nat.ltb_spec j 2); lia). cbn [negb andb]. unfold namecmp.
  assert (Forall char_ok (cut name')) as Hc by (unfold cut; case_match; [apply Forall_take|]; by eapply dir_names_ok).
  pose proof (strncmp_strncpy DIRSIZ (cut name') name Hc (dir_names_ok _ _ Hj)) as Hs. rewrite strncpy_cut in Hs. case_bool_decide as E.
  - subst k. apply Z.eqb_eq, Hs. congruence.
  - apply Z.eqb_neq. intros E0. apply E. apply Hs in E0. apply (proj1 (NoDup_alt _) Hnodup j k (strncpy_chars DIRSIZ name)); rewrite list_lookup_fmap, ?Hj, ?Hk; [done|exact (f_equal Some E0)].
Qed.

Lemma good_image k : k ∈ T -> good mkfs_sb V (Z.of_nat k).
Proof.
  intros Hk. pose proof Hk as Hk'%elem_of_seq. destruct (dino_image k) as (E1 & E2 & _ & _). unfold good. rewrite E1, E2. split; [unfold inum_ok; cbn; lia|].
  destruct (decide (k = 1%nat)) as [->|Hne]; [destruct (im_root _ _ Him) as (-> & -> & _); done|].
  destruct (lookup_lt_is_Some_2 files (k - 2)) as [f Hf]; [lia|]. destruct (im_file _ _ Him (k - 2) f Hf) as (E3 & E4 & _). replace (k - 2 + 2)%nat with k in * by lia.
  by rewrite E3, E4.
Qed.

Lemma image_resolves k f : files !! k = Some f -> skip_underscore f.1 <> [] -> existsb (Z.eqb 47) f.1 = false ->
  resolves mkfs_geom mkfs_sb V ROOTINO (SLASH :: skip_underscore f.1) (Some (Z.of_nat (k + 2))).
Proof.
  intros Hk Hne Hsl. set (name := skip_underscore f.1) in *. assert (existsb (Z.eqb 47) name = false) as Hsl'.
  { unfold name, skip_underscore. case_match; [|done]. destruct f.1 as [|c l]; [done|]. cbn [existsb] in Hsl. by apply orb_false_iff in Hsl as [_ ?]. }
  assert (dir_names files !! (k + 2)%nat = Some name) as Hd.
  { replace (k + 2)%nat with (S (S k)) by lia. change (dir_names files !! S (S k)) with (((fun f : list Z * list Z => skip_underscore f.1) <$> files) !! k).
    by rewrite list_lookup_fmap, Hk. }
  pose proof (lookup_lt_Some _ _ _ Hk) as Hlt. assert (1%nat ∈ T) as H1 by (apply elem_of_seq; lia). assert ((k + 2)%nat ∈ T) as H2 by (apply elem_of_seq; lia).
  destruct (im_root _ _ Him) as (Rt & Rn & Rs & Rp & _). fold V J in Rp. change ROOTINO with (Z.of_nat 1). destruct (dino_image 1) as (E1 & _ & E3 & _).
  eapply (rs_step _ _ V (Z.of_nat 1) _ [] (cut name) (k + 2) (Z.of_nat (k + 2))).
  - by apply skipelem_one.
  - by rewrite E1.
  - split; [|split; [|split]].
    + constructor; [by apply finv_image| |].
      * rewrite E3, Rs. Z.to_euclidean_division_equations; lia.
      * intros m Hm. rewrite ref_image by done. apply Rp. lia.
    + intros j Hj. destruct (lookup_lt_is_Some_2 (dir_names files) j) as [nj Hnj]; [apply lookup_lt_Some in Hd; lia|].
      change (Z.of_nat 1) with 1. rewrite (matches_name j (k + 2) nj name) by done. apply bool_decide_eq_false_2. lia.
    + change (Z.of_nat 1) with 1. rewrite (matches_name (k + 2) (k + 2) name name) by done. by apply bool_decide_eq_true_2.
    + change (Z.of_nat 1) with 1. rewrite (root_dirent (k + 2) name) by done. assert (dir_inum (k + 2) = Z.of_nat (k + 2)) as -> by (unfold dir_inum; by rewrite (proj2 (Nat.ltb_ge _ _)) by lia).
      by rewrite de_inum_mk by lia.
  - by apply good_image.
  - by apply rs_end.
Qed.

End boot.

(** ** The kernel on the image *)

(** The file system after binit and initlog, with no inode in the cache. *)
Definition boot_inode : inode := mkInode 0 0 0 (mkSleeplock false false "inode" 0 0) false 0 0 0 0 0 [].
Definition boot_fs (img : list (list Z)) (pid : Z) : fsst :=
  mkFsst (mkLst (boot_cache img pid) (idle_log 30)) false (replicate NINODE boot_inode) mkfs_sb 0.

Lemma boot_ftx img pid : length img = 1000%nat -> ftx mkfs_geom mkfs_sb (boot_fs img pid) [] 0 0 (image img) (replicate NINODE boot_inode).
Proof. intros Hl. constructor; try done. apply (boot_tx mkfs_geom img pid); cbn; rewrite ?Hl; (done || lia). Qed.

Lemma boot_icache V : icache mkfs_sb V (replicate NINODE boot_inode) None.
Proof.
  constructor.
  - intros j i [-> _]%lookup_replicate Hr. cbn in Hr. lia.
  - intros j j' i i' [-> _]%lookup_replicate _ Hr. cbn in Hr. lia.
  - by intros j i [-> _]%lookup_replicate.
  - by intros j i [-> _]%lookup_replicate.
Qed.

Lemma boot_refs m p : refs (replicate m boot_inode) p = 0.
Proof. induction m as [|m IH]; [done|]. cbn [replicate refs]. rewrite IH. unfold refs_of. by case_decide. Qed.

Section kernel.
Context (dev_read : Z -> option (nat -> Z -> M fsst (option (list Z)))).

(** Opening a file by its name and reading from it, as exec does. *)
Definition open_read (path : list Z) (off n : Z) : M fsst (option (list Z)) :=
  let! ip := namei dev_read path in
  match ip with
  | None => ret None
  | Some ip => ilock (Some ip) ;;; readi dev_read ip off n
  end.

(** C5: what mkfs wrote, the kernel reads.  On a kernel that starts on the image that mkfs built
    from files with different names, namei of / and the name of a file (without its leading
    underscore), ilock and readi return the bytes that were given to mkfs. *)
Theorem mkfs_kernel_reads argc files s k name c pid off n : 2 <= argc -> fits files ->
  Forall (fun f => Forall char_ok f.1) files -> NoDup (map (strncpy_chars DIRSIZ) (dir_names files)) ->
  main false argc true (map (fun f => (f.1, Some f.2)) files) mkfs_start = Ret tt s ->
  files !! k = Some (name, c) -> skip_underscore name <> [] -> (off + n <= length c)%nat ->
  exists s', open_read (SLASH :: skip_underscore name) (Z.of_nat off) (Z.of_nat n) (boot_fs (mk_img s) pid) = Ret (Some (take n (drop off c))) s'.
Proof.
  intros Hargc Hfit Hch Hnd Hrun Hk Hne Hoff. destruct (mkfs_image argc files Hargc Hfit) as (s2 & Hrun' & Him). assert (s2 = s) as -> by congruence.
  pose proof (fit_inodes _ Hfit) as Hn198. set (img := mk_img s) in *. pose proof (lookup_lt_Some _ _ _ Hk) as Hlt.
  assert ((k + 2)%nat ∈ seq 1 (length files + 1)) as HT by (apply elem_of_seq; lia). assert (1%nat ∈ seq 1 (length files + 1)) as HT1 by (apply elem_of_seq; lia).
  assert (existsb (Z.eqb 47) name = false) as Hsl by (pose proof (fit_names _ Hfit) as Hnm; rewrite Forall_lookup in Hnm; exact (Hnm k _ Hk)).
  pose proof (image_resolves img files Him Hn198 Hch Hnd k (name, c) Hk Hne Hsl) as Hres. pose proof (good_image img files Him Hn198 1 HT1) as Hg1.
  pose proof (good_image img files Him Hn198 (k + 2) HT) as (_ & Hty & _). destruct (im_file _ _ Him k (name, c) Hk) as (_ & _ & Hsz & Hbytes & Hpres). cbn [snd] in *.
  assert (wp (open_read (SLASH :: skip_underscore name) (Z.of_nat off) (Z.of_nat n)) (fun r _ => r = Some (take n (drop off c))) (boot_fs img pid)) as Hw.
  { unfold open_read. apply wp_bind. eapply wp_mono; [apply (namei_spec mkfs_geom mkfs_sb mkfs_layout dev_read (boot_fs img pid) 0 0 (image img) (replicate NINODE boot_inode) ROOTINO _ (Some (Z.of_nat (k + 2)))); try done|].
    - apply boot_ftx, Him.
    - apply boot_icache.
    - intros p. rewrite boot_refs. lia.
    - change (spare (replicate NINODE boot_inode)) with 50%nat. lia.
    - intros ip s1 (I1 & H1 & Hc1 & _ & e & i & -> & Hi & Hin & Hr). apply wp_bind.
      eapply wp_mono; [apply (ilock_spec mkfs_geom mkfs_sb mkfs_layout s1 0 0 (image img) I1 e i); try done; by rewrite Hin|]. intros [] s2 (i2 & H2 & Hc2 & R2 & N2 & D2 & L2 & _).
      assert (<[e := i2]> I1 !! e = Some i2) as Hi2 by (apply list_lookup_insert_eq; by eapply lookup_lt_Some). rewrite Hin in N2.
      eapply wp_mono; [apply (readi_spec mkfs_geom mkfs_sb dev_read s2 0 0 (image img) (<[e := i2]> I1) [e] e i2 off n); try done|].
      + eapply finv_loaded; [exact Hi2|exact L2|done|]. rewrite N2. by apply (finv_image img files).
      + by left.
      + destruct L2 as (_ & _ & _ & _ & -> & _). rewrite N2. destruct (dino_image img (k + 2)) as (_ & _ & -> & _). lia.
      + intros m Hm. rewrite (ref_loaded mkfs_sb (image img) _ e i2) by done. rewrite N2, (ref_image img files) by done. apply Hpres. lia.
      + intros r s3 [-> _]. f_equal. rewrite (fbytes_loaded mkfs_sb (image img) _ e i2) by done. rewrite N2, (dbytes_image img files) by done.
        rewrite <- Hbytes. symmetry. apply fbytes_slice. lia. }
  apply wp_elim in Hw as (r & s' & E & ->). by exists s'.
Qed.

End kernel.

(** ** An image *)

(** mkfs fs.img README _cat *)
Definition boot_files : list (list Z * list Z) := [([82; 69; 65; 68; 77; 69], [120; 118; 54; 10]); ([95; 99; 97; 116], replicate 600 7)].
Definition boot_args : list (list Z * option (list Z)) := map (fun f => (f.1, Some f.2)) boot_files.
Definition no_devices : Z -> option (nat -> Z -> M fsst (option (list Z))) := fun _ => None.

Lemma boot_fits : fits boot_files.
Proof.
  constructor.
  - repeat constructor.
  - repeat apply Forall_cons_2; [cbn [snd length]; lia|cbn [snd]; rewrite length_replicate; lia|apply Forall_nil_2].
  - cbn. lia.
  - by apply Nat.leb_le; vm_compute.
Qed.

Lemma boot_chars : Forall (fun f => Forall char_ok f.1) boot_files.
Proof. repeat constructor. Qed.

Lemma boot_nodup : NoDup (map (strncpy_chars DIRSIZ) (dir_names boot_files)).
Proof. apply (bool_decide_unpack _). by vm_compute. Qed.

Lemma mkfs_kernel_reads_witness : exists s s', main false 4 true boot_args mkfs_start = Ret tt s /\
  open_read no_devices [47; 99; 97; 116] (Z.of_nat 500) (Z.of_nat 100) (boot_fs (mk_img s) 1) = Ret (Some (take 100 (drop 500 (replicate 600 7)))) s'.
Proof.
  destruct (mkfs_image 4 boot_files ltac:(lia) boot_fits) as (s & E & _). exists s.
  destruct (mkfs_kernel_reads no_devices 4 boot_files s 1 [95; 99; 97; 116] (replicate 600 7) 1 500 100 ltac:(lia) boot_fits boot_chars boot_nodup E eq_refl) as [s' E'];
    [done|rewrite length_replicate; lia|]. exists s'. split; [exact E|exact E'].
Defined.

Lemma namei_resolves_witness : exists s, main false 4 true boot_args mkfs_start = Ret tt s /\
  wp (namei no_devices [47; 99; 97; 116]) (fun res s' => exists I', ftx mkfs_geom mkfs_sb s' [] 0 0 (image (mk_img s)) I' /\
    found mkfs_sb (image (mk_img s)) (refs (replicate NINODE boot_inode)) (Some 3) res I') (boot_fs (mk_img s) 1).
Proof.
  destruct (mkfs_image 4 boot_files ltac:(lia) boot_fits) as (s & E & Him). exists s. split; [exact E|].
  assert (1%nat ∈ seq 1 (length boot_files + 1)) as HT1 by (apply elem_of_seq; cbn; lia). assert (length boot_files <= 198)%nat as Hn by (cbn; lia).
  apply (namei_resolves mkfs_geom mkfs_sb mkfs_layout no_devices (boot_fs (mk_img s) 1) 0 0 (image (mk_img s)) (replicate NINODE boot_inode) ROOTINO [47; 99; 97; 116] (Some 3)).
  - apply boot_ftx, Him.
  - apply boot_icache.
  - intros p. rewrite boot_refs. lia.
  - change (spare (replicate NINODE boot_inode)) with 50%nat. lia.
  - done.
  - exact (good_image (mk_img s) boot_files Him Hn 1 HT1).
  - exact (image_resolves (mk_img s) boot_files Him Hn boot_chars boot_nodup 1 _ eq_refl ltac:(done) ltac:(done)).
Defined.
