(* ===== verification/Umalloc.v ===== *)
(** * The user memory allocator (src/umalloc.c)

    A Header is a pointer and a size in units of 8 bytes, in the memory of the process; the free
    blocks form a ring of headers in the order of their addresses that starts at the header
    [base] (a static variable, whose address is an argument).  sbrk grows the heap, or fails; when,
    is the kernel's decision and an argument.  The loops over the ring take fuel. *)
From Stdlib Require Import ZArith Lia.
From stdpp Require Import base list numbers strings.
From S2P Require Import Prelude Mem.
Local Open Scope Z_scope.

Definition HEADER : Z := 8.

Record ust := mkUst {
  u_mem : mem;
  u_freep : Z;
  u_brk : Z }.  (* the end of the heap, where sbrk continues *)
Definition set_u_mem (v : mem) (s : ust) : ust := mkUst v (u_freep s) (u_brk s).
Definition set_u_freep (v : Z) (s : ust) : ust := mkUst (u_mem s) v (u_brk s).
Definition set_u_brk (v : Z) (s : ust) : ust := mkUst (u_mem s) (u_freep s) v.

(** p->s.ptr and p->s.size *)
Definition h_ptr (p : Z) : M ust Z := gets (fun s => ld32 (u_mem s) p).
Definition h_size (p : Z) : M ust Z := gets (fun s => ld32 (u_mem s) (p + 4)).
Definition set_h_ptr (p v : Z) : M ust unit := modify (fun s => set_u_mem (st32 (u_mem s) p v) s).
Definition set_h_size (p v : Z) : M ust unit := modify (fun s => set_u_mem (st32 (u_mem s) (p + 4) v) s).

(** p + n for a Header *p *)
Definition padd (p n : Z) : Z := u32 (p + HEADER * n).

Section umalloc.
Context (base : Z) (may_grow : Z -> Z -> bool).

(** The break moves by [n], which may be negative, or stays where it is. *)
Definition sbrk (n : Z) : M ust Z := fun s =>
  if may_grow (u_brk s) n then Ret (u_brk s) (set_u_brk (u_brk s + n) s) else Ret (-1) s.

(** [for(p = freep; !(bp > p && bp < p->s.ptr); p = p->s.ptr)
       if(p >= p->s.ptr && (bp > p || bp < p->s.ptr)) break;] *)
Definition free_body (bp p : Z) : M ust (Z + Z) :=
  let! nx := h_ptr p in
  if (p <? bp) && (bp <? nx) then ret (inr p)
  else if (nx <=? p) && ((p <? bp) || (bp <? nx)) then ret (inr p)
  else ret (inl nx).

Definition free (fuel : nat) (ap : Z) : M ust unit :=
  let bp := ap - HEADER in
  let! p := gets u_freep in
  let! p := loop fuel (free_body bp) p in
  let! bsz := h_size bp in
  let! nx := h_ptr p in
  (if padd bp bsz =? nx then
     let! nsz := h_size nx in
     set_h_size bp (bsz + nsz) ;;;
     let! nnx := h_ptr nx in
     set_h_ptr bp nnx
   else set_h_ptr bp nx) ;;;
  (let! psz := h_size p in
   if padd p psz =? bp then
     let! bsz := h_size bp in
     set_h_size p (psz + bsz) ;;;
     let! bnx := h_ptr bp in
     set_h_ptr p bnx
   else set_h_ptr p bp) ;;;
  modify (set_u_freep p).

Definition morecore (fuel : nat) (nu : Z) : M ust Z :=
  let nu := if nu <? 4096 then 4096 else nu in
  let! p := sbrk (i32 (nu * HEADER)) in
  if p =? -1 then ret 0
  else
    set_h_size p nu ;;;
    free fuel (p + HEADER) ;;;
    gets u_freep.

(** One round of the loop of malloc. *)
Definition malloc_body (fuel : nat) (nunits : Z) (a : Z * Z) : M ust ((Z * Z) + Z) :=
  let '(prevp, p) := a in
  let! sz := h_size p in
  if nunits <=? sz then
    let! q :=
      (if sz =? nunits then
         let! nx := h_ptr p in
         set_h_ptr prevp nx ;;;
         ret p
       else
         set_h_size p (sz - nunits) ;;;
         let! sz := h_size p in
         let q := padd p sz in
         set_h_size q nunits ;;;
         ret q) in
    modify (set_u_freep prevp) ;;;
    ret (inr (q + HEADER))
  else
    let! f := gets u_freep in
    if p =? f then
      let! q := morecore fuel nunits in
      if q =? 0 then ret (inr 0)
      else let! nx := h_ptr q in ret (inl (q, nx))
    else
      let! nx := h_ptr p in
      ret (inl (p, nx)).

Definition malloc (fuel : nat) (nbytes : Z) : M ust Z :=
  let nunits := u32 (nbytes + HEADER - 1) / HEADER + 1 in
  let! f := gets u_freep in
  let! prevp :=
    (if f =? 0 then
       set_h_ptr base base ;;;
       modify (set_u_freep base) ;;;
       set_h_size base 0 ;;;
       ret base
     else ret f) in
  let! p := h_ptr prevp in
  loop fuel (malloc_body fuel nunits) (prevp, p).

End umalloc.
