(* ===== verification/UmallocThms.v ===== *)
(** * The allocator gives out disjoint blocks (umalloc.c)

    The invariant [heap s L A] says that the ring of headers is the list [L] of the free blocks in
    the order of their addresses, no two of them touching, that [A] are the blocks given out with
    their sizes still in their headers, that no two blocks overlap, and that free and given out
    blocks make up the whole heap.  free and malloc keep it and return; neither changes a byte
    that belongs to the program. *)
From Stdlib Require Import ZArith Lia Permutation.
From stdpp Require Import base sets list numbers strings.
From S2P Require Import Prelude Mem Umalloc.
Local Open Scope Z_scope.

(** A block: the address of its header and its size in units. *)
Notation blk := (Z * Z)%type.

(** ** Lists of blocks *)

Definition nxt (L : list blk) (z : Z) : Z := match L with [] => z | x :: _ => x.1 end.

(** The headers of [L] hold the sizes and point each to the next, the last one to [z]. *)
Fixpoint links (m : mem) (L : list blk) (z : Z) : Prop :=
  match L with
  | [] => True
  | x :: L' => ld32 m (x.1 + 4) = x.2 /\ ld32 m x.1 = nxt L' z /\ links m L' z
  end.

(** The blocks of [L] are in order between [lo] and [hi], with a gap before each. *)
Fixpoint chain (lo : Z) (L : list blk) (hi : Z) : Prop :=
  match L with
  | [] => lo <= hi
  | x :: L' => lo < x.1 /\ 1 <= x.2 /\ chain (x.1 + 8 * x.2) L' hi
  end.

Fixpoint stop (lo : Z) (L : list blk) : Z :=
  match L with [] => lo | x :: L' => stop (x.1 + 8 * x.2) L' end.

Definition units (L : list blk) : Z := foldr (fun x n => x.2 + n) 0 L.
Definition dj (x y : blk) : Prop := x.1 + 8 * x.2 <= y.1 \/ y.1 + 8 * y.2 <= x.1.
Definition apart (A L : list blk) : Prop := forall x y, x ∈ A -> y ∈ L -> dj x y.
Definition pairwise (A : list blk) : Prop := ForallOrdPairs dj A.

Lemma nxt_app L1 L2 z : nxt (L1 ++ L2) z = nxt L1 (nxt L2 z).
Proof. by destruct L1. Qed.

Lemma links_app m L1 L2 z : links m (L1 ++ L2) z <-> links m L1 (nxt L2 z) /\ links m L2 z.
Proof.
  induction L1 as [|x L1 IH]; simpl; [tauto|]. rewrite IH, nxt_app. tauto.
Qed.

Lemma links_frame m m' L z : (forall x y, x ∈ L -> x.1 <= y < x.1 + 8 -> ld8 m' y = ld8 m y) ->
  links m L z -> links m' L z.
Proof.
  induction L as [|x L IH]; intros Hm; [done|]. intros (Hs & Hp & Hl). split_and!.
  - rewrite <- Hs. apply ld32_ext. intros y ?. apply (Hm x); [set_solver|lia].
  - rewrite <- Hp. apply ld32_ext. intros y ?. apply (Hm x); [set_solver|lia].
  - apply IH; [|done]. intros x' y ??. apply (Hm x'); [set_solver|lia].
Qed.

Lemma chain_app lo L1 L2 hi :
  chain lo (L1 ++ L2) hi <-> chain lo L1 (stop lo L1) /\ chain (stop lo L1) L2 hi.
Proof.
  revert lo. induction L1 as [|x L1 IH]; intros lo; simpl; [intuition lia|]. rewrite IH. tauto.
Qed.

Lemma stop_app lo L1 L2 : stop lo (L1 ++ L2) = stop (stop lo L1) L2.
Proof. revert lo. induction L1 as [|x L1 IH]; intros lo; simpl; auto. Qed.

Lemma chain_le lo L hi : chain lo L hi -> lo <= hi.
Proof.
  revert lo. induction L as [|x L IH]; intros lo; simpl; [done|].
  intros (? & ? & H). apply IH in H. lia.
Qed.

Lemma chain_elem lo L hi x : chain lo L hi -> x ∈ L -> lo < x.1 /\ 1 <= x.2 /\ x.1 + 8 * x.2 <= hi.
Proof.
  revert lo. induction L as [|y L IH]; intros lo Hc Hx; [set_solver|].
  destruct Hc as (? & ? & Hc). pose proof (chain_le _ _ _ Hc).
  apply elem_of_cons in Hx as [->|Hx]; [lia|]. apply (IH _ Hc) in Hx. lia.
Qed.

Lemma chain_lower lo lo' L hi : lo' <= lo -> chain lo L hi -> chain lo' L hi.
Proof. destruct L as [|x L]; simpl; [lia|]. intuition lia. Qed.

Lemma chain_hi lo L hi hi' : hi <= hi' -> chain lo L hi -> chain lo L hi'.
Proof.
  revert lo. induction L as [|x L IH]; intros lo; simpl; [lia|]. naive_solver.
Qed.

Lemma units_app L1 L2 : units (L1 ++ L2) = units L1 + units L2.
Proof. unfold units. induction L1 as [|x L1 IH]; simpl; lia. Qed.

Lemma units_perm A B : A ≡ₚ B -> units A = units B.
Proof. unfold units. induction 1; simpl; lia. Qed.

Lemma dj_sym x y : dj x y -> dj y x.
Proof. unfold dj. tauto. Qed.

Lemma pairwise_perm A B : A ≡ₚ B -> pairwise A -> pairwise B.
Proof.
  unfold pairwise. induction 1 as [|x A B Hp IH|x y A|A B C _ IH1 _ IH2]; intros H; auto.
  - inversion_clear H as [|? ? H1 H2]. constructor; [by rewrite <- Hp|auto].
  - inversion_clear H as [|? ? H1 H2]. inversion_clear H1 as [|? ? H3 H4].
    inversion_clear H2 as [|? ? H5 H6]. constructor; [|by constructor].
    constructor; [by apply dj_sym|done].
Qed.

(** A block that overlaps none of the chain has its place in it. *)
Lemma chain_split lo L hi b : chain lo L hi -> (forall x, x ∈ L -> dj b x) ->
  lo < b.1 -> 1 <= b.2 -> b.1 + 8 * b.2 <= hi ->
  exists L1 L2, L = L1 ++ L2 /\ stop lo L1 <= b.1 /\ b.1 + 8 * b.2 <= nxt L2 hi.
Proof.
  revert lo. induction L as [|x L IH]; intros lo Hc Hd ???.
  { exists [], []. simpl. split_and!; [done|lia|lia]. }
  destruct Hc as (? & ? & Hc). destruct (Hd x) as [|]; [set_solver| |].
  - exists [], (x :: L). simpl. split_and!; [done|lia|lia].
  - destruct (IH (x.1 + 8 * x.2 - 1)) as (L1 & L2 & -> & ? & ?); try lia.
    { eapply chain_lower; [|exact Hc]. lia. }
    { intros; apply Hd; set_solver. }
    destruct L1 as [|y L1]; [|by exists (x :: y :: L1), L2].
    exists [x], L2. simpl. split_and!; [done|lia|done].
Qed.

(** ** Writing a header *)

(** [m'] is [m] but for the header at [a]. *)
Definition off_header (a : Z) (m m' : mem) : Prop :=
  forall y, y < a \/ a + 8 <= y -> ld8 m' y = ld8 m y.

Lemma header_ptr m a v : 0 <= v < 2 ^ 32 ->
  let m' := st32 m a v in
  ld32 m' (a + 4) = ld32 m (a + 4) /\ ld32 m' a = v /\ off_header a m m'.
Proof.
  intros Hv. simpl. split_and!.
  - apply ld32_st32_ne. lia.
  - rewrite ld32_st32_eq. by apply u32_small.
  - intros y ?. apply ld8_st32_out. lia.
Qed.

Lemma header_both m a n v : 0 <= n < 2 ^ 32 -> 0 <= v < 2 ^ 32 ->
  let m' := st32 (st32 m (a + 4) n) a v in
  ld32 m' (a + 4) = n /\ ld32 m' a = v /\ off_header a m m'.
Proof.
  intros Hn Hv. destruct (header_ptr (st32 m (a + 4) n) a v Hv) as (H1 & H2 & H3).
  simpl. split_and!; [|done|].
  - rewrite H1, ld32_st32_eq. by apply u32_small.
  - intros y ?. rewrite H3 by done. apply ld8_st32_out. lia.
Qed.

Lemma links_off a m m' L z : off_header a m m' ->
  (forall x, x ∈ L -> x.1 + 8 <= a \/ a + 8 <= x.1) -> links m L z -> links m' L z.
Proof. intros Hm Ha. apply links_frame. intros x y Hx ?. apply Hm. apply Ha in Hx. lia. Qed.

(** [K'] are the blocks [K], some of them joined. *)
Record joins (K K' : list blk) : Prop := {
  jn_units : units K' = units K;
  jn_len : (length K' <= length K)%nat;
  jn_apart y : 1 <= y.2 -> (forall x, x ∈ K -> dj y x) -> forall x, x ∈ K' -> dj y x;
  jn_pos : (forall x, x ∈ K -> 1 <= x.2) -> forall x, x ∈ K' -> 1 <= x.2;
  jn_holds x : (forall x, x ∈ K -> 1 <= x.2) -> x ∈ K -> exists x', x' ∈ K' /\ x.2 <= x'.2 }.

Lemma joins_refl K : joins K K.
Proof. split; [done|done|auto|auto|]. intros x _ ?. by exists x. Qed.

Lemma joins_perm K1 K2 K' : K1 ≡ₚ K2 -> joins K1 K' -> joins K2 K'.
Proof.
  intros HP [Hu Hl Hd Hp He].
  assert (forall x, x ∈ K1 -> x ∈ K2) as Hin by (intros x; by rewrite HP).
  pose proof (units_perm _ _ HP).
  split; [congruence|by rewrite <- (Permutation_length HP)|eauto..|].
  intros x Hx ?. apply He; [auto|by rewrite HP].
Qed.

Lemma joins_trans K K' K'' : joins K K' -> joins K' K'' -> joins K K''.
Proof.
  intros [? ? H1 P1 E1] [? ? H2 P2 E2]. split; [congruence|lia|eauto|eauto|].
  intros x Hp (x' & ? & ?)%E1; [|done]. destruct (E2 x') as (x'' & ? & ?); [auto|done|].
  exists x''. split; [done|lia].
Qed.

Lemma joins_adjacent K1 K2 a m n : joins (K1 ++ (a, m) :: (a + 8 * m, n) :: K2) (K1 ++ (a, m + n) :: K2).
Proof.
  split.
  - rewrite !units_app. unfold units. simpl. lia.
  - rewrite !length_app. simpl. lia.
  - intros y Hy H x [|[->|]%elem_of_cons]%elem_of_app; [apply H; set_solver| |apply H; set_solver].
    pose proof (H (a, m) ltac:(set_solver)) as H1.
    pose proof (H (a + 8 * m, n) ltac:(set_solver)) as H2. unfold dj in *. simpl in *. lia.
  - intros H x [|[->|]%elem_of_cons]%elem_of_app; [apply H; set_solver| |apply H; set_solver].
    pose proof (H (a, m) ltac:(set_solver)). pose proof (H (a + 8 * m, n) ltac:(set_solver)).
    simpl in *. lia.
  - intros x H Hx. pose proof (H (a, m) ltac:(set_solver)) as H1.
    pose proof (H (a + 8 * m, n) ltac:(set_solver)) as H2. simpl in H1, H2.
    apply elem_of_app in Hx as [|[->|[->|]%elem_of_cons]%elem_of_cons].
    + exists x. split; [set_solver|lia].
    + exists (a, m + n). split; [set_solver|simpl; lia].
    + exists (a, m + n). split; [set_solver|simpl; lia].
    + exists x. split; [set_solver|lia].
Qed.

Lemma joins_app K K1 K2 : joins K1 K2 -> joins (K ++ K1) (K ++ K2).
Proof.
  intros [Hu Hl Hd Hp He]. split.
  - rewrite !units_app. lia.
  - rewrite !length_app. lia.
  - intros y Hy H x [|]%elem_of_app; [apply H; set_solver|].
    apply Hd; [done| |done]. intros; apply H; set_solver.
  - intros H x [|]%elem_of_app; [apply H; set_solver|]. apply Hp; [|done]. intros; apply H; set_solver.
  - intros x H [|Hx]%elem_of_app; [exists x; split; [set_solver|lia]|].
    destruct (He x) as (x' & ? & ?); [intros; apply H; set_solver|done|].
    exists x'. split; [set_solver|lia].
Qed.

Section heap.
Context (base hs : Z).
Hypothesis Hbase : 0 < base /\ base + 8 <= hs.

(** The ring: [base], whose size is 0, and then the free blocks. *)
Definition ring (L : list blk) : list blk := (base, 0) :: L.

Record heap (s : ust) (L A : list blk) : Prop := {
  hp_ring : links (u_mem s) (ring L) base;
  hp_freep : u_freep s ∈ (ring L).*1;
  hp_chain : chain (hs - 1) L (u_brk s);
  hp_out x : x ∈ A -> hs <= x.1 /\ 1 <= x.2 /\ x.1 + 8 * x.2 <= u_brk s;
  hp_size x : x ∈ A -> ld32 (u_mem s) (x.1 + 4) = x.2;
  hp_apart : apart A L;
  hp_pair : pairwise A;
  hp_total : hs + 8 * (units L + units A) = u_brk s;
  hp_brk : u_brk s <= 2 ^ 31 }.

(** The bytes of the program: the blocks of [A] after their headers, and what is not heap. *)
Definition client (hi : Z) (A : list blk) (y : Z) : Prop :=
  (exists x, x ∈ A /\ x.1 + 8 <= y < x.1 + 8 * x.2) \/
  y < base \/ base + 8 <= y < hs \/ hi <= y.

Definition kept (A : list blk) (s s' : ust) : Prop :=
  forall y, client (u_brk s') A y -> ld8 (u_mem s') y = ld8 (u_mem s) y.

(** ** The walk of free to the place of its block *)

Section walk.
Context (L1 L2 : list blk) (bp : Z) (s : ust).
Hypothesis Hring : links (u_mem s) (ring L1 ++ L2) base.
Hypothesis Hlow : forall x, x ∈ ring L1 -> x.1 < bp.
Hypothesis Hhigh : forall x, x ∈ L2 -> bp < x.1.
Hypothesis Hord : forall X x y Y, ring L1 ++ L2 = X ++ x :: y :: Y -> x.1 < y.1.

Definition wpos (n : nat) (p : Z) (s' : ust) : Prop :=
  s' = s /\
  ((exists X x Y, ring L1 = X ++ x :: Y /\ p = x.1 /\ n = length Y) \/
   (exists X x Y, L2 = X ++ x :: Y /\ p = x.1 /\ n = (length Y + length (ring L1))%nat)).

Definition pred_of (p : Z) : Prop := exists X ps, ring L1 = X ++ [(p, ps)].

Lemma ring_next X x Y : ring L1 ++ L2 = X ++ x :: Y -> ld32 (u_mem s) x.1 = nxt Y base.
Proof. intros E. rewrite E in Hring. apply links_app in Hring as [_ (_ & ? & _)]. done. Qed.

Lemma base_first x : x ∈ ring L1 ++ L2 -> base <= x.1.
Proof.
  intros [X [Y E]]%list_elem_of_split.
  assert (forall Z x' W, ring L1 ++ L2 = Z ++ x' :: W -> base <= x'.1) as H; [|by eapply H].
  clear x X Y E. intros Z. induction Z as [|z Z IH] using rev_ind; intros x W E.
  - unfold ring in E. simpl in E. injection E as <- _. simpl. lia.
  - rewrite <- app_assoc in E. simpl in E. pose proof (IH z _ E). pose proof (Hord _ _ _ _ E). lia.
Qed.

Lemma free_round n p s' : wpos n p s' ->
  wp (free_body bp p) (fun r s'' => match r with
    | inl p' => exists n', (n' < n)%nat /\ wpos n' p' s''
    | inr q => s'' = s /\ pred_of q end) s'.
Proof.
  intros [-> Hp]. unfold free_body, h_ptr. apply wp_bind, wp_gets.
  destruct Hp as [(X & x & Y & E & -> & ->)|(X & x & Y & E & -> & ->)].
  - assert (x.1 < bp) as Hx by (apply Hlow; rewrite E; set_solver).
    assert (base <= x.1) by (apply base_first; rewrite E; set_solver).
    rewrite (ring_next X x (Y ++ L2)) by (by rewrite E, <- app_assoc).
    destruct Y as [|y Y]; simpl.
    + assert (s = s /\ pred_of x.1) as Hend.
      { split; [done|]. exists X, x.2. rewrite E. by destruct x. }
      destruct L2 as [|z L]; simpl.
      * zcase; apply wp_ret; done.
      * pose proof (Hhigh z ltac:(set_solver)). zcase; apply wp_ret; done.
    + assert (x.1 < y.1) by (apply (Hord X x y (Y ++ L2)); by rewrite E, <- app_assoc).
      assert (y.1 < bp) by (apply Hlow; rewrite E; set_solver).
      zcase; apply wp_ret. exists (length Y). split; [lia|]. split; [done|]. left.
      exists (X ++ [x]), y, Y. by rewrite <- app_assoc.
  - assert (bp < x.1) by (apply Hhigh; rewrite E; set_solver).
    assert (base < bp) by (apply (Hlow (base, 0)); unfold ring; set_solver).
    rewrite (ring_next (ring L1 ++ X) x Y) by (by rewrite E, app_assoc).
    destruct Y as [|y Y]; simpl.
    + zcase; apply wp_ret. exists (length L1). split; [lia|]. split; [done|]. left.
      by exists [], (base, 0), L1.
    + assert (x.1 < y.1) by (apply (Hord (ring L1 ++ X) x y Y); by rewrite E, app_assoc).
      zcase; apply wp_ret. exists (length Y + length (ring L1))%nat. split; [simpl; lia|].
      split; [done|]. right. exists (X ++ [x]), y, Y. by rewrite <- app_assoc.
Qed.

Lemma free_walk fuel p : p ∈ (ring L1 ++ L2).*1 -> (length (ring L1 ++ L2) < fuel)%nat ->
  wp (loop fuel (free_body bp) p) (fun q s' => s' = s /\ pred_of q) s.
Proof.
  intros (x & -> & Hx)%list_elem_of_fmap Hf. rewrite length_app in Hf.
  apply elem_of_app in Hx as [Hx|Hx]; apply list_elem_of_split in Hx as (X & Y & E).
  - apply (wp_loop wpos _ _ free_round _ (length Y)); [|split; [done|left; by exists X, x, Y]].
    rewrite E, length_app in Hf. simpl in Hf. lia.
  - apply (wp_loop wpos _ _ free_round _ (length Y + length (ring L1)));
      [|split; [done|right; by exists X, x, Y]].
    rewrite E, (length_app X) in Hf. simpl in *. lia.
Qed.

End walk.

(** ** Linking the block in *)

Section link.
Context (bp n hi : Z) (L1 L2 : list blk).
Hypothesis Hbp : hs <= bp.
Hypothesis Hn : 1 <= n.
Hypothesis Hhi : hi <= 2 ^ 31.
Hypothesis Hc1 : chain (hs - 1) L1 (stop (hs - 1) L1).
Hypothesis Hstop : stop (hs - 1) L1 <= bp.
Hypothesis Hnxt : bp + 8 * n <= nxt L2 hi.
Hypothesis Hc2 : chain (stop (hs - 1) L1) L2 hi.

Lemma above x : x ∈ L2 -> bp + 8 * n <= x.1 /\ 1 <= x.2 /\ x.1 + 8 * x.2 <= hi.
Proof.
  intros Hx. pose proof (chain_elem _ _ _ _ Hc2 Hx) as H. split; [|lia].
  destruct L2 as [|y K]; [set_solver|]. simpl in *. apply elem_of_cons in Hx as [->|Hx]; [done|].
  destruct Hc2 as (? & ? & HK). apply (chain_elem _ _ _ _ HK) in Hx. lia.
Qed.

Lemma below x : x ∈ ring L1 -> x.1 + 8 <= bp.
Proof.
  intros [->|Hx]%elem_of_cons; [simpl; lia|]. apply (chain_elem _ _ _ _ Hc1) in Hx. lia.
Qed.

Lemma block_fits : bp + 8 * n <= hi.
Proof.
  destruct L2 as [|x K]; simpl in *; [lia|]. destruct Hc2 as (_ & ? & H).
  apply chain_le in H. lia.
Qed.

(** A state where the block starts the rest of the ring. *)
Definition headed (s s' : ust) : Prop :=
  exists m' n' K, s' = set_u_mem m' s /\ off_header bp (u_mem s) m' /\
    links m' ((bp, n') :: K) base /\ chain (bp - 1) ((bp, n') :: K) hi /\
    joins ((bp, n) :: L2) ((bp, n') :: K).

Lemma headed_intro s m' n' K :
  ld32 m' (bp + 4) = n' /\ ld32 m' bp = nxt K base /\ off_header bp (u_mem s) m' ->
  (forall x, x ∈ K -> bp + 8 <= x.1) -> links (u_mem s) K base -> 1 <= n' ->
  chain (bp + 8 * n') K hi -> joins ((bp, n) :: L2) ((bp, n') :: K) ->
  headed s (set_u_mem m' s).
Proof.
  intros (Hs & Hp & Ho) HK Hl Hn' Hc Hj. exists m', n', K. split; [done|]. split; [done|].
  split; [|split; [simpl; split_and!; [lia..|done]|done]].
  split; [done|]. split; [done|]. eapply links_off; [exact Ho| |exact Hl].
  intros x Hx. apply HK in Hx. lia.
Qed.

Lemma nxt_range K : (forall x, x ∈ K -> bp + 8 <= x.1 <= hi) -> 0 <= nxt K base < 2 ^ 32.
Proof.
  intros H. destruct K as [|x K]; simpl; [pose proof block_fits; lia|].
  pose proof (H x ltac:(set_solver)). lia.
Qed.

Lemma link_next s : links (u_mem s) L2 base -> ld32 (u_mem s) (bp + 4) = n ->
  wp (if padd bp n =? nxt L2 base then
        let! nsz := h_size (nxt L2 base) in
        set_h_size bp (n + nsz) ;;;
        let! nnx := h_ptr (nxt L2 base) in
        set_h_ptr bp nnx
      else set_h_ptr bp (nxt L2 base)) (fun _ s' => headed s s') s.
Proof.
  intros Hl Hsz. pose proof block_fits as Hfit.
  assert (padd bp n = bp + 8 * n) as -> by (apply u32_small; unfold HEADER; lia).
  pose proof above as Hab. pose proof nxt_range as Hr.
  destruct (Z.eqb_spec (bp + 8 * n) (nxt L2 base)) as [E|E].
  - destruct L2 as [|[a k] K] eqn:EL; simpl in E; [lia|].
    destruct Hl as (Hk & Hp & HK). simpl in *.
    destruct (Hab (a, k) ltac:(set_solver)) as (Ha & Hk1 & Hahi). simpl in *.
    assert (forall x, x ∈ K -> bp + 8 <= x.1 <= hi) as HKa
      by (intros x Hx; destruct (Hab x ltac:(set_solver)); lia).
    unfold h_size, h_ptr, set_h_size, set_h_ptr. do 7 (wp_step; simpl). rewrite Hk.
    rewrite ld32_st32_ne, Hp by lia. unfold set_u_mem at 1. simpl.
    apply (headed_intro s _ (n + k) K); [|intros x Hx; apply HKa in Hx; lia|done|lia|..].
    + apply header_both; [lia|by apply Hr].
    + destruct Hc2 as (_ & _ & HcK). simpl in HcK.
      replace (bp + 8 * (n + k)) with (a + 8 * k) by lia. done.
    + rewrite EL, <- E. apply (joins_adjacent [] K bp n k).
  - apply wp_modify. apply (headed_intro s _ n L2); [| |done|done| |apply joins_refl].
    + rewrite <- Hsz at 1. apply header_ptr, Hr. intros x Hx. apply Hab in Hx. lia.
    + intros x Hx. apply Hab in Hx. lia.
    + destruct L2 as [|x K]; simpl in *; [lia|]. destruct Hc2 as (? & ? & ?). split_and!; [lia|lia|done].
Qed.

(** The last header of the ring before the block: [base], or a free block that may touch it. *)
Lemma last_header X p ps : ring L1 = X ++ [(p, ps)] ->
  padd p ps = p + 8 * ps /\ p + 8 <= bp /\ 0 < p /\ 0 <= ps /\
  (forall x, x ∈ X -> x.1 + 8 <= p) /\
  ((p + 8 * ps = bp /\ exists L0, X = ring L0 /\ L1 = L0 ++ [(p, ps)]) \/
   (p + 8 * ps <> bp /\ stop (hs - 1) L1 < bp)).
Proof.
  intros E. pose proof block_fits. destruct L1 as [|x K _] using rev_ind.
  - destruct X as [|y X]; [|by destruct X]. injection E as <- <-.
    split_and!; [apply u32_small; unfold HEADER; lia|lia..|set_solver|]. right. simpl. lia.
  - unfold ring in E. rewrite app_comm_cons in E. apply app_inj_tail in E as [<- ->].
    apply chain_app in Hc1 as [HK Hx]. rewrite (stop_app _ K) in Hx, Hstop |- *.
    simpl in Hx, Hstop |- *. destruct Hx as (? & ? & ?).
    assert (forall x, x ∈ K -> hs <= x.1 /\ x.1 + 8 <= p) as HKp.
    { intros x Hx. apply (chain_elem _ _ _ _ HK) in Hx. lia. }
    pose proof (chain_le _ _ _ HK).
    split_and!; [apply u32_small; unfold HEADER; lia|lia..| |].
    + intros x [->|Hx]%elem_of_cons; [simpl; lia|]. apply HKp in Hx. lia.
    + destruct (Z.eq_dec (p + 8 * ps) bp); [left; eauto|right; lia].
Qed.

(** A state whose ring is the blocks joined. *)
Definition linked (p : Z) (K : list blk) (s s' : ust) : Prop :=
  exists m' L', s' = set_u_mem m' s /\ off_header p (u_mem s) m' /\ links m' (ring L') base /\
    chain (hs - 1) L' hi /\ joins (L1 ++ K) L' /\ p ∈ (ring L').*1.

Lemma link_prev s X p ps z n' K : ring L1 = X ++ [(p, ps)] ->
  links (u_mem s) (ring L1) z -> links (u_mem s) ((bp, n') :: K) base ->
  chain (bp - 1) ((bp, n') :: K) hi ->
  wp (let! psz := h_size p in
      if padd p psz =? bp then
        let! bsz := h_size bp in
        set_h_size p (psz + bsz) ;;;
        let! bnx := h_ptr bp in
        set_h_ptr p bnx
      else set_h_ptr p bp) (fun _ s' => linked p ((bp, n') :: K) s s') s.
Proof.
  intros E Hl Hb Hc. destruct (last_header X p ps E) as (Hpadd & Hp & Hp0 & Hps & HX & Hcase).
  rewrite E in Hl. apply links_app in Hl as [HlX (Hsz & _ & _)]. simpl in HlX, Hsz.
  unfold h_size at 1. apply wp_bind, wp_gets. rewrite Hsz, Hpadd.
  pose proof Hc as (_ & Hn' & HcK). simpl in Hn', HcK.
  assert (forall x, x ∈ (bp, n') :: K -> p + 8 <= x.1 /\ x.1 + 8 * x.2 <= hi) as HK.
  { intros x Hx. apply (chain_elem _ _ _ _ Hc) in Hx. lia. }
  destruct Hcase as [(Hj & L0 & -> & EL)|(Hj & Hs)].
  - rewrite (proj2 (Z.eqb_eq _ _) Hj). pose proof (HK (bp, n') ltac:(set_solver)) as Hhi'.
    destruct Hb as (Hbn & Hbp' & HlK). simpl in Hbn, Hbp', Hhi'.
    unfold h_size, h_ptr, set_h_size, set_h_ptr. do 7 (wp_step; simpl).
    rewrite Hbn, ld32_st32_ne, Hbp' by lia.
    destruct (header_both (u_mem s) p (ps + n') (nxt K base)) as (H1 & H2 & H3); [lia| |].
    { rewrite <- Hbp'. apply ld32_range. }
    eexists _, (L0 ++ (p, ps + n') :: K). split; [reflexivity|]. split; [exact H3|].
    split; [|split; [|split]].
    + change (ring (L0 ++ (p, ps + n') :: K)) with (ring L0 ++ (p, ps + n') :: K).
      apply links_app. split; [|split; [done|split; [done|]]].
      * eapply links_off; [exact H3| |exact HlX]. intros x Hx. left. by apply HX.
      * eapply links_off; [exact H3| |exact HlK]. intros x Hx.
        destruct (HK x ltac:(set_solver)). lia.
    + apply chain_app. rewrite EL in Hc1. apply chain_app in Hc1 as [? (? & ? & _)].
      split; [done|]. simpl in *. split_and!; [lia|lia|].
      by replace (p + 8 * (ps + n')) with (bp + 8 * n') by lia.
    + rewrite EL, <- app_assoc. simpl. rewrite <- Hj. apply joins_adjacent.
    + apply list_elem_of_fmap. exists (p, ps + n'). split; [done|]. unfold ring. set_solver.
  - rewrite (proj2 (Z.eqb_neq _ _) Hj). apply wp_modify. pose proof block_fits.
    destruct (header_ptr (u_mem s) p bp ltac:(lia)) as (H1 & H2 & H3).
    exists (st32 (u_mem s) p bp), (L1 ++ (bp, n') :: K). split; [done|]. split; [done|].
    change (ring (L1 ++ (bp, n') :: K)) with (ring L1 ++ (bp, n') :: K).
    split; [|split; [|split; [apply joins_refl|]]].
    + apply links_app. split.
      * rewrite E. apply links_app. split; [|by rewrite <- Hsz, <- H1].
        eapply links_off; [exact H3| |exact HlX]. intros x Hx. left. by apply HX.
      * eapply links_off; [exact H3| |exact Hb]. intros x Hx. apply HK in Hx. lia.
    + apply chain_app. split; [done|]. simpl. split_and!; [lia|lia|done].
    + rewrite E. apply list_elem_of_fmap. exists (p, ps). split; [done|]. set_solver.
Qed.

End link.

(** ** free *)

Lemma ring_order L hi X x y Y : chain (hs - 1) L hi -> ring L = X ++ x :: y :: Y -> x.1 < y.1.
Proof.
  intros Hc E. destruct X as [|z X]; injection E as <- EL; subst L.
  - destruct Hc as (? & ?). simpl in *. lia.
  - apply chain_app in Hc as [_ (? & ? & ? & _)]. lia.
Qed.

Lemma heap_perm s L A B : A ≡ₚ B -> heap s L A -> heap s L B.
Proof.
  intros HP [Hr Hf Hc Ho Hs Ha Hp Ht Hb]. split; try done.
  - intros x Hx. apply Ho. by rewrite HP.
  - intros x Hx. apply Hs. by rewrite HP.
  - intros x y Hx. apply Ha. by rewrite HP.
  - by eapply pairwise_perm.
  - by rewrite <- (units_perm _ _ HP).
Qed.

(** The block of the walk of free: the ring ends before it and goes on after it. *)
Lemma free_place s L A b : heap s L (b :: A) ->
  exists L1 L2, L = L1 ++ L2 /\ chain (hs - 1) L1 (stop (hs - 1) L1) /\
    chain (stop (hs - 1) L1) L2 (u_brk s) /\ stop (hs - 1) L1 <= b.1 /\
    b.1 + 8 * b.2 <= nxt L2 (u_brk s).
Proof.
  intros H. destruct (hp_out _ _ _ H b) as (? & ? & ?); [set_solver|].
  destruct (chain_split (hs - 1) L (u_brk s) b) as (L1 & L2 & -> & ? & ?); [apply H| |lia..|].
  - intros x Hx. apply (hp_apart _ _ _ H); set_solver.
  - pose proof (hp_chain _ _ _ H) as [? ?]%chain_app. by exists L1, L2.
Qed.

Lemma heap_range s L A : heap s L A -> hs <= u_brk s <= 2 ^ 31.
Proof.
  intros H. split; [|apply H].
  assert (forall K, (forall x, x ∈ K -> 1 <= x.2) -> 0 <= units K) as Hu.
  { unfold units. induction K as [|x K IH]; intros HK; simpl; [lia|].
    pose proof (HK x ltac:(set_solver)). assert (0 <= foldr (fun y n => y.2 + n) 0 K); [|lia].
    apply IH. intros; apply HK; set_solver. }
  pose proof (hp_total _ _ _ H). assert (0 <= units L /\ 0 <= units A) as []; [|lia].
  split; apply Hu; intros x Hx.
  - apply (chain_elem _ _ _ _ (hp_chain _ _ _ H)) in Hx. lia.
  - apply (hp_out _ _ _ H) in Hx. lia.
Qed.

(** A header of the ring is not part of a block that is given out, nor a byte of the program. *)
Lemma ring_off s L A x y : heap s L A -> x ∈ ring L -> x.1 <= y < x.1 + 8 ->
  ~ client (u_brk s) A y /\ forall z, z ∈ A -> ~ z.1 <= y < z.1 + 8 * z.2.
Proof.
  intros H Hx Hy. pose proof (heap_range _ _ _ H).
  assert (forall z, z ∈ A -> ~ z.1 <= y < z.1 + 8 * z.2) as HA.
  { intros z Hz. pose proof (hp_out _ _ _ H z Hz).
    apply elem_of_cons in Hx as [->|Hx]; [simpl in *; lia|].
    pose proof (hp_apart _ _ _ H z x Hz Hx) as Hd.
    pose proof (chain_elem _ _ _ _ (hp_chain _ _ _ H) Hx). unfold dj in Hd. lia. }
  split; [|done]. intros [(z & Hz & ?)|Hc]; [apply (HA z Hz); lia|].
  apply elem_of_cons in Hx as [->|Hx]; [simpl in *; lia|].
  pose proof (chain_elem _ _ _ _ (hp_chain _ _ _ H) Hx). lia.
Qed.

Lemma header_off s L A b x y : heap s L (b :: A) -> x ∈ b :: ring L -> x.1 <= y < x.1 + 8 ->
  ~ client (u_brk s) A y /\ forall z, z ∈ A -> ~ z.1 <= y < z.1 + 8 * z.2.
Proof.
  intros H [->|Hx]%elem_of_cons Hy.
  - pose proof (hp_pair _ _ _ H) as Hp. inversion_clear Hp as [|? ? Hd _].
    rewrite Forall_forall in Hd. pose proof (hp_out _ _ _ H b ltac:(set_solver)).
    assert (forall z, z ∈ A -> ~ z.1 <= y < z.1 + 8 * z.2) as HA.
    { intros z Hz. specialize (Hd z Hz). pose proof (hp_out _ _ _ H z ltac:(set_solver)).
      unfold dj in Hd. lia. }
    split; [|done]. intros [(z & Hz & ?)|Hc]; [apply (HA z Hz); lia|lia].
  - destruct (ring_off _ _ _ _ _ H Hx Hy) as [Hc HA]. split; [|intros z ?; apply HA; set_solver].
    intros [(z & Hz & ?)|?]; apply Hc; [left; exists z; split; [set_solver|done]|by right].
Qed.

(** Giving the block back: what is left to show is about the ring. *)
Lemma heap_release s L A b m' p L' : heap s L (b :: A) -> links m' (ring L') base ->
  chain (hs - 1) L' (u_brk s) -> joins (b :: L) L' -> p ∈ (ring L').*1 ->
  (forall y, (forall x, x ∈ b :: ring L -> y < x.1 \/ x.1 + 8 <= y) -> ld8 m' y = ld8 (u_mem s) y) ->
  let s' := mkUst m' p (u_brk s) in heap s' L' A /\ kept A s s'.
Proof.
  intros H Hl Hc Hj Hp Hm s'.
  assert (forall y, client (u_brk s) A y \/ (exists z, z ∈ A /\ z.1 <= y < z.1 + 8 * z.2) ->
    ld8 m' y = ld8 (u_mem s) y) as Hk.
  { intros y Hy. apply Hm. intros x Hx.
    destruct (Z.lt_ge_cases y x.1); [by left|]. destruct (Z.lt_ge_cases y (x.1 + 8)); [|lia].
    destruct (header_off _ _ _ _ x y H Hx) as [Ho1 Ho2]; [lia|].
    destruct Hy as [?|(z & Hz & ?)]; [done|]. by destruct (Ho2 z Hz). }
  split; [|intros y Hy; apply Hk; by left]. pose proof (hp_pair _ _ _ H) as HP.
  inversion_clear HP as [|? ? _ HP']. split; simpl; [done|done|done|..].
  - intros x Hx. apply (hp_out _ _ _ H). set_solver.
  - intros x Hx. destruct (hp_out _ _ _ H x) as (? & ? & ?); [set_solver|].
    rewrite <- (hp_size _ _ _ H x) by set_solver. apply ld32_ext. intros y ?. apply Hk.
    right. exists x. split; [done|]. lia.
  - intros x y Hx Hy. destruct (hp_out _ _ _ H x) as (? & ? & ?); [set_solver|].
    apply (jn_apart _ _ Hj); [done| |done]. intros z [->|Hz]%elem_of_cons.
    + pose proof (hp_pair _ _ _ H) as HP. inversion_clear HP as [|? ? Hd _].
      rewrite Forall_forall in Hd. by apply dj_sym, Hd.
    + apply (hp_apart _ _ _ H); set_solver.
  - done.
  - rewrite (jn_units _ _ Hj). pose proof (hp_total _ _ _ H) as Ht. unfold units in *. simpl in *. lia.
  - apply H.
Qed.

Lemma free_spec fuel s L A b : heap s L (b :: A) -> (S (length L) < fuel)%nat ->
  wp (free fuel (b.1 + 8)) (fun _ s' => exists L', heap s' L' A /\ kept A s s' /\
    u_brk s' = u_brk s /\ joins (b :: L) L') s.
Proof.
  intros H Hf. destruct (free_place _ _ _ _ H) as (L1 & L2 & -> & Hc1 & Hc2 & Hs & Hn).
  destruct (hp_out _ _ _ H b) as (Hb1 & Hb2 & Hb3); [set_solver|]. pose proof (hp_brk _ _ _ H).
  unfold free. replace (b.1 + 8 - HEADER) with b.1 by (unfold HEADER; lia). 
  destruct b as [bp n]. simpl in *. wp_step. wp_step. wp_step.
  eapply wp_mono; [apply (free_walk L1 L2 bp s)|].
  { apply H. }
  { intros x Hx. apply (below bp L1 ltac:(lia) Hc1 Hs) in Hx. lia. }
  { intros x Hx. apply (above bp n (u_brk s) L1 L2) in Hx; try done. lia. }
  { intros X x y Y E. eapply (ring_order (L1 ++ L2)); [apply H|exact E]. }
  { apply H. }
  { rewrite length_app in *. simpl. lia. }
  intros p s' [-> (X & ps & E)]. unfold h_size at 1, h_ptr at 1. do 4 wp_step.
  pose proof (hp_ring _ _ _ H) as HR.
  change (ring (L1 ++ L2)) with (ring L1 ++ L2) in HR. apply links_app in HR as [HR1 HR2].
  assert (ld32 (u_mem s) p = nxt L2 base) as ->.
  { rewrite E in HR1. apply links_app in HR1 as [_ (_ & ? & _)]. done. }
  pose proof (hp_size _ _ _ H (bp, n) ltac:(set_solver)) as Hsz. simpl in Hsz. rewrite Hsz.
  wp_step. eapply wp_mono; [apply (link_next bp n (u_brk s) L1 L2); done|].
  intros _ s1 (m1 & n' & K & -> & Hm1 & Hl1 & Hch & Hj1). wp_step.
  assert (links m1 (ring L1) (nxt L2 base)) as Hr1.
  { eapply links_off; [exact Hm1| |exact HR1]. intros x Hx. left. by apply (below bp L1). }
  eapply wp_mono; [by apply (link_prev bp n (u_brk s) L1 L2) with (X := X) (ps := ps) (z := nxt L2 base) (n' := n') (K := K)|].
  intros _ s2 (m2 & L' & -> & Hm2 & Hl2 & Hc' & Hj2 & Hp'). wp_step.
  assert (joins ((bp, n) :: L1 ++ L2) L') as HJ.
  { eapply (joins_perm (L1 ++ (bp, n) :: L2)); [by rewrite Permutation_middle|].
    eapply joins_trans; [by apply joins_app|done]. }
  destruct (heap_release s (L1 ++ L2) A (bp, n) m2 p L' H Hl2 Hc' HJ Hp') as [H1 H2];
    [|by exists L'].
  intros y Hy. simpl in Hm2. rewrite Hm2, Hm1; [done|apply (Hy (bp, n)); set_solver|].
  apply (Hy (p, ps)). apply elem_of_cons. right.
  change (ring (L1 ++ L2)) with (ring L1 ++ L2). rewrite E. set_solver.
Qed.

Lemma chain_room lo L hi : chain lo L hi -> lo + 8 * units L + Z.of_nat (length L) <= hi.
Proof.
  revert lo. unfold units. induction L as [|x L IH]; intros lo; simpl; [lia|].
  intros (? & ? & Hc%IH). lia.
Qed.

(** When nothing is given out the heap is one free block. *)
Lemma heap_whole s L : heap s L [] -> L = [] \/ exists n, L = [(hs, n)] /\ hs + 8 * n = u_brk s.
Proof.
  intros H. pose proof (hp_chain _ _ _ H) as Hc. pose proof (chain_room _ _ _ Hc).
  pose proof (hp_total _ _ _ H) as Ht. unfold units in *. simpl in Ht.
  destruct L as [|[a n] [|y L]]; [by left| |simpl in *; lia].
  right. destruct Hc as (? & ? & ?). simpl in *. exists n. split; [do 2 f_equal; lia|lia].
Qed.

(** The first call of malloc makes the ring of the one header [base]. *)
Lemma heap_first s : u_brk s = hs -> hs <= 2 ^ 31 ->
  let s' := mkUst (st32 (st32 (u_mem s) base base) (base + 4) 0) base hs in
  heap s' [] [] /\ kept [] s s'.
Proof.
  intros Hb Hh s'. split; [split; simpl; try lia|].
  - split; [rewrite ld32_st32_eq; apply u32_small; lia|]. split; [|done].
    rewrite ld32_st32_ne, ld32_st32_eq by lia. apply u32_small. lia.
  - set_solver.
  - set_solver.
  - set_solver.
  - intros x y ?. set_solver.
  - constructor.
  - intros y [(x & ? & _)|Hy]; [set_solver|]. simpl in *. rewrite !ld8_st32_out by lia. done.
Qed.

(** C24: free of a block that malloc has given out keeps the invariant of the heap and returns:
    the block is free again, joined with the free blocks next to it, the other blocks are as they
    were, and no byte of them is changed; after the last free the heap is one free block. *)
Theorem free_gives_back fuel s L A A' ap n : heap s L A -> A ≡ₚ (ap - 8, n) :: A' ->
  (length L + 1 < fuel)%nat ->
  wp (free fuel ap) (fun _ s' => kept A' s s' /\ u_brk s' = u_brk s /\ exists L', heap s' L' A' /\
    (A' = [] -> L' = [(hs, (u_brk s - hs) / 8)])) s.
Proof.
  intros H HP Hf. apply (heap_perm _ _ _ _ HP) in H.
  replace ap with ((ap - 8, n).1 + 8) at 1 by (simpl; lia).
  eapply wp_mono; [apply (free_spec fuel _ _ _ _ H); lia|].
  intros _ s' (L' & H' & Hk & Hb & Hj). split; [done|]. split; [done|]. exists L'. split; [done|].
  intros ->. pose proof (heap_range _ _ _ H). pose proof (hp_out _ _ _ H (ap - 8, n) ltac:(set_solver)).
  simpl in *. rewrite <- Hb. destruct (heap_whole _ _ H') as [->|(k & -> & <-)].
  - pose proof (hp_total _ _ _ H') as Ht. unfold units in Ht. simpl in Ht. lia.
  - do 2 f_equal. rewrite Z.add_simpl_l, Z.mul_comm, Z.div_mul by lia. done.
Qed.

(** ** morecore *)

Context (may_grow : Z -> Z -> bool).
(** The kernel's part: a heap that has grown ends below the kernel. *)
Hypothesis Hgrow : forall brk n, may_grow brk n = true -> 0 <= brk -> 0 < n -> brk + n <= 2 ^ 31.

Lemma kept_trans A s1 s2 s3 : u_brk s2 <= u_brk s3 -> kept A s1 s2 -> kept A s2 s3 -> kept A s1 s3.
Proof.
  intros Hb H1 H2 y Hy. rewrite H2 by done. apply H1. destruct Hy as [?|Hy]; [by left|right; lia].
Qed.

Lemma heap_grow s L A nu : heap s L A -> 1 <= nu -> u_brk s + 8 * nu <= 2 ^ 31 ->
  let s' := mkUst (st32 (u_mem s) (u_brk s + 4) nu) (u_freep s) (u_brk s + 8 * nu) in
  heap s' L ((u_brk s, nu) :: A) /\ kept A s s'.
Proof.
  intros H Hnu Hb s'. pose proof (heap_range _ _ _ H) as Hr.
  assert (forall y, y < u_brk s \/ u_brk s + 8 <= y -> ld8 (u_mem s') y = ld8 (u_mem s) y) as Hm
    by (intros y Hy; apply ld8_st32_out; lia).
  pose proof (hp_chain _ _ _ H) as Hc. split; [split; simpl|].
  - apply (links_frame (u_mem s) _ (ring L)); [|apply H].
    intros x y [->|Hx]%elem_of_cons Hy; apply Hm; [simpl in *; lia|].
    apply (chain_elem _ _ _ _ Hc) in Hx. lia.
  - apply H.
  - eapply chain_hi; [|exact Hc]. lia.
  - intros x [->|Hx]%elem_of_cons; [simpl; lia|]. apply (hp_out _ _ _ H) in Hx. lia.
  - intros x [->|Hx]%elem_of_cons; simpl; [rewrite ld32_st32_eq; apply u32_small; lia|].
    pose proof (hp_out _ _ _ H _ Hx). rewrite ld32_st32_ne by lia. by apply (hp_size _ _ _ H).
  - intros x y [->|Hx]%elem_of_cons Hy; [|by apply (hp_apart _ _ _ H)].
    apply (chain_elem _ _ _ _ Hc) in Hy. right. simpl. lia.
  - constructor; [|apply H]. apply Forall_forall. intros x Hx.
    apply (hp_out _ _ _ H) in Hx. right. simpl. lia.
  - pose proof (hp_total _ _ _ H). unfold units in *. simpl. lia.
  - done.
  - intros y Hy. apply Hm. destruct Hy as [(x & Hx & ?)|Hy]; [|simpl in Hy; lia].
    apply (hp_out _ _ _ H) in Hx. lia.
Qed.

Lemma morecore_spec fuel s L A nu : heap s L A -> 1 <= nu -> 8 * nu < 2 ^ 31 ->
  (S (length L) < fuel)%nat ->
  wp (morecore may_grow fuel nu) (fun r s' =>
    (r = 0 /\ s' = s /\ may_grow (u_brk s) (8 * Z.max nu 4096) = false) \/
    (r = u_freep s' /\ u_brk s <= u_brk s' /\ kept A s s' /\ exists L', heap s' L' A /\
     (length L' <= S (length L))%nat /\ exists x, x ∈ L' /\ nu <= x.2)) s.
Proof.
  intros H Hnu Hnu' Hf. unfold morecore.
  replace (if nu <? 4096 then 4096 else nu) with (Z.max nu 4096) by zcase.
  set (k := Z.max nu 4096). pose proof (heap_range _ _ _ H).
  replace (i32 (k * HEADER)) with (8 * k) by (unfold HEADER; rewrite i32_small; lia).
  wp_step. unfold sbrk at 1, wp at 1. destruct (may_grow (u_brk s) (8 * k)) eqn:Eg; simpl.
  - rewrite (proj2 (Z.eqb_neq _ _)) by lia. apply Hgrow in Eg as Hb; [|lia..].
    destruct (heap_grow s L A k H) as [H1 Hk1]; [lia..|].
    unfold set_h_size. wp_step. wp_step. wp_step.
    eapply wp_mono; [apply (free_spec fuel _ _ _ _ H1); done|].
    intros _ s2 (L' & H2 & Hk2 & Hb2 & Hj). wp_step. right. split; [done|]. simpl in Hb2.
    split; [lia|]. split; [eapply kept_trans; [|exact Hk1|exact Hk2]; simpl; lia|].
    exists L'. split; [done|]. split; [apply (jn_len _ _ Hj)|].
    destruct (jn_holds _ _ Hj (u_brk s, k)) as (x & Hx & Hle); [|set_solver|].
    + intros x [->|Hx]%elem_of_cons; [simpl; lia|].
      apply (chain_elem _ _ _ _ (hp_chain _ _ _ H)) in Hx. lia.
    + exists x. split; [done|]. simpl in Hle. lia.
  - wp_step. by left.
Qed.

(** ** The walk of malloc *)

(** The ring [R], read from the block after [f] to [f]: [V] has been passed, [x] is looked at. *)
Definition rot (R : list blk) (f : blk) (V : list blk) (x : blk) (W : list blk) : Prop :=
  exists X Y, R = X ++ f :: Y /\ Y ++ X ++ [f] = V ++ x :: W.

Definition prev_of (f : blk) (V : list blk) : blk := default f (last V).

Lemma prev_snoc f V v : prev_of f (V ++ [v]) = v.
Proof. unfold prev_of. by rewrite last_snoc. Qed.

Lemma links_rot m K1 K2 z z' : links m (K1 ++ K2) (nxt (K1 ++ K2) z) ->
  links m (K2 ++ K1) (nxt (K2 ++ K1) z').
Proof.
  destruct K1 as [|x K1]; [by rewrite app_nil_r; destruct K2|].
  destruct K2 as [|y K2]; [by rewrite app_nil_r|].
  intros [H1 H2]%links_app. apply links_app. done.
Qed.

Lemma rot_links m L f V x W : links m (ring L) base -> rot (ring L) f V x W ->
  links m (V ++ x :: W) (nxt (V ++ x :: W) 0).
Proof.
  intros Hl (X & Y & E & <-). change (links m (ring L) (nxt (ring L) base)) in Hl.
  rewrite E in Hl. replace (X ++ f :: Y) with ((X ++ [f]) ++ Y) in Hl by by rewrite <- app_assoc.
  by eapply links_rot.
Qed.

Lemma rot_perm R f V x W : rot R f V x W -> V ++ x :: W ≡ₚ R.
Proof. intros (X & Y & -> & <-). by rewrite (Permutation_app_comm Y), <- app_assoc. Qed.

Lemma rot_last R f V x W : rot R f V x W -> (W = [] /\ x = f) \/ (exists W', W = W' ++ [f]).
Proof.
  intros (X & Y & _ & E). destruct W as [|w W _] using rev_ind.
  - left. rewrite app_assoc in E. by apply app_inj_tail in E as [_ <-].
  - right. exists W. rewrite app_comm_cons, !app_assoc in E. by apply app_inj_tail in E as [_ <-].
Qed.

Lemma ring_head L x K : ring L = x :: K -> x.1 = base.
Proof. by injection 1 as <- _. Qed.

Lemma rot_pred L f V x W : rot (ring L) f V x W -> x.1 <> base ->
  exists P Q, ring L = P ++ prev_of f V :: x :: Q.
Proof.
  intros (X & Y & E & E') Hx. apply app_eq_app in E' as (ls & [[-> E'] | [-> E']]).
  - destruct ls as [|l ls].
    + destruct Hx. destruct X as [|y X]; injection E' as -> _; by eapply ring_head.
    + injection E' as <- _. destruct V as [|v V _] using rev_ind; [by exists X, ls|].
      exists (X ++ f :: V), ls. rewrite prev_snoc, E. by rewrite <- !app_assoc.
  - replace (X ++ f :: Y) with ((X ++ [f]) ++ Y) in E by by rewrite <- app_assoc. rewrite E' in E.
    destruct ls as [|l ls _] using rev_ind; [by destruct Hx; apply (ring_head L x (W ++ Y))|].
    exists ls, (W ++ Y). rewrite app_assoc, prev_snoc, E. by rewrite <- !app_assoc.
Qed.

Lemma chain_nodup lo L hi : chain lo L hi -> NoDup L.*1.
Proof.
  revert lo. induction L as [|x L IH]; intros lo; [constructor|]. intros (? & ? & Hc).
  constructor; [|by eapply IH]. intros (y & E & Hy)%list_elem_of_fmap.
  apply (chain_elem _ _ _ _ Hc) in Hy. lia.
Qed.

Lemma ring_nodup L hi : chain (hs - 1) L hi -> NoDup (ring L).*1.
Proof.
  intros Hc. constructor; [|by eapply chain_nodup]. intros (y & E & Hy)%list_elem_of_fmap.
  apply (chain_elem _ _ _ _ Hc) in Hy. simpl in E. lia.
Qed.

(** The block after the ring's pointer is the first of the walk. *)
Lemma rot_start s L A : heap s L A -> exists f x W, u_freep s = f.1 /\
  ld32 (u_mem s) f.1 = x.1 /\ rot (ring L) f [] x W /\ length W = length L.
Proof.
  intros H. pose proof (hp_freep _ _ _ H) as (f & Ef & (X & Y & E)%list_elem_of_split)%list_elem_of_fmap.
  destruct (Y ++ X ++ [f]) as [|x W] eqn:EW; [by destruct Y, X|]. exists f, x, W.
  assert (rot (ring L) f [] x W) as Hr by by exists X, Y.
  split; [done|]. split; [|split; [done|]].
  - pose proof (rot_links _ _ _ _ _ _ (hp_ring _ _ _ H) Hr) as Hl.
    change ([] ++ x :: W) with (x :: W) in Hl.
    rewrite <- EW, app_assoc in Hl. apply links_app in Hl as [_ (_ & Hl & _)].
    rewrite Hl, <- app_assoc, EW. done.
  - apply (f_equal length) in E, EW. rewrite !length_app in EW. rewrite length_app in E.
    simpl in *. lia.
Qed.

(** ** Taking a block *)

Lemma chain_gap lo L hi a b : chain lo L hi -> a ∈ L -> b ∈ L -> a.1 < b.1 -> a.1 + 8 * a.2 <= b.1.
Proof.
  revert lo. induction L as [|x L IH]; intros lo Hc Ha Hb Hab; [set_solver|].
  destruct Hc as (? & ? & Hc).
  apply elem_of_cons in Ha as [->|Ha]; apply elem_of_cons in Hb as [->|Hb]; [lia|..].
  - apply (chain_elem _ _ _ _ Hc) in Hb. lia.
  - apply (chain_elem _ _ _ _ Hc) in Ha. lia.
  - by apply (IH _ Hc).
Qed.

(** Two headers of the ring do not overlap. *)
Lemma ring_sep L hi X a Y b : chain (hs - 1) L hi -> ring L = X ++ a :: Y -> b ∈ X ++ Y ->
  b.1 + 8 <= a.1 \/ a.1 + 8 <= b.1.
Proof.
  intros Hc E Hb.
  assert (a.1 <> b.1) as Hne.
  { pose proof (ring_nodup _ _ Hc) as Hn. rewrite E, fmap_app, fmap_cons in Hn.
    rewrite <- Permutation_middle, <- fmap_app in Hn. apply NoDup_cons in Hn as [Hn _].
    intros Eab. apply Hn. rewrite Eab. by apply list_elem_of_fmap_2. }
  assert (forall c d, c ∈ ring L -> d ∈ ring L -> c.1 < d.1 -> c.1 + 8 <= d.1) as Hgap.
  { intros c d [->|Hd]%elem_of_cons [->|Hd']%elem_of_cons Hcd; simpl in *; [lia|..].
    - apply (chain_elem _ _ _ _ Hc) in Hd'. lia.
    - apply (chain_elem _ _ _ _ Hc) in Hd. lia.
    - pose proof (chain_gap _ _ _ _ _ Hc Hd Hd' Hcd). apply (chain_elem _ _ _ _ Hc) in Hd. lia. }
  destruct (Z.lt_trichotomy a.1 b.1) as [|[|]]; [right|done|left];
    (apply Hgap; [rewrite E; set_solver..|done]).
Qed.

Lemma ring_cut L P q K : ring L = P ++ q :: K -> exists L1, ring L1 = P ++ [q] /\ L = L1 ++ K.
Proof.
  destruct P as [|z P]; intros E; injection E as <- ->; [by exists []|].
  exists (P ++ [q]). by rewrite <- app_assoc.
Qed.

(** Giving a part [c] of a free block out: what is left to show is about the ring. *)
Lemma heap_take s L A x c m' p L' : heap s L A -> links m' (ring L') base ->
  chain (hs - 1) L' (u_brk s) -> p ∈ (ring L').*1 -> units L = units L' + c.2 ->
  x ∈ L -> x.1 <= c.1 -> 1 <= c.2 -> c.1 + 8 * c.2 <= x.1 + 8 * x.2 ->
  (forall y, y ∈ L' -> dj c y /\ exists z, z ∈ L /\ z.1 <= y.1 /\ y.1 + 8 * y.2 <= z.1 + 8 * z.2) ->
  ld32 m' (c.1 + 4) = c.2 ->
  (forall y, (forall z, z ∈ c :: ring L -> y < z.1 \/ z.1 + 8 <= y) -> ld8 m' y = ld8 (u_mem s) y) ->
  let s' := mkUst m' p (u_brk s) in heap s' L' (c :: A) /\ kept A s s'.
Proof.
  intros H Hl Hc Hp Hu Hx Hc1 Hc2 Hc3 HL' Hsz Hm s'.
  pose proof (chain_elem _ _ _ _ (hp_chain _ _ _ H) Hx) as Hxr.
  assert (forall z, z ∈ A -> dj z c) as HAc.
  { intros z Hz. pose proof (hp_apart _ _ _ H z x Hz Hx). unfold dj in *. lia. }
  assert (forall y, client (u_brk s) A y \/ (exists z, z ∈ A /\ z.1 <= y < z.1 + 8 * z.2) ->
    ld8 m' y = ld8 (u_mem s) y) as Hk.
  { intros y Hy. apply Hm. intros w Hw.
    destruct (Z.lt_ge_cases y w.1); [by left|]. destruct (Z.lt_ge_cases y (w.1 + 8)); [|lia].
    apply elem_of_cons in Hw as [->|Hw].
    - destruct Hy as [[(z & Hz & ?)|?]|(z & Hz & ?)]; [|lia|]; specialize (HAc z Hz); unfold dj in HAc; lia.
    - destruct (ring_off _ _ _ w y H Hw) as [Ho1 Ho2]; [lia|].
      destruct Hy as [?|(z & Hz & ?)]; [done|]. by destruct (Ho2 z Hz). }
  split; [|intros y Hy; apply Hk; by left]. split; simpl; [done..| | | | | |apply H].
  - intros z [->|Hz]%elem_of_cons; [lia|]. by apply (hp_out _ _ _ H).
  - intros z [->|Hz]%elem_of_cons; [done|]. pose proof (hp_out _ _ _ H z Hz).
    rewrite <- (hp_size _ _ _ H z Hz). apply ld32_ext. intros y ?. apply Hk. right.
    exists z. split; [done|]. lia.
  - intros z y Hz Hy. destruct (HL' y Hy) as (Hd & w & Hw & ? & ?).
    apply elem_of_cons in Hz as [->|Hz]; [done|].
    pose proof (hp_apart _ _ _ H z w Hz Hw). unfold dj in *. lia.
  - constructor; [|apply H]. apply Forall_forall. intros z Hz. by apply dj_sym, HAc.
  - pose proof (hp_total _ _ _ H). unfold units in *. simpl. lia.
Qed.

Section take.
Context (s : ust) (L A P : list blk) (q x : blk) (Q : list blk).
Hypothesis H : heap s L A.
Hypothesis E : ring L = P ++ q :: x :: Q.

Lemma take_links : links (u_mem s) P q.1 /\ ld32 (u_mem s) (q.1 + 4) = q.2 /\
  ld32 (u_mem s) q.1 = x.1 /\ ld32 (u_mem s) (x.1 + 4) = x.2 /\ ld32 (u_mem s) x.1 = nxt Q base /\
  links (u_mem s) Q base.
Proof.
  pose proof (hp_ring _ _ _ H) as Hl. rewrite E in Hl.
  apply links_app in Hl as (? & ? & ? & ? & ? & ?). done.
Qed.

Lemma take_list : exists L1, ring L1 = P ++ [q] /\ L = L1 ++ x :: Q /\
  chain (hs - 1) L1 (stop (hs - 1) L1) /\ stop (hs - 1) L1 < x.1 /\ 1 <= x.2 /\
  chain (x.1 + 8 * x.2) Q (u_brk s).
Proof.
  destruct (ring_cut _ _ _ _ E) as (L1 & E1 & EL). exists L1. split; [done|]. split; [done|].
  pose proof (hp_chain _ _ _ H) as Hc. rewrite EL in Hc.
  by apply chain_app in Hc as (? & ? & ? & ?).
Qed.

(** The neighbours of a block of the list do not overlap it. *)
Lemma take_dj L1 y : L = L1 ++ x :: Q -> y ∈ L1 ++ Q -> dj x y.
Proof.
  intros EL Hy. pose proof (hp_chain _ _ _ H) as Hc.
  pose proof (chain_nodup _ _ _ Hc) as Hn.
  rewrite EL, fmap_app, fmap_cons, <- Permutation_middle, <- fmap_app in Hn.
  apply NoDup_cons in Hn as [Hn _].
  assert (x.1 <> y.1) by (intros Exy; apply Hn; rewrite Exy; by apply list_elem_of_fmap_2).
  assert (x ∈ L /\ y ∈ L) as [Hx Hy'] by (rewrite EL; set_solver).
  destruct (Z.lt_trichotomy x.1 y.1) as [?|[?|?]]; [left|done|right];
    by apply (chain_gap _ _ _ _ _ Hc).
Qed.

(** A block of the right size leaves the ring. *)
Lemma take_exact : let s' := mkUst (st32 (u_mem s) q.1 (nxt Q base)) q.1 (u_brk s) in
  exists L', heap s' L' (x :: A) /\ kept A s s'.
Proof.
  destruct take_links as (HP & Hq2 & _ & Hx2 & Hx1 & HQ).
  destruct take_list as (L1 & E1 & EL & Hc1 & Hst & Hx & HcQ). pose proof (hp_chain _ _ _ H) as Hc.
  assert (forall b, b ∈ P ++ x :: Q -> b.1 + 8 <= q.1 \/ q.1 + 8 <= b.1) as Hsep
    by (intros b; by apply (ring_sep L (u_brk s))).
  destruct (header_ptr (u_mem s) q.1 (nxt Q base)) as (H1 & H2 & H3).
  { rewrite <- Hx1. apply ld32_range. }
  exists (L1 ++ Q). apply (heap_take s L A x x); [done|..].
  - change (ring (L1 ++ Q)) with (ring L1 ++ Q). rewrite E1, <- app_assoc. apply links_app.
    split; [|split; [by rewrite H1|split; [done|]]].
    + eapply links_off; [exact H3| |exact HP]. intros b ?. apply Hsep. set_solver.
    + eapply links_off; [exact H3| |exact HQ]. intros b ?. apply Hsep. set_solver.
  - apply chain_app. split; [done|]. eapply chain_lower; [|exact HcQ]. lia.
  - change (ring (L1 ++ Q)) with (ring L1 ++ Q). rewrite E1. apply list_elem_of_fmap_2. set_solver.
  - rewrite EL, !units_app. unfold units. simpl. lia.
  - rewrite EL. set_solver.
  - lia.
  - done.
  - lia.
  - intros y Hy. split; [by eapply take_dj|]. exists y. split; [rewrite EL; set_solver|lia].
  - etransitivity; [apply ld32_st32_ne|exact Hx2]. pose proof (Hsep x ltac:(set_solver)). lia.
  - intros y Hy. apply H3. apply (Hy q). rewrite E. set_solver.
Qed.

(** The end of a larger block leaves the ring. *)
Lemma take_split nu : 1 <= nu -> nu < x.2 ->
  let k := x.2 - nu in let c := (x.1 + 8 * k, nu) in
  let s' := mkUst (st32 (st32 (u_mem s) (x.1 + 4) k) (c.1 + 4) nu) q.1 (u_brk s) in
  exists L', heap s' L' (c :: A) /\ kept A s s'.
Proof.
  intros Hnu Hlt k c s'. destruct take_links as (HP & Hq2 & Hq1 & Hx2 & Hx1 & HQ).
  destruct take_list as (L1 & E1 & EL & Hc1 & Hst & Hx & HcQ). pose proof (hp_chain _ _ _ H) as Hc.
  pose proof (chain_elem _ _ _ x Hc) as Hxr. rewrite EL in Hxr at 1. specialize (Hxr ltac:(set_solver)).
  pose proof (heap_range _ _ _ H) as Hr.
  assert (forall b, b ∈ ring L1 -> b.1 + 8 <= x.1) as Hlow.
  { intros b [->|Hb]%elem_of_cons; [simpl; lia|]. apply (chain_elem _ _ _ _ Hc1) in Hb. lia. }
  assert (forall b, b ∈ Q -> x.1 + 8 * x.2 <= b.1) as Hhigh.
  { intros b Hb. apply (chain_elem _ _ _ _ HcQ) in Hb. lia. }
  assert (forall y, y < x.1 + 4 \/ x.1 + 8 <= y < c.1 + 4 \/ c.1 + 8 <= y ->
    ld8 (u_mem s') y = ld8 (u_mem s) y) as Hm.
  { intros y Hy. simpl in *. rewrite !ld8_st32_out by lia. done. }
  exists (L1 ++ (x.1, k) :: Q). apply (heap_take s L A x c); [done|..].
  - change (ring (L1 ++ (x.1, k) :: Q)) with (ring L1 ++ (x.1, k) :: Q). apply links_app.
    split; [|split; [|split]].
    + apply (links_frame (u_mem s)).
      { intros b y Hb Hy. apply Hm. apply Hlow in Hb. lia. }
      rewrite E1. apply links_app. simpl. done.
    + simpl. rewrite ld32_st32_ne by lia. rewrite ld32_st32_eq. apply u32_small. lia.
    + rewrite <- Hx1. apply ld32_ext. intros y Hy. apply Hm. lia.
    + apply (links_frame (u_mem s)); [|done]. intros b y Hb Hy. apply Hm. apply Hhigh in Hb.
      simpl. lia.
  - apply chain_app. split; [done|]. simpl. split_and!; [lia|lia|].
    eapply chain_lower; [|exact HcQ]. lia.
  - change (ring (L1 ++ (x.1, k) :: Q)) with (ring L1 ++ (x.1, k) :: Q). rewrite E1.
    apply list_elem_of_fmap_2. set_solver.
  - rewrite EL, !units_app. unfold units. simpl. lia.
  - rewrite EL. set_solver.
  - simpl. lia.
  - done.
  - simpl. lia.
  - intros y [Hy|[->|Hy]%elem_of_cons]%elem_of_app.
    + split; [|exists y; split; [rewrite EL; set_solver|lia]].
      pose proof (take_dj L1 y EL ltac:(set_solver)). unfold dj in *. simpl.
      apply (chain_elem _ _ _ _ Hc1) in Hy. lia.
    + split; [right; simpl; lia|]. exists x. split; [rewrite EL; set_solver|simpl; lia].
    + split; [|exists y; split; [rewrite EL; set_solver|lia]]. apply Hhigh in Hy. left. simpl. lia.
  - simpl. rewrite ld32_st32_eq. apply u32_small. lia.
  - intros y Hy. apply Hm. pose proof (Hy c ltac:(set_solver)) as Hyc.
    pose proof (Hy x ltac:(rewrite E; set_solver)) as Hyx. lia.
Qed.

End take.

Lemma heap_freep s L A : heap s L A -> 0 < u_freep s.
Proof.
  intros H. pose proof (hp_freep _ _ _ H) as (z & -> & Hz)%list_elem_of_fmap.
  apply elem_of_cons in Hz as [->|Hz]; [simpl; lia|].
  apply (chain_elem _ _ _ _ (hp_chain _ _ _ H)) in Hz. lia.
Qed.

(** ** malloc *)

Section malloc.
Context (s0 : ust) (L0 A : list blk) (nu : Z) (fuel : nat).
Hypothesis Hnu : 1 <= nu /\ 8 * nu < 2 ^ 31.
Hypothesis Hfuel : (2 * length L0 + 2 < fuel)%nat.

(** The loop looks at [x]; before the heap has grown it is at its first round over the ring, after
    that there is a block that is large enough. *)
Definition looking (n : nat) (a : Z * Z) (s : ust) : Prop :=
  exists L f V x W, heap s L A /\ kept A s0 s /\ u_brk s0 <= u_brk s /\ u_freep s = f.1 /\
    rot (ring L) f V x W /\ a = ((prev_of f V).1, x.1) /\ (forall v, v ∈ V -> v.2 < nu) /\
    ((s = s0 /\ L = L0 /\ n = (length W + length L0 + 2)%nat) \/
     (n = length W /\ exists y, y ∈ L /\ nu <= y.2)).

(** malloc fails when no free block is large enough and the kernel gives no more memory; otherwise
    it gives out a block of [nu] units. *)
Definition malloc_post (r : Z) (s : ust) : Prop :=
  (r = 0 /\ s = s0 /\ (forall y, y ∈ L0 -> y.2 < nu) /\
   may_grow (u_brk s0) (8 * Z.max nu 4096) = false) \/
  (exists a L, r = a + 8 /\ heap s L ((a, nu) :: A) /\ kept A s0 s /\ u_brk s0 <= u_brk s).

Lemma rot_elem L f V x W y : rot (ring L) f V x W -> y ∈ L -> y ∈ V ++ x :: W.
Proof. intros Hr Hy. rewrite (rot_perm _ _ _ _ _ Hr). unfold ring. set_solver. Qed.

Lemma rot_size m L f V x W : links m (ring L) base -> rot (ring L) f V x W ->
  ld32 m (x.1 + 4) = x.2 /\ forall w W', W = w :: W' -> ld32 m x.1 = w.1.
Proof.
  intros Hl Hr. pose proof (rot_links _ _ _ _ _ _ Hl Hr) as (_ & ? & Hp & _)%links_app.
  split; [done|]. by intros w W' ->.
Qed.

Lemma malloc_hit s L f V x W : heap s L A -> kept A s0 s -> u_brk s0 <= u_brk s ->
  rot (ring L) f V x W -> nu <= x.2 ->
  wp (let! q :=
        (if x.2 =? nu then
           let! nx := h_ptr x.1 in
           set_h_ptr (prev_of f V).1 nx ;;;
           ret x.1
         else
           set_h_size x.1 (x.2 - nu) ;;;
           let! sz := h_size x.1 in
           let q := padd x.1 sz in
           set_h_size q nu ;;;
           ret q) in
      modify (set_u_freep (prev_of f V).1) ;;;
      ret (inr (A := Z * Z) (q + HEADER)))
    (fun r s' => match r with inl _ => False | inr v => malloc_post v s' end) s.
Proof.
  intros H Hk Hb Hr Hx.
  assert (x ∈ L) as HxL.
  { assert (x ∈ ring L) as HxR by (rewrite <- (rot_perm _ _ _ _ _ Hr); set_solver).
    apply elem_of_cons in HxR as [->|]; [simpl in Hx; lia|done]. }
  pose proof (chain_elem _ _ _ _ (hp_chain _ _ _ H) HxL) as Hxr.
  destruct (rot_pred _ _ _ _ _ Hr) as (P & Q & E); [lia|].
  pose proof (take_links s L A P _ x Q H E) as (_ & _ & _ & _ & Hx1 & _).
  pose proof (heap_range _ _ _ H). wp_step.
  destruct (Z.eqb_spec x.2 nu) as [En|En].
  - unfold h_ptr, set_h_ptr. do 8 (wp_step; cbn [u_mem set_u_mem]). rewrite Hx1.
    destruct (take_exact s L A P _ x Q H E) as (L' & H1 & H2). right. exists x.1, L'.
    split; [done|]. split; [rewrite <- En; by destruct x|].
    split; [eapply kept_trans; [|exact Hk|exact H2]; done|done].
  - unfold h_size, set_h_size. do 9 (wp_step; cbn [u_mem set_u_mem]).
    rewrite ld32_st32_eq, u32_small by lia.
    assert (padd x.1 (x.2 - nu) = x.1 + 8 * (x.2 - nu)) as -> by (apply u32_small; unfold HEADER; lia).
    destruct (take_split s L A P _ x Q H E nu) as (L' & H1 & H2); [lia..|]. right.
    exists (x.1 + 8 * (x.2 - nu)), L'.
    split; [done|]. split; [done|]. split; [eapply kept_trans; [|exact Hk|exact H2]; done|done].
Qed.

Lemma rot_wrap L hi f V x W : chain (hs - 1) L hi -> rot (ring L) f V x W ->
  (W = [] /\ x = f) \/ (x.1 <> f.1 /\ exists w W', W = w :: W').
Proof.
  intros Hc Hr. destruct (rot_last _ _ _ _ _ Hr) as [|(W' & ->)]; [by left|right].
  split; [|destruct W' as [|w W']; eauto].
  pose proof (ring_nodup _ _ Hc) as Hn. rewrite <- (rot_perm _ _ _ _ _ Hr) in Hn.
  rewrite fmap_app, fmap_cons in Hn. apply NoDup_app in Hn as (_ & _ & Hn).
  apply NoDup_cons in Hn as [Hn _]. intros E. apply Hn. rewrite E. apply list_elem_of_fmap_2. set_solver.
Qed.

(** At the end of the first round the heap grows, and the next round starts. *)
Lemma malloc_more : heap s0 L0 A -> (forall y, y ∈ L0 -> y.2 < nu) ->
  wp (let! q := morecore may_grow fuel nu in
      if q =? 0 then ret (inr 0)
      else let! nx := h_ptr q in ret (inl (q, nx)))
    (fun r s' => match r with
       | inl a' => exists n', (n' < length L0 + 2)%nat /\ looking n' a' s'
       | inr v => malloc_post v s' end) s0.
Proof.
  intros H Hno. wp_step. eapply wp_mono; [by apply (morecore_spec fuel s0 L0 A nu H); lia|].
  intros r s' [(-> & -> & Hg)|(-> & Hb & Hk & L' & H' & Hl & y & Hy & Hle)]; simpl.
  - wp_step. by left.
  - destruct (rot_start _ _ _ H') as (g & x & W & Eg & Ex & Hr & HW).
    pose proof (heap_freep _ _ _ H').
    rewrite (proj2 (Z.eqb_neq _ _)) by lia. unfold h_ptr. do 3 wp_step.
    exists (length W). split; [lia|]. exists L', g, [], x, W. rewrite Eg, Ex.
    split_and!; [done..|set_solver|]. right. eauto.
Qed.

Lemma malloc_round n a s : looking n a s ->
  wp (malloc_body may_grow fuel nu a) (fun r s' => match r with
    | inl a' => exists n', (n' < n)%nat /\ looking n' a' s'
    | inr v => malloc_post v s' end) s.
Proof.
  intros (L & f & V & x & W & H & Hk & Hb & Hf & Hr & -> & HV & Hn).
  destruct (rot_size _ _ _ _ _ _ (hp_ring _ _ _ H) Hr) as [Hsz Hnext].
  unfold malloc_body, h_size at 1. wp_step. wp_step. rewrite Hsz.
  destruct (Z.leb_spec nu x.2) as [Hle|Hlt].
  - eapply wp_mono; [by eapply malloc_hit|]. by intros [].
  - assert (forall v, v ∈ V ++ [x] -> v.2 < nu) as HV' by set_solver.
    wp_step. wp_step. rewrite Hf.
    destruct (rot_wrap _ _ _ _ _ _ (hp_chain _ _ _ H) Hr) as [[-> ->]|(Hne & w & W' & ->)].
    + rewrite Z.eqb_refl. destruct Hn as [(-> & -> & ->)|(_ & y & Hy & ?)].
      * apply malloc_more; [done|]. intros y Hy. by apply HV', (rot_elem _ _ _ _ _ _ Hr).
      * apply (rot_elem _ _ _ _ _ _ Hr), HV' in Hy. lia.
    + rewrite (proj2 (Z.eqb_neq _ _) Hne). unfold h_ptr. do 3 wp_step.
      rewrite (Hnext w W' eq_refl).
      assert (exists n', (n' < n)%nat /\
        ((s = s0 /\ L = L0 /\ n' = (length W' + length L0 + 2)%nat) \/
         (n' = length W' /\ exists y, y ∈ L /\ nu <= y.2))) as (n' & ? & Hn').
      { destruct Hn as [(? & ? & ->)|[-> ?]]; simpl;
          [exists (length W' + length L0 + 2)%nat|exists (length W')]; (split; [lia|tauto]). }
      exists n'. split; [done|]. exists L, f, (V ++ [x]), w, W'. rewrite prev_snoc.
      split_and!; try done. destruct Hr as (X & Y & E & E'). exists X, Y.
      split; [done|]. by rewrite E', <- app_assoc.
Qed.

Lemma malloc_loop f x W : heap s0 L0 A -> u_freep s0 = f.1 -> rot (ring L0) f [] x W ->
  length W = length L0 ->
  wp (loop fuel (malloc_body may_grow fuel nu) (f.1, x.1)) malloc_post s0.
Proof.
  intros H Hf Hr HW. apply (wp_loop looking _ _ malloc_round fuel (length W + length L0 + 2));
    [lia|]. exists L0, f, [], x, W. split_and!; [done|done|lia|done..|set_solver|by left].
Qed.

End malloc.

(** The state of the allocator: before the first call there is no ring. *)
Definition ready (s : ust) (L A : list blk) : Prop :=
  heap s L A \/
  (u_freep s = 0 /\ L = [] /\ A = [] /\ u_brk s = hs /\ hs <= 2 ^ 31).

Lemma malloc_tail fuel s L A nu : heap s L A -> 1 <= nu -> 8 * nu < 2 ^ 31 ->
  (2 * length L + 2 < fuel)%nat ->
  wp (let! p := h_ptr (u_freep s) in loop fuel (malloc_body may_grow fuel nu) (u_freep s, p))
    (malloc_post s L A nu) s.
Proof.
  intros H ???. destruct (rot_start _ _ _ H) as (f & x & W & Hf & Hx & Hr & HW).
  unfold h_ptr. wp_step. wp_step. rewrite Hf, Hx. by apply malloc_loop with (W := W).
Qed.

(** C23: for at most 2^31 - 32 bytes (beyond, the size that reaches sbrk is not a positive int, and near
    2^32 the number of units wraps around) malloc keeps the invariant of the heap and returns: either
    0, with the heap as it was, when no free block is large enough and sbrk has failed; or the address
    of a block with at least [nbytes] bytes after its header, less than 8 more, that overlaps no other
    block.  No byte of a block given out before, nor outside the heap, is changed. *)
Theorem malloc_fresh fuel s L A nbytes : ready s L A -> 0 <= nbytes <= 2 ^ 31 - 32 ->
  (2 * length L + 2 < fuel)%nat ->
  wp (malloc base may_grow fuel nbytes) (fun r s' =>
    kept A s s' /\ u_brk s <= u_brk s' /\ exists L' nu, nbytes <= 8 * (nu - 1) < nbytes + 8 /\
    ((r = 0 /\ L' = L /\ heap s' L A /\ (forall y, y ∈ L -> y.2 < nu) /\
      may_grow (u_brk s) (8 * Z.max nu 4096) = false) \/
     heap s' L' ((r - 8, nu) :: A))) s.
Proof.
  intros HR Hn Hf. unfold malloc. rewrite u32_small by (unfold HEADER; lia).
  set (nu := (nbytes + HEADER - 1) / HEADER + 1).
  assert (nbytes <= 8 * (nu - 1) < nbytes + 8) as Hnu.
  { unfold nu, HEADER. pose proof (Z.div_mod (nbytes + 8 - 1) 8 ltac:(lia)).
    pose proof (Z.mod_pos_bound (nbytes + 8 - 1) 8 ltac:(lia)). lia. }
  assert (forall s1, heap s1 L A -> kept A s s1 -> u_brk s1 = u_brk s -> forall r s',
    malloc_post s1 L A nu r s' -> kept A s s' /\ u_brk s <= u_brk s' /\ exists L' nu,
    nbytes <= 8 * (nu - 1) < nbytes + 8 /\
    ((r = 0 /\ L' = L /\ heap s' L A /\ (forall y, y ∈ L -> y.2 < nu) /\
      may_grow (u_brk s) (8 * Z.max nu 4096) = false) \/ heap s' L' ((r - 8, nu) :: A))) as Hpost.
  { intros s1 H1 Hk Hb r s' [(-> & -> & ? & ?)|(a & L' & -> & ? & ? & ?)]; rewrite Hb in *.
    - split_and!; [done|lia|]. exists L, nu. split; [done|]. by left.
    - split_and!; [eapply (kept_trans A s s1); [lia|done|done]|done|]. exists L', nu. split; [done|]. right.
      by replace (a + 8 - 8) with a by lia. }
  wp_step. wp_step. wp_step. destruct HR as [H|(Hf0 & -> & -> & Hb & Hhi)].
  - pose proof (heap_freep _ _ _ H). rewrite (proj2 (Z.eqb_neq _ _)) by lia. wp_step.
    eapply wp_mono; [apply malloc_tail; [exact H|lia..]|]. by apply Hpost.
  - rewrite Hf0. simpl. unfold set_h_ptr, set_h_size. do 7 (wp_step; cbn [u_mem set_u_mem]).
    destruct (heap_first s Hb Hhi) as [H1 Hk1].
    unfold set_u_freep, set_u_mem. simpl. rewrite Hb in Hpost |- *.
    eapply wp_mono; [apply (malloc_tail fuel _ _ _ _ H1); lia|].
    by apply (Hpost _ H1 Hk1).
Qed.

End heap.

(** ** A process of one page *)

Definition demo_grow (brk n : Z) : bool := brk + n <=? 2 ^ 20.
Definition demo_start : ust := mkUst (fun _ => 0) 0 0x1000.
(** One block of 4096 units has been given out, and nothing is free. *)
Definition demo_full : ust :=
  mkUst (st32 (st32 (st32 (fun _ => 0) 0x800 0x800) 0x804 0) 0x1004 4096) 0x800 (0x1000 + 8 * 4096).

Lemma demo_grow_ok brk n : demo_grow brk n = true -> 0 <= brk -> 0 < n -> brk + n <= 2 ^ 31.
Proof. unfold demo_grow. rewrite Z.leb_le. lia. Qed.

Lemma malloc_fresh_witness : exists r s', malloc 0x800 demo_grow 8 100 demo_start = Ret r s' /\
  kept 0x800 0x1000 [] demo_start s'.
Proof.
  assert (ready 0x800 0x1000 demo_start [] []) as H by (right; done).
  assert (wp (malloc 0x800 demo_grow 8 100) (fun _ s' => kept 0x800 0x1000 [] demo_start s') demo_start) as Hw.
  { eapply wp_mono; [apply (malloc_fresh 0x800 0x1000 ltac:(lia) demo_grow demo_grow_ok 8
      demo_start [] [] 100 H); simpl; lia|].
    by intros r s' [? _]. }
  unfold wp in Hw. destruct (malloc 0x800 demo_grow 8 100 demo_start) as [r s'| | |]; [|done..].
  by exists r, s'.
Defined.

Lemma free_gives_back_witness : exists s', free 8 0x1008 demo_full = Ret tt s' /\
  exists L', heap 0x800 0x1000 s' L' [].
Proof.
  assert (heap 0x800 0x1000 demo_full [] [(0x1000, 4096)]) as H.
  { destruct (heap_first 0x800 0x1000 ltac:(lia) demo_start) as [H1 _]; [done|lia|].
    by apply (heap_grow 0x800 0x1000 ltac:(lia) _ _ _ 4096 H1); simpl; lia. }
  assert (wp (free 8 0x1008) (fun _ s' => exists L', heap 0x800 0x1000 s' L' []) demo_full) as Hw.
  { eapply wp_mono; [apply (free_gives_back 0x800 0x1000 ltac:(lia) 8 demo_full [] _ []
      0x1008 4096 H); [done|simpl; lia]|].
    intros _ s' (_ & _ & L' & ? & _). by exists L'. }
  unfold wp in Hw. destruct (free 8 0x1008 demo_full) as [[] s'| | |]; [|done..].
  by exists s'.
Defined.

(** The size in units is computed with 32 bits: for the last seven sizes the sum with the size of a
    header starts again at 0, and malloc gives out a block without room for a single byte. *)
Lemma malloc_size_overflows : exists r s', malloc 0x800 demo_grow 8 (2 ^ 32 - 7) demo_start = Ret r s' /\
  r = 0x8ff8 + 8 /\ ld32 (u_mem s') (r - 8 + 4) = 1.
Proof.
  destruct (malloc 0x800 demo_grow 8 (2 ^ 32 - 7) demo_start) as [r s'| | |] eqn:E;
    vm_compute in E; [|discriminate..].
  exists r, s'. injection E as <- <-. split; [done|]. by vm_compute.
Qed.
