(* ===== verification/Programs.v ===== *)
(** * Small user programs (src/cat.c, echo.c, wc.c, ls.c, ln.c, rm.c, mkdir.c, kill.c, init.c,
      zombie.c, and stat of ulib.c)

    Each program is a tree of system calls (User.v).  [argv] is the list of the argument strings,
    argv[0] included; a string is the list of its characters.  The loops that read a file and the
    loops of init, which need not end, take fuel.  What printf prints for %d is Printf's
    [signed_decimal]. *)
From Stdlib Require Import ZArith Lia.
From stdpp Require Import base list numbers strings.
From S2P Require Import Prelude Ulib Printf Fs Sysfile User.
Import Prelude.
Local Open Scope Z_scope.

Definition SPACE : Z := 32.
Definition dec (x : Z) : list Z := signed_decimal udigits (i32 x).

(** ** cat *)

Definition cat_body (fd : Z) (_ : unit) : uprog (unit + unit) :=
  call! r := sysr (CRead fd 512) in
  let n := r.1 in
  if 0 <? n then
    call! k := sys (CWrite 1 (take (Z.to_nat n) r.2)) in
    if negb (k =? n) then uputs 1 (text "cat: write error" ++ newline) ;;! UExit
    else UDone (inl tt)
  else if n <? 0 then uputs 1 (text "cat: read error" ++ newline) ;;! UExit
  else UDone (inr tt).
Definition cat (fuel : nat) (fd : Z) : uprog unit := uloop fuel (cat_body fd) tt.

Definition cat_file (fuel : nat) (arg : list Z) : uprog unit :=
  call! fd := sys (COpen arg 0) in
  if fd <? 0 then uputs 1 (text "cat: cannot open " ++ arg ++ newline) ;;! UExit
  else
    cat fuel fd ;;!
    sys (CClose fd) ;;!
    UDone tt.
Definition cat_main (fuel : nat) (argv : list (list Z)) : uprog unit :=
  if Z.of_nat (length argv) <=? 1 then cat fuel 0 ;;! UExit
  else ueach (drop 1 argv) (cat_file fuel) ;;! UExit.

(** ** echo *)

Fixpoint echo_loop (args : list (list Z)) : uprog unit :=
  match args with
  | [] => UDone tt
  | a :: rest => uputs 1 (a ++ match rest with [] => newline | _ => [SPACE] end) ;;! echo_loop rest
  end.
Definition echo_main (argv : list (list Z)) : uprog unit := echo_loop (drop 1 argv) ;;! UExit.

(** ** wc *)

Record counts := mkCounts {
  n_lines : Z;
  n_words : Z;
  n_chars : Z;
  inword : bool }.

(** Space, carriage return, tab, newline, vertical tab *)
Definition wc_separators : list Z := [32; 13; 9; 10; 11; 0].

Definition wc_char (s : counts) (ch : Z) : counts :=
  let c := i32 (n_chars s + 1) in
  let l := if ch =? 10 then i32 (n_lines s + 1) else n_lines s in
  match strchr wc_separators ch with
  | Some (Some _) => mkCounts l (n_words s) c false
  | _ => if negb (inword s) then mkCounts l (i32 (n_words s + 1)) c true
         else mkCounts l (n_words s) c (inword s)
  end.

Definition wc_body (fd : Z) (s : counts) : uprog (counts + counts) :=
  call! r := sysr (CRead fd 512) in
  let n := r.1 in
  if 0 <? n then UDone (inl (foldl wc_char s (take (Z.to_nat n) r.2)))
  else if n <? 0 then uputs 1 (text "wc: read error" ++ newline) ;;! UExit
  else UDone (inr s).
Definition wc (fuel : nat) (fd : Z) (name : list Z) : uprog unit :=
  call! s := uloop fuel (wc_body fd) (mkCounts 0 0 0 false) in
  uputs 1 (dec (n_lines s) ++ [SPACE] ++ dec (n_words s) ++ [SPACE] ++ dec (n_chars s) ++ [SPACE] ++
           name ++ newline).

Definition wc_file (fuel : nat) (arg : list Z) : uprog unit :=
  call! fd := sys (COpen arg 0) in
  if fd <? 0 then uputs 1 (text "wc: cannot open " ++ arg ++ newline) ;;! UExit
  else
    wc fuel fd arg ;;!
    sys (CClose fd) ;;!
    UDone tt.
Definition wc_main (fuel : nat) (argv : list (list Z)) : uprog unit :=
  if Z.of_nat (length argv) <=? 1 then wc fuel 0 [] ;;! UExit
  else ueach (drop 1 argv) (wc_file fuel) ;;! UExit.

(** ** stat (ulib.c) *)

(** The return value and, when it is not negative, the contents of the struct stat *)
Definition ustat (n : list Z) : uprog reply :=
  call! fd := sys (COpen n O_RDONLY) in
  if fd <? 0 then UDone (-1, [])
  else
    call! r := sysr (CFstat fd) in
    sys (CClose fd) ;;!
    UDone r.

(** The fields of a struct stat *)
Definition st_type (st : list Z) : Z := nth 0 st 0.
Definition st_ino (st : list Z) : Z := nth 2 st 0.
Definition st_size (st : list Z) : Z := nth 4 st 0.

(** ** ls *)

(** The scan back from the end of the path: the index after the last slash *)
Fixpoint slash_scan (path : list Z) (p : nat) : nat :=
  if decide (path !! p = Some 47) then S p
  else match p with
       | O => O
       | S p' => slash_scan path p'
       end.
Definition fmtname (path : list Z) : list Z :=
  let p := drop (slash_scan path (length path)) path in
  if (DIRSIZ <=? length p)%nat then p
  else p ++ replicate (DIRSIZ - length p) SPACE.

Definition ls_line (name st : list Z) : list Z :=
  name ++ [SPACE] ++ dec (st_type st) ++ [SPACE] ++ dec (st_ino st) ++ [SPACE] ++ dec (st_size st) ++ newline.

(** One directory entry; [buf] is the path with a slash. *)
Definition ls_entry (fd : Z) (buf : list Z) (_ : unit) : uprog (unit + unit) :=
  call! r := sysr (CRead fd 16) in
  if negb (r.1 =? 16) then UDone (inr tt)
  else if de_inum r.2 =? 0 then UDone (inl tt)
  else
    let buf := buf ++ chars (take DIRSIZ (de_name r.2)) in
    call! s := ustat buf in
    (if s.1 <? 0 then uputs 1 (text "ls: cannot stat " ++ buf ++ newline)
     else uputs 1 (ls_line (fmtname buf) s.2)) ;;!
    UDone (inl tt).

Definition ls (fuel : nat) (path : list Z) : uprog unit :=
  call! fd := sys (COpen path 0) in
  if fd <? 0 then uputs 2 (text "ls: cannot open " ++ path ++ newline)
  else
    call! r := sysr (CFstat fd) in
    if r.1 <? 0 then
      uputs 2 (text "ls: cannot stat " ++ path ++ newline) ;;!
      sys (CClose fd) ;;!
      UDone tt
    else
      (if st_type r.2 =? T_FILE then uputs 1 (ls_line (fmtname path) r.2)
       else if st_type r.2 =? T_DIR then
         if 512 <? Z.of_nat (length path) + 1 + Z.of_nat DIRSIZ + 1
         then uputs 1 (text "ls: path too long" ++ newline)
         else uloop fuel (ls_entry fd (path ++ [47])) tt
       else UDone tt) ;;!
      sys (CClose fd) ;;!
      UDone tt.

Definition ls_main (fuel : nat) (argv : list (list Z)) : uprog unit :=
  if Z.of_nat (length argv) <? 2 then ls fuel (text ".") ;;! UExit
  else ueach (drop 1 argv) (ls fuel) ;;! UExit.

(** ** ln, rm, mkdir, kill *)

Definition ln_main (argv : list (list Z)) : uprog unit :=
  match argv with
  | [_; old; new] =>
      call! r := sys (CLink old new) in
      (if r <? 0 then uputs 2 (text "link " ++ old ++ [SPACE] ++ new ++ text ": failed" ++ newline)
       else UDone tt) ;;!
      UExit
  | _ => uputs 2 (text "Usage: ln old new" ++ newline) ;;! UExit
  end.

Fixpoint rm_loop (args : list (list Z)) : uprog unit :=
  match args with
  | [] => UDone tt
  | a :: rest =>
      call! r := sys (CUnlink a) in
      if r <? 0 then uputs 2 (text "rm: " ++ a ++ text " failed to delete" ++ newline)
      else rm_loop rest
  end.
Definition rm_main (argv : list (list Z)) : uprog unit :=
  if Z.of_nat (length argv) <? 2 then uputs 2 (text "Usage: rm files..." ++ newline) ;;! UExit
  else rm_loop (drop 1 argv) ;;! UExit.

Fixpoint mkdir_loop (args : list (list Z)) : uprog unit :=
  match args with
  | [] => UDone tt
  | a :: rest =>
      call! r := sys (CMkdir a) in
      if r <? 0 then uputs 2 (text "mkdir: " ++ a ++ text " failed to create" ++ newline)
      else mkdir_loop rest
  end.
Definition mkdir_main (argv : list (list Z)) : uprog unit :=
  if Z.of_nat (length argv) <? 2 then uputs 2 (text "Usage: mkdir files..." ++ newline) ;;! UExit
  else mkdir_loop (drop 1 argv) ;;! UExit.

Definition kill_arg (a : list Z) : uprog unit :=
  sys (CKill (default 0 (atoi (a ++ [0])))) ;;! UDone tt.
Definition kill_main (argv : list (list Z)) : uprog unit :=
  if Z.of_nat (length argv) <? 2 then uputs 2 (text "usage: kill pid..." ++ newline) ;;! UExit
  else ueach (drop 1 argv) kill_arg ;;! UExit.

(** ** init and zombie *)

(** [while((wpid=wait()) >= 0 && wpid != pid)] *)
Definition init_wait (pid : Z) (_ : unit) : uprog (unit + unit) :=
  call! wpid := sys CWait in
  if (0 <=? wpid) && negb (wpid =? pid) then uputs 1 (text "zombie!" ++ newline) ;;! UDone (inl tt)
  else UDone (inr tt).

Definition init_round (fuel : nat) (_ : unit) : uprog (unit + unit) :=
  uputs 1 (text "init: starting sh" ++ newline) ;;!
  call! pid := sys CFork in
  if pid <? 0 then uputs 1 (text "init: fork failed" ++ newline) ;;! UExit
  else if pid =? 0 then
    sys (CExec (text "sh") [text "sh"]) ;;!
    uputs 1 (text "init: exec sh failed" ++ newline) ;;!
    UExit
  else
    uloop fuel (init_wait pid) tt ;;!
    UDone (inl tt).

Definition init_main (fuel : nat) : uprog unit :=
  call! fd := sys (COpen (text "console") O_RDWR) in
  (if fd <? 0 then
     sys (CMknod (text "console") 1 1) ;;!
     sys (COpen (text "console") O_RDWR) ;;!
     UDone tt
   else UDone tt) ;;!
  sys (CDup 0) ;;!
  sys (CDup 0) ;;!
  uloop fuel (init_round fuel) tt.

Definition zombie_main : uprog unit :=
  call! pid := sys CFork in
  (if 0 <? pid then sys (CSleep 5) ;;! UDone tt else UDone tt) ;;!
  UExit.
