(* ===== verification/ProgramsThms.v ===== *)
(** * What the small user programs print

    The programs run against the part of the kernel they use: a path names a file with its
    contents, open takes the lowest free descriptor and reads go on from its offset, and a write
    is appended to the output.  A read of a device may return less than it was asked for.  cat
    prints the files one after the other, wc the numbers of their lines, words and characters,
    echo its arguments, and ls one line for each used entry of a directory. *)
From Stdlib Require Import ZArith Lia.
From stdpp Require Import base sets list numbers strings.
From S2P Require Import Prelude Ulib Printf Block Fs User Programs.
Import Prelude.
Local Open Scope Z_scope.

(** ** The kernel below the programs *)

Record node := mkNode { nd_type : Z; nd_ino : Z; nd_data : list Z }.

(** A table of open files with their offsets, and what has been written *)
Abbreviation table := (list (option (node * nat))).
Record world := mkWorld { w_fds : table; w_out : list (Z * Z) }.
Definition put_out (fd : Z) (l : list Z) (w : world) : world :=
  mkWorld (w_fds w) (w_out w ++ map (pair fd) l).
Definition set_fds (t : table) (w : world) : world := mkWorld t (w_out w).

(** How a program ends: with a value, by exit, or because its fuel is used up *)
Inductive ending (A : Type) := Finished (a : A) | Exited | Starved.
Arguments Finished {A} a.
Arguments Exited {A}.
Arguments Starved {A}.

Fixpoint lowest {A} (t : list (option A)) : option nat :=
  match t with
  | [] => None
  | None :: _ => Some 0%nat
  | Some _ :: t' => S <$> lowest t'
  end.

Section kernel.
Context (names : list Z -> option node) (short : nat -> nat -> nat).

(** How many of the [k] bytes that are left and asked for a read returns *)
Definition granted (nd : node) (off k : nat) : nat :=
  if nd_type nd =? T_DEV then short off k else k.

Definition kernel (c : call) (w : world) : reply * world :=
  match c with
  | COpen path _ =>
      match names path, lowest (w_fds w) with
      | Some nd, Some fd => ((Z.of_nat fd, []), set_fds (<[fd:=Some (nd, 0%nat)]> (w_fds w)) w)
      | _, _ => ((-1, []), w)
      end
  | CClose fd => ((0, []), set_fds (<[Z.to_nat fd:=None]> (w_fds w)) w)
  | CRead fd n =>
      match w_fds w !! Z.to_nat fd with
      | Some (Some (nd, off)) =>
          let k := granted nd off (Nat.min (Z.to_nat n) (length (nd_data nd) - off)) in
          ((Z.of_nat k, take k (drop off (nd_data nd))),
           set_fds (<[Z.to_nat fd:=Some (nd, (off + k)%nat)]> (w_fds w)) w)
      | _ => ((-1, []), w)
      end
  | CWrite fd l => ((Z.of_nat (length l), []), put_out fd l w)
  | CFstat fd =>
      match w_fds w !! Z.to_nat fd with
      | Some (Some (nd, _)) => ((0, [nd_type nd; 1; nd_ino nd; 1; Z.of_nat (length (nd_data nd))]), w)
      | _ => ((-1, []), w)
      end
  | _ => ((-1, []), w)
  end.

Fixpoint exec_prog {A} (p : uprog A) (w : world) : ending A * world :=
  match p with
  | UDone a => (Finished a, w)
  | UExit => (Exited, w)
  | UFuel => (Starved, w)
  | UCall c k => let '(r, w') := kernel c w in exec_prog (k r) w'
  end.

Lemma exec_bind {A B} (m : uprog A) (f : A -> uprog B) w :
  exec_prog (ubind m f) w =
    match exec_prog m w with
    | (Finished a, w') => exec_prog (f a) w'
    | (Exited, w') => (Exited, w')
    | (Starved, w') => (Starved, w')
    end.
Proof.
  revert w. induction m as [| | |c k IH]; intros w; simpl; [done..|].
  destruct (kernel c w) as [r w']. apply IH.
Qed.

Lemma exec_sysr c w : exec_prog (sysr c) w = (Finished (kernel c w).1, (kernel c w).2).
Proof. unfold sysr. cbn [exec_prog]. by destruct (kernel c w). Qed.
Lemma exec_sys c w : exec_prog (sys c) w = (Finished (kernel c w).1.1, (kernel c w).2).
Proof. unfold sys. cbn [exec_prog]. by destruct (kernel c w). Qed.

Lemma put_out_nil fd w : put_out fd [] w = w.
Proof. destruct w. unfold put_out. simpl. by rewrite app_nil_r. Qed.

Lemma put_out_app fd l1 l2 w : put_out fd l2 (put_out fd l1 w) = put_out fd (l1 ++ l2) w.
Proof. unfold put_out. simpl. by rewrite map_app, app_assoc. Qed.

Lemma exec_puts fd l w : exec_prog (uputs fd l) w = (Finished tt, put_out fd l w).
Proof.
  revert w. induction l as [|c l IH]; intros w; simpl; [by rewrite put_out_nil|].
  rewrite IH. by rewrite put_out_app.
Qed.

Lemma exec_uloop {A B} n (body : A -> uprog (A + B)) a w :
  exec_prog (uloop (S n) body a) w =
    match exec_prog (body a) w with
    | (Finished (inl a'), w') => exec_prog (uloop n body a') w'
    | (Finished (inr b), w') => (Finished b, w')
    | (Exited, w') => (Exited, w')
    | (Starved, w') => (Starved, w')
    end.
Proof. simpl. rewrite exec_bind. by destruct (exec_prog (body a) w) as [[[|]| |] ?]. Qed.

Lemma lowest_free {A} (t : list (option A)) fd : lowest t = Some fd -> t !! fd = Some None.
Proof.
  revert fd. induction t as [|[a|] t IH]; intros fd; simpl; [done| |by intros [= <-]].
  intros (k & Hk & ->)%fmap_Some. by apply IH.
Qed.

(** Opening, using and closing a descriptor leaves the table as it was. *)
Lemma table_restored {A} (t : list (option A)) fd x y : lowest t = Some fd ->
  <[fd:=None]> (<[fd:=x]> (<[fd:=y]> t)) = t.
Proof. intros H%lowest_free. rewrite !list_insert_insert_eq. by apply list_insert_id. Qed.

Lemma table_lookup {A} (t : list (option A)) fd x : lowest t = Some fd -> <[fd:=x]> t !! fd = Some x.
Proof. intros H%lowest_free. apply list_lookup_insert_eq. by eapply lookup_lt_Some. Qed.

(** A read of a device returns something when there is something. *)
Hypothesis Hshort : forall off k, (short off k <= k)%nat /\ (0 < k -> 0 < short off k)%nat.

(** The state after the descriptor has been read to its end *)
Definition at_end (fd : nat) (nd : node) (w : world) : world :=
  set_fds (<[fd:=Some (nd, length (nd_data nd))]> (w_fds w)) w.

Lemma read_step fd n nd off w : w_fds w !! fd = Some (Some (nd, off)) -> (off <= length (nd_data nd))%nat ->
  0 < n ->
  exists k, kernel (CRead (Z.of_nat fd) n) w =
      ((Z.of_nat k, take k (drop off (nd_data nd))), set_fds (<[fd:=Some (nd, (off + k)%nat)]> (w_fds w)) w) /\
    (off + k <= length (nd_data nd))%nat /\ (k = 0%nat -> off = length (nd_data nd)).
Proof.
  intros Hfd Hoff Hn. unfold kernel. rewrite Nat2Z.id, Hfd. eexists. split; [done|].
  set (m := Nat.min (Z.to_nat n) (length (nd_data nd) - off)).
  unfold granted. pose proof (Hshort off m) as []. destruct (nd_type nd =? T_DEV); split; lia.
Qed.

(** A loop that reads the descriptor to its end: what its rounds do with the bytes they get *)
Section reading.
Context {S : Type} (body : S -> uprog (S + S)) (fd : nat) (step : S -> list Z -> S) (emit : list Z -> list Z).
Hypothesis Hbody : forall s w r w', kernel (CRead (Z.of_nat fd) 512) w = (r, w') ->
  r.1 = Z.of_nat (length r.2) ->
  exec_prog (body s) w = if 0 <? r.1 then (Finished (inl (step s r.2)), put_out 1 (emit r.2) w')
                         else (Finished (inr s), w').
Hypothesis Hstep : forall s l1 l2, step (step s l1) l2 = step s (l1 ++ l2).
Hypothesis Hemit : forall l1 l2, emit l1 ++ emit l2 = emit (l1 ++ l2).
Hypothesis Hnil : forall s, step s [] = s /\ emit [] = [].

Lemma read_loop fuel s nd off w : w_fds w !! fd = Some (Some (nd, off)) ->
  (off <= length (nd_data nd))%nat -> (length (nd_data nd) - off < fuel)%nat ->
  exec_prog (uloop fuel body s) w =
    (Finished (step s (drop off (nd_data nd))), put_out 1 (emit (drop off (nd_data nd))) (at_end fd nd w)).
Proof.
  revert s off w. induction fuel as [|fuel IH]; intros s off w Hfd Hoff Hf; [lia|].
  destruct (read_step fd 512 nd off w Hfd Hoff ltac:(lia)) as (k & Hk & Hle & Hz).
  rewrite exec_uloop, (Hbody _ _ _ _ Hk).
  2:{ simpl. rewrite length_take_le; [done|]. rewrite length_drop. lia. }
  simpl. destruct (Z.ltb_spec 0 (Z.of_nat k)).
  - rewrite (IH _ (off + k)%nat).
    + rewrite Hstep. unfold at_end, set_fds, put_out. simpl. rewrite <- app_assoc, <- map_app, Hemit.
      rewrite list_insert_insert_eq, <- drop_drop, take_drop. done.
    + simpl. apply list_lookup_insert_eq. by eapply lookup_lt_Some.
    + done.
    + lia.
  - assert (k = 0%nat) as -> by lia. rewrite (Hz eq_refl), drop_all.
    destruct (Hnil s) as [-> ->]. rewrite put_out_nil, Nat.add_0_r. done.
Qed.

End reading.

(** ** One file after the other *)

(** What is printed for the files [args]: [good] for each of them, up to the first that cannot be
    opened, for which it is [bad]. *)
Fixpoint printed (good : list Z -> node -> list Z) (bad : list Z -> list Z) (args : list (list Z)) : list Z :=
  match args with
  | [] => []
  | a :: rest => match names a with
                 | Some nd => good a nd ++ printed good bad rest
                 | None => bad a
                 end
  end.

Section files.
Context (use : Z -> list Z -> uprog unit) (good : list Z -> node -> list Z) (bad : list Z -> list Z).
Definition on_file (arg : list Z) : uprog unit :=
  call! fd := sys (COpen arg 0) in
  if fd <? 0 then uputs 1 (bad arg) ;;! UExit
  else
    use fd arg ;;!
    sys (CClose fd) ;;!
    UDone tt.
Hypothesis Huse : forall fd arg nd w, names arg = Some nd ->
  w_fds w !! fd = Some (Some (nd, 0%nat)) ->
  exec_prog (use (Z.of_nat fd) arg) w = (Finished tt, put_out 1 (good arg nd) (at_end fd nd w)).

Lemma exec_on_file arg w fd : lowest (w_fds w) = Some fd ->
  exec_prog (on_file arg) w = match names arg with
    | Some nd => (Finished tt, put_out 1 (good arg nd) w)
    | None => (Exited, put_out 1 (bad arg) w)
    end.
Proof.
  intros Hl. unfold on_file. rewrite exec_bind, exec_sys. cbn [kernel]. rewrite Hl.
  destruct (names arg) as [nd|] eqn:En; cbn [fst snd].
  - destruct (Z.ltb_spec (Z.of_nat fd) 0); [lia|]. rewrite exec_bind, (Huse _ _ nd); [|done|].
    2:{ by apply table_lookup. }
    rewrite exec_bind, exec_sys. cbn [kernel fst snd exec_prog]. rewrite Nat2Z.id.
    unfold put_out, at_end, set_fds. cbn [w_fds w_out]. by rewrite table_restored.
  - simpl. by rewrite exec_bind, exec_puts.
Qed.

Lemma exec_files args w fd : lowest (w_fds w) = Some fd ->
  exec_prog (ueach args on_file ;;! UExit : uprog unit) w = (Exited, put_out 1 (printed good bad args) w).
Proof.
  revert w. induction args as [|a args IH]; intros w Hl; cbn [ueach printed]; [by rewrite put_out_nil|].
  rewrite exec_bind, exec_bind, (exec_on_file a w fd Hl).
  destruct (names a) as [nd|]; [|done]. rewrite <- exec_bind, IH by done. by rewrite put_out_app.
Qed.

End files.

(** ** cat *)

Lemma cat_reads fuel fd nd off w : w_fds w !! fd = Some (Some (nd, off)) ->
  (off <= length (nd_data nd))%nat -> (length (nd_data nd) - off < fuel)%nat ->
  exec_prog (cat fuel (Z.of_nat fd)) w =
    (Finished tt, put_out 1 (drop off (nd_data nd)) (at_end fd nd w)).
Proof.
  intros. unfold cat.
  rewrite (read_loop (cat_body (Z.of_nat fd)) fd (fun _ _ => tt) (fun l => l)) with (nd := nd) (off := off); try done.
  - intros [] w' r w'' Hr Hlen. unfold cat_body. rewrite exec_bind, exec_sysr, Hr. cbn [fst snd].
    rewrite Hlen, Nat2Z.id, take_ge by lia. destruct (Z.ltb_spec 0 (Z.of_nat (length r.2))).
    + simpl. rewrite Z.eqb_refl. done.
    + destruct (Z.ltb_spec (Z.of_nat (length r.2)) 0); [lia|done].
  - by intros [].
Qed.

(** cat prints the contents of its files one after the other and exits; at a file that cannot be
    opened it prints a message instead and stops. *)
Lemma cat_prints fuel argv w fd : lowest (w_fds w) = Some fd ->
  (forall a nd, names a = Some nd -> (length (nd_data nd) < fuel)%nat) -> (2 <= length argv)%nat ->
  exec_prog (cat_main fuel argv) w =
    (Exited, put_out 1 (printed (fun _ nd => nd_data nd)
                          (fun a => text "cat: cannot open " ++ a ++ newline) (drop 1 argv)) w).
Proof.
  intros Hl Hf Ha. unfold cat_main. destruct (Z.leb_spec (Z.of_nat (length argv)) 1); [lia|].
  apply (exec_files (fun f _ => cat fuel f)) with (fd := fd); [|done].
  intros f arg nd w' En Hfd. rewrite (cat_reads _ _ nd 0); [done|done|lia|].
  apply Hf in En. lia.
Qed.

(** ** wc *)

Definition separator (c : Z) : bool :=
  (c =? 32) || (c =? 13) || (c =? 9) || (c =? 10) || (c =? 11).

(** The parts of a text between separators, and the words: those that are not empty *)
Fixpoint fields (l : list Z) : list (list Z) :=
  match l with
  | [] => [[]]
  | c :: l' => if separator c then [] :: fields l'
               else match fields l' with f :: fs => (c :: f) :: fs | [] => [[c]] end
  end.
Definition words (l : list Z) : list (list Z) := filter (fun f => f <> []) (fields l).
Definition count_nl (l : list Z) : Z := Z.of_nat (length (filter (fun c => c = 10) l)).

Lemma strchr_separator c : separator c = true -> exists i, strchr wc_separators c = Some (Some i).
Proof.
  unfold separator. rewrite !orb_true_iff, !Z.eqb_eq. intros H. 
  repeat (destruct H as [H|H]; [|subst; by eexists]). subst. by eexists.
Qed.

Lemma strchr_word c : separator c = false -> strchr wc_separators c = Some None.
Proof.
  unfold separator. rewrite !orb_false_iff, !Z.eqb_neq. intros ((((? & ?) & ?) & ?) & ?).
  apply (strchr_absent [32; 13; 9; 10; 11] []). repeat constructor; done.
Qed.

Lemma fields_cons l : exists f fs, fields l = f :: fs.
Proof. destruct l as [|c l]; simpl; [eauto|]. destruct (separator c); [eauto|]. destruct (fields l); eauto. Qed.

(** The words that start in [l] when the text before it ends outside a word, or inside one *)
Definition starts_in (inword : bool) (l : list Z) : nat :=
  length (filter (fun f => f <> []) (if inword then tail (fields l) else fields l)).

Lemma starts_step b c l : starts_in b (c :: l) =
  if separator c then starts_in false l
  else ((if b then 0 else 1) + starts_in true l)%nat.
Proof.
  unfold starts_in. simpl. destruct (separator c) eqn:Ec.
  - destruct b; [done|]. by rewrite filter_cons_False by naive_solver.
  - destruct (fields_cons l) as (f & fs & ->). destruct b; [done|].
    by rewrite filter_cons_True.
Qed.

Lemma wc_fold l : forall s, 0 <= n_lines s -> 0 <= n_words s -> 0 <= n_chars s ->
  n_lines s + Z.of_nat (length l) < 2 ^ 31 -> n_words s + Z.of_nat (length l) < 2 ^ 31 ->
  n_chars s + Z.of_nat (length l) < 2 ^ 31 ->
  exists b, foldl wc_char s l = mkCounts (n_lines s + count_nl l)
    (n_words s + Z.of_nat (starts_in (inword s) l)) (n_chars s + Z.of_nat (length l)) b.
Proof.
  induction l as [|c l IH]; intros [nl nw nc b] H1 H2 H3 H4 H5 H6; cbn [n_lines n_words n_chars inword length] in *.
  - exists b. simpl. unfold count_nl, starts_in. simpl. destruct b; simpl; f_equal; lia.
  - cbn [foldl]. unfold wc_char at 2. cbn [n_lines n_words n_chars inword]. rewrite !i32_small by lia.
    assert (count_nl (c :: l) = (if c =? 10 then 1 else 0) + count_nl l) as ->.
    { unfold count_nl. destruct (Z.eqb_spec c 10); [rewrite filter_cons_True by done|rewrite filter_cons_False by done]; simpl; lia. }
    set (nl' := if c =? 10 then nl + 1 else nl).
    assert (nl' = nl + if c =? 10 then 1 else 0) as Hnl by (unfold nl'; destruct (c =? 10); lia).
    assert (0 <= nl' <= nl + 1) by (unfold nl'; destruct (c =? 10); lia).
    rewrite starts_step. destruct (separator c) eqn:Ec.
    + destruct (strchr_separator c Ec) as [i ->].
      destruct (IH (mkCounts nl' nw (nc + 1) false)) as [b' ->]; simpl; [lia..|].
      exists b'. f_equal; lia.
    + rewrite (strchr_word c Ec). destruct b; cbn [negb].
      * destruct (IH (mkCounts nl' nw (nc + 1) true)) as [b' ->]; simpl; [lia..|].
        exists b'. f_equal; lia.
      * destruct (IH (mkCounts nl' (nw + 1) (nc + 1) true)) as [b' ->]; simpl; [lia..|].
        exists b'. f_equal; lia.
Qed.

(** The line wc prints for a text *)
Definition wc_line (l name : list Z) : list Z :=
  dec (count_nl l) ++ [SPACE] ++ dec (Z.of_nat (length (words l))) ++ [SPACE] ++
  dec (Z.of_nat (length l)) ++ [SPACE] ++ name ++ newline.

Lemma wc_reads fuel fd nd name w : w_fds w !! fd = Some (Some (nd, 0%nat)) ->
  (length (nd_data nd) < fuel)%nat -> Z.of_nat (length (nd_data nd)) < 2 ^ 31 ->
  exec_prog (wc fuel (Z.of_nat fd) name) w =
    (Finished tt, put_out 1 (wc_line (nd_data nd) name) (at_end fd nd w)).
Proof.
  intros Hfd Hf Hl. unfold wc. rewrite exec_bind.
  rewrite (read_loop (wc_body (Z.of_nat fd)) fd (foldl wc_char) (fun _ => [])) with (nd := nd) (off := 0%nat);
    [| |intros; by rewrite foldl_app|done|done|done|lia|lia].
  - rewrite drop_0. destruct (wc_fold (nd_data nd) (mkCounts 0 0 0 false)) as [b ->]; [simpl; lia..|].
    by rewrite exec_puts, put_out_nil.
  - intros s w' r w'' Hr Hlen. unfold wc_body. rewrite exec_bind, exec_sysr, Hr. cbn [fst snd].
    rewrite Hlen, Nat2Z.id, take_ge by lia. destruct (Z.ltb_spec 0 (Z.of_nat (length r.2))).
    + by rewrite put_out_nil.
    + destruct (Z.ltb_spec (Z.of_nat (length r.2)) 0); [lia|done].
Qed.

(** Wc prints a line for each of its files with the numbers of the newlines, of the words (the
    parts between separators that are not empty) and of the characters, and exits; at a file that
    cannot be opened it prints a message and stops. *)
Lemma wc_counts fuel argv w fd : lowest (w_fds w) = Some fd ->
  (forall a nd, names a = Some nd -> (length (nd_data nd) < fuel)%nat /\ Z.of_nat (length (nd_data nd)) < 2 ^ 31) ->
  (2 <= length argv)%nat ->
  exec_prog (wc_main fuel argv) w =
    (Exited, put_out 1 (printed (fun a nd => wc_line (nd_data nd) a)
                          (fun a => text "wc: cannot open " ++ a ++ newline) (drop 1 argv)) w).
Proof.
  intros Hl Hf Ha. unfold wc_main. destruct (Z.leb_spec (Z.of_nat (length argv)) 1); [lia|].
  apply (exec_files (fun f a => wc fuel f a)) with (fd := fd); [|done].
  intros f arg nd w' En Hfd. destruct (Hf _ _ En). by rewrite (wc_reads _ _ nd).
Qed.

(** ** echo *)

Fixpoint spaced (args : list (list Z)) : list Z :=
  match args with
  | [] => []
  | [a] => a ++ newline
  | a :: rest => a ++ SPACE :: spaced rest
  end.

Lemma echo_prints argv w : exec_prog (echo_main argv) w = (Exited, put_out 1 (spaced (drop 1 argv)) w).
Proof.
  unfold echo_main. rewrite exec_bind. generalize (drop 1 argv). intros args.
  assert (exec_prog (echo_loop args) w = (Finished tt, put_out 1 (spaced args) w)) as ->; [|done].
  revert w. induction args as [|a rest IH]; intros w; cbn [echo_loop]; [by rewrite put_out_nil|].
  rewrite exec_bind, exec_puts, IH, put_out_app. destruct rest; simpl; [by rewrite app_nil_r|].
  by rewrite <- app_assoc.
Qed.

(** ** ls *)

Definition stat_of (nd : node) : list Z :=
  [nd_type nd; 1; nd_ino nd; 1; Z.of_nat (length (nd_data nd))].

Lemma exec_ustat f w fd : lowest (w_fds w) = Some fd ->
  exec_prog (ustat f) w =
    (Finished (match names f with Some nd => (0, stat_of nd) | None => (-1, []) end), w).
Proof.
  intros Hl. unfold ustat. rewrite exec_bind, exec_sys. cbn [kernel]. rewrite Hl.
  destruct (names f) as [nd|]; cbn [fst snd]; [|done].
  destruct (Z.ltb_spec (Z.of_nat fd) 0); [lia|]. rewrite exec_bind, exec_sysr. cbn [kernel].
  rewrite Nat2Z.id. cbn [set_fds w_fds]. rewrite table_lookup by done. cbn [fst snd].
  rewrite exec_bind, exec_sys. cbn [kernel fst snd exec_prog set_fds w_fds]. rewrite Nat2Z.id.
  rewrite list_insert_insert_eq, list_insert_id by (by apply lowest_free). by destruct w.
Qed.

Lemma lowest_same {A} (t : list (option A)) fd x y : t !! fd = Some (Some x) ->
  lowest (<[fd:=Some y]> t) = lowest t.
Proof.
  revert fd. induction t as [|[a|] t IH]; intros [|fd]; simpl; try done. intros H. by rewrite IH.
Qed.

Lemma chars_sub l x : x ∈ chars l -> x ∈ l.
Proof. induction l as [|c l IH]; simpl; [done|]. destruct (c =? 0); [|rewrite !elem_of_cons]; set_solver. Qed.

Lemma chars_length l : (length (chars l) <= length l)%nat.
Proof. induction l as [|c l IH]; simpl; [done|]. destruct (c =? 0); simpl; lia. Qed.

(** The name of an entry, filled up with spaces to the longest *)
Definition padded (name : list Z) : list Z := name ++ replicate (DIRSIZ - length name) SPACE.

Lemma slash_scan_last d name k : 47 ∉ name -> (k <= length name)%nat ->
  slash_scan (d ++ 47 :: name) (length d + k) = S (length d).
Proof.
  intros Hn. induction k as [|k IH]; intros Hk.
  - rewrite Nat.add_0_r. destruct (length d) as [|m] eqn:Ed; simpl; rewrite <- ?Ed.
    + destruct d; [|done]. by simpl.
    + rewrite decide_True; [done|]. by rewrite list_lookup_middle.
  - rewrite Nat.add_succ_r. cbn [slash_scan]. rewrite decide_False; [apply IH; lia|].
    rewrite lookup_app_r by lia. replace (S (length d + k) - length d)%nat with (S k) by lia.
    simpl. intros ?%list_elem_of_lookup_2. done.
Qed.

Lemma fmtname_padded d name : 47 ∉ name -> (length name <= DIRSIZ)%nat ->
  fmtname (d ++ 47 :: name) = padded name.
Proof.
  intros Hn Hl. unfold fmtname.
  assert (slash_scan (d ++ 47 :: name) (length (d ++ 47 :: name)) = S (length d)) as ->.
  { rewrite length_app. simpl length. rewrite Nat.add_succ_r. cbn [slash_scan].
    rewrite decide_False; [by apply slash_scan_last|].
    rewrite lookup_ge_None_2; [done|]. rewrite length_app. simpl. lia. }
  replace (drop (S (length d)) (d ++ 47 :: name)) with name.
  2:{ rewrite cons_middle, app_assoc. rewrite drop_app_length'; [done|]. rewrite length_app. simpl. lia. }
  destruct (Nat.leb_spec DIRSIZ (length name)); [|done].
  unfold padded. replace (DIRSIZ - length name)%nat with 0%nat by lia. by rewrite app_nil_r.
Qed.

(** What ls prints for an entry of the directory [path] *)
Definition ls_text (path e : list Z) : list Z :=
  let name := chars (take DIRSIZ (de_name e)) in
  let f := path ++ 47 :: name in
  if de_inum e =? 0 then []
  else match names f with
       | Some nd => ls_line (padded name) (stat_of nd)
       | None => text "ls: cannot stat " ++ f ++ newline
       end.

Section listing.
Context (path : list Z) (nd : node) (fd fd' : nat).
Hypothesis Hdir : nd_type nd = T_DIR.

Definition listing (w : world) (off : nat) : Prop :=
  w_fds w !! fd = Some (Some (nd, off)) /\ lowest (w_fds w) = Some fd'.

Lemma listing_next w off off' : listing w off ->
  listing (set_fds (<[fd:=Some (nd, off')]> (w_fds w)) w) off'.
Proof.
  intros [H1 H2]. split; cbn [set_fds w_fds].
  - apply list_lookup_insert_eq. by eapply lookup_lt_Some.
  - by rewrite lowest_same with (x := (nd, off)).
Qed.

Lemma ls_one e w w' off : listing w' off ->
  kernel (CRead (Z.of_nat fd) 16) w = ((16, e), w') -> 47 ∉ de_name e ->
  exec_prog (ls_entry (Z.of_nat fd) (path ++ [47]) tt) w = (Finished (inl tt), put_out 1 (ls_text path e) w').
Proof.
  intros [_ Hl] Hk Hn. unfold ls_entry, ls_text. rewrite exec_bind, exec_sysr, Hk. cbn [fst snd].
  rewrite Z.eqb_refl. cbn [negb]. destruct (de_inum e =? 0); [by rewrite put_out_nil|].
  set (name := chars (take DIRSIZ (de_name e))).
  assert (47 ∉ name /\ (length name <= DIRSIZ)%nat) as [Hn' Hlen].
  { split; [intros H%chars_sub; apply Hn; rewrite <- (take_drop DIRSIZ (de_name e)); set_solver|].
    unfold name. etransitivity; [apply chars_length|]. rewrite length_take. lia. }
  rewrite <- app_assoc. cbn [app]. rewrite exec_bind, (exec_ustat _ _ fd') by done.
  destruct (names (path ++ 47 :: name)) as [nd'|]; cbn [fst snd].
  - rewrite exec_bind, (proj2 (Z.ltb_ge 0 0)) by lia. rewrite exec_puts. by rewrite fmtname_padded.
  - rewrite exec_bind. change (-1 <? 0) with true. cbv iota. by rewrite exec_puts.
Qed.

Lemma dir_read off w : listing w off ->
  kernel (CRead (Z.of_nat fd) 16) w =
    let k := Nat.min 16 (length (nd_data nd) - off) in
    ((Z.of_nat k, take k (drop off (nd_data nd))), set_fds (<[fd:=Some (nd, (off + k)%nat)]> (w_fds w)) w).
Proof. intros [H1 _]. unfold kernel. rewrite Nat2Z.id, H1. unfold granted. by rewrite Hdir. Qed.

Lemma ls_reads es : forall fuel off w, listing w off -> (length es < fuel)%nat ->
  Forall (fun e => length e = 16%nat /\ 47 ∉ de_name e) es -> drop off (nd_data nd) = concat es ->
  (off <= length (nd_data nd))%nat ->
  exec_prog (uloop fuel (ls_entry (Z.of_nat fd) (path ++ [47])) tt) w =
    (Finished tt, put_out 1 (concat (map (ls_text path) es)) (at_end fd nd w)).
Proof.
  induction es as [|e es IH]; intros [|fuel] off w Hw Hf He Hd Hoff; simpl in Hf; [lia| |lia|];
    pose proof (dir_read off w Hw) as Hr; pose proof (f_equal length Hd) as Hlen;
    rewrite length_drop in Hlen; rewrite exec_uloop.
  - cbn [concat length] in Hlen. rewrite Hlen in Hr. cbv zeta in Hr.
    change (Nat.min 16 0) with 0%nat in Hr. unfold ls_entry.
    rewrite exec_bind, exec_sysr, Hr. cbn [fst snd]. change (negb (Z.of_nat 0 =? 16)) with true. cbv iota.
    cbn [exec_prog map concat]. rewrite put_out_nil. unfold at_end.
    by replace (off + 0)%nat with (length (nd_data nd)) by lia.
  - inversion_clear He as [|? ? [He1 He2] He']. cbn [concat] in Hlen. rewrite length_app in Hlen.
    cbv zeta in Hr.
    rewrite Hlen, He1 in Hr. replace (Nat.min 16 (16 + length (concat es))) with 16%nat in Hr by lia.
    rewrite Hd in Hr. cbn [concat] in Hr. rewrite <- He1, take_app_length, He1 in Hr.
    rewrite (ls_one e w _ (off + 16) (listing_next w off (off + 16) Hw) Hr He2).
    rewrite (IH fuel (off + 16)%nat); [|by apply (listing_next w off)|lia|done|rewrite <- drop_drop, Hd|lia].
    + unfold at_end, put_out, set_fds. simpl. by rewrite list_insert_insert_eq, map_app, app_assoc.
    + simpl. rewrite <- He1. apply drop_app_length.
Qed.

End listing.

(** Ls of a directory prints one line for each entry in use: the name filled up with spaces, the
    type, the number and the size of the file, or a message when the file cannot be opened. *)
Lemma ls_lists fuel path nd es w fd fd' : names path = Some nd -> nd_type nd = T_DIR ->
  lowest (w_fds w) = Some fd -> lowest (<[fd:=Some (nd, 0%nat)]> (w_fds w)) = Some fd' ->
  nd_data nd = concat es -> Forall (fun e => length e = 16%nat /\ 47 ∉ de_name e) es ->
  (length path + 16 <= 512)%nat -> (length es < fuel)%nat ->
  exec_prog (ls fuel path) w = (Finished tt, put_out 1 (concat (map (ls_text path) es)) w).
Proof.
  intros Hp Ht Hl Hl' Hd He Hlen Hf. unfold ls. rewrite exec_bind, exec_sys. cbn [kernel].
  rewrite Hp, Hl. cbn [fst snd]. destruct (Z.ltb_spec (Z.of_nat fd) 0); [lia|].
  set (w1 := set_fds (<[fd:=Some (nd, 0%nat)]> (w_fds w)) w).
  assert (listing nd fd fd' w1 0) as Hw1 by (split; [by apply table_lookup|done]).
  rewrite exec_bind, exec_sysr. cbn [kernel]. rewrite Nat2Z.id, (proj1 Hw1). cbn [fst snd].
  rewrite (proj2 (Z.ltb_ge 0 0)) by lia. cbv [st_type nth]. rewrite Ht.
  change (T_DIR =? T_FILE) with false. change (T_DIR =? T_DIR) with true. cbv iota.
  destruct (Z.ltb_spec 512 (Z.of_nat (length path) + 1 + Z.of_nat DIRSIZ + 1)); [unfold DIRSIZ in *; lia|].
  rewrite exec_bind, (ls_reads path nd fd fd' Ht es fuel 0 w1 Hw1 Hf He Hd) by lia.
  rewrite exec_bind, exec_sys. cbn [kernel fst snd exec_prog]. rewrite Nat2Z.id.
  unfold w1, put_out, at_end, set_fds. cbn [w_fds w_out]. by rewrite table_restored.
Qed.

End kernel.

(** ** Two files in a directory *)

Definition demo_file : node := mkNode T_FILE 7 (text "one two" ++ [10] ++ text "three" ++ [10]).
Definition demo_dirent (inum : Z) (name : list Z) : list Z := bytes16 inum ++ strncpy_chars DIRSIZ name.
Definition demo_dir : node :=
  mkNode T_DIR 1 (concat [demo_dirent 7 (text "a"); demo_dirent 0 (text "gone"); demo_dirent 9 (text "b")]).
Definition demo_names (path : list Z) : option node :=
  if decide (path = text "a") then Some demo_file
  else if decide (path = text "d") then Some demo_dir
  else if decide (path = text "d/a") then Some demo_file
  else None.
Definition demo_world : world := mkWorld [Some (demo_file, 0%nat); None; None] [].
Definition demo_short (off k : nat) : nat := Nat.min k 3.

Lemma demo_short_ok off k : (demo_short off k <= k)%nat /\ (0 < k -> 0 < demo_short off k)%nat.
Proof. unfold demo_short. lia. Qed.

Lemma demo_names_small a nd : demo_names a = Some nd -> (length (nd_data nd) < 100)%nat.
Proof.
  unfold demo_names. repeat destruct (decide _); intros [= <-]; apply Nat.ltb_lt; by vm_compute.
Qed.
