(* ===== verification/Ide.v ===== *)
(** * The IDE disk driver (src/ide.c)

    The drive is a device that the driver talks to through ports; it is an argument, the class
    [Ata] of its four operations.  The requests wait in the list that starts at idequeue and goes
    on through qnext.  iderw is split where it sleeps: [iderw_enter] runs until the process sleeps
    for the first time, [iderw_resume] is what it does when it has been woken up; both say whether
    iderw has returned.  The waiting loop for the drive takes fuel.  The calls of wakeup are
    recorded; turning the interrupt on at the I/O APIC is not part of this state. *)
From Stdlib Require Import ZArith Lia.
From stdpp Require Import base list numbers strings.
From S2P Require Import Prelude Bio Mkfs.
Import Prelude.
Local Open Scope Z_scope.

Definition SECTOR_SIZE : Z := 512.
Definition IDE_BSY : Z := 0x80.
Definition IDE_DRDY : Z := 0x40.
Definition IDE_DF : Z := 0x20.
Definition IDE_ERR : Z := 0x01.
Definition IDE_CMD_READ : Z := 0x20.
Definition IDE_CMD_WRITE : Z := 0x30.
Definition IDE_CMD_RDMUL : Z := 0xc4.
Definition IDE_CMD_WRMUL : Z := 0xc5.

(** A device: reading and writing a port, and moving words from and to a port *)
Class Ata (D : Type) := {
  dev_inb : Z -> D -> Z * D;
  dev_outb : Z -> Z -> D -> D;
  dev_insl : Z -> nat -> D -> list Z * D;  (* the number of words; the bytes read *)
  dev_outsl : Z -> list Z -> D -> D }.

Section driver.
Context {D : Type} `{Ata D} (fuel : nat).

Record ide := mkIde {
  id_dev : D;
  id_bufs : list buf;
  id_qnext : list (option nat);  (* the field qnext of the buffers *)
  idequeue : option nat;
  idelock : bool;
  havedisk1 : bool;
  id_woken : list nat }.  (* the calls of wakeup *)

Definition set_id_dev (v : D) (s : ide) : ide :=
  mkIde v (id_bufs s) (id_qnext s) (idequeue s) (idelock s) (havedisk1 s) (id_woken s).
Definition set_id_bufs (v : list buf) (s : ide) : ide :=
  mkIde (id_dev s) v (id_qnext s) (idequeue s) (idelock s) (havedisk1 s) (id_woken s).
Definition set_id_qnext (v : list (option nat)) (s : ide) : ide :=
  mkIde (id_dev s) (id_bufs s) v (idequeue s) (idelock s) (havedisk1 s) (id_woken s).
Definition set_idequeue (v : option nat) (s : ide) : ide :=
  mkIde (id_dev s) (id_bufs s) (id_qnext s) v (idelock s) (havedisk1 s) (id_woken s).
Definition set_idelock (v : bool) (s : ide) : ide :=
  mkIde (id_dev s) (id_bufs s) (id_qnext s) (idequeue s) v (havedisk1 s) (id_woken s).
Definition set_havedisk1 (v : bool) (s : ide) : ide :=
  mkIde (id_dev s) (id_bufs s) (id_qnext s) (idequeue s) (idelock s) v (id_woken s).
Definition set_id_woken (v : list nat) (s : ide) : ide :=
  mkIde (id_dev s) (id_bufs s) (id_qnext s) (idequeue s) (idelock s) (havedisk1 s) v.

Definition inb (p : Z) : M ide Z := fun s =>
  let '(v, d) := dev_inb p (id_dev s) in Ret v (set_id_dev d s).
Definition outb (p v : Z) : M ide unit := modify (fun s => set_id_dev (dev_outb p (v mod 256) (id_dev s)) s).
Definition insl (p : Z) (n : nat) : M ide (list Z) := fun s =>
  let '(l, d) := dev_insl p n (id_dev s) in Ret l (set_id_dev d s).
Definition outsl (p : Z) (l : list Z) : M ide unit := modify (fun s => set_id_dev (dev_outsl p l (id_dev s)) s).

Definition ide_acquire : M ide unit := lift idelock set_idelock spin_acquire.
Definition ide_release : M ide unit := lift idelock set_idelock spin_release.

Definition id_getb (i : nat) : M ide buf := fun s =>
  match id_bufs s !! i with Some b => Ret b s | None => Fault s end.
Definition id_updb (i : nat) (f : buf -> buf) : M ide unit := fun s =>
  match id_bufs s !! i with
  | Some b => Ret tt (set_id_bufs (<[i := f b]> (id_bufs s)) s)
  | None => Fault s
  end.
(** An operation on the sleep lock of a buffer *)
Definition id_on_lock {A} (i : nat) (m : M sleeplock A) : M ide A := fun s =>
  match id_bufs s !! i with
  | Some _ => lift (fun s => default (mkSleeplock false false "" 0 0) (b_lock <$> id_bufs s !! i))
                   (fun l s => set_id_bufs (alter (set_b_lock l) i (id_bufs s)) s) m s
  | None => Fault s
  end.
Definition get_qnext (i : nat) : M ide (option nat) := fun s =>
  match id_qnext s !! i with Some q => Ret q s | None => Fault s end.
Definition set_qnext (i : nat) (q : option nat) : M ide unit := fun s =>
  match id_qnext s !! i with
  | Some _ => Ret tt (set_id_qnext (<[i := q]> (id_qnext s)) s)
  | None => Fault s
  end.

(** [while(((r = inb(0x1f7)) & (IDE_BSY|IDE_DRDY)) != IDE_DRDY)] *)
Definition idewait (checkerr : bool) : M ide Z :=
  let! r := loop fuel (fun _ : unit =>
    let! r := inb 0x1f7 in
    if Z.land r (Z.lor IDE_BSY IDE_DRDY) =? IDE_DRDY then ret (inr r) else ret (inl tt)) tt in
  if checkerr && negb (Z.land r (Z.lor IDE_DF IDE_ERR) =? 0) then ret (-1) else ret 0.

Definition ideinit : M ide unit :=
  modify (set_idelock false) ;;;
  idewait false ;;;
  outb 0x1f6 (Z.lor 0xe0 (Z.shiftl 1 4)) ;;;
  for_range 1000 0 (fun _ =>
    let! r := inb 0x1f7 in
    if negb (r =? 0) then modify (set_havedisk1 true) ;;; ret (Some tt) else ret None) ;;;
  outb 0x1f6 (Z.lor 0xe0 (Z.shiftl 0 4)).

Definition idestart (b : option nat) : M ide unit :=
  match b with
  | None => panic "idestart"
  | Some i =>
      let! b := id_getb i in
      if FSSIZE <=? b_blockno b then panic "incorrect blockno"
      else
        let sector_per_block := BSIZE / SECTOR_SIZE in
        let sector := i32 (b_blockno b * sector_per_block) in
        let read_cmd := if sector_per_block =? 1 then IDE_CMD_READ else IDE_CMD_RDMUL in
        let write_cmd := if sector_per_block =? 1 then IDE_CMD_WRITE else IDE_CMD_WRMUL in
        if 7 <? sector_per_block then panic "idestart"
        else
          idewait false ;;;
          outb 0x3f6 0 ;;;
          outb 0x1f2 sector_per_block ;;;
          outb 0x1f3 (Z.land sector 0xff) ;;;
          outb 0x1f4 (Z.land (Z.shiftr sector 8) 0xff) ;;;
          outb 0x1f5 (Z.land (Z.shiftr sector 16) 0xff) ;;;
          outb 0x1f6 (Z.lor (Z.lor 0xe0 (Z.shiftl (Z.land (b_dev b) 1) 4)) (Z.land (Z.shiftr sector 24) 0x0f)) ;;;
          if has (b_flags b) B_DIRTY then
            outb 0x1f7 write_cmd ;;;
            outsl 0x1f0 (b_data b)
          else outb 0x1f7 read_cmd
  end.

(** [wakeup(b)] *)
Definition ide_wakeup (i : nat) : M ide unit := modify (fun s => set_id_woken (id_woken s ++ [i]) s).

Definition ideintr : M ide unit :=
  ide_acquire ;;;
  let! q := gets idequeue in
  match q with
  | None => ide_release
  | Some i =>
      let! nx := get_qnext i in
      modify (set_idequeue nx) ;;;
      let! b := id_getb i in
      (if has (b_flags b) B_DIRTY then skip
       else
         let! r := idewait true in
         when (0 <=? r)
           (let! l := insl 0x1f0 (Z.to_nat (BSIZE / 4)) in
            id_updb i (set_b_data l))) ;;;
      id_updb i (fun b => set_b_flags (Z.lor (b_flags b) B_VALID) b) ;;;
      id_updb i (fun b => set_b_flags (Z.land (b_flags b) (Z.lnot B_DIRTY)) b) ;;;
      ide_wakeup i ;;;
      let! q := gets idequeue in
      (match q with Some _ => idestart q | None => skip end) ;;;
      ide_release
  end.

(** [for(pp=&idequeue; *pp; pp=&( *pp)->qnext); *pp = b;] *)
Definition ide_append (i : nat) : M ide unit :=
  let! q := gets idequeue in
  match q with
  | None => modify (set_idequeue (Some i))
  | Some j =>
      let! n := gets (fun s => length (id_bufs s)) in
      let! j := loop (S n) (fun j =>
        let! nx := get_qnext j in
        match nx with None => ret (inr j) | Some k => ret (inl k) end) j in
      set_qnext j (Some i)
  end.

(** [while((b->flags & (B_VALID|B_DIRTY)) != B_VALID) sleep(b, &idelock);] up to the next sleep, which
    releases the lock; [true] when iderw returns *)
Definition rw_test (i : nat) : M ide bool :=
  let! b := id_getb i in
  if negb (Z.land (b_flags b) (Z.lor B_VALID B_DIRTY) =? B_VALID) then ide_release ;;; ret false
  else ide_release ;;; ret true.

Definition iderw_enter (i : nat) : M ide bool :=
  let! h := id_on_lock i holdingsleep in
  let! b := id_getb i in
  if negb h then panic "iderw: buf not locked"
  else if Z.land (b_flags b) (Z.lor B_VALID B_DIRTY) =? B_VALID then panic "iderw: nothing to do"
  else
    let! h := gets havedisk1 in
    if negb (b_dev b =? 0) && negb h then panic "iderw: ide disk 1 not present"
    else
      ide_acquire ;;;
      set_qnext i None ;;;
      ide_append i ;;;
      let! q := gets idequeue in
      when (bool_decide (q = Some i)) (idestart (Some i)) ;;;
      rw_test i.

Definition iderw_resume (i : nat) : M ide bool :=
  ide_acquire ;;;
  rw_test i.

End driver.
