(* ===== verification/IdeThms.v ===== *)
(** * The IDE driver does what the disk in memory does

    What the driver relies on of an ATA drive is the class [AtaSpec]: the registers hold what is
    written to them, a command is taken when none is under way, the data port moves one sector, and
    the status register becomes ready; a command may end with an error, which the drive counts.
    Under it the driver, with its queue and its interrupts in any order, refines iderw of memide.c
    ([Bio.iderw]): each interrupt completes the oldest request, with the effect that iderw on the disk
    in memory has at that moment, except for the requests that the drive fails. *)
From Stdlib Require Import ZArith Lia.
From stdpp Require Import base sets list numbers strings relations.
From S2P Require Import Prelude Bio BioSpec Mkfs Ide.
Import Prelude.
Local Open Scope Z_scope.

(** ** The drive *)

(** What the registers select: the sector of a 28-bit address, and the drive *)
Definition reg_lba (r : Z -> Z) : Z :=
  r 0x1f3 + r 0x1f4 * 2 ^ 8 + r 0x1f5 * 2 ^ 16 + Z.land (r 0x1f6) 15 * 2 ^ 24.
Definition reg_drive (r : Z -> Z) : bool := Z.testbit (r 0x1f6) 4.

Class AtaView (D : Type) := {
  regs : D -> Z -> Z;
  sectors : D -> bool -> Z -> list Z;  (* the contents of the two drives *)
  command : D -> option Z;  (* the command whose data has not been moved *)
  busy : D -> nat;  (* how often the status is read before the drive is ready *)
  failed : D -> bool;  (* the last command ended with an error *)
  errors : D -> nat }.  (* the commands that ended with an error *)

(** The drive by itself: it goes on with its work; a read under way may end with an error. *)
Record works {D} `{AtaView D} (d d' : D) : Prop := {
  wo_regs q : regs d' q = regs d q;
  wo_sectors v n : sectors d' v n = sectors d v n;
  wo_end : command d' = command d /\ failed d' = failed d /\ errors d' = errors d \/
    command d = Some IDE_CMD_READ /\ command d' = None /\ failed d' = true /\ errors d' = S (errors d) }.

(** A write moves the data to the sector that the registers select; one that fails leaves some
    contents there. *)
Class AtaSpec (D : Type) `{Ata D} `{AtaView D} : Prop := {
  outb_reg d p v : 0x1f2 <= p <= 0x1f6 -> 0 <= v < 256 -> command d = None ->
    let d' := dev_outb p v d in
    (forall q, regs d' q = if q =? p then v else regs d q) /\
    (forall w n, sectors d' w n = sectors d w n) /\ command d' = None /\ errors d' = errors d;
  outb_ctl d : works d (dev_outb 0x3f6 0 d);
  outb_cmd d c : command d = None -> c = IDE_CMD_READ \/ c = IDE_CMD_WRITE ->
    let d' := dev_outb 0x1f7 c d in
    (forall q, regs d' q = regs d q) /\ (forall w n, sectors d' w n = sectors d w n) /\ command d' = Some c /\
    failed d' = false /\ errors d' = errors d;
  inb_status d v d' : dev_inb 0x1f7 d = (v, d') ->
    works d d' /\
    (if (busy d =? 0)%nat
     then Z.land v (Z.lor IDE_BSY IDE_DRDY) = IDE_DRDY /\ (Z.land v (Z.lor IDE_DF IDE_ERR) =? 0) = negb (failed d')
     else Z.land v (Z.lor IDE_BSY IDE_DRDY) <> IDE_DRDY /\ busy d = S (busy d'));
  outsl_write d l : command d = Some IDE_CMD_WRITE -> regs d 0x1f2 = 1 -> length l = 512%nat ->
    let d' := dev_outsl 0x1f0 l d in
    (forall q, regs d' q = regs d q) /\ command d' = None /\
    exists x, (x = l /\ errors d' = errors d \/ errors d' = S (errors d)) /\
      forall w n, sectors d' w n =
        if eqb w (reg_drive (regs d)) && (n =? reg_lba (regs d)) then x else sectors d w n;
  insl_read d l d' : command d = Some IDE_CMD_READ -> regs d 0x1f2 = 1 -> dev_insl 0x1f0 128 d = (l, d') ->
    l = sectors d (reg_drive (regs d)) (reg_lba (regs d)) /\
    (forall w n, sectors d' w n = sectors d w n) /\ command d' = None /\ errors d' = errors d }.

Section driver.
Context {D : Type} {HA : Ata D} {HV : AtaView D} {HS : AtaSpec D} (fuel : nat).
(** The drive becomes ready within [fuel] readings of its status. *)
Hypothesis Hready : forall d : D, (busy d < fuel)%nat.

Lemma works_refl (d : D) : works d d.
Proof. split; [done..|]. by left. Qed.

Lemma works_trans (d1 d2 d3 : D) : works d1 d2 -> works d2 d3 -> works d1 d3.
Proof.
  intros [A1 A2 A3] [B1 B2 B3]. split; [congruence..|].
  destruct A3 as [(E1 & E2 & E3)|(E0 & E1 & E2 & E3)], B3 as [(G1 & G2 & G3)|(G0 & G1 & G2 & G3)].
  - left. repeat split; congruence.
  - right. repeat split; congruence.
  - right. repeat split; congruence.
  - congruence.
Qed.

(** Without a command under way nothing can fail. *)
Lemma works_idle (d d' : D) : works d d' -> command d = None -> command d' = None /\ errors d' = errors d.
Proof. intros [_ _ [(E1 & _ & E3)|(E0 & _)]] Hc; [split; congruence|congruence]. Qed.

Lemma idewait_spec b (s : ide) :
  wp (idewait fuel b) (fun r s' => exists d', works (id_dev s) d' /\ s' = set_id_dev d' s /\
    r = if b && failed d' then -1 else 0) s.
Proof.
  unfold idewait. wp_step.
  eapply wp_mono with (P := fun r s' => exists d', works (id_dev s) d' /\ s' = set_id_dev d' s /\
    (Z.land r (Z.lor IDE_DF IDE_ERR) =? 0) = negb (failed d')).
  - apply (wp_loop (fun n _ s' => n = busy (id_dev s') /\
      exists d', works (id_dev s) d' /\ s' = set_id_dev d' s)) with (n := busy (id_dev s)).
    + intros n [] s' (-> & d & Hd & ->). cbn [id_dev set_id_dev]. wp_step. unfold wp at 1, inb. cbn [id_dev set_id_dev].
      destruct (dev_inb 0x1f7 d) as [v d'] eqn:E. apply inb_status in E as (Hs & Hv).
      destruct (Nat.eqb_spec (busy d) 0) as [Eb|Eb]; destruct Hv as [Hv1 Hv2].
      * rewrite Hv1, Z.eqb_refl. wp_step. exists d'. split; [by eapply works_trans|]. done.
      * rewrite (proj2 (Z.eqb_neq _ _) Hv1). wp_step. exists (busy d'). split; [lia|]. split; [done|].
        exists d'. split; [by eapply works_trans|done].
    + apply Hready.
    + split; [done|]. exists (id_dev s). split; [apply works_refl|by destruct s].
  - intros r s' (d' & Hd & -> & Hr). rewrite Hr, negb_involutive. destruct (b && failed d') eqn:Eb; wp_step; exists d'; by rewrite Eb.
Qed.

(** ** Starting a request *)

(** A buffer that a process waits for: its lock is held, it is to be read or to be written. *)
Record request (b : buf) : Prop := {
  rq_flags : b_flags b = 0 \/ b_flags b = 6;
  rq_dev : b_dev b = 1;
  rq_block : 0 <= b_blockno b < FSSIZE;
  rq_locked : sl_locked (b_lock b) = true;
  rq_lk : sl_lk (b_lock b) = false;
  rq_data : length (b_data b) = 512%nat }.

Definition dirty (b : buf) : bool := has (b_flags b) B_DIRTY.

(** What the registers say of the request *)
Definition selected (d : D) (b : buf) : Prop :=
  regs d 0x1f2 = 1 /\ reg_lba (regs d) = b_blockno b /\ reg_drive (regs d) = true.

(** The sectors [f] with [x] in the place of a block that is written *)
Definition given (b : buf) (x : list Z) (f : Z -> list Z) (n : Z) : list Z :=
  if dirty b && (n =? b_blockno b) then x else f n.

(** The drive has the request, on top of the sectors [f] and after [e] errors: a read is under way, or the
    data of a write has been given to it; or the drive has failed the request. *)
Inductive active (e : nat) (d : D) (b : buf) (f : Z -> list Z) : Prop :=
| active_good : selected d b -> command d = (if dirty b then None else Some IDE_CMD_READ) -> errors d = e ->
    (dirty b = false -> failed d = false) ->
    (forall n, 0 <= n < FSSIZE -> sectors d true n = given b (b_data b) f n) -> active e d b f
| active_bad x : command d = None -> errors d = S e -> (dirty b = false -> failed d = true) ->
    (forall n, 0 <= n < FSSIZE -> sectors d true n = given b x f n) -> active e d b f.

Lemma selected_works d d' b : works d d' -> selected d b -> selected d' b.
Proof. intros [Hr _ _] (H1 & H2 & H3). unfold selected, reg_lba, reg_drive in *. by rewrite !Hr. Qed.

Lemma active_works e d d' b f : works d d' -> active e d b f -> active e d' b f.
Proof.
  intros Hw Ha. pose proof Hw as [_ Hs Hend]. destruct Ha as [Hsel Hc He Hf Hn|x Hc He Hf Hn].
  - destruct Hend as [(E1 & E2 & E3)|(E0 & E1 & E2 & E3)].
    + apply active_good; [by eapply selected_works|congruence|congruence|by rewrite E2|].
      intros n Hin. by rewrite Hs, Hn.
    + apply (active_bad _ _ _ _ (b_data b)); [done|congruence|done|]. intros n Hin. by rewrite Hs, Hn.
  - destruct Hend as [(E1 & E2 & E3)|(E0 & _)]; [|congruence].
    apply (active_bad _ _ _ _ x); [congruence..|by rewrite E2|]. intros n Hin. by rewrite Hs, Hn.
Qed.

(** The registers after the address of the block has been written to them *)
Definition addressed (d0 d : D) (n : Z) : Prop :=
  command d = None /\ (forall w m, sectors d w m = sectors d0 w m) /\ errors d = errors d0 /\ regs d 0x1f2 = 1 /\
  reg_lba (regs d) = n /\ reg_drive (regs d) = true.

Lemma split_lba n : 0 <= n < FSSIZE ->
  Z.land n 0xff + Z.land (Z.shiftr n 8) 0xff * 2 ^ 8 + Z.land (Z.shiftr n 16) 0xff * 2 ^ 16 = n /\
  Z.shiftr n 24 = 0.
Proof.
  intros Hn. unfold FSSIZE in Hn. change 0xff with (Z.ones 8). rewrite !Z.land_ones, !Z.shiftr_div_pow2 by lia.
  rewrite (Z.div_small n (2 ^ 16)), (Z.div_small n (2 ^ 24)) by lia. split; [|done].
  rewrite (Z.mod_small (n / 2 ^ 8)), Z.mod_0_l by (first [lia | split; [apply Z.div_pos; lia|apply Z.div_lt_upper_bound; lia]]).
  pose proof (Z.div_mod n (2 ^ 8) ltac:(lia)). lia.
Qed.

Lemma land_byte x : 0 <= Z.land x 0xff < 256.
Proof. change 0xff with (Z.ones 8). rewrite Z.land_ones by lia. apply Z.mod_pos_bound. lia. Qed.

Lemma wp_outb p v Q (s : ide) : 0 <= v < 256 -> Q tt (set_id_dev (dev_outb p v (id_dev s)) s) ->
  wp (outb p v) Q s.
Proof. intros Hv HQ. apply wp_modify. by rewrite Z.mod_small. Qed.

Lemma wp_address n (k : M ide unit) Q (s : ide) d0 : command (id_dev s) = None -> 0 <= n < FSSIZE ->
  (forall w m, sectors (id_dev s) w m = sectors d0 w m) -> errors (id_dev s) = errors d0 ->
  (forall d, addressed d0 d n -> wp k Q (set_id_dev d s)) ->
  wp (outb 0x1f2 1 ;;;
      outb 0x1f3 (Z.land n 0xff) ;;;
      outb 0x1f4 (Z.land (Z.shiftr n 8) 0xff) ;;;
      outb 0x1f5 (Z.land (Z.shiftr n 16) 0xff) ;;;
      outb 0x1f6 (Z.lor (Z.lor 0xe0 (Z.shiftl (Z.land 1 1) 4)) (Z.land (Z.shiftr n 24) 0x0f)) ;;; k) Q s.
Proof.
  intros Hc Hn Hd0 He0 HQ. destruct (split_lba n Hn) as [Hlba H24]. rewrite H24.
  change (Z.lor (Z.lor 0xe0 (Z.shiftl (Z.land 1 1) 4)) (Z.land 0 0x0f)) with 0xf0.
  do 5 (wp_step; apply wp_outb; [try lia; apply land_byte|]; cbn [id_dev set_id_dev]).
  pose proof (outb_reg (id_dev s) 0x1f2 1 ltac:(lia) ltac:(lia) Hc) as (R1 & S1 & C1 & E1).
  pose proof (outb_reg _ 0x1f3 _ ltac:(lia) (land_byte n) C1) as (R2 & S2 & C2 & E2).
  pose proof (outb_reg _ 0x1f4 _ ltac:(lia) (land_byte (Z.shiftr n 8)) C2) as (R3 & S3 & C3 & E3).
  pose proof (outb_reg _ 0x1f5 _ ltac:(lia) (land_byte (Z.shiftr n 16)) C3) as (R4 & S4 & C4 & E4).
  pose proof (outb_reg _ 0x1f6 0xf0 ltac:(lia) ltac:(lia) C4) as (R5 & S5 & C5 & E5).
  apply HQ. split; [exact C5|]. split; [|split; [by rewrite E5, E4, E3, E2, E1, He0|split]].
  - intros w m. by rewrite S5, S4, S3, S2, S1, Hd0.
  - by rewrite R5, R4, R3, R2, R1.
  - unfold reg_lba, reg_drive. rewrite !R5, !R4, !R3, !R2, !R1. simpl Z.eqb. cbv iota.
    split; [|done]. change (Z.land 0xf0 15) with 0. lia.
Qed.

Lemma wp_getb i b Q (s : ide (D := D)) : id_bufs s !! i = Some b -> Q b s -> wp (id_getb (D := D) i) Q s.
Proof. unfold wp, id_getb. by intros ->. Qed.

Lemma wp_updb i b f Q (s : ide (D := D)) : id_bufs s !! i = Some b ->
  Q tt (set_id_bufs (<[i := f b]> (id_bufs s)) s) -> wp (id_updb i f) Q s.
Proof. unfold wp, id_updb. by intros ->. Qed.

Lemma idestart_spec i b f (s : ide) : id_bufs s !! i = Some b -> request b -> command (id_dev s) = None ->
  (forall n, 0 <= n < FSSIZE -> sectors (id_dev s) true n = f n) ->
  wp (idestart fuel (Some i)) (fun _ s' => exists d', s' = set_id_dev d' s /\ active (errors (id_dev s)) d' b f) s.
Proof.
  intros Hb Hq Hc Hf0. destruct Hq as [Hf Hd Hn Hk Hl Hdata]. unfold idestart.
  wp_step. eapply wp_getb; [exact Hb|]. rewrite (proj2 (Z.leb_gt _ _)) by lia.
  change (BSIZE / SECTOR_SIZE) with 1. cbv zeta. rewrite Z.mul_1_r, i32_small by (unfold FSSIZE in *; lia).
  change (7 <? 1) with false. change (1 =? 1) with true. cbv iota. rewrite Hd.
  wp_step. eapply wp_mono; [apply idewait_spec|]. intros r s1 (d1 & Hd1 & -> & _).
  wp_step. apply wp_outb; [lia|]. cbn [id_dev set_id_dev].
  assert (works (id_dev s) (dev_outb 0x3f6 0 d1)) as Hd3 by (eapply works_trans; [done|apply outb_ctl]).
  destruct (works_idle _ _ Hd3 Hc) as [Hc3 He3].
  eapply wp_address with (d0 := id_dev s); [done|done|apply Hd3|done|].
  intros d (Hcd & Hsd & Hed & Hcnt & Hlba & Hdrv). fold (dirty b). destruct (dirty b) eqn:Ed.
  - wp_step. apply wp_outb; [by unfold IDE_CMD_WRITE; lia|]. apply wp_modify. cbn [id_dev set_id_dev].
    pose proof (outb_cmd d IDE_CMD_WRITE Hcd ltac:(by right)) as (R1 & S1 & C1 & _ & E1).
    pose proof (outsl_write _ (b_data b) C1 ltac:(by rewrite R1) Hdata) as (R2 & C2 & x & Hx & S2).
    assert (reg_drive (regs (dev_outb 0x1f7 IDE_CMD_WRITE d)) = true) as Er by (rewrite <- Hdrv; unfold reg_drive; by rewrite R1).
    assert (reg_lba (regs (dev_outb 0x1f7 IDE_CMD_WRITE d)) = b_blockno b) as Eb by (rewrite <- Hlba; unfold reg_lba; by rewrite !R1).
    rewrite Er, Eb in S2.
    eexists. split; [reflexivity|]. destruct Hx as [[-> Hx]|Hx].
    + apply active_good; [|by rewrite C2, Ed|congruence|congruence|].
      * split; [by rewrite R2, R1|]. unfold reg_lba, reg_drive in *. by rewrite !R2.
      * intros n Hin. rewrite S2, S1, Hsd, Hf0 by done. unfold given. by rewrite Ed.
    + apply (active_bad _ _ _ _ x); [done|congruence|congruence|].
      intros n Hin. rewrite S2, S1, Hsd, Hf0 by done. unfold given. by rewrite Ed.
  - apply wp_outb; [by unfold IDE_CMD_READ; lia|]. cbn [id_dev set_id_dev].
    pose proof (outb_cmd d IDE_CMD_READ Hcd ltac:(by left)) as (R1 & S1 & C1 & F1 & E1).
    eexists. split; [reflexivity|]. apply active_good; [|by rewrite C1, Ed|congruence|done|].
    + unfold selected, reg_lba, reg_drive in *. by rewrite !R1.
    + intros n Hin. rewrite S1, Hsd, Hf0 by done. unfold given. by rewrite Ed.
Qed.

(** ** The queue and the disk *)

(** The list [Q] of the buffers from [q] on through [nx] *)
Fixpoint qlink (nx : list (option nat)) (q : option nat) (Q : list nat) : Prop :=
  match Q with
  | [] => q = None
  | i :: Q' => q = Some i /\ exists q', nx !! i = Some q' /\ qlink nx q' Q'
  end.

(** The driver in state [s], with the requests [Q] not completed, stands for the disk in memory [t] after
    [e] failed requests: the drive has what the disk in memory has, and in addition the data of a write
    under way. *)
Record refines (s : ide (D := D)) (t : bst) (Q : list nat) (e : nat) : Prop := {
  rf_bufs : bs_bufs t = id_bufs s;
  rf_qnext : length (id_qnext s) = length (id_bufs s);
  rf_queue : qlink (id_qnext s) (idequeue s) Q;
  rf_nodup : NoDup Q;
  rf_req i : i ∈ Q -> exists b, id_bufs s !! i = Some b /\ request b;
  rf_size : Z.of_nat (length (bs_disk t)) = FSSIZE;
  rf_idle : Q = [] -> command (id_dev s) = None /\ errors (id_dev s) = e /\
    forall n, 0 <= n < FSSIZE -> sectors (id_dev s) true n = disk_at t n;
  rf_active i Q' b : Q = i :: Q' -> id_bufs s !! i = Some b -> active e (id_dev s) b (disk_at t);
  rf_lock : idelock s = false;
  rf_disk1 : havedisk1 s = true }.

Lemma qlink_insert nx q Q i v : i ∉ Q -> qlink nx q Q -> qlink (<[i:=v]> nx) q Q.
Proof.
  revert q. induction Q as [|j Q IH]; intros q Hi; [done|]. intros (-> & q' & Hq' & Hl).
  split; [done|]. exists q'. split; [|apply IH; [set_solver|done]].
  rewrite list_lookup_insert_ne; [done|set_solver].
Qed.

(** Appending: the last buffer of the list points to the new one. *)
Lemma qlink_snoc nx q Q j i : qlink nx q (Q ++ [j]) -> NoDup (Q ++ [j; i]) -> nx !! i = Some None ->
  qlink (<[j:=Some i]> nx) q (Q ++ [j; i]).
Proof.
  revert q. induction Q as [|k Q IH]; intros q Hq Hn Hi; simpl in *.
  - destruct Hq as (-> & q' & Hq' & ->). apply NoDup_cons in Hn as [Hn _].
    split; [done|]. exists (Some i). rewrite list_lookup_insert_eq by (by eapply lookup_lt_Some).
    split; [done|]. split; [done|]. exists None. rewrite list_lookup_insert_ne by set_solver. done.
  - destruct Hq as (-> & q' & Hq' & Hl). apply NoDup_cons in Hn as [Hk Hn]. split; [done|]. exists q'.
    rewrite list_lookup_insert_ne by set_solver. auto.
Qed.

Definition qwalk (s : ide (D := D)) (Q : list nat) (n : nat) (k : nat) (s' : ide (D := D)) : Prop :=
  s' = s /\ exists Q1, qlink (id_qnext s) (Some k) Q1 /\ n = length Q1 /\ last Q1 = last Q.

Lemma ide_append_spec (s : ide (D := D)) Q i : qlink (id_qnext s) (idequeue s) Q -> NoDup (Q ++ [i]) ->
  (length Q <= length (id_bufs s))%nat -> id_qnext s !! i = Some None ->
  wp (ide_append i) (fun _ s' => exists nx q, s' = set_idequeue q (set_id_qnext nx s) /\
    length nx = length (id_qnext s) /\ qlink nx q (Q ++ [i])) s.
Proof.
  intros Hl Hn Hlen Hi. unfold ide_append. wp_step. wp_step. destruct Q as [|j Q].
  - rewrite Hl. wp_step. exists (id_qnext s), (Some i). split; [by destruct s|]. split; [done|]. simpl.
    split; [done|]. by exists None.
  - pose proof Hl as (-> & _). wp_step. wp_step. wp_step.
    eapply wp_mono with (P := fun k s' => s' = s /\ last (j :: Q) = Some k).
    + apply (wp_loop (qwalk s (j :: Q))) with (n := length (j :: Q)); [|lia|].
      2:{ split; [done|]. exists (j :: Q). split; [|done]. pose proof Hl as (E & ?). by rewrite <- E. }
      intros n k s' (-> & Q1 & Hq & -> & Hlast). wp_step. unfold wp at 1, get_qnext.
      destruct Q1 as [|k' Q1]; [done|]. destruct Hq as ([= <-] & q' & -> & Hq).
      destruct Q1 as [|k2 Q1].
      * rewrite Hq. wp_step. done.
      * pose proof Hq as (-> & _). wp_step. exists (length (k2 :: Q1)). split; [simpl; lia|].
        split; [done|]. by exists (k2 :: Q1).
    + intros k s' (-> & Hk). apply last_Some in Hk as [Q1 EQ].
      rewrite EQ in *. rewrite <- app_assoc in Hn. unfold wp, set_qnext.
      assert (exists q', id_qnext s !! k = Some q') as [q' Hq'].
      { clear -Hl. revert Hl. generalize (idequeue s). induction Q1 as [|a Q1 IH]; simpl.
        - intros q (_ & q' & ? & _). eauto.
        - intros q (_ & q' & _ & ?). eauto. }
      rewrite Hq'. exists (<[k:=Some i]> (id_qnext s)), (idequeue s). split; [by destruct s|].
      split; [apply length_insert|]. rewrite <- app_assoc. by apply qlink_snoc.
Qed.

(** ** The interrupt *)

(** The buffer, and the disk in memory, after iderw *)
Definition finished (b : buf) (t : bst) : buf :=
  set_b_flags 2 (if dirty b then b else set_b_data (disk_at t (b_blockno b)) b).
Definition completed (i : nat) (b : buf) (t : bst) : bst :=
  setb i (finished b t) (if dirty b then disk_write (b_blockno b) (b_data b) t else t).

Lemma memory_iderw i b t : bat t i b -> request b -> Z.of_nat (length (bs_disk t)) = FSSIZE ->
  Bio.iderw i t = Ret tt (completed i b t).
Proof.
  intros Hb [Hf Hd Hn Hk Hl _] Hs. unfold completed, finished, dirty. destruct Hf as [Hf|Hf]; rewrite Hf.
  - change (has 0 B_DIRTY) with false. apply iderw_read; [done..|by rewrite Hs].
  - change (has 6 B_DIRTY) with true. apply iderw_write; [done..|by rewrite Hs].
Qed.

(** A request that the drive fails: the buffer is marked as the code marks it, a read brings nothing, and
    after a write the block holds [x]. *)
Definition lost (i : nat) (b : buf) (x : list Z) (t : bst) : bst :=
  setb i (set_b_flags 2 b) (if dirty b then disk_write (b_blockno b) x t else t).

Lemma written_disk i b b' x t n : request b -> Z.of_nat (length (bs_disk t)) = FSSIZE -> 0 <= n < FSSIZE ->
  disk_at (setb i b' (if dirty b then disk_write (b_blockno b) x t else t)) n = given b x (disk_at t) n.
Proof.
  intros [_ _ Hb _ _ _] Hs Hn. unfold given, disk_at. destruct (dirty b); cbn; [|done].
  destruct (Z.eqb_spec n (b_blockno b)) as [->|Hne].
  - rewrite !nth_lookup, list_lookup_insert_eq by lia. done.
  - rewrite !nth_lookup, list_lookup_insert_ne by lia. done.
Qed.

(** How a request ends *)
Inductive ended (e : nat) (i : nat) (b : buf) (t : bst) : bst -> nat -> Prop :=
| ended_served : ended e i b t (completed i b t) e
| ended_lost x : ended e i b t (lost i b x t) (S e).

Lemma ended_bufs e i b t t' e' : ended e i b t t' e' -> exists b', b_flags b' = 2 /\ bs_bufs t' = <[i := b']> (bs_bufs t).
Proof.
  destruct 1; [exists (finished b t)|exists (set_b_flags 2 b)]; (split; [done|]);
    [unfold completed|unfold lost]; by destruct (dirty b).
Qed.

Lemma ended_size e i b t t' e' : ended e i b t t' e' -> length (bs_disk t') = length (bs_disk t).
Proof. destruct 1; [unfold completed|unfold lost]; destruct (dirty b); cbn; by rewrite ?length_insert. Qed.

(** The flags that ideintr sets, one after the other *)
Lemma ended_flags b x : request b -> b_flags x = b_flags b ->
  let y := set_b_flags (Z.lor (b_flags x) B_VALID) x in
  set_b_flags (Z.land (b_flags y) (Z.lnot B_DIRTY)) y = set_b_flags 2 x.
Proof. intros [Hf _ _ _ _ _] Hx. cbn. rewrite Hx. by destruct Hf as [-> | ->]. Qed.

(** The data of a read is moved to its buffer, unless it has failed; afterwards the drive takes a command. *)
Lemma intr_transfer e i b t (s : ide (D := D)) : id_bufs s !! i = Some b -> bs_bufs t = id_bufs s -> request b ->
  Z.of_nat (length (bs_disk t)) = FSSIZE -> active e (id_dev s) b (disk_at t) ->
  wp (if has (b_flags b) B_DIRTY then skip
      else
        let! r := idewait fuel true in
        when (0 <=? r)
          (let! l := insl 0x1f0 (Z.to_nat (BSIZE / 4)) in
           id_updb i (set_b_data l)))
    (fun _ s' => exists d' b1 t' e', ended e i b t t' e' /\ command d' = None /\ errors d' = e' /\
       (forall n, 0 <= n < FSSIZE -> sectors d' true n = disk_at t' n) /\
       b_flags b1 = b_flags b /\ bs_bufs t' = <[i := set_b_flags 2 b1]> (id_bufs s) /\
       s' = set_id_bufs (<[i := b1]> (id_bufs s)) (set_id_dev d' s)) s.
Proof.
  intros Hb Et Hq Hsize Ha. fold (dirty b). destruct (dirty b) eqn:Ed.
  - wp_step. exists (id_dev s), b.
    assert (s = set_id_bufs (<[i:=b]> (id_bufs s)) (set_id_dev (id_dev s) s)) as Es
      by (rewrite list_insert_id by done; by destruct s).
    destruct Ha as [_ Hc He _ Hn|x Hc He _ Hn].
    + exists (completed i b t), e. rewrite Ed in Hc. split; [constructor|]. do 2 (split; [done|]).
      split; [intros n Hin; rewrite Hn by done; symmetry; by apply written_disk|]. split; [done|]. split; [|done].
      unfold completed, finished. rewrite Ed. simpl. by rewrite Et.
    + exists (lost i b x t), (S e). split; [constructor|]. do 2 (split; [done|]).
      split; [intros n Hin; rewrite Hn by done; symmetry; by apply written_disk|]. split; [done|]. split; [|done].
      unfold lost. rewrite Ed. simpl. by rewrite Et.
  - wp_step. eapply wp_mono; [apply idewait_spec|]. intros r s1 (d1 & Hd1 & -> & ->). apply (active_works _ _ _ _ _ Hd1) in Ha.
    simpl andb. destruct Ha as [(Hcnt & Hlba & Hdrv) Hc He Hf Hn|x Hc He Hf Hn]; rewrite Hf by done.
    + change (0 <=? 0) with true. unfold when. wp_step. unfold wp at 1, insl. cbn [id_dev set_id_dev].
      change (Z.to_nat (BSIZE / 4)) with 128%nat. destruct (dev_insl 0x1f0 128 d1) as [l d2] eqn:E. rewrite Ed in Hc.
      apply insl_read in E as (-> & Hs2 & Hc2 & He2); [|done..].
      eapply wp_updb; [exact Hb|]. exists d2, (set_b_data (disk_at t (b_blockno b)) b), (completed i b t), e.
      split; [constructor|]. split; [done|]. split; [congruence|].
      split; [intros n Hin; rewrite Hs2, Hn by done; symmetry; by apply written_disk|]. split; [done|].
      split; [unfold completed, finished; rewrite Ed; simpl; by rewrite Et|].
      rewrite Hdrv, Hlba, Hn by apply Hq. unfold given. by rewrite Ed.
    + change (0 <=? -1) with false. unfold when. wp_step. exists d1, b, (lost i b x t), (S e).
      split; [constructor|]. do 2 (split; [done|]).
      split; [intros n Hin; rewrite Hn by done; symmetry; by apply written_disk|]. split; [done|].
      split; [unfold lost; rewrite Ed; simpl; by rewrite Et|]. rewrite list_insert_id by done. by destruct s.
Qed.

Lemma wp_ide_acquire Q (s : ide (D := D)) : idelock s = false -> Q tt (set_idelock true s) -> wp ide_acquire Q s.
Proof. intros Hl HQ. apply wp_lift. by rewrite Hl. Qed.

Lemma wp_ide_release Q (s : ide (D := D)) : idelock s = true -> Q tt (set_idelock false s) -> wp ide_release Q s.
Proof. intros Hl HQ. apply wp_lift. by rewrite Hl. Qed.

(** The first request is completed: what is left to show is about the drive. *)
Lemma refines_next s t i Q b q d W e t' e' b' : refines s t (i :: Q) e -> id_bufs s !! i = Some b -> ended e i b t t' e' ->
  bs_bufs t' = <[i := b']> (id_bufs s) -> qlink (id_qnext s) q Q ->
  (Q = [] -> command d = None /\ errors d = e' /\ forall n, 0 <= n < FSSIZE -> sectors d true n = disk_at t' n) ->
  (forall j Q' c, Q = j :: Q' -> id_bufs s !! j = Some c -> active e' d c (disk_at t')) ->
  refines (mkIde d (<[i := b']> (id_bufs s)) (id_qnext s) q false (havedisk1 s) W) t' Q e'.
Proof.
  intros [H1 H2 H3 H4 H5 H6 H7 H8 H9 H10] Hb He Et Hq Hidle Hact. apply NoDup_cons in H4 as [Hi H4].
  split; cbn [id_dev id_bufs id_qnext idequeue idelock havedisk1]; try done.
  - by rewrite length_insert.
  - intros j Hj. rewrite list_lookup_insert_ne by set_solver. apply H5. set_solver.
  - by rewrite (ended_size _ _ _ _ _ _ He).
  - intros j Q' c -> Hc. rewrite list_lookup_insert_ne in Hc by set_solver. by eapply Hact.
Qed.

Lemma ideintr_spec s t i Q b e : refines s t (i :: Q) e -> id_bufs s !! i = Some b ->
  wp (ideintr fuel) (fun _ s' => exists t' e', ended e i b t t' e' /\ refines s' t' Q e' /\ id_woken s' = id_woken s ++ [i]) s.
Proof.
  intros Hr Hb. pose proof (rf_queue _ _ _ _ Hr) as (Eq & q & Hnx & Hq).
  destruct (rf_req _ _ _ _ Hr i ltac:(set_solver)) as (b' & Hb' & Hreq). rewrite Hb in Hb'. injection Hb' as <-.
  pose proof (rf_active _ _ _ _ Hr i Q b eq_refl Hb) as Ha.
  pose proof (rf_size _ _ _ _ Hr) as Hsize. pose proof (rf_nodup _ _ _ _ Hr) as [Hi _]%NoDup_cons.
  unfold ideintr. wp_step. apply wp_ide_acquire; [apply Hr|]. do 2 wp_step. cbn [idequeue set_idelock]. rewrite Eq.
  wp_step. unfold wp at 1, get_qnext. cbn [id_qnext set_idelock]. rewrite Hnx. do 3 wp_step.
  eapply wp_getb; [exact Hb|]. wp_step. eapply wp_mono; [apply (intr_transfer e i b t); [done|apply Hr|done..]|].
  intros _ s1 (d1 & b1 & t' & e' & Hend & Hc1 & He1 & Hs1 & Hf1 & Et' & ->). cbn [id_dev id_bufs set_idelock set_idequeue] in *.
  wp_step. eapply wp_updb; [cbn [id_bufs set_id_bufs]; apply list_lookup_insert_eq; by eapply lookup_lt_Some|].
  wp_step. eapply wp_updb; [cbn [id_bufs set_id_bufs]; apply list_lookup_insert_eq; rewrite length_insert; by eapply lookup_lt_Some|].
  wp_step. apply wp_modify. do 2 wp_step.
  match goal with |- wp _ _ ?x => replace x with
    (mkIde d1 (<[i := set_b_flags 2 b1]> (id_bufs s)) (id_qnext s) q true (havedisk1 s) (id_woken s ++ [i])) end.
  2:{ unfold set_id_woken, set_id_bufs, set_id_dev, set_idequeue, set_idelock. cbn. f_equal.
      rewrite !list_insert_insert_eq. f_equal. symmetry. by apply (ended_flags b). }
  cbn [idequeue set_id_woken set_id_bufs set_id_dev set_idequeue]. wp_step. destruct Q as [|j Q].
  - rewrite Hq. wp_step. apply wp_ide_release; [done|]. exists t', e'. split; [done|]. split; [|done].
    by apply (refines_next s t i [] b None d1 _ e).
  - pose proof Hq as (-> & _).
    destruct (rf_req _ _ _ _ Hr j ltac:(set_solver)) as (c & Hc & Hcreq).
    assert (j <> i) as Hji by set_solver.
    eapply wp_mono; [apply (idestart_spec j c (disk_at t'))|]; cbn [id_bufs id_dev]; [by rewrite list_lookup_insert_ne|done..|].
    intros _ s2 (d2 & -> & Ha2). apply wp_ide_release; [done|]. exists t', e'. split; [done|]. split; [|done].
    apply (refines_next s t i (j :: Q) b (Some j) d2 _ e); [done..|]. cbn [id_dev] in Ha2. rewrite He1 in Ha2.
    intros j' Q' c' [= <- <-] Hc'. rewrite Hc in Hc'. by injection Hc' as <-.
Qed.

(** ** A process asks for a buffer *)

Lemma queue_short (Q : list nat) n : NoDup Q -> (forall i, i ∈ Q -> (i < n)%nat) -> (length Q <= n)%nat.
Proof.
  intros Hn Hlt. rewrite <- (length_seq n 0). apply submseteq_length, NoDup_submseteq; [done|].
  intros i Hi. apply elem_of_seq. specialize (Hlt i Hi). lia.
Qed.

Lemma wp_holding i b Q (s : ide (D := D)) : id_bufs s !! i = Some b -> sl_lk (b_lock b) = false ->
  sl_locked (b_lock b) = true -> Q true s -> wp (id_on_lock i holdingsleep) Q s.
Proof.
  intros Hb Hl Hk HQ. unfold wp, id_on_lock. rewrite Hb. unfold lift. rewrite Hb. cbn [fmap option_fmap option_map default].
  destruct (b_lock b) as [k lk nm pid wk] eqn:El. cbn in Hl, Hk. subst. cbn.
  rewrite (alter_insert _ _ _ _ Hb), list_insert_id by (rewrite Hb; f_equal; destruct b; cbn in *; by subst).
  by destruct s.
Qed.

(** The request is in the queue and, if it is the first, at the drive. *)
Lemma refines_append s t Q i b nx q d e : refines s t Q e -> i ∉ Q -> id_bufs s !! i = Some b -> request b ->
  length nx = length (id_bufs s) -> qlink nx q (Q ++ [i]) ->
  match Q with
  | [] => active e d b (disk_at t)
  | _ => d = id_dev s
  end ->
  refines (mkIde d (id_bufs s) nx q false (havedisk1 s) (id_woken s)) t (Q ++ [i]) e.
Proof.
  intros [H1 H2 H3 H4 H5 H6 H7 H8 H9 H10] Hi Hb Hreq Hlen Hq Hd.
  split; cbn [id_dev id_bufs id_qnext idequeue idelock havedisk1]; try done.
  - apply NoDup_app. split; [done|]. split; [set_solver|apply NoDup_singleton].
  - intros j [Hj|Hj]%elem_of_app; [by apply H5|]. apply list_elem_of_singleton in Hj as ->. eauto.
  - by destruct Q.
  - intros j Q' c E Hc. destruct Q as [|k Q].
    + injection E as <- <-. rewrite Hb in Hc. injection Hc as <-. done.
    + injection E as <- <-. subst d. by eapply H8.
Qed.

Lemma iderw_enter_spec s t Q i b e : refines s t Q e -> i ∉ Q -> id_bufs s !! i = Some b -> request b ->
  wp (iderw_enter fuel i) (fun r s' => r = false /\ refines s' t (Q ++ [i]) e /\ id_woken s' = id_woken s) s.
Proof.
  intros Hr Hi Hb Hreq. unfold iderw_enter. pose proof Hreq as [Hf Hd Hn Hk Hl Hdata].
  wp_step. eapply wp_holding; [done..|]. wp_step. eapply wp_getb; [exact Hb|]. cbn [negb].
  assert ((Z.land (b_flags b) (Z.lor B_VALID B_DIRTY) =? B_VALID) = false) as Hneed
    by (destruct Hf as [-> | ->]; done).
  rewrite Hneed. do 2 wp_step. rewrite (rf_disk1 _ _ _ _ Hr). cbn [negb]. rewrite andb_false_r.
  wp_step. apply wp_ide_acquire; [apply Hr|]. wp_step. unfold wp at 1, set_qnext. cbn [id_qnext set_idelock].
  assert (i < length (id_qnext s))%nat as Hlt by (rewrite (rf_qnext _ _ _ _ Hr); by eapply lookup_lt_Some).
  destruct (lookup_lt_is_Some_2 _ _ Hlt) as [q0 Hq0]. rewrite Hq0. wp_step.
  eapply wp_mono; [apply (ide_append_spec _ Q i)|]; cbn [id_qnext idequeue id_bufs set_id_qnext set_idelock].
  { apply qlink_insert; [done|apply Hr]. }
  { apply NoDup_app. split; [apply Hr|]. split; [set_solver|apply NoDup_singleton]. }
  { apply queue_short; [apply Hr|]. intros j (c & Hc & _)%(rf_req _ _ _ _ Hr). by eapply lookup_lt_Some. }
  { by apply list_lookup_insert_eq. }
  intros _ s1 (nx & q & -> & Hlen & Hq). rewrite length_insert in Hlen. rewrite (rf_qnext _ _ _ _ Hr) in Hlen.
  do 3 wp_step. cbn [idequeue set_idequeue].
  set (s1 := set_idequeue q (set_id_qnext nx (set_idelock true s))).
  replace (set_idequeue q _) with s1 by done.
  eapply wp_mono with (P := fun _ s' => exists d, s' = set_id_dev d s1 /\
    match Q with
    | [] => active e d b (disk_at t)
    | _ => d = id_dev s
    end).
  - destruct Q as [|j Q].
    + destruct Hq as (-> & _). rewrite bool_decide_true by done.
      destruct (rf_idle _ _ _ _ Hr eq_refl) as (Hc & He & Hsec).
      eapply wp_mono; [by apply (idestart_spec i b (disk_at t))|]. intros _ s2 (d & -> & Ha). exists d.
      cbn in Ha. rewrite He in Ha. done.
    + destruct Hq as (-> & _). rewrite bool_decide_false by (intros [= ->]; set_solver).
      apply wp_skip. exists (id_dev s). split; [by destruct s|done].
  - intros _ s2 (d & -> & Hd2). unfold rw_test. wp_step. eapply wp_getb; [exact Hb|]. rewrite Hneed. cbn [negb].
    wp_step. apply wp_ide_release; [done|]. wp_step. split; [done|]. split; [|done].
    by apply (refines_append s t Q i b nx q d e).
Qed.

(** A process that is woken up returns when its request has been completed, and sleeps again
    otherwise. *)
Lemma iderw_resume_spec s t Q i b e : refines s t Q e -> id_bufs s !! i = Some b ->
  (i ∈ Q \/ b_flags b = 2) ->
  wp (iderw_resume i) (fun r s' => s' = s /\ r = bool_decide (i ∉ Q)) s.
Proof.
  intros Hr Hb Hi. unfold iderw_resume, rw_test. wp_step. apply wp_ide_acquire; [apply Hr|].
  assert (set_idelock false (set_idelock true s) = s) as Es
    by (pose proof (rf_lock _ _ _ _ Hr); destruct s; cbn in *; by subst).
  wp_step. eapply wp_getb; [exact Hb|]. destruct (decide (i ∈ Q)) as [HQ|HQ].
  - destruct (rf_req _ _ _ _ Hr i HQ) as (b' & Hb' & [Hf _ _ _ _ _]). rewrite Hb in Hb'. injection Hb' as <-.
    rewrite bool_decide_false by tauto.
    assert ((Z.land (b_flags b) (Z.lor B_VALID B_DIRTY) =? B_VALID) = false) as ->
      by (destruct Hf as [-> | ->]; done).
    cbn [negb]. wp_step. apply wp_ide_release; [done|]. wp_step. done.
  - destruct Hi as [|Hf]; [done|]. rewrite Hf, bool_decide_true by done.
    change (negb (Z.land 2 (Z.lor B_VALID B_DIRTY) =? B_VALID)) with false. cbv iota.
    wp_step. apply wp_ide_release; [done|]. wp_step. done.
Qed.

(** ** Processes and interrupts in any order *)

(** [W] are the buffers whose processes are inside iderw.  Between two steps of the driver the
    drive may go on with its work. *)
Inductive istep : ide (D := D) * list nat -> ide (D := D) * list nat -> Prop :=
| step_request s W i b s' : i ∉ W -> id_bufs s !! i = Some b -> request b ->
    iderw_enter fuel i s = Ret false s' -> istep (s, W) (s', W ++ [i])
| step_interrupt s W s' : idequeue s <> None -> ideintr fuel s = Ret tt s' -> istep (s, W) (s', W)
| step_drive s W d : works (id_dev s) d -> istep (s, W) (set_id_dev d s, W)
| step_sleep s W i s' : i ∈ W -> iderw_resume i s = Ret false s' -> istep (s, W) (s', W)
| step_return s W1 W2 i s' : iderw_resume i s = Ret true s' -> istep (s, W1 ++ i :: W2) (s', W1 ++ W2).

(** The same with the disk in memory: a request waits in [Q] until iderw of memide.c is run for it,
    or the request is lost, which is counted; and then its process returns. *)
Inductive mstep : bst * list nat * list nat * nat -> bst * list nat * list nat * nat -> Prop :=
| mem_request t Q W e i b : i ∉ W -> bs_bufs t !! i = Some b -> request b -> mstep (t, Q, W, e) (t, Q ++ [i], W ++ [i], e)
| mem_serve t t' Q W e i : Bio.iderw i t = Ret tt t' -> mstep (t, i :: Q, W, e) (t', Q, W, e)
| mem_lose t Q W e i b x : bs_bufs t !! i = Some b -> mstep (t, i :: Q, W, e) (lost i b x t, Q, W, S e)
| mem_return t Q W1 W2 e i : i ∉ Q -> mstep (t, Q, W1 ++ i :: W2, e) (t, Q, W1 ++ W2, e).

(** The relation between the two: the processes that wait are those of the queue and those whose
    request has been completed. *)
Record simulates (s : ide (D := D)) (W : list nat) (t : bst) (Q : list nat) (e : nat) : Prop := {
  sm_refines : refines s t Q e;
  sm_nodup : NoDup W;
  sm_queue i : i ∈ Q -> i ∈ W;
  sm_waiting i : i ∈ W -> exists b, id_bufs s !! i = Some b /\ (i ∈ Q \/ b_flags b = 2) }.

Lemma refines_drive s t Q d e : refines s t Q e -> works (id_dev s) d -> refines (set_id_dev d s) t Q e.
Proof.
  intros [H1 H2 H3 H4 H5 H6 H7 H8 H9 H10] Hd. split; try done; cbn [id_dev id_bufs set_id_dev].
  - intros EQ. destruct (H7 EQ) as (Hc & He & Hs). destruct (works_idle _ _ Hd Hc) as [Hc' He'].
    split; [done|]. split; [congruence|]. intros n Hn. by rewrite (wo_sectors _ _ Hd), Hs.
  - intros i Q' b EQ Hb. by eapply active_works, H8.
Qed.

(** The drive has reported every request that was lost. *)
Lemma refines_errors s t Q e : refines s t Q e -> (e <= errors (id_dev s))%nat.
Proof.
  intros Hr. destruct Q as [|i Q]; [by destruct (rf_idle _ _ _ _ Hr eq_refl) as (_ & -> & _)|].
  destruct (rf_req _ _ _ _ Hr i ltac:(set_solver)) as (b & Hb & _).
  destruct (rf_active _ _ _ _ Hr i Q b eq_refl Hb); lia.
Qed.

Lemma wp_run {S A} (m : M S A) Q s a s' : wp m Q s -> m s = Ret a s' -> Q a s'.
Proof. unfold wp. intros H E. by rewrite E in H. Qed.

Lemma enter_bufs s t Q i b r s' e : refines s t Q e -> i ∉ Q -> id_bufs s !! i = Some b -> request b ->
  iderw_enter fuel i s = Ret r s' -> refines s' t (Q ++ [i]) e /\ id_bufs s' = id_bufs s.
Proof.
  intros Hr Hi Hb Hq Hrun. pose proof (wp_run _ _ _ _ _ (iderw_enter_spec _ _ _ _ _ _ Hr Hi Hb Hq) Hrun) as (_ & Hr' & _).
  split; [done|]. by rewrite <- (rf_bufs _ _ _ _ Hr'), <- (rf_bufs _ _ _ _ Hr).
Qed.

Lemma istep_simulated s W t Q e s' W' : simulates s W t Q e -> istep (s, W) (s', W') ->
  exists t' Q' e', rtc mstep (t, Q, W, e) (t', Q', W', e') /\ simulates s' W' t' Q' e'.
Proof.
  intros [Hr Hn Hq Hw] Hs. inversion Hs as
    [? ? i b ? HiW Hb Hreq Hrun|? ? ? Hne Hrun|? ? d Hd|? ? i ? HiW Hrun|? W1 W2 i ? Hrun]; subst.
  - destruct (enter_bufs s t Q i b _ _ e Hr ltac:(auto) Hb Hreq Hrun) as [Hr' Eb].
    exists t, (Q ++ [i]), e. split.
    { apply rtc_once. econstructor; [done| |done]. by rewrite (rf_bufs _ _ _ _ Hr). }
    split; [done| | |].
    + apply NoDup_app. split; [done|]. split; [set_solver|apply NoDup_singleton].
    + set_solver.
    + intros j [Hj|Hj]%elem_of_app; rewrite Eb.
      * destruct (Hw j Hj) as (c & ? & [?|?]); exists c; (split; [done|]); [left; set_solver|by right].
      * apply list_elem_of_singleton in Hj as ->. exists b. split; [done|]. left. set_solver.
  - destruct Q as [|i Q]; [by destruct Hne; apply (rf_queue _ _ _ _ Hr)|].
    destruct (rf_req _ _ _ _ Hr i ltac:(set_solver)) as (b & Hb & Hreq).
    destruct (wp_run _ _ _ _ _ (ideintr_spec _ _ _ _ _ _ Hr Hb) Hrun) as (t' & e' & Hend & Hr' & _).
    exists t', Q, e'. split.
    { apply rtc_once. destruct Hend; [|constructor; by rewrite (rf_bufs _ _ _ _ Hr)].
      constructor. apply memory_iderw; [|done|apply Hr]. unfold bat. by rewrite (rf_bufs _ _ _ _ Hr). }
    pose proof (rf_nodup _ _ _ _ Hr) as [Hi _]%NoDup_cons.
    destruct (ended_bufs _ _ _ _ _ _ Hend) as (b' & Hf' & Eb). rewrite (rf_bufs _ _ _ _ Hr'), (rf_bufs _ _ _ _ Hr) in Eb.
    split; [done|done|set_solver|]. intros j Hj. rewrite Eb. destruct (decide (j = i)) as [->|Hji].
    + exists b'. rewrite list_lookup_insert_eq by (by eapply lookup_lt_Some). split; [done|by right].
    + rewrite list_lookup_insert_ne by done. destruct (Hw j Hj) as (c & ? & [?|?]); exists c; (split; [done|]);
        [left; set_solver|by right].
  - exists t, Q, e. split; [done|]. split; [by apply refines_drive|done..].
  - exists t, Q, e. split; [done|]. destruct (Hw i HiW) as (b & Hb & Hi).
    destruct (wp_run _ _ _ _ _ (iderw_resume_spec _ _ _ _ _ _ Hr Hb Hi) Hrun) as [-> _]. by split.
  - destruct (Hw i ltac:(set_solver)) as (b & Hb & Hi).
    destruct (wp_run _ _ _ _ _ (iderw_resume_spec _ _ _ _ _ _ Hr Hb Hi) Hrun) as [-> Hret].
    symmetry in Hret. apply bool_decide_eq_true in Hret. exists t, Q, e. split; [by apply rtc_once; constructor|].
    rewrite <- Permutation_middle in Hn. apply NoDup_cons in Hn as [HiW Hn]. split; [done|done| |].
    + intros j Hj. apply Hq in Hj as Hj'. assert (j <> i) by (intros ->; done). set_solver.
    + intros j Hj. apply Hw. set_solver.
Qed.

(** C9: the driver refines iderw on the disk in memory.  The drive is any that behaves as an ATA drive:
    registers, commands, data port, and a status that becomes ready within [fuel] readings; its commands
    may end with an error.  However the processes that call iderw, the interrupts and the work of the drive,
    and the wake-ups follow each other, what they do is what the disk in memory does when its iderw runs for
    one request after the other, in the order in which they came, except that a request may be lost (no
    data read, or unknown data written, and the buffer marked as if served); the lost requests are at
    most the errors of the drive.  A process returns from iderw only after its request has ended.
    Neither an interrupt nor a new request makes the driver panic. *)
Theorem ide_refines_memory_disk s W t Q e s' W' : simulates s W t Q e -> rtc istep (s, W) (s', W') ->
  exists t' Q' e', rtc mstep (t, Q, W, e) (t', Q', W', e') /\ simulates s' W' t' Q' e' /\ (e' <= errors (id_dev s'))%nat /\
    (Q' <> [] -> exists s'', ideintr fuel s' = Ret tt s'') /\
    (forall i b, i ∉ W' -> id_bufs s' !! i = Some b -> request b ->
       exists s'', iderw_enter fuel i s' = Ret false s'').
Proof.
  intros Hsim Hrun. remember (s, W) as x eqn:Ex. remember (s', W') as y eqn:Ey.
  revert s W t Q e Ex Hsim. induction Hrun as [x|x [s1 W1] y Hs _ IH]; intros s W t Q e -> Hsim.
  - injection Ey as -> ->. exists t, Q, e. split; [done|]. split; [done|]. destruct Hsim as [Hr Hn Hq Hw].
    split; [by eapply refines_errors|]. split.
    + destruct Q as [|i Q]; [done|]. intros _.
      destruct (rf_req _ _ _ _ Hr i ltac:(set_solver)) as (b & Hb & _).
      destruct (wp_elim _ _ _ (ideintr_spec _ _ _ _ _ _ Hr Hb)) as ([] & s'' & ? & _). eauto.
    + intros i b Hi Hb Hreq. assert (i ∉ Q) as HiQ by auto.
      destruct (wp_elim _ _ _ (iderw_enter_spec _ _ _ _ _ _ Hr HiQ Hb Hreq)) as (r & s'' & ? & -> & _). eauto.
  - destruct (istep_simulated _ _ _ _ _ _ _ Hsim Hs) as (t1 & Q1 & e1 & Hm & Hsim1).
    destruct (IH Ey s1 W1 t1 Q1 e1 eq_refl Hsim1) as (t' & Q' & e' & Hm' & Hrest).
    exists t', Q', e'. split; [by etransitivity|done].
Qed.

End driver.

(** ** A drive *)

(** A drive that is busy for one reading of its status after each command, and that fails to read the
    sectors [bad] *)
Record sim (bad : Z -> bool) := mkSim {
  sim_regs : Z -> Z; sim_sec : bool -> Z -> list Z; sim_cmd : option Z; sim_busy : bool; sim_failed : bool; sim_errors : nat }.
Arguments mkSim {bad} _ _ _ _ _ _.
Arguments sim_regs {bad} _ _.
Arguments sim_sec {bad} _ _ _.
Arguments sim_cmd {bad} _.
Arguments sim_busy {bad} _.
Arguments sim_failed {bad} _.
Arguments sim_errors {bad} _.

Section sim.
Context {bad : Z -> bool}.
Implicit Types (d : sim bad).

Definition sim_inb (p : Z) d : Z * sim bad :=
  if sim_busy d then
    (IDE_BSY,
     if bool_decide (sim_cmd d = Some IDE_CMD_READ) && bad (reg_lba (sim_regs d))
     then mkSim (sim_regs d) (sim_sec d) None false true (S (sim_errors d))
     else mkSim (sim_regs d) (sim_sec d) (sim_cmd d) false (sim_failed d) (sim_errors d))
  else (if sim_failed d then Z.lor IDE_DRDY IDE_ERR else IDE_DRDY, d).
Definition sim_outb (p v : Z) d : sim bad :=
  if p =? 0x1f7 then mkSim (sim_regs d) (sim_sec d) (Some v) true false (sim_errors d)
  else if p =? 0x3f6 then d
  else mkSim (fun q => if q =? p then v else sim_regs d q) (sim_sec d) (sim_cmd d) (sim_busy d) (sim_failed d) (sim_errors d).
Definition sim_insl (p : Z) (n : nat) d : list Z * sim bad :=
  (sim_sec d (reg_drive (sim_regs d)) (reg_lba (sim_regs d)),
   mkSim (sim_regs d) (sim_sec d) None (sim_busy d) (sim_failed d) (sim_errors d)).
Definition sim_outsl (p : Z) (l : list Z) d : sim bad :=
  mkSim (sim_regs d)
    (fun w n => if eqb w (reg_drive (sim_regs d)) && (n =? reg_lba (sim_regs d)) then l else sim_sec d w n)
    None (sim_busy d) (sim_failed d) (sim_errors d).

#[export] Instance sim_ata : Ata (sim bad) := {
  dev_inb := sim_inb; dev_outb := sim_outb; dev_insl := sim_insl; dev_outsl := sim_outsl }.
#[export] Instance sim_view : AtaView (sim bad) := {
  regs := sim_regs; sectors := sim_sec; command := sim_cmd;
  busy := fun d => if sim_busy d then 1%nat else 0%nat; failed := sim_failed; errors := sim_errors }.

#[export] Instance sim_spec : AtaSpec (sim bad).
Proof.
  split.
  - intros d p v Hp Hv Hc d'. subst d'. cbn. unfold sim_outb.
    rewrite (proj2 (Z.eqb_neq p 0x1f7)), (proj2 (Z.eqb_neq p 0x3f6)) by lia. done.
  - intros d. apply works_refl.
  - done.
  - intros d v d' E. cbn in *. unfold sim_inb in E. destruct (sim_busy d) eqn:Eb; injection E as <- <-; cbn.
    + split; [|by destruct (_ && _)]. destruct (bool_decide_reflect (sim_cmd d = Some IDE_CMD_READ)) as [Ec|_]; cbn.
      * destruct (bad _); cbn; (split; [done..|]); [by right|by left].
      * split; [done..|]. by left.
    + split; [apply works_refl|]. by destruct (sim_failed d).
  - intros d l Hc Hr Hl d'. subst d'. split; [done|]. split; [done|]. exists l. split; [by left|done].
  - intros d l d' Hc Hr E. cbn in *. unfold sim_insl in E. injection E as <- <-. done.
Qed.

Lemma demo_ready d : (busy d < 2)%nat.
Proof. cbn. destruct (sim_busy d); lia. Qed.

End sim.

(** Two buffers, to be read from block 5 and from block 6; block 6 cannot be read. *)
Definition bad_six (n : Z) : bool := n =? 6.
Definition demo_buf : buf := mkBuf 0 1 5 (mkSleeplock true false "buffer" 1 0) 1 0 0 (replicate 512 0).
Definition demo_buf2 : buf := mkBuf 0 1 6 (mkSleeplock true false "buffer" 1 0) 1 0 0 (replicate 512 0).
Definition demo_drive : sim bad_six := mkSim (fun _ => 0) (fun _ _ => replicate 512 7) None false false 0.
Definition demo_ide : ide (D := sim bad_six) := mkIde demo_drive [demo_buf; demo_buf2] [None; None] None false true [].
Definition demo_bst : bst := mkBst (replicate 1000 (replicate 512 7)) [] false [demo_buf; demo_buf2] 1.

Lemma demo_request : request demo_buf /\ request demo_buf2.
Proof. split; split; cbn; try done; by left. Qed.

Lemma demo_simulates : simulates demo_ide [] demo_bst [] 0.
Proof.
  split; [|constructor|set_solver|set_solver]. split; try done; try set_solver.
  - constructor.
  - intros _. split; [done|]. split; [done|]. intros n Hn. unfold disk_at. cbn [bs_disk demo_bst]. unfold FSSIZE in Hn.
    rewrite nth_lookup, lookup_replicate_2 by lia. done.
Qed.

(** The result of a run that returns *)
Definition the_state {A} (o : out (ide (D := sim bad_six)) A) : ide := match o with Ret _ s | Panic _ s | Fault s | NoFuel s => s end.

(** Both buffers are asked for; two interrupts follow: the first request is served, the second lost. *)
Definition demo_1 := the_state (iderw_enter 2 0 demo_ide).
Definition demo_2 := the_state (iderw_enter 2 1 demo_1).
Definition demo_3 := the_state (ideintr 2 demo_2).
Definition demo_4 := the_state (ideintr 2 demo_3).

Lemma ide_refines_memory_disk_witness : map b_flags (id_bufs demo_4) = [2; 2] /\ errors (id_dev demo_4) = 1%nat /\
  exists t' Q' e', rtc mstep (demo_bst, [], [], 0%nat) (t', Q', [0%nat; 1%nat], e') /\ (e' <= 1)%nat.
Proof.
  split; [vm_compute; reflexivity|]. split; [vm_compute; reflexivity|].
  destruct (ide_refines_memory_disk 2 demo_ready demo_ide [] demo_bst [] 0 demo_4 [0%nat; 1%nat] demo_simulates)
    as (t' & Q' & e' & Hm & _ & He & _).
  - eapply rtc_l; [apply (step_request 2 demo_ide [] 0 demo_buf demo_1); [set_solver|done|apply demo_request|vm_compute; reflexivity]|].
    eapply rtc_l; [apply (step_request 2 demo_1 [0%nat] 1 demo_buf2 demo_2);
      [set_solver|vm_compute; reflexivity|apply demo_request|vm_compute; reflexivity]|].
    eapply rtc_l; [apply (step_interrupt 2 demo_2 _ demo_3); [vm_compute; discriminate|vm_compute; reflexivity]|].
    apply rtc_once, (step_interrupt 2 demo_3 _ demo_4); [vm_compute; discriminate|vm_compute; reflexivity].
  - exists t', Q', e'. split; [exact Hm|]. exact He.
Defined.

(** The interrupt of a read that has failed leaves the buffer as it was but marks it valid: its
    process returns from iderw as if it had the block. *)
Lemma failed_read_is_valid :
  map b_flags (id_bufs demo_4) = [B_VALID; B_VALID] /\
  map b_data (id_bufs demo_4) = [replicate 512 7; b_data demo_buf2] /\ id_woken demo_4 = [0%nat; 1%nat].
Proof. by vm_compute. Qed.
