(* ===== verification/Mp.v ===== *)
(** * Multiprocessor discovery (src/mp.c)

    The tables of the BIOS are in physical memory ([Mem.mem]); P2V of a physical address is that
    address here, and the null pointer is [None].  mpinit records what it finds in the state: the
    local APIC ids of the processors, the number of processors, the id of the I/O APIC and the
    address of the local APIC.  What port 0x23 reads is an argument, what is written to ports is
    recorded.  The loop over the entries of the table takes fuel. *)
From Stdlib Require Import ZArith Lia.
From stdpp Require Import base list numbers strings.
From S2P Require Import Prelude Mem.
Local Open Scope Z_scope.

Definition NCPU : nat := 8.
Definition MPPROC : Z := 0x00.
Definition MPBUS : Z := 0x01.
Definition MPIOAPIC : Z := 0x02.
Definition MPIOINTR : Z := 0x03.
Definition MPLINTR : Z := 0x04.

(** sizeof(struct mp), struct mpconf, struct mpproc, struct mpioapic *)
Definition MP_SIZE : Z := 16.
Definition MPCONF_SIZE : Z := 44.
Definition MPPROC_SIZE : Z := 20.
Definition MPIOAPIC_SIZE : Z := 8.

(** The fields at their offsets *)
Definition mp_physaddr (m : mem) (p : Z) : Z := ld32 m (p + 4).
Definition mp_imcrp (m : mem) (p : Z) : Z := ld8 m (p + 12).
Definition conf_length (m : mem) (p : Z) : Z := ld8 m (p + 4) + ld8 m (p + 5) * 256.
Definition conf_version (m : mem) (p : Z) : Z := ld8 m (p + 6).
Definition conf_lapicaddr (m : mem) (p : Z) : Z := ld32 m (p + 36).
Definition proc_apicid (m : mem) (p : Z) : Z := ld8 m (p + 1).
Definition ioapic_apicno (m : mem) (p : Z) : Z := ld8 m (p + 1).

(** "_MP_" and "PCMP" *)
Definition sig_mp : list Z := [95; 77; 80; 95].
Definition sig_conf : list Z := [80; 67; 77; 80].

(** The sum of [len] bytes, as an unsigned char *)
Definition sum (m : mem) (addr len : Z) : Z :=
  foldl (fun s c => i32 (s + c)) 0 (bytes_at m addr (Z.to_nat len)) mod 256.

(** memcmp(p, "_MP_", 4) == 0 && sum(p, sizeof(struct mp)) == 0 *)
Definition mp_at (m : mem) (p : Z) : bool :=
  bool_decide (bytes_at m p 4 = sig_mp) && (sum m p MP_SIZE =? 0).

(** for(p = addr; p < e; p += sizeof(struct mp)), [n] rounds at most *)
Fixpoint mp_scan (m : mem) (n : nat) (p e : Z) : option Z :=
  match n with
  | O => None
  | S n' => if p <? e then if mp_at m p then Some p else mp_scan m n' (p + MP_SIZE) e else None
  end.
Definition mpsearch1 (m : mem) (a len : Z) : option Z :=
  mp_scan m (S (Z.to_nat (len / MP_SIZE))) a (a + len).

Definition mpsearch (m : mem) : option Z :=
  let bda := 0x400 in
  let p := Z.shiftl (Z.lor (Z.shiftl (ld8 m (bda + 0x0F)) 8) (ld8 m (bda + 0x0E))) 4 in
  let r :=
    if negb (p =? 0) then mpsearch1 m p 1024
    else
      let p := Z.lor (Z.shiftl (ld8 m (bda + 0x14)) 8) (ld8 m (bda + 0x13)) * 1024 in
      mpsearch1 m (u32 (p - 1024)) 1024 in
  match r with
  | Some mp => Some mp
  | None => mpsearch1 m 0xF0000 0x10000
  end.

(** The configuration table and, for the caller, the floating pointer structure *)
Definition mpconfig (m : mem) : option (Z * Z) :=
  match mpsearch m with
  | None => None
  | Some mp =>
      if mp_physaddr m mp =? 0 then None
      else
        let conf := mp_physaddr m mp in
        if negb (bool_decide (bytes_at m conf 4 = sig_conf)) then None
        else if negb (conf_version m conf =? 1) && negb (conf_version m conf =? 4) then None
        else if negb (sum m conf (conf_length m conf) =? 0) then None
        else Some (conf, mp)
  end.

Record mpst := mkMpst {
  mp_mem : mem;
  ncpu : nat;
  apicids : list Z;  (* cpus[i].apicid, NCPU of them *)
  ioapicid : Z;
  lapic : Z;
  mp_out : list (Z * Z) }.  (* outb: port and value *)

Section mpinit.
Context (imcr : Z).  (* inb(0x23) *)

(** One round of the loop over the entries: the next address and ismp *)
Definition mp_entry (e : Z) (a : Z * bool) : M mpst ((Z * bool) + bool) := fun s =>
  let '(p, ismp) := a in
  if p <? e then
    let m := mp_mem s in
    let t := ld8 m p in
    if t =? MPPROC then
      let s' := if (ncpu s <? NCPU)%nat
                then mkMpst m (S (ncpu s)) (<[ncpu s := proc_apicid m p]> (apicids s)) (ioapicid s) (lapic s) (mp_out s)
                else s in
      Ret (inl (p + MPPROC_SIZE, ismp)) s'
    else if t =? MPIOAPIC then
      Ret (inl (p + MPIOAPIC_SIZE, ismp))
        (mkMpst m (ncpu s) (apicids s) (ioapic_apicno m p) (lapic s) (mp_out s))
    else if (t =? MPBUS) || (t =? MPIOINTR) || (t =? MPLINTR) then Ret (inl (p + 8, ismp)) s
    else Ret (inl (p, false)) s
  else Ret (inr ismp) s.

Definition mp_outb (p v : Z) : M mpst unit := modify (fun s =>
  mkMpst (mp_mem s) (ncpu s) (apicids s) (ioapicid s) (lapic s) (mp_out s ++ [(p, v)])).
Definition set_lapic (v : Z) (s : mpst) : mpst :=
  mkMpst (mp_mem s) (ncpu s) (apicids s) (ioapicid s) v (mp_out s).

Definition mpinit (fuel : nat) : M mpst unit :=
  let! m := gets mp_mem in
  match mpconfig m with
  | None => panic "Expect to run on an SMP"
  | Some (conf, mp) =>
      modify (set_lapic (conf_lapicaddr m conf)) ;;;
      let! ismp := loop fuel (mp_entry (conf + conf_length m conf)) (conf + MPCONF_SIZE, true) in
      if negb ismp then panic "Didn't find a suitable machine"
      else
        when (negb (mp_imcrp m mp =? 0))
          (mp_outb 0x22 0x70 ;;;
           mp_outb 0x23 (Z.lor imcr 1))
  end.

End mpinit.

(** ** The search *)

Definition scan_ok (m : mem) (a : Z) (k : nat) : Prop := mp_at m (a + MP_SIZE * Z.of_nat k) = true.

Lemma scan_ok_next m p k : scan_ok m (p + MP_SIZE) k <-> scan_ok m p (S k).
Proof.
  unfold scan_ok. by replace (p + MP_SIZE * Z.of_nat (S k)) with (p + MP_SIZE + MP_SIZE * Z.of_nat k) by lia.
Qed.
Lemma scan_ok_first m p : scan_ok m p 0 <-> mp_at m p = true.
Proof. unfold scan_ok. by replace (p + MP_SIZE * Z.of_nat 0) with p by lia. Qed.

Lemma mp_scan_finds m n p e q : mp_scan m n p e = Some q ->
  exists k, (k < n)%nat /\ q = p + MP_SIZE * Z.of_nat k /\ q < e /\ scan_ok m p k /\ forall j, (j < k)%nat -> ~ scan_ok m p j.
Proof.
  revert p. induction n as [|n IH]; intros p; cbn [mp_scan]; [done|].
  destruct (Z.ltb_spec p e); [|done]. destruct (mp_at m p) eqn:E.
  - intros [= <-]. exists 0%nat. split_and!; [lia|lia|lia|by apply scan_ok_first|lia].
  - intros (k & Hk & -> & He & Hok & Hno)%IH. exists (S k).
    split_and!; [lia|lia|lia|by apply scan_ok_next|].
    intros [|j] Hj Hc; [apply (proj1 (scan_ok_first m p)) in Hc; congruence|].
    apply (proj2 (scan_ok_next m p _)) in Hc. by apply (Hno j); [lia|].
Qed.

Lemma mp_scan_none m n p e : mp_scan m n p e = None -> e <= p + MP_SIZE * Z.of_nat n ->
  forall k, p + MP_SIZE * Z.of_nat k < e -> ~ scan_ok m p k.
Proof.
  assert (MP_SIZE = 16) as HM by done.
  revert p. induction n as [|n IH]; intros p; cbn [mp_scan]; [intros _ ? k ?; lia|].
  destruct (Z.ltb_spec p e); [|intros _ _ k ?; lia]. destruct (mp_at m p) eqn:E; [done|].
  intros Hs He [|k] Hk Hc; [apply (proj1 (scan_ok_first m p)) in Hc; congruence|].
  apply (proj2 (scan_ok_next m p _)) in Hc. by apply (IH (p + MP_SIZE) Hs ltac:(lia) k); [lia|].
Qed.

(** mpsearch1 returns the first address of the range, in steps of the size of the structure, at which
    there is one, and the null pointer when there is none. *)
Lemma mpsearch1_first m a len : 0 <= len ->
  match mpsearch1 m a len with
  | Some p => exists k, p = a + MP_SIZE * Z.of_nat k /\ p < a + len /\ scan_ok m a k /\ forall j, (j < k)%nat -> ~ scan_ok m a j
  | None => forall k, a + MP_SIZE * Z.of_nat k < a + len -> ~ scan_ok m a k
  end.
Proof.
  intros Hl. unfold mpsearch1. destruct (mp_scan _ _ _ _) as [p|] eqn:E.
  - apply mp_scan_finds in E as (k & _ & ? & ? & ? & ?). eauto.
  - eapply mp_scan_none; [exact E|]. change MP_SIZE with 16.
    pose proof (Z.div_mod len 16 ltac:(lia)). pose proof (Z.mod_pos_bound len 16 ltac:(lia)).
    pose proof (Z.div_pos len 16 ltac:(lia) ltac:(lia)). lia.
Qed.

(** ** The entries of the table *)

Inductive entry := EProc (id : Z) | EIoapic (no : Z) | EOther.

(** The entries [es] start at [p], before [e], and the next one would be at [q]. *)
Fixpoint listed (m : mem) (e p : Z) (es : list entry) (q : Z) : Prop :=
  match es with
  | [] => q = p
  | x :: es' => p < e /\
      match x with
      | EProc id => ld8 m p = MPPROC /\ proc_apicid m p = id /\ listed m e (p + MPPROC_SIZE) es' q
      | EIoapic no => ld8 m p = MPIOAPIC /\ ioapic_apicno m p = no /\ listed m e (p + MPIOAPIC_SIZE) es' q
      | EOther => (ld8 m p = MPBUS \/ ld8 m p = MPIOINTR \/ ld8 m p = MPLINTR) /\ listed m e (p + 8) es' q
      end
  end.

Definition procs (es : list entry) : list Z := omap (fun x => match x with EProc id => Some id | _ => None end) es.
Definition ioapics (es : list entry) : list Z := omap (fun x => match x with EIoapic no => Some no | _ => None end) es.

(** What an entry changes *)
Definition note (s : mpst) (x : entry) : mpst :=
  match x with
  | EProc id => if (ncpu s <? NCPU)%nat
                then mkMpst (mp_mem s) (S (ncpu s)) (<[ncpu s := id]> (apicids s)) (ioapicid s) (lapic s) (mp_out s)
                else s
  | EIoapic no => mkMpst (mp_mem s) (ncpu s) (apicids s) no (lapic s) (mp_out s)
  | EOther => s
  end.

Lemma note_mem s x : mp_mem (note s x) = mp_mem s.
Proof. destruct x; simpl; [by destruct (ncpu s <? NCPU)%nat|done..]. Qed.

Lemma mp_entry_known e p x es q b s : listed (mp_mem s) e p (x :: es) q ->
  exists p', mp_entry e (p, b) s = Ret (inl (p', b)) (note s x) /\ listed (mp_mem (note s x)) e p' es q.
Proof.
  rewrite note_mem. intros [Hp Hx]. unfold mp_entry. rewrite (proj2 (Z.ltb_lt _ _) Hp).
  destruct x as [id|no|]; simpl note.
  - destruct Hx as (-> & <- & Hl). eexists. split; [|exact Hl]. done.
  - destruct Hx as (-> & <- & Hl). eexists. split; [|exact Hl]. done.
  - destruct Hx as ([-> | [-> | ->]] & Hl); (eexists; split; [|exact Hl]); done.
Qed.

Lemma mp_entries_run e es : forall n p q s, listed (mp_mem s) e p es q ->
  loop (length es + n) (mp_entry e) (p, true) s = loop n (mp_entry e) (q, true) (foldl note s es).
Proof.
  induction es as [|x es IH]; intros n p q s Hl; [by simpl in Hl; subst|].
  destruct (mp_entry_known e p x es q true s Hl) as (p' & Hrun & Hl').
  cbn [length Nat.add loop foldl]. unfold bind. rewrite Hrun. by apply IH.
Qed.

Lemma take_insert_snoc {A} (l : list A) n x : (n < length l)%nat -> take (S n) (<[n:=x]> l) = take n l ++ [x].
Proof.
  intros Hn. rewrite (take_S_r _ _ x) by (by apply list_lookup_insert_eq). by rewrite take_insert_ge.
Qed.

(** The processors found first, up to the size of the array *)
Lemma note_procs es : forall s, (ncpu s <= NCPU)%nat -> length (apicids s) = NCPU ->
  let s' := foldl note s es in
  (ncpu s' <= NCPU)%nat /\ take (ncpu s') (apicids s') = take NCPU (take (ncpu s) (apicids s) ++ procs es).
Proof.
  induction es as [|x es IH]; intros s Hn Hl s'; subst s'.
  - change (foldl note s []) with s. change (procs []) with (@nil Z). rewrite app_nil_r, take_take.
    split; [done|]. f_equal. lia.
  - cbn [foldl]. destruct x as [id|no|]; [|by apply (IH (note s (EIoapic no)))|by apply IH].
    change (procs (EProc id :: es)) with (id :: procs es).
    destruct (Nat.ltb_spec (ncpu s) NCPU) as [Hlt|Hge].
    + assert (note s (EProc id) = mkMpst (mp_mem s) (S (ncpu s)) (<[ncpu s := id]> (apicids s))
        (ioapicid s) (lapic s) (mp_out s)) as -> by (unfold note; by rewrite (proj2 (Nat.ltb_lt _ _) Hlt)).
      destruct (IH (mkMpst (mp_mem s) (S (ncpu s)) (<[ncpu s := id]> (apicids s)) (ioapicid s) (lapic s) (mp_out s)))
        as [H1 H2]; [simpl; lia|by simpl; rewrite length_insert|].
      split; [done|]. rewrite H2. cbn [ncpu apicids]. rewrite take_insert_snoc by lia. by rewrite <- app_assoc.
    + assert (note s (EProc id) = s) as -> by (unfold note; by rewrite (proj2 (Nat.ltb_ge _ _) Hge)).
      destruct (IH s Hn Hl) as [H1 H2]. split; [done|]. rewrite H2.
      assert (length (take (ncpu s) (apicids s)) = NCPU) as Hlen by (rewrite length_take; lia).
      by rewrite !take_app_le, !take_ge by lia.
Qed.

Lemma note_rest es : forall s, let s' := foldl note s es in
  ioapicid s' = default (ioapicid s) (last (ioapics es)) /\ lapic s' = lapic s.
Proof.
  induction es as [|x es IH]; intros s s'; subst s'; [done|]. cbn [foldl].
  destruct (IH (note s x)) as [-> ->]. destruct x as [id|no|]; [..|done].
  - unfold note. by destruct (ncpu s <? NCPU)%nat.
  - change (ioapics (EIoapic no :: es)) with (no :: ioapics es). split; [|done].
    rewrite last_cons. by destruct (last (ioapics es)).
Qed.

(** C29: when the BIOS has left a configuration table whose entries are all of the five kinds, mpinit
    returns and has recorded the local APIC ids of the first eight processors of the table in its
    order, the id of the last I/O APIC of the table, and the address of the local APIC. *)
Theorem mpinit_finds imcr fuel s conf mp es q : mpconfig (mp_mem s) = Some (conf, mp) ->
  listed (mp_mem s) (conf + conf_length (mp_mem s) conf) (conf + MPCONF_SIZE) es q ->
  conf + conf_length (mp_mem s) conf <= q -> ncpu s = 0%nat -> length (apicids s) = NCPU ->
  (length es < fuel)%nat ->
  exists s', mpinit imcr fuel s = Ret tt s' /\ take (ncpu s') (apicids s') = take NCPU (procs es) /\
    ioapicid s' = default (ioapicid s) (last (ioapics es)) /\ lapic s' = conf_lapicaddr (mp_mem s) conf.
Proof.
  intros Hc Hl Hq Hn Ha Hf. unfold mpinit, bind, gets, modify. rewrite Hc.
  set (m := mp_mem s) in *. set (s1 := set_lapic (conf_lapicaddr m conf) s).
  replace fuel with (length es + S (fuel - length es - 1))%nat by lia.
  rewrite (mp_entries_run _ es _ _ q s1 Hl). cbn [loop]. unfold bind, mp_entry at 1.
  rewrite (proj2 (Z.ltb_ge _ _) Hq). cbn [ret negb].
  destruct (note_procs es s1) as [_ Hp]; [simpl; lia|done|]. destruct (note_rest es s1) as [Hi Hla].
  replace (take (ncpu s1) (apicids s1)) with (@nil Z) in Hp by (simpl; by rewrite Hn).
  unfold when. destruct (negb (mp_imcrp m mp =? 0)); eexists; done.
Qed.

(** A loop that does not end with more fuel does not end with less. *)
Lemma loop_more_fuel {S A R} (body : A -> M S (A + R)) k : forall n a s s', loop (n + k) body a s = NoFuel s' ->
  exists s'', loop n body a s = NoFuel s''.
Proof.
  induction n as [|n IH]; intros a s s' H; [by exists s|]. cbn [Nat.add loop] in *. unfold bind in *.
  destruct (body a s) as [[a'|r] s1| | |]; [by eapply IH|done|done|done|eauto].
Qed.

Lemma unknown_spins e q b s : q < e -> MPLINTR < ld8 (mp_mem s) q ->
  forall n, loop n (mp_entry e) (q, b) s = NoFuel s.
Proof.
  intros Hq Ht n. revert b. induction n as [|n IH]; intros b; [done|]. cbn [loop]. unfold bind, mp_entry at 1.
  rewrite (proj2 (Z.ltb_lt _ _) Hq). unfold MPPROC, MPIOAPIC, MPBUS, MPIOINTR, MPLINTR in *.
  rewrite !(proj2 (Z.eqb_neq _ _)) by lia. cbn [orb]. apply IH.
Qed.

Lemma foldl_note_mem es s : mp_mem (foldl note s es) = mp_mem s.
Proof. revert s. induction es as [|x es IH]; intros s; [done|]. cbn [foldl]. by rewrite IH, note_mem. Qed.

(** C36: an entry of another kind makes mpinit wait without end: the break of its default case leaves
    the switch and not the loop, and the entry is looked at again.  No amount of fuel is enough. *)
Theorem mpinit_unknown_entry_spins imcr s conf mp es q : mpconfig (mp_mem s) = Some (conf, mp) ->
  listed (mp_mem s) (conf + conf_length (mp_mem s) conf) (conf + MPCONF_SIZE) es q ->
  q < conf + conf_length (mp_mem s) conf -> MPLINTR < ld8 (mp_mem s) q ->
  forall fuel, exists s', mpinit imcr fuel s = NoFuel s'.
Proof.
  intros Hc Hl Hq Ht fuel. unfold mpinit, bind, gets, modify. rewrite Hc.
  set (m := mp_mem s) in *. set (s1 := set_lapic (conf_lapicaddr m conf) s).
  destruct (loop_more_fuel (mp_entry (conf + conf_length m conf)) (length es) fuel (conf + MPCONF_SIZE, true) s1
    (foldl note s1 es)) as [s2 ->]; [|eauto].
  rewrite Nat.add_comm, (mp_entries_run _ es _ _ q s1 Hl). apply unknown_spins; [done|].
  by rewrite foldl_note_mem.
Qed.

(** ** A machine with two processors *)

(** The bytes of a BIOS: the base memory size is 640 KB, the structure is in its last KB. *)
Definition conf_bytes (last : Z) : list Z :=
  sig_conf ++ [100; 0; 4; 0] ++ replicate 28 0 ++ [0; 0; 224; 254] ++ [0; 0; 0; 0] ++
  ([0; 5] ++ replicate 18 0) ++ ([0; 7] ++ replicate 18 0) ++ [2; 1; 0; 0; 0; 0; 0; 0] ++ [last; 0; 0; 0; 0; 0; 0; 0].
Definition with_checksum (k : nat) (l : list Z) : list Z := <[k := (- foldr Z.add 0 l) mod 256]> l.
Definition mp_bytes : list Z := sig_mp ++ [0; 16; 0; 0] ++ [1; 4; 0; 0; 0; 0; 0; 0].
Definition demo_bios (last : Z) : mem :=
  st_bytes (st_bytes (st_bytes (fun _ => 0) 0x413 [128; 2]) 0x9FC40 (with_checksum 10 mp_bytes))
    0x1000 (with_checksum 7 (conf_bytes last)).
Definition demo_mp (last : Z) : mpst := mkMpst (demo_bios last) 0 (replicate 8 0) 0 0 [].

Lemma demo_conf last : last = 3 \/ last = 9 -> mpconfig (demo_bios last) = Some (0x1000, 0x9FC40).
Proof. intros [-> | ->]; by vm_compute. Qed.

Lemma mpinit_finds_witness : exists s', mpinit 0 9 (demo_mp 3) = Ret tt s' /\
  take (ncpu s') (apicids s') = [5; 7] /\ ioapicid s' = 1 /\ lapic s' = 0xfee00000.
Proof.
  destruct (mpinit_finds 0 9 (demo_mp 3) 0x1000 0x9FC40 [EProc 5; EProc 7; EIoapic 1; EOther] (0x1000 + 100))
    as (s' & Hrun & H1 & H2 & H3).
  - apply demo_conf. by left.
  - vm_compute. split_and!; try done. right. by left.
  - by vm_compute.
  - done.
  - done.
  - simpl. lia.
  - exists s'. split; [done|]. split; [done|]. split; [done|]. rewrite H3. by vm_compute.
Defined.

Lemma mpinit_unknown_entry_spins_witness : exists s', mpinit 0 1000 (demo_mp 9) = NoFuel s'.
Proof.
  apply (mpinit_unknown_entry_spins 0 (demo_mp 9) 0x1000 0x9FC40 [EProc 5; EProc 7; EIoapic 1] (0x1000 + 92)).
  - apply demo_conf. by right.
  - vm_compute. split_and!; done.
  - by vm_compute.
  - by vm_compute.
Defined.
