(* ===== verification/Boot.v ===== *)
(** * The boot loader (src/bootmain.c)

    bootmain reads the kernel, an ELF file that starts at sector 1 of the first drive, into physical
    memory.  The drive is an argument ([Ide.Ata]); waiting for it and the loop over the sectors
    take fuel.  [Some entry] is the jump to the entry point, [None] the return to bootasm.S. *)
From Stdlib Require Import ZArith Lia.
From stdpp Require Import base list numbers strings.
From S2P Require Import Prelude Mem Ide IdeThms.
Import Prelude.
Local Open Scope Z_scope.

Definition SECTSIZE : Z := 512.
Definition ELF_SCRATCH : Z := 0x10000.
Definition BOOT_MAGIC : Z := 0x464C457F.

(** Fields of struct elfhdr and struct proghdr at their offsets *)
Definition elf_magic (m : mem) (p : Z) : Z := ld32 m p.
Definition elf_entry (m : mem) (p : Z) : Z := ld32 m (p + 24).
Definition elf_phoff (m : mem) (p : Z) : Z := ld32 m (p + 28).
Definition elf_phnum (m : mem) (p : Z) : Z := ld8 m (p + 44) + ld8 m (p + 45) * 256.

Record phdr := mkPhdr { p_off : Z; p_paddr : Z; p_filesz : Z; p_memsz : Z }.
Definition phdr_at (m : mem) (p : Z) : phdr :=
  mkPhdr (ld32 m (p + 4)) (ld32 m (p + 12)) (ld32 m (p + 16)) (ld32 m (p + 20)).
Definition PHDR_SIZE : Z := 32.

Section boot.
Context {D : Type} `{Ata D} (fuel : nat).

Record boot := mkBoot { bt_dev : D; bt_mem : mem }.

Definition bt_inb (p : Z) : M boot Z := fun s =>
  let '(v, d) := dev_inb p (bt_dev s) in Ret v (mkBoot d (bt_mem s)).
Definition bt_outb (p v : Z) : M boot unit :=
  modify (fun s => mkBoot (dev_outb p (v mod 256) (bt_dev s)) (bt_mem s)).
Definition bt_insl (p addr : Z) (n : nat) : M boot unit := fun s =>
  let '(l, d) := dev_insl p n (bt_dev s) in Ret tt (mkBoot d (st_bytes (bt_mem s) addr l)).

Definition waitdisk : M boot unit :=
  loop fuel (fun _ : unit =>
    let! r := bt_inb 0x1F7 in
    if negb (Z.land r 0xC0 =? 0x40) then ret (inl tt) else ret (inr tt)) tt.

Definition readsect (dst offset : Z) : M boot unit :=
  waitdisk ;;;
  bt_outb 0x1F2 1 ;;;
  bt_outb 0x1F3 offset ;;;
  bt_outb 0x1F4 (Z.shiftr offset 8) ;;;
  bt_outb 0x1F5 (Z.shiftr offset 16) ;;;
  bt_outb 0x1F6 (Z.lor (Z.shiftr offset 24) 0xE0) ;;;
  bt_outb 0x1F7 0x20 ;;;
  waitdisk ;;;
  bt_insl 0x1F0 dst (Z.to_nat (SECTSIZE / 4)).

Definition readseg (pa count offset : Z) : M boot unit :=
  let epa := u32 (pa + count) in
  let pa := u32 (pa - offset mod SECTSIZE) in
  let offset := offset / SECTSIZE + 1 in
  loop fuel (fun a : Z * Z =>
    let '(pa, offset) := a in
    if pa <? epa then readsect pa offset ;;; ret (inl (u32 (pa + SECTSIZE), u32 (offset + 1)))
    else ret (inr tt)) (pa, offset).

(** for(; ph < eph; ph++), with [n] headers to go *)
Fixpoint load_phs (n : nat) (ph : Z) : M boot unit :=
  match n with
  | O => skip
  | S n' =>
      let! h := gets (fun s => phdr_at (bt_mem s) ph) in
      let pa := p_paddr h in
      readseg pa (p_filesz h) (p_off h) ;;;
      when (p_filesz h <? p_memsz h)
        (modify (fun s => mkBoot (bt_dev s)
           (stosb (bt_mem s) (u32 (pa + p_filesz h)) 0 (Z.to_nat (p_memsz h - p_filesz h))))) ;;;
      load_phs n' (ph + PHDR_SIZE)
  end.

Definition bootmain : M boot (option Z) :=
  let elf := ELF_SCRATCH in
  readseg elf 4096 0 ;;;
  let! m := gets bt_mem in
  if negb (elf_magic m elf =? BOOT_MAGIC) then ret None
  else
    load_phs (Z.to_nat (elf_phnum m elf)) (elf + elf_phoff m elf) ;;;
    let! m := gets bt_mem in
    ret (Some (elf_entry m elf)).

End boot.
