(* ===== verification/BootThms.v ===== *)
(** * The boot loader loads the kernel

    On a drive with the behaviour of [AtaSpec], readseg fills memory with the bytes of the kernel
    file in whole sectors, and bootmain leaves each segment of the file at its physical address,
    followed by zeroes up to its size in memory. *)
From Stdlib Require Import ZArith Lia.
From stdpp Require Import base sets list numbers strings.
From S2P Require Import Prelude Mem Ide IdeThms Boot.
Import Prelude.
Local Open Scope Z_scope.

Section boot.
Context {D : Type} {HA : Ata D} {HV : AtaView D} {HS : AtaSpec D} (fuel : nat).
(** The drive becomes ready while the loader waits, and its reads do not fail. *)
Hypothesis Hdrive : forall d : D, (busy d < fuel)%nat.
Hypothesis Hreads : forall (d d' : D) v, dev_inb 0x1f7 d = (v, d') -> command d' = command d.

(** The sectors of the first drive *)
Context (disk : Z -> list Z).
Hypothesis Hdisk : forall n, length (disk n) = 512%nat /\ Forall (fun c => 0 <= c < 256) (disk n).

(** The drive holds the disk and waits for a command. *)
Definition idle (d : D) : Prop := command d = None /\ forall n, sectors d false n = disk n.

(** Two states of a drive that differ only in how busy it is *)
Definition same_dev (d d' : D) : Prop := works d d' /\ command d' = command d.

Lemma idle_same (d d' : D) : same_dev d d' -> idle d -> idle d'.
Proof. intros [[_ Hs _] Hc] [H1 H2]. split; [by rewrite Hc|]. intros n. by rewrite Hs. Qed.

Lemma same_trans (d1 d2 d3 : D) : same_dev d1 d2 -> same_dev d2 d3 -> same_dev d1 d3.
Proof. intros [A1 A2] [B1 B2]. split; [by eapply works_trans|congruence]. Qed.

Lemma waitdisk_spec (s : boot) : wp (waitdisk fuel) (fun _ s' => exists d', same_dev (bt_dev s) d' /\
  s' = mkBoot d' (bt_mem s)) s.
Proof.
  apply (wp_loop (fun n _ s' => n = busy (bt_dev s') /\
    exists d', same_dev (bt_dev s) d' /\ s' = mkBoot d' (bt_mem s))) with (n := busy (bt_dev s)).
  - intros n [] s' (-> & d & Hd & ->). cbn [bt_dev]. wp_step. unfold wp at 1, bt_inb. cbn [bt_dev bt_mem].
    destruct (dev_inb 0x1f7 d) as [v d'] eqn:E. pose proof (Hreads _ _ _ E) as Hc. apply inb_status in E as (Hs' & Hv).
    assert (same_dev d d') as Hs by done.
    change (Z.lor IDE_BSY IDE_DRDY) with 0xC0 in Hv. change IDE_DRDY with 0x40 in Hv.
    destruct (Nat.eqb_spec (busy d) 0) as [Eb|Eb]; destruct Hv as [Hv1 Hv2].
    + rewrite Hv1, Z.eqb_refl. cbn [negb]. wp_step. exists d'. split; [by eapply same_trans|done].
    + rewrite (proj2 (Z.eqb_neq _ _) Hv1). cbn [negb]. wp_step. exists (busy d'). split; [lia|]. split; [done|].
      exists d'. split; [by eapply same_trans|done].
  - apply Hdrive.
  - split; [done|]. exists (bt_dev s). split; [split; [apply works_refl|done]|by destruct s].
Qed.

Lemma sector_regs n : 0 <= n < 2 ^ 28 ->
  n mod 256 + Z.shiftr n 8 mod 256 * 2 ^ 8 + Z.shiftr n 16 mod 256 * 2 ^ 16 +
    Z.land (Z.lor (Z.shiftr n 24) 0xE0 mod 256) 15 * 2 ^ 24 = n /\
  Z.testbit (Z.lor (Z.shiftr n 24) 0xE0 mod 256) 4 = false.
Proof.
  intros Hn. rewrite !Z.shiftr_div_pow2 by lia.
  assert (0 <= n / 2 ^ 24 < 16) as Hh by (split; [apply Z.div_pos; lia|apply Z.div_lt_upper_bound; lia]).
  assert (Z.land (Z.lor (n / 2 ^ 24) 0xE0 mod 256) 15 = n / 2 ^ 24 /\
          Z.testbit (Z.lor (n / 2 ^ 24) 0xE0 mod 256) 4 = false) as [-> ->].
  { generalize dependent (n / 2 ^ 24). intros h Hh.
    assert (h = 0 \/ h = 1 \/ h = 2 \/ h = 3 \/ h = 4 \/ h = 5 \/ h = 6 \/ h = 7 \/ h = 8 \/ h = 9 \/ h = 10 \/
            h = 11 \/ h = 12 \/ h = 13 \/ h = 14 \/ h = 15) as Hc by lia.
    by repeat (destruct Hc as [-> | Hc]; [done|]); subst. }
  split; [|done].
  replace (2 ^ 16) with (2 ^ 8 * 2 ^ 8) by done. replace (2 ^ 24) with (2 ^ 8 * 2 ^ 8 * 2 ^ 8) by done.
  rewrite <- !Z.div_div by lia. change (2 ^ 8) with 256.
  pose proof (Z.div_mod n 256 ltac:(lia)). pose proof (Z.div_mod (n / 256) 256 ltac:(lia)).
  pose proof (Z.div_mod (n / 256 / 256) 256 ltac:(lia)). lia.
Qed.

Lemma readsect_spec dst n (s : boot) : idle (bt_dev s) -> 0 <= n < 2 ^ 28 ->
  wp (readsect fuel dst n) (fun _ s' => exists d', idle d' /\ s' = mkBoot d' (st_bytes (bt_mem s) dst (disk n))) s.
Proof.
  intros Hi Hn. destruct (sector_regs n Hn) as [Hlba Hdrv]. unfold readsect. wp_step.
  eapply wp_mono; [apply waitdisk_spec|]. intros _ s1 (d1 & Hd1 & ->).
  destruct (idle_same _ _ Hd1 Hi) as [Hc Hsec]. unfold bt_outb.
  do 12 wp_step. wp_step. eapply wp_mono; [apply waitdisk_spec|]. cbn [bt_dev bt_mem].
  change (1 mod 256) with 1. change (0x20 mod 256) with IDE_CMD_READ.
  assert (forall x, 0 <= x mod 256 < 256) as Hb by (intros; apply Z.mod_pos_bound; lia).
  pose proof (outb_reg d1 0x1f2 1 ltac:(lia) ltac:(lia) Hc) as (R1 & S1 & C1 & _).
  pose proof (outb_reg _ 0x1f3 _ ltac:(lia) (Hb n) C1) as (R2 & S2 & C2 & _).
  pose proof (outb_reg _ 0x1f4 _ ltac:(lia) (Hb (Z.shiftr n 8)) C2) as (R3 & S3 & C3 & _).
  pose proof (outb_reg _ 0x1f5 _ ltac:(lia) (Hb (Z.shiftr n 16)) C3) as (R4 & S4 & C4 & _).
  pose proof (outb_reg _ 0x1f6 _ ltac:(lia) (Hb (Z.lor (Z.shiftr n 24) 0xE0)) C4) as (R5 & S5 & C5 & _).
  pose proof (outb_cmd _ IDE_CMD_READ C5 ltac:(by left)) as (R6 & S6 & C6 & _).
  intros _ s2 (d2 & [[Hr2 Hs2 _] Hc2] & ->). unfold wp, bt_insl. cbn [bt_dev bt_mem].
  change (Z.to_nat (SECTSIZE / 4)) with 128%nat. destruct (dev_insl 0x1f0 128 d2) as [l d3] eqn:E.
  apply insl_read in E as (-> & Hs3 & Hc3 & _); [|by rewrite Hc2|by rewrite Hr2, R6, R5, R4, R3, R2, R1].
  exists d3. split.
  - split; [done|]. intros k. by rewrite Hs3, Hs2, S6, S5, S4, S3, S2, S1.
  - do 2 f_equal. rewrite Hs2. unfold reg_drive, reg_lba.
    rewrite !Hr2, !R6, !R5, !R4, !R3, !R2. simpl Z.eqb. cbv iota. rewrite Hdrv, Hlba.
    by rewrite S6, S5, S4, S3, S2, S1.
Qed.

(** ** Reading a part of the file *)

(** The bytes of the kernel file, which starts at sector 1 *)
Definition kbyte (k : Z) : Z := nth (Z.to_nat (k mod 512)) (disk (k / 512 + 1)) 0.

(** The memory that readseg writes: whole sectors *)
Definition seg_lo (pa off : Z) : Z := pa - off mod 512.
Definition seg_rounds (count off : Z) : Z := (count + off mod 512 + 511) / 512.
Definition seg_hi (pa count off : Z) : Z := seg_lo pa off + 512 * seg_rounds count off.

Definition filled (m m' : mem) (pa off lo hi : Z) : Prop :=
  forall y, ld8 m' y = if (lo <=? y) && (y <? hi) then kbyte (off + (y - pa)) else ld8 m y.

Lemma kbyte_sector off pa i y : 0 <= off -> 0 <= i ->
  seg_lo pa off + 512 * i <= y < seg_lo pa off + 512 * (i + 1) ->
  kbyte (off + (y - pa)) = nth (Z.to_nat (y - (seg_lo pa off + 512 * i))) (disk (off / 512 + 1 + i)) 0.
Proof.
  intros Ho Hi Hy. unfold kbyte, seg_lo in *. pose proof (Z.div_mod off 512 ltac:(lia)) as Hd.
  set (r := y - (pa - off mod 512 + 512 * i)). assert (0 <= r < 512) as Hr by lia.
  assert (off + (y - pa) = r + (off / 512 + i) * 512) as -> by lia.
  rewrite Z.mod_add, Z.div_add, Z.mod_small, Z.div_small by lia.
  by replace (0 + (off / 512 + i) + 1) with (off / 512 + 1 + i) by lia.
Qed.

Lemma ld8_st_bytes_in m a l y : Forall (fun c => 0 <= c < 256) l -> a <= y < a + Z.of_nat (length l) ->
  ld8 (st_bytes m a l) y = nth (Z.to_nat (y - a)) l 0.
Proof.
  intros Hl Hy. pose proof (bytes_at_st_bytes m a l Hl) as E.
  apply (f_equal (fun k => k !! Z.to_nat (y - a))) in E. rewrite lookup_bytes_at in E by lia.
  replace (a + Z.of_nat (Z.to_nat (y - a))) with y in E by lia. rewrite nth_lookup, <- E. done.
Qed.

Lemma filled_sector m m1 pa off i : 0 <= off -> 0 <= i ->
  filled m m1 pa off (seg_lo pa off) (seg_lo pa off + 512 * i) ->
  filled m (st_bytes m1 (seg_lo pa off + 512 * i) (disk (off / 512 + 1 + i))) pa off
    (seg_lo pa off) (seg_lo pa off + 512 * (i + 1)).
Proof.
  intros Ho Hi Hm y. destruct (Hdisk (off / 512 + 1 + i)) as [Hlen Hbytes].
  destruct (decide (seg_lo pa off + 512 * i <= y < seg_lo pa off + 512 * (i + 1))) as [Hy|Hy].
  - rewrite ld8_st_bytes_in by (done || lia). rewrite <- kbyte_sector by lia. zcase.
  - rewrite ld8_st_bytes_out by lia. rewrite Hm. zcase.
Qed.

Lemma seg_rounds_bounds count off : 0 <= count ->
  0 <= seg_rounds count off /\ count + off mod 512 <= 512 * seg_rounds count off < count + off mod 512 + 512.
Proof.
  intros Hc. unfold seg_rounds. pose proof (Z.mod_pos_bound off 512 ltac:(lia)).
  pose proof (Z.div_mod (count + off mod 512 + 511) 512 ltac:(lia)).
  pose proof (Z.mod_pos_bound (count + off mod 512 + 511) 512 ltac:(lia)). lia.
Qed.

Lemma readseg_spec pa count off (s : boot) : idle (bt_dev s) -> 0 <= count -> 0 <= off < 2 ^ 32 -> 512 <= pa ->
  pa + count + 512 < 2 ^ 32 -> count / 512 + 2 < Z.of_nat fuel ->
  wp (readseg fuel pa count off) (fun _ s' => exists d' m', idle d' /\ s' = mkBoot d' m' /\
    filled (bt_mem s) m' pa off (seg_lo pa off) (seg_hi pa count off)) s.
Proof.
  intros Hi Hc Ho Hpa Hend Hf. destruct (seg_rounds_bounds count off Hc) as [HN0 HN].
  pose proof (Z.mod_pos_bound off 512 ltac:(lia)). pose proof (Z.div_mod off 512 ltac:(lia)).
  pose proof (Z.div_mod count 512 ltac:(lia)). pose proof (Z.mod_pos_bound count 512 ltac:(lia)).
  unfold readseg. change SECTSIZE with 512. fold (seg_lo pa off).
  rewrite (u32_small (pa + count)), (u32_small (seg_lo pa off)) by (unfold seg_lo; lia).
  set (N := seg_rounds count off) in *.
  apply (wp_loop (fun n a s' => exists i d m, 0 <= i <= N /\ n = Z.to_nat (N - i) /\
    a = (seg_lo pa off + 512 * i, off / 512 + 1 + i) /\ s' = mkBoot d m /\ idle d /\
    filled (bt_mem s) m pa off (seg_lo pa off) (seg_lo pa off + 512 * i))) with (n := Z.to_nat N).
  - intros n a s' (i & d & m & Hi0 & -> & -> & -> & Hd & Hm). unfold seg_lo in *.
    destruct (Z.ltb_spec (pa - off mod 512 + 512 * i) (pa + count)) as [Hlt|Hge].
    + wp_step. eapply wp_mono; [apply readsect_spec; [done|lia]|]. cbn [bt_mem].
      intros _ s1 (d1 & Hd1 & ->). wp_step. rewrite !u32_small by lia.
      exists (Z.to_nat (N - (i + 1))). split; [lia|]. exists (i + 1), d1. eexists. split; [lia|]. split; [done|].
      split; [f_equal; lia|]. split; [reflexivity|]. split; [done|]. apply filled_sector; [lia|lia|done].
    + wp_step. exists d, m. split; [done|]. split; [done|]. assert (i = N) as -> by lia. done.
  - lia.
  - exists 0, (bt_dev s), (bt_mem s). split; [lia|]. split; [f_equal; lia|]. split; [f_equal; lia|].
    split; [by destruct s|]. split; [done|]. intros y. zcase.
Qed.

(** ** The segments *)

(** The memory that loading a segment writes *)
Definition wlo (h : phdr) : Z := seg_lo (p_paddr h) (p_off h).
Definition whi (h : phdr) : Z := Z.max (seg_hi (p_paddr h) (p_filesz h) (p_off h)) (p_paddr h + p_memsz h).

(** A segment that fits the memory and leaves the headers in the scratch page alone *)
Definition good (h : phdr) : Prop :=
  0 <= p_off h < 2 ^ 32 /\ 512 <= p_paddr h /\ 0 <= p_filesz h /\ p_paddr h + p_filesz h + 512 < 2 ^ 32 /\
  p_filesz h / 512 + 2 < Z.of_nat fuel /\ (ELF_SCRATCH + 4096 <= wlo h \/ whi h <= ELF_SCRATCH).

(** Loading [g] after [h] does not touch what [h] has put into memory. *)
Definition apart_from (h g : phdr) : Prop :=
  whi g <= p_paddr h \/ p_paddr h + Z.max (p_filesz h) (p_memsz h) <= wlo g.

(** The segment is in memory: the bytes of the file, then zeroes. *)
Definition loaded (m : mem) (h : phdr) : Prop := forall k, 0 <= k ->
  (k < p_filesz h -> ld8 m (p_paddr h + k) = kbyte (p_off h + k)) /\
  (p_filesz h <= k < p_memsz h -> ld8 m (p_paddr h + k) = 0).

Definition untouched (lo hi : Z) (m m' : mem) : Prop := forall y, y < lo \/ hi <= y -> ld8 m' y = ld8 m y.

Lemma wlo_le h : wlo h <= p_paddr h.
Proof. unfold wlo, seg_lo. pose proof (Z.mod_pos_bound (p_off h) 512 ltac:(lia)). lia. Qed.

Lemma loaded_after m m' h g : apart_from h g -> untouched (wlo g) (whi g) m m' -> loaded m h -> loaded m' h.
Proof.
  intros Ha Hm Hl k Hk. destruct (Hl k Hk) as [H1 H2]. unfold apart_from in Ha.
  split; intros; rewrite Hm by lia; auto.
Qed.

Lemma load_one h (s : boot) : idle (bt_dev s) -> good h ->
  wp (readseg fuel (p_paddr h) (p_filesz h) (p_off h) ;;;
      when (p_filesz h <? p_memsz h)
        (modify (fun s => mkBoot (bt_dev s)
           (stosb (bt_mem s) (u32 (p_paddr h + p_filesz h)) 0 (Z.to_nat (p_memsz h - p_filesz h))))))
    (fun _ s' => idle (bt_dev s') /\ loaded (bt_mem s') h /\ untouched (wlo h) (whi h) (bt_mem s) (bt_mem s')) s.
Proof.
  intros Hi (Ho & Hpa & Hfs & Hend & Hf & _). wp_step. eapply wp_mono; [by apply readseg_spec|].
  intros _ s1 (d & m & Hd & -> & Hm). destruct (seg_rounds_bounds (p_filesz h) (p_off h) Hfs) as [_ HN].
  pose proof (wlo_le h) as Hlo.
  assert (forall k, 0 <= k < p_filesz h -> ld8 m (p_paddr h + k) = kbyte (p_off h + k)) as Hfile.
  { intros k Hk. rewrite Hm. unfold seg_hi, wlo, seg_lo in *. zcase. f_equal. lia. }
  assert (untouched (wlo h) (whi h) (bt_mem s) m) as Hu.
  { intros y Hy. rewrite Hm. unfold whi, wlo in Hy. zcase. }
  apply wp_when; intros Hb.
  - apply Z.ltb_lt in Hb. wp_step. cbn [bt_dev bt_mem]. rewrite (u32_small (p_paddr h + p_filesz h)) by lia.
    split; [done|]. split.
    + intros k Hk. rewrite ld8_stosb. split; intros Hk'.
      * rewrite <- Hfile by lia. zcase.
      * zcase.
    + intros y Hy. rewrite ld8_stosb, <- Hu by done. unfold whi in Hy. pose proof (wlo_le h). zcase.
  - apply Z.ltb_ge in Hb. cbn [bt_dev bt_mem]. split; [done|]. split; [|done].
    intros k Hk. split; intros; [apply Hfile|]; lia.
Qed.

Lemma phdr_at_ext m m' p : (forall y, p <= y < p + PHDR_SIZE -> ld8 m' y = ld8 m y) -> phdr_at m' p = phdr_at m p.
Proof.
  unfold PHDR_SIZE. intros Hm. unfold phdr_at. f_equal; apply ld32_ext; intros y Hy; apply Hm; lia.
Qed.

(** The headers from [ph] on, in the scratch page *)
Definition headers (m : mem) (ph : Z) (hs : list phdr) : Prop :=
  ELF_SCRATCH <= ph /\ ph + PHDR_SIZE * Z.of_nat (length hs) <= ELF_SCRATCH + 4096 /\
  forall i h, hs !! i = Some h -> phdr_at m (ph + PHDR_SIZE * Z.of_nat i) = h.

(** The scratch page is as it was. *)
Definition same_page (m m' : mem) : Prop := forall y, ELF_SCRATCH <= y < ELF_SCRATCH + 4096 -> ld8 m' y = ld8 m y.

Lemma headers_next m m' ph h hs : headers m ph (h :: hs) -> same_page m m' -> headers m' (ph + PHDR_SIZE) hs.
Proof.
  unfold headers, PHDR_SIZE. intros (H1 & H2 & H3) Hm. simpl length in H2. split; [lia|]. split; [lia|].
  intros i g Hi. rewrite <- (H3 (S i) g Hi).
  replace (ph + 32 * Z.of_nat (S i)) with (ph + 32 + 32 * Z.of_nat i) by lia.
  apply phdr_at_ext. unfold PHDR_SIZE. intros y Hy. apply lookup_lt_Some in Hi. apply Hm. lia.
Qed.

Lemma untouched_page m m' h : good h -> untouched (wlo h) (whi h) m m' -> same_page m m'.
Proof. intros (_ & _ & _ & _ & _ & Hp) Hu y Hy. apply Hu. lia. Qed.

Lemma load_phs_spec hs : forall ph (s : boot) done, idle (bt_dev s) -> headers (bt_mem s) ph hs -> Forall good hs ->
  ForallOrdPairs apart_from hs -> (forall h, h ∈ done -> loaded (bt_mem s) h /\ Forall (apart_from h) hs) ->
  wp (load_phs fuel (length hs) ph) (fun _ s' => same_page (bt_mem s) (bt_mem s') /\
    forall h, h ∈ done ++ hs -> loaded (bt_mem s') h) s.
Proof.
  induction hs as [|h hs IH]; intros ph s dn Hi Hh Hg Hp Hdn; cbn [length load_phs].
  { apply wp_skip. split; [done|]. intros h. rewrite app_nil_r. intros [? _]%Hdn. done. }
  inversion_clear Hg as [|? ? Hgh Hg']. inversion_clear Hp as [|? ? Hph Hp'].
  wp_step. wp_step. replace (phdr_at (bt_mem s) ph) with h.
  2:{ destruct Hh as (_ & _ & Hh). rewrite <- (Hh 0%nat h eq_refl). f_equal. unfold PHDR_SIZE. lia. }
  cbv zeta. apply wp_assoc. wp_step. eapply wp_mono; [by apply load_one|].
  intros _ s1 (Hi1 & Hl1 & Hu1). pose proof (untouched_page _ _ _ Hgh Hu1) as Hpg.
  eapply wp_mono; [apply (IH _ s1 (dn ++ [h])); [done|by eapply headers_next|done|done|]|].
  - intros g [Hgd|Hgd]%elem_of_app.
    + destruct (Hdn g Hgd) as [Hlg Hag]. inversion_clear Hag. split; [by eapply loaded_after|done].
    + apply list_elem_of_singleton in Hgd as ->. done.
  - intros _ s2 [Hpg2 Hall]. split; [intros y Hy; by rewrite Hpg2, Hpg|].
    intros g Hgd. apply Hall. rewrite <- app_assoc. done.
Qed.

(** ** The kernel *)

(** The kernel file, placed in the scratch page *)
Definition kmem : mem := fun y => kbyte (y - ELF_SCRATCH).

Lemma kbyte_range k : 0 <= kbyte k < 256.
Proof.
  unfold kbyte. destruct (Hdisk (k / 512 + 1)) as [Hl Hb]. rewrite Forall_forall in Hb. apply Hb.
  rewrite nth_lookup. pose proof (Z.mod_pos_bound k 512 ltac:(lia)).
  destruct (lookup_lt_is_Some_2 (disk (k / 512 + 1)) (Z.to_nat (k mod 512))) as [c Hc]; [lia|].
  rewrite Hc. by eapply list_elem_of_lookup_2.
Qed.

Lemma ld8_kmem y : ld8 kmem y = kbyte (y - ELF_SCRATCH).
Proof. unfold ld8, kmem. apply Z.mod_small, kbyte_range. Qed.

(** The program headers of the file *)
Definition segments : list phdr :=
  map (fun i => phdr_at kmem (ELF_SCRATCH + elf_phoff kmem ELF_SCRATCH + PHDR_SIZE * Z.of_nat i))
    (seq 0 (Z.to_nat (elf_phnum kmem ELF_SCRATCH))).

(** C28: when the drive becomes ready within [fuel] readings of its status (more than ten), its reads do not fail, and the
    file at sector 1 of the drive is an ELF file whose program headers are in its first
    4096 bytes and whose segments fit the memory and do not overwrite each other, the boot loader
    puts every segment at its physical address, fills it up with zeroes to its size in memory, and
    jumps to the entry point of the file. *)
Theorem bootmain_loads (s : boot) : idle (bt_dev s) -> elf_magic kmem ELF_SCRATCH = BOOT_MAGIC ->
  elf_phoff kmem ELF_SCRATCH + PHDR_SIZE * elf_phnum kmem ELF_SCRATCH <= 4096 ->
  Forall good segments -> ForallOrdPairs apart_from segments -> (10 < fuel)%nat ->
  wp (bootmain fuel) (fun r s' => r = Some (elf_entry kmem ELF_SCRATCH) /\
    forall h, h ∈ segments -> loaded (bt_mem s') h) s.
Proof.
  intros Hi Hmag Hph Hg Hp Hf. unfold bootmain. wp_step.
  eapply wp_mono; [apply (readseg_spec ELF_SCRATCH 4096 0); try done; [change (4096 / 512) with 8; lia]|].
  intros _ s1 (d & m & Hd & -> & Hm). cbv zeta. wp_step. wp_step. cbn [bt_mem].
  assert (same_page kmem m) as Hpg.
  { intros y Hy. rewrite Hm, ld8_kmem. change (seg_hi ELF_SCRATCH 4096 0) with (ELF_SCRATCH + 4096).
    change (seg_lo ELF_SCRATCH 0) with ELF_SCRATCH. zcase. }
  assert (forall m', same_page m m' -> forall k, 0 <= k -> k + 4 <= 4096 ->
    ld32 m' (ELF_SCRATCH + k) = ld32 kmem (ELF_SCRATCH + k)) as H32.
  { intros m' Hm' k H0 H1. apply ld32_ext. intros y Hy. rewrite Hm', Hpg by lia. done. }
  pose proof (ld8_range kmem (ELF_SCRATCH + 44)). pose proof (ld8_range kmem (ELF_SCRATCH + 45)).
  pose proof (ld32_range kmem (ELF_SCRATCH + 28)).
  assert (elf_magic m ELF_SCRATCH = BOOT_MAGIC) as ->.
  { rewrite <- Hmag. unfold elf_magic. rewrite <- (Z.add_0_r ELF_SCRATCH). by apply H32. }
  rewrite Z.eqb_refl. cbn [negb].
  assert (elf_phnum m ELF_SCRATCH = elf_phnum kmem ELF_SCRATCH) as ->
    by (unfold elf_phnum; by rewrite !Hpg by (unfold ELF_SCRATCH; lia)).
  assert (elf_phoff m ELF_SCRATCH = elf_phoff kmem ELF_SCRATCH) as -> by (by apply H32).
  wp_step. assert (Z.to_nat (elf_phnum kmem ELF_SCRATCH) = length segments) as ->
    by (unfold segments; by rewrite length_map, length_seq).
  eapply wp_mono; [apply (load_phs_spec segments _ _ []); [done| |done|done|set_solver]|].
  - split; [unfold elf_phoff in *; lia|]. split.
    { unfold segments. rewrite length_map, length_seq. unfold elf_phnum, PHDR_SIZE in *. lia. }
    intros i h Hih. unfold segments in Hih. apply list_lookup_fmap_Some in Hih as (j & -> & Hj).
    apply lookup_seq in Hj as [-> Hj]. cbn [bt_mem Nat.add]. apply phdr_at_ext. intros y Hy. apply Hpg.
    unfold elf_phnum, elf_phoff, PHDR_SIZE in *. lia.
  - intros _ s2 [Hpg2 Hall]. wp_step. wp_step. wp_step. split; [|done]. f_equal. by apply H32.
Qed.

End boot.

(** ** A small kernel *)

(** An ELF file with one segment: four bytes of the file, and four more in memory *)
Definition demo_elf : list Z :=
  [127; 69; 76; 70] ++ replicate 20 0 ++ [0; 0; 16; 0] ++ [52; 0; 0; 0] ++ replicate 12 0 ++ [1; 0] ++ replicate 6 0 ++
  [1; 0; 0; 0] ++ [100; 0; 0; 0] ++ [0; 0; 16; 128] ++ [0; 0; 16; 0] ++ [4; 0; 0; 0] ++ [8; 0; 0; 0] ++ replicate 8 0 ++
  replicate 16 0 ++ [11; 22; 33; 44].
Definition demo_sector (n : Z) : list Z :=
  if n =? 1 then demo_elf ++ replicate (512 - length demo_elf) 0 else replicate 512 0.
Definition no_bad (n : Z) : bool := false.
Definition demo_boot : boot (D := sim no_bad) :=
  mkBoot (mkSim (fun _ => 0) (fun _ => demo_sector) None false false 0) (fun _ => 0).

Lemma demo_sector_ok n : length (demo_sector n) = 512%nat /\ Forall (fun c => 0 <= c < 256) (demo_sector n).
Proof.
  unfold demo_sector. destruct (n =? 1).
  - split; [by vm_compute|]. apply (bool_decide_unpack _). by vm_compute.
  - split; [done|]. apply Forall_replicate. lia.
Qed.

Lemma demo_segments : segments demo_sector = [mkPhdr 100 0x100000 4 8].
Proof. by vm_compute. Qed.

Lemma demo_good : good 11 (mkPhdr 100 0x100000 4 8).
Proof. unfold good. cbn [p_off p_paddr p_filesz]. split_and!; try (by vm_compute). left. by vm_compute. Qed.

Lemma demo_waits (d : sim no_bad) : (busy d < 11)%nat.
Proof. pose proof (demo_ready d). lia. Qed.

Lemma demo_reads (d d' : sim no_bad) v : dev_inb 0x1f7 d = (v, d') -> command d' = command d.
Proof. cbn. unfold sim_inb. rewrite andb_false_r. by destruct (sim_busy d); intros [= _ <-]. Qed.

Lemma bootmain_loads_witness : exists s', bootmain 11 demo_boot = Ret (Some 0x100000) s' /\
  loaded demo_sector (bt_mem s') (mkPhdr 100 0x100000 4 8).
Proof.
  destruct (wp_elim _ _ _ (bootmain_loads 11 demo_waits demo_reads demo_sector demo_sector_ok demo_boot ltac:(done)
    ltac:(by vm_compute) ltac:(by vm_compute) ltac:(rewrite demo_segments; apply Forall_singleton, demo_good)
    ltac:(rewrite demo_segments; repeat constructor) ltac:(lia))) as (r & s' & Hrun & Hr & Hl).
  exists s'. split; [by rewrite Hrun, Hr|]. apply Hl. rewrite demo_segments. apply list_elem_of_here.
Defined.
