(* ===== verification/Devices.v ===== *)
(** * Interrupt controllers, clock chip and serial port
      (src/lapic.c, src/ioapic.c, src/picirq.c, src/uart.c)

    The hardware is an argument: the class [Hw] of what the kernel does to it, reading and writing
    ports, registers of the local APIC and the two words of the I/O APIC.  The loops that wait for the
    hardware take fuel.  [dv_lapic] is whether the pointer lapic
    has been set. *)
From Stdlib Require Import ZArith Lia.
From stdpp Require Import base list numbers strings.
From S2P Require Import Prelude Mem.
Local Open Scope Z_scope.

Class Hw (D : Type) := {
  hw_inb : Z -> D -> Z * D;
  hw_outb : Z -> Z -> D -> D;
  hw_lapic_rd : Z -> D -> Z * D;  (* lapic[index] *)
  hw_lapic_wr : Z -> Z -> D -> D;
  hw_ioapic_data : D -> Z * D;  (* ioapic->data *)
  hw_ioapic_reg_wr : Z -> D -> D;  (* ioapic->reg = reg *)
  hw_ioapic_data_wr : Z -> D -> D }.

(** ** Constants *)

Definition ID : Z := 0x0020 / 4.
Definition VER : Z := 0x0030 / 4.
Definition TPR : Z := 0x0080 / 4.
Definition EOI : Z := 0x00B0 / 4.
Definition SVR : Z := 0x00F0 / 4.
Definition ENABLE : Z := 0x00000100.
Definition ESR : Z := 0x0280 / 4.
Definition ICRLO : Z := 0x0300 / 4.
Definition INIT : Z := 0x00000500.
Definition STARTUP : Z := 0x00000600.
Definition DELIVS : Z := 0x00001000.
Definition ASSERT : Z := 0x00004000.
Definition LEVEL : Z := 0x00008000.
Definition BCAST : Z := 0x00080000.
Definition ICRHI : Z := 0x0310 / 4.
Definition TIMER : Z := 0x0320 / 4.
Definition X1 : Z := 0x0000000B.
Definition PERIODIC : Z := 0x00020000.
Definition PCINT : Z := 0x0340 / 4.
Definition LINT0 : Z := 0x0350 / 4.
Definition LINT1 : Z := 0x0360 / 4.
Definition ERROR : Z := 0x0370 / 4.
Definition MASKED : Z := 0x00010000.
Definition TICR : Z := 0x0380 / 4.
Definition TDCR : Z := 0x03E0 / 4.

Definition IRQ0 : Z := 32.  (* T_IRQ0 *)
Definition REG_ID : Z := 0x00.
Definition REG_VER : Z := 0x01.
Definition REG_TABLE : Z := 0x10.
Definition INT_DISABLED : Z := 0x00010000.

Definition CMOS_PORT : Z := 0x70.
Definition CMOS_RETURN : Z := 0x71.
Definition CMOS_STATA : Z := 0x0a.
Definition CMOS_STATB : Z := 0x0b.
Definition CMOS_UIP : Z := Z.shiftl 1 7.
Definition SECS : Z := 0x00.
Definition MINS : Z := 0x02.
Definition HOURS : Z := 0x04.
Definition DAY : Z := 0x07.
Definition MONTH : Z := 0x08.
Definition YEAR : Z := 0x09.

Definition COM1 : Z := 0x3f8.

Record rtcdate := mkDate { second : Z; minute : Z; hour : Z; day : Z; month : Z; year : Z }.
#[export] Instance rtcdate_eq_dec : EqDecision rtcdate.
Proof. solve_decision. Defined.

Section devices.
Context {D : Type} `{Hw D} (fuel : nat).

Record dev := mkDev {
  dv_hw : D;
  dv_mem : mem;
  dv_lapic : bool;
  dv_uart : bool;
  dv_msgs : list string }.  (* what cprintf was called with, without the newline *)
Definition set_dv_hw (v : D) (s : dev) : dev := mkDev v (dv_mem s) (dv_lapic s) (dv_uart s) (dv_msgs s).

Definition dinb (p : Z) : M dev Z := fun s => let '(v, d) := hw_inb p (dv_hw s) in Ret v (set_dv_hw d s).
Definition doutb (p v : Z) : M dev unit := modify (fun s => set_dv_hw (hw_outb p (v mod 256) (dv_hw s)) s).

(** ** The local APIC *)

Definition lapicr (index : Z) : M dev Z := fun s =>
  let '(v, d) := hw_lapic_rd index (dv_hw s) in Ret v (set_dv_hw d s).
Definition lapicw (index value : Z) : M dev unit :=
  modify (fun s => set_dv_hw (hw_lapic_wr index (u32 value) (dv_hw s)) s) ;;;
  lapicr ID ;;;
  skip.

(** while(lapic[ICRLO] & DELIVS) *)
Definition lapic_wait : M dev unit :=
  loop fuel (fun _ : unit =>
    let! v := lapicr ICRLO in
    if negb (Z.land v DELIVS =? 0) then ret (inl tt) else ret (inr tt)) tt.

Definition lapicinit : M dev unit :=
  let! l := gets dv_lapic in
  if negb l then skip
  else
    lapicw SVR (Z.lor ENABLE (IRQ0 + 31)) ;;;
    lapicw TDCR X1 ;;;
    lapicw TIMER (Z.lor PERIODIC (IRQ0 + 0)) ;;;
    lapicw TICR 10000000 ;;;
    lapicw LINT0 MASKED ;;;
    lapicw LINT1 MASKED ;;;
    let! v := lapicr VER in
    when (4 <=? Z.land (Z.shiftr v 16) 0xFF) (lapicw PCINT MASKED) ;;;
    lapicw ERROR (IRQ0 + 19) ;;;
    lapicw ESR 0 ;;;
    lapicw ESR 0 ;;;
    lapicw EOI 0 ;;;
    lapicw ICRHI 0 ;;;
    lapicw ICRLO (Z.lor (Z.lor BCAST INIT) LEVEL) ;;;
    lapic_wait ;;;
    lapicw TPR 0.

Definition lapicid : M dev Z :=
  let! l := gets dv_lapic in
  if negb l then ret 0
  else
    let! v := lapicr ID in
    ret (Z.shiftr v 24).

Definition lapiceoi : M dev unit :=
  let! l := gets dv_lapic in
  when l (lapicw EOI 0).

Definition microdelay (us : Z) : M dev unit := skip.

(** wrv[i] = v, for the warm reset vector at 40:67 *)
Definition set_wrv (i v : Z) : M dev unit := modify (fun s =>
  let a := Z.lor (Z.shiftl 0x40 4) 0x67 + 2 * i in
  mkDev (dv_hw s) (st8 (st8 (dv_mem s) a v) (a + 1) (v / 256)) (dv_lapic s) (dv_uart s) (dv_msgs s)).

Definition lapicstartap (apicid addr : Z) : M dev unit :=
  doutb CMOS_PORT 0xF ;;;
  doutb (CMOS_PORT + 1) 0x0A ;;;
  set_wrv 0 0 ;;;
  set_wrv 1 (Z.shiftr addr 4) ;;;
  lapicw ICRHI (Z.shiftl apicid 24) ;;;
  lapicw ICRLO (Z.lor (Z.lor INIT LEVEL) ASSERT) ;;;
  microdelay 200 ;;;
  lapicw ICRLO (Z.lor INIT LEVEL) ;;;
  microdelay 100 ;;;
  for_each 2 0 (fun _ =>
    lapicw ICRHI (Z.shiftl apicid 24) ;;;
    lapicw ICRLO (Z.lor STARTUP (Z.shiftr addr 12)) ;;;
    microdelay 200).

(** ** The clock *)

Definition cmos_read (reg : Z) : M dev Z :=
  doutb CMOS_PORT reg ;;;
  microdelay 200 ;;;
  dinb CMOS_RETURN.

Definition fill_rtcdate : M dev rtcdate :=
  let! s := cmos_read SECS in
  let! mi := cmos_read MINS in
  let! h := cmos_read HOURS in
  let! d := cmos_read DAY in
  let! mo := cmos_read MONTH in
  let! y := cmos_read YEAR in
  ret (mkDate s mi h d mo y).

(** CONV(x): a number of two decimal digits, one in each half of the byte *)
Definition CONV (x : Z) : Z := u32 (Z.shiftr x 4 * 10 + Z.land x 0xf).

(** One round of the loop of cmostime *)
Definition cmos_round (_ : unit) : M dev (unit + rtcdate) :=
  let! t1 := fill_rtcdate in
  let! a := cmos_read CMOS_STATA in
  if negb (Z.land a CMOS_UIP =? 0) then ret (inl tt)
  else
    let! t2 := fill_rtcdate in
    if decide (t1 = t2) then ret (inr t1) else ret (inl tt).

Definition cmostime : M dev rtcdate :=
  let! sb := cmos_read CMOS_STATB in
  let bcd := Z.land sb (Z.shiftl 1 2) =? 0 in
  let! t1 := loop fuel cmos_round tt in
  let t1 := if bcd then mkDate (CONV (second t1)) (CONV (minute t1)) (CONV (hour t1)) (CONV (day t1))
                          (CONV (month t1)) (CONV (year t1))
            else t1 in
  ret (mkDate (second t1) (minute t1) (hour t1) (day t1) (month t1) (u32 (year t1 + 2000))).

(** ** The I/O APIC and the interrupt controllers of the PC *)

Definition ioapicread (reg : Z) : M dev Z := fun s =>
  let '(v, d) := hw_ioapic_data (hw_ioapic_reg_wr reg (dv_hw s)) in Ret v (set_dv_hw d s).
Definition ioapicwrite (reg data : Z) : M dev unit :=
  modify (fun s => set_dv_hw (hw_ioapic_data_wr (u32 data) (hw_ioapic_reg_wr reg (dv_hw s))) s).

Definition io_disable (i : nat) : M dev unit :=
  ioapicwrite (REG_TABLE + 2 * Z.of_nat i) (Z.lor INT_DISABLED (IRQ0 + Z.of_nat i)) ;;;
  ioapicwrite (REG_TABLE + 2 * Z.of_nat i + 1) 0.

Definition ioapicinit (ioapicid : Z) : M dev unit :=
  let! v := ioapicread REG_VER in
  let maxintr := Z.land (Z.shiftr v 16) 0xFF in
  let! v := ioapicread REG_ID in
  let id := Z.shiftr v 24 in
  when (negb (id =? ioapicid))
    (modify (fun s => mkDev (dv_hw s) (dv_mem s) (dv_lapic s) (dv_uart s)
       (dv_msgs s ++ ["ioapicinit: id isn't equal to ioapicid; not a MP"%string]))) ;;;
  for_each (Z.to_nat (maxintr + 1)) 0 io_disable.

Definition ioapicenable (irq cpunum : Z) : M dev unit :=
  ioapicwrite (REG_TABLE + 2 * irq) (IRQ0 + irq) ;;;
  ioapicwrite (REG_TABLE + 2 * irq + 1) (Z.shiftl cpunum 24).

Definition picinit : M dev unit :=
  doutb (0x20 + 1) 0xFF ;;;
  doutb (0xA0 + 1) 0xFF.

(** ** The serial port *)

Definition uart_putc (c : Z) : M dev unit :=
  let! u := gets dv_uart in
  if negb u then skip
  else
    for_range 128 0 (fun _ =>
      let! v := dinb (COM1 + 5) in
      if negb (Z.land v 0x20 =? 0) then ret (Some tt) else microdelay 10 ;;; ret None) ;;;
    doutb (COM1 + 0) c.

(** "xv6...\n" *)
Definition uart_hello : list Z := [120; 118; 54; 46; 46; 46; 10].

Definition uartinit : M dev unit :=
  doutb (COM1 + 2) 0 ;;;
  doutb (COM1 + 3) 0x80 ;;;
  doutb (COM1 + 0) (115200 / 9600) ;;;
  doutb (COM1 + 1) 0 ;;;
  doutb (COM1 + 3) 0x03 ;;;
  doutb (COM1 + 4) 0 ;;;
  doutb (COM1 + 1) 0x01 ;;;
  let! v := dinb (COM1 + 5) in
  if v =? 0xFF then skip
  else
    modify (fun s => mkDev (dv_hw s) (dv_mem s) (dv_lapic s) true (dv_msgs s)) ;;;
    dinb (COM1 + 2) ;;;
    dinb (COM1 + 0) ;;;
    ioapicenable 4 0 ;;;
    foldr (fun c k => uart_putc c ;;; k) skip uart_hello.

Definition uartgetc : M dev Z :=
  let! u := gets dv_uart in
  if negb u then ret (-1)
  else
    let! v := dinb (COM1 + 5) in
    if Z.land v 0x01 =? 0 then ret (-1) else dinb (COM1 + 0).

End devices.
