(* ===== verification/DeviceThms.v ===== *)
(** * What the drivers of the small devices do

    cmostime returns the date that the clock shows, in either of its two encodings; ioapicinit masks
    every pin of the I/O APIC and ioapicenable opens one.  A small machine that satisfies the laws
    assumed of the clock and of the I/O APIC is at the end. *)
From Stdlib Require Import ZArith Lia.
From stdpp Require Import base list numbers strings.
From S2P Require Import Prelude Mem Devices.
Local Open Scope Z_scope.

(** ** The clock *)

(** A number below 100 as two decimal digits *)
Definition bcd (x : Z) : Z := x / 10 * 16 + x mod 10.

Lemma CONV_bcd x : 0 <= x < 100 -> CONV (bcd x) = x.
Proof.
  intros Hx. unfold CONV, bcd. change 0xf with (Z.ones 4). rewrite Z.land_ones, Z.shiftr_div_pow2 by lia.
  change (2 ^ 4) with 16. pose proof (Z.div_mod x 10 ltac:(lia)). pose proof (Z.mod_pos_bound x 10 ltac:(lia)).
  rewrite (Z.add_comm (x / 10 * 16)), Z.div_add, Z.mod_add, Z.div_small, Z.mod_small by lia.
  rewrite u32_small; lia.
Qed.

Section clock.
Context {D : Type} {HH : Hw D} (fuel : nat).
(** While the clock is not being updated it shows the values [shown] of its registers. *)
Context (quiet : D -> Prop) (shown : Z -> Z).
Hypothesis Hquiet : forall d r v d', quiet d -> hw_inb CMOS_RETURN (hw_outb CMOS_PORT r d) = (v, d') ->
  v = shown r /\ quiet d'.
Hypothesis Huip : Z.land (shown CMOS_STATA) CMOS_UIP = 0.

Lemma wp_cmos_read r Q (s : dev) : quiet (dv_hw s) -> 0 <= r < 256 ->
  (forall d, quiet d -> Q (shown r) (set_dv_hw d s)) -> wp (cmos_read r) Q s.
Proof.
  intros Hq Hr HQ. unfold cmos_read, doutb, microdelay. do 4 wp_step. unfold wp, dinb. cbn [dv_hw set_dv_hw].
  rewrite Z.mod_small by done. destruct (hw_inb CMOS_RETURN _) as [v d'] eqn:E.
  apply Hquiet in E as [-> Hq']; [|done]. by apply HQ.
Qed.

Definition date_shown : rtcdate :=
  mkDate (shown SECS) (shown MINS) (shown HOURS) (shown DAY) (shown MONTH) (shown YEAR).

Lemma wp_fill Q (s : dev) : quiet (dv_hw s) -> (forall d, quiet d -> Q date_shown (set_dv_hw d s)) ->
  wp fill_rtcdate Q s.
Proof.
  intros Hq HQ. unfold fill_rtcdate.
  do 6 (wp_step; apply wp_cmos_read; [done|unfold SECS, MINS, HOURS, DAY, MONTH, YEAR; lia|]; intros ? ?).
  wp_step. by apply HQ.
Qed.

(** C30: cmostime (lapic.c): while the clock is not being updated and shows a date of the years 2000 to
    2099, as plain numbers or as pairs of decimal digits, whichever its register B says, cmostime returns
    that date, after one round of its loop. *)
Theorem cmostime_reads (s : dev) t : quiet (dv_hw s) -> (0 < fuel)%nat ->
  (let show x := if Z.land (shown CMOS_STATB) (Z.shiftl 1 2) =? 0 then bcd x else x in
   date_shown = mkDate (show (second t)) (show (minute t)) (show (hour t)) (show (day t)) (show (month t))
                  (show (year t - 2000))) ->
  Forall (fun x => 0 <= x < 100) [second t; minute t; hour t; day t; month t; year t - 2000] ->
  wp (cmostime fuel) (fun r _ => r = t) s.
Proof.
  intros Hq Hf Hd Ht. unfold cmostime. wp_step.
  apply wp_cmos_read; [done|unfold CMOS_STATB; lia|]. intros d1 Hq1. cbv zeta. wp_step.
  apply (wp_loop (fun n _ s' => n = 0%nat /\ quiet (dv_hw s'))) with (n := 0%nat); [|done|done].
  intros n [] s' [-> Hq']. unfold cmos_round. wp_step. apply wp_fill; [done|]. intros d2 Hq2.
  wp_step. apply wp_cmos_read; [done|unfold CMOS_STATA; lia|]. intros d3 Hq3. rewrite Huip. cbn [Z.eqb negb].
  wp_step. apply wp_fill; [done|]. intros d4 Hq4. destruct (decide _); [|done]. do 2 wp_step.
  rewrite !Forall_cons in Ht. destruct Ht as (? & ? & ? & ? & ? & ? & _). rewrite Hd. cbv zeta.
  destruct (Z.land (shown CMOS_STATB) (Z.shiftl 1 2) =? 0); cbn [second minute hour day month year];
    rewrite ?CONV_bcd by done; rewrite u32_small by lia; destruct t; cbn in *; f_equal; lia.
Qed.

End clock.

(** ** The I/O APIC *)

Section ioapic.
Context {D : Type} {HH : Hw D}.
(** The registers behind the window, and what a write through it does *)
Context (reg : D -> Z -> Z).
Hypothesis Hwr : forall d r v q, reg (hw_ioapic_data_wr v (hw_ioapic_reg_wr r d)) q = if q =? r then v else reg d q.

Definition pin_lo (s : dev (D := D)) (i : Z) : Z := reg (dv_hw s) (REG_TABLE + 2 * i).
Definition pin_hi (s : dev (D := D)) (i : Z) : Z := reg (dv_hw s) (REG_TABLE + 2 * i + 1).

(** ioapicenable: the pin of the interrupt is not masked any more and leads to its vector on the given
    processor; the other pins are as they were. *)
Lemma ioapicenable_opens irq cpu (s : dev) : 0 <= irq < 24 -> 0 <= cpu < 256 ->
  wp (ioapicenable irq cpu) (fun _ s' => forall i,
    pin_lo s' i = (if i =? irq then IRQ0 + irq else pin_lo s i) /\
    pin_hi s' i = (if i =? irq then cpu * 2 ^ 24 else pin_hi s i)) s.
Proof.
  intros Hi Hc. unfold ioapicenable, ioapicwrite. do 3 wp_step. intros i. unfold pin_lo, pin_hi. cbn [dv_hw set_dv_hw].
  rewrite !Hwr, Z.shiftl_mul_pow2, !u32_small by (unfold IRQ0; lia). split; zcase.
Qed.

Definition masked (i : nat) : Z := Z.lor INT_DISABLED (IRQ0 + Z.of_nat i).

Lemma io_disable_masks i (s : dev) : Z.of_nat i < 256 ->
  wp (io_disable i) (fun _ s' => forall j,
    pin_lo s' j = (if j =? Z.of_nat i then masked i else pin_lo s j) /\
    pin_hi s' j = (if j =? Z.of_nat i then 0 else pin_hi s j)) s.
Proof.
  intros Hi. unfold io_disable, ioapicwrite. do 3 wp_step. intros j. unfold pin_lo, pin_hi. cbn [dv_hw set_dv_hw].
  rewrite !Hwr. fold (masked i). rewrite (u32_small 0), (u32_small (masked i)); [split; zcase| |lia].
  apply lor_word; unfold INT_DISABLED, IRQ0; lia.
Qed.

(** Reading a register through the window changes none. *)
Hypothesis Hrd : forall d r v d' q, hw_ioapic_data (hw_ioapic_reg_wr r d) = (v, d') -> v = reg d r /\ reg d' q = reg d q.

Lemma wp_ioapicread r Q (s : dev) :
  (forall d, (forall q, reg d q = reg (dv_hw s) q) -> Q (reg (dv_hw s) r) (set_dv_hw d s)) -> wp (ioapicread r) Q s.
Proof.
  intros HQ. unfold wp, ioapicread. destruct (hw_ioapic_data _) as [v d'] eqn:E.
  rewrite (proj1 (Hrd _ _ _ _ 0 E)). apply HQ. intros q. by apply (Hrd _ _ _ _ q E).
Qed.

(** ioapicinit: every pin that the controller says it has is masked and leads to no processor. *)
Lemma ioapicinit_masks ioapicid (s : dev) :
  let maxintr := Z.land (Z.shiftr (reg (dv_hw s) REG_VER) 16) 0xFF in
  wp (ioapicinit ioapicid) (fun _ s' => forall i, Z.of_nat i <= maxintr ->
    pin_lo s' (Z.of_nat i) = masked i /\ pin_hi s' (Z.of_nat i) = 0) s.
Proof.
  intros maxintr. assert (Hm : 0 <= maxintr < 256).
  { unfold maxintr. change 0xFF with (Z.ones 8). rewrite Z.land_ones by lia. apply Z.mod_pos_bound. lia. }
  unfold ioapicinit. wp_step. apply wp_ioapicread. intros d1 _. cbv zeta. fold maxintr.
  wp_step. apply wp_ioapicread. intros d2 _. wp_step. apply wp_when; intros _; [wp_step|].
  all: apply (wp_for_each (fun n s' => forall i, (i < n)%nat ->
         pin_lo s' (Z.of_nat i) = masked i /\ pin_hi s' (Z.of_nat i) = 0)); [lia| |intros s' Hs i Hi; apply Hs; lia].
  all: intros n s' Hn HI; eapply wp_mono; [apply io_disable_masks; lia|]; intros [] s'' Hs i Hi;
    rewrite (proj1 (Hs _)), (proj2 (Hs _)); destruct (Z.eqb_spec (Z.of_nat i) (Z.of_nat n)) as [E|E];
    [by apply Nat2Z.inj in E as ->|apply HI; lia].
Qed.

End ioapic.

(** ** A machine with a clock and an I/O APIC *)

Record machine := mkMachine { mc_sel : Z; mc_shown : Z -> Z; mc_win : Z; mc_regs : Z -> Z }.
#[export] Instance machine_hw : Hw machine := {
  hw_inb p m := (if p =? CMOS_RETURN then mc_shown m (mc_sel m) else 0, m);
  hw_outb p v m := if p =? CMOS_PORT then mkMachine v (mc_shown m) (mc_win m) (mc_regs m) else m;
  hw_lapic_rd _ m := (0, m);
  hw_lapic_wr _ _ m := m;
  hw_ioapic_data m := (mc_regs m (mc_win m), m);
  hw_ioapic_reg_wr r m := mkMachine (mc_sel m) (mc_shown m) r (mc_regs m);
  hw_ioapic_data_wr v m := mkMachine (mc_sel m) (mc_shown m) (mc_win m)
    (fun q => if q =? mc_win m then v else mc_regs m q) }.

(** 23:59:58 on 31 December 2026, in decimal digits *)
Definition new_year_eve (r : Z) : Z :=
  if r =? SECS then 0x58 else if r =? MINS then 0x59 else if r =? HOURS then 0x23
  else if r =? DAY then 0x31 else if r =? MONTH then 0x12 else if r =? YEAR then 0x26
  else if r =? CMOS_STATB then 2 else 0.
Definition a_machine : dev (D := machine) :=
  mkDev (mkMachine 0 new_year_eve 0 (fun q => if q =? REG_VER then 0x170011 else 0)) (fun _ => 0) true false [].

Lemma cmostime_reads_witness :
  wp (cmostime 1) (fun r _ => r = mkDate 58 59 23 31 12 2026) a_machine.
Proof.
  apply (cmostime_reads 1 (fun m => mc_shown m = new_year_eve) new_year_eve).
  - intros m r v m' Hm [= <- <-]. cbn. by rewrite Hm.
  - reflexivity.
  - reflexivity.
  - lia.
  - reflexivity.
  - repeat constructor; cbn; lia.
Defined.

(** The laws of the I/O APIC hold of it: ioapicinit masks its 24 pins. *)
Lemma a_machine_masks : wp (ioapicinit 0) (fun _ s' => forall i, Z.of_nat i <= 23 ->
  pin_lo mc_regs s' (Z.of_nat i) = masked i /\ pin_hi mc_regs s' (Z.of_nat i) = 0) a_machine.
Proof.
  apply (ioapicinit_masks mc_regs); [done|]. intros m r v m' q [= <- <-]. done.
Qed.
